(* ===== verification/_CoqProject ===== *)
-Q . S2P
Prelude.v
Mem.v
Buf.v
Der.v
Cbs.v
CbsAsn1.v
Cbb.v
CbbSpec.v
CbbAsn1.v
Unicode.v
Ber.v
BerSpec.v
PosixTime.v
CbsTime.v
ConstTime.v
Base64.v
Stack.v
StackSpec.v
Lhash.v
LhashSpec.v
Pb.v
PbIter.v
PbDecode.v
PbEncode.v
PbReadSpec.v
PbWriteSpec.v
Digest.v
Sha2.v
Sha2Spec.v
Sha1.v
Sha1Spec.v
Mdx.v
Evp.v
Hmac.v
Kdf.v
KdfSpec.v
Poly1305.v
Poly1305Spec.v
Chacha.v
ChachaSpec.v
Aead.v
AeadSpec.v
BnWords.v
BnMul.v
BnMulSpec.v
Bn.v
BnSpec.v
BnCtxSpec.v
BnProduct.v
BnProductSpec.v
BnMont.v
BnMontSpec.v
BnBytesSpec.v
BnShiftSpec.v
BnDiv.v
BnDivSpec.v
BnModSpec.v
BnDivConstSpec.v
BnMontCtx.v
BnMontCtxSpec.v
