(* ===== verification/Prelude.v ===== *)
(** * The byte-level substrate of this application

    The application is a small SwiftUI client of Firebase Auth; everything it
    sends goes through the gRPC pod, whose C part is BoringSSL
    ([src/FirebaseLogin/Pods/BoringSSL-GRPC/src/crypto/], written [crypto/]
    below), and Firestore encodes its documents with nanopb
    ([src/FirebaseLogin/Pods/nanopb/], written [nanopb/]).  This library models
    the part of BoringSSL that all of its parsers and writers stand on: the
    bounds-checked reader [CBS] and writer [CBB] with their ASN.1 layer, the BER
    converter, the character, time and base64 codecs, and the containers
    [BUF_MEM], [STACK] and [LHASH]; the hash functions and what is built over
    them up to authenticated encryption; the big numbers of the public-key
    algorithms; and of nanopb the wire layer of the protocol buffers.

    ** The files

    - [Prelude.v] (this file): machine integers as [Z] with the wrap of their C
      type written out ([u8] ... [u64]); the state-and-error monad [ST S A]
      ([S -> option A * S]: a C function that returns 0 is [None] and still has a
      state); bytes as [list Z] with [bytes_ok]; big-endian and decimal numerals;
      the tactics [st_inv], [simp_bytes], [solve_bytes], [dlia], [byte_compute].
    - [Mem.v], [crypto/mem.c]: [OPENSSL_malloc] and its relatives over the class
      [Malloc]; [CRYPTO_memcmp], the FNV hash, character classes, [strlcpy].
    - [Buf.v], [crypto/buf/buf.c]: [BUF_MEM].
    - [Der.v]: the grammar of DER and BER headers, minimal integers and base-128
      numbers, as functions from values to bytes; no code, only specification.
    - [Cbs.v] and [CbsAsn1.v], [crypto/bytestring/cbs.c]: the reader.  A [CBS] is
      the list of the bytes it still holds, so that a read is an [ST bytes].
    - [Cbb.v] and [CbbAsn1.v], [crypto/bytestring/cbb.c] and [asn1_compat.c]: the
      writer.  Its state is the shared buffer with the chain of open children; a
      handle is a depth in that chain.  [CbbSpec.v] is its abstract
      specification: a message is the bytes of each open level ([msg]), [rep]
      relates a [CBB] to a message, and [outcome s sp r] says that a call is the
      operation [sp] on messages: it succeeds only with the message of [sp], and
      fails, with the sticky error set, only when [sp] is undefined or there is no
      room ([fits]).
    - [Unicode.v], [crypto/bytestring/unicode.c]: the character encodings.
    - [Ber.v], [crypto/bytestring/ber.c]: the BER converter, which reads a [CBS]
      and writes a [CBB]; [BerSpec.v] is the grammar of BER as trees and the DER
      of a tree.
    - [PosixTime.v], [crypto/asn1/posix_time.c], and [CbsTime.v], the time readers
      of [cbs.c] over it.
    - [ConstTime.v], the branch-free primitives of [crypto/internal.h], and
      [Base64.v], [crypto/base64/base64.c], which uses them.
    - [Stack.v], [crypto/stack/stack.c], with [StackSpec.v]; [Lhash.v],
      [crypto/lhash/lhash.c], with [LhashSpec.v].
    - [Pb.v], [nanopb/pb.h]; [PbIter.v], [nanopb/pb_common.c], the iterator over
      field descriptors; [PbDecode.v] and [PbEncode.v], [nanopb/pb_decode.c] and
      [nanopb/pb_encode.c], streams over callbacks with the codecs of scalar
      fields and submessages.  [PbReadSpec.v] relates a decoding call to the
      bytes its stream may still give ([reads]), [PbWriteSpec.v] an encoding call
      to the bytes it adds ([writes]).
    - [Digest.v], the collector of blocks that the hash functions share
      ([crypto/fipsmodule/digest/md32_common.h], and its 64-bit twin in
      [sha512.c]) over any block function, with what a hash of blocks is
      ([hash_message]).  [Sha2.v] ([sha256.c], [sha512.c]), [Sha1.v] ([sha1.c])
      and [Mdx.v] ([md5.c], [md4.c]) have the block functions, the contexts and
      the one-shot functions, and beside them the algorithms as FIPS 180-4 and
      the RFCs state them; [Sha2Spec.v] and [Sha1Spec.v] relate the two.  Unrolled
      rounds are a fold over the round number in which the registers rotate.
    - [Evp.v] ([crypto/fipsmodule/digest/digests.c], [digest.c]): the digests
      behind one interface and the contexts over any of them; a context is the
      method with a state of the type of the method.  [Hmac.v]
      ([crypto/fipsmodule/hmac/hmac.c]) and [Kdf.v]
      ([crypto/fipsmodule/hkdf/hkdf.c], [crypto/evp/pbkdf.c],
      [crypto/fipsmodule/tls/kdf.c]) are over it, the TLS 1.3 label over the
      writer [CBB] too; [KdfSpec.v] relates them to the RFCs.
    - [Poly1305.v] ([crypto/poly1305/poly1305.c]) and [Chacha.v]
      ([crypto/chacha/chacha.c]): the portable code beside the functions of RFC
      8439, related in [Poly1305Spec.v] and [ChachaSpec.v].  [Aead.v]
      ([crypto/fipsmodule/cipher/aead.c],
      [crypto/cipher_extra/e_chacha20poly1305.c]): contexts for authenticated
      encryption, whose input and output are buffers of one memory, and the
      algorithms over ChaCha20 and Poly1305; [AeadSpec.v] has what the calls
      promise.
    - The big numbers, [crypto/fipsmodule/bn/].  [BnWords.v] ([generic.c], and
      functions on words of [bn.c], [cmp.c], [shift.c] and [div.c]) and [BnMul.v]
      ([mul.c]) are on arrays of 64-bit words, whose value is [wval];
      [BnMulSpec.v] shows that Karatsuba's and the schoolbook method are the
      product.  [Bn.v] ([bn.c], [ctx.c], [add.c], [cmp.c], [shift.c], [bytes.c])
      has the objects: a [BIGNUM *] is an address in a state, so that arguments
      may be one object, and [BN_CTX] is the pool of temporaries in that state, a
      [STACK] of addresses.  [BnSpec.v] gives the operations as operations on
      integers, [BnCtxSpec.v] says when a temporary is fresh and given back.
      [BnProduct.v] is the part of [mul.c] that takes objects, [BnMont.v]
      [montgomery.c] and [montgomery_inv.c], [BnDiv.v] [div.c]; the functions of
      [BN_div] after its tests are parts of that one C function.  [BnMontCtx.v]
      is what sets a Montgomery context up with its constant [RR], which needs
      the division.  [BnProductSpec.v], [BnMontSpec.v], [BnBytesSpec.v],
      [BnShiftSpec.v], [BnDivSpec.v], [BnModSpec.v], [BnDivConstSpec.v] and
      [BnMontCtxSpec.v] relate them to integers.

    Definitions keep the names of the C functions.  What the C code receives
    through out-parameters is the result of the model; an index of a loop that
    the C code counts down is the structural argument of a [Fixpoint].

    ** The interfaces

    - [Malloc], [MallocSpec], [MallocTotal] (in [Mem.v]): the C allocator.  A
      refused allocation is a value the theorems cover; [MallocTotal] is only
      assumed where a theorem says that a call succeeds.
    - [Qsort], [QsortSpec] (in [CbbAsn1.v]): [qsort] of the C library.
    - [CmpLaws] (in [StackSpec.v]), [SameLaws] and [HashLaws] (in [LhashSpec.v]):
      what the callers of the containers owe them.
    - [IStream] and [IStreamSpec], [OStream] and [OStreamSpec] (in [PbDecode.v],
      [PbReadSpec.v], [PbEncode.v], [PbWriteSpec.v]): the callbacks of a stream.
    - [BlockFunc] (in [Digest.v]): a block function does one block after the
      other; all that the collector's theorems know of it.
    - [MethodLaws] (in [Evp.v]): a digest method computes a hash function of the
      standards; all that HMAC and what is over it know of the digests.
    - [AeadLaws] (in [AeadSpec.v]): an algorithm for authenticated encryption
      seals and opens as a cipher and a tag do; all that the calls on contexts
      know of it.
    Each has an instance with which the witnesses run the definitions.

    ** What the theorems show

    - Readers accept exactly their grammar: [CBS_get_any_asn1_element_iff],
      [CBS_get_asn1_int64_iff], [CBS_is_valid_asn1_oid_iff],
      [CBS_get_u64_decimal_iff], [cbs_get_u_iff], [get_char_iff],
      [CBS_parse_rfc5280_time_internal_spec] (whose result has the offset of a
      time added, where bytestring.h has it subtracted).
    - Writers refine operations on messages: [CBB_flush_refines],
      [CBB_add_bytes_refines], [CBB_add_asn1_refines], [CBB_finish_contents],
      [CBB_add_asn1_int64_with_tag_refines], [CBB_add_asn1_oid_from_text_refines],
      [CBB_flush_asn1_set_of_spec], [add_char_spec].
    - Composition: what is written reads back ([asn1_int64_roundtrip],
      [base64_roundtrip]); BER goes to the DER of its tree and no further
      ([CBS_asn1_ber_to_der_spec], [CBS_asn1_ber_to_der_idempotent]).
    - The wire format: what is written reads back and is skipped as a whole
      ([pb_field_roundtrip], [pb_delimited_roundtrip]); each reader takes exactly
      its bytes on every input ([pb_decode_varint_spec],
      [pb_decode_varint32_spec], [pb_skip_field_spec]); streams keep their limits
      ([pb_encode_submessage_spec], [pb_string_substream_spec]).
    - Streaming agrees with one-shot coding ([encode_stream_spec],
      [decode_stream_spec]).
    - Each hash function is the one of its standard, with constants that are
      the roots of primes, however the message is cut into updates ([SHA256_fips], [SHA512_fips], [SHA1_fips], [MD5_MD4_rfc]), and
      the generator over SHA-1 that of FIPS 186-2
      ([CRYPTO_fips_186_2_prf_spec]).
    - HMAC, HKDF, PBKDF2 and the key derivation of TLS are those of the RFCs over
      every digest, and fail only as stated: without memory, or on lengths the
      RFCs exclude ([HMAC_rfc2104], [HKDF_rfc5869], [PKCS5_PBKDF2_HMAC_rfc8018],
      [CRYPTO_tls1_prf_rfc5246], [CRYPTO_tls13_hkdf_expand_label_rfc8446]).
    - Authenticated encryption: what is sealed is opened, in place or not
      ([EVP_AEAD_CTX_seal_open]); opening succeeds exactly on authentic input and
      leaves zeros behind when it fails ([EVP_AEAD_CTX_open_authentic]);
      ChaCha20-Poly1305 is that of RFC 8439 ([EVP_aead_chacha20_poly1305_rfc8439],
      [CRYPTO_chacha_20_rfc8439]) but for a carry that Poly1305 can lose
      ([CRYPTO_poly1305_rfc8439], [CRYPTO_poly1305_lost_carry]).
    - Big numbers compute with integers: whatever the widths and signs of the
      operands are, and also when the result is one of them, [BN_add], [BN_sub],
      [BN_mul] and [BN_sqr] give the sum, the difference and the product, change
      no other object and give the temporaries back ([BN_add_sub_spec],
      [BN_mul_sqr_spec]); [BN_div], whose digits are estimated from the highest
      words, gives the quotient and the remainder, [bn_div_consttime], which
      takes a bit at a time, the same, and the operations modulo a number the
      least residue, but not when the modulus is the result ([BN_div_spec],
      [bn_div_consttime_spec], [BN_mod_arith_spec], [BN_nnmod_over_modulus]);
      bytes read as a number are written again ([BN_bin2bn_roundtrip]).  A
      Montgomery context takes the odd moduli, and its multiplication divides by
      [R] modulo the modulus ([bn_mont_ctx_set_N_and_n0_spec],
      [BN_mod_mul_montgomery_spec]); the context that [BN_MONT_CTX_set] sets up
      is ready for use ([BN_MONT_CTX_set_ok]), and a number goes into the
      Montgomery domain and comes back reduced ([montgomery_there_and_back]).
    - The calendar functions are inverse to each other and do not overflow
      ([posix_time_calendar]).
    - The containers: invariants of the reachable states
      ([sk_reachable_invariant], [lh_load_bound], [BUF_MEM_spec]), each operation
      against a list or a finite map, allocation failures included.  The stacks
      that are reachable come with a boolean that says that [sk_set] and deep
      copies kept the order of stacks marked sorted; what depends on the mark is
      stated for those.

    ** Fuel

    Loops that are not structural have a [nat] that decreases; every user of
    such a function passes enough of it, and the theorems say that the result is
    there, not only that it is right if it is:
    - the loops over an input ([cbs_find_ber], [cbs_convert_ber],
      [implicit_string_loop], [oid_from_text_loop], [oid_to_text_loop],
      [set_of_children], [encode_lines]) get at least its length and consume at
      least one byte a pass (where the empty input needs a pass, one more);
    - [binary_search] gets the number of elements plus one, and [down_heap] the
      length of the array;
    - [doall_chain] needs more than the number of items
      ([OPENSSL_lh_doall_arg_spec]);
    - [base128_len_loop] and [varint_buffer] get ten, the seven-bit digits of a
      [uint64_t], and [varint_loop] eleven, because the eleventh pass fails;
    - [varint32_loop] and [skip_varint_loop] get more than the bytes left, of
      which each pass takes one; [iter_find_loop] more than the fields;
    - [prf_loop], [pbkdf2_loop] and [tls1_P_hash_loop] get one more than the bytes
      to write, of which a pass writes at least one;
    - [poly1305_donna_16bytes], [chacha_blocks] and [seal_extra] get the length of
      the input, of which a pass takes at least a byte;
    - [bn_mul_recursive], [bn_mul_part_recursive] and [bn_sqr_recursive] halve a
      number of words that is below [2^23] and get 32 ([recursion_fuel]);
      [part_split] gets the number that it halves; [load_words_be] gets one more
      than the bytes, of which a pass takes at least one; [div_correct] three,
      because a second correction leaves a remainder that does not fit in a word
      ([div_correct_fuel]); [rshift_secret_loop] 33, more than the bits of a shift; [BN_add_sub_word] two, because [BN_add_word]
      and [BN_sub_word] call each other once.

    ** What is not modelled

    Timing (the value barriers of [internal.h] are identities), [free], the
    printf wrappers of [mem.c] and the error queue have no counterpart: no result
    depends on them.  The assembler variants of the block functions, the
    clearing of contexts and the service indicator are left out of the hash
    functions, which are the portable C.  Of the big numbers the words are of 64 bits and the code is the
    portable one; [BN_MONT_CTX_set_locked], which is about threads,
    exponentiation, inverses, primes and random numbers are not modelled.  Of
    [div.c] the functions beside [BN_div], [BN_nnmod], [bn_div_consttime] and
    those of [BN_mod_arith_spec] have a model but no theorem, and so has the
    constant-time way to [RR], of which [mont_ctx_new_example] is an example.
    The other digests, ciphers, curves and
    X.509 objects of BoringSSL, the TLS library, and the other pods (gRPC, abseil,
    Firestore, LevelDB, the Firebase SDKs) are outside this library.  Of nanopb, the loops
    over the fields of a structure in raw memory ([pb_decode], [pb_encode],
    arrays, extensions, [pb_release]) and the decoders that allocate are not
    modelled: [pb_encode_submessage] takes the program that writes the message as
    an argument.  The Swift code
    of the application is user interface and calls of these SDKs. *)
From stdpp Require Export base numbers list sorting.
From Stdlib Require Export ZArith Lia Bool.

#[global] Open Scope Z_scope.

(** * Machine integers

    A C unsigned integer of [w] bits is a [Z] in [[0, 2^w)]; arithmetic that may
    leave the range is written with the wrap of its C type. *)

Definition u8 (x : Z) : Z := x mod 2 ^ 8.
Definition u16 (x : Z) : Z := x mod 2 ^ 16.
Definition u32 (x : Z) : Z := x mod 2 ^ 32.
Definition u64 (x : Z) : Z := x mod 2 ^ 64.

Definition SIZE_MAX : Z := 2 ^ 64 - 1.
Definition UINT64_MAX : Z := 2 ^ 64 - 1.
Definition UINT_MAX : Z := 2 ^ 32 - 1.
Definition INT_MAX : Z := 2 ^ 31 - 1.
Definition INT_MIN : Z := - 2 ^ 31.
Definition INT64_MAX : Z := 2 ^ 63 - 1.
Definition INT64_MIN : Z := - 2 ^ 63.

Definition is_byte (b : Z) : Prop := 0 <= b < 256.

Abbreviation bytes := (list Z).

Definition bytes_ok (l : bytes) : Prop := Forall is_byte l.

#[export] Instance is_byte_dec b : Decision (is_byte b).
Proof. unfold is_byte. apply _. Defined.

#[global] Arguments Z.pow : simpl never.
#[global] Arguments Z.shiftl : simpl never.
#[global] Arguments Z.shiftr : simpl never.
#[global] Arguments Z.land : simpl never.
#[global] Arguments Z.lor : simpl never.
#[global] Arguments Z.lxor : simpl never.
#[global] Arguments Z.of_nat : simpl never.

(** The length of a byte string as a C [size_t] sees it. *)
Definition Zlen {A} (l : list A) : Z := Z.of_nat (length l).

(** * Computations that fail and keep the state they have reached

    The C functions return an [int] and write through pointers.  [ST S A] is the
    result of such a call on a state [S]: [(Some a, s)] for success and
    [(None, s)] for a failure that leaves the state [s] behind. *)

Definition ST (S A : Type) : Type := S -> option A * S.

Definition st_ret {S A} (a : A) : ST S A := fun s => (Some a, s).
Definition st_fail {S A} : ST S A := fun s => (None, s).
Definition st_bind {S A B} (m : ST S A) (k : A -> ST S B) : ST S B :=
  fun s => match m s with
           | (Some a, s') => k a s'
           | (None, s') => (None, s')
           end.
Definition st_guard {S} (b : bool) : ST S unit := if b then st_ret tt else st_fail.

Declare Scope st_scope.
Delimit Scope st_scope with st.
Notation "x <-- m ;; k" := (st_bind m (fun x => k))
  (at level 100, m at next level, right associativity) : st_scope.
Notation "m ;;; k" := (st_bind m (fun _ => k))
  (at level 100, right associativity) : st_scope.
#[global] Open Scope st_scope.

Lemma st_bind_some {S A B} (m : ST S A) (k : A -> ST S B) s a s' :
  m s = (Some a, s') -> st_bind m k s = k a s'.
Proof. unfold st_bind. by intros ->. Qed.

Lemma st_bind_none {S A B} (m : ST S A) (k : A -> ST S B) s s' :
  m s = (None, s') -> st_bind m k s = (None, s').
Proof. unfold st_bind. by intros ->. Qed.

Lemma st_bind_inv {S A B} (m : ST S A) (k : A -> ST S B) s b s' :
  st_bind m k s = (Some b, s') ->
  exists a s1, m s = (Some a, s1) /\ k a s1 = (Some b, s').
Proof. unfold st_bind. destruct (m s) as [[a|] s1]; naive_solver. Qed.

Lemma st_guard_inv {S} b (s s' : S) u :
  st_guard b s = (Some u, s') -> b = true /\ s' = s.
Proof. destruct b; unfold st_guard, st_ret, st_fail; naive_solver. Qed.

Lemma st_guard_iff {S} b (s s' : S) u : st_guard b s = (Some u, s') <-> b = true /\ s' = s.
Proof.
  destruct b, u; unfold st_guard, st_ret, st_fail; split; try done; [by intros [= <-]|by intros [_ ->]|by intros []].
Qed.

Lemma st_bind_iff {S A B} (m : ST S A) (k : A -> ST S B) s b s' :
  st_bind m k s = (Some b, s') <-> exists a s1, m s = (Some a, s1) /\ k a s1 = (Some b, s').
Proof.
  split; [apply st_bind_inv|]. intros (a & s1 & Hm & Hk). by rewrite (st_bind_some _ _ _ _ _ Hm).
Qed.

(** [st_inv] takes a successful run of a sequence of calls apart. *)
Ltac st_inv :=
  repeat match goal with
  | H : st_bind _ _ _ = (Some _, _) |- _ =>
      apply st_bind_inv in H; destruct H as (? & ? & ? & ?)
  | H : st_guard _ _ = (Some _, _) |- _ => apply st_guard_inv in H; destruct H as [? ->]
  | H : st_ret _ _ = (Some _, _) |- _ => unfold st_ret in H; simplify_eq
  | H : st_fail _ = (Some _, _) |- _ => unfold st_fail in H; discriminate
  | H : (match ?x with (_, _) => _ end) _ = (Some _, _) |- _ => destruct x
  end.

(** [ensures e m s P]: from [s], [m] succeeds with a result and a state that
    satisfy [P], unless [e]. *)
Definition ensures {S A} (e : Prop) (m : ST S A) (s : S) (P : A -> S -> Prop) : Prop :=
  match m s with
  | (Some a, s') => P a s'
  | (None, _) => e
  end.

Lemma ensures_ret {S A} e (a : A) (s : S) (P : A -> S -> Prop) : P a s -> ensures e (st_ret a) s P.
Proof. done. Qed.

Lemma ensures_bind {S A B} e (m : ST S A) (k : A -> ST S B) s (P : A -> S -> Prop) (Q : B -> S -> Prop) :
  ensures e m s P -> (forall a s', P a s' -> ensures e (k a) s' Q) -> ensures e (st_bind m k) s Q.
Proof. unfold ensures, st_bind. destruct (m s) as [[a|] s']; intros Hm Hk; [exact (Hk a s' Hm)|exact Hm]. Qed.

Lemma ensures_mono {S A} e (m : ST S A) s (P Q : A -> S -> Prop) :
  ensures e m s P -> (forall a s', P a s' -> Q a s') -> ensures e m s Q.
Proof. unfold ensures. destruct (m s) as [[a|] s']; auto. Qed.

Lemma ensures_some {S A} e (m : ST S A) s (P : A -> S -> Prop) a s' : ensures e m s P -> m s = (Some a, s') -> P a s'.
Proof. unfold ensures. intros Hm E. by rewrite E in Hm. Qed.

(** * Lists *)

Lemma Zlen_nil {A} : Zlen (@nil A) = 0.
Proof. done. Qed.
Lemma Zlen_cons {A} (x : A) l : Zlen (x :: l) = 1 + Zlen l.
Proof. unfold Zlen. simpl. lia. Qed.
Lemma Zlen_app {A} (l k : list A) : Zlen (l ++ k) = Zlen l + Zlen k.
Proof. unfold Zlen. rewrite length_app. lia. Qed.
Lemma Zlen_snoc {A} (l : list A) x : Zlen (l ++ [x]) = Zlen l + 1.
Proof. unfold Zlen. rewrite length_app. simpl. lia. Qed.
Lemma Zlen_nonneg {A} (l : list A) : 0 <= Zlen l.
Proof. unfold Zlen. lia. Qed.
Lemma Zlen_0_inv {A} (l : list A) : Zlen l = 0 -> l = [].
Proof. destruct l; [done|]. rewrite Zlen_cons. pose proof (Zlen_nonneg l). lia. Qed.
Lemma Zlen_take {A} (l : list A) n :
  0 <= n <= Zlen l -> Zlen (take (Z.to_nat n) l) = n.
Proof. unfold Zlen. rewrite length_take. lia. Qed.
Lemma Zlen_drop {A} (l : list A) n :
  0 <= n <= Zlen l -> Zlen (drop (Z.to_nat n) l) = Zlen l - n.
Proof. unfold Zlen. rewrite length_drop. lia. Qed.
Lemma Zlen_replicate {A} (x : A) n : 0 <= n -> Zlen (replicate (Z.to_nat n) x) = n.
Proof. intros. unfold Zlen. rewrite length_replicate. lia. Qed.

Lemma Zlen_replicate_nat {A} (x : A) n : Zlen (replicate n x) = Z.of_nat n.
Proof. unfold Zlen. by rewrite length_replicate. Qed.

Create Rewrite HintDb zlen.
#[export] Hint Rewrite @Zlen_nil @Zlen_cons @Zlen_app @length_app @length_cons : zlen.

Lemma take_Zlen_app {A} (l k : list A) : take (Z.to_nat (Zlen l)) (l ++ k) = l.
Proof. unfold Zlen. rewrite Nat2Z.id. apply take_app_length. Qed.
Lemma drop_Zlen_app {A} (l k : list A) : drop (Z.to_nat (Zlen l)) (l ++ k) = k.
Proof. unfold Zlen. rewrite Nat2Z.id. apply drop_app_length. Qed.

Lemma bytes_ok_nil : bytes_ok [].
Proof. constructor. Qed.
Lemma bytes_ok_cons b l : bytes_ok (b :: l) <-> is_byte b /\ bytes_ok l.
Proof. apply Forall_cons. Qed.
Lemma bytes_ok_app l k : bytes_ok (l ++ k) <-> bytes_ok l /\ bytes_ok k.
Proof. apply Forall_app. Qed.
Lemma bytes_ok_take n l : bytes_ok l -> bytes_ok (take n l).
Proof. apply Forall_take. Qed.
Lemma bytes_ok_drop n l : bytes_ok l -> bytes_ok (drop n l).
Proof. apply Forall_drop. Qed.

Create HintDb bytes.
#[export] Hint Resolve bytes_ok_nil bytes_ok_take bytes_ok_drop : bytes.

(** [simp_bytes] splits every [bytes_ok] hypothesis along its list;
    [solve_bytes] closes a goal about the bytes of a list. *)
Ltac simp_bytes :=
  repeat match goal with
  | H : bytes_ok (_ :: _) |- _ => apply bytes_ok_cons in H; destruct H
  | H : bytes_ok (_ ++ _) |- _ => apply bytes_ok_app in H; destruct H
  end.
Ltac solve_bytes :=
  simp_bytes;
  repeat match goal with
  | |- bytes_ok (_ :: _) => apply bytes_ok_cons; split
  | |- bytes_ok (_ ++ _) => apply bytes_ok_app; split
  | |- is_byte _ => done || (unfold is_byte in *; lia)
  | |- _ => solve [auto with bytes]
  end.

Lemma nth_insert (l : list Z) i j x : (i < length l)%nat -> nth j (<[i:=x]> l) 0 = if decide (j = i) then x else nth j l 0.
Proof.
  intros Hi. rewrite !nth_lookup. destruct (decide (j = i)) as [->|]; [by rewrite list_lookup_insert_eq|].
  by rewrite list_lookup_insert_ne.
Qed.

Lemma take_drop_take (l : bytes) a b n : (a + b <= n)%nat -> take b (drop a (take n l)) = take b (drop a l).
Proof. intros Hn. by rewrite !take_drop_commute, take_take, Nat.min_l by lia. Qed.

Lemma length_mjoin_words {A} (f : A -> bytes) k (l : list A) :
  (forall x, length (f x) = k) -> length (mjoin (f <$> l)) = (length l * k)%nat.
Proof. intros Hf. induction l as [|x l IH]; cbn; [done|]. rewrite length_app, Hf. by f_equal. Qed.

Lemma zip_with_cut {A B C} (f : A -> B -> C) l k1 k2 :
  zip_with f l (k1 ++ k2) = zip_with f (take (length k1) l) k1 ++ zip_with f (drop (length k1) l) k2.
Proof. revert l. induction k1 as [|x k1 IH]; intros [|y l]; cbn; [done..|]. by rewrite IH. Qed.

(** What a callback with a state keeps of a list: it returns [true] for what is
    to be removed. *)
Fixpoint filter_state {A D} (f : A -> D -> bool * D) (l : list A) (d : D) : list A * D :=
  match l with
  | [] => ([], d)
  | x :: l =>
      let '(del, d) := f x d in
      let '(k, d) := filter_state f l d in
      ((if del : bool then k else x :: k), d)
  end.

Lemma filter_state_sublist {A D} (f : A -> D -> bool * D) l d : fst (filter_state f l d) `sublist_of` l.
Proof.
  revert d. induction l as [|x l IH]; intros d; cbn [filter_state]; [constructor|].
  destruct (f x d) as [[] d1]; specialize (IH d1); destruct (filter_state f l d1) as [k d2];
    by constructor.
Qed.

Lemma filter_state_app {A D} (f : A -> D -> bool * D) l k d :
  filter_state f (l ++ k) d =
    let '(l', d) := filter_state f l d in let '(k', d) := filter_state f k d in (l' ++ k', d).
Proof.
  revert d. induction l as [|x l IH]; intros d; cbn [filter_state app].
  { by destruct (filter_state f k d). }
  destruct (f x d) as [del d1]. rewrite IH. destruct (filter_state f l d1) as [l' d2].
  destruct (filter_state f k d2). by destruct del.
Qed.

Lemma filter_state_fmap {A B D} (g : A -> B) (f : B -> D -> bool * D) l d :
  filter_state f (g <$> l) d =
    let '(k, d') := filter_state (fun x => f (g x)) l d in (g <$> k, d').
Proof.
  revert d. induction l as [|x l IH]; intros d; cbn [filter_state fmap list_fmap]; [done|].
  destruct (f (g x) d) as [del d1]. change (list_fmap _ _ g l) with (g <$> l). rewrite IH.
  destruct (filter_state _ l d1) as [k d2]. by destruct del.
Qed.

(** * Bit operations as arithmetic *)

Lemma land_mask x k : 0 <= k -> Z.land x (2 ^ k - 1) = x mod 2 ^ k.
Proof. intros. rewrite <- Z.land_ones, Z.ones_equiv by lia. f_equal. Qed.

Lemma lor_add_disjoint a b k :
  0 <= k -> 0 <= b < 2 ^ k -> Z.lor (a * 2 ^ k) b = a * 2 ^ k + b.
Proof.
  intros Hk Hb. rewrite <- Z.shiftl_mul_pow2 by lia.
  rewrite <- Z.lxor_lor, <- Z.add_nocarry_lxor; [done| |];
    apply Z.bits_inj'; intros i Hi; rewrite Z.land_spec, Z.bits_0;
    (destruct (decide (i < k));
      [rewrite Z.shiftl_spec_low by lia; done|]);
    rewrite <- (Z.mod_small b (2 ^ k)) by lia;
    rewrite Z.mod_pow2_bits_high by lia; apply andb_false_r.
Qed.

Lemma shl8_lor r b :
  0 <= r -> r < 2 ^ 56 -> is_byte b -> Z.lor (u64 (Z.shiftl r 8)) b = r * 256 + b.
Proof.
  intros ? ? ?. unfold u64. rewrite Z.shiftl_mul_pow2 by lia.
  rewrite Z.mod_small by lia. apply (lor_add_disjoint r b 8); unfold is_byte in *; lia.
Qed.

(** A boolean property of bytes is decided by running it on all 256 of them. *)
Definition all_bytes : bytes := Z.of_nat <$> seq 0 256.

Lemma byte_in_all b : is_byte b -> b ∈ all_bytes.
Proof.
  intros [Hlo Hhi]. unfold all_bytes. apply list_elem_of_fmap.
  exists (Z.to_nat b). split; [lia|]. apply elem_of_seq. lia.
Qed.

Lemma byte_forall (P : Z -> bool) :
  forallb P all_bytes = true -> forall b, is_byte b -> P b = true.
Proof.
  intros H b Hb. rewrite forallb_forall in H. apply H.
  apply list_elem_of_In, byte_in_all, Hb.
Qed.

Lemma byte_forall_eq (f g : Z -> bool) :
  forallb (fun b => Bool.eqb (f b) (g b)) all_bytes = true -> forall b, is_byte b -> f b = g b.
Proof. intros H b Hb. apply eqb_prop. by apply (byte_forall (fun b => Bool.eqb (f b) (g b))). Qed.

Lemma byte_forall_eqZ (f g : Z -> Z) :
  forallb (fun b => f b =? g b) all_bytes = true -> forall b, is_byte b -> f b = g b.
Proof. intros H b Hb. apply Z.eqb_eq. by apply (byte_forall (fun b => f b =? g b)). Qed.

(** Run the check on all bytes. *)
Ltac byte_compute := vm_compute; reflexivity.

(** [lia] with the equations of division. *)
Ltac dlia := Z.to_euclidean_division_equations; lia.

(** The same for a division of natural numbers by a constant. *)
Ltac nat_div n d := pose proof (Nat.div_mod_eq n d); pose proof (Nat.mod_upper_bound n d ltac:(lia)).

(** * Big- and little-endian strings of bytes *)

Fixpoint le_bytes (n : nat) (v : Z) : bytes :=
  match n with
  | O => []
  | S n => (v mod 256) :: le_bytes n (v / 256)
  end.

Definition be_bytes (n : nat) (v : Z) : bytes := rev (le_bytes n v).

Definition be_val_from (acc : Z) (l : bytes) : Z := fold_left (fun r b => r * 256 + b) l acc.
Definition be_val (l : bytes) : Z := be_val_from 0 l.

Lemma length_le_bytes n v : length (le_bytes n v) = n.
Proof. revert v. induction n; intros; simpl; auto. Qed.
Lemma length_be_bytes n v : length (be_bytes n v) = n.
Proof. unfold be_bytes. by rewrite length_rev, length_le_bytes. Qed.
Lemma Zlen_be_bytes n v : Zlen (be_bytes n v) = Z.of_nat n.
Proof. unfold Zlen. by rewrite length_be_bytes. Qed.

Lemma le_bytes_ok n v : bytes_ok (le_bytes n v).
Proof.
  revert v. induction n; intros; simpl; [constructor|].
  constructor; [apply Z.mod_pos_bound; lia | apply IHn].
Qed.
Lemma be_bytes_ok n v : bytes_ok (be_bytes n v).
Proof.
  unfold be_bytes. apply Forall_rev, le_bytes_ok.
Qed.
#[export] Hint Resolve le_bytes_ok be_bytes_ok : bytes.

Lemma le_bytes_plus a b v : le_bytes (a + b) v = le_bytes a v ++ le_bytes b (v / 256 ^ Z.of_nat a).
Proof.
  revert v. induction a as [|a IH]; intros v; cbn [plus le_bytes app]; [by rewrite Z.div_1_r|].
  rewrite IH, Zdiv_Zdiv by lia. by rewrite Nat2Z.inj_succ, Z.pow_succ_r by lia.
Qed.

Lemma be_bytes_S n v : be_bytes (S n) v = be_bytes n (v / 256) ++ [v mod 256].
Proof. done. Qed.

Lemma be_val_snoc l b : be_val (l ++ [b]) = be_val l * 256 + b.
Proof. unfold be_val, be_val_from. by rewrite fold_left_app. Qed.

Lemma be_val_from_app acc l k : be_val_from acc (l ++ k) = be_val_from (be_val_from acc l) k.
Proof. apply fold_left_app. Qed.

Lemma be_val_from_eq acc l : be_val_from acc l = acc * 256 ^ Zlen l + be_val l.
Proof.
  induction l as [|b l IH] using rev_ind.
  - unfold be_val, be_val_from. simpl. rewrite Zlen_nil. lia.
  - rewrite be_val_snoc, be_val_from_app, IH.
    rewrite Zlen_snoc. unfold be_val_from at 1. simpl.
    rewrite Z.pow_add_r by (first [apply Zlen_nonneg | lia]). lia.
Qed.

Lemma be_val_cons b l : be_val (b :: l) = b * 256 ^ Zlen l + be_val l.
Proof. exact (be_val_from_eq b l). Qed.

Lemma be_val_app l k : be_val (l ++ k) = be_val l * 256 ^ Zlen k + be_val k.
Proof. unfold be_val at 1. by rewrite be_val_from_app, be_val_from_eq. Qed.

Lemma be_val_bound l : bytes_ok l -> 0 <= be_val l < 256 ^ Zlen l.
Proof.
  induction l as [|b l IH] using rev_ind; intros Hok.
  - unfold be_val, be_val_from, Zlen. simpl. lia.
  - simp_bytes. specialize (IH H). rewrite be_val_snoc, Zlen_snoc.
    rewrite Z.pow_add_r by (first [apply Zlen_nonneg | lia]). unfold is_byte in *. lia.
Qed.

Lemma be_val_replicate_ff k : be_val (replicate k 255) = 256 ^ Z.of_nat k - 1.
Proof.
  induction k as [|k IH]; [done|]. simpl replicate. rewrite be_val_cons, IH.
  unfold Zlen. rewrite length_replicate, Nat2Z.inj_succ, Z.pow_succ_r by lia. lia.
Qed.

Lemma be_val_replicate_0 k : be_val (replicate k 0) = 0.
Proof. induction k as [|k IH]; [done|]. simpl. by rewrite be_val_cons, IH. Qed.

Lemma be_val_be_bytes n v : be_val (be_bytes n v) = v mod 256 ^ Z.of_nat n.
Proof.
  revert v. induction n; intros v.
  - simpl. change (be_val (be_bytes 0 v)) with 0. by rewrite Z.mod_1_r.
  - rewrite be_bytes_S, be_val_snoc, IHn, Nat2Z.inj_succ, Z.pow_succ_r by lia.
    rewrite Z.rem_mul_r by lia. lia.
Qed.

Lemma be_bytes_be_val l : bytes_ok l -> be_bytes (length l) (be_val l) = l.
Proof.
  induction l as [|b l IH] using rev_ind; intros Hok; [done|]. simp_bytes.
  rewrite be_val_snoc, length_app, Nat.add_1_r, be_bytes_S. unfold is_byte in *.
  rewrite Z.div_add_l, Z.div_small, Z.add_0_r, IH by (done || lia).
  rewrite Z.add_comm, Z.mod_add, Z.mod_small by lia. done.
Qed.

Lemma be_bytes_mod n v : be_bytes n (v mod 256 ^ Z.of_nat n) = be_bytes n v.
Proof.
  rewrite <- (be_val_be_bytes n v), <- (length_be_bytes n v) at 1.
  apply be_bytes_be_val, be_bytes_ok.
Qed.

Lemma be_val_be_bytes_small n v :
  0 <= v < 256 ^ Z.of_nat n -> be_val (be_bytes n v) = v.
Proof. intros. rewrite be_val_be_bytes. by apply Z.mod_small. Qed.

(** The loop [result <<= 8; result |= data[i]] on a 64-bit accumulator. *)
Lemma be_loop_eq l :
  bytes_ok l -> (length l <= 8)%nat ->
  fold_left (fun r b => Z.lor (u64 (Z.shiftl r 8)) b) l 0 = be_val l.
Proof.
  induction l as [|b l IH] using rev_ind; intros Hok Hlen; [done|].
  simp_bytes. rewrite length_app in Hlen. simpl in Hlen.
  rewrite fold_left_app, IH, be_val_snoc by (done || lia). simpl.
  pose proof (be_val_bound l H) as [Hlo Hhi]. apply shl8_lor; [done| |done].
  eapply Z.lt_le_trans; [exact Hhi|].
  change (2 ^ 56) with (256 ^ 7). apply Z.pow_le_mono_r; unfold Zlen; lia.
Qed.

(** * Decimal numerals

    [dec v] is the C library's [%llu] of [v]: no sign, no leading zero. *)

Fixpoint dec_from (fuel : nat) (v : Z) : bytes :=
  match fuel with
  | O => []
  | S fuel => if v <? 10 then [48 + v] else dec_from fuel (v / 10) ++ [48 + v mod 10]
  end.
Definition dec (v : Z) : bytes := dec_from (S (Z.to_nat (Z.log2 v))) v.

Lemma dec_from_fuel f g v :
  0 <= v -> v < 2 ^ Z.of_nat f -> v < 2 ^ Z.of_nat g -> (1 <= f)%nat -> (1 <= g)%nat ->
  dec_from f v = dec_from g v.
Proof.
  revert g v. induction f as [|f IH]; intros g v Hv Hf Hg H1 H2; [lia|].
  destruct g as [|g]; [lia|]. simpl. destruct (Z.ltb_spec v 10); [done|]. f_equal.
  rewrite !Nat2Z.inj_succ, !Z.pow_succ_r in * by lia.
  assert (0 < v / 10) by (apply Z.div_str_pos; lia).
  assert (v / 10 < 2 ^ Z.of_nat f) by (apply Z.div_lt_upper_bound; lia).
  assert (v / 10 < 2 ^ Z.of_nat g) by (apply Z.div_lt_upper_bound; lia).
  apply IH; try lia.
  - destruct f; [simpl in *; lia|lia].
  - destruct g; [simpl in *; lia|lia].
Qed.

Lemma dec_small v : 0 <= v < 10 -> dec v = [48 + v].
Proof. intros. unfold dec. simpl. destruct (Z.ltb_spec v 10); [done|lia]. Qed.

Lemma dec_step v : 10 <= v -> dec v = dec (v / 10) ++ [48 + v mod 10].
Proof.
  intros Hv. unfold dec at 1. cbn [dec_from]. destruct (Z.ltb_spec v 10); [lia|]. f_equal.
  assert (0 < v / 10) by (apply Z.div_str_pos; lia).
  assert (0 < Z.log2 v) by (apply Z.log2_pos; lia).
  pose proof (Z.log2_spec v ltac:(lia)) as [_ Hl].
  pose proof (Z.log2_spec (v / 10) ltac:(lia)) as [_ Hl'].
  pose proof (Z.log2_nonneg (v / 10)).
  rewrite Z.pow_succ_r in * by lia.
  apply dec_from_fuel; rewrite ?Nat2Z.inj_succ, ?Z2Nat.id, ?Z.pow_succ_r by lia; try lia.
  apply Z.div_lt_upper_bound; lia.
Qed.

Lemma dec_ind (P : Z -> Prop) :
  (forall v, 0 <= v < 10 -> P v) -> (forall v, 10 <= v -> P (v / 10) -> P v) ->
  forall v, 0 <= v -> P v.
Proof.
  intros H0 Hstep v Hv. apply (Zlt_0_ind P); [|done]. clear v Hv.
  intros v IH Hv. destruct (decide (v < 10)); [apply H0; lia|].
  apply Hstep; [lia|]. apply IH.
  split; [apply Z.div_pos; lia|apply Z.div_lt; lia].
Qed.

Definition is_digit (c : Z) : Prop := 48 <= c <= 57.

(** The value of a string of decimal digits. *)
Definition dec_val_from (acc : Z) (l : bytes) : Z := fold_left (fun v c => v * 10 + (c - 48)) l acc.

Lemma dec_digits v : 0 <= v -> Forall is_digit (dec v).
Proof.
  revert v. apply dec_ind.
  - intros v Hv. rewrite dec_small by done. repeat constructor; lia.
  - intros v Hv IH. rewrite dec_step by done. apply Forall_app. split; [done|].
    pose proof (Z.mod_pos_bound v 10). repeat constructor; lia.
Qed.

Lemma dec_val_dec v : 0 <= v -> dec_val_from 0 (dec v) = v.
Proof.
  revert v. apply dec_ind.
  - intros v Hv. rewrite dec_small by done. unfold dec_val_from. simpl. lia.
  - intros v Hv IH. rewrite dec_step by done. unfold dec_val_from in *.
    rewrite fold_left_app, IH. simpl. pose proof (Z.div_mod v 10). lia.
Qed.

(** Digits that do not start with ['0'], or are the single ['0'], are the
    numeral of their value. *)
Lemma dec_of_digits l :
  Forall is_digit l -> l <> [] -> (head l = Some 48 -> l = [48]) ->
  dec (dec_val_from 0 l) = l /\ (l <> [48] -> 0 < dec_val_from 0 l) /\ 0 <= dec_val_from 0 l.
Proof.
  induction l as [|c l IH] using rev_ind; intros Hok Hne Hhd; [done|].
  rewrite Forall_app, Forall_singleton in Hok. destruct Hok as [Hok Hc]. unfold is_digit in Hc.
  unfold dec_val_from. rewrite fold_left_app. fold (dec_val_from 0 l). simpl.
  destruct l as [|d l].
  - unfold dec_val_from. simpl. rewrite dec_small by lia. split_and!; [f_equal; lia| |lia].
    intros Hn. assert (c <> 48) by (intros ->; done). lia.
  - destruct (IH Hok) as (Heq & Hpos & H0); [done|intros E|].
    { simpl in *. specialize (Hhd E). destruct l; discriminate. }
    assert (0 < dec_val_from 0 (d :: l)).
    { apply Hpos. intros E. simplify_eq. specialize (Hhd eq_refl). discriminate. }
    set (w := dec_val_from 0 (d :: l)) in *.
    split_and!; [|lia..]. rewrite dec_step by lia.
    rewrite Z.div_add_l, (Z.div_small (c - 48)), Z.add_0_r, Heq by lia.
    rewrite (Z.add_comm (w * 10)), Z.mod_add, Z.mod_small by lia. do 2 f_equal. lia.
Qed.
