(* ===== verification/Mem.v ===== *)
(** The allocation wrappers, comparisons and C-string helpers of
    [crypto/mem.c].  [malloc] itself is the C library's: it is the interface
    [Malloc], with its documented behaviour as the class [MallocSpec]. *)
From S2P Require Import Prelude.

(** * The allocator interface

    [malloc n] returns a block of [n] bytes of unspecified contents, or fails;
    [H] is the state of the allocator. *)
Class Malloc (H : Type) := malloc : Z -> ST H bytes.

Class MallocSpec (H : Type) `{Malloc H} := {
  malloc_length n h b h' : 0 <= n -> malloc n h = (Some b, h') -> Zlen b = n;
  malloc_bytes n h b h' : malloc n h = (Some b, h') -> bytes_ok b;
}.

(** An allocator that never refuses a request of at most [2^63] bytes. *)
Class MallocTotal (H : Type) `{Malloc H} :=
  malloc_total n h : 0 <= n <= 2 ^ 63 -> exists b h', malloc n h = (Some b, h').

(** An allocator with a budget of bytes, to run the definitions. *)
#[export] Instance budget_malloc : Malloc Z := fun n budget =>
  if n <=? budget then (Some (replicate (Z.to_nat n) 170), budget - n) else (None, budget).

#[export] Instance budget_malloc_spec : MallocSpec Z.
Proof.
  split; intros n h b h'; unfold malloc, budget_malloc; destruct (n <=? h);
    intros; simplify_eq.
  - by apply Zlen_replicate.
  - apply Forall_replicate. unfold is_byte. lia.
Qed.

(** An allocator that always succeeds. *)
#[export] Instance unit_malloc : Malloc unit := fun n _ =>
  (Some (replicate (Z.to_nat n) 0), tt).

#[export] Instance unit_malloc_spec : MallocSpec unit.
Proof.
  split; intros n h b h'; unfold malloc, unit_malloc; intros; simplify_eq.
  - by apply Zlen_replicate.
  - apply Forall_replicate. unfold is_byte. lia.
Qed.

#[export] Instance unit_malloc_total : MallocTotal unit.
Proof. intros n []. unfold malloc, unit_malloc. eauto. Qed.

(** * [crypto/mem.c]: allocation *)

Definition OPENSSL_MALLOC_PREFIX : Z := 8.

Section alloc.
Context {H : Type} `{Malloc H}.

(** The block a caller sees starts after the prefix that holds its size; the
    size is the length of that visible block. *)
Definition OPENSSL_malloc (size : Z) : ST H bytes :=
  if u64 (size + OPENSSL_MALLOC_PREFIX) <? size then st_fail
  else
    ptr <-- malloc (u64 (size + OPENSSL_MALLOC_PREFIX)) ;;
    st_ret (drop (Z.to_nat OPENSSL_MALLOC_PREFIX) ptr).

Definition OPENSSL_zalloc (size : Z) : ST H bytes :=
  ret <-- OPENSSL_malloc size ;;
  st_ret (replicate (length ret) 0).

Definition OPENSSL_calloc (num size : Z) : ST H bytes :=
  if negb (size =? 0) && (num >? SIZE_MAX / size) then st_fail
  else OPENSSL_zalloc (u64 (num * size)).

(** [orig_ptr = None] is the NULL pointer. *)
Definition OPENSSL_realloc (orig_ptr : option bytes) (new_size : Z) : ST H bytes :=
  match orig_ptr with
  | None => OPENSSL_malloc new_size
  | Some orig =>
      let old_size := Zlen orig in
      ret <-- OPENSSL_malloc new_size ;;
      let to_copy := if old_size <? new_size then old_size else new_size in
      st_ret (take (Z.to_nat to_copy) orig ++ drop (Z.to_nat to_copy) ret)
  end.

Definition OPENSSL_memdup (data : bytes) (size : Z) : ST H bytes :=
  if size =? 0 then st_fail
  else
    ret <-- OPENSSL_malloc size ;;
    st_ret (take (Z.to_nat size) data ++ drop (Z.to_nat size) ret).

(** [OPENSSL_strnlen] stops at the first NUL among the first [len] bytes. *)
Fixpoint OPENSSL_strnlen (s : bytes) (len : nat) : nat :=
  match len, s with
  | S len, c :: s => if c =? 0 then O else S (OPENSSL_strnlen s len)
  | _, _ => O
  end.

Definition OPENSSL_strndup (str : bytes) (size : nat) : ST H bytes :=
  let size := Z.of_nat (OPENSSL_strnlen str size) in
  let alloc_size := u64 (size + 1) in
  if alloc_size <? size then st_fail
  else
    ret <-- OPENSSL_malloc alloc_size ;;
    st_ret (take (Z.to_nat size) str ++ [0] ++ drop (Z.to_nat size + 1) ret).

End alloc.

(** * [crypto/mem.c]: comparison and hashing *)

(** [x |= a[i] ^ b[i]] over the first [len] bytes. *)
Definition CRYPTO_memcmp (in_a in_b : bytes) (len : nat) : Z :=
  fold_left (fun x ab => Z.lor x (Z.lxor ab.1 ab.2)) (take len (zip in_a in_b)) 0.

Definition kPrime : Z := 16777619.
Definition kOffsetBasis : Z := 2166136261.

Definition OPENSSL_hash32 (ptr : bytes) : Z :=
  fold_left (fun h c => u32 (Z.lxor h c * kPrime)) ptr kOffsetBasis.

(** [strlen] of the C library: the bytes before the first NUL. *)
Fixpoint strlen (s : bytes) : nat :=
  match s with
  | c :: s => if c =? 0 then O else S (strlen s)
  | [] => O
  end.

(** [None] is NULL. *)
Definition OPENSSL_strdup {H} `{Malloc H} (s : option bytes) : ST H bytes :=
  match s with
  | None => st_fail
  | Some s => OPENSSL_memdup s (u64 (Z.of_nat (strlen s) + 1))
  end.

Definition OPENSSL_strhash (s : bytes) : Z := OPENSSL_hash32 (take (strlen s) s).

(** * [crypto/mem.c]: characters *)

Definition OPENSSL_isalpha (c : Z) : bool :=
  ((97 <=? c) && (c <=? 122)) || ((65 <=? c) && (c <=? 90)).
Definition OPENSSL_isdigit (c : Z) : bool := (48 <=? c) && (c <=? 57).
Definition OPENSSL_isxdigit (c : Z) : bool :=
  OPENSSL_isdigit c || ((97 <=? c) && (c <=? 102)) || ((65 <=? c) && (c <=? 70)).
Definition OPENSSL_fromxdigit (c : Z) : option Z :=
  if OPENSSL_isdigit c then Some (c - 48)
  else if (97 <=? c) && (c <=? 102) then Some (c - 97 + 10)
  else if (65 <=? c) && (c <=? 70) then Some (c - 65 + 10)
  else None.
Definition OPENSSL_isalnum (c : Z) : bool := OPENSSL_isalpha c || OPENSSL_isdigit c.
Definition OPENSSL_tolower (c : Z) : Z := if (65 <=? c) && (c <=? 90) then c + (97 - 65) else c.
Definition OPENSSL_isspace (c : Z) : bool :=
  (c =? 9) || (c =? 10) || (c =? 11) || (c =? 12) || (c =? 13) || (c =? 32).

(** [a] and [b] are read up to their NUL; [OPENSSL_strcasecmp] returns [None]
    only when it would read past the end of a string that has none. *)
Fixpoint OPENSSL_strcasecmp (a b : bytes) : option Z :=
  match a, b with
  | x :: a, y :: b =>
      let aa := OPENSSL_tolower x in
      let bb := OPENSSL_tolower y in
      if aa <? bb then Some (-1)
      else if aa >? bb then Some 1
      else if aa =? 0 then Some 0
      else OPENSSL_strcasecmp a b
  | _, _ => None
  end.

Fixpoint OPENSSL_strncasecmp (a b : bytes) (n : nat) : option Z :=
  match n with
  | O => Some 0
  | S n =>
      match a, b with
      | x :: a, y :: b =>
          let aa := OPENSSL_tolower x in
          let bb := OPENSSL_tolower y in
          if aa <? bb then Some (-1)
          else if aa >? bb then Some 1
          else if aa =? 0 then Some 0
          else OPENSSL_strncasecmp a b n
      | _, _ => None
      end
  end.

(** [OPENSSL_strlcpy dst src dst_size] returns the new contents of [dst] and
    the returned length. *)
Fixpoint OPENSSL_strlcpy_loop (l : Z) (dst src : bytes) (dst_size : Z) : bytes * Z :=
  match dst, src with
  | d :: dst', c :: src' =>
      if (dst_size >? 1) && negb (c =? 0) then
        let '(r, n) := OPENSSL_strlcpy_loop (l + 1) dst' src' (dst_size - 1) in (c :: r, n)
      else if negb (dst_size =? 0) then (0 :: dst', l + Z.of_nat (strlen src))
      else (dst, l + Z.of_nat (strlen src))
  | _, _ => (dst, l + Z.of_nat (strlen src))
  end.
Definition OPENSSL_strlcpy (dst src : bytes) (dst_size : Z) : bytes * Z :=
  OPENSSL_strlcpy_loop 0 dst src dst_size.

Fixpoint OPENSSL_strlcat (dst src : bytes) (dst_size : Z) : bytes * Z :=
  match dst with
  | d :: dst' =>
      if (dst_size >? 0) && negb (d =? 0) then
        let '(r, n) := OPENSSL_strlcat dst' src (dst_size - 1) in (d :: r, 1 + n)
      else OPENSSL_strlcpy dst src dst_size
  | [] => OPENSSL_strlcpy dst src dst_size
  end.

(** * Lemmas *)

Section alloc_lemmas.
Context {H : Type} `{MallocSpec H}.

Lemma OPENSSL_malloc_spec size h b h' :
  0 <= size -> OPENSSL_malloc size h = (Some b, h') ->
  Zlen b = size /\ bytes_ok b /\ size <= SIZE_MAX - OPENSSL_MALLOC_PREFIX.
Proof.
  unfold OPENSSL_malloc, u64, SIZE_MAX, OPENSSL_MALLOC_PREFIX. intros Hs.
  destruct (Z.ltb_spec ((size + 8) mod 2 ^ 64) size) as [?|Hov]; [intros; st_inv|].
  intros Hm. st_inv.
  assert (size + 8 < 2 ^ 64) as Hlt.
  { destruct (decide (size + 8 < 2 ^ 64)); [done|].
    pose proof (Z.mod_pos_bound (size + 8) (2 ^ 64)).
    pose proof (Z.div_mod (size + 8) (2 ^ 64)).
    assert (1 <= (size + 8) / 2 ^ 64) by (apply Z.div_le_lower_bound; lia). lia. }
  rewrite Z.mod_small in * by lia.
  match goal with Hx : malloc _ _ = _ |- _ =>
    pose proof (malloc_bytes _ _ _ _ Hx); apply malloc_length in Hx; [|lia] end.
  split_and!; [rewrite Zlen_drop; lia | auto with bytes | lia].
Qed.

Lemma OPENSSL_malloc_total `{!MallocTotal H} size h :
  0 <= size <= 2 ^ 62 -> exists b h', OPENSSL_malloc size h = (Some b, h').
Proof.
  intros. unfold OPENSSL_malloc, u64, OPENSSL_MALLOC_PREFIX.
  rewrite Z.mod_small by lia. destruct (Z.ltb_spec (size + 8) size); [lia|].
  destruct (malloc_total (size + 8) h ltac:(lia)) as (b & h' & Hm).
  rewrite (st_bind_some _ _ _ _ _ Hm). unfold st_ret. eauto.
Qed.

Lemma OPENSSL_memdup_spec data size h b h' :
  0 <= size <= Zlen data -> OPENSSL_memdup data size h = (Some b, h') ->
  b = take (Z.to_nat size) data.
Proof.
  unfold OPENSSL_memdup. intros Hs Hm. destruct (size =? 0); [st_inv|]. st_inv.
  match goal with Hx : OPENSSL_malloc _ _ = _ |- _ =>
    apply OPENSSL_malloc_spec in Hx as (? & ? & ?); [|lia] end.
  unfold Zlen in *. rewrite (drop_ge x) by lia. by rewrite app_nil_r.
Qed.

(** A reallocated block has the new size and starts with the old contents. *)
Lemma OPENSSL_realloc_spec p new_size h b h' :
  0 <= new_size -> OPENSSL_realloc p new_size h = (Some b, h') ->
  Zlen b = new_size /\ new_size <= SIZE_MAX /\ (bytes_ok (default [] p) -> bytes_ok b) /\
  let n := Z.to_nat (Z.min (Zlen (default [] p)) new_size) in take n b = take n (default [] p).
Proof.
  intros Hs Hr. destruct p as [orig|]; simpl in *.
  2: { apply OPENSSL_malloc_spec in Hr as (Hl & ? & ?); [|done].
       unfold OPENSSL_MALLOC_PREFIX in *. change (Zlen (@nil Z)) with 0.
       rewrite Z.min_l by lia. split_and!; [done|lia|done|done]. }
  st_inv. match goal with Hx : OPENSSL_malloc _ _ = _ |- _ =>
    apply OPENSSL_malloc_spec in Hx as (Hl & ? & ?); [|lia] end.
  replace (if Zlen orig <? new_size then Zlen orig else new_size)
    with (Z.min (Zlen orig) new_size) by (destruct (Z.ltb_spec (Zlen orig) new_size); lia).
  pose proof (Zlen_nonneg orig). set (n := Z.min _ _) in *. unfold OPENSSL_MALLOC_PREFIX in *.
  split_and!.
  - rewrite Zlen_app, Zlen_take, Zlen_drop by lia. lia.
  - lia.
  - intros. solve_bytes.
  - rewrite take_app_le by (rewrite length_take; unfold Zlen in *; lia).
    rewrite take_take. f_equal. lia.
Qed.

Lemma OPENSSL_realloc_total `{!MallocTotal H} p size h :
  0 <= size <= 2 ^ 62 -> exists b h', OPENSSL_realloc p size h = (Some b, h').
Proof.
  intros Hs. destruct (OPENSSL_malloc_total size h Hs) as (b & h' & Hm).
  destruct p as [orig|]; simpl; [|eauto]. rewrite (st_bind_some _ _ _ _ _ Hm). eauto.
Qed.

(** A successful [OPENSSL_realloc] returns a block of the requested size
    that starts with the old contents, cut to the new size when it is smaller. *)
Theorem OPENSSL_realloc_preserves orig new_size h b h' :
  0 <= new_size -> bytes_ok orig ->
  OPENSSL_realloc (Some orig) new_size h = (Some b, h') ->
  Zlen b = new_size /\ bytes_ok b /\
  let n := Z.to_nat (Z.min (Zlen orig) new_size) in take n b = take n orig.
Proof.
  intros Hs Hok Hr. apply OPENSSL_realloc_spec in Hr as (? & ? & ? & ?); [|done].
  simpl in *. auto.
Qed.

End alloc_lemmas.

Lemma OPENSSL_realloc_preserves_witness :
  OPENSSL_realloc (Some [1; 2; 3]) 5 100 = (Some [1; 2; 3; 170; 170], 87) /\
  Zlen [1; 2; 3; 170; 170] = 5.
Proof.
  split; [vm_compute; reflexivity|].
  refine (proj1 (OPENSSL_realloc_preserves [1; 2; 3] 5 100 [1; 2; 3; 170; 170] 87 _ _ _)).
  - lia.
  - repeat constructor; unfold is_byte; lia.
  - vm_compute. reflexivity.
Defined.

Lemma memcmp_fold_zero l x :
  fold_left (fun x ab => Z.lor x (Z.lxor ab.1 ab.2)) l x = 0 <->
  x = 0 /\ Forall (fun ab : Z * Z => ab.1 = ab.2) l.
Proof.
  revert x. induction l as [|[a b] l IH]; intros x; simpl.
  - split; [by intros -> | by intros []].
  - rewrite IH, Z.lor_eq_0_iff, Z.lxor_eq_0_iff, Forall_cons. simpl. tauto.
Qed.

Lemma Forall_zip_eq (a b : bytes) n :
  (n <= length a)%nat -> (n <= length b)%nat ->
  Forall (fun ab : Z * Z => ab.1 = ab.2) (take n (zip a b)) <-> take n a = take n b.
Proof.
  revert a b. induction n as [|n IH]; intros [|x a] [|y b]; simpl; try done; try lia.
  intros Ha Hb. rewrite Forall_cons, IH by lia. simpl. split.
  - intros [-> ->]. done.
  - intros [=]. done.
Qed.

Lemma CRYPTO_memcmp_zero a b len :
  (len <= length a)%nat -> (len <= length b)%nat -> CRYPTO_memcmp a b len = 0 <-> take len a = take len b.
Proof.
  intros Ha Hb. unfold CRYPTO_memcmp.
  rewrite memcmp_fold_zero, Forall_zip_eq by done. tauto.
Qed.

(** [CRYPTO_memcmp] looks at every byte and returns zero exactly when the
    first [len] bytes of its two arguments are equal. *)
Theorem CRYPTO_memcmp_zero_iff a b len :
  (len <= length a)%nat -> (len <= length b)%nat ->
  CRYPTO_memcmp a b len = 0 <-> take len a = take len b.
Proof. apply CRYPTO_memcmp_zero. Qed.

Lemma CRYPTO_memcmp_zero_iff_witness :
  CRYPTO_memcmp [1; 2; 3] [1; 2; 4] 2 = 0.
Proof. apply CRYPTO_memcmp_zero_iff; simpl; [lia | lia | reflexivity]. Defined.

Lemma strlen_cstr s rest : 0 ∉ s -> strlen (s ++ 0 :: rest) = length s.
Proof.
  induction s as [|c s IH]; intros Hs; [done|]. simpl.
  apply not_elem_of_cons in Hs as [? ?].
  destruct (Z.eqb_spec c 0); [lia|]. by rewrite IH.
Qed.

Lemma strlcpy_loop_spec l dst s rest dst_size :
  0 ∉ s -> 1 <= dst_size <= Zlen dst ->
  OPENSSL_strlcpy_loop l dst (s ++ 0 :: rest) dst_size =
    (take (Z.to_nat (dst_size - 1)) s ++
       0 :: drop (S (length s `min` Z.to_nat (dst_size - 1))) dst, l + Zlen s).
Proof.
  revert l dst dst_size. induction s as [|c s IH]; intros l dst dst_size Hs Hd;
    (destruct dst as [|d dst]; [change (Zlen (@nil Z)) with 0 in Hd; lia|]);
    rewrite Zlen_cons in Hd; simpl.
  - rewrite andb_false_r. destruct (Z.eqb_spec dst_size 0); [lia|]. simpl.
    by rewrite take_nil.
  - apply not_elem_of_cons in Hs as [Hc Hs].
    destruct (Z.eqb_spec c 0) as [|_]; [lia|]. simpl. rewrite andb_true_r.
    destruct (Z.eqb_spec dst_size 1) as [->|].
    + simpl. rewrite Zlen_cons. change (c :: s ++ 0 :: rest) with ((c :: s) ++ 0 :: rest).
      destruct (Z.eqb_spec c 0); [lia|]. rewrite strlen_cstr by done. simpl.
      f_equal. unfold Zlen. lia.
    + destruct (dst_size >? 1) eqn:E; [|lia]. rewrite IH by (done || lia).
      rewrite Zlen_cons. replace (Z.to_nat (dst_size - 1)) with (S (Z.to_nat (dst_size - 1 - 1))) by lia.
      simpl. f_equal. lia.
Qed.

(** [OPENSSL_strlcpy] and [OPENSSL_strlcat] never write past [dst_size]
    bytes, always leave a terminated string that is a prefix of the wanted one,
    and return the length of the wanted string, so that truncation shows as a
    result of at least [dst_size]. *)
Theorem OPENSSL_strlcat_spec dst0 d_rest s s_rest dst_size :
  let dst := dst0 ++ 0 :: d_rest in
  0 ∉ dst0 -> 0 ∉ s -> Zlen dst0 < dst_size <= Zlen dst ->
  let '(out, n) := OPENSSL_strlcat dst (s ++ 0 :: s_rest) dst_size in
  let kept := take (Z.to_nat (dst_size - 1)) (dst0 ++ s) in
  n = Zlen (dst0 ++ s) /\
  out = kept ++ 0 :: drop (S (length kept)) dst /\
  drop (Z.to_nat dst_size) out = drop (Z.to_nat dst_size) dst.
Proof.
  revert dst_size. induction dst0 as [|d dst0 IH]; intros dst_size dst Hd Hs Hsz; subst dst.
  - unfold OPENSSL_strlcat, OPENSSL_strlcpy. simpl. rewrite andb_false_r.
    change (Zlen []) with 0 in Hsz. simpl in *.
    pose proof (strlcpy_loop_spec 0 (0 :: d_rest) s s_rest dst_size Hs ltac:(lia)) as Hl.
    simpl in Hl. rewrite Hl. rewrite length_take, Nat.min_comm. split_and!; [lia|done|].
    rewrite drop_app_ge by (rewrite length_take; lia).
    rewrite length_take.
    destruct (Z.to_nat dst_size - (Z.to_nat (dst_size - 1) `min` length s))%nat as [|k] eqn:E; [lia|].
    simpl. rewrite drop_drop. destruct (Z.to_nat dst_size) eqn:E'; [lia|]. simpl.
    f_equal. lia.
  - apply not_elem_of_cons in Hd as [Hd0 Hd]. rewrite Zlen_cons in Hsz. simpl in Hsz.
    rewrite Zlen_cons in Hsz. simpl. pose proof (Zlen_nonneg dst0).
    destruct (Z.eqb_spec d 0) as [|_]; [lia|]. destruct (dst_size >? 0) eqn:E; [|lia]. simpl.
    specialize (IH (dst_size - 1) Hd Hs ltac:(lia)).
    destruct (OPENSSL_strlcat _ _ _) as [out n]. destruct IH as (-> & -> & IH).
    replace (Z.to_nat (dst_size - 1)) with (S (Z.to_nat (dst_size - 1 - 1))) in * by lia.
    replace (Z.to_nat dst_size) with (S (S (Z.to_nat (dst_size - 1 - 1)))) by lia.
    simpl in *. rewrite Zlen_cons. split_and!; [lia|done|exact IH].
Qed.

Lemma OPENSSL_strlcat_spec_witness :
  OPENSSL_strlcat [97; 0; 7; 7; 7] [98; 99; 100; 0] 4 = ([97; 98; 99; 0; 7], 4) /\
  drop 4 (OPENSSL_strlcat [97; 0; 7; 7; 7] [98; 99; 100; 0] 4).1 = [7].
Proof.
  split; [reflexivity|].
  refine (proj2 (proj2 (OPENSSL_strlcat_spec [97] [7; 7; 7] [98; 99; 100] [] 4 _ _ _))).
  - by rewrite list_elem_of_singleton.
  - intros Hin. repeat apply elem_of_cons in Hin as [Hin|Hin]; [lia..|by apply not_elem_of_nil in Hin].
  - split; reflexivity || (vm_compute; discriminate).
Defined.

Lemma OPENSSL_isdigit_spec c : OPENSSL_isdigit c = true <-> 48 <= c <= 57.
Proof. unfold OPENSSL_isdigit. lia. Qed.
