(* ===== verification/Buf.v ===== *)
(** The growable byte buffer [BUF_MEM] of [crypto/buf/buf.c]. *)
From S2P Require Import Prelude Mem.

Record buf_mem_st := BufMem {
  length : Z;
  data : option bytes;   (** [None] is NULL; the block has [max] bytes *)
  max : Z;
}.

Section buf.
Context {H : Type} `{Malloc H}.

(** [sizeof(BUF_MEM)] is 24; the zeroed block is an empty buffer. *)
Definition BUF_MEM_new : ST H buf_mem_st :=
  _ <-- OPENSSL_zalloc 24 ;; st_ret (BufMem 0 None 0).

Definition BUF_MEM_reserve (cap : Z) : ST (buf_mem_st * H) unit := fun '(buf, h) =>
  if max buf >=? cap then (Some tt, (buf, h))
  else
    let n := u64 (cap + 3) in
    if n <? cap then (None, (buf, h))
    else
      let n := n / 3 in
      let alloc_size := u64 (n * 4) in
      if negb (alloc_size / 4 =? n) then (None, (buf, h))
      else
        match OPENSSL_realloc (data buf) alloc_size h with
        | (None, h) => (None, (buf, h))
        | (Some new_buf, h) => (Some tt, (BufMem (length buf) (Some new_buf) alloc_size, h))
        end.

(** [memcpy(buf->data + off, src, n)] of the [n] bytes of [src]. *)
Definition buf_mem_write (off : Z) (src : bytes) (p : option bytes) : option bytes :=
  (fun l => take (Z.to_nat off) l ++ src ++ drop (Z.to_nat off + List.length src) l) <$> p.

Definition BUF_MEM_grow (len : Z) (s : buf_mem_st * H) : Z * (buf_mem_st * H) :=
  match BUF_MEM_reserve len s with
  | (None, s) => (0, s)
  | (Some _, (buf, h)) =>
      let d :=
        if length buf <? len then
          buf_mem_write (length buf) (replicate (Z.to_nat (len - length buf)) 0) (data buf)
        else data buf in
      (len, (BufMem len d (max buf), h))
  end.

Definition BUF_MEM_grow_clean (len : Z) (s : buf_mem_st * H) : Z * (buf_mem_st * H) := BUF_MEM_grow len s.

Definition BUF_MEM_append (in_ : bytes) : ST (buf_mem_st * H) unit := fun s =>
  let len := Zlen in_ in
  if len =? 0 then (Some tt, s)
  else
    let new_len := u64 (length s.1 + len) in
    if new_len <? len then (None, s)
    else
      match BUF_MEM_reserve new_len s with
      | (None, s) => (None, s)
      | (Some _, (buf, h)) =>
          (Some tt, (BufMem new_len (buf_mem_write (length buf) in_ (data buf)) (max buf), h))
      end.

Definition BUF_strdup (str : option bytes) : ST H bytes := OPENSSL_strdup str.
Definition BUF_strndup (str : bytes) (size : nat) : ST H bytes := OPENSSL_strndup str size.
Definition BUF_memdup (data : bytes) (size : Z) : ST H bytes := OPENSSL_memdup data size.

End buf.

Definition BUF_strnlen (str : bytes) (max_len : nat) : nat := OPENSSL_strnlen str max_len.
Definition BUF_strlcpy (dst src : bytes) (dst_size : Z) : bytes * Z := OPENSSL_strlcpy dst src dst_size.
Definition BUF_strlcat (dst src : bytes) (dst_size : Z) : bytes * Z := OPENSSL_strlcat dst src dst_size.

(** * The contents of a buffer *)

Definition contents (b : buf_mem_st) : bytes := take (Z.to_nat (length b)) (default [] (data b)).

Record buf_ok (b : buf_mem_st) : Prop := {
  ok_length : 0 <= length b <= max b;
  ok_max : max b <= SIZE_MAX;
  ok_data : Zlen (default [] (data b)) = max b;
}.

(** * Lemmas *)

Section lemmas.
Context {H : Type} `{MallocSpec H}.

(** The size [BUF_MEM_reserve] asks for: a third more than it needs. *)
Lemma alloc_size_spec cap :
  0 <= cap <= SIZE_MAX ->
  let n := u64 (cap + 3) in
  if n <? cap then SIZE_MAX < cap + 3
  else n = cap + 3 /\ (if u64 (n / 3 * 4) / 4 =? n / 3 then u64 (n / 3 * 4) = n / 3 * 4 else SIZE_MAX < n / 3 * 4).
Proof.
  intros Hc n. unfold n, u64, SIZE_MAX in *. clear n.
  destruct (decide (cap + 3 < 2 ^ 64)) as [Hs|Hs].
  - rewrite (Z.mod_small (cap + 3)) by lia. destruct (Z.ltb_spec (cap + 3) cap); [lia|]. split; [done|].
    set (k := (cap + 3) / 3). assert (0 <= k) by (unfold k; dlia).
    destruct (decide (k * 4 < 2 ^ 64)).
    + rewrite Z.mod_small, Z.div_mul, Z.eqb_refl by lia. done.
    + destruct (Z.eqb_spec (k * 4 mod 2 ^ 64 / 4) k) as [E|]; [|lia]. clearbody k. dlia.
  - assert ((cap + 3) mod 2 ^ 64 = cap + 3 - 2 ^ 64) as -> by dlia.
    destruct (Z.ltb_spec (cap + 3 - 2 ^ 64) cap); lia.
Qed.

Lemma buf_reserve_ok cap (b : buf_mem_st) (h : H) :
  buf_ok b -> 0 <= cap <= SIZE_MAX ->
  match BUF_MEM_reserve cap (b, h) with
  | (Some _, (b', h')) => buf_ok b' /\ length b' = length b /\ contents b' = contents b /\
      cap <= max b' /\ (max b' = max b \/ 3 * max b' <= 4 * (cap + 3))
  | (None, (b', h')) => b' = b /\ max b < cap /\ (MallocTotal H -> 2 ^ 60 < cap)
  end.
Proof.
  intros [Hl Hm Hd] Hc. unfold BUF_MEM_reserve. destruct (Z.geb_spec (max b) cap).
  { split_and!; auto; split; done. }
  pose proof (alloc_size_spec cap Hc) as Ha. cbv zeta in Ha.
  destruct (Z.ltb_spec (u64 (cap + 3)) cap).
  { split_and!; [done|lia|]. unfold SIZE_MAX in *. lia. }
  destruct Ha as [En Ha]. rewrite En in *.
  destruct (u64 ((cap + 3) / 3 * 4) / 4 =? (cap + 3) / 3); cbn [negb].
  2:{ split_and!; [done|lia|]. unfold SIZE_MAX in *. dlia. }
  rewrite Ha. assert (cap < (cap + 3) / 3 * 4 /\ 3 * ((cap + 3) / 3 * 4) <= 4 * (cap + 3)) as [Hlo Hhi] by dlia.
  destruct (OPENSSL_realloc (data b) _ h) as [[nb|] h'] eqn:Hr.
  - apply OPENSSL_realloc_spec in Hr as (Hz & Hmax & _ & Ht); [|lia]. cbv zeta in Ht.
    rewrite Hd, Z.min_l in Ht by lia. split_and!; [split; simpl; lia|done| |simpl; lia|right; simpl; lia].
    unfold contents. simpl.
    apply (f_equal (take (Z.to_nat (length b)))) in Ht. rewrite !take_take, !Nat.min_l in Ht by lia. done.
  - split_and!; [done|lia|]. intros Ht. destruct (decide (2 ^ 60 < cap)); [done|].
    destruct (OPENSSL_realloc_total (data b) ((cap + 3) / 3 * 4) h) as (nb & h2 & Hn); [lia|]. by rewrite Hn in Hr.
Qed.

Lemma buf_write_ok (b : buf_mem_st) src :
  buf_ok b -> length b + Zlen src <= max b ->
  let b' := BufMem (length b + Zlen src) (buf_mem_write (length b) src (data b)) (max b) in
  buf_ok b' /\ contents b' = contents b ++ src.
Proof.
  intros [Hl Hm Hd] Hs. cbv zeta. pose proof (Zlen_nonneg src).
  unfold contents, buf_mem_write in *. cbn [length data max] in *. destruct (data b) as [l|]; cbn [fmap option_fmap option_map default from_option id] in *.
  - unfold Zlen in *.
    assert (List.length (take (Z.to_nat (length b)) l) = Z.to_nat (length b)) as Ht by (rewrite length_take; lia).
    split.
    + split; simpl; [lia|done|]. unfold Zlen. rewrite !length_app, Ht, length_drop. lia.
    + rewrite app_assoc, take_app_le by (rewrite length_app, Ht; lia). apply take_ge. rewrite length_app, Ht. lia.
  - change (Zlen (@nil Z)) with 0 in Hd. assert (src = []) as -> by (apply Zlen_0_inv; lia).
    rewrite !take_nil. split; [split; simpl; lia|done].
Qed.

(** The operations of [BUF_MEM] keep [length <= max] and the size of the
    block.  [BUF_MEM_reserve] only changes the capacity; [BUF_MEM_grow] cuts the
    contents or extends them with zeros; [BUF_MEM_append] appends.  An operation
    that fails changes nothing and fails only on overflow or without memory. *)
Theorem BUF_MEM_spec (b : buf_mem_st) (h : H) len in_ :
  buf_ok b -> 0 <= len <= SIZE_MAX -> Zlen in_ <= SIZE_MAX ->
  (let '(r, (b', _)) := BUF_MEM_reserve len (b, h) in
   if r is Some _ then buf_ok b' /\ contents b' = contents b /\ len <= max b' /\ (max b' = max b \/ 3 * max b' <= 4 * (len + 3))
   else b' = b /\ (MallocTotal H -> 2 ^ 60 < len)) /\
  (let '(n, (b', _)) := BUF_MEM_grow len (b, h) in
   buf_ok b' /\
   (n = len /\ length b' = len /\
      contents b' = take (Z.to_nat len) (contents b) ++ replicate (Z.to_nat (len - length b)) 0 \/
    n = 0 /\ b' = b /\ (MallocTotal H -> 2 ^ 60 < len))) /\
  (let '(r, (b', _)) := BUF_MEM_append in_ (b, h) in
   buf_ok b' /\
   if r is Some _ then contents b' = contents b ++ in_
   else b' = b /\ (MallocTotal H -> 2 ^ 60 < length b + Zlen in_)).
Proof.
  intros Hok Hlen Hin. pose proof Hok as [Hl Hm Hd]. pose proof (Zlen_nonneg in_). split_and!.
  - pose proof (buf_reserve_ok len b h Hok Hlen) as Hr.
    destruct (BUF_MEM_reserve len (b, h)) as [[u|] [b' h']]; naive_solver.
  - unfold BUF_MEM_grow. pose proof (buf_reserve_ok len b h Hok Hlen) as Hr.
    destruct (BUF_MEM_reserve len (b, h)) as [[u|] [b' h']]; [|naive_solver].
    destruct Hr as (Hok' & Hle & Hc & Hcap & _). rewrite <- Hc, <- Hle in *.
    destruct (Z.ltb_spec (length b') len).
    + set (z := replicate (Z.to_nat (len - length b')) 0).
      assert (Zlen z = len - length b') as Hz by (unfold z; apply Zlen_replicate; lia).
      destruct (buf_write_ok b' z Hok' ltac:(lia)) as [Hok2 Hc2]. rewrite Hz in *.
      replace (length b' + (len - length b')) with len in * by lia.
      split; [done|]. left. split_and!; [done|done|]. rewrite Hc2. f_equal.
      symmetry. apply take_ge. unfold contents. rewrite length_take. lia.
    + destruct Hok' as [? ? Hd']. split; [split; simpl; lia|]. left. split_and!; [done|done|].
      unfold contents. simpl. replace (Z.to_nat (len - length b')) with O by lia.
      rewrite app_nil_r, take_take. f_equal. lia.
  - unfold BUF_MEM_append. destruct (Z.eqb_spec (Zlen in_) 0) as [E|].
    { apply Zlen_0_inv in E as ->. by rewrite app_nil_r. }
    cbn [fst]. unfold u64. destruct (decide (length b + Zlen in_ < 2 ^ 64)) as [Hs|Hs]; unfold SIZE_MAX in *.
    + rewrite Z.mod_small by lia. destruct (Z.ltb_spec (length b + Zlen in_) (Zlen in_)); [lia|].
      pose proof (buf_reserve_ok (length b + Zlen in_) b h Hok ltac:(unfold SIZE_MAX; lia)) as Hr.
      destruct (BUF_MEM_reserve _ (b, h)) as [[u|] [b' h']]; [|destruct Hr as (-> & _ & Ht); by split].
      destruct Hr as (Hok' & Hle & Hc & Hcap & _). rewrite <- Hle, <- Hc in *.
      by apply buf_write_ok.
    + assert ((length b + Zlen in_) mod 2 ^ 64 = length b + Zlen in_ - 2 ^ 64) as -> by dlia.
      destruct (Z.ltb_spec (length b + Zlen in_ - 2 ^ 64) (Zlen in_)); [|lia].
      split; [done|]. split; [done|]. lia.
Qed.

End lemmas.

Lemma BUF_MEM_spec_witness :
  let b := BufMem 2 (Some [1; 2; 9; 9]) 4 in
  buf_ok (BUF_MEM_append [3; 4; 5] (b, 100)).2.1 /\
  contents (BUF_MEM_append [3; 4; 5] (b, 100)).2.1 = [1; 2; 3; 4; 5].
Proof.
  assert (buf_ok (BufMem 2 (Some [1; 2; 9; 9]) 4)) as Hok by (split; vm_compute; split_and?; discriminate || reflexivity).
  destruct (BUF_MEM_spec (BufMem 2 (Some [1; 2; 9; 9]) 4) 100 0 [3; 4; 5] Hok) as (_ & _ & Ha); [done|done|].
  vm_compute in Ha. destruct Ha. split; [|reflexivity]. exact H.
Defined.
