(* ===== verification/Der.v ===== *)
(** The grammar of DER (ITU-T X.690) that the reader and the writer of
    [crypto/bytestring/] promise to each other: tags, lengths, elements and
    INTEGER bodies as functions from values to bytes.  Nothing here is code of
    the library; it is the specification both sides are proved against. *)
From S2P Require Import Prelude.

(** * Base-128 integers: tag numbers and OID components *)

Fixpoint base128_hi (fuel : nat) (v : Z) : bytes :=
  match fuel with
  | O => []
  | S fuel => if v <=? 0 then [] else base128_hi fuel (v / 128) ++ [128 + v mod 128]
  end.

(** Enough fuel for every digit of [v]. *)
Definition base128_fuel (v : Z) : nat := S (Z.to_nat (Z.log2 v)).

Definition base128 (v : Z) : bytes :=
  base128_hi (base128_fuel (v / 128)) (v / 128) ++ [v mod 128].

(** * Tags: three bits of class and form, then the number *)

Definition valid_tag (t : Z) : Prop := 0 <= t < 2 ^ 32 /\ t <> 0 /\ t <> 2 ^ 29.

Definition tag_bits (t : Z) : Z := t / 2 ^ 29.
Definition tag_num (t : Z) : Z := t mod 2 ^ 29.

Definition der_tag (t : Z) : bytes :=
  if tag_num t <? 31 then [tag_bits t * 32 + tag_num t]
  else (tag_bits t * 32 + 31) :: base128 (tag_num t).

(** * Lengths *)

Definition len_octets (n : Z) : nat :=
  if n <? 2 ^ 8 then 1 else if n <? 2 ^ 16 then 2 else if n <? 2 ^ 24 then 3 else 4.

Definition der_len (n : Z) : bytes :=
  if n <? 128 then [n] else (128 + Z.of_nat (len_octets n)) :: be_bytes (len_octets n) n.

(** The length fields that BER readers accept: the short form ([k = 0]) or [k]
    octets, of which only the shortest is DER. *)
Definition ber_len (k : nat) (n : Z) : bytes :=
  match k with O => [n] | S _ => (128 + Z.of_nat k) :: be_bytes k n end.

Definition ber_len_ok (k : nat) (n : Z) : Prop :=
  match k with O => n < 128 | S _ => (k <= 4)%nat /\ n < 256 ^ Z.of_nat k end.

Definition ber_minimal (k : nat) (n : Z) : bool :=
  match k with
  | O => true
  | S _ => negb ((n <? 128) || (Z.shiftr n ((Z.of_nat k - 1) * 8) =? 0))
  end.

(** * Elements *)

Definition der_header (t n : Z) : bytes := der_tag t ++ der_len n.
Definition der (t : Z) (contents : bytes) : bytes := der_header t (Zlen contents) ++ contents.

Definition ber_header (k : nat) (t n : Z) : bytes := der_tag t ++ ber_len k n.
Definition ber (k : nat) (t : Z) (contents : bytes) : bytes :=
  ber_header k t (Zlen contents) ++ contents.

(** * INTEGER bodies: minimal two's complement *)

Definition int_fits (k : nat) (z : Z) : bool :=
  (- 2 ^ (8 * Z.of_nat k - 1) <=? z) && (z <? 2 ^ (8 * Z.of_nat k - 1)).

Fixpoint int_octets_from (fuel k : nat) (z : Z) : nat :=
  match fuel with
  | O => k
  | S fuel => if int_fits k z then k else int_octets_from fuel (S k) z
  end.
Definition int_octets (z : Z) : nat := int_octets_from 16 1 z.

Definition der_int (z : Z) : bytes := be_bytes (int_octets z) z.

Definition signed_val (l : bytes) : Z :=
  match l with
  | [] => 0
  | b :: _ => if b <? 128 then be_val l else be_val l - 256 ^ Zlen l
  end.

(** * Lemmas: base 128 *)

Lemma base128_hi_fuel f g v :
  0 <= v -> v < 2 ^ Z.of_nat f -> v < 2 ^ Z.of_nat g -> base128_hi f v = base128_hi g v.
Proof.
  revert g v. induction f as [|f IH]; intros g v Hv Hf Hg.
  - simpl in Hf. assert (v = 0) as -> by lia. destruct g; done.
  - destruct g as [|g].
    + simpl in Hg. assert (v = 0) as -> by lia. done.
    + simpl. destruct (Z.leb_spec v 0); [done|]. f_equal.
      rewrite !Nat2Z.inj_succ, !Z.pow_succ_r in * by lia.
      apply IH; [apply Z.div_pos; lia|apply Z.div_lt_upper_bound; lia..].
Qed.

Lemma base128_fuel_enough v : 0 <= v -> v < 2 ^ Z.of_nat (base128_fuel v).
Proof.
  intros Hv. unfold base128_fuel. rewrite Nat2Z.inj_succ, Z2Nat.id by apply Z.log2_nonneg.
  destruct (decide (v = 0)) as [->|]; [done|]. apply Z.log2_spec. lia.
Qed.

(** The digits of [v] except that the last one also carries the high bit. *)
Definition b128_prefix (v : Z) : bytes := base128_hi (base128_fuel v) v.

Lemma b128_prefix_step v :
  0 < v -> b128_prefix v = b128_prefix (v / 128) ++ [128 + v mod 128].
Proof.
  intros Hv. unfold b128_prefix. unfold base128_fuel at 1.
  cbn [base128_hi]. destruct (Z.leb_spec v 0); [lia|]. f_equal.
  assert (0 <= v / 128) by (apply Z.div_pos; lia).
  apply base128_hi_fuel; [done| |by apply base128_fuel_enough].
  pose proof (base128_fuel_enough v ltac:(lia)) as Hf.
  unfold base128_fuel in Hf. rewrite Nat2Z.inj_succ, Z.pow_succ_r in Hf by lia.
  apply Z.div_lt_upper_bound; lia.
Qed.

Lemma base128_eq v : base128 v = b128_prefix (v / 128) ++ [v mod 128].
Proof. done. Qed.

Lemma b128_ind (P : Z -> Prop) :
  P 0 -> (forall v, 0 < v -> P (v / 128) -> P v) -> forall v, 0 <= v -> P v.
Proof.
  intros H0 Hstep v Hv. apply (Zlt_0_ind P); [|done]. clear v Hv.
  intros v IH Hv. destruct (decide (v = 0)) as [->|]; [done|].
  apply Hstep; [lia|]. apply IH.
  split; [apply Z.div_pos; lia|apply Z.div_lt; lia].
Qed.

Lemma b128_prefix_bytes v : 0 <= v -> Forall (fun b => 128 <= b < 256) (b128_prefix v).
Proof.
  revert v. apply b128_ind; [constructor|]. intros v Hv IH.
  rewrite b128_prefix_step by done. apply Forall_app. split; [done|].
  repeat constructor; pose proof (Z.mod_pos_bound v 128); lia.
Qed.

Lemma base128_bytes_ok v : 0 <= v -> bytes_ok (base128 v).
Proof.
  intros Hv. rewrite base128_eq. apply bytes_ok_app. split.
  - eapply Forall_impl; [apply b128_prefix_bytes, Z.div_pos; lia|].
    intros b Hb. unfold is_byte. simpl in Hb. lia.
  - pose proof (Z.mod_pos_bound v 128). repeat constructor; lia.
Qed.

(** The value of a run of continuation digits. *)
Definition hi_val (hs : bytes) : Z := fold_left (fun v b => v * 128 + (b - 128)) hs 0.

Lemma hi_val_snoc hs b : hi_val (hs ++ [b]) = hi_val hs * 128 + (b - 128).
Proof. unfold hi_val. by rewrite fold_left_app. Qed.

(** A run that does not start with [0x80] is the prefix of its own value. *)
Lemma b128_prefix_hi_val hs :
  Forall (fun b => 128 <= b < 256) hs -> head hs <> Some 128 ->
  b128_prefix (hi_val hs) = hs /\ (hs <> [] -> 0 < hi_val hs) /\ 0 <= hi_val hs.
Proof.
  induction hs as [|b hs IH] using rev_ind; intros Hok Hhd.
  - split_and!; [done|done|]. unfold hi_val. simpl. lia.
  - apply Forall_app in Hok as [Hok Hb]. rewrite Forall_singleton in Hb.
    rewrite hi_val_snoc.
    assert (head hs <> Some 128) as Hhd' by (destruct hs; [done|exact Hhd]).
    destruct (IH Hok Hhd') as (Heq & Hpos & H0).
    assert (0 < hi_val hs * 128 + (b - 128)) as Hlt.
    { destruct hs; [|specialize (Hpos ltac:(done)); lia].
      simpl in Hhd. assert (b <> 128) by congruence. unfold hi_val. simpl. lia. }
    split_and!; [|done|lia].
    rewrite b128_prefix_step by done.
    rewrite Z.div_add_l, (Z.div_small (b - 128)), Z.add_0_r, Heq by lia.
    rewrite Z.add_comm, (Z.add_comm _ (b - 128)), Z.mod_add, Z.mod_small by lia.
    do 2 f_equal. lia.
Qed.

(** * Lemmas: tags and lengths *)

Lemma tag_split t : t = tag_bits t * 2 ^ 29 + tag_num t.
Proof. unfold tag_bits, tag_num. pose proof (Z.div_mod t (2 ^ 29)). lia. Qed.

Lemma tag_bits_bound t : 0 <= t < 2 ^ 32 -> 0 <= tag_bits t < 8.
Proof.
  intros. unfold tag_bits. split; [apply Z.div_pos; lia|apply Z.div_lt_upper_bound; lia].
Qed.

Lemma tag_num_bound t : 0 <= tag_num t < 2 ^ 29.
Proof. apply Z.mod_pos_bound. lia. Qed.

Lemma der_tag_bytes_ok t : 0 <= t < 2 ^ 32 -> bytes_ok (der_tag t).
Proof.
  intros Ht. pose proof (tag_bits_bound t Ht). pose proof (tag_num_bound t).
  unfold der_tag. destruct (Z.ltb_spec (tag_num t) 31);
    (constructor; [unfold is_byte; lia|]); [constructor|apply base128_bytes_ok; lia].
Qed.

Lemma length_b128_prefix k v :
  0 <= v < 128 ^ Z.of_nat k -> (length (b128_prefix v) <= k)%nat.
Proof.
  revert v. induction k as [|k IH]; intros v Hv.
  - assert (v = 0) as -> by (change (128 ^ Z.of_nat 0) with 1 in Hv; lia). done.
  - destruct (decide (v = 0)) as [->|]; [simpl; lia|].
    rewrite b128_prefix_step, length_app by lia. simpl.
    rewrite Nat2Z.inj_succ, Z.pow_succ_r in Hv by lia.
    specialize (IH (v / 128)). assert (0 <= v / 128 < 128 ^ Z.of_nat k); [|lia].
    split; [apply Z.div_pos; lia|apply Z.div_lt_upper_bound; lia].
Qed.

Lemma Zlen_base128 k v :
  0 <= v < 128 ^ (1 + Z.of_nat k) -> 1 <= Zlen (base128 v) <= 1 + Z.of_nat k.
Proof.
  intros Hv. rewrite base128_eq, Zlen_snoc.
  rewrite Z.pow_add_r in Hv by lia. change (128 ^ 1) with 128 in Hv.
  pose proof (length_b128_prefix k (v / 128)). unfold Zlen.
  assert (0 <= v / 128 < 128 ^ Z.of_nat k); [|lia].
  split; [apply Z.div_pos; lia|apply Z.div_lt_upper_bound; lia].
Qed.

Lemma Zlen_der_tag t : 1 <= Zlen (der_tag t) <= 6.
Proof.
  unfold der_tag. destruct (tag_num t <? 31); rewrite Zlen_cons.
  - change (Zlen (@nil Z)) with 0. lia.
  - pose proof (tag_num_bound t). pose proof (Zlen_base128 4 (tag_num t)).
    change (128 ^ (1 + Z.of_nat 4)) with (2 ^ 35) in *. lia.
Qed.

Lemma len_octets_spec n :
  0 <= n < 2 ^ 32 ->
  (1 <= len_octets n <= 4)%nat /\ n < 256 ^ Z.of_nat (len_octets n) /\
  (n < 256 \/ 256 ^ (Z.of_nat (len_octets n) - 1) <= n).
Proof.
  intros Hn. unfold len_octets.
  repeat match goal with |- context [n <? ?k] => destruct (Z.ltb_spec n k) end;
    simpl; lia.
Qed.

Lemma len_octets_unique n k :
  0 <= n < 2 ^ 32 -> (1 <= k <= 4)%nat ->
  n < 256 ^ Z.of_nat k -> (n < 256 /\ k = 1%nat \/ 256 ^ (Z.of_nat k - 1) <= n) ->
  len_octets n = k.
Proof.
  intros Hn Hk Hlt Hge. unfold len_octets.
  assert (k = 1 \/ k = 2 \/ k = 3 \/ k = 4)%nat as [-> | [-> | [-> | ->]]] by lia; simpl in *;
    repeat match goal with |- context [n <? ?j] => destruct (Z.ltb_spec n j) end; lia.
Qed.

Lemma der_len_bytes_ok n : 0 <= n < 2 ^ 32 -> bytes_ok (der_len n).
Proof.
  intros Hn. destruct (len_octets_spec n Hn) as (? & ? & ?). unfold der_len.
  destruct (Z.ltb_spec n 128); [repeat constructor; lia|].
  constructor; [unfold is_byte; lia|apply be_bytes_ok].
Qed.

(** * Lemmas: INTEGER bodies *)

Lemma int_fits_iff k z :
  int_fits k z = true <-> - 2 ^ (8 * Z.of_nat k - 1) <= z < 2 ^ (8 * Z.of_nat k - 1).
Proof. unfold int_fits. lia. Qed.

Lemma int_fits_mono k l z :
  (1 <= k <= l)%nat -> int_fits k z = true -> int_fits l z = true.
Proof.
  rewrite !int_fits_iff. intros.
  pose proof (Z.pow_le_mono_r 2 (8 * Z.of_nat k - 1) (8 * Z.of_nat l - 1)). lia.
Qed.

Lemma int_octets_from_unique fuel j k z :
  (1 <= j <= k)%nat -> (k <= j + fuel)%nat -> int_fits k z = true ->
  (j = k \/ int_fits (k - 1) z = false) ->
  int_octets_from fuel j z = k.
Proof.
  revert j. induction fuel as [|fuel IH]; intros j Hj Hk Hfit Hmin; simpl; [lia|].
  destruct (decide (j = k)) as [->|]; [by rewrite Hfit|].
  destruct (int_fits j z) eqn:E.
  - destruct Hmin as [|Hmin]; [done|].
    rewrite (int_fits_mono j (k - 1)) in Hmin by (done || lia). done.
  - apply IH; [lia|lia|done|]. destruct Hmin; [done|by right].
Qed.

Lemma int_octets_unique k z :
  (1 <= k <= 17)%nat -> int_fits k z = true -> (k = 1%nat \/ int_fits (k - 1) z = false) ->
  int_octets z = k.
Proof.
  intros Hk Hfit Hmin. apply int_octets_from_unique; [lia|lia|done|].
  destruct Hmin; [left; lia|by right].
Qed.

Lemma int_octets_from_spec fuel j k z :
  (1 <= j <= k)%nat -> (k <= j + fuel)%nat -> int_fits k z = true ->
  (j = 1%nat \/ int_fits (j - 1) z = false) ->
  let n := int_octets_from fuel j z in
  (j <= n <= k)%nat /\ int_fits n z = true /\ (n = 1%nat \/ int_fits (n - 1) z = false).
Proof.
  revert j. induction fuel as [|fuel IH]; intros j Hj Hk Hfit Hmin; simpl.
  - assert (j = k) as -> by lia. auto with lia.
  - destruct (int_fits j z) eqn:E; [auto with lia|].
    destruct (decide (j = k)) as [->|]; [congruence|].
    destruct (IH (S j)) as (? & ? & ?); try lia; [done|right; by rewrite Nat.sub_1_r|].
    split_and!; auto; lia.
Qed.

Lemma int_octets_spec k z :
  (1 <= k <= 17)%nat -> int_fits k z = true ->
  (1 <= int_octets z <= k)%nat /\ int_fits (int_octets z) z = true /\
  (int_octets z = 1%nat \/ int_fits (int_octets z - 1) z = false).
Proof. intros. apply int_octets_from_spec; auto; lia. Qed.

Lemma pow256 k : 0 <= k -> 256 ^ k = 2 ^ (8 * k).
Proof. intros. change 256 with (2 ^ 8). by rewrite <- Z.pow_mul_r by lia. Qed.

Lemma pow256_half k : 1 <= k -> 256 ^ k = 2 * 2 ^ (8 * k - 1).
Proof.
  intros. rewrite pow256 by lia. rewrite <- (Z.pow_1_r 2) at 2.
  rewrite <- Z.pow_add_r by lia. f_equal. lia.
Qed.

(** A body denotes a value that fits in its length. *)
Lemma signed_val_fits l :
  bytes_ok l -> l <> [] -> int_fits (length l) (signed_val l) = true.
Proof.
  intros Hok Hne. destruct l as [|b l]; [done|]. apply int_fits_iff. simp_bytes.
  pose proof (be_val_bound l ltac:(done)) as Hl. pose proof (Zlen_nonneg l).
  fold (Zlen (b :: l)). unfold signed_val. rewrite be_val_cons, Zlen_cons.
  pose proof (pow256_half (1 + Zlen l) ltac:(lia)) as E1.
  rewrite Z.pow_add_r in E1 |- * by lia. change (256 ^ 1) with 256 in *.
  set (half := 2 ^ (8 * (1 + Zlen l) - 1)) in *. set (M := 256 ^ Zlen l) in *.
  unfold is_byte in *. destruct (Z.ltb_spec b 128); nia.
Qed.

Lemma be_bytes_signed_val l :
  bytes_ok l -> be_bytes (length l) (signed_val l) = l.
Proof.
  intros Hok. rewrite <- (be_bytes_be_val l Hok) at 3. unfold signed_val.
  destruct l as [|b l]; [done|]. destruct (b <? 128); [done|].
  rewrite <- be_bytes_mod. symmetry. rewrite <- be_bytes_mod. symmetry. f_equal.
  fold (Zlen (b :: l)). rewrite <- Zminus_mod_idemp_r, Z.mod_same, Z.sub_0_r; [done|].
  apply Z.pow_nonzero; pose proof (Zlen_nonneg (b :: l)); lia.
Qed.

Lemma signed_val_be_bytes k z :
  (1 <= k)%nat -> int_fits k z = true -> signed_val (be_bytes k z) = z.
Proof.
  intros Hk Hfit%int_fits_iff.
  pose proof (length_be_bytes k z) as Hlen. pose proof (be_bytes_ok k z) as Hok.
  pose proof (be_val_be_bytes k z) as Hv.
  destruct (be_bytes k z) as [|b l] eqn:E; [simpl in Hlen; lia|].
  unfold signed_val. rewrite Hv.
  assert (Zlen (b :: l) = Z.of_nat k) as Hz by (unfold Zlen; lia). rewrite Hz.
  rewrite be_val_cons in Hv. simp_bytes. pose proof (be_val_bound l ltac:(done)).
  assert (Zlen l = Z.of_nat k - 1) as Hl by (rewrite Zlen_cons in Hz; lia). rewrite Hl in *.
  pose proof (pow256_half (Z.of_nat k) ltac:(lia)) as E1.
  assert (256 ^ Z.of_nat k = 256 * 256 ^ (Z.of_nat k - 1)) as E2.
  { rewrite <- Z.pow_succ_r by lia. f_equal. lia. }
  set (M := 256 ^ Z.of_nat k) in *. set (M' := 256 ^ (Z.of_nat k - 1)) in *.
  set (half := 2 ^ (8 * Z.of_nat k - 1)) in *. unfold is_byte in *.
  destruct (decide (0 <= z)).
  - rewrite Z.mod_small in * by lia. destruct (Z.ltb_spec b 128); [done|]. nia.
  - assert (z mod M = z + M) as Hm.
    { rewrite <- (Z.mod_add z 1 M), Z.mod_small by lia. lia. }
    rewrite Hm in *. destruct (Z.ltb_spec b 128); [nia|lia].
Qed.

Lemma der_int_bytes_ok z : bytes_ok (der_int z).
Proof. apply be_bytes_ok. Qed.

#[export] Hint Resolve der_int_bytes_ok : bytes.
