(* ===== verification/Cbs.v ===== *)
(** The reader [CBS] of [crypto/bytestring/cbs.c].

    A [CBS] is a pointer and a length into a buffer it does not own: the bytes
    still to be read.  A call that reads is a computation of [ST bytes]: it
    returns its out-parameters on success and the bytes that are left, also on
    failure, where the code may have advanced already. *)
From S2P Require Import Prelude Mem Der.

(** * Fixed-size reads *)

Definition cbs_get (n : Z) : ST bytes bytes := fun cbs =>
  if Zlen cbs <? n then (None, cbs)
  else (Some (take (Z.to_nat n) cbs), drop (Z.to_nat n) cbs).

Definition CBS_skip (len : Z) : ST bytes unit := cbs_get len ;;; st_ret tt.

Definition CBS_get_bytes (len : Z) : ST bytes bytes := cbs_get len.

Definition CBS_copy_bytes (len : Z) : ST bytes bytes := cbs_get len.

(** [result <<= 8; result |= data[i]] on a [uint64_t]. *)
Definition cbs_get_u (len : Z) : ST bytes Z :=
  data <-- cbs_get len ;;
  st_ret (fold_left (fun result b => Z.lor (u64 (Z.shiftl result 8)) b) data 0).

Definition CBS_get_u8 : ST bytes Z :=
  v <-- cbs_get 1 ;;
  match v with b :: _ => st_ret b | [] => st_fail end.

Definition CRYPTO_bswap2 (x : Z) : Z := u16 (Z.lor (Z.shiftr x 8) (Z.shiftl x 8)).
Definition CRYPTO_bswap4 (x : Z) : Z :=
  let x := u32 (Z.lor (Z.shiftr x 16) (Z.shiftl x 16)) in
  u32 (Z.lor (Z.shiftr (Z.land x 0xff00ff00) 8) (Z.shiftl (Z.land x 0x00ff00ff) 8)).
Definition CRYPTO_bswap8 (x : Z) : Z :=
  Z.lor (CRYPTO_bswap4 (Z.shiftr x 32)) (Z.shiftl (CRYPTO_bswap4 (u32 x)) 32).

Definition CBS_get_u16 : ST bytes Z := v <-- cbs_get_u 2 ;; st_ret (u16 v).
Definition CBS_get_u16le : ST bytes Z := v <-- CBS_get_u16 ;; st_ret (CRYPTO_bswap2 v).
Definition CBS_get_u24 : ST bytes Z := v <-- cbs_get_u 3 ;; st_ret (u32 v).
Definition CBS_get_u32 : ST bytes Z := v <-- cbs_get_u 4 ;; st_ret (u32 v).
Definition CBS_get_u32le : ST bytes Z := v <-- CBS_get_u32 ;; st_ret (CRYPTO_bswap4 v).
Definition CBS_get_u64 : ST bytes Z := cbs_get_u 8.
Definition CBS_get_u64le : ST bytes Z := v <-- cbs_get_u 8 ;; st_ret (CRYPTO_bswap8 v).

Definition CBS_get_last_u8 : ST bytes Z := fun cbs =>
  match last cbs with
  | None => (None, cbs)
  | Some b => (Some b, take (length cbs - 1) cbs)
  end.

Definition cbs_get_length_prefixed (len_len : Z) : ST bytes bytes :=
  len <-- cbs_get_u len_len ;;
  CBS_get_bytes len.

Definition CBS_get_u8_length_prefixed : ST bytes bytes := cbs_get_length_prefixed 1.
Definition CBS_get_u16_length_prefixed : ST bytes bytes := cbs_get_length_prefixed 2.
Definition CBS_get_u24_length_prefixed : ST bytes bytes := cbs_get_length_prefixed 3.

(** The offset of the first [c]; the pointer [memchr] returns. *)
Fixpoint OPENSSL_memchr (s : bytes) (c : Z) : option nat :=
  match s with
  | [] => None
  | b :: s => if b =? c then Some O else S <$> OPENSSL_memchr s c
  end.

Definition CBS_get_until_first (c : Z) : ST bytes bytes := fun cbs =>
  match OPENSSL_memchr cbs c with
  | None => (None, cbs)
  | Some split => CBS_get_bytes (Z.of_nat split) cbs
  end.

Definition CBS_contains_zero_byte (cbs : bytes) : bool :=
  match OPENSSL_memchr cbs 0 with Some _ => true | None => false end.

Definition CBS_mem_equal (cbs data : bytes) : bool :=
  if negb (Zlen data =? Zlen cbs) then false
  else CRYPTO_memcmp cbs data (length data) =? 0.

Section alloc.
Context {H : Type} `{Malloc H}.

(** [*out_ptr] after the call; [None] is NULL.  The old [*out_ptr] is freed. *)
Definition CBS_stow (cbs : bytes) : ST H (option bytes) :=
  if Zlen cbs =? 0 then st_ret None
  else
    p <-- OPENSSL_memdup cbs (Zlen cbs) ;;
    st_ret (Some p).

Definition CBS_strdup (cbs : bytes) : ST H bytes := OPENSSL_strndup cbs (length cbs).
End alloc.

(** * DER elements *)

Definition CBS_ASN1_TAG_SHIFT : Z := 24.
Definition CBS_ASN1_CONSTRUCTED : Z := Z.shiftl 0x20 CBS_ASN1_TAG_SHIFT.
Definition CBS_ASN1_TAG_NUMBER_MASK : Z := Z.shiftl 1 (5 + CBS_ASN1_TAG_SHIFT) - 1.
Definition CBS_ASN1_BOOLEAN : Z := 0x1.
Definition CBS_ASN1_INTEGER : Z := 0x2.
Definition CBS_ASN1_OCTETSTRING : Z := 0x4.

Fixpoint base128_loop (v : Z) (cbs : bytes) : option Z * bytes :=
  match cbs with
  | [] => (None, [])
  | b :: cbs =>
      if negb (Z.shiftr v (64 - 7) =? 0) then (None, cbs)
      else if (v =? 0) && (b =? 0x80) then (None, cbs)
      else
        let v := Z.lor (u64 (Z.shiftl v 7)) (Z.land b 0x7f) in
        if negb (Z.land b 0x80 =? 0) then base128_loop v cbs else (Some v, cbs)
  end.

Definition parse_base128_integer : ST bytes Z := base128_loop 0.

Definition parse_asn1_tag : ST bytes Z :=
  tag_byte <-- CBS_get_u8 ;;
  let tag := u32 (Z.shiftl (Z.land tag_byte 0xe0) CBS_ASN1_TAG_SHIFT) in
  let tag_number := Z.land tag_byte 0x1f in
  tag_number <--
    (if tag_number =? 0x1f then
       v <-- parse_base128_integer ;;
       st_guard (negb ((v >? CBS_ASN1_TAG_NUMBER_MASK) || (v <? 0x1f))) ;;;
       st_ret v
     else st_ret tag_number) ;;
  let tag := Z.lor tag tag_number in
  st_guard (negb (Z.land tag (u32 (Z.lnot CBS_ASN1_CONSTRUCTED)) =? 0)) ;;;
  st_ret tag.

(** What the element readers write through their out-parameters. *)
Record asn1_element := Asn1Element {
  el_out : bytes;
  el_tag : Z;
  el_header_len : Z;
  el_ber_found : bool;
  el_indefinite : bool;
}.

Definition cbs_get_any_asn1_element (ber_ok : bool) : ST bytes asn1_element := fun cbs =>
  let header := cbs in
  match parse_asn1_tag header with
  | (None, _) => (None, cbs)
  | (Some tag, header) =>
  match CBS_get_u8 header with
  | (None, _) => (None, cbs)
  | (Some length_byte, header) =>
    let header_len := Zlen cbs - Zlen header in
    if Z.land length_byte 0x80 =? 0 then
      let len := u64 (length_byte + header_len) in
      (out <-- CBS_get_bytes len ;; st_ret (Asn1Element out tag header_len false false)) cbs
    else
      let num_bytes := Z.land length_byte 0x7f in
      if ber_ok && negb (Z.land tag CBS_ASN1_CONSTRUCTED =? 0) && (num_bytes =? 0) then
        (out <-- CBS_get_bytes header_len ;; st_ret (Asn1Element out tag header_len true true)) cbs
      else if (num_bytes =? 0) || (num_bytes >? 4) then (None, cbs)
      else
        match cbs_get_u num_bytes header with
        | (None, _) => (None, cbs)
        | (Some len64, header) =>
          let not_der := (len64 <? 128) || (Z.shiftr len64 ((num_bytes - 1) * 8) =? 0) in
          if not_der && negb ber_ok then (None, cbs)
          else if u64 (len64 + header_len + num_bytes) <? len64 then (None, cbs)
          else
            let len := u64 (len64 + header_len + num_bytes) in
            (out <-- CBS_get_bytes len ;;
             st_ret (Asn1Element out tag (header_len + num_bytes) not_der false)) cbs
        end
  end end.

Definition CBS_get_any_asn1_element : ST bytes asn1_element := cbs_get_any_asn1_element false.
Definition CBS_get_any_ber_asn1_element : ST bytes asn1_element := cbs_get_any_asn1_element true.

(** [CBS_get_any_asn1] returns the contents and the tag. *)
Definition CBS_get_any_asn1 : ST bytes (bytes * Z) :=
  e <-- CBS_get_any_asn1_element ;;
  match CBS_skip (el_header_len e) (el_out e) with
  | (None, _) => st_fail
  | (Some _, out) => st_ret (out, el_tag e)
  end.

Definition cbs_get_asn1 (tag_value : Z) (skip_header : bool) : ST bytes bytes :=
  e <-- CBS_get_any_asn1_element ;;
  st_guard (el_tag e =? tag_value) ;;;
  if skip_header then
    match CBS_skip (el_header_len e) (el_out e) with
    | (None, _) => st_fail
    | (Some _, out) => st_ret out
    end
  else st_ret (el_out e).

Definition CBS_get_asn1 (tag_value : Z) : ST bytes bytes := cbs_get_asn1 tag_value true.
Definition CBS_get_asn1_element (tag_value : Z) : ST bytes bytes := cbs_get_asn1 tag_value false.

Definition CBS_peek_asn1_tag (tag_value : Z) (cbs : bytes) : bool :=
  match parse_asn1_tag cbs with
  | (Some actual_tag, _) => tag_value =? actual_tag
  | (None, _) => false
  end.

(** * Lemmas: fixed-size reads *)

Lemma cbs_get_app l k : cbs_get (Zlen l) (l ++ k) = (Some l, k).
Proof.
  unfold cbs_get. rewrite Zlen_app. pose proof (Zlen_nonneg k).
  destruct (Z.ltb_spec (Zlen l + Zlen k) (Zlen l)); [lia|].
  by rewrite take_Zlen_app, drop_Zlen_app.
Qed.

Lemma cbs_get_app_eq n l k : n = Zlen l -> cbs_get n (l ++ k) = (Some l, k).
Proof. intros ->. apply cbs_get_app. Qed.

Lemma cbs_get_inv n s d s' :
  0 <= n -> cbs_get n s = (Some d, s') -> s = d ++ s' /\ Zlen d = n.
Proof.
  intros Hn. unfold cbs_get. destruct (Z.ltb_spec (Zlen s) n); intros; simplify_eq.
  split; [by rewrite take_drop|by apply Zlen_take].
Qed.

Lemma CBS_skip_app_eq n l k : n = Zlen l -> CBS_skip n (l ++ k) = (Some tt, k).
Proof. intros ->. unfold CBS_skip. by rewrite (st_bind_some _ _ _ _ _ (cbs_get_app l k)). Qed.

Lemma CBS_get_u8_cons b s : CBS_get_u8 (b :: s) = (Some b, s).
Proof.
  unfold CBS_get_u8. by rewrite (st_bind_some _ _ _ _ _ (cbs_get_app_eq 1 [b] s eq_refl)).
Qed.

Lemma CBS_get_u8_nil : CBS_get_u8 [] = (None, []).
Proof. done. Qed.

Lemma CBS_get_u8_inv s b s' : CBS_get_u8 s = (Some b, s') -> s = b :: s'.
Proof. destruct s; [done|]. rewrite CBS_get_u8_cons. by intros [= -> ->]. Qed.

Lemma cbs_get_u_app l k :
  bytes_ok l -> (length l <= 8)%nat ->
  cbs_get_u (Zlen l) (l ++ k) = (Some (be_val l), k).
Proof.
  intros. unfold cbs_get_u. rewrite (st_bind_some _ _ _ _ _ (cbs_get_app l k)).
  unfold st_ret. by rewrite be_loop_eq.
Qed.

Lemma cbs_get_u_inv n s v s' :
  bytes_ok s -> 0 <= n <= 8 -> cbs_get_u n s = (Some v, s') ->
  exists d, s = d ++ s' /\ Zlen d = n /\ v = be_val d.
Proof.
  intros Hok Hn Hg. unfold cbs_get_u in Hg. st_inv.
  match goal with Hx : cbs_get _ _ = _ |- _ => apply cbs_get_inv in Hx as [-> Hl]; [|lia] end.
  simp_bytes. eexists. split_and!; [done|done|].
  apply be_loop_eq; [done|unfold Zlen in *; lia].
Qed.

Lemma cbs_get_u_be n s v rest :
  bytes_ok s -> (n <= 8)%nat ->
  cbs_get_u (Z.of_nat n) s = (Some v, rest) <->
  s = be_bytes n v ++ rest /\ 0 <= v < 256 ^ Z.of_nat n.
Proof.
  intros Hok Hn. split.
  - intros (d & -> & Hl & ->)%cbs_get_u_inv; [|done|lia]. simp_bytes.
    assert (length d = n) as <- by (unfold Zlen in Hl; lia).
    rewrite be_bytes_be_val by done. split; [done|]. by apply be_val_bound.
  - intros [-> Hv]. rewrite <- (Zlen_be_bytes n v), cbs_get_u_app;
      [|apply be_bytes_ok|by rewrite length_be_bytes].
    by rewrite be_val_be_bytes_small.
Qed.

(** The fixed-width readers return exactly the big-endian value of the
    bytes they consume, and are inverse to writing that value: for a width of
    at most eight bytes, reading succeeds with [v] and leaves [rest] exactly
    when the input is the [n]-byte encoding of [v] followed by [rest]. *)
Theorem cbs_get_u_iff n s v rest :
  bytes_ok s -> (n <= 8)%nat ->
  cbs_get_u (Z.of_nat n) s = (Some v, rest) <->
  s = be_bytes n v ++ rest /\ 0 <= v < 256 ^ Z.of_nat n.
Proof. apply cbs_get_u_be. Qed.

Lemma cbs_get_u_iff_witness :
  cbs_get_u 2 [1; 2; 3] = (Some 258, [3]) /\ [1; 2; 3] = be_bytes 2 258 ++ [3].
Proof.
  assert (bytes_ok [1; 2; 3]) by (repeat constructor; lia).
  split; [reflexivity|]. apply (cbs_get_u_iff 2 [1; 2; 3] 258 [3]); [done|lia|reflexivity].
Defined.

(** * Lemmas: base-128 integers *)

Lemma high_bit_byte b :
  is_byte b -> (Z.land b 0x80 =? 0) = (b <? 128) /\ Z.land b 0x7f = b mod 128.
Proof.
  intros Hb. split.
  - revert b Hb. apply (byte_forall_eq (fun b => Z.land b 0x80 =? 0)). byte_compute.
  - apply (land_mask b 7). lia.
Qed.

Lemma shl7_lor v b :
  0 <= v < 2 ^ 57 -> 0 <= b < 128 -> Z.lor (u64 (Z.shiftl v 7)) b = v * 128 + b.
Proof.
  intros. unfold u64. rewrite Z.shiftl_mul_pow2, Z.mod_small by lia.
  apply (lor_add_disjoint v b 7); lia.
Qed.

Lemma base128_loop_cons v b s :
  is_byte b -> 0 <= v ->
  base128_loop v (b :: s) =
    if (v >=? 2 ^ 57) || ((v =? 0) && (b =? 128)) then (None, s)
    else if b <? 128 then (Some (v * 128 + b), s)
    else base128_loop (v * 128 + (b - 128)) s.
Proof.
  intros Hb Hv. cbn [base128_loop]. destruct (high_bit_byte b Hb) as [-> ->].
  rewrite Z.shiftr_div_pow2 by lia. change (64 - 7) with 57.
  assert ((v / 2 ^ 57 =? 0) = negb (v >=? 2 ^ 57)) as ->.
  { destruct (Z.eqb_spec (v / 2 ^ 57) 0) as [E|E].
    - apply Z.div_small_iff in E; lia.
    - destruct (v >=? 2 ^ 57) eqn:E'; [done|]. rewrite Z.div_small in E by lia. done. }
  rewrite negb_involutive. destruct (v >=? 2 ^ 57) eqn:E; [done|]. simpl.
  destruct ((v =? 0) && (b =? 128)); [done|]. unfold is_byte in Hb.
  pose proof (Z.mod_pos_bound b 128).
  rewrite shl7_lor by lia. destruct (Z.ltb_spec b 128); simpl.
  - by rewrite Z.mod_small by lia.
  - f_equal. rewrite <- (Z.mod_add b (-1) 128), Z.mod_small by lia. lia.
Qed.

Lemma base128_loop_prefix w t :
  0 <= w < 2 ^ 57 -> base128_loop 0 (b128_prefix w ++ t) = base128_loop w t.
Proof.
  intros [H0 Hlt]. revert w H0 Hlt t. refine (b128_ind _ _ _); [done|].
  intros v Hv IH Hlt t. rewrite b128_prefix_step, <- app_assoc by done.
  assert (0 <= v / 128 < 2 ^ 57).
  { split; [apply Z.div_pos; lia|]. apply Z.div_lt_upper_bound; lia. }
  rewrite IH by lia. pose proof (Z.mod_pos_bound v 128). pose proof (Z.div_mod v 128).
  simpl app. rewrite base128_loop_cons by (unfold is_byte; lia).
  destruct (v / 128 >=? 2 ^ 57) eqn:?; [lia|]. simpl.
  destruct (Z.eqb_spec (v / 128) 0), (Z.eqb_spec (128 + v mod 128) 128); simpl; try lia;
    (destruct (Z.ltb_spec (128 + v mod 128) 128); [lia|]; f_equal; lia).
Qed.

Lemma parse_base128_complete v rest :
  0 <= v < 2 ^ 64 -> parse_base128_integer (base128 v ++ rest) = (Some v, rest).
Proof.
  intros Hv. unfold parse_base128_integer. rewrite base128_eq, <- app_assoc.
  assert (0 <= v / 128 < 2 ^ 57).
  { split; [apply Z.div_pos; lia|]. apply Z.div_lt_upper_bound; lia. }
  rewrite base128_loop_prefix by done. simpl app.
  pose proof (Z.mod_pos_bound v 128). pose proof (Z.div_mod v 128).
  rewrite base128_loop_cons by (unfold is_byte; lia).
  destruct (v / 128 >=? 2 ^ 57) eqn:?; [lia|]. simpl.
  destruct (Z.eqb_spec (v mod 128) 128); [lia|]. rewrite andb_false_r.
  destruct (Z.ltb_spec (v mod 128) 128); [|lia]. do 2 f_equal. lia.
Qed.

(** The digits read so far, [hs], are a minimal run; the loop finishes it. *)
Lemma base128_loop_sound hs s v rest :
  bytes_ok s -> Forall (fun b => 128 <= b < 256) hs -> head hs <> Some 128 ->
  base128_loop (hi_val hs) s = (Some v, rest) ->
  exists hs' b, s = hs' ++ b :: rest /\ 0 <= b < 128 /\
    Forall (fun b => 128 <= b < 256) (hs ++ hs') /\ head (hs ++ hs') <> Some 128 /\
    hi_val (hs ++ hs') < 2 ^ 57 /\ v = hi_val (hs ++ hs') * 128 + b.
Proof.
  revert hs. induction s as [|b s IH]; intros hs Hok Hhs Hhd Hl; [done|]. simp_bytes.
  destruct (b128_prefix_hi_val hs Hhs Hhd) as (_ & _ & Hnn).
  rewrite base128_loop_cons in Hl by done.
  destruct (hi_val hs >=? 2 ^ 57) eqn:E1; [done|]. simpl in Hl.
  destruct ((hi_val hs =? 0) && (b =? 128)) eqn:E2; [done|]. unfold is_byte in *.
  destruct (Z.ltb_spec b 128).
  - simplify_eq. exists [], b. rewrite app_nil_r. split_and!; auto; lia.
  - rewrite <- hi_val_snoc in Hl.
    destruct (IH (hs ++ [b])) as (hs' & b' & -> & Hb' & Hok' & Hhd' & Hlt & ->); [done|..|done|].
    + apply Forall_app. split; [done|]. repeat constructor; lia.
    + destruct hs; [|exact Hhd]. simpl. intros [= ->]. unfold hi_val in E2. simpl in E2. done.
    + rewrite <- app_assoc in *. exists (b :: hs'), b'. done.
Qed.

Lemma parse_base128_sound s v rest :
  bytes_ok s -> parse_base128_integer s = (Some v, rest) ->
  s = base128 v ++ rest /\ 0 <= v < 2 ^ 64.
Proof.
  intros Hok Hp. change (base128_loop (hi_val []) s = (Some v, rest)) in Hp.
  apply (base128_loop_sound []) in Hp as (hs & b & -> & Hb & Hhs & Hhd & Hlt & ->);
    [|done|constructor|done].
  simpl in *. destruct (b128_prefix_hi_val hs Hhs Hhd) as (Heq & _ & Hnn).
  rewrite base128_eq, Z.div_add_l, (Z.div_small b), Z.add_0_r, Heq by lia.
  rewrite Z.add_comm, Z.mod_add, Z.mod_small by lia.
  split; [by rewrite <- app_assoc|lia].
Qed.

(** [parse_base128_integer] accepts exactly the minimal base-128 encodings
    of 64-bit values: leading [0x80] octets, truncated runs and values of more
    than 64 bits are all rejected, and nothing else is. *)
Theorem parse_base128_integer_iff s v rest :
  bytes_ok s ->
  parse_base128_integer s = (Some v, rest) <-> s = base128 v ++ rest /\ 0 <= v < 2 ^ 64.
Proof.
  intros Hok. split; [by apply parse_base128_sound|].
  intros [-> Hv]. by apply parse_base128_complete.
Qed.

Lemma parse_base128_integer_iff_witness :
  parse_base128_integer [0x86; 0xf7; 0x0d; 1] = (Some 113549, [1]).
Proof.
  apply parse_base128_integer_iff; [repeat constructor; lia|].
  split; [reflexivity|lia].
Defined.

(** * Lemmas: tags *)

Lemma tag_form_eqb t :
  0 <= t < 2 ^ 32 ->
  (Z.land t (u32 (Z.lnot CBS_ASN1_CONSTRUCTED)) =? 0) = (t =? 0) || (t =? 2 ^ 29).
Proof.
  intros Ht. destruct (Z.eqb_spec t 0) as [->|H0]; [done|].
  destruct (Z.eqb_spec t (2 ^ 29)) as [->|H29]; [done|].
  apply Z.eqb_neq. intros Hl.
  assert (forall i, 0 <= i -> Z.testbit t i = (29 =? i) && Z.testbit t 29) as Hbits.
  { intros i Hi. destruct (Z.eqb_spec 29 i) as [<-|Hne]; [done|]. simpl.
    destruct (decide (i < 32)).
    - pose proof (f_equal (fun x => Z.testbit x i) Hl) as Hb. simpl in Hb.
      rewrite Z.land_spec, Z.bits_0 in Hb. unfold u32 in Hb.
      rewrite Z.mod_pow2_bits_low, Z.lnot_spec in Hb by lia.
      change CBS_ASN1_CONSTRUCTED with (2 ^ 29) in Hb.
      rewrite Z.pow2_bits_eqb in Hb by lia. destruct (Z.eqb_spec 29 i); [done|].
      by rewrite andb_true_r in Hb.
    - rewrite <- (Z.mod_small t (2 ^ 32)) by lia. apply Z.mod_pow2_bits_high. lia. }
  destruct (Z.testbit t 29) eqn:E.
  - apply H29, Z.bits_inj'. intros i Hi.
    by rewrite Hbits, Z.pow2_bits_eqb, andb_true_r by lia.
  - apply H0, Z.bits_inj'. intros i Hi. by rewrite Hbits, Z.bits_0, andb_false_r by lia.
Qed.

Lemma tag_byte_parts b :
  is_byte b ->
  u32 (Z.shiftl (Z.land b 0xe0) CBS_ASN1_TAG_SHIFT) = b / 32 * 2 ^ 29 /\
  Z.land b 0x1f = b mod 32 /\ 0 <= b / 32 < 8.
Proof.
  intros Hb. split_and!.
  - revert b Hb. apply byte_forall_eqZ. byte_compute.
  - apply (land_mask b 5). lia.
  - unfold is_byte in *. apply Z.div_pos; lia.
  - unfold is_byte in *. apply Z.div_lt_upper_bound; lia.
Qed.

Lemma mk_tag_eq k n :
  0 <= k < 8 -> 0 <= n < 2 ^ 29 ->
  Z.lor (k * 2 ^ 29) n = k * 2 ^ 29 + n /\
  tag_bits (k * 2 ^ 29 + n) = k /\ tag_num (k * 2 ^ 29 + n) = n /\
  0 <= k * 2 ^ 29 + n < 2 ^ 32.
Proof.
  intros. unfold tag_bits, tag_num. split_and!; try lia.
  - apply lor_add_disjoint; lia.
  - rewrite Z.div_add_l, Z.div_small by lia. lia.
  - rewrite Z.add_comm, Z.mod_add, Z.mod_small by lia. done.
Qed.

(** The low five bits of the first octet decide the form of the tag. *)
Lemma parse_asn1_tag_cons b s :
  is_byte b ->
  parse_asn1_tag (b :: s) =
    (n <-- (if b mod 32 =? 31 then
              v <-- parse_base128_integer ;;
              st_guard (negb ((v >? CBS_ASN1_TAG_NUMBER_MASK) || (v <? 31))) ;;; st_ret v
            else st_ret (b mod 32)) ;;
     let t := Z.lor (b / 32 * 2 ^ 29) n in
     st_guard (negb (Z.land t (u32 (Z.lnot CBS_ASN1_CONSTRUCTED)) =? 0)) ;;; st_ret t) s.
Proof.
  intros Hb. unfold parse_asn1_tag. rewrite (st_bind_some _ _ _ _ _ (CBS_get_u8_cons b s)).
  destruct (tag_byte_parts b Hb) as (-> & -> & _). done.
Qed.

Lemma tag_guard_ok t (s : bytes) :
  valid_tag t ->
  st_bind (st_guard (negb (Z.land t (u32 (Z.lnot CBS_ASN1_CONSTRUCTED)) =? 0)))
    (fun _ => st_ret t) s = (Some t, s).
Proof.
  intros (? & ? & ?). rewrite tag_form_eqb by done.
  destruct (Z.eqb_spec t 0), (Z.eqb_spec t (2 ^ 29)); done.
Qed.

Lemma parse_asn1_tag_complete t rest :
  valid_tag t -> parse_asn1_tag (der_tag t ++ rest) = (Some t, rest).
Proof.
  intros Hv. pose proof Hv as (Ht & _ & _). pose proof (tag_bits_bound t Ht) as Hk.
  pose proof (tag_num_bound t) as Hn. pose proof (tag_split t) as Hs.
  destruct (mk_tag_eq _ _ Hk Hn) as (Hlor & _). rewrite <- Hs in Hlor.
  assert (forall m, 0 <= m < 32 ->
    (tag_bits t * 32 + m) / 32 = tag_bits t /\ (tag_bits t * 32 + m) mod 32 = m) as Hd.
  { intros m Hm. split; [rewrite Z.div_add_l, Z.div_small by lia; lia|].
    rewrite Z.add_comm, Z.mod_add, Z.mod_small by lia. done. }
  unfold der_tag. destruct (Z.ltb_spec (tag_num t) 31); simpl app;
    rewrite parse_asn1_tag_cons by (unfold is_byte; lia).
  - destruct (Hd (tag_num t)) as [-> ->]; [lia|].
    destruct (Z.eqb_spec (tag_num t) 31); [lia|].
    rewrite (st_bind_some _ _ _ (tag_num t) rest) by done.
    cbv zeta. rewrite Hlor. by apply tag_guard_ok.
  - destruct (Hd 31) as [-> ->]; [lia|]. rewrite Z.eqb_refl.
    rewrite (st_bind_some _ _ _ (tag_num t) rest).
    { cbv zeta. rewrite Hlor. by apply tag_guard_ok. }
    rewrite (st_bind_some _ _ _ (tag_num t) rest) by (apply parse_base128_complete; lia).
    change CBS_ASN1_TAG_NUMBER_MASK with (2 ^ 29 - 1).
    destruct (tag_num t >? 2 ^ 29 - 1) eqn:?; [lia|].
    destruct (Z.ltb_spec (tag_num t) 31); [lia|]. done.
Qed.

Lemma parse_asn1_tag_sound s t rest :
  bytes_ok s -> parse_asn1_tag s = (Some t, rest) -> s = der_tag t ++ rest /\ valid_tag t.
Proof.
  intros Hok Hp. destruct s as [|b s]; [done|]. simp_bytes.
  rewrite parse_asn1_tag_cons in Hp by done.
  destruct (tag_byte_parts b ltac:(done)) as (_ & _ & Hk).
  pose proof (Z.mod_pos_bound b 32 ltac:(lia)) as Hm. pose proof (Z.div_mod b 32 ltac:(lia)) as Hd.
  assert (exists n s1, 0 <= n < 2 ^ 29 /\ t = b / 32 * 2 ^ 29 + n /\ rest = s1 /\
    t <> 0 /\ t <> 2 ^ 29 /\
    (b mod 32 <> 31 /\ n = b mod 32 /\ s = s1 \/
     b mod 32 = 31 /\ 31 <= n /\ s = base128 n ++ s1)) as
    (n & s1 & Hn & -> & -> & Ht0 & Ht29 & Hcase).
  { apply st_bind_inv in Hp as (n & s1 & Hn & Hp). cbv zeta in Hp.
    assert (0 <= n < 2 ^ 29 /\ (b mod 32 <> 31 /\ n = b mod 32 /\ s = s1 \/
      b mod 32 = 31 /\ 31 <= n /\ s = base128 n ++ s1)) as [Hb Hcase].
    { destruct (Z.eqb_spec (b mod 32) 31) as [E|E]; st_inv.
      - match goal with Hx : parse_base128_integer _ = _ |- _ =>
          apply parse_base128_sound in Hx as [-> ?]; [|done] end.
        unfold CBS_ASN1_TAG_NUMBER_MASK, CBS_ASN1_TAG_SHIFT in *.
        change (Z.shiftl 1 (5 + 24) - 1) with (2 ^ 29 - 1) in *. split; [lia|right; split_and!; auto; lia].
      - split; [lia|by left]. }
    destruct (mk_tag_eq _ _ Hk Hb) as (Hlor & _ & _ & Hr). rewrite Hlor in Hp. st_inv.
    rewrite tag_form_eqb in * by done. eexists n, _. split_and!; [lia|lia|done|done|lia|lia|done]. }
  destruct (mk_tag_eq _ _ Hk Hn) as (_ & Hb & Hnum & Hr).
  split; [|split_and!; [lia..|done|done]].
  unfold der_tag. rewrite Hb, Hnum.
  destruct Hcase as [(? & -> & ->)|(? & ? & ->)].
  - destruct (Z.ltb_spec (b mod 32) 31); [|lia]. simpl. f_equal. lia.
  - destruct (Z.ltb_spec n 31); [lia|]. simpl. f_equal. lia.
Qed.

(** * Lemmas: elements *)

Lemma Zlen_der t c : Zlen (der t c) = Zlen (der_header t (Zlen c)) + Zlen c.
Proof. unfold der. apply Zlen_app. Qed.

Lemma get_whole_element e_tag hl bf ind el rest len :
  len = Zlen el ->
  (out <-- CBS_get_bytes len ;; st_ret (Asn1Element out e_tag hl bf ind)) (el ++ rest) =
  (Some (Asn1Element el e_tag hl bf ind), rest).
Proof.
  intros ->. unfold CBS_get_bytes. by rewrite (st_bind_some _ _ _ _ _ (cbs_get_app el rest)).
Qed.

Lemma get_element_inv e_tag hl bf ind s len e rest :
  0 <= len ->
  (out <-- CBS_get_bytes len ;; st_ret (Asn1Element out e_tag hl bf ind)) s = (Some e, rest) ->
  exists out, s = out ++ rest /\ Zlen out = len /\ e = Asn1Element out e_tag hl bf ind.
Proof. intros Hl H. st_inv. apply cbs_get_inv in H as [-> ?]; [|done]. eauto. Qed.

Lemma length_byte_parts k :
  0 <= k < 128 ->
  (Z.land (128 + k) 0x80 =? 0) = false /\ Z.land (128 + k) 0x7f = k.
Proof.
  intros. destruct (high_bit_byte (128 + k)) as [-> ->]; [unfold is_byte; lia|].
  split; [lia|]. rewrite <- (Z.mod_add _ (-1)), Z.mod_small by lia. lia.
Qed.

Lemma u64_small x : 0 <= x <= SIZE_MAX -> u64 x = x.
Proof. unfold u64, SIZE_MAX. intros. apply Z.mod_small. lia. Qed.

Lemma Zlen_ber k t c : Zlen (ber k t c) = Zlen (ber_header k t (Zlen c)) + Zlen c.
Proof. apply Zlen_app. Qed.

(** The BER reader reads back every element with a definite length, *)
Lemma ber_element_complete k t c rest :
  valid_tag t -> ber_len_ok k (Zlen c) -> Zlen (ber k t c ++ rest) <= SIZE_MAX ->
  CBS_get_any_ber_asn1_element (ber k t c ++ rest) =
    (Some (Asn1Element (ber k t c) t (Zlen (ber_header k t (Zlen c))) (negb (ber_minimal k (Zlen c))) false), rest).
Proof.
  intros Hv Hk Hsz. pose proof (Zlen_nonneg c) as Hc0. pose proof (Zlen_nonneg rest).
  pose proof (Zlen_nonneg (der_tag t)). rewrite Zlen_app, Zlen_ber in Hsz.
  assert (ber k t c ++ rest = der_tag t ++ ber_len k (Zlen c) ++ c ++ rest) as Hs
    by (unfold ber, ber_header; by rewrite <- !app_assoc).
  assert (Zlen (ber_header k t (Zlen c)) = Zlen (der_tag t) + Zlen (ber_len k (Zlen c))) as Hh by apply Zlen_app.
  unfold CBS_get_any_ber_asn1_element, cbs_get_any_asn1_element.
  rewrite Hs at 1. rewrite parse_asn1_tag_complete, Zlen_app, Zlen_ber by done.
  destruct k as [|k'].
  - cbn [ber_len app ber_len_ok ber_minimal negb] in *. rewrite CBS_get_u8_cons. change (Zlen [Zlen c]) with 1 in Hh.
    destruct (high_bit_byte (Zlen c)) as [-> _]; [unfold is_byte; lia|].
    destruct (Z.ltb_spec (Zlen c) 128); [|lia]. rewrite Zlen_app, u64_small by lia.
    rewrite (get_whole_element _ _ _ _ (ber 0 t c)) by (rewrite Zlen_ber; lia). do 3 f_equal. lia.
  - destruct Hk as [Hk Hn]. set (k := S k') in *. change (ber_len k (Zlen c)) with ((128 + Z.of_nat k) :: be_bytes k (Zlen c)) in *.
    cbn [app]. rewrite CBS_get_u8_cons, !Zlen_app, Zlen_be_bytes. rewrite Zlen_cons, Zlen_be_bytes in Hh.
    destruct (length_byte_parts (Z.of_nat k)) as [-> ->]; [lia|].
    destruct (Z.eqb_spec (Z.of_nat k) 0); [lia|]. rewrite andb_false_r, Z.gtb_ltb.
    destruct (Z.ltb_spec 4 (Z.of_nat k)); [lia|]. cbn [orb].
    rewrite <- (Zlen_be_bytes k (Zlen c)) at 1.
    rewrite cbs_get_u_app, be_val_be_bytes_small by (apply be_bytes_ok || rewrite ?length_be_bytes; lia).
    cbn [negb]. rewrite andb_false_r, !u64_small by lia.
    match goal with |- context [?a <? Zlen c] => destruct (Z.ltb_spec a (Zlen c)); [lia|] end.
    rewrite (get_whole_element _ _ _ _ (ber k t c)) by (rewrite Zlen_ber; lia).
    subst k. cbn [ber_minimal]. rewrite negb_involutive. do 3 f_equal. lia.
Qed.

(** and stops after the header of one with an indefinite length; *)
Lemma indefinite_complete t rest :
  valid_tag t -> Z.land t CBS_ASN1_CONSTRUCTED <> 0 ->
  CBS_get_any_ber_asn1_element (der_tag t ++ 0x80 :: rest) =
    (Some (Asn1Element (der_tag t ++ [0x80]) t (Zlen (der_tag t) + 1) true true), rest).
Proof.
  intros Hv Hcons. unfold CBS_get_any_ber_asn1_element, cbs_get_any_asn1_element.
  rewrite parse_asn1_tag_complete, CBS_get_u8_cons, Zlen_app, Zlen_cons by done.
  apply Z.eqb_neq in Hcons. rewrite Hcons. cbn [andb negb]. change (Z.land 0x80 0x80 =? 0) with false. change (Z.land 0x80 0x7f) with 0. cbn [Z.eqb].
  replace (der_tag t ++ 0x80 :: rest) with ((der_tag t ++ [0x80]) ++ rest) by (by rewrite <- app_assoc).
  rewrite (get_whole_element _ _ _ _ (der_tag t ++ [0x80])) by (rewrite Zlen_app; change (Zlen [0x80]) with 1; lia).
  do 3 f_equal. lia.
Qed.

Lemma length_byte_inv b :
  is_byte b ->
  (Z.land b 0x80 =? 0) = true /\ 0 <= b < 128 \/
  (Z.land b 0x80 =? 0) = false /\ 128 <= b < 256 /\ Z.land b 0x7f = b - 128.
Proof.
  intros Hb. destruct (high_bit_byte b Hb) as [-> ->]. unfold is_byte in *.
  destruct (Z.ltb_spec b 128); [left; split; [done|lia]|right]. split_and!; try lia.
  rewrite <- (Z.mod_add _ (-1)), Z.mod_small by lia. lia.
Qed.

(** A long-form length that the DER reader lets through is minimal. *)
Lemma minimal_length_octets d :
  bytes_ok d -> 1 <= Zlen d <= 4 ->
  (be_val d <? 128) || (Z.shiftr (be_val d) ((Zlen d - 1) * 8) =? 0) = false ->
  128 <= be_val d < 2 ^ 32 /\ len_octets (be_val d) = length d /\
  be_bytes (length d) (be_val d) = d.
Proof.
  intros Hok Hl Hm. apply orb_false_iff in Hm as [H128 Hsh].
  apply Z.ltb_ge in H128. apply Z.eqb_neq in Hsh.
  pose proof (be_val_bound d Hok) as Hb.
  assert (256 ^ Zlen d <= 256 ^ 4) by (apply Z.pow_le_mono_r; lia).
  change (256 ^ 4) with (2 ^ 32) in *.
  split; [lia|]. split; [|by apply be_bytes_be_val].
  rewrite Z.shiftr_div_pow2, Z.mul_comm, <- pow256 in Hsh by lia.
  apply len_octets_unique; [lia|unfold Zlen in *; lia|apply Hb|right].
  destruct (decide (256 ^ (Zlen d - 1) <= be_val d)); [done|].
  rewrite Z.div_small in Hsh by lia. done.
Qed.

Lemma ber_minimal_der k n :
  0 <= n -> ber_len_ok k n -> ber_minimal k n = true -> ber_len k n = der_len n /\ n < 2 ^ 32.
Proof.
  intros Hn Hk Hm. destruct k as [|k].
  - unfold der_len. simpl in *. destruct (Z.ltb_spec n 128); [by split; [|lia]|lia].
  - destruct Hk as [Hk Hlt]. cbn [ber_minimal] in Hm. apply negb_true_iff in Hm.
    pose proof (be_bytes_ok (S k) n) as Hok.
    pose proof (be_val_be_bytes_small (S k) n ltac:(lia)) as Hv.
    destruct (minimal_length_octets (be_bytes (S k) n)) as (Hb & Hlo & _);
      [done|rewrite Zlen_be_bytes; lia|by rewrite Hv, Zlen_be_bytes|].
    rewrite Hv, length_be_bytes in *. unfold der_len, ber_len. destruct (Z.ltb_spec n 128); [lia|]. rewrite Hlo. split; [done|lia].
Qed.

Lemma der_minimal n : 0 <= n < 2 ^ 32 -> exists k, ber_len_ok k n /\ ber_minimal k n = true /\ ber_len k n = der_len n.
Proof.
  intros Hn. unfold der_len. destruct (Z.ltb_spec n 128); [by exists 0%nat|].
  destruct (len_octets_spec n Hn) as (Hk & Hlt & Hmin). exists (len_octets n).
  destruct (len_octets n) as [|k] eqn:E; [lia|]. split_and!; [split; [lia|done]| |done].
  unfold ber_minimal. destruct (Z.ltb_spec n 128); [lia|]. cbn [orb].
  rewrite Z.shiftr_div_pow2, Z.mul_comm, <- pow256 by lia.
  destruct Hmin; [|assert (1 <= n / 256 ^ (Z.of_nat (S k) - 1)) by (apply Z.div_le_lower_bound; lia);
    destruct (Z.eqb_spec (n / 256 ^ (Z.of_nat (S k) - 1)) 0); [lia|done]].
  unfold len_octets in E. destruct (Z.ltb_spec n (2 ^ 8)); [|lia]. injection E as <-.
  change (256 ^ (Z.of_nat 1 - 1)) with 1. rewrite Z.div_1_r. destruct (Z.eqb_spec n 0); [lia|done].
Qed.

(** what it reads always has one of these forms. *)
Lemma header_split h n t hl bf ind s e rest :
  0 <= n -> (out <-- CBS_get_bytes (Zlen h + n) ;; st_ret (Asn1Element out t hl bf ind)) (h ++ s) = (Some e, rest) ->
  exists c, Zlen c = n /\ s = c ++ rest /\ e = Asn1Element (h ++ c) t hl bf ind.
Proof.
  intros Hn Hg. pose proof (Zlen_nonneg h).
  apply get_element_inv in Hg as (out & Hs & Hout & ->); [|lia].
  apply app_eq_inv in Hs as [(k & Hh & ->)|(k & -> & Hs)].
  - assert (k = []) as ->.
    { apply Zlen_0_inv. pose proof (Zlen_nonneg k). subst h. rewrite Zlen_app in *. lia. }
    rewrite app_nil_r in Hh. subst out. exists []. rewrite app_nil_r. split_and!; [unfold Zlen in *; simpl; lia|done|done].
  - exists k. rewrite Zlen_app in Hout. split_and!; [lia|done|done].
Qed.

Lemma ber_element_sound s e rest :
  bytes_ok s -> Zlen s <= SIZE_MAX -> CBS_get_any_ber_asn1_element s = (Some e, rest) ->
  (exists k t c, valid_tag t /\ ber_len_ok k (Zlen c) /\ s = ber k t c ++ rest /\
     e = Asn1Element (ber k t c) t (Zlen (ber_header k t (Zlen c))) (negb (ber_minimal k (Zlen c))) false) \/
  (exists t, valid_tag t /\ Z.land t CBS_ASN1_CONSTRUCTED <> 0 /\ s = der_tag t ++ 0x80 :: rest /\
     e = Asn1Element (der_tag t ++ [0x80]) t (Zlen (der_tag t) + 1) true true).
Proof.
  intros Hok Hsz Hg. unfold CBS_get_any_ber_asn1_element, cbs_get_any_asn1_element in Hg.
  destruct (parse_asn1_tag s) as [[t|] s1] eqn:Ht; [|done].
  apply parse_asn1_tag_sound in Ht as [-> Hv]; [|done].
  destruct (CBS_get_u8 s1) as [[b|] s2] eqn:Hb; [|done]. apply CBS_get_u8_inv in Hb as ->.
  simp_bytes. rewrite Zlen_app, Zlen_cons in *.
  pose proof (Zlen_nonneg s2). pose proof (Zlen_der_tag t).
  replace (Zlen (der_tag t) + (1 + Zlen s2) - Zlen s2) with (Zlen (der_tag t) + 1) in Hg by lia.
  assert (Zlen (der_tag t ++ [b]) = Zlen (der_tag t) + 1) as Hh by (by rewrite Zlen_app).
  assert (der_tag t ++ b :: s2 = (der_tag t ++ [b]) ++ s2) as Hs by (by rewrite <- app_assoc).
  destruct (length_byte_inv b ltac:(done)) as [[Eb Hlt]|(Eb & Hge & Elow)]; rewrite Eb in Hg.
  - left. rewrite u64_small in Hg by (unfold SIZE_MAX in *; lia).
    rewrite Hs, Z.add_comm, <- Hh in Hg. apply header_split in Hg as (c & Hc & -> & ->); [|lia].
    exists 0%nat, t, c. rewrite <- Hc at 1. unfold ber, ber_header. cbn [ber_len ber_minimal]. rewrite Hc.
    split_and!; [done|simpl; lia|by rewrite <- !app_assoc|done].
  - rewrite Elow in Hg. cbn [andb] in Hg. destruct (Z.eqb_spec (b - 128) 0).
    + right. exists t. rewrite andb_true_r in Hg. cbn [orb] in Hg.
      destruct (Z.eqb_spec (Z.land t CBS_ASN1_CONSTRUCTED) 0); [done|]. cbn [negb] in Hg.
      rewrite Hs, <- Hh, <- (Z.add_0_r (Zlen (der_tag t ++ [b]))) in Hg.
      apply header_split in Hg as (c & Hc%Zlen_0_inv & -> & ->); [|lia]. subst c. rewrite app_nil_r, Z.add_0_r, Hh.
      assert (b = 0x80) as -> by lia. split_and!; done.
    + left. rewrite andb_false_r in Hg. destruct (b - 128 >? 4) eqn:E4; [done|]. cbn [orb] in Hg.
      destruct (cbs_get_u (b - 128) s2) as [[len64|] s3] eqn:Hn; [|done].
      apply cbs_get_u_inv in Hn as (d & -> & Hd & ->); [|done|lia]. simp_bytes.
      cbn [negb] in Hg. rewrite andb_false_r in Hg. rewrite (Zlen_app d s3) in *. pose proof (Zlen_nonneg s3).
      pose proof (be_val_bound d ltac:(done)) as Hb.
      assert (256 ^ Zlen d <= 256 ^ 4) by (apply Z.pow_le_mono_r; lia). change (256 ^ 4) with (2 ^ 32) in *.
      rewrite !u64_small in Hg by (unfold SIZE_MAX in *; lia).
      match type of Hg with (if ?x <? ?y then _ else _) = _ => destruct (Z.ltb_spec x y); [lia|] end.
      rewrite Hs, app_assoc in Hg.
      replace (be_val d + (Zlen (der_tag t) + 1) + (b - 128)) with (Zlen ((der_tag t ++ [b]) ++ d) + be_val d) in Hg
        by (rewrite (Zlen_app _ d), Hh; lia).
      apply header_split in Hg as (c & Hc & -> & ->); [|lia].
      exists (length d), t, c. destruct d as [|d0 d']; [unfold Zlen in Hd; simpl in Hd; lia|]. set (d := d0 :: d') in *.
      assert (ber_len (length d) (Zlen c) = b :: d) as Hbl.
      { rewrite Hc. change (ber_len (length d) (be_val d)) with ((128 + Zlen d) :: be_bytes (length d) (be_val d)).
        rewrite be_bytes_be_val by done. f_equal. lia. }
      unfold ber, ber_header. rewrite Hbl.
      split_and!; [done|split; [unfold Zlen in *; lia|rewrite Hc; apply Hb]|by rewrite <- !app_assoc|].
      assert (der_tag t ++ b :: d = (der_tag t ++ [b]) ++ d) as -> by (by rewrite <- app_assoc).
      f_equal; [rewrite (Zlen_app _ d), Hh; lia|]. 
      change (ber_minimal (length d) (Zlen c)) with
        (negb ((Zlen c <? 128) || (Z.shiftr (Zlen c) ((Zlen d - 1) * 8) =? 0))).
      by rewrite negb_involutive, Hc, Hd.
Qed.

(** The BER reader only relaxes the DER reader, and reports it: it agrees
    with the DER reader whenever the latter succeeds, and if it succeeds
    without setting [ber_found], then the DER reader succeeds with the same
    element. *)
Lemma CBS_get_any_ber_asn1_element_der s e rest :
  CBS_get_any_asn1_element s = (Some e, rest) <->
  CBS_get_any_ber_asn1_element s = (Some e, rest) /\ el_ber_found e = false.
Proof.
  unfold CBS_get_any_asn1_element, CBS_get_any_ber_asn1_element, cbs_get_any_asn1_element.
  assert (forall (m : ST bytes bytes) f (b : bool),
    (forall o, el_ber_found (f o) = b) ->
    ((out <-- m ;; st_ret (f out)) s = (Some e, rest) <->
     (out <-- m ;; st_ret (f out)) s = (Some e, rest) /\ el_ber_found e = b)) as Hf.
  { intros m f b Hb. split; [|tauto]. intros Hm. split; [done|]. st_inv. apply Hb. }
  destruct (parse_asn1_tag s) as [[t|] s1]; [|split; [done|by intros []]].
  destruct (CBS_get_u8 s1) as [[b|] s2]; [|split; [done|by intros []]].
  destruct (Z.land b 0x80 =? 0); [by apply Hf|]. cbn [andb].
  set (nb := Z.land b 0x7f).
  destruct (Z.eqb_spec nb 0) as [->|Hnb]; cbn [orb].
  - rewrite andb_true_r. destruct (Z.land t CBS_ASN1_CONSTRUCTED =? 0); cbn [negb].
    { split; [done|by intros []]. }
    split; [done|]. intros [Hm Hbf]. by st_inv.
  - rewrite andb_false_r. destruct (nb >? 4); [split; [done|by intros []]|].
    destruct (cbs_get_u nb s2) as [[n|] s3]; [|split; [done|by intros []]].
    destruct ((n <? 128) || _); simpl; rewrite ?andb_true_r, ?andb_false_r.
    + split; [done|]. destruct (_ <? n); intros [Hm Hbf]; [done|]. by st_inv.
    + destruct (_ <? n); [split; [done|by intros []]|]. by apply Hf.
Qed.

(** Both readers read back every element of DER; the strict one, only these. *)
Lemma any_asn1_element_complete ber_ok t c rest :
  valid_tag t -> Zlen c < 2 ^ 32 -> Zlen (der t c ++ rest) <= SIZE_MAX ->
  cbs_get_any_asn1_element ber_ok (der t c ++ rest) =
    (Some (Asn1Element (der t c) t (Zlen (der_header t (Zlen c))) false false), rest).
Proof.
  intros Hv Hc Hsz. pose proof (Zlen_nonneg c).
  destruct (der_minimal (Zlen c)) as (k & Hk & Hm & Hl); [lia|].
  assert (der t c = ber k t c /\ der_header t (Zlen c) = ber_header k t (Zlen c)) as [E1 E2]
    by (unfold der, der_header, ber, ber_header; by rewrite Hl).
  pose proof (ber_element_complete k t c rest Hv Hk) as Hb. rewrite Hm, <- E1, <- E2 in Hb.
  destruct ber_ok; [by apply Hb|]. by apply CBS_get_any_ber_asn1_element_der; split; [apply Hb|].
Qed.

Lemma any_asn1_element_sound s e rest :
  bytes_ok s -> Zlen s <= SIZE_MAX ->
  CBS_get_any_asn1_element s = (Some e, rest) ->
  exists t c, valid_tag t /\ Zlen c < 2 ^ 32 /\ s = der t c ++ rest /\
    e = Asn1Element (der t c) t (Zlen (der_header t (Zlen c))) false false.
Proof.
  intros Hok Hsz [Hg Hbf]%CBS_get_any_ber_asn1_element_der.
  apply ber_element_sound in Hg as [(k & t & c & Hv & Hk & -> & ->)|(t & _ & _ & _ & ->)]; [|done..].
  cbn [el_ber_found] in Hbf. apply negb_false_iff in Hbf.
  destruct (ber_minimal_der k (Zlen c) (Zlen_nonneg c) Hk Hbf) as [Hl Hc].
  exists t, c. unfold der, der_header, ber, ber_header in *. rewrite Hl, Hbf. done.
Qed.

(** C2. The DER element reader is exactly the inverse of the DER grammar: it
    succeeds with tag [t] precisely on the canonical encoding of an element,
    followed by what it leaves; non-minimal lengths and tags, indefinite
    lengths, truncated contents and the reserved tag [UNIVERSAL 0] are rejected. *)
Theorem CBS_get_any_asn1_element_iff s e rest :
  bytes_ok s -> Zlen s <= SIZE_MAX ->
  CBS_get_any_asn1_element s = (Some e, rest) <->
  exists t c, valid_tag t /\ Zlen c < 2 ^ 32 /\ s = der t c ++ rest /\
    e = Asn1Element (der t c) t (Zlen (der_header t (Zlen c))) false false.
Proof.
  intros Hok Hsz. split; [by apply any_asn1_element_sound|].
  intros (t & c & Hv & Hc & -> & ->). by apply any_asn1_element_complete.
Qed.

Lemma CBS_get_any_asn1_element_iff_witness :
  CBS_get_any_asn1_element [0x04; 2; 7; 8; 9] =
    (Some (Asn1Element [0x04; 2; 7; 8] 4 2 false false), [9]).
Proof.
  apply CBS_get_any_asn1_element_iff; [repeat constructor; lia|done|].
  exists 4, [7; 8]. split_and!; [split_and!; lia|done|reflexivity|reflexivity].
Defined.

Lemma CBS_get_asn1_app t c rest :
  valid_tag t -> Zlen c < 2 ^ 32 -> Zlen (der t c ++ rest) <= SIZE_MAX ->
  CBS_get_asn1 t (der t c ++ rest) = (Some c, rest).
Proof.
  intros Hv Hc Hs. unfold CBS_get_asn1, cbs_get_asn1.
  rewrite (st_bind_some _ _ _ _ _ (any_asn1_element_complete false t c rest Hv Hc Hs)). simpl.
  rewrite (st_bind_some _ _ _ tt rest) by (by rewrite Z.eqb_refl).
  unfold der. by rewrite CBS_skip_app_eq by done.
Qed.

Lemma CBS_get_asn1_element_app t c rest :
  valid_tag t -> Zlen c < 2 ^ 32 -> Zlen (der t c ++ rest) <= SIZE_MAX ->
  CBS_get_asn1_element t (der t c ++ rest) = (Some (der t c), rest).
Proof.
  intros Hv Hc Hs. unfold CBS_get_asn1_element, cbs_get_asn1.
  rewrite (st_bind_some _ _ _ _ _ (any_asn1_element_complete false t c rest Hv Hc Hs)). simpl.
  by rewrite (st_bind_some _ _ _ tt rest) by (by rewrite Z.eqb_refl).
Qed.

Lemma CBS_get_asn1_inv t s c rest :
  bytes_ok s -> Zlen s <= SIZE_MAX -> CBS_get_asn1 t s = (Some c, rest) ->
  valid_tag t /\ Zlen c < 2 ^ 32 /\ s = der t c ++ rest.
Proof.
  intros Hok Hsz Hg. unfold CBS_get_asn1, cbs_get_asn1 in Hg.
  apply st_bind_inv in Hg as (e & s1 & He & Hg).
  apply any_asn1_element_sound in He as (t' & c' & Hv & Hc & -> & ->); [|done..].
  apply st_bind_inv in Hg as (u & s2 & Ht & Hg). apply st_guard_inv in Ht as [Ht ->].
  simpl in *. apply Z.eqb_eq in Ht as ->.
  unfold der in Hg. rewrite CBS_skip_app_eq in Hg by done. by st_inv.
Qed.

Lemma CBS_peek_asn1_tag_der t t' c rest :
  valid_tag t' -> CBS_peek_asn1_tag t (der t' c ++ rest) = (t =? t').
Proof.
  intros Hv. unfold CBS_peek_asn1_tag, der, der_header.
  rewrite <- !app_assoc. by rewrite parse_asn1_tag_complete.
Qed.

(** [CBS_get_asn1] returns the contents of the next element exactly when
    that element is well-formed DER with the wanted tag; [CBS_get_asn1_element]
    returns the same element with its header. *)
Theorem CBS_get_asn1_iff t s c rest :
  bytes_ok s -> Zlen s <= SIZE_MAX ->
  (CBS_get_asn1 t s = (Some c, rest) <->
   valid_tag t /\ Zlen c < 2 ^ 32 /\ s = der t c ++ rest) /\
  (CBS_get_asn1 t s = (Some c, rest) -> CBS_get_asn1_element t s = (Some (der t c), rest)).
Proof.
  intros Hok Hsz. split; [split|].
  - by apply CBS_get_asn1_inv.
  - intros (Hv & Hc & ->). by apply CBS_get_asn1_app.
  - intros (Hv & Hc & ->)%CBS_get_asn1_inv; [|done..]. by apply CBS_get_asn1_element_app.
Qed.

Lemma CBS_get_asn1_iff_witness :
  CBS_get_asn1 (16 + 2 ^ 29) [0x30; 3; 2; 1; 5; 0xff] = (Some [2; 1; 5], [0xff]).
Proof.
  apply CBS_get_asn1_iff; [repeat constructor; lia|done|].
  split_and!; [split_and!; lia|done|reflexivity].
Defined.
