(* ===== verification/CbsAsn1.v ===== *)
(** The readers of [crypto/bytestring/cbs.c] for the values inside DER elements:
    INTEGERs, BOOLEANs, OPTIONAL fields, BIT STRINGs, OBJECT IDENTIFIERs with
    their printed form, and decimal numbers. *)
From S2P Require Import Prelude Mem Der Cbs.

(** * INTEGERs, BOOLEANs, OPTIONAL elements *)

(** [None] when the body is not a valid INTEGER, the sign otherwise. *)
Definition CBS_is_valid_asn1_integer (cbs : bytes) : option bool :=
  match CBS_get_u8 cbs with
  | (None, _) => None
  | (Some first_byte, copy) =>
    let is_negative := negb (Z.land first_byte 0x80 =? 0) in
    match CBS_get_u8 copy with
    | (None, _) => Some is_negative
    | (Some second_byte, _) =>
      if ((first_byte =? 0x00) && (Z.land second_byte 0x80 =? 0))
         || ((first_byte =? 0xff) && negb (Z.land second_byte 0x80 =? 0))
      then None else Some is_negative
    end
  end.

Definition CBS_is_unsigned_asn1_integer (cbs : bytes) : bool :=
  match CBS_is_valid_asn1_integer cbs with Some is_negative => negb is_negative | None => false end.

Fixpoint uint64_loop (out : Z) (data : bytes) : option Z :=
  match data with
  | [] => Some out
  | b :: data =>
      if negb (Z.shiftr out 56 =? 0) then None
      else uint64_loop (Z.lor (u64 (Z.shiftl out 8)) b) data
  end.

Definition CBS_get_asn1_uint64 : ST bytes Z :=
  data <-- CBS_get_asn1 CBS_ASN1_INTEGER ;;
  st_guard (CBS_is_unsigned_asn1_integer data) ;;;
  match uint64_loop 0 data with
  | None => st_fail
  | Some out => st_ret out
  end.

(** [CRYPTO_load_u64_be]: eight big-endian bytes as a [uint64_t]. *)
Definition CRYPTO_load_u64_be (p : bytes) : Z := be_val (take 8 p).

(** The conversion of a [uint64_t] to [int64_t]. *)
Definition to_int64 (x : Z) : Z := if x >? INT64_MAX then x - 2 ^ 64 else x.

Definition CBS_get_asn1_int64 : ST bytes Z :=
  data <-- CBS_get_asn1 CBS_ASN1_INTEGER ;;
  match CBS_is_valid_asn1_integer data with
  | None => st_fail
  | Some is_negative =>
      if Zlen data >? 8 then st_fail
      else
        let sign_extend := replicate 8 (if is_negative then 0xff else 0) in
        st_ret (to_int64 (CRYPTO_load_u64_be (take (8 - length data) sign_extend ++ data)))
  end.

Definition CBS_get_asn1_bool : ST bytes bool :=
  b <-- CBS_get_asn1 CBS_ASN1_BOOLEAN ;;
  match b with
  | [value] => if (value =? 0) || (value =? 0xff) then st_ret (negb (value =? 0)) else st_fail
  | _ => st_fail
  end.

(** [Some out] when the element is present. *)
Definition CBS_get_optional_asn1 (tag : Z) : ST bytes (option bytes) := fun cbs =>
  if CBS_peek_asn1_tag tag cbs then (out <-- CBS_get_asn1 tag ;; st_ret (Some out)) cbs
  else (Some None, cbs).

(** [run_all m child] runs [m] on [child] and requires that nothing is left. *)
Definition run_all {A} (m : ST bytes A) (child : bytes) : option A :=
  match m child with
  | (Some a, rest) => if Zlen rest =? 0 then Some a else None
  | (None, _) => None
  end.

Definition st_lift {S A} (o : option A) : ST S A :=
  match o with Some a => st_ret a | None => st_fail end.

Definition CBS_get_optional_asn1_octet_string (tag : Z) : ST bytes (bytes * bool) :=
  o <-- CBS_get_optional_asn1 tag ;;
  match o with
  | Some child => out <-- st_lift (run_all (CBS_get_asn1 CBS_ASN1_OCTETSTRING) child) ;; st_ret (out, true)
  | None => st_ret ([], false)
  end.

Definition CBS_get_optional_asn1_uint64 (tag default_value : Z) : ST bytes Z :=
  o <-- CBS_get_optional_asn1 tag ;;
  match o with
  | Some child => st_lift (run_all CBS_get_asn1_uint64 child)
  | None => st_ret default_value
  end.

Definition CBS_get_optional_asn1_bool (tag : Z) (default_value : bool) : ST bytes bool :=
  o <-- CBS_get_optional_asn1 tag ;;
  match o with
  | Some child =>
      child2 <-- st_lift (run_all (CBS_get_asn1 CBS_ASN1_BOOLEAN) child) ;;
      match child2 with
      | [boolean] =>
          if boolean =? 0 then st_ret false
          else if boolean =? 0xff then st_ret true else st_fail
      | _ => st_fail
      end
  | None => st_ret default_value
  end.

(** * BIT STRINGs and OBJECT IDENTIFIERs *)

Definition CBS_is_valid_asn1_bitstring (cbs : bytes) : bool :=
  match CBS_get_u8 cbs with
  | (None, _) => false
  | (Some num_unused_bits, in_) =>
    if num_unused_bits >? 7 then false
    else if num_unused_bits =? 0 then true
    else
      match CBS_get_last_u8 in_ with
      | (None, _) => false
      | (Some last, _) => Z.land last (Z.shiftl 1 num_unused_bits - 1) =? 0
      end
  end.

Definition CBS_asn1_bitstring_has_bit (cbs : bytes) (bit : Z) : bool :=
  if negb (CBS_is_valid_asn1_bitstring cbs) then false
  else
    let byte_num := u32 (Z.shiftr bit 3 + 1) in
    let bit_num := 7 - Z.land bit 7 in
    (byte_num <? Zlen cbs) &&
    negb (Z.land (nth (Z.to_nat byte_num) cbs 0) (Z.shiftl 1 bit_num) =? 0).

Fixpoint valid_oid_loop (prev : Z) (copy : bytes) : bool :=
  match copy with
  | [] => Z.land prev 0x80 =? 0
  | v :: copy =>
      if (Z.land prev 0x80 =? 0) && (v =? 0x80) then false else valid_oid_loop v copy
  end.

Definition CBS_is_valid_asn1_oid (cbs : bytes) : bool :=
  if Zlen cbs =? 0 then false else valid_oid_loop 0 cbs.

(** * Decimal numbers *)

Fixpoint u64_decimal_loop (v : Z) (seen_digit : bool) (cbs : bytes) : option (Z * bool) * bytes :=
  match cbs with
  | [] => (Some (v, seen_digit), cbs)
  | c :: rest =>
      if negb (OPENSSL_isdigit c) then (Some (v, seen_digit), cbs)
      else if ((v =? 0) && seen_digit) || (v >? UINT64_MAX / 10)
              || (u64 (v * 10) >? UINT64_MAX - (c - 48)) then (None, rest)
      else u64_decimal_loop (u64 (u64 (v * 10) + (c - 48))) true rest
  end.

Definition CBS_get_u64_decimal : ST bytes Z := fun cbs =>
  match u64_decimal_loop 0 false cbs with
  | (None, rest) => (None, rest)
  | (Some (v, seen_digit), rest) => if seen_digit then (Some v, rest) else (None, rest)
  end.

(** * Lemmas: INTEGERs *)

Definition min_body (l : bytes) : Prop :=
  match l with
  | [] => False
  | [_] => True
  | b1 :: b2 :: _ => ~ (b1 = 0 /\ b2 < 128 \/ b1 = 255 /\ 128 <= b2)
  end.

Lemma signed_val_neg l : bytes_ok l -> l <> [] -> signed_val l < 0 <-> 128 <= default 0 (head l).
Proof.
  intros Hok Hne. destruct l as [|b l]; [done|]. simp_bytes. simpl.
  pose proof (be_val_bound l ltac:(done)). rewrite be_val_cons, Zlen_cons.
  pose proof (Zlen_nonneg l). rewrite Z.pow_add_r by lia. change (256 ^ 1) with 256.
  set (M := 256 ^ Zlen l) in *. unfold is_byte in *.
  destruct (Z.ltb_spec b 128); split; intros; nia.
Qed.

Lemma valid_integer_iff l neg :
  bytes_ok l ->
  CBS_is_valid_asn1_integer l = Some neg <-> min_body l /\ neg = (signed_val l <? 0).
Proof.
  intros Hok. destruct l as [|b l]; [split; [done|by intros [[] _]]|].
  assert (negb (Z.land b 0x80 =? 0) = (signed_val (b :: l) <? 0)) as Hneg.
  { pose proof (signed_val_neg (b :: l) Hok ltac:(done)) as Hs. simpl in Hs. simp_bytes.
    destruct (length_byte_inv b) as [[-> ?]|(-> & ? & _)]; [done| |];
      simpl; destruct (Z.ltb_spec (signed_val (b :: l)) 0); lia. }
  simp_bytes. unfold CBS_is_valid_asn1_integer. rewrite CBS_get_u8_cons, Hneg.
  destruct l as [|b2 l]; [simpl; split; [by intros [= <-]|by intros [_ ->]]|]. simp_bytes.
  rewrite CBS_get_u8_cons. simpl min_body.
  destruct (length_byte_inv b2) as [[-> ?]|(-> & ? & _)]; [done| |];
    destruct (Z.eqb_spec b 0), (Z.eqb_spec b 255); simpl;
    split; try (intros [= <-]; split; [lia|done]); try (intros [? ->]; done || lia); done.
Qed.

Lemma signed_val_tail_fits b1 b2 l :
  bytes_ok (b1 :: b2 :: l) ->
  int_fits (length (b2 :: l)) (signed_val (b1 :: b2 :: l)) = true <->
  (b1 = 0 /\ b2 < 128 \/ b1 = 255 /\ 128 <= b2).
Proof.
  intros Hok. simp_bytes. rewrite int_fits_iff. fold (Zlen (b2 :: l)).
  unfold signed_val. rewrite !be_val_cons, !Zlen_cons.
  pose proof (be_val_bound l ltac:(done)). pose proof (Zlen_nonneg l).
  pose proof (pow256_half (1 + Zlen l) ltac:(lia)) as E.
  rewrite (Z.pow_add_r 256 1) in * by lia. rewrite (Z.pow_add_r 256 1) by lia.
  change (256 ^ 1) with 256 in *. rewrite (Z.pow_add_r 256 1) by lia. change (256 ^ 1) with 256.
  set (M := 256 ^ Zlen l) in *. set (half := 2 ^ _) in *. set (x := be_val l) in *.
  unfold is_byte in *. destruct (Z.ltb_spec b1 128); split; intros; nia.
Qed.

Lemma min_body_der_int l :
  bytes_ok l -> min_body l -> (length l <= 17)%nat -> der_int (signed_val l) = l.
Proof.
  intros Hok Hmin Hlen. unfold der_int. rewrite (int_octets_unique (length l)).
  - by apply be_bytes_signed_val.
  - destruct l; [done|simpl in *; lia].
  - apply signed_val_fits; [done|by destruct l].
  - destruct l as [|b1 [|b2 l]]; [done|by left|right].
    apply not_true_iff_false. simpl length. rewrite Nat.sub_1_r. simpl pred.
    change (S (length l)) with (length (b2 :: l)). by rewrite signed_val_tail_fits.
Qed.

Lemma der_int_spec k z :
  (1 <= k <= 17)%nat -> int_fits k z = true ->
  signed_val (der_int z) = z /\ min_body (der_int z) /\ (1 <= length (der_int z) <= k)%nat.
Proof.
  intros Hk Hfit. destruct (int_octets_spec k z Hk Hfit) as (Hn & Hf & Hmin).
  assert (signed_val (der_int z) = z) as Hv by (apply signed_val_be_bytes; [lia|done]).
  assert (length (der_int z) = int_octets z) as Hl by apply length_be_bytes.
  split_and!; [done| |lia..]. pose proof (be_bytes_ok (int_octets z) z) as Hok.
  fold (der_int z) in Hok. destruct (der_int z) as [|b1 [|b2 l]] eqn:E; [simpl in Hl; lia|done|].
  destruct Hmin as [Hmin|Hmin]; [simpl in Hl; lia|].
  simpl. rewrite <- (signed_val_tail_fits b1 b2 l Hok), Hv. apply not_true_iff_false.
  simpl in Hl |- *. by replace (S (length l)) with (int_octets z - 1)%nat by lia.
Qed.

Lemma sign_extend_val l :
  bytes_ok l -> l <> [] -> (length l <= 8)%nat ->
  to_int64 (CRYPTO_load_u64_be
    (take (8 - length l) (replicate 8 (if signed_val l <? 0 then 0xff else 0)) ++ l)) =
  signed_val l.
Proof.
  intros Hok Hne Hlen. unfold CRYPTO_load_u64_be.
  rewrite take_replicate, Nat.min_l by lia.
  rewrite take_ge by (rewrite length_app, length_replicate; lia). rewrite be_val_app.
  pose proof (signed_val_fits l Hok Hne) as Hf%(int_fits_mono _ 8); [|destruct l; simpl in *; [done|lia]].
  apply int_fits_iff in Hf. change (8 * Z.of_nat 8 - 1) with 63 in Hf.
  pose proof (be_val_bound l Hok) as Hb.
  assert (256 ^ Zlen l * 256 ^ Z.of_nat (8 - length l) = 2 ^ 64) as E.
  { rewrite <- Z.pow_add_r by (unfold Zlen; lia). change (2 ^ 64) with (256 ^ 8). f_equal.
    unfold Zlen. lia. }
  assert (256 ^ Zlen l <= 2 ^ 64).
  { change (2 ^ 64) with (256 ^ 8). apply Z.pow_le_mono_r; unfold Zlen; lia. }
  destruct l as [|b l]; [done|]. unfold to_int64, INT64_MAX, signed_val in *. revert Hf.
  destruct (Z.ltb_spec b 128) as [Hp|Hp]; intros Hf.
  - destruct (Z.ltb_spec (be_val (b :: l)) 0); [lia|].
    rewrite be_val_replicate_0. destruct (_ >? _) eqn:E'; lia.
  - destruct (Z.ltb_spec (be_val (b :: l) - 256 ^ Zlen (b :: l)) 0) as [_|]; [|lia].
    rewrite be_val_replicate_ff, Z.mul_sub_distr_r, (Z.mul_comm (256 ^ Z.of_nat _)), E.
    destruct (_ >? _) eqn:E'; lia.
Qed.

Lemma int64_fits z : INT64_MIN <= z <= INT64_MAX <-> int_fits 8 z = true.
Proof.
  rewrite int_fits_iff. unfold INT64_MIN, INT64_MAX. change (8 * Z.of_nat 8 - 1) with 63. lia.
Qed.

Lemma get_asn1_integer_inv s c rest :
  bytes_ok s -> Zlen s <= SIZE_MAX -> CBS_get_asn1 CBS_ASN1_INTEGER s = (Some c, rest) ->
  s = der CBS_ASN1_INTEGER c ++ rest /\ bytes_ok c.
Proof.
  intros Hok Hsz (_ & _ & ->)%CBS_get_asn1_inv; [|done..]. split; [done|].
  unfold der in Hok. by simp_bytes.
Qed.

Lemma get_asn1_integer_app c rest :
  (length c <= 17)%nat -> Zlen (der CBS_ASN1_INTEGER c ++ rest) <= SIZE_MAX ->
  CBS_get_asn1 CBS_ASN1_INTEGER (der CBS_ASN1_INTEGER c ++ rest) = (Some c, rest).
Proof.
  intros. apply CBS_get_asn1_app; [|unfold Zlen; lia|done].
  unfold CBS_ASN1_INTEGER. split_and!; lia.
Qed.

(** [CBS_get_asn1_int64] accepts exactly the DER INTEGERs of the values that
    fit in an [int64_t], and returns that value: padding, truncation and
    values of more than eight octets are rejected. *)
Theorem CBS_get_asn1_int64_iff s z rest :
  bytes_ok s -> Zlen s <= SIZE_MAX ->
  CBS_get_asn1_int64 s = (Some z, rest) <->
  INT64_MIN <= z <= INT64_MAX /\ s = der CBS_ASN1_INTEGER (der_int z) ++ rest.
Proof.
  intros Hok Hsz. split.
  - intros Hg. unfold CBS_get_asn1_int64 in Hg. apply st_bind_inv in Hg as (c & s1 & Hc & Hg).
    apply get_asn1_integer_inv in Hc as [-> Hcok]; [|done..].
    destruct (CBS_is_valid_asn1_integer c) as [neg|] eqn:Hv; [|done].
    apply valid_integer_iff in Hv as [Hmin ->]; [|done].
    assert (c <> []) by (by destruct c).
    destruct (Zlen c >? 8) eqn:Hl; [done|].
    assert (length c <= 8)%nat by (unfold Zlen in *; lia).
    rewrite sign_extend_val in Hg by done. st_inv.
    rewrite min_body_der_int by (done || lia). split; [|done].
    apply int64_fits. apply (int_fits_mono (length c)); [destruct c; simpl in *; [done|lia]|].
    by apply signed_val_fits.
  - intros [Hz ->]. apply int64_fits in Hz.
    destruct (der_int_spec 8 z ltac:(lia) Hz) as (Hv & Hmin & Hl).
    unfold CBS_get_asn1_int64. rewrite (st_bind_some _ _ _ _ _
      (get_asn1_integer_app (der_int z) rest ltac:(lia) Hsz)).
    assert (bytes_ok (der_int z)) by auto with bytes.
    replace (CBS_is_valid_asn1_integer (der_int z)) with (Some (signed_val (der_int z) <? 0))
      by (symmetry; by apply valid_integer_iff).
    destruct (Zlen (der_int z) >? 8) eqn:E; [unfold Zlen in *; lia|].
    rewrite sign_extend_val by (done || lia || (destruct (der_int z); simpl in *; lia || done)).
    by rewrite Hv.
Qed.

Lemma CBS_get_asn1_int64_iff_witness :
  CBS_get_asn1_int64 [2; 2; 0xff; 0x7f; 9] = (Some (-129), [9]).
Proof.
  apply CBS_get_asn1_int64_iff; [repeat constructor; lia|done|].
  split; [unfold INT64_MIN, INT64_MAX; lia|reflexivity].
Defined.

Lemma be_val_from_ge acc l : bytes_ok l -> 0 <= acc -> acc <= be_val_from acc l.
Proof.
  intros Hok Ha. rewrite be_val_from_eq. pose proof (be_val_bound l Hok).
  assert (0 < 256 ^ Zlen l) by (apply Z.pow_pos_nonneg; [lia|apply Zlen_nonneg]). nia.
Qed.

Lemma uint64_loop_eq out l :
  bytes_ok l -> 0 <= out < 2 ^ 64 ->
  uint64_loop out l = if be_val_from out l <? 2 ^ 64 then Some (be_val_from out l) else None.
Proof.
  revert out. induction l as [|b l IH]; intros out Hok Hout.
  - simpl. unfold be_val_from. simpl. by destruct (Z.ltb_spec out (2 ^ 64)); [|lia].
  - simp_bytes. cbn [uint64_loop]. change (be_val_from out (b :: l)) with (be_val_from (out * 256 + b) l).
    rewrite Z.shiftr_div_pow2 by lia. unfold is_byte in *.
    destruct (decide (out < 2 ^ 56)).
    + rewrite Z.div_small by lia. simpl negb. cbv iota.
      rewrite shl8_lor by (unfold is_byte; lia). apply IH; [done|lia].
    + assert (1 <= out / 2 ^ 56) by (apply Z.div_le_lower_bound; lia).
      destruct (Z.eqb_spec (out / 2 ^ 56) 0); [lia|]. simpl negb. cbv iota.
      pose proof (be_val_from_ge (out * 256 + b) l ltac:(done) ltac:(lia)).
      destruct (Z.ltb_spec (be_val_from (out * 256 + b) l) (2 ^ 64)); [lia|done].
Qed.

Lemma unsigned_integer_iff l :
  bytes_ok l -> CBS_is_unsigned_asn1_integer l = true <-> min_body l /\ 0 <= signed_val l.
Proof.
  intros Hok. unfold CBS_is_unsigned_asn1_integer.
  destruct (CBS_is_valid_asn1_integer l) as [neg|] eqn:E.
  - apply valid_integer_iff in E as [? ->]; [|done].
    destruct (Z.ltb_spec (signed_val l) 0); simpl; split; try done; lia.
  - split; [done|]. intros [Hm _].
    assert (CBS_is_valid_asn1_integer l = Some (signed_val l <? 0)) by (by apply valid_integer_iff).
    congruence.
Qed.

Lemma signed_val_nonneg l : bytes_ok l -> 0 <= signed_val l -> be_val l = signed_val l.
Proof.
  intros Hok Hp. destruct l as [|b l]; [done|]. pose proof (be_val_bound _ Hok).
  unfold signed_val in *. destruct (b <? 128); lia.
Qed.

Lemma min_body_length k l :
  bytes_ok l -> min_body l -> (1 <= k)%nat -> int_fits k (signed_val l) = true -> (length l <= k)%nat.
Proof.
  intros Hok Hmin Hk Hfit. destruct l as [|b1 [|b2 l]]; [simpl; lia..|].
  destruct (decide (length (b1 :: b2 :: l) <= k)%nat) as [|Hgt]; [done|].
  exfalso. apply Hmin, (signed_val_tail_fits b1 b2 l Hok).
  apply (int_fits_mono k); [|done]. simpl in *. lia.
Qed.

Lemma uint64_fits v : 0 <= v < 2 ^ 64 -> int_fits 9 v = true.
Proof. intros. apply int_fits_iff. change (8 * Z.of_nat 9 - 1) with 71. lia. Qed.

Lemma asn1_uint64_sound s v rest :
  bytes_ok s -> Zlen s <= SIZE_MAX -> CBS_get_asn1_uint64 s = (Some v, rest) ->
  0 <= v < 2 ^ 64 /\ s = der CBS_ASN1_INTEGER (der_int v) ++ rest.
Proof.
  intros Hok Hsz Hg. unfold CBS_get_asn1_uint64 in Hg.
  apply st_bind_inv in Hg as (c & s1 & Hc & Hg).
  apply get_asn1_integer_inv in Hc as [-> Hcok]; [|done..].
  apply st_bind_inv in Hg as (u & s2 & Hv & Hg). apply st_guard_inv in Hv as [Hv ->].
  apply unsigned_integer_iff in Hv as [Hmin Hpos]; [|done].
  rewrite uint64_loop_eq in Hg by (done || lia). fold (be_val c) in Hg.
  rewrite signed_val_nonneg in Hg by done.
  destruct (Z.ltb_spec (signed_val c) (2 ^ 64)); [|done]. st_inv. split; [done|].
  assert (length c <= 9)%nat.
  { apply min_body_length; [done|done|lia|]. by apply uint64_fits. }
  by rewrite min_body_der_int by (done || lia).
Qed.

Lemma asn1_uint64_complete v rest :
  0 <= v < 2 ^ 64 -> Zlen (der CBS_ASN1_INTEGER (der_int v) ++ rest) <= SIZE_MAX ->
  CBS_get_asn1_uint64 (der CBS_ASN1_INTEGER (der_int v) ++ rest) = (Some v, rest).
Proof.
  intros Hv Hsz. destruct (der_int_spec 9 v ltac:(lia) (uint64_fits v Hv)) as (Hs & Hmin & Hl).
  unfold CBS_get_asn1_uint64. rewrite (st_bind_some _ _ _ _ _
    (get_asn1_integer_app (der_int v) rest ltac:(lia) Hsz)).
  assert (bytes_ok (der_int v)) by auto with bytes.
  rewrite (st_bind_some _ _ _ tt rest).
  2: { replace (CBS_is_unsigned_asn1_integer _) with true; [done|].
       symmetry. apply unsigned_integer_iff; [done|]. split; [done|lia]. }
  rewrite uint64_loop_eq by (done || lia). fold (be_val (der_int v)).
  rewrite signed_val_nonneg, Hs by (done || lia).
  by destruct (Z.ltb_spec v (2 ^ 64)); [|lia].
Qed.

(** [CBS_get_asn1_uint64] accepts exactly the DER INTEGERs of the values
    that fit in a [uint64_t]: negative, padded and larger ones are rejected. *)
Theorem CBS_get_asn1_uint64_iff s v rest :
  bytes_ok s -> Zlen s <= SIZE_MAX ->
  CBS_get_asn1_uint64 s = (Some v, rest) <->
  0 <= v < 2 ^ 64 /\ s = der CBS_ASN1_INTEGER (der_int v) ++ rest.
Proof.
  intros Hok Hsz. split; [by apply asn1_uint64_sound|].
  intros [Hv ->]. by apply asn1_uint64_complete.
Qed.

Lemma CBS_get_asn1_uint64_iff_witness :
  CBS_get_asn1_uint64 [2; 9; 0; 0xff; 0; 0; 0; 0; 0; 0; 1] = (Some 18374686479671623681, []).
Proof.
  apply CBS_get_asn1_uint64_iff; [repeat constructor; lia|done|]. split; [lia|reflexivity].
Defined.

(** * Lemmas: OPTIONAL fields *)

Lemma run_all_some {A} (m : ST bytes A) child a : run_all m child = Some a <-> m child = (Some a, []).
Proof.
  unfold run_all. destruct (m child) as [[x|] rest]; [|done].
  destruct (Z.eqb_spec (Zlen rest) 0) as [E|E].
  - apply Zlen_0_inv in E as ->. split; congruence.
  - split; [done|]. intros [= -> ->]. done.
Qed.

Lemma get_optional_present t c rest :
  valid_tag t -> Zlen c < 2 ^ 32 -> Zlen (der t c ++ rest) <= SIZE_MAX ->
  CBS_get_optional_asn1 t (der t c ++ rest) = (Some (Some c), rest).
Proof.
  intros Hv Hc Hs. unfold CBS_get_optional_asn1.
  rewrite CBS_peek_asn1_tag_der, Z.eqb_refl by done.
  by rewrite (st_bind_some _ _ _ _ _ (CBS_get_asn1_app t c rest Hv Hc Hs)).
Qed.

Lemma get_optional_absent t s :
  CBS_peek_asn1_tag t s = false -> CBS_get_optional_asn1 t s = (Some None, s).
Proof. unfold CBS_get_optional_asn1. by intros ->. Qed.

Lemma get_optional_inv t s o rest :
  bytes_ok s -> Zlen s <= SIZE_MAX -> CBS_get_optional_asn1 t s = (Some o, rest) ->
  (exists c, o = Some c /\ valid_tag t /\ Zlen c < 2 ^ 32 /\ s = der t c ++ rest) \/
  (CBS_peek_asn1_tag t s = false /\ o = None /\ rest = s).
Proof.
  intros Hok Hsz Hg. unfold CBS_get_optional_asn1 in Hg.
  destruct (CBS_peek_asn1_tag t s) eqn:Hp; [left|right; by simplify_eq].
  apply st_bind_inv in Hg as (c & s2 & Hc & Ho). unfold st_ret in Ho. simplify_eq.
  apply CBS_get_asn1_inv in Hc as (Hv & Hcl & ->); eauto.
Qed.

Lemma Zlen_der_uint64 v : 0 <= v < 2 ^ 64 -> Zlen (der CBS_ASN1_INTEGER (der_int v)) < 2 ^ 32.
Proof.
  intros Hv. destruct (der_int_spec 9 v ltac:(lia) (uint64_fits v Hv)) as (_ & _ & Hl).
  rewrite Zlen_der. unfold der_header, der_len.
  destruct (Z.ltb_spec (Zlen (der_int v)) 128); [|unfold Zlen in *; lia].
  rewrite Zlen_app. change (Zlen [_]) with 1. pose proof (Zlen_der_tag CBS_ASN1_INTEGER).
  unfold Zlen in *. lia.
Qed.

(** An OPTIONAL, explicitly tagged uint64 with a DEFAULT: the reader takes
    the element exactly when the next tag is the wanted one, in which case it
    must be the canonical encoding of the value and nothing more; otherwise it
    returns the default and consumes nothing. *)
Theorem CBS_get_optional_asn1_uint64_iff t default_value s v rest :
  bytes_ok s -> Zlen s <= SIZE_MAX ->
  CBS_get_optional_asn1_uint64 t default_value s = (Some v, rest) <->
  (valid_tag t /\ 0 <= v < 2 ^ 64 /\
   s = der t (der CBS_ASN1_INTEGER (der_int v)) ++ rest) \/
  (CBS_peek_asn1_tag t s = false /\ v = default_value /\ rest = s).
Proof.
  intros Hok Hsz. unfold CBS_get_optional_asn1_uint64. split.
  - intros Hg. apply st_bind_inv in Hg as (o & s1 & Ho & Hg).
    apply get_optional_inv in Ho as [(c & -> & Hv & Hcl & ->)|(Hp & -> & ->)]; [left|right|done..].
    + destruct (run_all CBS_get_asn1_uint64 c) eqn:Hr; [|done].
      apply run_all_some in Hr. unfold der in Hok at 1. simp_bytes.
      apply asn1_uint64_sound in Hr as [Hv64 ->]; [|done|unfold SIZE_MAX; lia].
      simpl in Hg. st_inv. by rewrite app_nil_r.
    + by st_inv.
  - intros [(Hv & Hv64 & ->)|(Hp & -> & ->)].
    + set (c := der CBS_ASN1_INTEGER (der_int v)) in *.
      assert (Zlen c < 2 ^ 32) as Hc by (by apply Zlen_der_uint64).
      rewrite (st_bind_some _ _ _ _ _ (get_optional_present t c rest Hv Hc Hsz)).
      replace (run_all CBS_get_asn1_uint64 c) with (Some v); [done|].
      symmetry. apply run_all_some. unfold c. rewrite <- (app_nil_r (der _ _)).
      apply asn1_uint64_complete; [done|]. rewrite app_nil_r. fold c. unfold SIZE_MAX. lia.
    + by rewrite (st_bind_some _ _ _ _ _ (get_optional_absent t s Hp)).
Qed.

Lemma CBS_get_optional_asn1_uint64_iff_witness :
  CBS_get_optional_asn1_uint64 (2 ^ 31 + 2 ^ 29) 7 [0xa0; 3; 2; 1; 5; 0xff] = (Some 5, [0xff]).
Proof.
  apply CBS_get_optional_asn1_uint64_iff; [repeat constructor; lia|done|left].
  split_and!; [split_and!; lia|lia|lia|reflexivity].
Defined.

(** * Lemmas: decimal numbers *)

(** The digits [hs] read so far start a canonical numeral. *)
Definition canon_digits (hs : bytes) : Prop :=
  Forall is_digit hs /\ (head hs = Some 48 -> hs = [48]).

Lemma canon_value hs :
  canon_digits hs -> hs <> [] ->
  dec (dec_val_from 0 hs) = hs /\ (dec_val_from 0 hs = 0 <-> hs = [48]) /\ 0 <= dec_val_from 0 hs.
Proof.
  intros [Hd Hh] Hne. destruct (dec_of_digits hs Hd Hne Hh) as (He & Hp & H0).
  split_and!; [done| |done]. split; [|by intros ->].
  intros Hz. destruct (decide (hs = [48])) as [|Hn]; [done|]. specialize (Hp Hn). lia.
Qed.

Lemma dec_val_snoc hs c : dec_val_from 0 (hs ++ [c]) = dec_val_from 0 hs * 10 + (c - 48).
Proof. unfold dec_val_from. by rewrite fold_left_app. Qed.

Lemma dec_val_nonneg hs : Forall is_digit hs -> 0 <= dec_val_from 0 hs.
Proof.
  induction hs as [|c hs IH] using rev_ind; [done|].
  rewrite Forall_app, Forall_singleton. intros [Hh Hc]. rewrite dec_val_snoc.
  unfold is_digit in Hc. specialize (IH Hh). lia.
Qed.

Lemma u64_decimal_step hs c s :
  canon_digits hs -> is_digit c -> dec_val_from 0 hs < 2 ^ 64 ->
  u64_decimal_loop (dec_val_from 0 hs) (negb (bool_decide (hs = []))) (c :: s) =
    if bool_decide (hs = [48]) || (dec_val_from 0 (hs ++ [c]) >=? 2 ^ 64) then (None, s)
    else u64_decimal_loop (dec_val_from 0 (hs ++ [c])) true s.
Proof.
  intros Hcan Hc Hlt. cbn [u64_decimal_loop].
  replace (OPENSSL_isdigit c) with true by (symmetry; by apply OPENSSL_isdigit_spec).
  cbn [negb]. rewrite dec_val_snoc. pose proof (dec_val_nonneg hs (proj1 Hcan)) as H0.
  set (v := dec_val_from 0 hs) in *. unfold is_digit in Hc.
  assert ((v =? 0) && negb (bool_decide (hs = [])) = bool_decide (hs = [48])) as ->.
  { destruct (decide (hs = [])) as [->|Hne]; [done|]. rewrite (bool_decide_eq_false_2 (hs = [])) by done.
    destruct (canon_value hs Hcan Hne) as (_ & Hz & _). fold v in Hz.
    rewrite andb_true_r. case_bool_decide; destruct (Z.eqb_spec v 0); tauto. }
  destruct (bool_decide (hs = [48])); [done|]. cbn [orb].
  change (UINT64_MAX / 10) with 1844674407370955161. change UINT64_MAX with 18446744073709551615.
  change (2 ^ 64) with 18446744073709551616 in *.
  destruct (v >? 1844674407370955161) eqn:E1; cbn [orb].
  { destruct (_ >=? _) eqn:E2; [done|lia]. }
  unfold u64. change (2 ^ 64) with 18446744073709551616. rewrite (Z.mod_small (v * 10)) by lia.
  destruct (v * 10 >? 18446744073709551615 - (c - 48)) eqn:E2, (_ >=? _) eqn:E3; try lia; [done|].
  by rewrite Z.mod_small by lia.
Qed.

Definition no_digit (s : bytes) : Prop := match s with [] => True | c :: _ => ~ is_digit c end.

Lemma canon_snoc hs c : canon_digits hs -> is_digit c -> hs <> [48] -> canon_digits (hs ++ [c]).
Proof.
  intros [Hd Hh] Hc Hne. split; [by apply Forall_app_2; [|constructor]|].
  destruct hs; [by intros [= ->]|]. simpl. intros E. by rewrite Hh in Hne.
Qed.

Lemma u64_decimal_stop v b s : no_digit s -> u64_decimal_loop v b s = (Some (v, b), s).
Proof.
  destruct s as [|c s]; [done|]. simpl. intros Hc.
  destruct (OPENSSL_isdigit c) eqn:E; [by apply OPENSSL_isdigit_spec in E|done].
Qed.

Lemma negb_nil_snoc {A} (hs : list A) c `{!Decision (hs ++ [c] = [])} :
  negb (bool_decide (hs ++ [c] = [])) = true.
Proof. rewrite bool_decide_eq_false_2; [done|]. by destruct hs. Qed.

Lemma u64_decimal_sound hs s v b rest :
  canon_digits hs -> dec_val_from 0 hs < 2 ^ 64 ->
  u64_decimal_loop (dec_val_from 0 hs) (negb (bool_decide (hs = []))) s = (Some (v, b), rest) ->
  exists l, s = l ++ rest /\ canon_digits (hs ++ l) /\ no_digit rest /\
    v = dec_val_from 0 (hs ++ l) /\ v < 2 ^ 64 /\ b = negb (bool_decide (hs ++ l = [])).
Proof.
  revert hs. induction s as [|c s IH]; intros hs Hcan Hlt Hl.
  { simpl in Hl. simplify_eq. exists []. by rewrite !app_nil_r. }
  destruct (decide (is_digit c)) as [Hc|Hc].
  - rewrite u64_decimal_step in Hl by done. case_bool_decide as Hn; [done|]. cbn [orb] in Hl.
    destruct (_ >=? _) eqn:E; [done|].
    rewrite <- (negb_nil_snoc hs c) in Hl.
    apply IH in Hl as (l & -> & ?); [|by apply canon_snoc|lia].
    exists (c :: l). by rewrite <- app_assoc in *.
  - rewrite u64_decimal_stop in Hl by done. simplify_eq. exists []. by rewrite !app_nil_r.
Qed.

Lemma dec_val_mono hs l : Forall is_digit hs -> Forall is_digit l ->
  dec_val_from 0 hs <= dec_val_from 0 (hs ++ l).
Proof.
  intros Hh. induction l as [|c l IH] using rev_ind; [rewrite app_nil_r; lia|].
  rewrite Forall_app, Forall_singleton. intros [Hl Hc]. rewrite app_assoc, dec_val_snoc.
  specialize (IH Hl). unfold is_digit in Hc.
  pose proof (dec_val_nonneg (hs ++ l) ltac:(by apply Forall_app_2)). lia.
Qed.

Lemma u64_decimal_complete hs l rest :
  canon_digits (hs ++ l) -> dec_val_from 0 (hs ++ l) < 2 ^ 64 -> no_digit rest ->
  u64_decimal_loop (dec_val_from 0 hs) (negb (bool_decide (hs = []))) (l ++ rest) =
    (Some (dec_val_from 0 (hs ++ l), negb (bool_decide (hs ++ l = []))), rest).
Proof.
  revert hs. induction l as [|c l IH]; intros hs Hcan Hlt Hr.
  { rewrite !app_nil_r in *. by apply u64_decimal_stop. }
  pose proof Hcan as [Hd Hh]. apply Forall_app in Hd as [Hdh Hdl].
  apply Forall_cons in Hdl as [Hc Hdl].
  assert (canon_digits hs /\ hs <> [48]) as [Hch Hn].
  { destruct hs as [|d hs]; [done|]. assert (d <> 48) as Hd48.
    { intros ->. specialize (Hh eq_refl). destruct hs; discriminate. }
    split; [|congruence]. split; [done|]. intros [= ->]. done. }
  pose proof (dec_val_mono hs (c :: l) Hdh ltac:(by constructor)).
  pose proof (dec_val_mono (hs ++ [c]) l ltac:(by apply Forall_app_2; [|constructor]) Hdl) as Hm.
  change (c :: l) with ([c] ++ l) in *. rewrite app_assoc in *.
  cbn [app]. rewrite u64_decimal_step by (done || lia).
  rewrite bool_decide_eq_false_2 by done. cbn [orb]. destruct (_ >=? _) eqn:E; [lia|].
  rewrite <- (negb_nil_snoc hs c) at 1. by apply IH.
Qed.

Lemma dec_head v : 0 < v -> exists c l, dec v = c :: l /\ c <> 48.
Proof.
  intros Hp. assert (0 <= v) as Hv by lia. revert v Hv Hp. refine (dec_ind _ _ _).
  - intros v Hv Hp. rewrite dec_small by lia. eexists _, _. split; [done|lia].
  - intros v Hv IH _. rewrite dec_step by done.
    destruct IH as (c & l & -> & Hc); [apply Z.div_str_pos; lia|]. by eexists _, _.
Qed.

Lemma canon_dec v : 0 <= v -> canon_digits (dec v) /\ dec v <> [].
Proof.
  intros Hv. pose proof (dec_digits v Hv) as Hd.
  destruct (decide (v = 0)) as [->|]; [by split|].
  destruct (dec_head v ltac:(lia)) as (c & l & E & Hc). rewrite E in *.
  split; [split; [done|by intros [= ->]]|done].
Qed.

Lemma get_u64_decimal_iff s v rest :
  CBS_get_u64_decimal s = (Some v, rest) <->
  0 <= v < 2 ^ 64 /\ s = dec v ++ rest /\ no_digit rest.
Proof.
  unfold CBS_get_u64_decimal. change 0 with (dec_val_from 0 []) at 1.
  change false with (negb (bool_decide (@nil Z = []))) at 1. split.
  - destruct (u64_decimal_loop _ _ _) as [[[w b]|] r] eqn:Hl; [|done].
    destruct b eqn:Hb; [|done]. intros [= -> ->].
    apply u64_decimal_sound in Hl as (l & -> & Hcan & Hr & -> & Hlt & Hb'); [|done..].
    simpl in *. case_bool_decide; [done|].
    destruct (canon_value l Hcan ltac:(done)) as (-> & _ & H0). auto.
  - intros (Hv & -> & Hr). destruct (canon_dec v ltac:(lia)) as [Hcan Hne].
    pose proof (u64_decimal_complete [] (dec v) rest Hcan) as Hl. simpl app in Hl.
    rewrite dec_val_dec in Hl by lia. rewrite Hl by (done || lia).
    by rewrite bool_decide_eq_false_2.
Qed.

(** [CBS_get_u64_decimal] reads exactly the canonical decimal numerals of
    64-bit values, up to the first byte that is not a digit: leading zeros,
    empty input and values of [2^64] or more are rejected. *)
Theorem CBS_get_u64_decimal_iff s v rest :
  CBS_get_u64_decimal s = (Some v, rest) <->
  0 <= v < 2 ^ 64 /\ s = dec v ++ rest /\ no_digit rest.
Proof. apply get_u64_decimal_iff. Qed.

Lemma CBS_get_u64_decimal_example :
  CBS_get_u64_decimal [49; 56; 52; 46] = (Some 184, [46]) /\
  CBS_get_u64_decimal [48; 49] = (None, []).
Proof. split; reflexivity. Qed.

(** * Lemmas: OBJECT IDENTIFIERs *)

Lemma b128_prefix_head v : 0 <= v -> head (b128_prefix v) <> Some 128.
Proof.
  intros Hv. destruct (decide (v = 0)) as [->|]; [done|].
  enough (0 < v -> exists b l, b128_prefix v = b :: l /\ b <> 128) as Hx.
  { destruct (Hx ltac:(lia)) as (b & l & -> & Hb). by intros [= ->]. }
  clear n. revert v Hv. refine (b128_ind _ _ _); [lia|]. intros v Hv IH _.
  rewrite b128_prefix_step by done. destruct (decide (v < 128)).
  - rewrite Z.div_small, Z.mod_small by lia. eexists _, _. split; [done|lia].
  - destruct IH as (b & l & -> & Hb); [apply Z.div_str_pos; lia|]. by eexists _, _.
Qed.

Lemma valid_oid_run prev hs b t :
  is_byte prev -> Forall (fun b => 128 <= b < 256) hs -> 0 <= b < 128 ->
  (prev < 128 -> head hs <> Some 128) ->
  valid_oid_loop prev (hs ++ b :: t) = valid_oid_loop b t.
Proof.
  intros Hp Hhs Hb Hhd. revert prev Hp Hhd. induction Hhs as [|h hs Hh Hhs IH]; intros prev Hp Hhd.
  - simpl. destruct (Z.eqb_spec b 0x80); [lia|]. by rewrite andb_false_r.
  - simpl. destruct (high_bit_byte prev Hp) as [-> _].
    replace ((prev <? 128) && (h =? 128)) with false.
    + apply IH; unfold is_byte; lia.
    + destruct (Z.ltb_spec prev 128); [|done]. destruct (Z.eqb_spec h 128) as [->|]; [|done].
      by destruct (Hhd ltac:(done)).
Qed.

Lemma valid_oid_base128 prev v t :
  0 <= prev < 128 -> 0 <= v ->
  valid_oid_loop prev (base128 v ++ t) = valid_oid_loop (v mod 128) t.
Proof.
  intros Hp Hv. rewrite base128_eq, <- app_assoc. pose proof (Z.mod_pos_bound v 128).
  assert (0 <= v / 128) by (apply Z.div_pos; lia).
  apply valid_oid_run; [unfold is_byte; lia|by apply b128_prefix_bytes|lia|].
  intros _. by apply b128_prefix_head.
Qed.

(** [hs] is the run of continuation octets already read. *)
Lemma valid_oid_sound hs prev l :
  bytes_ok l -> Forall (fun b => 128 <= b < 256) hs -> head hs <> Some 128 ->
  is_byte prev -> (prev < 128 <-> hs = []) -> valid_oid_loop prev l = true ->
  exists vs, hs ++ l = concat (base128 <$> vs) /\ Forall (fun v => 0 <= v) vs.
Proof.
  revert hs prev. induction l as [|b l IH]; intros hs prev Hok Hhs Hhd Hp Hiff Hl.
  - simpl in Hl. destruct (high_bit_byte prev Hp) as [E _]. rewrite E in Hl.
    assert (hs = []) as -> by (apply Hiff; lia). by exists [].
  - simp_bytes. cbn [valid_oid_loop] in Hl. destruct (high_bit_byte prev Hp) as [E _].
    rewrite E in Hl. destruct ((prev <? 128) && (b =? 128)) eqn:E2; [done|].
    destruct (decide (b < 128)).
    + apply (IH [] b) in Hl as (vs & Hvs & Hpos); [|done..]. simpl in Hvs. subst l.
      destruct (b128_prefix_hi_val hs Hhs Hhd) as (Heq & _ & Hnn). unfold is_byte in *.
      exists (hi_val hs * 128 + b :: vs). split; [|constructor; [lia|done]].
      rewrite fmap_cons. cbn [concat]. rewrite base128_eq.
      rewrite Z.div_add_l, (Z.div_small b), Z.add_0_r, Heq by lia.
      rewrite Z.add_comm, Z.mod_add, Z.mod_small by lia. by rewrite <- app_assoc.
    + change (b :: l) with ([b] ++ l). rewrite app_assoc. unfold is_byte in *.
      apply (IH (hs ++ [b]) b); [done| | |done| |done].
      * apply Forall_app_2; [done|]. repeat constructor; lia.
      * destruct hs; [|exact Hhd]. simpl. intros [= ->].
        assert (prev < 128) by tauto. lia.
      * split; [lia|]. by destruct hs.
Qed.

Lemma valid_oid_complete prev vs :
  0 <= prev < 128 -> Forall (fun v => 0 <= v) vs ->
  valid_oid_loop prev (concat (base128 <$> vs)) = true.
Proof.
  intros Hp Hvs. revert prev Hp. induction Hvs as [|v vs Hv Hvs IH]; intros prev Hp.
  - simpl. destruct (high_bit_byte prev) as [-> _]; [unfold is_byte; lia|lia].
  - rewrite fmap_cons. cbn [concat]. rewrite valid_oid_base128 by done.
    apply IH. apply Z.mod_pos_bound. lia.
Qed.

(** [CBS_is_valid_asn1_oid] accepts exactly the non-empty concatenations of
    minimal base-128 encodings of non-negative integers. *)
Theorem CBS_is_valid_asn1_oid_iff s :
  bytes_ok s ->
  CBS_is_valid_asn1_oid s = true <->
  exists vs, vs <> [] /\ Forall (fun v => 0 <= v) vs /\ s = concat (base128 <$> vs).
Proof.
  intros Hok. unfold CBS_is_valid_asn1_oid.
  destruct (Z.eqb_spec (Zlen s) 0) as [E|E].
  - apply Zlen_0_inv in E as ->. split; [done|]. intros ([|v vs] & Hne & _ & Hs); [done|].
    rewrite fmap_cons, base128_eq in Hs. cbn [concat] in Hs.
    apply (f_equal length) in Hs. rewrite !length_app in Hs. simpl in Hs. lia.
  - split.
    + intros Hl. apply (valid_oid_sound []) in Hl as (vs & Hs & Hpos); [|done..].
      simpl in Hs. exists vs. split_and!; [|done..]. by intros ->; subst.
    + intros (vs & _ & Hpos & ->). apply valid_oid_complete; [lia|done].
Qed.

Lemma CBS_is_valid_asn1_oid_iff_witness :
  CBS_is_valid_asn1_oid [0x2a; 0x86; 0x48; 0x86; 0xf7; 0x0d] = true.
Proof.
  apply CBS_is_valid_asn1_oid_iff; [repeat constructor; lia|].
  exists [42; 840; 113549]. split_and!; [done|repeat constructor; lia|reflexivity].
Defined.

(** * Lemmas: BIT STRINGs *)

(** Bit [j] of byte [i], counted from the most significant byte. *)
Lemma testbit_be_val l i j :
  bytes_ok l -> (i < length l)%nat -> 0 <= j < 8 ->
  Z.testbit (be_val l) (8 * (Zlen l - 1 - Z.of_nat i) + j) = Z.testbit (nth i l 0) j.
Proof.
  intros Hok Hi Hj. rewrite <- (take_drop i l) at 1.
  destruct (drop i l) as [|b k] eqn:E.
  { apply (f_equal length) in E. rewrite length_drop in E. simpl in E. lia. }
  assert (nth i l 0 = b) as Hb.
  { rewrite <- (take_drop i l), E, app_nth2 by (rewrite length_take; lia).
    by rewrite length_take, Nat.min_l, Nat.sub_diag by lia. }
  assert (Zlen l - 1 - Z.of_nat i = Zlen k) as Hk.
  { apply (f_equal length) in E. rewrite length_drop in E. simpl in E. unfold Zlen. lia. }
  assert (bytes_ok (b :: k)) by (rewrite <- E; auto with bytes). simp_bytes.
  rewrite Hb, Hk. change (b :: k) with ([b] ++ k). rewrite app_assoc, be_val_app, be_val_snoc.
  rewrite pow256 by apply Zlen_nonneg. pose proof (be_val_bound k ltac:(done)) as Hbk.
  rewrite pow256 in Hbk by apply Zlen_nonneg. pose proof (Zlen_nonneg k).
  rewrite Z.add_comm, (Z.add_comm (8 * _) j), <- Z.div_pow2_bits by lia.
  rewrite Z.add_comm, Z.div_add_l, Z.div_small, Z.add_0_r by lia.
  rewrite <- (Z.mod_pow2_bits_low _ 8) by lia. change (2 ^ 8) with 256. unfold is_byte in *.
  rewrite Z.add_comm, Z.mod_add, Z.mod_small by lia. done.
Qed.

Lemma land_pow2_testbit x n : 0 <= n -> negb (Z.land x (Z.shiftl 1 n) =? 0) = Z.testbit x n.
Proof.
  intros Hn. rewrite Z.shiftl_1_l. destruct (Z.testbit x n) eqn:E.
  - destruct (Z.eqb_spec (Z.land x (2 ^ n)) 0) as [H0|]; [|done].
    apply (f_equal (fun y => Z.testbit y n)) in H0.
    by rewrite Z.land_spec, Z.pow2_bits_true, E, Z.bits_0 in H0 by lia.
  - destruct (Z.eqb_spec (Z.land x (2 ^ n)) 0) as [|H0]; [done|]. destruct H0.
    apply Z.bits_inj'. intros i Hi. rewrite Z.land_spec, Z.bits_0.
    destruct (decide (i = n)) as [->|]; [by rewrite E|].
    by rewrite Z.pow2_bits_false, andb_false_r by lia.
Qed.

Lemma valid_bitstring_cons u data :
  bytes_ok (u :: data) -> CBS_is_valid_asn1_bitstring (u :: data) = true ->
  0 <= u <= 7 /\ (0 < u -> data <> [] /\ be_val data mod 2 ^ u = 0).
Proof.
  intros Hok Hv. simp_bytes. unfold is_byte in *. unfold CBS_is_valid_asn1_bitstring in Hv.
  rewrite CBS_get_u8_cons in Hv. destruct (u >? 7) eqn:E7; [done|]. split; [lia|]. intros Hu.
  destruct (Z.eqb_spec u 0); [lia|]. unfold CBS_get_last_u8 in Hv.
  destruct (last data) as [b|] eqn:El; [|done]. apply last_Some in El as [k ->].
  split; [by destruct k|]. rewrite Z.shiftl_1_l, land_mask in Hv by lia. apply Z.eqb_eq in Hv.
  rewrite be_val_snoc. change 256 with (2 ^ 8). replace 8 with (8 - u + u) by lia.
  rewrite Z.pow_add_r, Z.mul_assoc by lia. rewrite Z.add_comm, Z.mod_add by lia. done.
Qed.

(** In a valid BIT STRING of [8 * len - unused] bits,
    [CBS_asn1_bitstring_has_bit] returns the bit at a position counted from the
    first, most significant bit, and false at every position past the end,
    the unused bits included. *)
Theorem CBS_asn1_bitstring_has_bit_spec u data bit :
  bytes_ok (u :: data) -> CBS_is_valid_asn1_bitstring (u :: data) = true ->
  0 <= bit <= UINT_MAX ->
  let nbits := 8 * Zlen data - u in
  CBS_asn1_bitstring_has_bit (u :: data) bit =
    (bit <? nbits) && Z.testbit (be_val data / 2 ^ u) (nbits - 1 - bit).
Proof.
  intros Hok Hv Hbit nbits. unfold CBS_asn1_bitstring_has_bit. rewrite Hv. cbn [negb].
  destruct (valid_bitstring_cons u data Hok Hv) as [Hu Hz]. simp_bytes.
  unfold UINT_MAX in Hbit. pose proof (Z.div_mod bit 8). pose proof (Z.mod_pos_bound bit 8).
  rewrite Z.shiftr_div_pow2, (land_mask bit 3 ltac:(lia) : Z.land bit 7 = _) by lia.
  change (2 ^ 3) with 8. unfold u32.
  assert (0 <= bit / 8 < 2 ^ 30) by (split; [apply Z.div_pos; lia|apply Z.div_lt_upper_bound; lia]).
  rewrite Z.mod_small by lia. rewrite land_pow2_testbit, Zlen_cons by lia.
  replace (Z.to_nat (bit / 8 + 1)) with (S (Z.to_nat (bit / 8))) by lia. cbn [nth].
  destruct (Z.ltb_spec (bit / 8 + 1) (1 + Zlen data)); cbn [andb].
  2: { destruct (Z.ltb_spec bit nbits); [|done]. unfold nbits in *. lia. }
  rewrite <- (testbit_be_val data (Z.to_nat (bit / 8)) (7 - bit mod 8)) by (done || unfold Zlen in *; lia).
  replace (8 * (Zlen data - 1 - Z.of_nat (Z.to_nat (bit / 8))) + (7 - bit mod 8))
    with (8 * Zlen data - 1 - bit) by lia.
  destruct (Z.ltb_spec bit nbits); cbn [andb].
  - rewrite Z.div_pow2_bits by (unfold nbits in *; lia). f_equal. unfold nbits. lia.
  - destruct (decide (u = 0)) as [->|]; [unfold nbits in *; lia|].
    destruct (Hz ltac:(lia)) as [_ Hmod]. unfold nbits in *.
    rewrite <- (Z.mod_pow2_bits_low _ u) by lia. by rewrite Hmod, Z.bits_0.
Qed.

Lemma CBS_asn1_bitstring_has_bit_spec_witness :
  CBS_asn1_bitstring_has_bit [6; 0x7f; 0xc0] 9 = true /\
  CBS_asn1_bitstring_has_bit [6; 0x7f; 0xc0] 9 =
    (9 <? 10) && Z.testbit (be_val [0x7f; 0xc0] / 2 ^ 6) 0.
Proof.
  split; [reflexivity|].
  apply (CBS_asn1_bitstring_has_bit_spec 6 [0x7f; 0xc0] 9);
    [repeat constructor; lia|reflexivity|unfold UINT_MAX; lia].
Defined.
