(* ===== verification/Cbb.v ===== *)
(** The writer [CBB] of [crypto/bytestring/cbb.c].

    A top-level [CBB] owns a buffer; [CBB_add_asn1] and the length-prefixed
    writers open a child that shares it, and writing to a [CBB] flushes its
    open descendants, which fills in their lengths.  Since a [CBB] has one
    [child] pointer, the open ones form a chain: the state is the buffer with
    the list of open children, outermost first, and the handle of a [CBB] is its
    depth in the chain (0 is the top level).  A handle deeper than the chain is
    a child that was detached ([base == NULL]); calls on it fail. *)
From S2P Require Import Prelude Mem Der Cbs.

(** [splice off data l]: [memcpy(l + off, data, len)]. *)
Definition splice (off : Z) (data l : bytes) : bytes :=
  take (Z.to_nat off) l ++ data ++ drop (Z.to_nat off + length data) l.

Record cbb_buffer_st := CbbBuffer {
  buf : option bytes;   (** [None] is NULL; the block has [cap] bytes *)
  len : Z;
  cap : Z;
  can_resize : bool;
  error : bool;
}.

Record cbb_child_st := CbbChild {
  offset : Z;
  pending_len_len : Z;
  pending_is_asn1 : bool;
}.

(** A top-level [CBB], its open descendants, and the state of the allocator. *)
Record cbb_st (H : Type) := Cbb {
  base : cbb_buffer_st;
  chain : list cbb_child_st;
  heap : H;
}.
Arguments Cbb {H}.
Arguments base {H}.
Arguments chain {H}.
Arguments heap {H}.

Definition set_buf (p : option bytes) (b : cbb_buffer_st) : cbb_buffer_st :=
  CbbBuffer p (len b) (cap b) (can_resize b) (error b).
Definition set_cap (n : Z) (b : cbb_buffer_st) : cbb_buffer_st :=
  CbbBuffer (buf b) (len b) n (can_resize b) (error b).
Definition set_len (n : Z) (b : cbb_buffer_st) : cbb_buffer_st :=
  CbbBuffer (buf b) n (cap b) (can_resize b) (error b).
Definition set_error (b : cbb_buffer_st) : cbb_buffer_st :=
  CbbBuffer (buf b) (len b) (cap b) (can_resize b) true.
Definition on_base {H} (f : cbb_buffer_st -> cbb_buffer_st) (s : cbb_st H) : cbb_st H :=
  Cbb (f (base s)) (chain s) (heap s).
Definition set_chain {H} (c : list cbb_child_st) (s : cbb_st H) : cbb_st H :=
  Cbb (base s) c (heap s).
Definition buf_bytes (b : cbb_buffer_st) : bytes := default [] (buf b).

(** [memcpy(base->buf + off, data, len)]. *)
Definition poke {H} (off : Z) (data : bytes) (s : cbb_st H) : cbb_st H :=
  on_base (fun b => set_buf (splice off data <$> buf b) b) s.

(** The bytes [i = n - 1, ..., 0] that the loop [buf[i] = v; v >>= 8] stores, and
    what is left of [v]. *)
Fixpoint store_be (n : nat) (v : Z) (acc : bytes) : bytes * Z :=
  match n with
  | O => (acc, v)
  | S n => store_be n (Z.shiftr v 8) (u8 v :: acc)
  end.

Section cbb.
Context {H : Type} `{Malloc H}.
Abbreviation CBB := (cbb_st H).

(** * Creation *)

Definition cbb_init (p : option bytes) (n : Z) (resize : bool) (h : H) : CBB :=
  Cbb (CbbBuffer p 0 n resize false) [] h.

Definition CBB_zero (h : H) : CBB := Cbb (CbbBuffer None 0 0 false false) [] h.

Definition CBB_init (initial_capacity : Z) (h : H) : option unit * CBB :=
  match OPENSSL_malloc initial_capacity h with
  | (None, h) =>
      if initial_capacity >? 0 then (None, CBB_zero h)
      else (Some tt, cbb_init None initial_capacity true h)
  | (Some p, h) => (Some tt, cbb_init (Some p) initial_capacity true h)
  end.

(** [p] is the caller's array of [Zlen p] bytes. *)
Definition CBB_init_fixed (p : bytes) (h : H) : CBB := cbb_init (Some p) (Zlen p) false h.

(** * The buffer *)

Definition cbb_buffer_err {A} : ST CBB A := fun s => (None, on_base set_error s).

(** The result is the offset of the reserved bytes. *)
Definition cbb_buffer_reserve (n : Z) : ST CBB Z := fun s =>
  let b := base s in
  let newlen := u64 (len b + n) in
  if newlen <? len b then cbb_buffer_err s
  else if newlen >? cap b then
    if negb (can_resize b) then cbb_buffer_err s
    else
      let newcap := u64 (cap b * 2) in
      let newcap := if (newcap <? cap b) || (newcap <? newlen) then newlen else newcap in
      match OPENSSL_realloc (buf b) newcap (heap s) with
      | (None, h) => cbb_buffer_err (Cbb b (chain s) h)
      | (Some newbuf, h) =>
          let b := set_cap newcap (set_buf (Some newbuf) b) in
          (Some (len b), Cbb b (chain s) h)
      end
  else (Some (len b), s).

Definition cbb_buffer_add (n : Z) : ST CBB Z :=
  out <-- cbb_buffer_reserve n ;;
  fun s => (Some out, on_base (fun b => set_len (len b + n) b) s).

(** [cbb_on_error cbb], for the [CBB] of depth [d]. *)
Definition cbb_on_error {A} (d : nat) : ST CBB A := fun s =>
  (None, set_chain (take d (chain s)) (on_base set_error s)).

(** * Flushing *)

(** [len_len] and [initial_length_byte]. *)
Definition asn1_len_len (n : Z) : option (Z * Z) :=
  if n >? 0xfffffffe then None
  else if n >? 0xffffff then Some (5, Z.lor 0x80 4)
  else if n >? 0xffff then Some (4, Z.lor 0x80 3)
  else if n >? 0xff then Some (3, Z.lor 0x80 2)
  else if n >? 0x7f then Some (2, Z.lor 0x80 1)
  else Some (1, u8 n).

(** The loop over [i = pending_len_len - 1, ..., 0] and the check after it. *)
Definition cbb_write_len (off pending n : Z) : ST CBB unit :=
  let '(data, n) := store_be (Z.to_nat pending) n [] in
  (fun s => (Some tt, poke off data s)) ;;;
  st_guard (n =? 0).

(** The part of [CBB_flush] after the recursive call and the checks. *)
Definition cbb_write_prefix (child : cbb_child_st) : ST CBB unit := fun s =>
  let child_start := u64 (offset child + pending_len_len child) in
  let n := len (base s) - child_start in
  if pending_is_asn1 child then
    match asn1_len_len n with
    | None => (None, s)
    | Some (len_len, initial_length_byte) =>
        let n' := if len_len =? 1 then 0 else n in
        ((if negb (len_len =? 1) then
            let extra_bytes := len_len - 1 in
            _ <-- cbb_buffer_add extra_bytes ;;
            (fun s =>
               let content := take (Z.to_nat n) (drop (Z.to_nat child_start) (buf_bytes (base s))) in
               (Some tt, poke (child_start + extra_bytes) content s))
          else st_ret tt) ;;;
         (fun s => (Some tt, poke (offset child) [initial_length_byte] s)) ;;;
         cbb_write_len (offset child + 1) (len_len - 1) n') s
    end
  else cbb_write_len (offset child) (pending_len_len child) n s.

(** [CBB_flush] of a [CBB] whose open descendants are [kids]. *)
Fixpoint cbb_flush_kids (kids : list cbb_child_st) : ST CBB unit := fun s =>
  if error (base s) then (None, s)
  else
    match kids with
    | [] => (Some tt, s)
    | child :: kids =>
        let child_start := u64 (offset child + pending_len_len child) in
        match
          (cbb_flush_kids kids ;;;
           (fun s => st_guard (negb ((child_start <? offset child) || (len (base s) <? child_start))) s) ;;;
           cbb_write_prefix child) s
        with
        | (None, s) => (None, on_base set_error s)
        | r => r
        end
    end.

Definition CBB_flush (d : nat) : ST CBB unit := fun s =>
  if Nat.ltb (length (chain s)) d then (None, s)
  else if error (base s) then (None, s)
  else let '(r, s') := cbb_flush_kids (drop d (chain s)) s in (r, set_chain (take d (chain s)) s').

(** * Reading back *)

Definition cbb_data_offset (d : nat) (s : CBB) : Z :=
  match d with
  | O => 0
  | S d => match chain s !! d with
           | Some child => offset child + pending_len_len child
           | None => 0
           end
  end.

(** The bytes from [CBB_data] on; [CBB_len] says how many are valid. *)
Definition CBB_data (d : nat) (s : CBB) : bytes :=
  drop (Z.to_nat (cbb_data_offset d s)) (buf_bytes (base s)).

Definition CBB_len (d : nat) (s : CBB) : Z := len (base s) - cbb_data_offset d s.

(** [want_out] says whether [out_data] and [out_len] are given. *)
Definition CBB_finish (want_out : bool) : ST CBB (option bytes * Z) :=
  CBB_flush 0 ;;;
  fun s =>
    if can_resize (base s) && negb want_out then (None, s)
    else (Some (buf (base s), len (base s)), on_base (set_buf None) s).

(** * Writing *)

Definition cbb_add_child (d : nat) (len_len : Z) (is_asn1 : bool) : ST CBB unit := fun s =>
  let off := len (base s) in
  (prefix_bytes <-- cbb_buffer_add len_len ;;
   fun s =>
     (Some tt,
      set_chain (take d (chain s) ++ [CbbChild off len_len is_asn1])
        (poke prefix_bytes (replicate (Z.to_nat len_len) 0) s))) s.

Definition cbb_add_length_prefixed (d : nat) (len_len : Z) : ST CBB unit :=
  CBB_flush d ;;; cbb_add_child d len_len false.

Definition CBB_add_u8_length_prefixed (d : nat) : ST CBB unit := cbb_add_length_prefixed d 1.
Definition CBB_add_u16_length_prefixed (d : nat) : ST CBB unit := cbb_add_length_prefixed d 2.
Definition CBB_add_u24_length_prefixed (d : nat) : ST CBB unit := cbb_add_length_prefixed d 3.

Definition CBB_add_space (d : nat) (n : Z) : ST CBB Z := CBB_flush d ;;; cbb_buffer_add n.

Definition CBB_reserve (d : nat) (n : Z) : ST CBB Z := CBB_flush d ;;; cbb_buffer_reserve n.

Definition CBB_did_write (d : nat) (n : Z) : ST CBB unit := fun s =>
  let b := base s in
  let newlen := u64 (len b + n) in
  if negb (Nat.eqb (length (chain s)) d) || (newlen <? len b) || (newlen >? cap b) then (None, s)
  else (Some tt, on_base (set_len newlen) s).

Definition CBB_add_bytes (d : nat) (data : bytes) : ST CBB unit :=
  out <-- CBB_add_space d (Zlen data) ;;
  fun s => (Some tt, poke out data s).

Definition CBB_add_zeros (d : nat) (n : Z) : ST CBB unit :=
  out <-- CBB_add_space d n ;;
  fun s => (Some tt, poke out (replicate (Z.to_nat n) 0) s).

Definition cbb_add_u (d : nat) (v : Z) (len_len : nat) : ST CBB unit :=
  out <-- CBB_add_space d (Z.of_nat len_len) ;;
  let '(data, v) := store_be len_len v [] in
  (fun s => (Some tt, poke out data s)) ;;;
  if negb (v =? 0) then cbb_on_error d else st_ret tt.

Definition CBB_add_u8 (d : nat) (value : Z) : ST CBB unit := cbb_add_u d value 1.
Definition CBB_add_u16 (d : nat) (value : Z) : ST CBB unit := cbb_add_u d value 2.
Definition CBB_add_u16le (d : nat) (value : Z) : ST CBB unit := CBB_add_u16 d (CRYPTO_bswap2 value).
Definition CBB_add_u24 (d : nat) (value : Z) : ST CBB unit := cbb_add_u d value 3.
Definition CBB_add_u32 (d : nat) (value : Z) : ST CBB unit := cbb_add_u d value 4.
Definition CBB_add_u32le (d : nat) (value : Z) : ST CBB unit := CBB_add_u32 d (CRYPTO_bswap4 value).
Definition CBB_add_u64 (d : nat) (value : Z) : ST CBB unit := cbb_add_u d value 8.
Definition CBB_add_u64le (d : nat) (value : Z) : ST CBB unit := CBB_add_u64 d (CRYPTO_bswap8 value).

Definition CBB_discard_child (d : nat) (s : CBB) : CBB :=
  match chain s !! d with
  | None => s
  | Some child => set_chain (take d (chain s)) (on_base (set_len (offset child)) s)
  end.

(** [len_len]: the seven-bit digits of [v], at least one. *)
Fixpoint base128_len_loop (fuel : nat) (copy : Z) (len_len : nat) : nat :=
  match fuel with
  | O => len_len
  | S fuel => if copy >? 0 then base128_len_loop fuel (Z.shiftr copy 7) (S len_len) else len_len
  end.

(** Ten digits cover a [uint64_t]. *)
Definition base128_len (v : Z) : nat :=
  let len_len := base128_len_loop 10 v 0 in
  if Nat.eqb len_len 0 then 1%nat else len_len.

(** The loop over [i = n - 1, ..., 0]. *)
Fixpoint add_base128_loop (d : nat) (v : Z) (n : nat) : ST CBB unit :=
  match n with
  | O => st_ret tt
  | S i =>
      let byte := u8 (Z.land (Z.shiftr v (7 * Z.of_nat i)) 0x7f) in
      let byte := if negb (Nat.eqb i 0) then Z.lor byte 0x80 else byte in
      CBB_add_u8 d byte ;;; add_base128_loop d v i
  end.

Definition add_base128_integer (d : nat) (v : Z) : ST CBB unit :=
  add_base128_loop d v (base128_len v).

Definition CBB_add_asn1 (d : nat) (tag : Z) : ST CBB unit :=
  CBB_flush d ;;;
  let tag_bits := u8 (Z.land (Z.shiftr tag CBS_ASN1_TAG_SHIFT) 0xe0) in
  let tag_number := Z.land tag CBS_ASN1_TAG_NUMBER_MASK in
  (if tag_number >=? 0x1f then
     CBB_add_u8 d (Z.lor tag_bits 0x1f) ;;; add_base128_integer d tag_number
   else CBB_add_u8 d (Z.lor tag_bits tag_number)) ;;;
  cbb_add_child d 1 true.

End cbb.
