(* ===== verification/CbbSpec.v ===== *)
(** What a [CBB] promises: an abstract message made of the bytes written so far
    and the open length-prefixed children with theirs, the operations on it,
    and the theorems that the writer of [Cbb.v] implements them. *)
From S2P Require Import Prelude Mem Der Cbs Cbb.

(** * The abstract message *)

Inductive prefix := LenPrefix (n : nat) | Asn1.

(** The contents of the top level and of the open children, outermost first. *)
Abbreviation msg := (bytes * list (prefix * bytes))%type.

Definition prefix_len (k : prefix) : nat := match k with LenPrefix n => n | Asn1 => 1 end.
Definition prefix_asn1 (k : prefix) : bool := match k with LenPrefix _ => false | Asn1 => true end.

(** A finished child: its length, then its contents. *)
Definition encode (k : prefix) (c : bytes) : option bytes :=
  match k with
  | LenPrefix n => if Zlen c <? 256 ^ Z.of_nat n then Some (be_bytes n (Zlen c) ++ c) else None
  | Asn1 => if Zlen c <=? 0xfffffffe then Some (der_len (Zlen c) ++ c) else None
  end.

Fixpoint close (c : bytes) (kids : list (prefix * bytes)) : option bytes :=
  match kids with
  | [] => Some c
  | (k, c') :: kids =>
      match close c' kids with
      | Some b => match encode k b with Some e => Some (c ++ e) | None => None end
      | None => None
      end
  end.

Fixpoint close_at (d : nat) (c : bytes) (kids : list (prefix * bytes)) : option msg :=
  match d with
  | O => match close c kids with Some b => Some (b, []) | None => None end
  | S d =>
      match kids with
      | [] => None
      | (k, c') :: kids =>
          match close_at d c' kids with
          | Some (c'', kids') => Some (c, (k, c'') :: kids')
          | None => None
          end
      end
  end.

Definition sp_flush (d : nat) (a : msg) : option msg := close_at d a.1 a.2.

(** Append to the innermost open child. *)
Fixpoint append_in (data c : bytes) (kids : list (prefix * bytes)) : msg :=
  match kids with
  | [] => (c ++ data, [])
  | (k, c') :: kids => let '(c'', kids') := append_in data c' kids in (c, (k, c'') :: kids')
  end.
Definition sp_append (data : bytes) (a : msg) : msg := append_in data a.1 a.2.
Definition sp_open (k : prefix) (a : msg) : msg := (a.1, a.2 ++ [(k, [])]).

Definition sp_write (d : nat) (data : bytes) (a : msg) : option msg := sp_append data <$> sp_flush d a.
Definition sp_child (d : nat) (k : prefix) (a : msg) : option msg := sp_open k <$> sp_flush d a.

(** What [CBB_add_asn1] does to the message: the tag goes to the parent. *)
Definition sp_asn1 (d : nat) (t : Z) (a : msg) : option msg :=
  sp_open Asn1 <$> sp_write d (der_tag t) a.

(** * The representation *)

Fixpoint flatten (c : bytes) (kids : list (prefix * bytes)) : bytes :=
  match kids with
  | [] => c
  | (k, c') :: kids => c ++ replicate (prefix_len k) 0 ++ flatten c' kids
  end.

Fixpoint chain_of (off : Z) (c : bytes) (kids : list (prefix * bytes)) : list cbb_child_st :=
  match kids with
  | [] => []
  | (k, c') :: kids =>
      CbbChild (off + Zlen c) (Z.of_nat (prefix_len k)) (prefix_asn1 k)
        :: chain_of (off + Zlen c + Z.of_nat (prefix_len k)) c' kids
  end.

Record buffer_ok (b : cbb_buffer_st) (content : bytes) : Prop := {
  bo_len : len b = Zlen content;
  bo_cap : Zlen (buf_bytes b) = cap b;
  bo_content : take (length content) (buf_bytes b) = content;
  bo_max : cap b <= SIZE_MAX;
  bo_error : error b = false;
}.

Definition msg_size (a : msg) : Z := Zlen (flatten a.1 a.2).

Section refinement.
Context {H : Type} `{MallocSpec H}.
Abbreviation CBB := (cbb_st H).

Definition rep (s : CBB) (a : msg) : Prop :=
  buffer_ok (base s) (flatten a.1 a.2) /\ chain s = chain_of 0 a.1 a.2.

(** Room for [sz] bytes: the buffer has them, or it can grow and the allocator
    does not fail. *)
Definition fits (s : CBB) (sz : Z) : Prop :=
  sz <= cap (base s) \/
  (MallocTotal H /\ can_resize (base s) = true /\ cap (base s) <= 2 ^ 61 /\ sz <= 2 ^ 60).

(** A call that is [sp] on messages: it succeeds only with the message of [sp]
    and, if it fails, it leaves the error flag set and either [sp] fails or
    there was no room for the result. *)
Definition outcome {A} (s : CBB) (sp : option msg) (r : option A * CBB) : Prop :=
  match r with
  | (Some _, s') =>
      exists a', sp = Some a' /\ rep s' a' /\ forall sz, fits s sz -> msg_size a' <= sz -> fits s' sz
  | (None, s') => error (base s') = true /\ forall a', sp = Some a' -> ~ fits s (msg_size a')
  end.

(** The same for the parts of a call that only touch the buffer. *)
Definition buf_outcome {A} (s : CBB) (sp : option bytes) (r : option A * CBB) : Prop :=
  match r with
  | (Some _, s') =>
      exists c, sp = Some c /\ buffer_ok (base s') c /\ chain s' = chain s /\
        forall sz, fits s sz -> Zlen c <= sz -> fits s' sz
  | (None, s') => forall c, sp = Some c -> ~ fits s (Zlen c)
  end.

(** * Lemmas: the buffer *)

Lemma fits_mono s sz sz' : fits s sz -> sz' <= sz -> fits s sz'.
Proof. unfold fits. intros [?|(? & ? & ? & ?)] ?; [left|right; split_and!]; auto; lia. Qed.

Lemma buffer_ok_cap b c : buffer_ok b c -> Zlen c <= cap b.
Proof.
  intros [? Hc Ht ? ?]. rewrite <- Hc. apply (f_equal length) in Ht.
  rewrite length_take in Ht. unfold Zlen. lia.
Qed.

Lemma buffer_ok_split b c : buffer_ok b c -> exists junk, buf_bytes b = c ++ junk.
Proof.
  intros [_ _ Ht _ _]. exists (drop (length c) (buf_bytes b)).
  rewrite <- Ht at 1. by rewrite take_drop.
Qed.

Lemma splice_app x y z data :
  length data = length y -> splice (Zlen x) data (x ++ y ++ z) = x ++ data ++ z.
Proof.
  intros Hl. unfold splice. rewrite take_Zlen_app. do 2 f_equal.
  unfold Zlen. rewrite Nat2Z.id, drop_app_add, Hl. by rewrite drop_app_length.
Qed.

Lemma poke_ok (s : CBB) x y z data off :
  buffer_ok (base s) (x ++ y ++ z) -> off = Zlen x -> length data = length y ->
  buffer_ok (base (poke off data s)) (x ++ data ++ z).
Proof.
  intros Hb -> Hl. pose proof Hb as [Hb1 Hb2 Hb3 Hb4 Hb5].
  destruct (buffer_ok_split _ _ Hb) as [junk Hj]. unfold poke, on_base, set_buf. simpl.
  assert (buf_bytes (CbbBuffer (splice (Zlen x) data <$> buf (base s)) (len (base s))
    (cap (base s)) (can_resize (base s)) (error (base s))) = x ++ data ++ z ++ junk) as E.
  { unfold buf_bytes in *. simpl. destruct (buf (base s)) as [p|]; simpl in *.
    - rewrite Hj, <- !app_assoc. by apply splice_app.
    - symmetry in Hj. apply app_nil in Hj as [Hn ->]. apply app_nil in Hn as [-> Hn].
      apply app_nil in Hn as [-> ->]. by destruct data. }
  split; simpl; try done.
  - rewrite Hb1, !Zlen_app. unfold Zlen. lia.
  - rewrite E, <- Hb2, Hj, !Zlen_app. unfold Zlen. lia.
  - rewrite E. rewrite !app_assoc, <- (app_assoc _ z), <- app_assoc.
    rewrite <- !app_assoc, !app_assoc. by rewrite take_app_length.
Qed.

Lemma store_be_eq n v acc : 0 <= v -> store_be n v acc = (be_bytes n v ++ acc, v / 256 ^ Z.of_nat n).
Proof.
  revert v acc. induction n as [|n IH]; intros v acc Hv.
  - simpl. by rewrite Z.div_1_r.
  - cbn [store_be]. rewrite Z.shiftr_div_pow2 by lia. change (2 ^ 8) with 256.
    rewrite IH by (apply Z.div_pos; lia). rewrite be_bytes_S, <- app_assoc. f_equal.
    rewrite Z.div_div, Nat2Z.inj_succ, Z.pow_succ_r by lia. done.
Qed.

Lemma newcap_ok cap newlen :
  0 <= cap < newlen -> newlen < 2 ^ 64 ->
  let newcap := u64 (cap * 2) in
  let newcap := if (newcap <? cap) || (newcap <? newlen) then newlen else newcap in
  newlen <= newcap <= 2 * newlen /\ newcap < 2 ^ 64.
Proof.
  intros Hc Hn. cbv zeta. unfold u64. pose proof (Z.mod_pos_bound (cap * 2) (2 ^ 64) ltac:(lia)).
  assert ((cap * 2) mod 2 ^ 64 <= cap * 2) by (apply Z.mod_le; lia).
  destruct (Z.ltb_spec ((cap * 2) mod 2 ^ 64) cap); simpl; [lia|].
  destruct (Z.ltb_spec ((cap * 2) mod 2 ^ 64) newlen); lia.
Qed.

Lemma reserve_ok n (s : CBB) c :
  buffer_ok (base s) c -> 0 <= n <= SIZE_MAX ->
  match cbb_buffer_reserve n s with
  | (Some off, s') =>
      off = Zlen c /\ buffer_ok (base s') c /\ Zlen c + n <= cap (base s') /\ chain s' = chain s /\
      can_resize (base s') = can_resize (base s) /\ cap (base s) <= cap (base s') /\
      (cap (base s') = cap (base s) \/ cap (base s') <= 2 * (Zlen c + n))
  | (None, s') =>
      error (base s') = true /\ chain s' = chain s /\ ~ fits s (Zlen c + n)
  end.
Proof.
  intros Hb Hn. pose proof (buffer_ok_cap _ _ Hb) as Hcap. pose proof Hb as [Hb1 Hb2 Hb3 Hb4 Hb5].
  pose proof (Zlen_nonneg c) as Hc. unfold cbb_buffer_reserve, SIZE_MAX in *. rewrite Hb1.
  remember (Zlen c + n) as m eqn:Em. set (b := base s) in *.
  destruct (Z.ltb_spec (u64 m) (Zlen c)) as [Hov|Hov].
  { simpl. split_and!; [done|done|]. unfold fits. fold b. intros Hf. unfold u64 in Hov.
    rewrite Z.mod_small in Hov by (destruct Hf as [?|(_ & _ & _ & ?)]; lia). lia. }
  assert (u64 m = m /\ m < 2 ^ 64) as [Hm Hlt].
  { unfold u64 in *. pose proof (Z.div_mod m (2 ^ 64) ltac:(lia)) as Hd. pose proof (Z.mod_pos_bound m (2 ^ 64) ltac:(lia)).
    assert (m / 2 ^ 64 < 2) by (apply Z.div_lt_upper_bound; lia).
    assert (0 <= m / 2 ^ 64) by (apply Z.div_pos; [unfold Zlen in *; lia|done]). lia. }
  rewrite Hm in *. destruct (m >? cap b) eqn:Hgt.
  2: { fold b. split_and!; try done; [lia|by left]. }
  unfold fits. fold b. destruct (can_resize b) eqn:Hr; simpl.
  2: { split_and!; [done|done|]. intros [Hf|(_ & ? & _)]; [lia|congruence]. }
  destruct (newcap_ok (cap b) m ltac:(lia) Hlt) as [Hn1 Hn2].
  set (newcap := if _ || _ then m else _) in *.
  destruct (OPENSSL_realloc (buf b) newcap (heap s)) as [[nb|] h] eqn:Hre; simpl.
  - apply OPENSSL_realloc_spec in Hre as (Hl & _ & _ & Ht); [|lia].
    fold (buf_bytes b) in Ht. rewrite Hb2, Z.min_l in Ht by lia. cbv zeta in Ht.
    split_and!; try done; [|lia..|right; lia].
    split; simpl; try done; [|unfold SIZE_MAX; lia].
    assert (length c <= Z.to_nat (cap b))%nat by (unfold Zlen in *; lia).
    unfold buf_bytes at 1. simpl.
    replace (length c) with (length c `min` Z.to_nat (cap b))%nat by lia.
    rewrite <- take_take, Ht, take_take, Nat.min_l by lia. done.
  - split_and!; [done|done|]. intros [Hf|(Ht & _ & Hc1 & Hc2)]; [lia|].
    destruct (OPENSSL_realloc_total (buf b) newcap (heap s)) as (? & ? & E); [lia|congruence].
Qed.

Lemma add_ok n (s : CBB) c :
  buffer_ok (base s) c -> 0 <= n <= SIZE_MAX ->
  match cbb_buffer_add n s with
  | (Some off, s') =>
      off = Zlen c /\ chain s' = chain s /\
      (exists junk, Zlen junk = n /\ buffer_ok (base s') (c ++ junk)) /\
      (forall sz, fits s sz -> Zlen c + n <= sz -> fits s' sz)
  | (None, s') => error (base s') = true /\ chain s' = chain s /\ ~ fits s (Zlen c + n)
  end.
Proof.
  intros Hb Hn. pose proof (reserve_ok n s c Hb Hn) as Hr. unfold cbb_buffer_add, st_bind.
  destruct (cbb_buffer_reserve n s) as [[off|] s']; [|done].
  destruct Hr as (-> & Hb' & Hcap & Hch & Hrs & Hc1 & Hc2). split_and!; [done|done| |].
  - destruct (buffer_ok_split _ _ Hb') as [junk Hj]. destruct Hb' as [Hl1 Hl2 Hl3 Hl4 Hl5].
    unfold Zlen in Hl2. rewrite Hj, length_app in Hl2.
    exists (take (Z.to_nat n) junk). rewrite Zlen_take by (unfold Zlen in *; lia).
    split; [done|]. split; simpl; try done.
    + rewrite Zlen_app, Zlen_take by (unfold Zlen in *; lia). lia.
    + unfold buf_bytes in *. simpl. rewrite Hj. unfold Zlen. rewrite length_app. lia.
    + unfold buf_bytes in *. simpl. rewrite Hj, length_app.
      rewrite take_app_add. by rewrite length_take, Nat.min_l by (unfold Zlen in *; lia).
  - intros sz. unfold fits. simpl. rewrite Hrs. intros [?|(? & ? & ? & ?)] Hs; [left; lia|].
    right. split_and!; try done. lia.
Qed.

(** * Lemmas: finishing a child *)

Lemma asn1_len_len_eq n :
  0 <= n ->
  asn1_len_len n =
    if n <=? 0xfffffffe then
      Some (if n <? 128 then (1, n) else (Z.of_nat (len_octets n) + 1, 128 + Z.of_nat (len_octets n)))
    else None.
Proof.
  intros Hn. unfold asn1_len_len, len_octets, u8.
  destruct (n >? 0xfffffffe) eqn:E0, (Z.leb_spec n 0xfffffffe); try lia; [done|].
  destruct (n >? 0xffffff) eqn:E1, (n >? 0xffff) eqn:E2, (n >? 0xff) eqn:E3, (n >? 0x7f) eqn:E4; try lia;
    destruct (Z.ltb_spec n 128), (Z.ltb_spec n (2 ^ 8)), (Z.ltb_spec n (2 ^ 16)), (Z.ltb_spec n (2 ^ 24));
    try lia; try done.
  by rewrite Z.mod_small by lia.
Qed.

Lemma write_len_ok (s : CBB) pre y c n v :
  buffer_ok (base s) (pre ++ y ++ c) -> Zlen y = Z.of_nat n -> 0 <= v ->
  buf_outcome s (if v <? 256 ^ Z.of_nat n then Some (pre ++ be_bytes n v ++ c) else None)
    (cbb_write_len (Zlen pre) (Z.of_nat n) v s).
Proof.
  intros Hb Hy Hv. unfold cbb_write_len. rewrite Nat2Z.id, store_be_eq, app_nil_r by done.
  assert (0 < 256 ^ Z.of_nat n) by (apply Z.pow_pos_nonneg; lia).
  unfold st_bind, st_guard. destruct (Z.ltb_spec v (256 ^ Z.of_nat n)).
  - rewrite Z.div_small by lia. simpl. eexists. split; [done|]. split; [|by split_and!].
    eapply poke_ok; [exact Hb|done|]. rewrite length_be_bytes. unfold Zlen in Hy. lia.
  - assert (v / 256 ^ Z.of_nat n <> 0) as Hd.
    { intros E. apply Z.div_small_iff in E; lia. }
    destruct (Z.eqb_spec (v / 256 ^ Z.of_nat n) 0); [done|]. simpl. done.
Qed.

(** Moving the contents along makes room for a long length. *)
Lemma make_room_ok (s : CBB) pre c start extra :
  buffer_ok (base s) (pre ++ c) -> start = Zlen pre -> 0 < extra <= 4 ->
  match (_ <-- cbb_buffer_add extra ;;
         fun s => let content := take (Z.to_nat (Zlen c)) (drop (Z.to_nat start) (buf_bytes (base s))) in
           (Some tt, poke (start + extra) content s)) s with
  | (Some _, s') =>
      (exists y, Zlen y = extra /\ buffer_ok (base s') (pre ++ y ++ c)) /\ chain s' = chain s /\
      (forall sz, fits s sz -> Zlen (pre ++ c) + extra <= sz -> fits s' sz)
  | (None, s') => ~ fits s (Zlen (pre ++ c) + extra)
  end.
Proof.
  intros Hb -> He. pose proof (add_ok extra s _ Hb ltac:(unfold SIZE_MAX; lia)) as Ha.
  unfold st_bind. destruct (cbb_buffer_add extra s) as [[off|] s']; [|tauto].
  destruct Ha as (_ & Hch & (junk & Hj & Hb') & Hf). cbv zeta.
  destruct (buffer_ok_split _ _ Hb') as [rest ->].
  rewrite <- !app_assoc, drop_Zlen_app, take_Zlen_app. split_and!; [|done|].
  - rewrite <- app_assoc in Hb'.
    exists (take (Z.to_nat extra) (c ++ junk)).
    assert (Zlen (take (Z.to_nat extra) (c ++ junk)) = extra) as Hy.
    { apply Zlen_take. rewrite Zlen_app. pose proof (Zlen_nonneg c). lia. }
    split; [done|]. rewrite app_assoc. rewrite <- (app_nil_r c) at 3.
    eapply (poke_ok s' (pre ++ take (Z.to_nat extra) (c ++ junk)) (drop (Z.to_nat extra) (c ++ junk)) []).
    + rewrite app_nil_r, <- app_assoc, take_drop. done.
    + rewrite Zlen_app, Hy. done.
    + rewrite length_drop, length_app. unfold Zlen in *. lia.
  - intros sz Hs Hsz. specialize (Hf sz Hs Hsz). exact Hf.
Qed.

(** The room for [nb] more length octets, made only for a long length. *)
Lemma prefix_room_ok (s : CBB) pre c nb :
  buffer_ok (base s) (pre ++ [0] ++ c) -> (nb <= 4)%nat ->
  exists (o : option unit) s1,
    (if negb (Z.of_nat nb + 1 =? 1) then
       (_ <-- cbb_buffer_add (Z.of_nat nb + 1 - 1) ;;
        fun s => let content := take (Z.to_nat (Zlen c)) (drop (Z.to_nat (Zlen pre + 1)) (buf_bytes (base s))) in
          (Some tt, poke (Zlen pre + 1 + (Z.of_nat nb + 1 - 1)) content s))
     else st_ret tt) s = (o, s1) /\
    match o with
    | Some _ => (exists y, Zlen y = Z.of_nat nb /\ buffer_ok (base s1) (pre ++ [0] ++ y ++ c)) /\
        chain s1 = chain s /\
        (forall sz, fits s sz -> Zlen (pre ++ [0] ++ c) + Z.of_nat nb <= sz -> fits s1 sz)
    | None => ~ fits s (Zlen (pre ++ [0] ++ c) + Z.of_nat nb)
    end.
Proof.
  intros Hb Hnb. destruct (Z.eqb_spec (Z.of_nat nb + 1) 1) as [E|E]; cbn [negb].
  - exists (Some tt), s. split; [done|]. split_and!; [|done|done].
    exists []. split; [by assert (nb = 0%nat) as -> by lia|]. done.
  - rewrite Z.add_simpl_r. rewrite app_assoc in Hb.
    pose proof (make_room_ok s (pre ++ [0]) c (Zlen pre + 1) (Z.of_nat nb) Hb) as Hm.
    rewrite Zlen_snoc in Hm. specialize (Hm eq_refl ltac:(lia)).
    match type of Hm with match ?x with _ => _ end => destruct x as [o s1] eqn:Er end.
    exists o, s1. split; [done|]. rewrite <- !app_assoc in Hm.
    destruct o; [|exact Hm]. destruct Hm as ((y & Hy & Hby) & ? & ?). split_and!; [|done|done].
    exists y. split; [done|]. by rewrite <- app_assoc in Hby.
Qed.

(** The initial octet [b0] and the [nb] octets of [v] that make a DER length. *)
Lemma der_len_parts n : 0 <= n < 2 ^ 32 -> exists nb v b0,
  (nb = 0%nat /\ v = 0 \/ (1 <= nb <= 4)%nat /\ v = n) /\ 0 <= v < 256 ^ Z.of_nat nb /\
  (if n <? 128 then (1, n) else (Z.of_nat (len_octets n) + 1, 128 + Z.of_nat (len_octets n))) = (Z.of_nat nb + 1, b0) /\
  der_len n = [b0] ++ be_bytes nb v.
Proof.
  intros Hn. destruct (len_octets_spec n Hn) as (? & ? & _). unfold der_len. destruct (Z.ltb_spec n 128).
  - exists 0%nat, 0, n. split_and!; [by left|lia..|done|done].
  - exists (len_octets n), n, (128 + Z.of_nat (len_octets n)). split_and!; [by right|lia..|done|done].
Qed.

(** The DER prefix of a finished child. *)
Lemma write_asn1_prefix_ok (s : CBB) pre c nb v b0 :
  buffer_ok (base s) (pre ++ [0] ++ c) -> (nb <= 4)%nat -> 0 <= v < 256 ^ Z.of_nat nb ->
  buf_outcome s (Some (pre ++ [b0] ++ be_bytes nb v ++ c))
    (((if negb (Z.of_nat nb + 1 =? 1) then
         (_ <-- cbb_buffer_add (Z.of_nat nb + 1 - 1) ;;
          fun s => let content := take (Z.to_nat (Zlen c)) (drop (Z.to_nat (Zlen pre + 1)) (buf_bytes (base s))) in
            (Some tt, poke (Zlen pre + 1 + (Z.of_nat nb + 1 - 1)) content s))
       else st_ret tt) ;;;
      (fun s => (Some tt, poke (Zlen pre) [b0] s)) ;;;
      cbb_write_len (Zlen pre + 1) (Z.of_nat nb + 1 - 1) v) s).
Proof.
  intros Hb Hnb Hv. destruct (prefix_room_ok s pre c nb Hb Hnb) as (o & s1 & Hrun & Hroom).
  assert (Zlen (pre ++ [b0] ++ be_bytes nb v ++ c) = Zlen (pre ++ [0] ++ c) + Z.of_nat nb) as Hsize.
  { rewrite !Zlen_app, Zlen_be_bytes. change (Zlen [b0]) with (Zlen [0]). lia. }
  destruct o as [u|].
  2: { rewrite (st_bind_none _ _ _ _ Hrun). intros ? [= <-]. cbn [app] in Hsize. by rewrite Hsize. }
  rewrite (st_bind_some _ _ _ _ _ Hrun). destruct Hroom as ((y & Hy & Hb1) & Hch & Hf).
  rewrite (st_bind_some _ _ _ tt (poke (Zlen pre) [b0] s1)) by done.
  assert (buffer_ok (base (poke (Zlen pre) [b0] s1)) ((pre ++ [b0]) ++ y ++ c)) as Hb2.
  { rewrite <- app_assoc. eapply poke_ok; [exact Hb1|done|done]. }
  pose proof (write_len_ok _ (pre ++ [b0]) y c nb v Hb2 Hy ltac:(lia)) as Hw.
  rewrite Zlen_snoc in Hw. rewrite Z.add_simpl_r.
  destruct (Z.ltb_spec v (256 ^ Z.of_nat nb)) as [_|]; [|lia].
  unfold buf_outcome in *. destruct (cbb_write_len _ _ _ _) as [[u'|] s2].
  - destruct Hw as (c2 & [= <-] & Hb3 & Hch3 & Hf3). eexists. split; [done|].
    rewrite <- app_assoc in Hb3, Hf3. split_and!; [done|by rewrite Hch3|].
    intros sz Hs Hsz. apply Hf3; [|done]. apply (Hf sz Hs). cbn [app] in *. lia.
  - intros ? [= <-] Hs. apply (Hw _ eq_refl). rewrite <- app_assoc. apply (Hf _ Hs).
    cbn [app] in *. lia.
Qed.

Lemma write_prefix_ok (s : CBB) pre k c :
  buffer_ok (base s) (pre ++ replicate (prefix_len k) 0 ++ c) ->
  buf_outcome s (match encode k c with Some e => Some (pre ++ e) | None => None end)
    (cbb_write_prefix (CbbChild (Zlen pre) (Z.of_nat (prefix_len k)) (prefix_asn1 k)) s).
Proof.
  intros Hb. pose proof (buffer_ok_cap _ _ Hb) as Hcap. pose proof Hb as [Hlen _ _ Hmax _].
  rewrite !Zlen_app, Zlen_replicate_nat in *. pose proof (Zlen_nonneg pre). pose proof (Zlen_nonneg c) as Hc.
  unfold cbb_write_prefix. cbn [offset pending_len_len pending_is_asn1].
  rewrite u64_small by lia. rewrite Hlen.
  replace (Zlen pre + (Z.of_nat (prefix_len k) + Zlen c) - (Zlen pre + Z.of_nat (prefix_len k)))
    with (Zlen c) by lia.
  destruct k as [n|]; cbn [prefix_asn1 prefix_len encode] in *.
  { pose proof (write_len_ok s pre _ c n (Zlen c) Hb) as Hw.
    rewrite Zlen_replicate_nat in Hw.
    specialize (Hw eq_refl Hc). by destruct (Zlen c <? 256 ^ Z.of_nat n). }
  change (Z.of_nat 1) with 1. rewrite asn1_len_len_eq by done. destruct (Z.leb_spec (Zlen c) 0xfffffffe); [|done].
  destruct (der_len_parts (Zlen c)) as (nb & v & b0 & Hnb & Hv & -> & ->); [lia|].
  replace (if Z.of_nat nb + 1 =? 1 then 0 else Zlen c) with v.
  2: { destruct Hnb as [[-> ->]|[? ->]]; [done|]. destruct (Z.eqb_spec (Z.of_nat nb + 1) 1); [lia|done]. }
  rewrite <- app_assoc. apply write_asn1_prefix_ok; [done|lia|done].
Qed.

(** * Lemmas: flushing *)

Lemma Zlen_encode k c e : encode k c = Some e -> Z.of_nat (prefix_len k) + Zlen c <= Zlen e.
Proof.
  unfold encode. destruct k as [n|]; simpl.
  - destruct (_ <? _); intros; simplify_eq. rewrite Zlen_app, Zlen_be_bytes. lia.
  - destruct (_ <=? _); intros; simplify_eq. rewrite Zlen_app. unfold der_len.
    destruct (_ <? _); rewrite Zlen_cons; pose proof (Zlen_nonneg (be_bytes (len_octets (Zlen c)) (Zlen c)));
      change (Zlen (@nil Z)) with 0; lia.
Qed.

Lemma Zlen_close c kids b : close c kids = Some b -> Zlen (flatten c kids) <= Zlen b.
Proof.
  revert c b. induction kids as [|[k c'] kids IH]; intros c b; simpl; [intros; simplify_eq; lia|].
  destruct (close c' kids) as [b'|] eqn:E; [|done].
  destruct (encode k b') as [e|] eqn:Ee; [|done]. intros; simplify_eq.
  apply IH in E. apply Zlen_encode in Ee. rewrite !Zlen_app, Zlen_replicate_nat. lia.
Qed.

Lemma flush_kids_ok kids : forall (s : CBB) pre c,
  buffer_ok (base s) (pre ++ flatten c kids) ->
  let r := cbb_flush_kids (chain_of (Zlen pre) c kids) s in
  buf_outcome s (match close c kids with Some b => Some (pre ++ b) | None => None end) r /\
  (r.1 = None -> error (base r.2) = true).
Proof.
  induction kids as [|[k c'] kids IH]; intros s pre c Hb; pose proof (bo_error _ _ Hb) as He; cbv zeta.
  { simpl. rewrite He. split; [|done]. by exists (pre ++ c). }
  cbn [chain_of cbb_flush_kids]. rewrite He. cbn [offset pending_len_len].
  cbn [flatten close] in *. pose proof (buffer_ok_cap _ _ Hb) as Hcap.
  pose proof Hb as [_ _ _ Hmax _]. rewrite !Zlen_app, Zlen_replicate_nat in Hcap.
  pose proof (Zlen_nonneg pre). pose proof (Zlen_nonneg c).
  pose proof (Zlen_nonneg (flatten c' kids)) as Hfl.
  rewrite u64_small by lia.
  specialize (IH s (pre ++ c ++ replicate (prefix_len k) 0) c').
  rewrite !Zlen_app, Zlen_replicate_nat in IH. rewrite <- !app_assoc, Z.add_assoc in IH.
  specialize (IH Hb). cbv zeta in IH. destruct IH as [IH _].
  set (kc := chain_of (Zlen pre + Zlen c + Z.of_nat (prefix_len k)) c' kids) in *.
  match goal with |- buf_outcome _ _ (match ?m with _ => _ end) /\ _ =>
    assert (buf_outcome s (match close c' kids with
      | Some b => match encode k b with Some e => Some (pre ++ c ++ e) | None => None end
      | None => None end) m) as Hm end.
  { destruct (cbb_flush_kids kc s) as [[u|] s1] eqn:E.
    2: { rewrite (st_bind_none _ _ _ _ E). destruct (close c' kids) as [b|]; [|done].
         destruct (encode k b) as [e|] eqn:Ee; [|done]. intros ? [= <-] Hf.
         apply (IH _ eq_refl). eapply fits_mono; [exact Hf|].
         apply Zlen_encode in Ee. rewrite !Zlen_app, Zlen_replicate_nat. lia. }
    rewrite (st_bind_some _ _ _ _ _ E). destruct IH as (b' & Hb' & Hok & Hch & Hf).
    destruct (close c' kids) as [b|]; [|done]. simplify_eq. rewrite <- !app_assoc in Hok, Hf.
    rewrite (st_bind_some _ _ _ tt s1).
    2: { unfold st_guard. rewrite (bo_len _ _ Hok), !Zlen_app, Zlen_replicate_nat.
         pose proof (Zlen_nonneg b). destruct (Z.ltb_spec (Zlen pre + Zlen c + Z.of_nat (prefix_len k)) (Zlen pre + Zlen c)); [lia|].
         destruct (Z.ltb_spec (Zlen pre + (Zlen c + (Z.of_nat (prefix_len k) + Zlen b)))
           (Zlen pre + Zlen c + Z.of_nat (prefix_len k))); [lia|done]. }
    pose proof (write_prefix_ok s1 (pre ++ c) k b) as Hw. rewrite Zlen_app, <- !app_assoc in Hw.
    specialize (Hw Hok). unfold buf_outcome in *. destruct (cbb_write_prefix _ s1) as [[u'|] s2].
    - destruct Hw as (b2 & Hb2 & Hok2 & Hch2 & Hf2). destruct (encode k b) as [e|] eqn:Ee; [|done].
      simplify_eq. rewrite <- app_assoc in *. eexists. split; [done|]. split_and!; [done|congruence|].
      intros sz Hs Hsz. apply Hf2; [|done]. apply Hf; [done|]. apply Zlen_encode in Ee.
      rewrite !Zlen_app in *. rewrite Zlen_replicate_nat. lia.
    - destruct (encode k b) as [e|] eqn:Ee; [|done]. intros ? [= <-] Hs.
      apply (Hw _ eq_refl). rewrite <- app_assoc. apply Hf; [done|]. apply Zlen_encode in Ee.
      rewrite !Zlen_app, Zlen_replicate_nat in *. lia. }
  match type of Hm with buf_outcome _ _ ?r => destruct r as [[u|] s'] end.
  - split; [|done]. destruct (close c' kids) as [b|]; [|done]. by destruct (encode k b).
  - split; [|done]. destruct (close c' kids) as [b|]; [|done]. by destruct (encode k b).
Qed.

Lemma chain_of_length off c kids : length (chain_of off c kids) = length kids.
Proof. revert off c. induction kids as [|[k c'] kids IH]; intros; simpl; auto. Qed.

(** Flushing at depth [d] splits the message there: what is outside stays. *)
Lemma flush_at_ok d : forall kids (s : CBB) pre c,
  (d <= length kids)%nat -> buffer_ok (base s) (pre ++ flatten c kids) ->
  let r := cbb_flush_kids (drop d (chain_of (Zlen pre) c kids)) s in
  match r with
  | (Some _, s') => exists a', close_at d c kids = Some a' /\
      buffer_ok (base s') (pre ++ flatten a'.1 a'.2) /\ chain s' = chain s /\
      chain_of (Zlen pre) a'.1 a'.2 = take d (chain_of (Zlen pre) c kids) /\
      length a'.2 = d /\ Zlen (flatten c kids) <= msg_size a' /\
      forall sz, fits s sz -> Zlen pre + msg_size a' <= sz -> fits s' sz
  | (None, s') => error (base s') = true /\
      forall a', close_at d c kids = Some a' -> ~ fits s (Zlen pre + msg_size a')
  end.
Proof.
  induction d as [|d IH]; intros kids s pre c Hd Hb; cbv zeta.
  - rewrite drop_0. destruct (flush_kids_ok kids s pre c Hb) as [Ho He]. cbv zeta in *.
    destruct (cbb_flush_kids _ s) as [[u|] s']; unfold buf_outcome in Ho; simpl in *.
    + destruct Ho as (b & Hb' & Hok & Hch & Hf). destruct (close c kids) as [b'|] eqn:Ec; [|done].
      simplify_eq. exists (b', []). apply Zlen_close in Ec. unfold msg_size. simpl.
      rewrite Zlen_app in Hf. by split_and!.
    + split; [auto|]. destruct (close c kids) as [b'|]; [|done]. intros ? [= <-].
      unfold msg_size. simpl. rewrite <- Zlen_app. by apply Ho.
  - destruct kids as [|[k c'] kids]; [simpl in Hd; lia|]. simpl in Hd. cbn [flatten chain_of drop] in *.
    specialize (IH kids s (pre ++ c ++ replicate (prefix_len k) 0) c' ltac:(lia)).
    rewrite <- !app_assoc in IH. specialize (IH Hb). cbv zeta in IH.
    rewrite !Zlen_app, Zlen_replicate_nat, Z.add_assoc in IH. cbn [close_at].
    destruct (cbb_flush_kids _ s) as [[u|] s'].
    + destruct IH as ([c2 k2] & -> & Hok & Hch & Hco & Hl & Hsz & Hf). simpl in *.
      exists (c, (k, c2) :: k2). unfold msg_size in *. simpl in *. rewrite <- !app_assoc in Hok.
      rewrite !Zlen_app, Zlen_replicate_nat.
      split_and!; [done|done|done|by rewrite Hco|lia|lia|].
      intros sz Hs Hle. apply Hf; [done|lia].
    + destruct IH as [He IH]. split; [done|]. intros a'.
      destruct (close_at d c' kids) as [[c2 k2]|]; [|done]. intros [= <-].
      specialize (IH _ eq_refl). unfold msg_size in *. simpl in *.
      rewrite !Zlen_app, Zlen_replicate_nat. intros Hs. apply IH.
      eapply fits_mono; [exact Hs|lia].
Qed.

Lemma rep_length (s : CBB) a : rep s a -> length (chain s) = length a.2.
Proof. intros [_ ->]. apply chain_of_length. Qed.

Lemma flush_ok d (s : CBB) a :
  rep s a -> (d <= length a.2)%nat ->
  match CBB_flush d s with
  | (Some _, s') => exists a', sp_flush d a = Some a' /\ rep s' a' /\ length a'.2 = d /\
      msg_size a <= msg_size a' /\ forall sz, fits s sz -> msg_size a' <= sz -> fits s' sz
  | (None, s') => error (base s') = true /\
      forall a', sp_flush d a = Some a' -> ~ fits s (msg_size a')
  end.
Proof.
  intros Hrep Hd. pose proof (rep_length _ _ Hrep) as Hl. destruct Hrep as [Hb Hch].
  unfold CBB_flush. rewrite Hl. destruct (Nat.ltb_spec (length a.2) d); [lia|].
  rewrite (bo_error _ _ Hb). pose proof (flush_at_ok d a.2 s [] a.1 Hd Hb) as Hf. cbv zeta in Hf.
  change (Zlen []) with 0 in Hf. rewrite <- Hch in Hf.
  destruct (cbb_flush_kids _ s) as [[u|] s'].
  - destruct Hf as (a' & Ha' & Hok & Hch' & Hco & Hla & Hsz & Hf). exists a'.
    split_and!; [done| |done|done|done]. by split.
  - exact Hf.
Qed.

(** * Lemmas: composing calls *)

Lemma st_bind_assoc {A B C} (m : ST CBB A) (k : A -> ST CBB B) (f : B -> ST CBB C) s :
  st_bind (st_bind m k) f s = st_bind m (fun x => st_bind (k x) f) s.
Proof. unfold st_bind. by destruct (m s) as [[x|] s']. Qed.

Lemma outcome_bind {A B} (m : ST CBB A) (k : A -> ST CBB B) s sp (f : msg -> option msg) :
  outcome s sp (m s) ->
  (forall x s' a', sp = Some a' -> rep s' a' -> outcome s' (f a') (k x s')) ->
  (forall a' a'', sp = Some a' -> f a' = Some a'' -> msg_size a' <= msg_size a'') ->
  outcome s (sp ≫= f) (st_bind m k s).
Proof.
  intros Hm Hk Hsz. unfold st_bind. destruct (m s) as [[x|] s'].
  - destruct Hm as (a' & Ha' & Hrep & Hf). specialize (Hk x s' a' Ha' Hrep).
    rewrite Ha'. simpl. unfold outcome in *. destruct (k x s') as [[y|] s''].
    + destruct Hk as (a'' & Ha'' & Hrep' & Hf'). exists a''. split_and!; [done|done|].
      intros sz Hs Hle. apply Hf'; [|done]. apply Hf; [done|]. specialize (Hsz _ _ Ha' Ha''). lia.
    + destruct Hk as [He Hk]. split; [done|]. intros a'' Ha'' Hs. apply (Hk _ Ha'').
      apply Hf; [done|]. by apply Hsz.
  - destruct Hm as [He Hm]. split; [done|]. intros a'' Ha''. destruct sp as [a'|]; [|done].
    simpl in Ha''. intros Hs. apply (Hm _ eq_refl). eapply fits_mono; [exact Hs|by apply Hsz].
Qed.

Lemma close_at_length d : forall c kids a, close_at d c kids = Some a -> length a.2 = d.
Proof.
  induction d as [|d IH]; intros c kids a; simpl.
  - destruct (close c kids); [|done]. by intros [= <-].
  - destruct kids as [|[k c'] kids]; [done|]. destruct (close_at d c' kids) as [[c2 k2]|] eqn:E; [|done].
    intros [= <-]. simpl. f_equal. by apply (IH _ _ _ E).
Qed.

Lemma close_at_all c kids : close_at (length kids) c kids = Some (c, kids).
Proof. revert c. induction kids as [|[k c'] kids IH]; intros c; simpl; [done|]. by rewrite IH. Qed.

Lemma sp_flush_flushed d a : length a.2 = d -> sp_flush d a = Some a.
Proof. intros <-. unfold sp_flush. rewrite close_at_all. by destruct a. Qed.

Lemma close_at_size d : forall c kids a,
  close_at d c kids = Some a -> Zlen (flatten c kids) <= msg_size a.
Proof.
  induction d as [|d IH]; intros c kids a; simpl.
  - destruct (close c kids) as [b|] eqn:E; [|done]. intros [= <-]. by apply Zlen_close in E.
  - destruct kids as [|[k c'] kids]; [done|]. destruct (close_at d c' kids) as [[c2 k2]|] eqn:E; [|done].
    intros [= <-]. apply IH in E. unfold msg_size in *. simpl in *. rewrite !Zlen_app. lia.
Qed.

Lemma sp_flush_size d a a' : sp_flush d a = Some a' -> msg_size a <= msg_size a'.
Proof. apply close_at_size. Qed.

Lemma append_in_spec data kids : forall off c,
  let a := append_in data c kids in
  flatten a.1 a.2 = flatten c kids ++ data /\ chain_of off a.1 a.2 = chain_of off c kids /\
  length a.2 = length kids.
Proof.
  induction kids as [|[k c'] kids IH]; intros off c; simpl; [done|].
  specialize (IH (off + Zlen c + Z.of_nat (prefix_len k)) c'). cbv zeta in IH.
  destruct (append_in data c' kids) as [c2 k2]. simpl in *. destruct IH as (-> & -> & ->).
  by rewrite <- !app_assoc.
Qed.

Lemma append_in_app x y kids : forall c,
  sp_append y (append_in x c kids) = append_in (x ++ y) c kids.
Proof.
  induction kids as [|[k c'] kids IH]; intros c; unfold sp_append in *; simpl; [by rewrite app_assoc|].
  specialize (IH c'). destruct (append_in x c' kids) as [c2 k2]. simpl in *. rewrite IH.
  by destruct (append_in (x ++ y) c' kids).
Qed.

Lemma sp_append_app x y a : sp_append y (sp_append x a) = sp_append (x ++ y) a.
Proof. apply append_in_app. Qed.

Lemma sp_append_nil a : sp_append [] a = a.
Proof.
  destruct a as [c kids]. unfold sp_append. simpl. revert c.
  induction kids as [|[k c'] kids IH]; intros c; simpl; [by rewrite app_nil_r|]. by rewrite IH.
Qed.

Lemma sp_append_length data a : length (sp_append data a).2 = length a.2.
Proof. apply (append_in_spec data a.2 0 a.1). Qed.

Lemma sp_append_size data a : msg_size (sp_append data a) = msg_size a + Zlen data.
Proof.
  unfold msg_size, sp_append. destruct (append_in_spec data a.2 0 a.1) as (-> & _ & _).
  apply Zlen_app.
Qed.

Lemma sp_append_size_le data a : msg_size a <= msg_size (sp_append data a).
Proof. rewrite sp_append_size. pose proof (Zlen_nonneg data). lia. Qed.

Lemma sp_write_flushed d data a : length a.2 = d -> sp_write d data a = Some (sp_append data a).
Proof. intros Hl. unfold sp_write. by rewrite (sp_flush_flushed d a Hl). Qed.

Lemma sp_write_length d data a a' : sp_write d data a = Some a' -> length a'.2 = d.
Proof.
  unfold sp_write. destruct (sp_flush d a) as [b|] eqn:E; [|done]. intros [= <-].
  rewrite sp_append_length. by apply (close_at_length _ _ _ _ E).
Qed.

Lemma sp_write_write d x y a : sp_write d x a ≫= sp_write d y = sp_write d (x ++ y) a.
Proof.
  change (sp_write d x a) with (sp_append x <$> sp_flush d a).
  change (sp_write d (x ++ y) a) with (sp_append (x ++ y) <$> sp_flush d a). destruct (sp_flush d a) as [b|] eqn:E; [|done]. simpl.
  rewrite sp_write_flushed, sp_append_app; [done|].
  rewrite sp_append_length. by apply (close_at_length _ _ _ _ E).
Qed.

Lemma sp_write_size d data a a' : sp_write d data a = Some a' -> msg_size a <= msg_size a'.
Proof.
  unfold sp_write. destruct (sp_flush d a) as [b|] eqn:E; [|done]. intros [= <-].
  rewrite sp_append_size. apply sp_flush_size in E. pose proof (Zlen_nonneg data). lia.
Qed.

Lemma open_spec kids k : forall off c,
  flatten c (kids ++ [(k, [])]) = flatten c kids ++ replicate (prefix_len k) 0 /\
  chain_of off c (kids ++ [(k, [])]) =
    chain_of off c kids ++
      [CbbChild (off + Zlen (flatten c kids)) (Z.of_nat (prefix_len k)) (prefix_asn1 k)].
Proof.
  induction kids as [|[k' c'] kids IH]; intros off c; simpl; [by rewrite app_nil_r|].
  destruct (IH (off + Zlen c + Z.of_nat (prefix_len k')) c') as [-> ->].
  rewrite !Zlen_app, Zlen_replicate_nat, <- !app_assoc. split; [done|]. do 4 f_equal. lia.
Qed.

Lemma sp_open_size k a : msg_size (sp_open k a) = msg_size a + Z.of_nat (prefix_len k).
Proof.
  unfold msg_size, sp_open. simpl. destruct (open_spec a.2 k 0 a.1) as [-> _].
  by rewrite Zlen_app, Zlen_replicate_nat.
Qed.

(** * Lemmas: the writing calls *)

Lemma append_ok (s : CBB) a data :
  rep s a -> Zlen data <= SIZE_MAX ->
  outcome s (Some (sp_append data a))
    ((out <-- cbb_buffer_add (Zlen data) ;; fun s => (Some tt, poke out data s)) s).
Proof.
  intros [Hb Hch] Hd. pose proof (add_ok (Zlen data) s _ Hb ltac:(pose proof (Zlen_nonneg data); lia)) as Ha.
  unfold st_bind. destruct (cbb_buffer_add _ s) as [[off|] s']; unfold outcome.
  - destruct Ha as (-> & Hch' & (junk & Hj & Hok) & Hf). eexists. split; [done|].
    destruct (append_in_spec data a.2 0 a.1) as (Hfl & Hco & _). split; [split|].
    + unfold sp_append. rewrite Hfl. rewrite <- (app_nil_r (_ ++ data)), <- app_assoc.
      apply (poke_ok s' (flatten a.1 a.2) junk []); [by rewrite app_nil_r|done|].
      unfold Zlen in Hj. lia.
    + unfold sp_append. rewrite Hco. simpl. congruence.
    + intros sz Hs Hle. rewrite sp_append_size in Hle. exact (Hf sz Hs Hle).
  - destruct Ha as (He & _ & Hf). split; [done|]. intros ? [= <-]. by rewrite sp_append_size.
Qed.

Lemma flush_outcome d (s : CBB) a :
  rep s a -> (d <= length a.2)%nat -> outcome s (sp_flush d a) (CBB_flush d s).
Proof.
  intros Hrep Hd. pose proof (flush_ok d s a Hrep Hd) as Hf. unfold outcome.
  destruct (CBB_flush d s) as [[u|] s']; [|done].
  destruct Hf as (a' & ? & ? & _ & _ & ?). eauto.
Qed.

Lemma option_fmap_bind {A B} (f : A -> B) (o : option A) : f <$> o = o ≫= (fun x => Some (f x)).
Proof. by destruct o. Qed.

Lemma add_bytes_ok d (s : CBB) a data :
  rep s a -> (d <= length a.2)%nat -> Zlen data <= SIZE_MAX ->
  outcome s (sp_write d data a) (CBB_add_bytes d data s).
Proof.
  intros Hrep Hd Hl. unfold CBB_add_bytes, CBB_add_space, sp_write. rewrite st_bind_assoc, option_fmap_bind.
  apply outcome_bind; [by apply flush_outcome|intros; by apply append_ok|].
  intros a' a'' _ [= <-]. apply sp_append_size_le.
Qed.

Lemma add_u_ok d (s : CBB) a v n :
  rep s a -> (d <= length a.2)%nat -> 0 <= v -> (n <= 8)%nat ->
  outcome s (if v <? 256 ^ Z.of_nat n then sp_write d (be_bytes n v) a else None) (cbb_add_u d v n s).
Proof.
  intros Hrep Hd Hv Hn. assert (Zlen (be_bytes n v) <= SIZE_MAX) as Hl
    by (rewrite Zlen_be_bytes; unfold SIZE_MAX; lia).
  pose proof (add_bytes_ok d s a (be_bytes n v) Hrep Hd Hl) as Ho.
  unfold CBB_add_bytes in Ho. unfold cbb_add_u. rewrite Zlen_be_bytes in Ho.
  rewrite store_be_eq, app_nil_r by done. destruct (CBB_add_space d (Z.of_nat n) s) as [[out|] s'] eqn:E.
  - rewrite (st_bind_some _ _ _ _ _ E) in Ho. rewrite (st_bind_some _ _ _ _ _ E).
    rewrite (st_bind_some _ _ _ tt (poke out (be_bytes n v) s')) by done.
    destruct (Z.ltb_spec v (256 ^ Z.of_nat n)).
    + rewrite Z.div_small by lia. exact Ho.
    + assert (v / 256 ^ Z.of_nat n <> 0) as Hdv.
      { assert (0 < 256 ^ Z.of_nat n) by (apply Z.pow_pos_nonneg; lia).
        intros Ez. apply Z.div_small_iff in Ez; lia. }
      destruct (Z.eqb_spec (v / 256 ^ Z.of_nat n) 0); [done|]. simpl. done.
  - rewrite (st_bind_none _ _ _ _ E) in Ho. rewrite (st_bind_none _ _ _ _ E).
    destruct (v <? _); [exact Ho|]. by destruct Ho.
Qed.

Lemma add_child_ok d (s : CBB) a k :
  rep s a -> length a.2 = d -> (prefix_len k <= 255)%nat ->
  outcome s (Some (sp_open k a)) (cbb_add_child d (Z.of_nat (prefix_len k)) (prefix_asn1 k) s).
Proof.
  intros [Hb Hch] Hd Hk. unfold cbb_add_child.
  rewrite Nat2Z.id.
  pose proof (add_ok (Z.of_nat (prefix_len k)) s _ Hb ltac:(unfold SIZE_MAX; lia)) as Hadd.
  destruct (open_spec a.2 k 0 a.1) as [Hof Hoc].
  unfold st_bind. destruct (cbb_buffer_add _ s) as [[off|] s']; unfold outcome.
  - destruct Hadd as (-> & Hch' & (junk & Hj & Hok) & Hf). eexists. split; [done|]. split; [split|].
    + unfold sp_open. simpl. rewrite Hof. rewrite <- (app_nil_r (_ ++ replicate _ _)), <- app_assoc.
      apply (poke_ok s' (flatten a.1 a.2) junk []); [by rewrite app_nil_r|done|].
      rewrite length_replicate. unfold Zlen in Hj. lia.
    + unfold sp_open. simpl. rewrite Hoc, Hch', Hch, (bo_len _ _ Hb), take_ge; [done|].
      rewrite chain_of_length. lia.
    + intros sz Hs Hle. rewrite sp_open_size in Hle. exact (Hf sz Hs Hle).
  - destruct Hadd as (He & _ & Hf). split; [done|]. intros ? [= <-]. by rewrite sp_open_size.
Qed.

Lemma add_u8_ok d (s : CBB) a b :
  rep s a -> length a.2 = d -> is_byte b ->
  outcome s (Some (sp_append [b] a)) (CBB_add_u8 d b s).
Proof.
  intros Hrep Hd Hb. unfold is_byte in Hb.
  pose proof (add_u_ok d s a b 1 Hrep ltac:(lia) ltac:(lia) ltac:(lia)) as Ho.
  change (256 ^ Z.of_nat 1) with 256 in Ho. destruct (Z.ltb_spec b 256); [|lia].
  rewrite sp_write_flushed in Ho by done. unfold CBB_add_u8.
  assert (be_bytes 1 b = [b]) as E; [|by rewrite E in Ho].
  rewrite be_bytes_S, Z.mod_small by lia. done.
Qed.

(** * Lemmas: base 128 *)

Lemma base128_len_loop_spec fuel copy k :
  0 <= copy < 128 ^ Z.of_nat fuel ->
  exists m, base128_len_loop fuel copy k = (k + m)%nat /\ copy < 128 ^ Z.of_nat m /\ (m <= fuel)%nat /\
    (m = 0%nat \/ 128 ^ (Z.of_nat m - 1) <= copy).
Proof.
  revert copy k. induction fuel as [|fuel IH]; intros copy k Hc.
  - exists 0%nat. simpl in *. split_and!; [lia|lia|lia|by left].
  - cbn [base128_len_loop]. destruct (copy >? 0) eqn:E.
    + rewrite Nat2Z.inj_succ, Z.pow_succ_r in Hc by lia.
      rewrite Z.shiftr_div_pow2 by lia. change (2 ^ 7) with 128.
      destruct (IH (copy / 128) (S k)) as (m & Hm & Hlt & Hle & Hge).
      { split; [apply Z.div_pos; lia|apply Z.div_lt_upper_bound; lia]. }
      exists (S m). rewrite Hm, Nat2Z.inj_succ, Z.pow_succ_r by lia.
      pose proof (Z.div_mod copy 128 ltac:(lia)). pose proof (Z.mod_pos_bound copy 128 ltac:(lia)).
      split_and!; [lia|lia|lia|right]. replace (Z.succ (Z.of_nat m) - 1) with (Z.of_nat m) by lia.
      destruct Hge as [->|Hge]; [simpl; lia|].
      replace (Z.of_nat m) with (1 + (Z.of_nat m - 1)) by lia.
      destruct (decide (m = 0%nat)) as [->|]; [simpl; lia|].
      rewrite Z.pow_add_r by lia. change (128 ^ 1) with 128. lia.
    + exists 0%nat. change (128 ^ Z.of_nat 0) with 1. split_and!; [lia|lia|lia|by left].
Qed.

(** The digits [i = n - 1, ..., 0] of [w], all with the high bit. *)
Fixpoint hi_digits (w : Z) (n : nat) : bytes :=
  match n with
  | O => []
  | S i => 128 + (w / 128 ^ Z.of_nat i) mod 128 :: hi_digits w i
  end.

Lemma hi_digits_step w n : hi_digits w (S n) = hi_digits (w / 128) n ++ [128 + w mod 128].
Proof.
  induction n as [|n IH].
  - simpl. change (128 ^ Z.of_nat 0) with 1. by rewrite Z.div_1_r.
  - cbn [hi_digits app] in *. rewrite <- IH, Nat2Z.inj_succ, Z.pow_succ_r, Z.div_div by lia. done.
Qed.

Lemma hi_digits_prefix w n :
  0 <= w < 128 ^ Z.of_nat n -> (n = 0%nat \/ 128 ^ (Z.of_nat n - 1) <= w) ->
  hi_digits w n = b128_prefix w.
Proof.
  revert w. induction n as [|n IH]; intros w Hw Hge.
  - change (128 ^ Z.of_nat 0) with 1 in Hw. by assert (w = 0) as -> by lia.
  - destruct Hge as [|Hge]; [done|]. rewrite Nat2Z.inj_succ, Z.pow_succ_r in Hw by lia.
    replace (Z.of_nat (S n) - 1) with (Z.of_nat n) in Hge by lia.
    assert (0 < 128 ^ Z.of_nat n) by (apply Z.pow_pos_nonneg; lia).
    rewrite hi_digits_step, b128_prefix_step by lia. f_equal. apply IH.
    + split; [apply Z.div_pos; lia|apply Z.div_lt_upper_bound; lia].
    + destruct n as [|n]; [by left|right]. rewrite Nat2Z.inj_succ, Z.pow_succ_r in Hge by lia.
      replace (Z.of_nat (S n) - 1) with (Z.of_nat n) by lia. apply Z.div_le_lower_bound; lia.
Qed.

Lemma digit_byte v i :
  0 <= v ->
  u8 (Z.land (Z.shiftr v (7 * Z.of_nat i)) 0x7f) = (v / 128 ^ Z.of_nat i) mod 128 /\
  Z.lor ((v / 128 ^ Z.of_nat i) mod 128) 0x80 = 128 + (v / 128 ^ Z.of_nat i) mod 128.
Proof.
  intros Hv. rewrite Z.shiftr_div_pow2, Z.pow_mul_r by lia. change (2 ^ 7) with 128.
  change 0x7f with (2 ^ 7 - 1). rewrite land_mask by lia. change (2 ^ 7) with 128. unfold u8.
  pose proof (Z.mod_pos_bound (v / 128 ^ Z.of_nat i) 128 ltac:(lia)). split; [apply Z.mod_small; lia|].
  rewrite Z.lor_comm. rewrite (lor_add_disjoint 1 _ 7) by lia. lia.
Qed.

Lemma add_base128_loop_ok d n : forall (s : CBB) a v,
  rep s a -> length a.2 = d -> 0 <= v ->
  outcome s (Some (sp_append (hi_digits (v / 128) n ++ [v mod 128]) a)) (add_base128_loop d v (S n) s).
Proof.
  induction n as [|n IH]; intros s a v Hrep Hd Hv.
  - cbn [add_base128_loop hi_digits app]. destruct (digit_byte v 0 Hv) as [-> _]. cbn [Nat.eqb negb].
    change (128 ^ Z.of_nat 0) with 1. rewrite Z.div_1_r.
    pose proof (Z.mod_pos_bound v 128 ltac:(lia)).
    pose proof (add_u8_ok d s a (v mod 128) Hrep Hd ltac:(unfold is_byte; lia)) as Ho.
    unfold st_bind. by destruct (CBB_add_u8 d (v mod 128) s) as [[[]|] s'].
  - change (add_base128_loop d v (S (S n)) s) with
      ((CBB_add_u8 d (let byte := u8 (Z.land (Z.shiftr v (7 * Z.of_nat (S n))) 0x7f) in
         Z.lor byte 0x80) ;;; add_base128_loop d v (S n)) s).
    cbv zeta. destruct (digit_byte v (S n) Hv) as [-> ->].
    cbn [hi_digits app]. rewrite Z.div_div, <- Z.pow_succ_r, <- Nat2Z.inj_succ by lia.
    pose proof (Z.mod_pos_bound (v / 128 ^ Z.of_nat (S n)) 128 ltac:(lia)).
    set (b := 128 + _) in *. set (rest := hi_digits (v / 128) n ++ [v mod 128]) in *.
    change (b :: rest) with ([b] ++ rest). rewrite <- sp_append_app.
    change (Some (sp_append rest (sp_append [b] a)))
      with (Some (sp_append [b] a) ≫= (fun a => Some (sp_append rest a))).
    apply outcome_bind.
    + apply add_u8_ok; [done|done|unfold is_byte; lia].
    + intros u s' a' [= <-] Hrep'. apply IH; [done|by rewrite sp_append_length|done].
    + intros a' a'' _ [= <-]. apply sp_append_size_le.
Qed.

Lemma add_base128_ok d (s : CBB) a v :
  rep s a -> length a.2 = d -> 0 <= v < 2 ^ 64 ->
  outcome s (Some (sp_append (base128 v) a)) (add_base128_integer d v s).
Proof.
  intros Hrep Hd Hv. unfold add_base128_integer, base128_len.
  destruct (base128_len_loop_spec 10 v 0) as (m & -> & Hlt & Hle & Hge).
  { change (128 ^ Z.of_nat 10) with (2 ^ 70). lia. }
  assert (exists n, (if Nat.eqb (0 + m) 0 then 1%nat else (0 + m)%nat) = S n /\
    v < 128 ^ Z.of_nat (S n) /\ (n = 0%nat \/ 128 ^ Z.of_nat n <= v)) as (n & -> & Hn & Hg).
  { destruct m as [|m]; simpl.
    - exists 0%nat. change (128 ^ Z.of_nat 0) with 1 in Hlt. split_and!; [done|simpl; lia|by left].
    - exists m. split_and!; [done|done|]. destruct Hge as [|Hge]; [done|].
      right. by replace (Z.of_nat (S m) - 1) with (Z.of_nat m) in Hge by lia. }
  rewrite base128_eq. rewrite Nat2Z.inj_succ, Z.pow_succ_r in Hn by lia.
  assert (0 < 128 ^ Z.of_nat n) by (apply Z.pow_pos_nonneg; lia).
  rewrite <- (hi_digits_prefix (v / 128) n).
  - apply add_base128_loop_ok; [done|done|lia].
  - split; [apply Z.div_pos; lia|apply Z.div_lt_upper_bound; lia].
  - destruct n as [|n]; [by left|right]. destruct Hg as [|Hg]; [done|].
    rewrite Nat2Z.inj_succ, Z.pow_succ_r in Hg by lia.
    replace (Z.of_nat (S n) - 1) with (Z.of_nat n) by lia. apply Z.div_le_lower_bound; lia.
Qed.

Lemma tag_write_parts t :
  0 <= t < 2 ^ 32 ->
  u8 (Z.land (Z.shiftr t CBS_ASN1_TAG_SHIFT) 0xe0) = tag_bits t * 32 /\
  Z.land t CBS_ASN1_TAG_NUMBER_MASK = tag_num t.
Proof.
  intros Ht. split; [|apply (land_mask t 29); lia].
  unfold CBS_ASN1_TAG_SHIFT, tag_bits. rewrite Z.shiftr_div_pow2 by lia.
  change (2 ^ 29) with (2 ^ 24 * 32). rewrite <- Z.div_div by lia.
  assert (is_byte (t / 2 ^ 24)) as Hb.
  { split; [apply Z.div_pos; lia|apply Z.div_lt_upper_bound; lia]. }
  revert Hb. generalize (t / 2 ^ 24).
  apply (byte_forall_eqZ (fun b => u8 (Z.land b 0xe0)) (fun b => b / 32 * 32)). byte_compute.
Qed.

Lemma write_tag_ok d (s : CBB) a t :
  rep s a -> length a.2 = d -> 0 <= t < 2 ^ 32 ->
  outcome s (Some (sp_append (der_tag t) a))
    ((let tag_bits := u8 (Z.land (Z.shiftr t CBS_ASN1_TAG_SHIFT) 0xe0) in
      let tag_number := Z.land t CBS_ASN1_TAG_NUMBER_MASK in
      if tag_number >=? 0x1f then
        CBB_add_u8 d (Z.lor tag_bits 0x1f) ;;; add_base128_integer d tag_number
      else CBB_add_u8 d (Z.lor tag_bits tag_number)) s).
Proof.
  intros Hrep Hd Ht. cbv zeta. destruct (tag_write_parts t Ht) as [-> ->].
  pose proof (tag_bits_bound t Ht). pose proof (tag_num_bound t). unfold der_tag.
  change 32 with (2 ^ 5) at 1 2.
  destruct (tag_num t >=? 0x1f) eqn:E, (Z.ltb_spec (tag_num t) 31); try lia.
  - rewrite (lor_add_disjoint _ 31 5) by lia. change (2 ^ 5) with 32.
    set (b := _ + 31). change (b :: base128 (tag_num t)) with ([b] ++ base128 (tag_num t)).
    rewrite <- sp_append_app.
    change (Some (sp_append ?r (sp_append [b] a)))
      with (Some (sp_append [b] a) ≫= (fun a => Some (sp_append r a))).
    apply outcome_bind.
    + apply add_u8_ok; [done|done|unfold is_byte, b; lia].
    + intros u s' a' [= <-] Hrep'. apply add_base128_ok; [done|by rewrite sp_append_length|lia].
    + intros a' a'' _ [= <-]. rewrite sp_append_size.
      pose proof (Zlen_nonneg (base128 (tag_num t))). lia.
  - rewrite (lor_add_disjoint _ (tag_num t) 5) by lia. change (2 ^ 5) with 32.
    apply add_u8_ok; [done|done|unfold is_byte; lia].
Qed.

Lemma add_asn1_ok d (s : CBB) a t :
  rep s a -> (d <= length a.2)%nat -> 0 <= t < 2 ^ 32 ->
  outcome s (sp_asn1 d t a) (CBB_add_asn1 d t s).
Proof.
  intros Hrep Hd Ht. unfold sp_asn1, sp_write.
  replace (sp_open Asn1 <$> (sp_append (der_tag t) <$> sp_flush d a))
    with (sp_flush d a ≫= (fun a => Some (sp_append (der_tag t) a) ≫= (fun a => Some (sp_open Asn1 a))))
    by (by destruct (sp_flush d a)).
  pose proof (Zlen_nonneg (der_tag t)).
  unfold CBB_add_asn1. apply outcome_bind; [by apply flush_outcome| |].
  - intros u s' a' Ha' Hrep'. pose proof (close_at_length _ _ _ _ Ha') as Hl.
    apply outcome_bind; [by apply write_tag_ok| |].
    + intros u' s'' a'' [= <-] Hrep''. apply (add_child_ok d s'' _ Asn1); [done| |simpl; lia].
      by rewrite sp_append_length.
    + intros a'' a3 _ [= <-]. rewrite sp_open_size. lia.
  - intros a' a'' _ [= <-]. rewrite sp_open_size, sp_append_size. lia.
Qed.

Lemma add_length_prefixed_ok d (s : CBB) a n :
  rep s a -> (d <= length a.2)%nat -> (n <= 255)%nat ->
  outcome s (sp_child d (LenPrefix n) a) (cbb_add_length_prefixed d (Z.of_nat n) s).
Proof.
  intros Hrep Hd Hn. unfold cbb_add_length_prefixed, sp_child. rewrite option_fmap_bind.
  apply outcome_bind; [by apply flush_outcome| |].
  - intros u s' a' Ha' Hrep'. apply (add_child_ok d s' a' (LenPrefix n)); [done| |done].
    by apply (close_at_length _ _ _ _ Ha').
  - intros a' a'' _ [= <-]. rewrite sp_open_size. lia.
Qed.

Lemma finish_ok (s : CBB) a p n s' want_out :
  rep s a -> CBB_finish want_out s = (Some (p, n), s') ->
  exists b, close a.1 a.2 = Some b /\ n = Zlen b /\ take (Z.to_nat n) (default [] p) = b.
Proof.
  intros Hrep Hf. unfold CBB_finish in Hf. apply st_bind_inv in Hf as (u & s1 & Hfl & Hf).
  pose proof (flush_ok 0 s a Hrep ltac:(lia)) as Ho. rewrite Hfl in Ho.
  destruct Ho as (a' & Ha' & [Hb Hch] & _ & _ & _). unfold sp_flush in Ha'. simpl in Ha'.
  destruct (close a.1 a.2) as [b|]; [|done]. simplify_eq. simpl in Hb.
  destruct (can_resize (base s1) && negb want_out); [done|]. simplify_eq.
  destruct Hb as [Hb1 _ Hb3 _ _]. exists b. rewrite Hb1. split_and!; [done|done|].
  unfold Zlen. rewrite Nat2Z.id. exact Hb3.
Qed.

(** * The operations implement the abstract ones *)

(** C1. Flushing a [CBB] closes exactly its open descendants: each gets its
    length - the fixed-width one, or the minimal DER length, for which the
    contents are moved along - in front of its contents, and the outer contents
    and children stay.  It fails only when a length does not fit its prefix or
    there is no room, and then the [CBB] is in the error state. *)
Theorem CBB_flush_refines d (s : CBB) a :
  rep s a -> (d <= length a.2)%nat -> outcome s (sp_flush d a) (CBB_flush d s).
Proof.
  intros Hrep Hd. pose proof (flush_ok d s a Hrep Hd) as Hf. unfold outcome.
  destruct (CBB_flush d s) as [[u|] s']; [|done].
  destruct Hf as (a' & ? & ? & _ & _ & ?). eauto.
Qed.

(** [CBB_add_bytes] appends its data to the contents of its [CBB], after
    closing the open descendants. *)
Theorem CBB_add_bytes_refines d (s : CBB) a data :
  rep s a -> (d <= length a.2)%nat -> Zlen data <= SIZE_MAX ->
  outcome s (sp_write d data a) (CBB_add_bytes d data s).
Proof. apply add_bytes_ok. Qed.

(** The integer writers append the big-endian encoding of a value that
    fits the width; a value that does not fit is an error, never truncated. *)
Theorem cbb_add_u_refines d (s : CBB) a v n :
  rep s a -> (d <= length a.2)%nat -> 0 <= v -> (n <= 8)%nat ->
  outcome s (if v <? 256 ^ Z.of_nat n then sp_write d (be_bytes n v) a else None) (cbb_add_u d v n s).
Proof. apply add_u_ok. Qed.

(** C10. [CBB_add_asn1] writes the DER tag, for every class, form and number,
    and opens a child for the contents. *)
Theorem CBB_add_asn1_refines d (s : CBB) a t :
  rep s a -> (d <= length a.2)%nat -> 0 <= t < 2 ^ 32 ->
  outcome s (sp_asn1 d t a) (CBB_add_asn1 d t s).
Proof. apply add_asn1_ok. Qed.

(** The length-prefixed writers open a child with a prefix of the given
    width. *)
Theorem cbb_add_length_prefixed_refines d (s : CBB) a n :
  rep s a -> (d <= length a.2)%nat -> (n <= 255)%nat ->
  outcome s (sp_child d (LenPrefix n) a) (cbb_add_length_prefixed d (Z.of_nat n) s).
Proof. apply add_length_prefixed_ok. Qed.

(** [CBB_finish] returns the whole message with every child closed. *)
Theorem CBB_finish_contents (s : CBB) a p n s' want_out :
  rep s a -> CBB_finish want_out s = (Some (p, n), s') ->
  exists b, close a.1 a.2 = Some b /\ n = Zlen b /\ take (Z.to_nat n) (default [] p) = b.
Proof. apply finish_ok. Qed.

(** * Creation and discarding *)

Lemma init_fixed_rep p (h : H) : Zlen p <= SIZE_MAX -> rep (CBB_init_fixed p h) ([], []).
Proof. intros Hp. split; [split|]; done. Qed.

Lemma init_rep n (h : H) s :
  0 <= n <= SIZE_MAX -> CBB_init n h = (Some tt, s) -> rep s ([], []) /\ cap (base s) = n /\ can_resize (base s) = true.
Proof.
  intros Hn. unfold CBB_init. destruct (OPENSSL_malloc n h) as [[p|] h'] eqn:Hm.
  - apply OPENSSL_malloc_spec in Hm as (Hl & _ & _); [|lia]. intros [= <-].
    split; [split; [split; simpl; unfold buf_bytes; simpl; (done || lia)|done]|done].
  - destruct (n >? 0) eqn:E; [done|]. intros [= <-]. assert (n = 0) as -> by lia.
    split; [split; [split|]|]; done.
Qed.

Lemma discard_ok d : forall kids c off,
  (d < length kids)%nat ->
  exists child kids' c', chain_of off c kids !! d = Some child /\
    offset child = off + Zlen c' /\
    take d (chain_of off c kids) = chain_of off c kids' /\ take d kids = kids' /\
    flatten c kids' = c' /\ exists rest, flatten c kids = c' ++ rest.
Proof.
  induction d as [|d IH]; intros kids c off Hd; (destruct kids as [|[k x] kids]; [simpl in Hd; lia|]).
  - simpl. eexists _, [], c. split_and!; try done. eauto.
  - simpl in Hd. destruct (IH kids x (off + Zlen c + Z.of_nat (prefix_len k)) ltac:(lia))
      as (child & kids' & c' & Hk & H2 & H3 & H4 & H5 & rest & H6).
    exists child, ((k, x) :: kids'), (c ++ replicate (prefix_len k) 0 ++ c'). cbn [chain_of flatten take].
    simpl lookup. rewrite !Zlen_app, Zlen_replicate_nat.
    split_and!; [done|lia|by f_equal|by f_equal|by rewrite H5|].
    exists rest. by rewrite H6, <- !app_assoc.
Qed.

(** [CBB_discard_child] takes the open child and everything below it back:
    the bytes of the [CBB] and of its parents are what they were before the
    length prefix was reserved. *)
Theorem CBB_discard_child_spec d (s : CBB) a :
  rep s a -> (d < length a.2)%nat ->
  rep (CBB_discard_child d s) (a.1, take d a.2).
Proof.
  intros [Hb Hch] Hd. destruct (discard_ok d a.2 a.1 0 Hd) as
    (child & kids' & c' & Hk & H2 & H3 & H4 & H5 & rest & H6).
  unfold CBB_discard_child. rewrite Hch, Hk. destruct Hb as [Hb1 Hb2 Hb3 Hb4 Hb5].
  split; simpl; rewrite H4; [|done]. rewrite H5.
  split; simpl; try done. rewrite <- (take_app_length c' rest) at 2. rewrite <- H6, <- Hb3.
  rewrite take_take, Nat.min_l; [done|]. rewrite H6, length_app. lia.
Qed.

End refinement.

(** A [CBB] with an open OCTET STRING, to run the theorems on. *)
Definition ex_open : cbb_st unit := (CBB_add_asn1 0 4 (CBB_init_fixed (replicate 8 7) tt)).2.

Lemma ex_open_rep : rep ex_open ([4], [(Asn1, [])]).
Proof. split; [split; try reflexivity; vm_compute; discriminate|reflexivity]. Qed.

Lemma CBB_flush_refines_witness :
  outcome ex_open (sp_flush 0 ([4], [(Asn1, [])])) (CBB_flush 0 ex_open).
Proof. apply CBB_flush_refines; [exact ex_open_rep|simpl; lia]. Defined.

Lemma CBB_add_bytes_refines_witness :
  outcome ex_open (sp_write 1 [1; 2; 3] ([4], [(Asn1, [])])) (CBB_add_bytes 1 [1; 2; 3] ex_open).
Proof. apply CBB_add_bytes_refines; [exact ex_open_rep|simpl; lia|vm_compute; discriminate]. Defined.

Lemma cbb_add_u_refines_witness :
  outcome ex_open (if 258 <? 256 ^ 2 then sp_write 1 (be_bytes 2 258) ([4], [(Asn1, [])]) else None)
    (cbb_add_u 1 258 2 ex_open).
Proof. apply (cbb_add_u_refines 1 ex_open ([4], [(Asn1, [])]) 258 2); [exact ex_open_rep|simpl; lia|lia|lia]. Defined.

Lemma CBB_add_asn1_refines_witness :
  outcome ex_open (sp_asn1 1 (2 ^ 31 + 40) ([4], [(Asn1, [])])) (CBB_add_asn1 1 (2 ^ 31 + 40) ex_open).
Proof. apply CBB_add_asn1_refines; [exact ex_open_rep|simpl; lia|lia]. Defined.

Lemma cbb_add_length_prefixed_refines_witness :
  outcome ex_open (sp_child 1 (LenPrefix 2) ([4], [(Asn1, [])])) (cbb_add_length_prefixed 1 2 ex_open).
Proof.
  apply (cbb_add_length_prefixed_refines 1 ex_open ([4], [(Asn1, [])]) 2); [exact ex_open_rep|simpl; lia|lia].
Defined.

Lemma CBB_finish_contents_witness :
  exists b, close [4] [(Asn1, [])] = Some b /\ 2 = Zlen b /\ take 2 (default [] (Some ([4; 0] ++ replicate 6 7))) = b.
Proof.
  apply (CBB_finish_contents ex_open ([4], [(Asn1, [])]) (Some ([4; 0] ++ replicate 6 7)) 2
    (CBB_finish true ex_open).2 true); [exact ex_open_rep|reflexivity].
Defined.

Lemma CBB_discard_child_spec_witness : rep (CBB_discard_child 0 ex_open) ([4], []).
Proof. apply (CBB_discard_child_spec 0 ex_open ([4], [(Asn1, [])])); [exact ex_open_rep|simpl; lia]. Defined.
