(* ===== verification/CbbAsn1.v ===== *)
(** The ASN.1 writers of [crypto/bytestring/cbb.c] that are made of [CBB] calls,
    [CBS_asn1_oid_to_text] of [cbs.c], which prints through a [CBB], and
    [CBB_finish_i2d] of [asn1_compat.c]; with the round trips between them and the
    readers of [CbsAsn1.v]. *)
From S2P Require Import Prelude Mem Der Cbs CbsAsn1 Cbb CbbSpec.

(** [qsort] of the C library: [cmp a b <= 0] says that [a] may come before [b]. *)
Class Qsort := qsort : forall {A}, (A -> A -> Z) -> list A -> list A.

Class QsortSpec `{Qsort} := {
  qsort_perm {A} (cmp : A -> A -> Z) l : qsort cmp l ≡ₚ l;
  qsort_sorted {A} (cmp : A -> A -> Z) l :
    (forall x y, cmp x y <= 0 \/ cmp y x <= 0) ->
    (forall x y z, cmp x y <= 0 -> cmp y z <= 0 -> cmp x z <= 0) ->
    Sorted (fun x y => cmp x y <= 0) (qsort cmp l);
}.

(** Insertion sort, to run the definitions. *)
Fixpoint insert_by {A} (cmp : A -> A -> Z) (x : A) (l : list A) : list A :=
  match l with
  | [] => [x]
  | y :: l => if cmp x y <=? 0 then x :: y :: l else y :: insert_by cmp x l
  end.
#[export] Instance insertion_qsort : Qsort := fun A cmp l => foldr (insert_by cmp) [] l.

(** [memcmp] of the C library, of which only the sign matters. *)
Fixpoint OPENSSL_memcmp (a b : bytes) (n : nat) : Z :=
  match n, a, b with
  | S n, x :: a, y :: b => if x <? y then -1 else if y <? x then 1 else OPENSSL_memcmp a b n
  | _, _, _ => 0
  end.

Section asn1.
Context {H : Type} `{Malloc H}.
Abbreviation CBB := (cbb_st H).

(** [goto err]: the [CBB] of depth [d] is put in the error state. *)
Definition or_error {A} (d : nat) (m : ST CBB A) : ST CBB A := fun s =>
  match m s with
  | (None, s) => cbb_on_error d s
  | r => r
  end.

(** * INTEGERs, BOOLEANs, OCTET STRINGs *)

(** The loop over the bytes [8 - k, ..., 7]; the result is [started]. *)
Fixpoint asn1_uint64_loop (child : nat) (value : Z) (k : nat) (started : bool) : ST CBB bool :=
  match k with
  | O => st_ret started
  | S k =>
      let byte := u8 (Z.land (Z.shiftr value (8 * Z.of_nat k)) 0xff) in
      if negb started then
        if byte =? 0 then asn1_uint64_loop child value k started
        else
          (if negb (Z.land byte 0x80 =? 0) then CBB_add_u8 child 0 else st_ret tt) ;;;
          CBB_add_u8 child byte ;;;
          asn1_uint64_loop child value k true
      else
        CBB_add_u8 child byte ;;;
        asn1_uint64_loop child value k started
  end.

Definition CBB_add_asn1_uint64_with_tag (d : nat) (value tag : Z) : ST CBB unit :=
  or_error d
    (CBB_add_asn1 d tag ;;;
     started <-- asn1_uint64_loop (S d) value 8 false ;;
     if negb started then CBB_add_u8 (S d) 0 else st_ret tt) ;;;
  CBB_flush d.

Definition CBB_add_asn1_uint64 (d : nat) (value : Z) : ST CBB unit :=
  CBB_add_asn1_uint64_with_tag d value CBS_ASN1_INTEGER.

(** [while (start > 0 && bytes[start] == 0xff && (bytes[start - 1] & 0x80)) start--;] *)
Fixpoint int64_start (bs : bytes) (start : nat) : nat :=
  match start with
  | O => O
  | S p =>
      if (nth start bs 0 =? 0xff) && negb (Z.land (nth p bs 0) 0x80 =? 0) then int64_start bs p
      else start
  end.

(** The loop over [i = n - 1, ..., 0]. *)
Fixpoint add_bytes_down (child : nat) (bs : bytes) (n : nat) : ST CBB unit :=
  match n with
  | O => st_ret tt
  | S i => CBB_add_u8 child (nth i bs 0) ;;; add_bytes_down child bs i
  end.

(** [memcpy(bytes, &value)]: the host is little-endian. *)
Definition CBB_add_asn1_int64_with_tag (d : nat) (value tag : Z) : ST CBB unit :=
  if value >=? 0 then CBB_add_asn1_uint64_with_tag d value tag
  else
    let bs := le_bytes 8 (u64 value) in
    let start := int64_start bs 7 in
    or_error d
      (CBB_add_asn1 d tag ;;;
       add_bytes_down (S d) bs (S start)) ;;;
    CBB_flush d.

Definition CBB_add_asn1_int64 (d : nat) (value : Z) : ST CBB unit :=
  CBB_add_asn1_int64_with_tag d value CBS_ASN1_INTEGER.

Definition CBB_add_asn1_octet_string (d : nat) (data : bytes) : ST CBB unit :=
  or_error d
    (CBB_add_asn1 d CBS_ASN1_OCTETSTRING ;;;
     CBB_add_bytes (S d) data ;;;
     CBB_flush d).

Definition CBB_add_asn1_bool (d : nat) (value : Z) : ST CBB unit :=
  or_error d
    (CBB_add_asn1 d CBS_ASN1_BOOLEAN ;;;
     CBB_add_u8 (S d) (if negb (value =? 0) then 0xff else 0) ;;;
     CBB_flush d).

(** * OBJECT IDENTIFIERs and their text *)

Definition parse_dotted_decimal : ST bytes Z := fun cbs =>
  match CBS_get_u64_decimal cbs with
  | (None, cbs) => (None, cbs)
  | (Some out, cbs) =>
      match CBS_get_u8 cbs with
      | (None, cbs) => (Some out, cbs)
      | (Some dot, cbs) => if (dot =? 46) && negb (Zlen cbs =? 0) then (Some out, cbs) else (None, cbs)
      end
  end.

(** [while (CBS_len(&cbs) > 0)]; every round consumes at least a byte. *)
Fixpoint oid_from_text_loop (d : nat) (fuel : nat) (cbs : bytes) : ST CBB unit :=
  if Zlen cbs >? 0 then
    match fuel with
    | O => st_fail
    | S fuel =>
        match parse_dotted_decimal cbs with
        | (None, _) => st_fail
        | (Some a, cbs) => add_base128_integer d a ;;; oid_from_text_loop d fuel cbs
        end
    end
  else st_ret tt.

Definition CBB_add_asn1_oid_from_text (d : nat) (text : bytes) : ST CBB unit :=
  CBB_flush d ;;;
  match parse_dotted_decimal text with
  | (None, _) => st_fail
  | (Some a, cbs) =>
    match parse_dotted_decimal cbs with
    | (None, _) => st_fail
    | (Some b, cbs) =>
      if (a >? 2) || ((a <? 2) && (b >? 39)) || (b >? UINT64_MAX - 80) then st_fail
      else
        add_base128_integer d (u64 (40 * a + b)) ;;;
        oid_from_text_loop d (length cbs) cbs
    end
  end.

(** [snprintf] of [%llu]. *)
Definition add_decimal (d : nat) (v : Z) : ST CBB unit := CBB_add_bytes d (dec v).

(** [while (CBS_len(&copy) != 0)]; every round consumes at least a byte. *)
Fixpoint oid_to_text_loop (fuel : nat) (copy : bytes) : ST CBB unit :=
  if negb (Zlen copy =? 0) then
    match fuel with
    | O => st_fail
    | S fuel =>
        match parse_base128_integer copy with
        | (None, _) => st_fail
        | (Some v, copy) => CBB_add_u8 0 46 ;;; add_decimal 0 v ;;; oid_to_text_loop fuel copy
        end
    end
  else st_ret tt.

(** The NUL-terminated string, or NULL. *)
Definition CBS_asn1_oid_to_text (cbs : bytes) : ST H bytes := fun h =>
  let '(r, s) :=
    match CBB_init 32 h with
    | (None, s) => (None, s)
    | (Some _, s) =>
      match parse_base128_integer cbs with
      | (None, _) => (None, s)
      | (Some v, copy) =>
        ((if v >=? 80 then CBB_add_bytes 0 [50; 46] ;;; add_decimal 0 (v - 80)
          else add_decimal 0 (v / 40) ;;; CBB_add_u8 0 46 ;;; add_decimal 0 (v mod 40)) ;;;
         oid_to_text_loop (length copy) copy ;;;
         CBB_add_u8 0 0 ;;;
         CBB_finish true) s
      end
    end in
  match r with
  | Some (Some txt, txt_len) => (Some (take (Z.to_nat txt_len) txt), heap s)
  | _ => (None, heap s)
  end.

(** * SET OF *)

Definition compare_set_of_element (a b : bytes) : Z :=
  let a_len := Zlen a in
  let b_len := Zlen b in
  let min_len := if a_len <? b_len then a_len else b_len in
  let ret := OPENSSL_memcmp a b (Z.to_nat min_len) in
  if negb (ret =? 0) then ret
  else if a_len =? b_len then 0
  else if a_len <? b_len then -1 else 1.

(** The elements of [cbs], or [None] when one does not parse. *)
Fixpoint set_of_children (fuel : nat) (cbs : bytes) : option (list bytes) :=
  if negb (Zlen cbs =? 0) then
    match fuel with
    | O => None
    | S fuel =>
        match CBS_get_any_asn1_element cbs with
        | (None, _) => None
        | (Some e, cbs) => cons (el_out e) <$> set_of_children fuel cbs
        end
    end
  else Some [].

(** [sizeof(CBS)]. *)
Definition sizeof_CBS : Z := 16.

Definition CBB_flush_asn1_set_of `{Qsort} (d : nat) : ST CBB unit :=
  CBB_flush d ;;;
  fun s =>
    let data := take (Z.to_nat (CBB_len d s)) (CBB_data d s) in
    match set_of_children (length data) data with
    | None => (None, s)
    | Some children =>
      if Zlen children <? 2 then (Some tt, s)
      else
        let '(buf, h) := OPENSSL_memdup data (CBB_len d s) (heap s) in
        let '(array, h) := OPENSSL_calloc (Zlen children) sizeof_CBS h in
        let s := Cbb (base s) (chain s) h in
        match buf, array with
        | Some _, Some _ =>
            (Some tt, poke (cbb_data_offset d s) (concat (qsort compare_set_of_element children)) s)
        | _, _ => (None, s)
        end
    end.

(** * [asn1_compat.c] *)

(** [*outp]: NULL, or a buffer of the caller. *)
Inductive i2d_out := NoOut | NullOut | BufOut (p : bytes).

(** The result with what [*outp] points at afterwards: the new block, or the
    caller's buffer with the bytes written; [None] for -1. *)
Definition CBB_finish_i2d (outp : i2d_out) (s : CBB) : option Z * option bytes * CBB :=
  match CBB_finish true s with
  | (None, s) => (None, None, s)
  | (Some (der, der_len), s) =>
      if der_len >? INT_MAX then (None, None, s)
      else
        let contents := take (Z.to_nat der_len) (default [] der) in
        match outp with
        | NoOut => (Some der_len, None, s)
        | NullOut => (Some der_len, Some contents, s)
        | BufOut p => (Some der_len, Some (splice 0 contents p), s)
        end
  end.

End asn1.

(** * SET OF by its elements *)

Definition is_der (e : bytes) : Prop := exists t c, valid_tag t /\ Zlen c < 2 ^ 32 /\ e = der t c.

(** The contents of the innermost open child, and the message with others. *)
Fixpoint inner_of (c : bytes) (kids : list (prefix * bytes)) : bytes :=
  match kids with [] => c | (_, c') :: kids => inner_of c' kids end.
Fixpoint set_inner (x c : bytes) (kids : list (prefix * bytes)) : msg :=
  match kids with
  | [] => (x, [])
  | (k, c') :: kids => let '(c'', kids') := set_inner x c' kids in (c, (k, c'') :: kids')
  end.
Definition sp_inner (a : msg) : bytes := inner_of a.1 a.2.
Definition sp_set_inner (x : bytes) (a : msg) : msg := set_inner x a.1 a.2.

(** * OBJECT IDENTIFIERs by their components *)

Definition valid_oid (comps : list Z) : Prop :=
  match comps with
  | a :: b :: cs =>
      0 <= a <= 2 /\ 0 <= b <= UINT64_MAX - 80 /\ (a < 2 -> b <= 39) /\ Forall (fun c => 0 <= c < 2 ^ 64) cs
  | _ => False
  end.

Definition oid_body (comps : list Z) : bytes :=
  match comps with
  | a :: b :: cs => concat (base128 <$> 40 * a + b :: cs)
  | _ => []
  end.

Definition oid_text (comps : list Z) : bytes :=
  match comps with
  | [] => []
  | c :: cs => dec c ++ concat ((fun c => 46 :: dec c) <$> cs)
  end.

(** * Lemmas: writing a whole element *)

Section asn1_lemmas.
Context {H : Type} `{MallocSpec H}.
Abbreviation CBB := (cbb_st H).

Lemma close_at_child data k kids : forall c,
  let a := append_in data c (kids ++ [(k, [])]) in
  close_at (length kids) a.1 a.2 =
    match encode k data with Some e => Some (append_in e c kids) | None => None end.
Proof.
  induction kids as [|[k' c'] kids IH]; intros c; cbv zeta.
  - simpl. by destruct (encode k data).
  - specialize (IH c'). cbv zeta in IH. cbn [app append_in length].
    destruct (append_in data c' (kids ++ [(k, [])])) as [c2 k2]. cbn [close_at fst snd] in *. rewrite IH.
    destruct (encode k data) as [e|]; [|done]. by destruct (append_in e c' kids).
Qed.

(** An opened child, filled and closed again, is an encoded string in its
    parent. *)
Lemma sp_flush_child d k data a :
  length a.2 = d ->
  sp_flush d (sp_append data (sp_open k a)) =
    match encode k data with Some e => Some (sp_append e a) | None => None end.
Proof. intros <-. apply close_at_child. Qed.

Definition sp_element (d : nat) (t : Z) (data : bytes) (a : msg) : option msg :=
  if Zlen data <=? 0xfffffffe then sp_write d (der t data) a else None.

Lemma sp_element_eq d t data a :
  (sp_asn1 d t a ≫= fun a => Some (sp_append data a)) ≫= sp_flush d = sp_element d t data a.
Proof.
  unfold sp_asn1, sp_element. destruct (sp_write d (der_tag t) a) as [a1|] eqn:E; simpl.
  - rewrite sp_flush_child by (by apply sp_write_length in E). simpl.
    destruct (Zlen data <=? 0xfffffffe); [|done].
    unfold sp_write in *. destruct (sp_flush d a) as [a2|]; [|done]. simpl in *. simplify_eq.
    rewrite sp_append_app. unfold der, der_header. by rewrite <- app_assoc.
  - unfold sp_write in *. destruct (sp_flush d a); [done|]. by destruct (_ <=? _).
Qed.

Lemma sp_asn1_length d t a a' : sp_asn1 d t a = Some a' -> length a'.2 = S d.
Proof.
  unfold sp_asn1. destruct (sp_write d (der_tag t) a) as [a1|] eqn:E; [|done]. intros [= <-].
  simpl. rewrite length_app. apply sp_write_length in E. simpl. lia.
Qed.

(** [or_error] only adds the error flag that is already set. *)
Lemma or_error_outcome {A} d (m : ST CBB A) s sp : outcome s sp (m s) -> outcome s sp (or_error d m s).
Proof.
  unfold or_error, outcome, cbb_on_error. destruct (m s) as [[x|] s']; [done|]. simpl.
  intros [_ Hf]. done.
Qed.

(** An element whose contents are written by [body] and closed by a flush. *)
Lemma element_ok {A} d t (body : ST CBB A) data (s : CBB) a :
  rep s a -> (d <= length a.2)%nat -> 0 <= t < 2 ^ 32 ->
  (forall s' a', rep s' a' -> length a'.2 = S d -> outcome s' (Some (sp_append data a')) (body s')) ->
  outcome s (sp_asn1 d t a ≫= fun a => Some (sp_append data a)) ((CBB_add_asn1 d t ;;; body) s) /\
  outcome s (sp_element d t data a) (((CBB_add_asn1 d t ;;; body) ;;; CBB_flush d) s).
Proof.
  intros Hrep Hd Ht Hbody.
  assert (outcome s (sp_asn1 d t a ≫= fun a => Some (sp_append data a)) ((CBB_add_asn1 d t ;;; body) s)) as Ho.
  { apply outcome_bind; [by apply add_asn1_ok| |].
    - intros u s' a' Ha' Hrep'. apply Hbody; [done|]. by apply sp_asn1_length in Ha'.
    - intros a' a'' _ [= <-]. apply sp_append_size_le. }
  split; [done|]. rewrite <- sp_element_eq. apply outcome_bind; [done| |].
  - intros u s' a' Ha' Hrep'. apply flush_outcome; [done|].
    destruct (sp_asn1 d t a) as [a1|] eqn:E; [|done]. simpl in Ha'. simplify_eq.
    rewrite sp_append_length. apply sp_asn1_length in E. lia.
  - intros a' a'' _ Hf. by apply sp_flush_size in Hf.
Qed.

Lemma element_or_error_ok {A} d t (body : ST CBB A) data (s : CBB) a :
  rep s a -> (d <= length a.2)%nat -> 0 <= t < 2 ^ 32 ->
  (forall s' a', rep s' a' -> length a'.2 = S d -> outcome s' (Some (sp_append data a')) (body s')) ->
  outcome s (sp_element d t data a) ((or_error d (CBB_add_asn1 d t ;;; body) ;;; CBB_flush d) s).
Proof.
  intros Hrep Hd Ht Hbody. destruct (element_ok d t body data s a Hrep Hd Ht Hbody) as [Ho Ho'].
  rewrite <- sp_element_eq in *. apply outcome_bind; [by apply or_error_outcome| |].
  - intros u s' a' Ha' Hrep'. apply flush_outcome; [done|].
    destruct (sp_asn1 d t a) as [a1|] eqn:E; [|done]. simpl in Ha'. simplify_eq.
    rewrite sp_append_length. apply sp_asn1_length in E. lia.
  - intros a' a'' _ Hf. by apply sp_flush_size in Hf.
Qed.

(** Composing two appends to the same flushed [CBB]. *)
Lemma append_bind {A B} d x y (m : ST CBB A) (k : A -> ST CBB B) s a :
  length a.2 = d ->
  outcome s (Some (sp_append x a)) (m s) ->
  (forall u s' a', rep s' a' -> length a'.2 = d -> outcome s' (Some (sp_append y a')) (k u s')) ->
  outcome s (Some (sp_append (x ++ y) a)) (st_bind m k s).
Proof.
  intros Hd Hm Hk. rewrite <- sp_append_app.
  change (Some (sp_append y (sp_append x a))) with (Some (sp_append x a) ≫= (fun a => Some (sp_append y a))).
  apply outcome_bind; [done| |].
  - intros u s' a' [= <-] Hrep. apply Hk; [done|]. by rewrite sp_append_length.
  - intros a' a'' _ [= <-]. apply sp_append_size_le.
Qed.

Lemma append_ret {A} (x : A) (s : CBB) a : rep s a -> outcome s (Some (sp_append [] a)) (st_ret x s).
Proof. intros. unfold outcome, st_ret. exists a. by rewrite sp_append_nil. Qed.

(** * Lemmas: INTEGERs *)

(** The octets the loop of [CBB_add_asn1_uint64_with_tag] writes. *)
Fixpoint uint64_octets (value : Z) (k : nat) (started : bool) : bytes :=
  match k with
  | O => []
  | S k =>
      let byte := (value / 256 ^ Z.of_nat k) mod 256 in
      if negb started then
        if byte =? 0 then uint64_octets value k started
        else (if 128 <=? byte then [0] else []) ++ byte :: uint64_octets value k true
      else byte :: uint64_octets value k started
  end.

Lemma uint64_byte value k :
  0 <= value ->
  let b := (value / 256 ^ Z.of_nat k) mod 256 in
  u8 (Z.land (Z.shiftr value (8 * Z.of_nat k)) 0xff) = b /\ is_byte b /\
  negb (Z.land b 0x80 =? 0) = (128 <=? b).
Proof.
  intros Hv b. assert (is_byte b) as Hb by (apply Z.mod_pos_bound; lia). split_and!; [|done|].
  - rewrite Z.shiftr_div_pow2, <- pow256 by lia. change 0xff with (2 ^ 8 - 1).
    rewrite land_mask by lia. apply Z.mod_small. exact Hb.
  - destruct (high_bit_byte b Hb) as [-> _]. lia.
Qed.

Lemma uint64_loop_ok d value k : forall started (s : CBB) a,
  0 <= value -> rep s a -> length a.2 = d ->
  outcome s (Some (sp_append (uint64_octets value k started) a)) (asn1_uint64_loop d value k started s) /\
  forall s' st, asn1_uint64_loop d value k started s = (Some st, s') ->
    st = started || bool_decide (uint64_octets value k started <> []).
Proof.
  induction k as [|k IH]; intros started s a Hv Hrep Hd.
  { split; [by apply append_ret|]. simpl. intros s' st [= <- <-]. by rewrite orb_false_r. }
  cbn [asn1_uint64_loop uint64_octets]. destruct (uint64_byte value k Hv) as (Hb1 & Hb2 & Hb3).
  rewrite Hb1. cbv zeta in Hb2, Hb3. cbv zeta. set (b := _ mod 256) in *. rewrite Hb3.
  assert (forall s a, rep s a -> length a.2 = d ->
    outcome s (Some (sp_append ([b] ++ uint64_octets value k true) a))
      ((CBB_add_u8 d b ;;; asn1_uint64_loop d value k true) s) /\
    forall s' st, (CBB_add_u8 d b ;;; asn1_uint64_loop d value k true) s = (Some st, s') -> st = true)
    as Hrest.
  { clear s a Hrep Hd. intros s a Hrep Hd. split.
    - apply (append_bind d); [done|by apply add_u8_ok|]. intros u s' a' Hrep' Hd'. by apply IH.
    - intros s' st Hr. pose proof (add_u8_ok d s a b Hrep Hd Hb2) as Ho.
      apply st_bind_inv in Hr as (u & s1 & Hu & Hr). rewrite Hu in Ho.
      destruct Ho as (a' & [= <-] & Hrep' & _).
      destruct (IH true s1 (sp_append [b] a) Hv Hrep' ltac:(by rewrite sp_append_length)) as [_ Hst].
      by apply Hst in Hr. }
  destruct started; cbn [negb].
  { destruct (Hrest s a Hrep Hd) as [Ho Hs]. split; [done|]. intros s' st Hr. by apply Hs in Hr. }
  destruct (Z.eqb_spec b 0) as [E|E]; [by apply IH|].
  assert (forall s a, rep s a -> length a.2 = d ->
    outcome s (Some (sp_append (if 128 <=? b then [0] else []) a))
      ((if 128 <=? b then CBB_add_u8 d 0 else st_ret tt) s)) as Hpad.
  { clear s a Hrep Hd. intros s a Hrep Hd. destruct (128 <=? b); [apply add_u8_ok; [done|done|unfold is_byte; lia]|].
    by apply append_ret. }
  split.
  - apply (append_bind d); [done|by apply Hpad|]. intros u s' a' Hrep' Hd'. by apply Hrest.
  - intros s' st Hr. apply st_bind_inv in Hr as (u & s1 & Hu & Hr). pose proof (Hpad s a Hrep Hd) as Ho.
    rewrite Hu in Ho. destruct Ho as (a' & [= <-] & Hrep' & _).
    apply (Hrest s1 (sp_append (if 128 <=? b then [0] else []) a)) in Hr as ->;
      [|done|by rewrite sp_append_length].
    rewrite bool_decide_eq_true_2; [done|]. by destruct (128 <=? b).
Qed.

Lemma uint64_octets_started value k : uint64_octets value k true = be_bytes k value.
Proof.
  induction k as [|k IH]; [done|]. cbn [uint64_octets negb]. rewrite IH. clear IH.
  revert value. induction k as [|k IH]; intros value.
  - change (256 ^ Z.of_nat 0) with 1. by rewrite Z.div_1_r.
  - rewrite (be_bytes_S k value), Nat2Z.inj_succ, Z.pow_succ_r, <- Z.div_div, app_comm_cons by lia.
    by rewrite (IH (value / 256)), <- be_bytes_S.
Qed.

Lemma uint64_octets_spec value k :
  0 < value < 256 ^ Z.of_nat k ->
  let l := uint64_octets value k false in
  bytes_ok l /\ min_body l /\ signed_val l = value /\ (length l <= S k)%nat.
Proof.
  induction k as [|k IH]; intros Hv; [change (256 ^ Z.of_nat 0) with 1 in Hv; lia|].
  rewrite Nat2Z.inj_succ, Z.pow_succ_r in Hv by lia. cbv zeta. cbn [uint64_octets negb].
  assert (0 < 256 ^ Z.of_nat k) by (apply Z.pow_pos_nonneg; lia).
  assert (0 <= value / 256 ^ Z.of_nat k < 256) as Hb
    by (split; [apply Z.div_pos; lia|apply Z.div_lt_upper_bound; lia]).
  rewrite Z.mod_small by lia. pose proof (Z.div_mod value (256 ^ Z.of_nat k) ltac:(lia)) as Hdm.
  pose proof (Z.mod_pos_bound value (256 ^ Z.of_nat k) ltac:(lia)).
  set (b := value / _) in *. destruct (Z.eqb_spec b 0) as [E|E].
  - destruct IH as (? & ? & ? & ?); [nia|]. split_and!; [done..|lia].
  - rewrite uint64_octets_started. pose proof (be_bytes_ok k value) as Hok.
    assert (be_val (b :: be_bytes k value) = value) as Hval.
    { rewrite be_val_cons, Zlen_be_bytes, be_val_be_bytes. lia. }
    destruct (Z.leb_spec 128 b).
    + cbn [app]. split_and!.
      * repeat (constructor; [unfold is_byte; lia|]). done.
      * simpl. lia.
      * unfold signed_val. destruct (Z.ltb_spec 0 128); [|lia]. rewrite be_val_cons. lia.
      * simpl. rewrite length_be_bytes. lia.
    + cbn [app]. split_and!.
      * constructor; [unfold is_byte; lia|done].
      * simpl. destruct (be_bytes k value); [done|lia].
      * unfold signed_val. by destruct (Z.ltb_spec b 128); [|lia].
      * simpl. rewrite length_be_bytes. lia.
Qed.

Lemma uint64_octets_der_int value :
  0 <= value < 2 ^ 64 ->
  let l := uint64_octets value 8 false in
  (if negb (bool_decide (l <> [])) then [0] else l) = der_int value.
Proof.
  intros Hv l. destruct (decide (value = 0)) as [->|Hne]; [done|].
  destruct (uint64_octets_spec value 8) as (Hok & Hmin & Hval & Hlen); [change (256 ^ Z.of_nat 8) with (2 ^ 64); lia|].
  fold l in Hok, Hmin, Hval, Hlen. rewrite bool_decide_eq_true_2 by (by destruct l). cbn [negb].
  rewrite <- Hval. symmetry. apply min_body_der_int; [done|done|lia].
Qed.

Lemma add_uint64_ok d (s : CBB) a value t :
  rep s a -> (d <= length a.2)%nat -> 0 <= value < 2 ^ 64 -> 0 <= t < 2 ^ 32 ->
  outcome s (sp_element d t (der_int value) a) (CBB_add_asn1_uint64_with_tag d value t s).
Proof.
  intros Hrep Hd Hv Ht. unfold CBB_add_asn1_uint64_with_tag. apply element_or_error_ok; [done..|].
  intros s' a' Hrep' Hd'. rewrite <- uint64_octets_der_int by done. cbv zeta.
  destruct (uint64_loop_ok (S d) value 8 false s' a' ltac:(lia) Hrep' Hd') as [Ho Hst].
  set (l := uint64_octets value 8 false) in *. unfold st_bind.
  destruct (asn1_uint64_loop (S d) value 8 false s') as [[st|] s1]; [|].
  - rewrite (Hst s1 st eq_refl). destruct Ho as (a1 & [= <-] & Hrep1 & Hf1).
    cbn [orb]. case_bool_decide as Hl; cbn [negb].
    + exists (sp_append l a'). by split_and!.
    + assert (l = []) as Hl' by (by destruct l). rewrite Hl', sp_append_nil in *.
      pose proof (add_u8_ok (S d) s1 a' 0 Hrep1 Hd' ltac:(unfold is_byte; lia)) as Hu.
      unfold outcome in *. destruct (CBB_add_u8 (S d) 0 s1) as [[u|] s2].
      * destruct Hu as (a2 & [= <-] & ? & Hf2). eexists. split_and!; [done|done|].
        intros sz Hs Hle. apply Hf2; [|done]. apply Hf1; [done|]. rewrite sp_append_size in Hle.
        change (Zlen [0]) with 1 in Hle. lia.
      * destruct Hu as [? Hu]. split; [done|]. intros a2 [= <-] Hs. apply (Hu _ eq_refl).
        apply Hf1; [done|]. rewrite sp_append_size. change (Zlen [0]) with 1. lia.
  - destruct Ho as [He Hf]. split; [done|]. intros a1 [= <-] Hs. apply (Hf _ eq_refl).
    eapply fits_mono; [exact Hs|]. rewrite !sp_append_size.
    case_bool_decide as Hl; cbn [negb]; [lia|]. assert (l = []) as -> by (by destruct l).
    change (Zlen []) with 0. change (Zlen [0]) with 1. lia.
Qed.

Lemma nth_le_bytes n v i : (i < n)%nat -> nth i (le_bytes n v) 0 = (v / 256 ^ Z.of_nat i) mod 256.
Proof.
  revert v i. induction n as [|n IH]; intros v i Hi; [lia|]. destruct i as [|i]; simpl.
  - change (256 ^ Z.of_nat 0) with 1. by rewrite Z.div_1_r.
  - rewrite IH, Nat2Z.inj_succ, Z.pow_succ_r, Z.div_div by lia. done.
Qed.

Lemma le_bytes_mod64 v : le_bytes 8 (u64 v) = le_bytes 8 v.
Proof.
  unfold u64. change (2 ^ 64) with (256 ^ Z.of_nat 8). pose proof (be_bytes_mod 8 v) as Hb.
  unfold be_bytes in Hb. apply (f_equal (@rev Z)) in Hb. by rewrite !rev_involutive in Hb.
Qed.

Lemma be_bytes_cons n v : be_bytes (S n) v = nth n (le_bytes (S n) v) 0 :: be_bytes n v.
Proof.
  rewrite nth_le_bytes by lia. rewrite <- !uint64_octets_started. done.
Qed.

(** The sign-extension test of the loop: the value fits in one octet less. *)
Lemma int64_start_step v p :
  v < 0 -> (p < 7)%nat -> int_fits (S (S p)) v = true ->
  ((nth (S p) (le_bytes 8 v) 0 =? 0xff) && negb (Z.land (nth p (le_bytes 8 v) 0) 0x80 =? 0)) =
  int_fits (S p) v.
Proof.
  intros Hv Hp Hfit. pose proof (signed_val_be_bytes (S (S p)) v ltac:(lia) Hfit) as Hs.
  pose proof (be_bytes_ok (S (S p)) v) as Hok.
  pose proof (signed_val_neg _ Hok) as Hneg. rewrite Hs in Hneg.
  rewrite !be_bytes_cons in *. rewrite !nth_le_bytes in * by lia.
  set (b1 := (v / 256 ^ Z.of_nat (S p)) mod 256) in *. set (b2 := (v / 256 ^ Z.of_nat p) mod 256) in *.
  assert (128 <= b1) as Hb1 by (apply Hneg; [done|lia]).
  pose proof (signed_val_tail_fits b1 b2 (be_bytes p v) Hok) as Ht. rewrite Hs in Ht.
  cbn [length] in Ht. rewrite length_be_bytes in Ht.
  assert (is_byte b2) as Hb2 by (apply Z.mod_pos_bound; lia).
  destruct (high_bit_byte b2 Hb2) as [-> _].
  destruct (int_fits (S p) v); destruct (Z.eqb_spec b1 255), (Z.ltb_spec b2 128); simpl; try done.
  - destruct Ht as [Ht _]. specialize (Ht eq_refl). lia.
  - destruct Ht as [Ht _]. specialize (Ht eq_refl). lia.
  - destruct Ht as [Ht _]. specialize (Ht eq_refl). lia.
  - destruct Ht as [_ Ht]. specialize (Ht ltac:(lia)). done.
Qed.

Lemma int64_start_spec v st :
  v < 0 -> (st <= 7)%nat -> int_fits (S st) v = true ->
  S (int64_start (le_bytes 8 v) st) = int_octets v /\ (int64_start (le_bytes 8 v) st <= st)%nat.
Proof.
  intros Hv. induction st as [|p IH]; intros Hst Hfit.
  - cbn [int64_start]. split; [|done]. symmetry. apply int_octets_unique; [lia|done|by left].
  - cbn [int64_start]. rewrite int64_start_step by (done || lia).
    destruct (int_fits (S p) v) eqn:E.
    + destruct IH as [-> ?]; [lia|done|]. split; [done|lia].
    + split; [|lia]. symmetry. apply int_octets_unique; [lia|done|right].
      by rewrite Nat.sub_succ, Nat.sub_0_r.
Qed.

Lemma add_bytes_down_ok d v n : forall (s : CBB) a,
  rep s a -> length a.2 = d -> (n <= 8)%nat ->
  outcome s (Some (sp_append (be_bytes n v) a)) (add_bytes_down d (le_bytes 8 v) n s).
Proof.
  induction n as [|n IH]; intros s a Hrep Hd Hn; [by apply append_ret|].
  cbn [add_bytes_down]. rewrite be_bytes_cons, !nth_le_bytes by lia.
  apply (append_bind d [_]); [done| |].
  - apply add_u8_ok; [done|done|]. apply Z.mod_pos_bound. lia.
  - intros u s' a' Hrep' Hd'. apply IH; [done|done|lia].
Qed.

Lemma add_int64_ok d (s : CBB) a value t :
  rep s a -> (d <= length a.2)%nat -> INT64_MIN <= value <= INT64_MAX -> 0 <= t < 2 ^ 32 ->
  outcome s (sp_element d t (der_int value) a) (CBB_add_asn1_int64_with_tag d value t s).
Proof.
  intros Hrep Hd Hv Ht. pose proof (proj1 (int64_fits value) Hv) as Hfit.
  unfold INT64_MIN, INT64_MAX in Hv. unfold CBB_add_asn1_int64_with_tag.
  destruct (value >=? 0) eqn:E; [apply add_uint64_ok; (done || lia)|].
  rewrite le_bytes_mod64. destruct (int64_start_spec value 7) as [Hst Hle]; [lia|lia|done|].
  apply element_or_error_ok; [done..|]. intros s' a' Hrep' Hd'. unfold der_int. rewrite <- Hst.
  apply add_bytes_down_ok; [done|done|lia].
Qed.

Lemma element_flush_ok {A} d t (body : ST CBB A) data (s : CBB) a :
  rep s a -> (d <= length a.2)%nat -> 0 <= t < 2 ^ 32 ->
  (forall s' a', rep s' a' -> length a'.2 = S d -> outcome s' (Some (sp_append data a')) (body s')) ->
  outcome s (sp_element d t data a) (or_error d (CBB_add_asn1 d t ;;; body ;;; CBB_flush d) s).
Proof.
  intros Hrep Hd Ht Hbody. apply or_error_outcome.
  destruct (element_ok d t body data s a Hrep Hd Ht Hbody) as [_ Ho]. by rewrite st_bind_assoc in Ho.
Qed.

Lemma add_octet_string_ok d (s : CBB) a data :
  rep s a -> (d <= length a.2)%nat -> Zlen data <= SIZE_MAX ->
  outcome s (sp_element d CBS_ASN1_OCTETSTRING data a) (CBB_add_asn1_octet_string d data s).
Proof.
  intros Hrep Hd Hl. apply element_flush_ok; [done|done|unfold CBS_ASN1_OCTETSTRING; lia|].
  intros s' a' Hrep' Hd'. pose proof (add_bytes_ok (S d) s' a' data Hrep' ltac:(lia) Hl) as Ho.
  by rewrite sp_write_flushed in Ho.
Qed.

Lemma add_bool_ok d (s : CBB) a value :
  rep s a -> (d <= length a.2)%nat ->
  outcome s (sp_element d CBS_ASN1_BOOLEAN [if negb (value =? 0) then 0xff else 0] a)
    (CBB_add_asn1_bool d value s).
Proof.
  intros Hrep Hd. apply element_flush_ok; [done|done|unfold CBS_ASN1_BOOLEAN; lia|].
  intros s' a' Hrep' Hd'. apply add_u8_ok; [done|done|].
  destruct (negb (value =? 0)); unfold is_byte; lia.
Qed.

(** A message without children can always be finished. *)
Lemma finish_root (s : CBB) b :
  rep s (b, []) -> exists p s', CBB_finish true s = (Some (p, Zlen b), s') /\
    take (Z.to_nat (Zlen b)) (default [] p) = b.
Proof.
  intros Hrep. pose proof Hrep as [Hb Hch]. simpl in Hch.
  assert (CBB_flush 0 s = (Some tt, s)) as Hf.
  { unfold CBB_flush. rewrite Hch. simpl. rewrite (bo_error _ _ Hb).
    destruct s as [bs ch hp]. simpl in *. by subst. }
  unfold CBB_finish. rewrite (st_bind_some _ _ _ _ _ Hf). rewrite andb_false_r.
  rewrite (bo_len _ _ Hb). simpl. eexists _, _. split; [done|].
  pose proof (bo_content _ _ Hb) as Hc. simpl in Hc. unfold Zlen. rewrite Nat2Z.id. exact Hc.
Qed.

(** * Writing one value and finishing *)

(** [CBB_add_asn1_uint64_with_tag] appends the DER element of the value
    with the given tag: minimal octets, zero as one octet, a padding octet in
    front of a set high bit. *)
Theorem CBB_add_asn1_uint64_with_tag_refines d (s : CBB) a value t :
  rep s a -> (d <= length a.2)%nat -> 0 <= value < 2 ^ 64 -> 0 <= t < 2 ^ 32 ->
  outcome s (sp_element d t (der_int value) a) (CBB_add_asn1_uint64_with_tag d value t s).
Proof. apply add_uint64_ok. Qed.

(** The same for [CBB_add_asn1_int64_with_tag] and the minimal two's
    complement encoding of every [int64_t]. *)
Theorem CBB_add_asn1_int64_with_tag_refines d (s : CBB) a value t :
  rep s a -> (d <= length a.2)%nat -> INT64_MIN <= value <= INT64_MAX -> 0 <= t < 2 ^ 32 ->
  outcome s (sp_element d t (der_int value) a) (CBB_add_asn1_int64_with_tag d value t s).
Proof. apply add_int64_ok. Qed.

(** [CBB_add_asn1_octet_string] appends the OCTET STRING of its data, and
    [CBB_add_asn1_bool] the BOOLEAN 0xff or 0x00. *)
Theorem CBB_add_asn1_octet_string_bool_refines d (s : CBB) a data value :
  rep s a -> (d <= length a.2)%nat -> Zlen data <= SIZE_MAX ->
  outcome s (sp_element d CBS_ASN1_OCTETSTRING data a) (CBB_add_asn1_octet_string d data s) /\
  outcome s (sp_element d CBS_ASN1_BOOLEAN [if negb (value =? 0) then 0xff else 0] a)
    (CBB_add_asn1_bool d value s).
Proof. intros. split; [by apply add_octet_string_ok|by apply add_bool_ok]. Qed.

(** C8. An INTEGER written with [CBB_add_asn1_int64] into a fresh [CBB] and
    finished reads back with [CBS_get_asn1_int64]; and with an allocator that
    does not fail, all of the calls succeed. *)
Theorem asn1_int64_roundtrip value n (h : H) s0 s1 p l s2 :
  INT64_MIN <= value <= INT64_MAX -> 0 <= n <= SIZE_MAX ->
  CBB_init n h = (Some tt, s0) ->
  (CBB_add_asn1_int64 0 value s0 = (Some tt, s1) -> CBB_finish true s1 = (Some (p, l), s2) ->
   CBS_get_asn1_int64 (take (Z.to_nat l) (default [] p)) = (Some value, [])) /\
  (MallocTotal H -> n <= 2 ^ 61 -> exists s1 p l s2,
   CBB_add_asn1_int64 0 value s0 = (Some tt, s1) /\ CBB_finish true s1 = (Some (p, l), s2)).
Proof.
  intros Hv Hn Hi. destruct (init_rep n h s0 Hn Hi) as (Hrep & Hcap & Hrs).
  pose proof (add_int64_ok 0 s0 ([], []) value CBS_ASN1_INTEGER Hrep ltac:(simpl; lia) Hv
    ltac:(unfold CBS_ASN1_INTEGER; lia)) as Ho. fold (CBB_add_asn1_int64 0 value) in Ho.
  pose proof (proj1 (int64_fits value) Hv) as Hfit.
  destruct (der_int_spec 8 value ltac:(lia) Hfit) as (Hs & Hmin & Hl).
  assert (sp_element 0 CBS_ASN1_INTEGER (der_int value) ([], []) =
    Some (der CBS_ASN1_INTEGER (der_int value), [])) as Hsp.
  { unfold sp_element. destruct (Z.leb_spec (Zlen (der_int value)) 0xfffffffe); [done|].
    unfold Zlen in *. lia. }
  rewrite Hsp in Ho. set (el := der CBS_ASN1_INTEGER (der_int value)) in *.
  assert (Zlen el <= 100) as Hel.
  { unfold el. rewrite Zlen_der. unfold der_header, der_len.
    destruct (Z.ltb_spec (Zlen (der_int value)) 128); [|unfold Zlen in *; lia].
    rewrite Zlen_snoc. pose proof (Zlen_der_tag CBS_ASN1_INTEGER). unfold Zlen in *. lia. }
  split.
  - intros Ha Hf. rewrite Ha in Ho. destruct Ho as (a' & [= <-] & Hrep' & _).
    apply (finish_ok _ _ _ _ _ _ Hrep') in Hf as (b & Hb & -> & ->). simpl in Hb.
    assert (b = el) as -> by congruence. unfold el in *. unfold CBS_get_asn1_int64. rewrite <- (app_nil_r (der _ _)).
    rewrite (st_bind_some _ _ _ _ _ (get_asn1_integer_app (der_int value) [] ltac:(lia)
      ltac:(rewrite app_nil_r; unfold SIZE_MAX; lia))).
    replace (CBS_is_valid_asn1_integer (der_int value)) with (Some (signed_val (der_int value) <? 0))
      by (symmetry; apply valid_integer_iff; [apply der_int_bytes_ok|done]).
    destruct (Zlen (der_int value) >? 8) eqn:E8; [unfold Zlen in *; lia|].
    rewrite sign_extend_val; [by rewrite Hs|apply der_int_bytes_ok| |lia].
    intros E. rewrite E in Hl. simpl in Hl. lia.
  - intros Ht Hn'. destruct (CBB_add_asn1_int64 0 value s0) as [[[]|] s1'] eqn:Ea.
    + destruct Ho as (a' & [= <-] & Hrep' & _).
      destruct (finish_root s1' _ Hrep') as (p' & s2' & Hf & _). by eexists _, _, _, _.
    + destruct Ho as [_ Ho]. destruct (Ho _ eq_refl). right. split_and!; [done|done|lia|].
      unfold msg_size. simpl. lia.
Qed.

(** * Lemmas: OBJECT IDENTIFIERs and their text *)

Lemma oid_text_cons c cs :
  oid_text (c :: cs) = dec c ++ match cs with [] => [] | _ => 46 :: oid_text cs end.
Proof. by destruct cs. Qed.

Lemma dec_nonempty v : 0 <= v -> dec v <> [].
Proof. intros. by apply canon_dec. Qed.

Lemma oid_text_nonempty c cs : 0 <= c -> oid_text (c :: cs) <> [].
Proof. intros Hc. pose proof (dec_nonempty c Hc). simpl. by destruct (dec c). Qed.

Lemma parse_dotted_complete c cs :
  0 <= c < 2 ^ 64 -> Forall (fun c => 0 <= c < 2 ^ 64) cs ->
  parse_dotted_decimal (oid_text (c :: cs)) = (Some c, oid_text cs).
Proof.
  intros Hc Hcs. rewrite oid_text_cons. unfold parse_dotted_decimal.
  replace (CBS_get_u64_decimal _) with
    (Some c, match cs with [] => [] | _ => 46 :: oid_text cs end).
  2: { symmetry. apply get_u64_decimal_iff. split_and!; [lia|lia|done|].
       destruct cs; [done|]. simpl. unfold is_digit. lia. }
  destruct cs as [|c' cs]; [done|]. rewrite CBS_get_u8_cons. apply Forall_cons in Hcs as [Hc' _].
  pose proof (oid_text_nonempty c' cs ltac:(lia)) as Hne. simpl (46 =? 46).
  destruct (Z.eqb_spec (Zlen (oid_text (c' :: cs))) 0) as [E|]; [|done].
  by apply Zlen_0_inv in E.
Qed.

Lemma parse_dotted_sound s v rest :
  parse_dotted_decimal s = (Some v, rest) ->
  0 <= v < 2 ^ 64 /\ (rest = [] /\ s = dec v \/ rest <> [] /\ s = dec v ++ 46 :: rest).
Proof.
  unfold parse_dotted_decimal. destruct (CBS_get_u64_decimal s) as [[w|] r] eqn:E; [|done].
  apply get_u64_decimal_iff in E as (Hw & -> & _).
  destruct (CBS_get_u8 r) as [[dot|] r'] eqn:E8.
  - apply CBS_get_u8_inv in E8 as ->. destruct (Z.eqb_spec dot 46) as [->|]; [|done]. simpl.
    destruct (Z.eqb_spec (Zlen r') 0) as [|Hne]; [done|]. intros [= <- <-]. split; [done|right].
    split; [|done]. by intros ->.
  - destruct r; [|by rewrite CBS_get_u8_cons in E8]. rewrite CBS_get_u8_nil in E8. simplify_eq.
    intros [= <- <-]. rewrite app_nil_r. auto.
Qed.

Lemma Zlen_pos_ne {A} (l : list A) : l <> [] -> 0 < Zlen l.
Proof. destruct l; [done|]. intros _. rewrite Zlen_cons. pose proof (Zlen_nonneg l). lia. Qed.

Lemma length_oid_text c cs :
  0 <= c -> (length (oid_text cs) < length (oid_text (c :: cs)))%nat.
Proof.
  intros Hc. rewrite oid_text_cons, length_app. pose proof (dec_nonempty c Hc).
  destruct (dec c); [done|]. destruct cs; simpl; lia.
Qed.

Lemma from_text_loop_ok d cs : forall fuel (s : CBB) a,
  Forall (fun c => 0 <= c < 2 ^ 64) cs -> rep s a -> length a.2 = d ->
  (length (oid_text cs) <= fuel)%nat ->
  outcome s (Some (sp_append (concat (base128 <$> cs)) a)) (oid_from_text_loop d fuel (oid_text cs) s).
Proof.
  induction cs as [|c cs IH]; intros fuel s a Hcs Hrep Hd Hfuel.
  - destruct fuel; by apply append_ret.
  - apply Forall_cons in Hcs as [Hc Hcs]. pose proof (oid_text_nonempty c cs ltac:(lia)) as Hne.
    pose proof (length_oid_text c cs ltac:(lia)).
    destruct fuel as [|fuel]; [lia|]. cbn [oid_from_text_loop].
    destruct (Zlen (oid_text (c :: cs)) >? 0) eqn:E; [|apply Zlen_pos_ne in Hne; lia].
    rewrite parse_dotted_complete by done. rewrite fmap_cons. cbn [concat].
    apply (append_bind d); [done|by apply add_base128_ok|].
    intros u s' a' Hrep' Hd'. apply IH; [done..|lia].
Qed.

Lemma from_text_loop_sound d fuel : forall cbs (s : CBB) u s',
  oid_from_text_loop d fuel cbs s = (Some u, s') ->
  exists cs, Forall (fun c => 0 <= c < 2 ^ 64) cs /\ cbs = oid_text cs.
Proof.
  induction fuel as [|fuel IH]; intros cbs s u s' Hl; cbn [oid_from_text_loop] in Hl;
    (destruct (Zlen cbs >? 0) eqn:E;
      [|exists []; split; [done|apply Zlen_0_inv; pose proof (Zlen_nonneg cbs); lia]]); [done|].
  destruct (parse_dotted_decimal cbs) as [[c|] rest] eqn:Ep; [|done].
  apply st_bind_inv in Hl as (u1 & s1 & _ & Hl). apply IH in Hl as (cs & Hcs & ->).
  apply parse_dotted_sound in Ep as [Hc Hcase]. exists (c :: cs).
  split; [by constructor|]. rewrite oid_text_cons.
  destruct Hcase as [[Hn ->]|[Hn ->]]; destruct cs as [|c' cs]; try done.
  - by rewrite app_nil_r.
  - apply Forall_cons in Hcs as [Hc' _]. by apply oid_text_nonempty in Hn; [|lia].
Qed.

(** [CBB_add_asn1_oid_from_text] accepts exactly the dotted-decimal texts of
    valid OBJECT IDENTIFIERs - at least two components, the first at most 2, the
    second at most 39 below it, each of 64 bits, no leading zeros and no trailing
    dot - and appends their DER contents. *)
Theorem CBB_add_asn1_oid_from_text_refines d (s : CBB) a text :
  rep s a -> (d <= length a.2)%nat ->
  (forall comps, valid_oid comps -> text = oid_text comps ->
    outcome s (sp_write d (oid_body comps) a) (CBB_add_asn1_oid_from_text d text s)) /\
  (forall s', CBB_add_asn1_oid_from_text d text s = (Some tt, s') ->
    exists comps, valid_oid comps /\ text = oid_text comps).
Proof.
  intros Hrep Hd. split.
  - intros comps Hv ->. destruct comps as [|x [|y cs]]; [done..|].
    destruct Hv as (Hx & Hy & Hxy & Hcs). unfold UINT64_MAX in Hy.
    unfold CBB_add_asn1_oid_from_text, sp_write. rewrite option_fmap_bind.
    apply outcome_bind; [by apply flush_outcome| |].
    2: { intros a' a'' _ [= <-]. apply sp_append_size_le. }
    intros u s' a' Ha' Hrep'. pose proof (close_at_length _ _ _ _ Ha') as Hd'.
    rewrite parse_dotted_complete; [|lia|constructor; [lia|done]].
    rewrite parse_dotted_complete; [|lia|done]. unfold UINT64_MAX.
    destruct (x >? 2) eqn:E1; [lia|]. destruct (y >? 2 ^ 64 - 1 - 80) eqn:E3; [lia|].
    destruct ((x <? 2) && (y >? 39)) eqn:E2; [lia|]. simpl. unfold u64.
    rewrite Z.mod_small by lia. apply (append_bind d); [done|apply add_base128_ok; [done|done|lia]|].
    intros u' s'' a'' Hrep'' Hd''. by apply from_text_loop_ok.
  - intros s' Hf. unfold CBB_add_asn1_oid_from_text in Hf. apply st_bind_inv in Hf as (u & s1 & _ & Hf).
    destruct (parse_dotted_decimal text) as [[x|] r1] eqn:E1; [|done].
    destruct (parse_dotted_decimal r1) as [[y|] r2] eqn:E2; [|done].
    destruct ((x >? 2) || _ || _) eqn:Ec; [done|]. unfold UINT64_MAX in Ec.
    apply st_bind_inv in Hf as (u' & s2 & _ & Hf). apply from_text_loop_sound in Hf as (cs & Hcs & ->).
    apply parse_dotted_sound in E1 as [Hx Hc1]. apply parse_dotted_sound in E2 as [Hy Hc2].
    exists (x :: y :: cs). split; [unfold valid_oid, UINT64_MAX; split_and!; try done; intros; lia|].
    destruct Hc1 as [[-> ->]|[Hn1 ->]].
    + destruct Hc2 as [[_ Hd2]|[_ Hd2]]; pose proof (dec_nonempty y ltac:(lia)); by destruct (dec y).
    + rewrite !oid_text_cons. do 2 f_equal. destruct Hc2 as [[Hr ->]|[Hr ->]]; destruct cs as [|c cs]; try done.
      * by rewrite app_nil_r.
      * apply Forall_cons in Hcs as [Hc _]. by apply oid_text_nonempty in Hr; [|lia].
Qed.

Lemma length_dec k v : 0 <= v < 10 ^ Z.of_nat (S k) -> (length (dec v) <= S k)%nat.
Proof.
  revert v. induction k as [|k IH]; intros v Hv.
  - change (10 ^ Z.of_nat 1) with 10 in Hv. by rewrite dec_small.
  - destruct (decide (v < 10)); [rewrite dec_small by lia; simpl; lia|].
    rewrite dec_step, length_app by lia. rewrite Nat2Z.inj_succ, Z.pow_succ_r in Hv by lia.
    specialize (IH (v / 10)). simpl. assert (0 <= v / 10 < 10 ^ Z.of_nat (S k)); [|lia].
    split; [apply Z.div_pos; lia|apply Z.div_lt_upper_bound; lia].
Qed.

Lemma Zlen_dec64 v : 0 <= v < 2 ^ 64 -> Zlen (dec v) <= 20.
Proof.
  intros Hv. pose proof (length_dec 19 v) as Hl. change (10 ^ Z.of_nat 20) with 100000000000000000000 in Hl.
  unfold Zlen. lia.
Qed.

Lemma add_decimal_ok d (s : CBB) a v :
  rep s a -> length a.2 = d -> 0 <= v < 2 ^ 64 ->
  outcome s (Some (sp_append (dec v) a)) (add_decimal d v s).
Proof.
  intros Hrep Hd Hv. pose proof (Zlen_dec64 v Hv).
  pose proof (add_bytes_ok d s a (dec v) Hrep ltac:(lia) ltac:(unfold SIZE_MAX; lia)) as Ho.
  by rewrite sp_write_flushed in Ho.
Qed.

Lemma to_text_loop_ok cs : forall fuel (s : CBB) a,
  Forall (fun c => 0 <= c < 2 ^ 64) cs -> rep s a -> length a.2 = 0%nat ->
  (length (concat (base128 <$> cs)) <= fuel)%nat ->
  outcome s (Some (sp_append (concat ((fun c => 46 :: dec c) <$> cs)) a))
    (oid_to_text_loop fuel (concat (base128 <$> cs)) s).
Proof.
  induction cs as [|c cs IH]; intros fuel s a Hcs Hrep Hd Hfuel.
  - destruct fuel; by apply append_ret.
  - apply Forall_cons in Hcs as [Hc Hcs]. rewrite !fmap_cons in *. cbn [concat] in *.
    rewrite length_app in Hfuel. pose proof (Zlen_base128 9 c) as Hb.
    change (128 ^ (1 + Z.of_nat 9)) with (2 ^ 70) in Hb. specialize (Hb ltac:(lia)). unfold Zlen in Hb.
    destruct fuel as [|fuel]; [lia|]. cbn [oid_to_text_loop]. unfold Zlen. rewrite length_app.
    match goal with |- context [?x =? 0] => destruct (Z.eqb_spec x 0); [lia|] end. cbn [negb].
    rewrite parse_base128_complete by done. change (46 :: dec c) with ([46] ++ dec c). rewrite <- app_assoc.
    apply (append_bind 0); [done|apply add_u8_ok; [done|done|unfold is_byte; lia]|].
    intros u s' a' Hrep' Hd'. apply (append_bind 0); [done|by apply add_decimal_ok|].
    intros u' s'' a'' Hrep'' Hd''. apply IH; [done..|lia].
Qed.

Lemma to_text_loop_sound fuel : forall copy (s : CBB) u s',
  bytes_ok copy -> oid_to_text_loop fuel copy s = (Some u, s') ->
  exists cs, Forall (fun c => 0 <= c < 2 ^ 64) cs /\ copy = concat (base128 <$> cs).
Proof.
  induction fuel as [|fuel IH]; intros copy s u s' Hok Hl; cbn [oid_to_text_loop] in Hl;
    (destruct (Z.eqb_spec (Zlen copy) 0) as [E|E];
      [exists []; split; [done|by apply Zlen_0_inv]|]); cbn [negb] in Hl; [done|].
  destruct (parse_base128_integer copy) as [[c|] rest] eqn:Ep; [|done].
  apply parse_base128_sound in Ep as [-> Hc]; [|done]. simp_bytes.
  apply st_bind_inv in Hl as (u1 & s1 & _ & Hl). apply st_bind_inv in Hl as (u2 & s2 & _ & Hl).
  apply IH in Hl as (cs & Hcs & ->); [|done]. exists (c :: cs). split; [by constructor|done].
Qed.

Definition to_text_head (v : Z) : ST CBB unit :=
  if v >=? 80 then CBB_add_bytes 0 [50; 46] ;;; add_decimal 0 (v - 80)
  else add_decimal 0 (v / 40) ;;; CBB_add_u8 0 46 ;;; add_decimal 0 (v mod 40).

Lemma to_text_head_ok (s : CBB) a x y :
  rep s a -> length a.2 = 0%nat -> 0 <= x <= 2 -> 0 <= y <= UINT64_MAX - 80 -> (x < 2 -> y <= 39) ->
  outcome s (Some (sp_append (dec x ++ 46 :: dec y) a)) (to_text_head (40 * x + y) s).
Proof.
  unfold UINT64_MAX. intros Hrep Hd Hx Hy Hxy. unfold to_text_head. destruct (40 * x + y >=? 80) eqn:E.
  - assert (x = 2) as -> by lia. change (dec 2 ++ 46 :: dec y) with ([50; 46] ++ dec y).
    replace (40 * 2 + y - 80) with y by lia. apply (append_bind 0); [done| |].
    + pose proof (add_bytes_ok 0 s a [50; 46] Hrep ltac:(lia) ltac:(vm_compute; discriminate)) as Ho.
      by rewrite sp_write_flushed in Ho.
    + intros u s' a' Hrep' Hd'. apply add_decimal_ok; [done|done|lia].
  - assert ((40 * x + y) / 40 = x /\ (40 * x + y) mod 40 = y) as [-> ->].
    { rewrite (Z.mul_comm 40 x), Z.div_add_l, Z.div_small by lia.
      rewrite (Z.add_comm (x * 40)), Z.mod_add, Z.mod_small by lia. lia. }
    apply (append_bind 0); [done|apply add_decimal_ok; [done|done|lia]|].
    intros u s' a' Hrep' Hd'. change (46 :: dec y) with ([46] ++ dec y).
    apply (append_bind 0); [done|apply add_u8_ok; [done|done|unfold is_byte; lia]|].
    intros u' s'' a'' Hrep'' Hd''. apply add_decimal_ok; [done|done|lia].
Qed.

(** The printing of a valid OID into a fresh [CBB], up to the NUL. *)
Lemma to_text_ok (s : CBB) x y cs :
  rep s ([], []) -> valid_oid (x :: y :: cs) ->
  let copy := concat (base128 <$> cs) in
  outcome s (Some (oid_text (x :: y :: cs) ++ [0], []))
    ((to_text_head (40 * x + y) ;;; oid_to_text_loop (length copy) copy ;;; CBB_add_u8 0 0) s).
Proof.
  intros Hrep (Hx & Hy & Hxy & Hcs) copy.
  assert (oid_text (x :: y :: cs) ++ [0] =
    (dec x ++ 46 :: dec y) ++ concat ((fun c => 46 :: dec c) <$> cs) ++ [0]) as ->.
  { unfold oid_text. rewrite fmap_cons. cbn [concat]. by rewrite <- !app_assoc. }
  set (t := concat ((fun c => 46 :: dec c) <$> cs)).
  change (Some ((dec x ++ 46 :: dec y) ++ t ++ [0], []))
    with (Some (sp_append ((dec x ++ 46 :: dec y) ++ t ++ [0]) ([], []))).
  apply (append_bind 0); [done|by apply to_text_head_ok|].
  intros u s' a' Hrep' Hd'. apply (append_bind 0); [done|by apply to_text_loop_ok|].
  intros u' s'' a'' Hrep'' Hd''. apply add_u8_ok; [done|done|unfold is_byte; lia].
Qed.

Lemma oid_to_text_eq cbs (h : H) v copy s :
  parse_base128_integer cbs = (Some v, copy) -> CBB_init 32 h = (Some tt, s) ->
  CBS_asn1_oid_to_text cbs h =
    match ((to_text_head v ;;; oid_to_text_loop (length copy) copy ;;; CBB_add_u8 0 0) ;;;
           CBB_finish true) s with
    | (Some (Some txt, txt_len), s) => (Some (take (Z.to_nat txt_len) txt), heap s)
    | (_, s) => (None, heap s)
    end.
Proof.
  intros Hp Hi. unfold CBS_asn1_oid_to_text. rewrite Hi, Hp. fold (to_text_head v).
  rewrite !st_bind_assoc. unfold st_bind.
  destruct (to_text_head v s) as [[u|] s1]; [|done].
  destruct (oid_to_text_loop (length copy) copy s1) as [[u1|] s2]; [|done].
  destruct (CBB_add_u8 0 0 s2) as [[u2|] s3]; [|done].
  by destruct (CBB_finish true s3) as [[[[txt|] l]|] s4].
Qed.

Lemma Zlen_oid_text cs :
  Forall (fun c => 0 <= c < 2 ^ 64) cs ->
  Zlen (concat ((fun c => 46 :: dec c) <$> cs)) <= 21 * Zlen (concat (base128 <$> cs)).
Proof.
  induction cs as [|c cs IH]; intros Hcs; [done|]. apply Forall_cons in Hcs as [Hc Hcs].
  rewrite !fmap_cons. cbn [concat]. rewrite !Zlen_app, Zlen_cons. specialize (IH Hcs).
  pose proof (Zlen_dec64 c Hc). pose proof (Zlen_base128 9 c) as Hb.
  change (128 ^ (1 + Z.of_nat 9)) with (2 ^ 70) in Hb. lia.
Qed.

Lemma oid_to_text_sound cbs (h : H) t h' :
  bytes_ok cbs -> CBS_asn1_oid_to_text cbs h = (Some t, h') ->
  exists comps, valid_oid comps /\ cbs = oid_body comps /\ t = oid_text comps ++ [0].
Proof.
  intros Hok Ht. destruct (CBB_init 32 h) as [[[]|] s] eqn:Hi.
  2: { unfold CBS_asn1_oid_to_text in Ht. by rewrite Hi in Ht. }
  destruct (parse_base128_integer cbs) as [[v|] copy] eqn:Hp.
  2: { unfold CBS_asn1_oid_to_text in Ht. by rewrite Hi, Hp in Ht. }
  rewrite (oid_to_text_eq cbs h v copy s Hp Hi) in Ht.
  apply parse_base128_sound in Hp as [-> Hv]; [|done]. simp_bytes.
  destruct (init_rep 32 h s ltac:(unfold SIZE_MAX; lia) Hi) as (Hrep & _).
  destruct (st_bind _ _ s) as [[[[txt|] l]|] s'] eqn:Hr; [|done..]. injection Ht as <- <-.
  apply st_bind_inv in Hr as (u & s1 & Hb & Hf).
  assert (exists cs, Forall (fun c => 0 <= c < 2 ^ 64) cs /\ copy = concat (base128 <$> cs)) as (cs & Hcs & ->).
  { apply st_bind_inv in Hb as (u1 & s2 & _ & Hb). apply st_bind_inv in Hb as (u2 & s3 & Hb & _).
    by apply to_text_loop_sound in Hb. }
  set (x := if v >=? 80 then 2 else v / 40). set (y := v - 40 * x).
  assert (v = 40 * x + y) as Hvxy by (unfold y; lia).
  assert (valid_oid (x :: y :: cs)) as Hvalid.
  { pose proof (Z.div_mod v 40 ltac:(lia)). pose proof (Z.mod_pos_bound v 40 ltac:(lia)).
    unfold valid_oid, UINT64_MAX, y, x. destruct (v >=? 80) eqn:E; (split_and!; [lia..|done]). }
  pose proof (to_text_ok s x y cs Hrep Hvalid) as Ho. cbv zeta in Ho. rewrite <- Hvxy, Hb in Ho.
  destruct Ho as (a' & [= <-] & Hrep' & _).
  apply (finish_ok _ _ _ _ _ _ Hrep') in Hf as (b & [= <-] & -> & Ht).
  exists (x :: y :: cs). split_and!; [done| |exact Ht]. simpl. by rewrite Hvxy.
Qed.

Lemma oid_to_text_complete cbs (h : H) comps :
  MallocTotal H -> valid_oid comps -> cbs = oid_body comps -> Zlen cbs <= 2 ^ 50 ->
  exists t h', CBS_asn1_oid_to_text cbs h = (Some t, h').
Proof.
  intros Htot Hvalid Hcbs Hl. destruct comps as [|x [|y cs]]; [done..|].
  pose proof Hvalid as (Hx & Hy & Hxy & Hcs). unfold UINT64_MAX in Hy.
  assert (exists s, CBB_init 32 h = (Some tt, s)) as [s Hi].
  { unfold CBB_init. destruct (OPENSSL_malloc_total 32 h ltac:(lia)) as (b & h' & ->). eauto. }
  assert (parse_base128_integer cbs = (Some (40 * x + y), concat (base128 <$> cs))) as Hp.
  { rewrite Hcbs. cbn [oid_body]. rewrite fmap_cons. cbn [concat]. apply parse_base128_complete. lia. }
  rewrite (oid_to_text_eq cbs h _ _ s Hp Hi).
  destruct (init_rep 32 h s ltac:(unfold SIZE_MAX; lia) Hi) as (Hrep & Hcap & Hrs).
  pose proof (to_text_ok s x y cs Hrep Hvalid) as Ho. cbv zeta in Ho.
  match type of Ho with outcome _ _ (?m s) => destruct (m s) as [[u|] s1] eqn:Hm end.
  - rewrite (st_bind_some _ _ _ _ _ Hm). destruct Ho as (a' & [= <-] & Hrep' & _).
    destruct (finish_root s1 _ Hrep') as (p & s2 & -> & Hp'). destruct p as [p|]; [eauto|].
    cbn [default] in Hp'. rewrite take_nil in Hp'. by apply app_cons_not_nil in Hp'.
  - destruct Ho as [_ Ho]. destruct (Ho _ eq_refl). right. rewrite Hcap. split_and!; [done|done|lia|].
    unfold msg_size. cbn [flatten fst snd]. rewrite Zlen_snoc. unfold oid_text. rewrite fmap_cons.
    cbn [concat]. rewrite !Zlen_app, Zlen_cons. pose proof (Zlen_dec64 x ltac:(lia)).
    pose proof (Zlen_dec64 y ltac:(lia)). pose proof (Zlen_oid_text cs Hcs).
    rewrite Hcbs in Hl. cbn [oid_body] in Hl. rewrite fmap_cons in Hl. cbn [concat] in Hl.
    rewrite Zlen_app in Hl. pose proof (Zlen_nonneg (base128 (40 * x + y))). lia.
Qed.

(** [CBS_asn1_oid_to_text] prints exactly the DER contents of a valid OBJECT
    IDENTIFIER, as its dotted-decimal text with a NUL at the end; every other
    input gives NULL, and a valid one does unless an allocation fails. *)
Theorem CBS_asn1_oid_to_text_spec cbs (h : H) :
  bytes_ok cbs ->
  (forall t h', CBS_asn1_oid_to_text cbs h = (Some t, h') ->
    exists comps, valid_oid comps /\ cbs = oid_body comps /\ t = oid_text comps ++ [0]) /\
  (MallocTotal H -> forall comps, valid_oid comps -> cbs = oid_body comps -> Zlen cbs <= 2 ^ 50 ->
    exists t h', CBS_asn1_oid_to_text cbs h = (Some t, h')).
Proof.
  intros Hok. split.
  - intros t h'. by apply oid_to_text_sound.
  - intros Ht comps. by apply oid_to_text_complete.
Qed.

(** * Lemmas: SET OF *)

Lemma compare_cons x y a b :
  compare_set_of_element (x :: a) (y :: b) =
    if x <? y then -1 else if y <? x then 1 else compare_set_of_element a b.
Proof.
  unfold compare_set_of_element. rewrite !Zlen_cons. pose proof (Zlen_nonneg a). pose proof (Zlen_nonneg b).
  assert ((1 + Zlen a <? 1 + Zlen b) = (Zlen a <? Zlen b)) as -> by lia.
  assert ((1 + Zlen a =? 1 + Zlen b) = (Zlen a =? Zlen b)) as -> by lia.
  assert (Z.to_nat (if Zlen a <? Zlen b then 1 + Zlen a else 1 + Zlen b) =
    S (Z.to_nat (if Zlen a <? Zlen b then Zlen a else Zlen b))) as -> by (destruct (_ <? _); lia).
  cbn [OPENSSL_memcmp]. by destruct (x <? y), (y <? x).
Qed.

Lemma memcmp_nil_l b n : OPENSSL_memcmp [] b n = 0.
Proof. by destruct n. Qed.

Lemma compare_nil_l b : compare_set_of_element [] b <= 0.
Proof.
  unfold compare_set_of_element. rewrite memcmp_nil_l. change (Zlen []) with 0.
  pose proof (Zlen_nonneg b). change (negb (0 =? 0)) with false. cbv iota.
  destruct (Z.eqb_spec 0 (Zlen b)); [lia|]. destruct (Z.ltb_spec 0 (Zlen b)); lia.
Qed.

Lemma compare_nil_r x a : compare_set_of_element (x :: a) [] = 1.
Proof.
  unfold compare_set_of_element. change (Zlen []) with 0. rewrite Zlen_cons. pose proof (Zlen_nonneg a).
  destruct (1 + Zlen a <? 0) eqn:E1; [lia|]. destruct (1 + Zlen a =? 0) eqn:E2; [lia|]. done.
Qed.

Lemma compare_total a b : compare_set_of_element a b <= 0 \/ compare_set_of_element b a <= 0.
Proof.
  revert b. induction a as [|x a IH]; intros b; [left; apply compare_nil_l|].
  destruct b as [|y b]; [right; apply compare_nil_l|]. rewrite !compare_cons.
  destruct (Z.ltb_spec x y), (Z.ltb_spec y x); try lia. apply IH.
Qed.

Lemma compare_trans a b c :
  compare_set_of_element a b <= 0 -> compare_set_of_element b c <= 0 -> compare_set_of_element a c <= 0.
Proof.
  revert b c. induction a as [|x a IH]; intros [|y b] [|z c]; rewrite ?compare_nil_r, ?compare_cons;
    intros; try apply compare_nil_l; try lia.
  destruct (Z.ltb_spec x y), (Z.ltb_spec y x), (Z.ltb_spec y z), (Z.ltb_spec z y),
    (Z.ltb_spec x z), (Z.ltb_spec z x); try lia; by eapply IH.
Qed.

Lemma compare_eq a b : compare_set_of_element a b = 0 <-> a = b.
Proof.
  revert b. induction a as [|x a IH]; intros [|y b]; rewrite ?compare_nil_r, ?compare_cons.
  - done.
  - split; [|done]. unfold compare_set_of_element. rewrite memcmp_nil_l. change (Zlen []) with 0.
    rewrite Zlen_cons. pose proof (Zlen_nonneg b). change (negb (0 =? 0)) with false. cbv iota.
    destruct (Z.eqb_spec 0 (1 + Zlen b)); [lia|]. by destruct (Z.ltb_spec 0 (1 + Zlen b)); [|lia].
  - by split.
  - destruct (Z.ltb_spec x y), (Z.ltb_spec y x); try (split; [done|intros [= -> ->]; lia]).
    rewrite IH. assert (x = y) as -> by lia. split; [by intros ->|by intros [= ->]].
Qed.

Lemma is_der_prefix a b k : is_der a -> is_der b -> b = a ++ k -> Zlen b <= SIZE_MAX -> k = [].
Proof.
  intros (t & c & Ht & Hc & ->) (t' & c' & Ht' & Hc' & ->) E Hsz.
  pose proof (any_asn1_element_complete false t' c' [] Ht' Hc' ltac:(by rewrite app_nil_r)) as H2.
  rewrite app_nil_r, E in H2. rewrite E in Hsz.
  by rewrite (any_asn1_element_complete false t c k Ht Hc Hsz) in H2; simplify_eq.
Qed.

Lemma inner_split kids : forall off c, exists pre,
  (forall x, let a := set_inner x c kids in
    flatten a.1 a.2 = pre ++ x /\ chain_of off a.1 a.2 = chain_of off c kids) /\
  flatten c kids = pre ++ inner_of c kids /\
  (kids = [] -> pre = []) /\
  (forall n, length kids = S n -> exists ch, chain_of off c kids !! n = Some ch /\
    offset ch + pending_len_len ch = off + Zlen pre).
Proof.
  induction kids as [|[k c'] kids IH]; intros off c.
  - exists []. by split_and!.
  - destruct (IH (off + Zlen c + Z.of_nat (prefix_len k)) c') as (pre & Hset & Hfl & Hnil & Hch).
    exists (c ++ replicate (prefix_len k) 0 ++ pre). cbn [flatten set_inner inner_of chain_of]. split_and!.
    + intros x. specialize (Hset x). destruct (set_inner x c' kids) as [c2 k2]. cbn [fst snd flatten chain_of] in *.
      destruct Hset as [-> ->]. by rewrite <- !app_assoc.
    + by rewrite Hfl, <- !app_assoc.
    + done.
    + intros n [= <-]. rewrite !Zlen_app, Zlen_replicate_nat. destruct kids as [|kc kids].
      * rewrite (Hnil eq_refl). simpl. eexists. split; [done|]. simpl. unfold Zlen. simpl. lia.
      * destruct (Hch (length kids) eq_refl) as (ch & Hl & Ho). exists ch. split; [exact Hl|lia].
Qed.

Lemma inner_rep d (s : CBB) a :
  rep s a -> length a.2 = d ->
  exists pre, cbb_data_offset d s = Zlen pre /\ CBB_len d s = Zlen (sp_inner a) /\
    take (Z.to_nat (CBB_len d s)) (CBB_data d s) = sp_inner a /\ flatten a.1 a.2 = pre ++ sp_inner a /\
    forall x, Zlen x = Zlen (sp_inner a) ->
      rep (poke (cbb_data_offset d s) x s) (sp_set_inner x a).
Proof.
  intros [Hb Hch] Hd. destruct (inner_split a.2 0 a.1) as (pre & Hset & Hfl & Hnil & Hoff).
  assert (cbb_data_offset d s = Zlen pre) as Ho.
  { unfold cbb_data_offset. destruct d as [|n].
    - rewrite Hnil; [done|]. by destruct a.2.
    - destruct (Hoff n Hd) as (ch & Hl & Ho). rewrite Hch, Hl, Ho. lia. }
  exists pre. split; [done|]. fold (sp_inner a) in Hfl.
  assert (CBB_len d s = Zlen (sp_inner a)) as Hlen.
  { unfold CBB_len. rewrite Ho, (bo_len _ _ Hb), Hfl, Zlen_app. lia. }
  split; [done|]. destruct (buffer_ok_split _ _ Hb) as [junk Hj]. split_and!.
  - rewrite Hlen. unfold CBB_data. rewrite Ho, Hj, Hfl, <- !app_assoc, drop_Zlen_app. apply take_Zlen_app.
  - done.
  - intros x Hx. destruct (Hset x) as [Hf Hc]. split; unfold sp_set_inner; [|by rewrite Hc].
    rewrite Hf. pose proof (poke_ok s pre (sp_inner a) [] x (cbb_data_offset d s)) as Hp.
    rewrite !app_nil_r in Hp. apply Hp; [by rewrite <- Hfl|done|unfold Zlen in Hx; lia].
Qed.

Lemma set_of_children_sound fuel : forall cbs es,
  bytes_ok cbs -> Zlen cbs <= SIZE_MAX -> set_of_children fuel cbs = Some es ->
  Forall is_der es /\ cbs = concat es.
Proof.
  induction fuel as [|fuel IH]; intros cbs es Hok Hsz Hs; cbn [set_of_children] in Hs;
    (destruct (Z.eqb_spec (Zlen cbs) 0) as [E|E];
      [apply Zlen_0_inv in E as ->; simpl in Hs; by simplify_eq|]); cbn [negb] in Hs; [done|].
  destruct (CBS_get_any_asn1_element cbs) as [[e|] rest] eqn:Ee; [|done].
  apply any_asn1_element_sound in Ee as (t & c & Ht & Hc & -> & ->); [|done..].
  rewrite Zlen_app in Hsz. pose proof (Zlen_nonneg (der t c)). simp_bytes.
  destruct (set_of_children fuel rest) as [es'|] eqn:Er; [|done]. simpl in Hs. simplify_eq.
  apply IH in Er as [Hes ->]; [|done|lia]. split; [|done]. constructor; [|done]. by exists t, c.
Qed.

Lemma Zlen_der_pos t c : 0 < Zlen (der t c).
Proof.
  rewrite Zlen_der. unfold der_header. rewrite Zlen_app. pose proof (Zlen_der_tag t).
  pose proof (Zlen_nonneg (der_len (Zlen c))). pose proof (Zlen_nonneg c). lia.
Qed.

Lemma set_of_children_complete fuel : forall es,
  Forall is_der es -> (length (concat es) <= fuel)%nat -> Zlen (concat es) <= SIZE_MAX ->
  set_of_children fuel (concat es) = Some es.
Proof.
  induction fuel as [|fuel IH]; intros es Hes Hf Hsz; (destruct es as [|e es]; [done|]);
    apply Forall_cons in Hes as [(t & c & Ht & Hc & ->) Hes]; pose proof (Zlen_der_pos t c);
    pose proof (Zlen_nonneg (concat es));
    cbn [concat] in *; rewrite length_app in Hf; [unfold Zlen in *; lia|].
  cbn [set_of_children]. destruct (Z.eqb_spec (Zlen (der t c ++ concat es)) 0); [rewrite Zlen_app in *; lia|].
  cbn [negb]. unfold CBS_get_any_asn1_element. rewrite any_asn1_element_complete by done. cbn [el_out].
  rewrite IH; [done|done|unfold Zlen in *; lia|rewrite Zlen_app in *; lia].
Qed.

Lemma set_inner_self a : sp_set_inner (sp_inner a) a = a.
Proof.
  destruct a as [c kids]. unfold sp_set_inner, sp_inner. simpl. revert c.
  induction kids as [|[k c'] kids IH]; intros c; simpl; [done|]. by rewrite IH.
Qed.

Lemma Zlen_concat_perm (es es' : list bytes) : es' ≡ₚ es -> Zlen (concat es') = Zlen (concat es).
Proof. intros Hp. unfold Zlen. by rewrite Hp. Qed.

Lemma poke_heap (s : CBB) (h : H) off x a :
  rep (poke off x s) a -> rep (poke off x (Cbb (base s) (chain s) h)) a.
Proof. done. Qed.

Lemma Zlen_concat_der es : Forall is_der es -> Zlen es <= Zlen (concat es).
Proof.
  induction es as [|e es IH]; intros Hes; [done|].
  apply Forall_cons in Hes as [(t & c & _ & _ & ->) Hes]. specialize (IH Hes).
  cbn [concat]. rewrite Zlen_cons, Zlen_app. pose proof (Zlen_der_pos t c). lia.
Qed.

Lemma memdup_calloc_total `{!MallocTotal H} data es (h : H) :
  data = concat es -> Forall is_der es -> Zlen data <= 2 ^ 50 -> 2 <= Zlen es ->
  exists b h1, OPENSSL_memdup data (Zlen data) h = (Some b, h1) /\
  exists b2 h2, OPENSSL_calloc (Zlen es) sizeof_CBS h1 = (Some b2, h2).
Proof.
  intros -> Hes Hsz Hl. pose proof (Zlen_concat_der es Hes).
  destruct (OPENSSL_malloc_total (Zlen (concat es)) h ltac:(lia)) as (b & h1 & Hm).
  unfold OPENSSL_memdup. destruct (Z.eqb_spec (Zlen (concat es)) 0); [lia|].
  rewrite (st_bind_some _ _ _ _ _ Hm). eexists _, _. split; [done|].
  unfold OPENSSL_calloc, sizeof_CBS. change (SIZE_MAX / 16) with 1152921504606846975.
  destruct (Zlen es >? 1152921504606846975) eqn:E; [lia|]. cbn [negb andb Z.eqb].
  unfold u64. rewrite Z.mod_small by lia.
  destruct (OPENSSL_malloc_total (Zlen es * 16) h1 ltac:(lia)) as (b2 & h2 & Hm2).
  unfold OPENSSL_zalloc. rewrite (st_bind_some _ _ _ _ _ Hm2). eexists _, _. done.
Qed.

(** [CBB_flush_asn1_set_of] sorts the elements of the [CBB] by their DER
    encoding and changes nothing else; it fails on contents that are not a
    sequence of DER elements, and, short of memory, on nothing else. *)
Theorem CBB_flush_asn1_set_of_spec `{QsortSpec} d (s : CBB) a a1 :
  rep s a -> (d <= length a.2)%nat -> sp_flush d a = Some a1 -> bytes_ok (sp_inner a1) ->
  (forall s', CBB_flush_asn1_set_of d s = (Some tt, s') ->
    exists es es', sp_inner a1 = concat es /\ Forall is_der es /\ es' ≡ₚ es /\
      Sorted (fun x y => compare_set_of_element x y <= 0) es' /\
      rep s' (sp_set_inner (concat es') a1)) /\
  (MallocTotal H -> forall es, Forall is_der es -> sp_inner a1 = concat es ->
    fits s (msg_size a1) -> msg_size a1 <= 2 ^ 50 ->
    exists s', CBB_flush_asn1_set_of d s = (Some tt, s')).
Proof.
  intros Hrep Hd Ha1 Hok. pose proof (flush_ok d s a Hrep Hd) as Hf.
  assert (forall es (s1 : CBB), rep s1 a1 -> length a1.2 = d -> Forall is_der es -> sp_inner a1 = concat es ->
    set_of_children (length (take (Z.to_nat (CBB_len d s1)) (CBB_data d s1)))
      (take (Z.to_nat (CBB_len d s1)) (CBB_data d s1)) = Some es) as Hchild.
  { intros es s1 Hr1 Hl1 Hes He. destruct (inner_rep d s1 a1 Hr1 Hl1) as (pre & _ & _ & -> & Hfl & _).
    rewrite He. apply set_of_children_complete; [done|done|]. destruct Hr1 as [Hb _].
    pose proof (buffer_ok_cap _ _ Hb) as Hc. pose proof (bo_max _ _ Hb).
    rewrite Hfl, He, Zlen_app in Hc. pose proof (Zlen_nonneg pre). lia. }
  unfold CBB_flush_asn1_set_of. destruct (CBB_flush d s) as [[u|] s1] eqn:Efl.
  2: { rewrite (st_bind_none _ _ _ _ Efl). destruct Hf as [_ Hf]. split; [done|].
       intros _ es _ _ Hfit _. by destruct (Hf _ Ha1). }
  rewrite (st_bind_some _ _ _ _ _ Efl). destruct Hf as (a1' & Ha1' & Hr1 & Hl1 & _ & _).
  assert (a1' = a1) as -> by congruence. cbv beta zeta.
  destruct (inner_rep d s1 a1 Hr1 Hl1) as (pre & Hoff & Hlen & Hdata & Hfl & Hset).
  rewrite Hdata, Hlen in *. split.
  - intros s' Hs. destruct (set_of_children _ _) as [es|] eqn:Ec; [|done].
    assert (Zlen (sp_inner a1) <= SIZE_MAX) as Hsz.
    { destruct Hr1 as [Hb _]. pose proof (buffer_ok_cap _ _ Hb) as Hc. pose proof (bo_max _ _ Hb).
      rewrite Hfl, Zlen_app in Hc. pose proof (Zlen_nonneg pre). lia. }
    apply set_of_children_sound in Ec as [Hes He]; [|done..].
    destruct (Z.ltb_spec (Zlen es) 2) as [Hlt|Hge].
    + injection Hs as <-. exists es, es. split_and!; [done..| |].
      * destruct es as [|x [|y es]]; [by repeat constructor..|]. rewrite !Zlen_cons in Hlt.
        pose proof (Zlen_nonneg es). lia.
      * rewrite <- He. by rewrite set_inner_self.
    + destruct (OPENSSL_memdup _ _ _) as [[b|] h1]; [|by destruct (OPENSSL_calloc _ _ _)].
      destruct (OPENSSL_calloc _ _ _) as [[b2|] h2]; [|done]. injection Hs as <-.
      pose proof (qsort_perm compare_set_of_element es) as Hperm.
      eexists es, _. split_and!; [done|done|exact Hperm| |].
      * apply qsort_sorted; [apply compare_total|apply compare_trans].
      * apply (poke_heap s1 h2). apply Hset. rewrite He. by apply Zlen_concat_perm.
  - intros Ht es Hes He Hfit Hsz. specialize (Hchild es s1 Hr1 Hl1 Hes He). rewrite Hlen, Hdata in Hchild.
    rewrite Hchild. destruct (Z.ltb_spec (Zlen es) 2); [eauto|].
    assert (Zlen (sp_inner a1) <= 2 ^ 50) as Hsz'.
    { unfold msg_size in Hsz. rewrite Hfl, Zlen_app in Hsz. pose proof (Zlen_nonneg pre). lia. }
    destruct (memdup_calloc_total (sp_inner a1) es (heap s1) He Hes Hsz' ltac:(done)) as (b & h1 & -> & b2 & h2 & ->).
    eauto.
Qed.

(** No DER element is a proper prefix of another one, so that the comparison
    of [compare_set_of_element] is decided by [memcmp]: it is zero exactly on
    equal elements and total. *)
Theorem compare_set_of_element_order a b :
  is_der a -> is_der b -> Zlen a <= SIZE_MAX -> Zlen b <= SIZE_MAX ->
  (compare_set_of_element a b = 0 <-> a = b) /\
  (compare_set_of_element a b <= 0 \/ compare_set_of_element b a <= 0) /\
  (a <> b -> forall k, b <> a ++ k).
Proof.
  intros Ha Hb Hla Hlb. split_and!; [apply compare_eq|apply compare_total|].
  intros Hne k E. apply Hne. rewrite E. by rewrite (is_der_prefix a b k), app_nil_r.
Qed.

(** [CBB_finish_i2d] returns the length of the finished message and stores
    it where its argument asks: in a new block, or at the start of the caller's
    buffer, of which the rest is kept; messages longer than [INT_MAX] give -1. *)
Theorem CBB_finish_i2d_spec (s : CBB) b :
  rep s (b, []) ->
  (INT_MAX < Zlen b -> forall outp, (CBB_finish_i2d outp s).1 = (None, None)) /\
  (Zlen b <= INT_MAX ->
    (CBB_finish_i2d NoOut s).1 = (Some (Zlen b), None) /\
    (CBB_finish_i2d NullOut s).1 = (Some (Zlen b), Some b) /\
    forall p rest, length p = length b ->
      (CBB_finish_i2d (BufOut (p ++ rest)) s).1 = (Some (Zlen b), Some (b ++ rest))).
Proof.
  intros Hrep. destruct (finish_root s b Hrep) as (p & s' & Hf & Hp).
  unfold CBB_finish_i2d. rewrite Hf, Hp. split.
  - intros Hl outp. by destruct (Zlen b >? INT_MAX) eqn:E; [|lia].
  - intros Hl. destruct (Zlen b >? INT_MAX) eqn:E; [lia|]. split_and!; [done..|].
    intros q rest Hq. simpl. do 2 f_equal. by apply (splice_app [] q rest b).
Qed.

End asn1_lemmas.

Lemma insert_by_perm {A} (cmp : A -> A -> Z) x l : insert_by cmp x l ≡ₚ x :: l.
Proof.
  induction l as [|y l IH]; simpl; [done|]. destruct (cmp x y <=? 0); [done|].
  rewrite IH. apply Permutation_swap.
Qed.

Lemma insert_by_sorted {A} (cmp : A -> A -> Z) x l :
  (forall x y, cmp x y <= 0 \/ cmp y x <= 0) ->
  Sorted (fun x y => cmp x y <= 0) l -> Sorted (fun x y => cmp x y <= 0) (insert_by cmp x l).
Proof.
  intros Htot. induction l as [|y l IH]; intros Hs; simpl; [by repeat constructor|].
  destruct (Z.leb_spec (cmp x y) 0).
  - constructor; [done|by constructor].
  - apply Sorted_inv in Hs as [Hs Hhd]. constructor; [by apply IH|].
    destruct (Htot x y); [lia|]. destruct l as [|z l]; simpl; [by constructor|].
    destruct (cmp x z <=? 0); [by constructor|]. inversion Hhd. by constructor.
Qed.

#[export] Instance insertion_qsort_spec : QsortSpec.
Proof.
  split.
  - intros A cmp l. unfold qsort, insertion_qsort. induction l as [|x l IH]; simpl; [done|].
    by rewrite insert_by_perm, IH.
  - intros A cmp l Htot _. unfold qsort, insertion_qsort. induction l as [|x l IH]; simpl; [constructor|].
    by apply insert_by_sorted.
Qed.

(** * Runs *)

Definition ex_fixed : cbb_st unit := CBB_init_fixed (replicate 32 7) tt.

Lemma ex_fixed_rep : rep ex_fixed ([], []).
Proof. apply init_fixed_rep. vm_compute. discriminate. Qed.

Definition ex_set : cbb_st unit := (CBB_add_bytes 0 [4; 1; 9; 4; 1; 7] ex_fixed).2.

Lemma ex_set_rep : rep ex_set ([4; 1; 9; 4; 1; 7], []).
Proof. split; [split; try reflexivity; vm_compute; discriminate|reflexivity]. Qed.

Lemma CBB_add_asn1_uint64_with_tag_refines_witness :
  outcome ex_fixed (sp_element 0 2 (der_int 200) ([], [])) (CBB_add_asn1_uint64_with_tag 0 200 2 ex_fixed).
Proof. apply CBB_add_asn1_uint64_with_tag_refines; [exact ex_fixed_rep|simpl; lia|lia|lia]. Defined.

Lemma CBB_add_asn1_int64_with_tag_refines_witness :
  outcome ex_fixed (sp_element 0 2 (der_int (-129)) ([], [])) (CBB_add_asn1_int64_with_tag 0 (-129) 2 ex_fixed).
Proof.
  apply CBB_add_asn1_int64_with_tag_refines;
    [exact ex_fixed_rep|simpl; lia|unfold INT64_MIN, INT64_MAX; lia|lia].
Defined.

Lemma CBB_add_asn1_octet_string_bool_refines_witness :
  outcome ex_fixed (sp_element 0 CBS_ASN1_OCTETSTRING [1; 2] ([], [])) (CBB_add_asn1_octet_string 0 [1; 2] ex_fixed).
Proof.
  refine (proj1 (CBB_add_asn1_octet_string_bool_refines 0 ex_fixed ([], []) [1; 2] 0 ex_fixed_rep _ _));
    [simpl; lia|vm_compute; discriminate].
Defined.

Definition ex_init : cbb_st unit := (CBB_init 16 tt).2.

Lemma asn1_int64_roundtrip_witness :
  exists s1 p l s2,
   CBB_add_asn1_int64 0 (-129) ex_init = (Some tt, s1) /\ CBB_finish true s1 = (Some (p, l), s2).
Proof.
  refine (proj2 (asn1_int64_roundtrip (-129) 16 tt ex_init ex_init None 0 ex_init _ _ _) _ _).
  - unfold INT64_MIN, INT64_MAX. lia.
  - unfold SIZE_MAX. lia.
  - reflexivity.
  - lia.
Defined.

Lemma CBB_add_asn1_oid_from_text_refines_witness :
  outcome ex_fixed (sp_write 0 (oid_body [1; 2; 840]) ([], []))
    (CBB_add_asn1_oid_from_text 0 (oid_text [1; 2; 840]) ex_fixed) /\
  oid_text [1; 2; 840] = [49; 46; 50; 46; 56; 52; 48].
Proof.
  assert (valid_oid [1; 2; 840]) as Hv
    by (unfold valid_oid, UINT64_MAX; split_and!; try lia; repeat constructor; lia).
  assert ((0 <= length (@nil Z, @nil (prefix * bytes)).2)%nat) as H0 by (simpl; lia).
  split; [|vm_compute; reflexivity].
  exact (proj1 (CBB_add_asn1_oid_from_text_refines 0 ex_fixed ([], []) (oid_text [1; 2; 840]) ex_fixed_rep H0)
    [1; 2; 840] Hv eq_refl).
Defined.

Lemma CBS_asn1_oid_to_text_spec_witness :
  exists comps, valid_oid comps /\ [42; 134; 72] = oid_body comps /\
    [49; 46; 50; 46; 56; 52; 48; 0] = oid_text comps ++ [0].
Proof.
  refine (proj1 (CBS_asn1_oid_to_text_spec [42; 134; 72] tt _) [49; 46; 50; 46; 56; 52; 48; 0] tt _).
  - repeat constructor; lia.
  - vm_compute. reflexivity.
Defined.

Lemma CBB_flush_asn1_set_of_spec_witness :
  exists es es', [4; 1; 9; 4; 1; 7] = concat es /\ Forall is_der es /\ es' ≡ₚ es /\
    Sorted (fun x y => compare_set_of_element x y <= 0) es' /\
    rep (CBB_flush_asn1_set_of 0 ex_set).2 (sp_set_inner (concat es') ([4; 1; 9; 4; 1; 7], [])).
Proof.
  refine (proj1 (CBB_flush_asn1_set_of_spec 0 ex_set ([4; 1; 9; 4; 1; 7], []) ([4; 1; 9; 4; 1; 7], [])
    ex_set_rep _ _ _) _ _).
  - simpl. lia.
  - reflexivity.
  - repeat constructor; lia.
  - vm_compute. reflexivity.
Defined.

Lemma compare_set_of_element_order_witness : compare_set_of_element [4; 1; 7] [4; 1; 9] = 0 <-> [4; 1; 7] = [4; 1; 9].
Proof.
  refine (proj1 (compare_set_of_element_order [4; 1; 7] [4; 1; 9] _ _ _ _)).
  - exists 4, [7]. split_and!; [split_and!; lia|done|reflexivity].
  - exists 4, [9]. split_and!; [split_and!; lia|done|reflexivity].
  - vm_compute. discriminate.
  - vm_compute. discriminate.
Defined.

Lemma CBB_finish_i2d_spec_witness :
  (CBB_finish_i2d (BufOut ([0; 0; 0; 0; 0; 0] ++ [5])) ex_set).1 = (Some 6, Some ([4; 1; 9; 4; 1; 7] ++ [5])).
Proof.
  refine (proj2 (proj2 (proj2 (CBB_finish_i2d_spec ex_set [4; 1; 9; 4; 1; 7] ex_set_rep) _)) [0; 0; 0; 0; 0; 0] [5] _).
  - vm_compute. discriminate.
  - reflexivity.
Defined.
