(* ===== verification/Unicode.v ===== *)
(** The text encodings of [crypto/bytestring/unicode.c]: UTF-8, Latin-1, UCS-2
    and UTF-32, read from a [CBS] and written to a [CBB]. *)
From S2P Require Import Prelude Mem Der Cbs Cbb CbbSpec.

Definition is_valid_code_point (v : Z) : bool :=
  negb ((v >? 0x10ffff) ||
        (Z.land v 0xfffe =? 0xfffe) ||
        ((v >=? 0xfdd0) && (v <=? 0xfdef)) ||
        ((v >=? 0xd800) && (v <=? 0xdfff))).

Definition BOTTOM_BITS (n : Z) : Z := u8 (Z.shiftl 1 n - 1).
Definition TOP_BITS (n : Z) : Z := u8 (Z.lnot (BOTTOM_BITS (8 - n))).

(** * Reading *)

(** The loop over the [len] continuation bytes. *)
Fixpoint utf8_loop (len : nat) (v : Z) : ST bytes Z :=
  match len with
  | O => st_ret v
  | S len =>
      c <-- CBS_get_u8 ;;
      st_guard (Z.land c (TOP_BITS 2) =? TOP_BITS 1) ;;;
      utf8_loop len (Z.lor (u32 (Z.shiftl v 6)) (Z.land c (BOTTOM_BITS 6)))
  end.

Definition CBS_get_utf8 : ST bytes Z :=
  c <-- CBS_get_u8 ;;
  if c <=? 0x7f then st_ret c
  else
    lead <--
      (if Z.land c (TOP_BITS 3) =? TOP_BITS 2 then st_ret (Z.land c (BOTTOM_BITS 5), 1%nat, 0x80)
       else if Z.land c (TOP_BITS 4) =? TOP_BITS 3 then st_ret (Z.land c (BOTTOM_BITS 4), 2%nat, 0x800)
       else if Z.land c (TOP_BITS 5) =? TOP_BITS 4 then st_ret (Z.land c (BOTTOM_BITS 3), 3%nat, 0x10000)
       else st_fail) ;;
    let '(v, len, lower_bound) := lead in
    v <-- utf8_loop len v ;;
    st_guard (negb (negb (is_valid_code_point v) || (v <? lower_bound))) ;;;
    st_ret v.

Definition CBS_get_latin1 : ST bytes Z := CBS_get_u8.

Definition CBS_get_ucs2_be : ST bytes Z :=
  c <-- CBS_get_u16 ;;
  st_guard (is_valid_code_point c) ;;;
  st_ret c.

Definition CBS_get_utf32_be : ST bytes Z :=
  c <-- CBS_get_u32 ;;
  st_guard (is_valid_code_point c) ;;;
  st_ret c.

(** * Writing *)

Definition CBB_get_utf8_len (u : Z) : Z :=
  if u <=? 0x7f then 1
  else if u <=? 0x7ff then 2
  else if u <=? 0xffff then 3
  else 4.

Section cbb.
Context {H : Type} `{Malloc H}.
Abbreviation CBB := (cbb_st H).

Definition CBB_add_utf8 (d : nat) (u : Z) : ST CBB unit :=
  if negb (is_valid_code_point u) then st_fail
  else if u <=? 0x7f then CBB_add_u8 d (u8 u)
  else if u <=? 0x7ff then
    CBB_add_u8 d (u8 (Z.lor (TOP_BITS 2) (Z.shiftr u 6))) ;;;
    CBB_add_u8 d (u8 (Z.lor (TOP_BITS 1) (Z.land u (BOTTOM_BITS 6))))
  else if u <=? 0xffff then
    CBB_add_u8 d (u8 (Z.lor (TOP_BITS 3) (Z.shiftr u 12))) ;;;
    CBB_add_u8 d (u8 (Z.lor (TOP_BITS 1) (Z.land (Z.shiftr u 6) (BOTTOM_BITS 6)))) ;;;
    CBB_add_u8 d (u8 (Z.lor (TOP_BITS 1) (Z.land u (BOTTOM_BITS 6))))
  else if u <=? 0x10ffff then
    CBB_add_u8 d (u8 (Z.lor (TOP_BITS 4) (Z.shiftr u 18))) ;;;
    CBB_add_u8 d (u8 (Z.lor (TOP_BITS 1) (Z.land (Z.shiftr u 12) (BOTTOM_BITS 6)))) ;;;
    CBB_add_u8 d (u8 (Z.lor (TOP_BITS 1) (Z.land (Z.shiftr u 6) (BOTTOM_BITS 6)))) ;;;
    CBB_add_u8 d (u8 (Z.lor (TOP_BITS 1) (Z.land u (BOTTOM_BITS 6))))
  else st_fail.

Definition CBB_add_latin1 (d : nat) (u : Z) : ST CBB unit :=
  if u <=? 0xff then CBB_add_u8 d (u8 u) else st_fail.

Definition CBB_add_ucs2_be (d : nat) (u : Z) : ST CBB unit :=
  if (u <=? 0xffff) && is_valid_code_point u then CBB_add_u16 d (u16 u) else st_fail.

Definition CBB_add_utf32_be (d : nat) (u : Z) : ST CBB unit :=
  if is_valid_code_point u then CBB_add_u32 d u else st_fail.

End cbb.

(** * Unicode (chapters 3 and 23) and RFC 3629 *)

(** The code points that are not surrogates or noncharacters. *)
Definition code_point (u : Z) : Prop :=
  0 <= u <= 0x10ffff /\ u mod 0x10000 < 0xfffe /\
  ~ (0xfdd0 <= u <= 0xfdef) /\ ~ (0xd800 <= u <= 0xdfff).

#[export] Instance code_point_dec u : Decision (code_point u).
Proof. unfold code_point. apply _. Defined.

Definition utf8 (u : Z) : bytes :=
  if u <=? 0x7f then [u]
  else if u <=? 0x7ff then [192 + u / 64; 128 + u mod 64]
  else if u <=? 0xffff then [224 + u / 4096; 128 + u / 64 mod 64; 128 + u mod 64]
  else [240 + u / 262144; 128 + u / 4096 mod 64; 128 + u / 64 mod 64; 128 + u mod 64].

Inductive charset := UTF8 | Latin1 | UCS2_BE | UTF32_BE.

(** The encoding of a character, where there is one. *)
Definition encode_char (cs : charset) (u : Z) : option bytes :=
  match cs with
  | UTF8 => if decide (code_point u) then Some (utf8 u) else None
  | Latin1 => if decide (0 <= u <= 0xff) then Some [u] else None
  | UCS2_BE => if decide (code_point u /\ u <= 0xffff) then Some (be_bytes 2 u) else None
  | UTF32_BE => if decide (code_point u) then Some (be_bytes 4 u) else None
  end.

Definition get_char (cs : charset) : ST bytes Z :=
  match cs with
  | UTF8 => CBS_get_utf8
  | Latin1 => CBS_get_latin1
  | UCS2_BE => CBS_get_ucs2_be
  | UTF32_BE => CBS_get_utf32_be
  end.

Definition add_char {H} `{Malloc H} (cs : charset) : nat -> Z -> ST (cbb_st H) unit :=
  match cs with
  | UTF8 => CBB_add_utf8
  | Latin1 => CBB_add_latin1
  | UCS2_BE => CBB_add_ucs2_be
  | UTF32_BE => CBB_add_utf32_be
  end.

(** * Lemmas: code points *)

Lemma land_fffe v : (Z.land v 0xfffe =? 0xfffe) = (v mod 0x10000 >=? 0xfffe).
Proof.
  assert (Z.land v 0xfffe = v mod 0x10000 / 2 * 2) as ->.
  { change (v mod 0x10000 / 2 * 2) with (v mod 2 ^ 16 / 2 ^ 1 * 2 ^ 1).
    rewrite <- Z.shiftr_div_pow2, <- Z.shiftl_mul_pow2, <- Z.land_ones by lia.
    change 0xfffe with (Z.shiftl (Z.ones 15) 1). apply Z.bits_inj'. intros n Hn.
    rewrite Z.land_spec, !Z.shiftl_spec by lia.
    destruct (decide (n = 0)) as [->|]; [by rewrite (Z.testbit_neg_r (Z.ones 15)), andb_false_r, Z.testbit_neg_r by lia|].
    rewrite Z.shiftr_spec, Z.land_spec by lia. replace (n - 1 + 1) with n by lia.
    f_equal. apply eq_true_iff_eq. rewrite !Z.ones_spec_iff by lia. lia. }
  pose proof (Z.mod_pos_bound v 0x10000). set (w := v mod 0x10000) in *.
  apply eq_true_iff_eq. rewrite Z.eqb_eq, Z.geb_le. clearbody w. dlia.
Qed.

Lemma valid_code_point u : 0 <= u -> is_valid_code_point u = true <-> code_point u.
Proof.
  intros Hu. unfold is_valid_code_point, code_point. rewrite land_fffe, negb_true_iff, !orb_false_iff.
  rewrite Z.gtb_ltb, Z.ltb_ge, !Z.geb_leb, Z.leb_gt, !andb_false_iff, !Z.leb_gt. lia.
Qed.

Lemma valid_code_point_false u : 0 <= u -> ~ code_point u -> is_valid_code_point u = false.
Proof. intros Hu Hc. apply not_true_is_false. by rewrite valid_code_point. Qed.

(** * Lemmas: bytes of UTF-8 *)

Lemma cont_byte c : is_byte c ->
  (Z.land c (TOP_BITS 2) =? TOP_BITS 1) = (128 <=? c) && (c <? 192) /\ Z.land c (BOTTOM_BITS 6) = c mod 64.
Proof.
  split; [|by apply (land_mask c 6)]. revert c H. apply (byte_forall_eq (fun c => Z.land c (TOP_BITS 2) =? TOP_BITS 1)).
  byte_compute.
Qed.

Lemma lead_byte c : is_byte c ->
  (Z.land c (TOP_BITS 3) =? TOP_BITS 2) = (192 <=? c) && (c <? 224) /\
  (Z.land c (TOP_BITS 4) =? TOP_BITS 3) = (224 <=? c) && (c <? 240) /\
  (Z.land c (TOP_BITS 5) =? TOP_BITS 4) = (240 <=? c) && (c <? 248) /\
  Z.land c (BOTTOM_BITS 5) = c mod 32 /\ Z.land c (BOTTOM_BITS 4) = c mod 16 /\ Z.land c (BOTTOM_BITS 3) = c mod 8.
Proof.
  intros Hc. split_and!; [| | |by apply (land_mask c 5)|by apply (land_mask c 4)|by apply (land_mask c 3)];
    revert c Hc.
  - apply (byte_forall_eq (fun c => Z.land c (TOP_BITS 3) =? TOP_BITS 2)). byte_compute.
  - apply (byte_forall_eq (fun c => Z.land c (TOP_BITS 4) =? TOP_BITS 3)). byte_compute.
  - apply (byte_forall_eq (fun c => Z.land c (TOP_BITS 5) =? TOP_BITS 4)). byte_compute.
Qed.

Definition is_cont (c : Z) : Prop := 128 <= c < 192.

Definition conts_val (v : Z) (cs : bytes) : Z := fold_left (fun v c => v * 64 + (c - 128)) cs v.

Lemma shl6_lor v c : 0 <= v < 2 ^ 26 -> is_cont c -> Z.lor (u32 (Z.shiftl v 6)) (c mod 64) = v * 64 + (c - 128).
Proof.
  unfold is_cont, u32. intros. rewrite Z.shiftl_mul_pow2, Z.mod_small by lia.
  assert (c mod 64 = c - 128) as -> by dlia. apply (lor_add_disjoint v (c - 128) 6); lia.
Qed.

Lemma utf8_loop_cons n v c s :
  is_byte c -> utf8_loop (S n) v (c :: s) =
    if (128 <=? c) && (c <? 192) then utf8_loop n (Z.lor (u32 (Z.shiftl v 6)) (c mod 64)) s else (None, s).
Proof.
  intros Hc. cbn [utf8_loop]. rewrite (st_bind_some _ _ _ _ _ (CBS_get_u8_cons c s)).
  destruct (cont_byte c Hc) as [-> ->]. by destruct ((128 <=? c) && (c <? 192)).
Qed.

Lemma utf8_loop_iff n v s u rest :
  bytes_ok s -> 0 <= v -> (v + 1) * 64 ^ Z.of_nat n <= 2 ^ 32 ->
  utf8_loop n v s = (Some u, rest) <->
  exists cs, s = cs ++ rest /\ length cs = n /\ Forall is_cont cs /\ u = conts_val v cs.
Proof.
  revert v s. induction n as [|n IH]; intros v s Hok Hv Hb.
  { split; [intros [= -> ->]; by exists []|intros ([|] & -> & ? & _ & ->); done]. }
  rewrite Nat2Z.inj_succ, Z.pow_succ_r in Hb by lia.
  assert (1 <= 64 ^ Z.of_nat n) by (pose proof (Z.pow_pos_nonneg 64 (Z.of_nat n)); lia).
  destruct s as [|c s].
  { split; [done|]. intros ([|c cs] & E & ? & _ & _); done. }
  simp_bytes. rewrite utf8_loop_cons by done.
  destruct ((128 <=? c) && (c <? 192)) eqn:Ec.
  - assert (is_cont c) as Hc by (unfold is_cont; lia). rewrite shl6_lor by (done || nia).
    rewrite IH by (unfold is_cont in Hc; done || nia). split.
    + intros (cs & -> & <- & Hcs & ->). exists (c :: cs). split_and!; [done|done|by constructor|done].
    + intros ([|c' cs] & E & Hl & Hcs & ->); [done|]. injection E as <- ->. inversion_clear Hcs.
      exists cs. split_and!; [done|by injection Hl|done|done].
  - split; [done|]. intros ([|c' cs] & E & Hl & Hcs & ->); [done|]. injection E as <- ->.
    inversion_clear Hcs. unfold is_cont in *. lia.
Qed.

(** * Lemmas: reading *)

Lemma utf8_bytes_ok u : 0 <= u <= 0x10ffff -> bytes_ok (utf8 u).
Proof.
  intros Hu. unfold utf8. repeat case_match; repeat constructor; dlia.
Qed.

Lemma conts_val_nonneg cs : forall v, 0 <= v -> Forall is_cont cs -> 0 <= conts_val v cs.
Proof.
  induction cs as [|c cs IH]; intros v Hv Hcs; [done|]. inversion_clear Hcs.
  apply IH; [unfold is_cont in *; lia|done].
Qed.

(** The rest of the reader, after a lead byte that announces [n] digits. *)
Definition utf8_tail (n : nat) (v lower : Z) : ST bytes Z :=
  v <-- utf8_loop n v ;;
  st_guard (negb (negb (is_valid_code_point v) || (v <? lower))) ;;;
  st_ret v.

Lemma utf8_tail_iff n v lower s u rest :
  bytes_ok s -> 0 <= v -> (v + 1) * 64 ^ Z.of_nat n <= 2 ^ 32 ->
  utf8_tail n v lower s = (Some u, rest) <->
  code_point u /\ lower <= u /\
  exists cs, s = cs ++ rest /\ length cs = n /\ Forall is_cont cs /\ u = conts_val v cs.
Proof.
  intros Hok Hv Hb. unfold utf8_tail. rewrite st_bind_iff.
  setoid_rewrite utf8_loop_iff; [|done..]. setoid_rewrite st_bind_iff. setoid_rewrite st_guard_iff. split.
  - intros (w & s1 & (cs & Hs & Hl & Hcs & ->) & [] & s2 & (Hg & ->) & E).
    injection E as <- <-. apply negb_true_iff, orb_false_iff in Hg as [Hg1%negb_false_iff Hg2].
    rewrite valid_code_point in Hg1 by by apply conts_val_nonneg. split_and!; [done|lia|by exists cs].
  - intros (Hc & Hlo & cs & Hs & Hl & Hcs & ->). exists (conts_val v cs), rest. split; [by exists cs|].
    exists tt, rest. split; [|done]. split; [|done]. rewrite (proj2 (valid_code_point _ (conts_val_nonneg cs v Hv Hcs))) by done.
    destruct (Z.ltb_spec (conts_val v cs) lower); [lia|done].
Qed.

Lemma get_utf8_cons c s :
  is_byte c -> CBS_get_utf8 (c :: s) =
    if c <=? 0x7f then (Some c, s)
    else if (192 <=? c) && (c <? 224) then utf8_tail 1 (c mod 32) 0x80 s
    else if (224 <=? c) && (c <? 240) then utf8_tail 2 (c mod 16) 0x800 s
    else if (240 <=? c) && (c <? 248) then utf8_tail 3 (c mod 8) 0x10000 s
    else (None, s).
Proof.
  intros Hc. unfold CBS_get_utf8. rewrite (st_bind_some _ _ _ _ _ (CBS_get_u8_cons c s)).
  destruct (lead_byte c Hc) as (-> & -> & -> & -> & -> & ->). by repeat case_match.
Qed.

Lemma utf8_lead u : code_point u ->
  utf8 u = [u] /\ u <= 0x7f \/
  (exists c cs n lower, utf8 u = c :: cs /\ Forall is_cont cs /\ length cs = n /\ lower <= u /\ is_byte c /\
   ((192 <= c < 224 /\ n = 1%nat /\ lower = 0x80 /\ u = conts_val (c mod 32) cs) \/
    (224 <= c < 240 /\ n = 2%nat /\ lower = 0x800 /\ u = conts_val (c mod 16) cs) \/
    (240 <= c < 248 /\ n = 3%nat /\ lower = 0x10000 /\ u = conts_val (c mod 8) cs))).
Proof.
  intros (Hu & _). unfold utf8.
  destruct (Z.leb_spec u 0x7f); [by left|right]. destruct (Z.leb_spec u 0x7ff); [|destruct (Z.leb_spec u 0xffff)].
  - eexists _, [_], _, 0x80. split_and!; [done|repeat constructor; unfold is_cont; dlia|done|lia|unfold is_byte; dlia|].
    left. split_and!; [dlia|dlia|done|done|cbn; dlia].
  - eexists _, [_; _], _, 0x800. split_and!; [done|repeat constructor; unfold is_cont; dlia|done|lia|unfold is_byte; dlia|].
    right; left. split_and!; [dlia|dlia|done|done|cbn; dlia].
  - eexists _, [_; _; _], _, 0x10000. split_and!; [done|repeat constructor; unfold is_cont; dlia|done|lia|unfold is_byte; dlia|].
    right; right. split_and!; [dlia|dlia|done|done|cbn; dlia].
Qed.

(** A lead byte and the digits it announces are the encoding of their value. *)
Lemma utf8_two c a : 192 <= c < 224 -> is_cont a -> 0x80 <= conts_val (c mod 32) [a] ->
  utf8 (conts_val (c mod 32) [a]) = [c; a].
Proof.
  unfold is_cont, conts_val, utf8. cbn [fold_left]. intros Hc Ha Hlo.
  destruct (Z.leb_spec (c mod 32 * 64 + (a - 128)) 0x7f); [lia|].
  destruct (Z.leb_spec (c mod 32 * 64 + (a - 128)) 0x7ff); [|dlia]. repeat f_equal; dlia.
Qed.

Lemma utf8_three c a b : 224 <= c < 240 -> is_cont a -> is_cont b -> 0x800 <= conts_val (c mod 16) [a; b] ->
  utf8 (conts_val (c mod 16) [a; b]) = [c; a; b].
Proof.
  unfold is_cont, conts_val, utf8. cbn [fold_left]. intros Hc Ha Hb Hlo.
  set (u := (c mod 16 * 64 + (a - 128)) * 64 + (b - 128)) in *.
  destruct (Z.leb_spec u 0x7f), (Z.leb_spec u 0x7ff); try lia.
  destruct (Z.leb_spec u 0xffff); subst u; [|dlia]. repeat f_equal; dlia.
Qed.

Lemma utf8_four c a b e : 240 <= c < 248 -> is_cont a -> is_cont b -> is_cont e ->
  0x10000 <= conts_val (c mod 8) [a; b; e] -> utf8 (conts_val (c mod 8) [a; b; e]) = [c; a; b; e].
Proof.
  unfold is_cont, conts_val, utf8. cbn [fold_left]. intros Hc Ha Hb He Hlo.
  set (u := ((c mod 8 * 64 + (a - 128)) * 64 + (b - 128)) * 64 + (e - 128)) in *.
  destruct (Z.leb_spec u 0x7f), (Z.leb_spec u 0x7ff), (Z.leb_spec u 0xffff); try lia.
  subst u. repeat f_equal; dlia.
Qed.

Lemma get_utf8_iff s u rest : bytes_ok s ->
  CBS_get_utf8 s = (Some u, rest) <-> code_point u /\ s = utf8 u ++ rest.
Proof.
  intros Hok. split.
  - destruct s as [|c s]; [done|]. simp_bytes. rewrite get_utf8_cons by done.
    destruct (Z.leb_spec c 0x7f).
    { intros [= -> <-]. unfold is_byte, code_point, utf8 in *.
      destruct (Z.leb_spec u 0x7f); [|lia]. split; [dlia|done]. }
    destruct ((192 <=? c) && (c <? 224)) eqn:E1; [|destruct ((224 <=? c) && (c <? 240)) eqn:E2;
      [|destruct ((240 <=? c) && (c <? 248)) eqn:E3; [|done]]];
      (rewrite utf8_tail_iff; [|done|dlia|dlia]); intros (Hc & Hlo & cs & -> & Hl & Hcs & Hu); split; try done; subst u.
    + destruct cs as [|a [|]]; try done. rewrite !Forall_cons in Hcs. rewrite utf8_two; [done|lia|tauto|done].
    + destruct cs as [|a [|b [|]]]; try done. rewrite !Forall_cons in Hcs. rewrite utf8_three; [done|lia|tauto..|done].
    + destruct cs as [|a [|b [|e [|]]]]; try done. rewrite !Forall_cons in Hcs. rewrite utf8_four; [done|lia|tauto..|done].
  - intros (Hc & ->). apply bytes_ok_app in Hok as [Hu Hok].
    destruct (utf8_lead u Hc) as [[E Hs]|(c & cs & n & lower & E & Hcs & Hl & Hlo & Hb & Hcase)]; rewrite E in *; cbn [app].
    { simp_bytes. rewrite get_utf8_cons by done. by destruct (Z.leb_spec u 0x7f); [|lia]. }
    rewrite get_utf8_cons by done. destruct (Z.leb_spec c 0x7f); [lia|]. simp_bytes.
    assert (bytes_ok (cs ++ rest)) by solve_bytes.
    destruct Hcase as [(Hr & -> & -> & Hv)|[(Hr & -> & -> & Hv)|(Hr & -> & -> & Hv)]].
    + destruct ((192 <=? c) && (c <? 224)) eqn:E1; [|lia].
      apply utf8_tail_iff; [done|dlia|dlia|]. split_and!; [done|done|by exists cs].
    + destruct ((192 <=? c) && (c <? 224)) eqn:E1; [lia|]. destruct ((224 <=? c) && (c <? 240)) eqn:E2; [|lia].
      apply utf8_tail_iff; [done|dlia|dlia|]. split_and!; [done|done|by exists cs].
    + destruct ((192 <=? c) && (c <? 224)) eqn:E1; [lia|]. destruct ((224 <=? c) && (c <? 240)) eqn:E2; [lia|].
      destruct ((240 <=? c) && (c <? 248)) eqn:E3; [|lia].
      apply utf8_tail_iff; [done|dlia|dlia|]. split_and!; [done|done|by exists cs].
Qed.

Lemma code_point_range u : code_point u -> 0 <= u <= 0x10ffff.
Proof. by intros []. Qed.

Lemma get_valid_iff n m s u rest : bytes_ok s -> (n <= 8)%nat -> m = 256 ^ Z.of_nat n ->
  (c <-- (v <-- cbs_get_u (Z.of_nat n) ;; st_ret (v mod m)) ;; st_guard (is_valid_code_point c) ;;; st_ret c) s = (Some u, rest) <->
  code_point u /\ u < 256 ^ Z.of_nat n /\ s = be_bytes n u ++ rest.
Proof.
  intros Hok Hn ->. setoid_rewrite st_bind_iff. setoid_rewrite st_bind_iff.
  setoid_rewrite cbs_get_u_be; [|done..]. setoid_rewrite st_guard_iff. split.
  - intros (w & s1 & (v & s2 & (Hs & Hw) & [= <- <-]) & [] & s3 & (Hv & ->) & [= <- ->]).
    rewrite Z.mod_small in * by lia. rewrite valid_code_point in Hv by lia. split_and!; [done|lia|done].
  - intros (Hc & Hl & ->). pose proof (code_point_range u Hc). exists u, rest. split.
    { exists u, rest. unfold st_ret. rewrite Z.mod_small by lia. split; [split; [done|lia]|done]. }
    exists tt, rest. split; [|done]. split; [|done]. by apply valid_code_point; [lia|].
Qed.

(** * Lemmas: writing *)

Lemma top_digit k m x : 0 <= k <= 8 -> 0 <= m -> 0 <= x < 2 ^ k -> m * 2 ^ k + x < 256 ->
  u8 (Z.lor (m * 2 ^ k) x) = m * 2 ^ k + x.
Proof. intros Hk Hm Hx Hb. unfold u8. rewrite lor_add_disjoint by lia. apply Z.mod_small. lia. Qed.

Lemma cont_digit u k : 0 <= k -> u8 (Z.lor (TOP_BITS 1) (Z.land (Z.shiftr u k) (BOTTOM_BITS 6))) = 128 + u / 2 ^ k mod 64.
Proof.
  intros Hk. change (BOTTOM_BITS 6) with (2 ^ 6 - 1). rewrite land_mask, Z.shiftr_div_pow2 by lia.
  change (TOP_BITS 1) with (1 * 2 ^ 7). pose proof (Z.mod_pos_bound (u / 2 ^ k) (2 ^ 6)).
  rewrite top_digit by lia. done.
Qed.

Lemma last_digit u : u8 (Z.lor (TOP_BITS 1) (Z.land u (BOTTOM_BITS 6))) = 128 + u mod 64.
Proof. pose proof (cont_digit u 0). rewrite Z.shiftr_0_r, Z.div_1_r in H. by apply H. Qed.

Lemma lead_digits u :
  (0x7f < u <= 0x7ff -> u8 (Z.lor (TOP_BITS 2) (Z.shiftr u 6)) = 192 + u / 64) /\
  (0x7ff < u <= 0xffff -> u8 (Z.lor (TOP_BITS 3) (Z.shiftr u 12)) = 224 + u / 4096) /\
  (0xffff < u <= 0x10ffff -> u8 (Z.lor (TOP_BITS 4) (Z.shiftr u 18)) = 240 + u / 262144).
Proof.
  split_and!; intros Hu; rewrite Z.shiftr_div_pow2 by lia.
  - change (TOP_BITS 2) with (6 * 2 ^ 5). rewrite top_digit; dlia.
  - change (TOP_BITS 3) with (14 * 2 ^ 4). rewrite top_digit; dlia.
  - change (TOP_BITS 4) with (30 * 2 ^ 3). rewrite top_digit; dlia.
Qed.

Section writing.
Context {H : Type} `{MallocSpec H}.
Abbreviation CBB := (cbb_st H).

Lemma add_byte_ok d (s : CBB) a b :
  rep s a -> (d <= length a.2)%nat -> is_byte b -> outcome s (sp_write d [b] a) (CBB_add_u8 d b s).
Proof.
  intros Hrep Hd Hb. unfold is_byte in Hb.
  pose proof (add_u_ok d s a b 1 Hrep Hd ltac:(lia) ltac:(lia)) as Ho.
  change (256 ^ Z.of_nat 1) with 256 in Ho. destruct (Z.ltb_spec b 256); [|lia].
  replace (be_bytes 1 b) with [b] in Ho; [done|]. unfold be_bytes. cbn. by rewrite Z.mod_small.
Qed.

(** Writes in sequence write the concatenation. *)
Lemma write_bind {A B} d x y (m : ST CBB A) (k : A -> ST CBB B) s a :
  outcome s (sp_write d x a) (m s) ->
  (forall u s' a', rep s' a' -> (d <= length a'.2)%nat -> outcome s' (sp_write d y a') (k u s')) ->
  outcome s (sp_write d (x ++ y) a) (st_bind m k s).
Proof.
  intros Hm Hk. rewrite <- sp_write_write. apply outcome_bind; [done| |].
  - intros u s' a' Ha Hrep. apply Hk; [done|]. by rewrite (sp_write_length _ _ _ _ Ha).
  - intros a' a'' _ Ha. apply (sp_write_size _ _ _ _ Ha).
Qed.

Lemma add_utf8_ok d (s : CBB) a u :
  rep s a -> (d <= length a.2)%nat -> code_point u ->
  outcome s (sp_write d (utf8 u) a) (CBB_add_utf8 d u s).
Proof.
  intros Hrep Hd Hc. pose proof (code_point_range u Hc) as Hr.
  destruct (lead_digits u) as (E1 & E2 & E3).
  pose proof (utf8_bytes_ok u Hr) as Hok.
  unfold CBB_add_utf8, utf8 in *. rewrite (proj2 (valid_code_point u ltac:(lia))) by done. cbn [negb].
  rewrite !(cont_digit _ 6), !(cont_digit _ 12), !last_digit by lia.
  destruct (Z.leb_spec u 0x7f); [|destruct (Z.leb_spec u 0x7ff); [|destruct (Z.leb_spec u 0xffff)]].
  - unfold u8. rewrite Z.mod_small by lia. apply add_byte_ok; [done|done|unfold is_byte; lia].
  - rewrite E1 by lia. simp_bytes.
    apply (write_bind d [_] [_]); [by apply add_byte_ok|]. intros. by apply add_byte_ok.
  - rewrite E2 by lia. simp_bytes.
    apply (write_bind d [_] [_; _]); [by apply add_byte_ok|]. intros.
    apply (write_bind d [_] [_]); [by apply add_byte_ok|]. intros. by apply add_byte_ok.
  - rewrite E3 by lia. destruct (Z.leb_spec u 0x10ffff); [|lia]. simp_bytes.
    apply (write_bind d [_] [_; _; _]); [by apply add_byte_ok|]. intros.
    apply (write_bind d [_] [_; _]); [by apply add_byte_ok|]. intros.
    apply (write_bind d [_] [_]); [by apply add_byte_ok|]. intros. by apply add_byte_ok.
Qed.

End writing.

(** * Properties *)

(** C34. Each character reader is exactly the inverse of its encoding: it
    succeeds with [u] precisely on the encoding of [u] followed by what it
    leaves.  Overlong and truncated UTF-8, surrogates, noncharacters and values
    above 0x10ffff are rejected in every charset but Latin-1. *)
Theorem get_char_iff cs s u rest :
  bytes_ok s ->
  get_char cs s = (Some u, rest) <-> exists enc, encode_char cs u = Some enc /\ s = enc ++ rest.
Proof.
  intros Hok. destruct cs; cbn [get_char encode_char].
  - rewrite get_utf8_iff by done. split.
    + intros [Hc ->]. exists (utf8 u). by rewrite decide_True.
    + intros (enc & He & ->). case_decide; by simplify_eq.
  - split.
    + intros ->%CBS_get_u8_inv. simp_bytes. exists [u]. unfold is_byte in *. rewrite decide_True by lia. done.
    + intros (enc & He & ->). case_decide; simplify_eq. apply CBS_get_u8_cons.
  - etransitivity; [by apply (get_valid_iff 2 (2 ^ 16)); [|lia|]|]. change (256 ^ Z.of_nat 2) with 65536. split.
    + intros (Hc & Hl & ->). exists (be_bytes 2 u). rewrite decide_True by (split; [done|lia]). done.
    + intros (enc & He & ->). case_decide; simplify_eq. naive_solver lia.
  - etransitivity; [by apply (get_valid_iff 4 (2 ^ 32)); [|lia|]|]. change (256 ^ Z.of_nat 4) with (2 ^ 32). split.
    + intros (Hc & Hl & ->). exists (be_bytes 4 u). by rewrite decide_True.
    + intros (enc & He & ->). case_decide as Hc; simplify_eq. pose proof (code_point_range u Hc). naive_solver lia.
Qed.

(** Each character writer appends the encoding of its character, of the
    length that [CBB_get_utf8_len] announces for UTF-8; a character that the
    charset does not have is refused and nothing is written. *)
Theorem add_char_spec {H} `{MallocSpec H} cs d (s : cbb_st H) a u :
  rep s a -> (d <= length a.2)%nat -> 0 <= u < 2 ^ 32 ->
  match encode_char cs u with
  | Some enc => outcome s (sp_write d enc a) (add_char cs d u s)
  | None => add_char cs d u s = (None, s)
  end /\ CBB_get_utf8_len u = Zlen (utf8 u).
Proof.
  intros Hrep Hd Hu. split; [|unfold CBB_get_utf8_len, utf8; by repeat case_match].
  destruct cs; cbn [add_char encode_char]; case_decide as Hc.
  - by apply add_utf8_ok.
  - unfold CBB_add_utf8. by rewrite valid_code_point_false by (done || lia).
  - unfold CBB_add_latin1, u8. destruct (Z.leb_spec u 0xff); [|lia]. rewrite Z.mod_small by lia.
    apply add_byte_ok; [done|done|unfold is_byte; lia].
  - unfold CBB_add_latin1. by destruct (Z.leb_spec u 0xff); [lia|].
  - destruct Hc as [Hc Hs]. unfold CBB_add_ucs2_be, u16. rewrite (proj2 (valid_code_point u ltac:(lia)) Hc).
    destruct (Z.leb_spec u 0xffff); [|lia]. rewrite Z.mod_small by lia.
    pose proof (add_u_ok d s a u 2 Hrep Hd ltac:(lia) ltac:(lia)) as Ho. change (256 ^ Z.of_nat 2) with 65536 in Ho.
    by destruct (Z.ltb_spec u 65536); [|lia].
  - unfold CBB_add_ucs2_be. destruct (Z.leb_spec u 0xffff); [|done].
    rewrite valid_code_point_false; [done|lia|]. intros ?. by apply Hc.
  - unfold CBB_add_utf32_be. rewrite (proj2 (valid_code_point u ltac:(lia)) Hc).
    pose proof (add_u_ok d s a u 4 Hrep Hd ltac:(lia) ltac:(lia)) as Ho. change (256 ^ Z.of_nat 4) with (2 ^ 32) in Ho.
    by destruct (Z.ltb_spec u (2 ^ 32)); [|lia].
  - unfold CBB_add_utf32_be. by rewrite valid_code_point_false by (done || lia).
Qed.

Lemma get_char_iff_witness :
  get_char UTF8 [0xe2; 0x82; 0xac; 33] = (Some 0x20ac, [33]) /\
  exists enc, encode_char UTF8 0x20ac = Some enc /\ [0xe2; 0x82; 0xac; 33] = enc ++ [33].
Proof.
  split; [reflexivity|]. apply (get_char_iff UTF8); [repeat constructor; lia|reflexivity].
Defined.

Lemma add_char_spec_witness :
  (outcome ex_open (sp_write 1 [0xf0; 0x9f; 0x98; 0x80] ([4], [(Asn1, [])])) (CBB_add_utf8 1 0x1f600 ex_open)) /\
  CBB_get_utf8_len 0x1f600 = 4.
Proof. apply (add_char_spec UTF8 1 ex_open ([4], [(Asn1, [])]) 0x1f600); [exact ex_open_rep|simpl; lia|lia]. Defined.

(** Overlong forms, surrogates and noncharacters are refused. *)
Example utf8_rejects :
  map (fun s => (CBS_get_utf8 s).1) [[0xc0; 0x80]; [0xed; 0xa0; 0x80]; [0xef; 0xbf; 0xbe]; [0xf4; 0x90; 0x80; 0x80]; [0x80]; [0xe2; 0x82]] =
  replicate 6 None.
Proof. reflexivity. Qed.
