(* ===== verification/Ber.v ===== *)
(** The BER-to-DER converter of [crypto/bytestring/ber.c]: a recursive descent
    over the input [CBS] that writes to a [CBB], with its depth limit, its
    end-of-contents octets and its constructed strings. *)
From S2P Require Import Prelude Mem Der Cbs Cbb CbbSpec CbbAsn1.

Definition kMaxDepth : Z := 128.

Definition CBS_ASN1_UTF8STRING : Z := 0xc.
Definition CBS_ASN1_NUMERICSTRING : Z := 0x12.
Definition CBS_ASN1_PRINTABLESTRING : Z := 0x13.
Definition CBS_ASN1_T61STRING : Z := 0x14.
Definition CBS_ASN1_VIDEOTEXSTRING : Z := 0x15.
Definition CBS_ASN1_IA5STRING : Z := 0x16.
Definition CBS_ASN1_GRAPHICSTRING : Z := 0x19.
Definition CBS_ASN1_VISIBLESTRING : Z := 0x1a.
Definition CBS_ASN1_GENERALSTRING : Z := 0x1b.
Definition CBS_ASN1_UNIVERSALSTRING : Z := 0x1c.
Definition CBS_ASN1_BMPSTRING : Z := 0x1e.

(** [tag & CBS_ASN1_CONSTRUCTED] and [tag & ~CBS_ASN1_CONSTRUCTED]. *)
Definition is_constructed (tag : Z) : bool := negb (Z.land tag CBS_ASN1_CONSTRUCTED =? 0).
Definition clear_constructed (tag : Z) : Z := Z.land tag (u32 (Z.lnot CBS_ASN1_CONSTRUCTED)).

Definition is_string_type (tag : Z) : bool :=
  bool_decide (clear_constructed tag ∈
    [CBS_ASN1_OCTETSTRING; CBS_ASN1_UTF8STRING; CBS_ASN1_NUMERICSTRING; CBS_ASN1_PRINTABLESTRING;
     CBS_ASN1_T61STRING; CBS_ASN1_VIDEOTEXSTRING; CBS_ASN1_IA5STRING; CBS_ASN1_GRAPHICSTRING;
     CBS_ASN1_VISIBLESTRING; CBS_ASN1_GENERALSTRING; CBS_ASN1_UNIVERSALSTRING; CBS_ASN1_BMPSTRING]).

(** [CBS_skip(&contents, header_len)] on the element just read. *)
Definition el_contents (e : asn1_element) : option bytes :=
  match CBS_skip (el_header_len e) (el_out e) with
  | (Some _, contents) => Some contents
  | (None, _) => None
  end.

(** [ber_found], or failure.  Every pass and every call gets a shorter input, so
    that fuel above its length is enough. *)
Fixpoint cbs_find_ber (fuel : nat) (orig_in : bytes) (depth : Z) : option bool :=
  match fuel with
  | O => None
  | S fuel =>
      if depth >? kMaxDepth then None
      else if Zlen orig_in >? 0 then
        match CBS_get_any_ber_asn1_element orig_in with
        | (None, _) => None
        | (Some e, rest) =>
            if el_ber_found e then Some true
            else if is_constructed (el_tag e) then
              if is_string_type (el_tag e) then Some true
              else
                match el_contents e ≫= (fun contents => cbs_find_ber fuel contents (depth + 1)) with
                | None => None
                | Some true => Some true
                | Some false => cbs_find_ber fuel rest depth
                end
            else cbs_find_ber fuel rest depth
        end
      else Some false
  end.

Definition cbs_get_eoc : ST bytes unit := fun cbs =>
  match cbs with
  | 0 :: 0 :: _ => CBS_skip 2 cbs
  | _ => (None, cbs)
  end.

Section convert.
Context {H : Type} `{Malloc H}.
Abbreviation CBB := (cbb_st H).

(** The converter works on [in] and [out] at once. *)
Definition on_in {A} (m : ST bytes A) : ST (bytes * CBB) A := fun s =>
  let '(r, in_) := m s.1 in (r, (in_, s.2)).
Definition on_out {A} (m : ST CBB A) : ST (bytes * CBB) A := fun s =>
  let '(r, out) := m s.2 in (r, (s.1, out)).
(** A call on another [CBS], a local variable. *)
Definition with_in {A} (cbs : bytes) (m : ST (bytes * CBB) A) : ST (bytes * CBB) A := fun s =>
  let '(r, (_, out)) := m (cbs, s.2) in (r, (s.1, out)).

(** The body of the loop on the element [e]; [out] is the depth of the handle and
    [rec out string_tag looking_for_eoc] the recursive call. *)
Definition convert_element (rec : nat -> Z -> bool -> ST (bytes * CBB) unit) (out : nat)
    (string_tag : Z) (e : asn1_element) : ST (bytes * CBB) unit :=
  let tag := el_tag e in
  let constructed_string := is_constructed tag && is_string_type tag in
  let out_tag := if constructed_string then clear_constructed tag else tag in
  let child_string_tag :=
    if negb (string_tag =? 0) then string_tag
    else if constructed_string then out_tag else string_tag in
  out_contents <--
    (if negb (string_tag =? 0) then
       st_guard (clear_constructed tag =? string_tag) ;;; st_ret out
     else on_out (CBB_add_asn1 out out_tag) ;;; st_ret (S out)) ;;
  (if el_indefinite e then rec out_contents child_string_tag true
   else
     match el_contents e with
     | None => st_fail
     | Some contents =>
         if is_constructed tag then with_in contents (rec out_contents child_string_tag false)
         else on_out (CBB_add_bytes out_contents contents)
     end) ;;;
  on_out (CBB_flush out).

(** The loop is the recursion on the rest of the input; [fuel] is as above. *)
Fixpoint cbs_convert_ber (fuel : nat) (out : nat) (string_tag : Z) (looking_for_eoc : bool)
    (depth : Z) : ST (bytes * CBB) unit :=
  match fuel with
  | O => st_fail
  | S fuel => fun s =>
      if depth >? kMaxDepth then (None, s)
      else if Zlen s.1 >? 0 then
        match (if looking_for_eoc then cbs_get_eoc s.1 else (None, s.1)) with
        | (Some _, in_) => (Some tt, (in_, s.2))
        | (None, _) =>
            (e <-- on_in CBS_get_any_ber_asn1_element ;;
             convert_element (fun out string_tag looking_for_eoc =>
               cbs_convert_ber fuel out string_tag looking_for_eoc (depth + 1)) out string_tag e ;;;
             cbs_convert_ber fuel out string_tag looking_for_eoc depth) s
        end
      else (if looking_for_eoc then None else Some tt, s)
  end.

(** [out] and [out_storage]; the state is [in] and the allocator. *)
Definition CBS_asn1_ber_to_der : ST (bytes * H) (bytes * option bytes) := fun '(in_, h) =>
  match cbs_find_ber (S (length in_)) in_ 0 with
  | None => (None, (in_, h))
  | Some false =>
      match CBS_get_any_asn1_element in_ with
      | (None, in_) => (None, (in_, h))
      | (Some e, in_) => (Some (el_out e, None), (in_, h))
      end
  | Some true =>
      match CBB_init (Zlen in_) h with
      | (None, cbb) => (None, (in_, heap cbb))
      | (Some _, cbb) =>
          let '(r, (in_, cbb)) :=
            (cbs_convert_ber (S (length in_)) 0 0 false 0 ;;; on_out (CBB_finish true)) (in_, cbb) in
          (match r with
           | None => None
           | Some (p, len) => Some (take (Z.to_nat len) (default [] p), p)
           end, (in_, heap cbb))
      end
  end.

(** The loop over the chunks of a constructed string. *)
Fixpoint implicit_string_loop (fuel : nat) (inner_tag : Z) (child : bytes) : ST CBB unit :=
  match fuel with
  | O => st_fail
  | S fuel =>
      if Zlen child >? 0 then
        match CBS_get_asn1 inner_tag child with
        | (None, _) => st_fail
        | (Some chunk, child) => CBB_add_bytes 0 chunk ;;; implicit_string_loop fuel inner_tag child
        end
      else st_ret tt
  end.

Definition CBS_get_asn1_implicit_string (outer_tag inner_tag : Z) : ST (bytes * H) (bytes * option bytes) := fun '(in_, h) =>
  if CBS_peek_asn1_tag outer_tag in_ then
    match CBS_get_asn1 outer_tag in_ with
    | (None, in_) => (None, (in_, h))
    | (Some out, in_) => (Some (out, None), (in_, h))
    end
  else
    match CBB_init (Zlen in_) h with
    | (None, result) => (None, (in_, heap result))
    | (Some _, result) =>
        match CBS_get_asn1 (Z.lor outer_tag CBS_ASN1_CONSTRUCTED) in_ with
        | (None, in_) => (None, (in_, heap result))
        | (Some child, in_) =>
            let '(r, result) := (implicit_string_loop (S (length child)) inner_tag child ;;; CBB_finish true) result in
            (match r with
             | None => None
             | Some (p, len) => Some (take (Z.to_nat len) (default [] p), p)
             end, (in_, heap result))
        end
    end.

End convert.
