(* ===== verification/BerSpec.v ===== *)
(** What the BER converter promises: a grammar of BER as trees, the DER of a
    tree, and the theorems that [Ber.v] accepts exactly the grammar and writes
    exactly that DER. *)
From S2P Require Import Prelude Mem Der Cbs Cbb CbbSpec CbbAsn1 Ber.

(** * The grammar *)

(** A primitive element, and constructed ones of definite and indefinite
    length; [k] is the number of octets of the length, 0 for the short form. *)
#[warnings="-register-all"]
Inductive tree :=
  | Prim (k : nat) (t : Z) (c : bytes)
  | Cons (k : nat) (t : Z) (l : list tree)
  | Indef (t : Z) (l : list tree).

Fixpoint enc (x : tree) : bytes :=
  match x with
  | Prim k t c => ber k t c
  | Cons k t l => ber k t (concat (enc <$> l))
  | Indef t l => der_tag t ++ 0x80 :: concat (enc <$> l) ++ [0; 0]
  end.

Abbreviation enc_all l := (concat (enc <$> l)).

(** The trees that nest at most [n] levels. *)
#[warnings="-register-all"]
Inductive ber_tree : nat -> tree -> Prop :=
  | prim_ok n k t c :
      valid_tag t -> is_constructed t = false -> bytes_ok c -> ber_len_ok k (Zlen c) -> ber_tree n (Prim k t c)
  | cons_ok n k t l :
      valid_tag t -> is_constructed t = true -> ber_len_ok k (Zlen (enc_all l)) ->
      Forall (ber_tree n) l -> ber_tree (S n) (Cons k t l)
  | indef_ok n t l :
      valid_tag t -> is_constructed t = true -> Forall (ber_tree n) l -> ber_tree (S n) (Indef t l).

(** The parts of BER that the converter looks for. *)
Fixpoint is_der_tree (x : tree) : bool :=
  match x with
  | Prim k t c => ber_minimal k (Zlen c)
  | Cons k t l => ber_minimal k (Zlen (enc_all l)) && negb (is_string_type t) && forallb is_der_tree l
  | Indef _ _ => false
  end.

(** * The DER of a tree *)

Definition der_element (t : Z) (c : bytes) : option bytes :=
  if Zlen c <=? 0xfffffffe then Some (der t c) else None.

(** What the children of an element are to be: the fragments of a string with
    the tag [st], or ([st = 0]) elements. *)
Definition child_tag (st t : Z) : Z :=
  if negb (st =? 0) then st else if is_constructed t && is_string_type t then clear_constructed t else st.

Definition wrap (st t : Z) (body : bytes) : option bytes :=
  if negb (st =? 0) then if clear_constructed t =? st then Some body else None
  else der_element (if is_constructed t && is_string_type t then clear_constructed t else t) body.

Definition map_concat {A} (f : A -> option bytes) : list A -> option bytes :=
  foldr (fun x acc => match f x, acc with Some a, Some b => Some (a ++ b) | _, _ => None end) (Some []).

Fixpoint to_der (st : Z) (x : tree) : option bytes :=
  match x with
  | Prim _ t c => wrap st t c
  | Cons _ t l | Indef t l => map_concat (to_der (child_tag st t)) l ≫= wrap st t
  end.

Abbreviation to_der_all st := (map_concat (to_der st)).

(** * The converter without the [CBB] *)

(** [n] is the number of levels left below [kMaxDepth]. *)
Fixpoint convert (fuel n : nat) (st : Z) (eoc : bool) (inp : bytes) : option (bytes * bytes) :=
  match fuel with
  | O => None
  | S fuel =>
      if Zlen inp >? 0 then
        match (if eoc then cbs_get_eoc inp else (None, inp)) with
        | (Some _, rest) => Some ([], rest)
        | (None, _) =>
            match CBS_get_any_ber_asn1_element inp with
            | (None, _) => None
            | (Some e, inp) =>
                let t := el_tag e in
                let st' := child_tag st t in
                '(body, inp) ←
                  (if el_indefinite e then
                     match n with O => None | S n => convert fuel n st' true inp end
                   else
                     c ← el_contents e;
                     if is_constructed t then
                       match n with
                       | O => None
                       | S n => '(body, _) ← convert fuel n st' false c; Some (body, inp)
                       end
                     else Some (c, inp));
                piece ← wrap st t body;
                '(out, rest) ← convert fuel n st eoc inp;
                Some (piece ++ out, rest)
            end
        end
      else if eoc then None else Some ([], inp)
  end.

(** * Lemmas: tags *)

Lemma der_tag_head t : valid_tag t -> exists b l, der_tag t = b :: l /\ b <> 0.
Proof.
  intros (Ht & H0 & _). pose proof (tag_bits_bound t Ht). pose proof (tag_num_bound t). pose proof (tag_split t).
  unfold der_tag. destruct (tag_num t <? 31); eexists _, _; (split; [done|lia]).
Qed.

Lemma get_eoc_tag t s : valid_tag t -> cbs_get_eoc (der_tag t ++ s) = (None, der_tag t ++ s).
Proof.
  intros Hv. destruct (der_tag_head t Hv) as (b & l & -> & Hb). cbn [app]. unfold cbs_get_eoc.
  by destruct b; [done|..].
Qed.

Lemma get_eoc_inv s rest : cbs_get_eoc s = (Some tt, rest) -> s = 0 :: 0 :: rest.
Proof.
  unfold cbs_get_eoc. destruct s as [|[| |] [|[| |] s]]; try done.
  intros Hs. change (0 :: 0 :: s) with ([0; 0] ++ s) in Hs |- *.
  rewrite CBS_skip_app_eq in Hs by done. by injection Hs as ->.
Qed.

Lemma get_eoc_nil rest : cbs_get_eoc (0 :: 0 :: rest) = (Some tt, rest).
Proof. apply (CBS_skip_app_eq 2 [0; 0] rest). done. Qed.

Lemma contents_ber k t c bf : el_contents (Asn1Element (ber k t c) t (Zlen (ber_header k t (Zlen c))) bf false) = Some c.
Proof. unfold el_contents, ber. cbn [el_header_len el_out]. by rewrite CBS_skip_app_eq. Qed.

Lemma is_constructed_land t : is_constructed t = true <-> Z.land t CBS_ASN1_CONSTRUCTED <> 0.
Proof. unfold is_constructed. by rewrite negb_true_iff, Z.eqb_neq. Qed.

Lemma enc_head n x : ber_tree n x -> exists t s, valid_tag t /\ enc x = der_tag t ++ s.
Proof.
  intros []; eexists _, _; (split; [done|]); simpl; unfold ber, ber_header; by rewrite <- ?app_assoc.
Qed.

Lemma enc_nonempty n x : ber_tree n x -> (2 <= length (enc x))%nat.
Proof.
  intros []; simpl; unfold ber, ber_header; rewrite !length_app; destruct (der_tag_head t) as (? & ? & -> & _); try done;
    try destruct k; simpl; lia.
Qed.

(** * Lemmas: the converter accepts the grammar *)

Lemma to_der_all_cons st x l out :
  to_der_all st (x :: l) = Some out <->
  exists a b, to_der st x = Some a /\ to_der_all st l = Some b /\ out = a ++ b.
Proof.
  simpl. destruct (to_der st x) as [a|], (to_der_all st l) as [b|]; (split; [|by intros (? & ? & [=] & [=] & ->); subst]); try done.
  intros [= <-]. by exists a, b.
Qed.

(** One element with its contents: the part of [convert] before the loop. *)
Definition convert_one (fuel n : nat) (st : Z) (e : asn1_element) (inp : bytes) : option (bytes * bytes) :=
  '(body, inp) ←
    (if el_indefinite e then
       match n with O => None | S n => convert fuel n (child_tag st (el_tag e)) true inp end
     else
       c ← el_contents e;
       if is_constructed (el_tag e) then
         match n with
         | O => None
         | S n => '(body, _) ← convert fuel n (child_tag st (el_tag e)) false c; Some (body, inp)
         end
       else Some (c, inp));
  piece ← wrap st (el_tag e) body; Some (piece, inp).

Lemma convert_step fuel n st eoc inp :
  convert (S fuel) n st eoc inp =
    if Zlen inp >? 0 then
      match (if eoc then cbs_get_eoc inp else (None, inp)) with
      | (Some _, rest) => Some ([], rest)
      | (None, _) =>
          match CBS_get_any_ber_asn1_element inp with
          | (None, _) => None
          | (Some e, inp) =>
              '(piece, inp) ← convert_one fuel n st e inp;
              '(out, rest) ← convert fuel n st eoc inp;
              Some (piece ++ out, rest)
          end
      end
    else if eoc then None else Some ([], inp).
Proof.
  cbn [convert]. destruct (Zlen inp >? 0); [|done].
  destruct (if eoc then _ else _) as [[u|] r]; [done|].
  destruct (CBS_get_any_ber_asn1_element inp) as [[e|] s]; [|done].
  unfold convert_one. cbv zeta.
  match goal with |- ?m ≫= _ = _ => destruct m as [[body s']|]; [|done] end. simpl.
  by destruct (wrap st (el_tag e) body).
Qed.

(** What [convert] promises about an input. *)
Definition converts_to (n : nat) (st : Z) (eoc : bool) (inp out rest : bytes) : Prop :=
  exists l, Forall (ber_tree n) l /\ inp = enc_all l ++ (if eoc then 0 :: 0 :: rest else rest) /\
    (eoc = false -> rest = []) /\ to_der_all st l = Some out.

Lemma element_sound fuel n st e inp s piece s' :
  (forall n st eoc inp out rest, bytes_ok inp -> Zlen inp <= SIZE_MAX ->
     convert fuel n st eoc inp = Some (out, rest) -> converts_to n st eoc inp out rest) ->
  bytes_ok inp -> Zlen inp <= SIZE_MAX -> CBS_get_any_ber_asn1_element inp = (Some e, s) ->
  convert_one fuel n st e s = Some (piece, s') ->
  exists x, ber_tree n x /\ inp = enc x ++ s' /\ to_der st x = Some piece.
Proof.
  intros IH Hok Hsz He Hc. unfold convert_one in Hc.
  apply bind_Some in Hc as ([body s1] & Hb & (p & Hw & [= -> ->])%bind_Some).
  apply ber_element_sound in He as [(k & t & c & Hv & Hk & -> & ->)|(t & Hv & Hcons & -> & ->)]; [| |done..];
    cbn [el_indefinite el_tag] in *.
  - rewrite contents_ber in Hb. cbn [mbind option_bind] in Hb.
    assert (bytes_ok c /\ Zlen c <= SIZE_MAX) as [Hcok Hcsz].
    { unfold ber in *. simp_bytes. split; [done|]. rewrite !Zlen_app in Hsz. pose proof (Zlen_nonneg s).
      pose proof (Zlen_nonneg (ber_header k t (Zlen c))). lia. }
    destruct (is_constructed t) eqn:Ht.
    + destruct n as [|n]; [done|]. apply bind_Some in Hb as ([b r] & Hb & [= -> ->]).
      apply IH in Hb as (l & Hl & Heq & Hr & Hd); [|done..]. rewrite Hr, app_nil_r in Heq by done. subst c.
      exists (Cons k t l). split_and!; [by constructor|done|]. cbn [to_der]. by rewrite Hd.
    + injection Hb as -> ->. exists (Prim k t body). split_and!; [by constructor|done|done].
  - destruct n as [|n]; [done|]. apply is_constructed_land in Hcons.
    apply IH in Hb as (l & Hl & -> & _ & Hd).
    + exists (Indef t l). split_and!; [by constructor| |cbn [to_der]; by rewrite Hd].
      simpl. by rewrite <- !app_assoc, <- app_comm_cons, <- app_assoc.
    + by simp_bytes.
    + rewrite Zlen_app, Zlen_cons in Hsz. pose proof (Zlen_nonneg (der_tag t)). lia.
Qed.

Lemma convert_sound fuel : forall n st eoc inp out rest,
  bytes_ok inp -> Zlen inp <= SIZE_MAX ->
  convert fuel n st eoc inp = Some (out, rest) -> converts_to n st eoc inp out rest.
Proof.
  induction fuel as [|fuel IH]; intros n st eoc inp out rest Hok Hsz Hc; [done|].
  rewrite convert_step in Hc. destruct (Z.gtb_spec (Zlen inp) 0).
  - destruct (if eoc then cbs_get_eoc inp else (None, inp)) as [[u|] r] eqn:Ee.
    { destruct eoc; [|done]. injection Hc as <- ->. destruct u. apply get_eoc_inv in Ee as ->. by exists []. }
    destruct (CBS_get_any_ber_asn1_element inp) as [[e|] s] eqn:He; [|done].
    apply bind_Some in Hc as ([piece s1] & Hp & ([o r'] & Ho & [= <- <-])%bind_Some).
    destruct (element_sound _ _ _ _ _ _ _ _ IH Hok Hsz He Hp) as (x & Hx & -> & Hd).
    apply bytes_ok_app in Hok as [Hxok Hok]. rewrite Zlen_app in Hsz. pose proof (Zlen_nonneg (enc x)).
    apply IH in Ho as (l & Hl & -> & Hr & Hdl); [|done|lia].
    exists (x :: l). split_and!; [by constructor|by rewrite fmap_cons; simpl; rewrite <- app_assoc|done|].
    apply to_der_all_cons. eauto.
  - destruct eoc; [done|]. injection Hc as <- <-.
    assert (inp = []) as -> by (apply Zlen_0_inv; pose proof (Zlen_nonneg inp); lia). by exists [].
Qed.

Lemma length_ber_header k t n : valid_tag t -> (2 <= length (ber_header k t n))%nat.
Proof.
  intros Hv. unfold ber_header. destruct (der_tag_head t Hv) as (? & ? & -> & _).
  rewrite length_app. destruct k; simpl; lia.
Qed.

Lemma element_complete fuel n st x piece s :
  (forall n st eoc l rest out, Forall (ber_tree n) l -> (eoc = false -> rest = []) ->
     (length (enc_all l) < fuel)%nat -> Zlen (enc_all l ++ (if eoc then 0 :: 0 :: rest else rest)) <= SIZE_MAX ->
     to_der_all st l = Some out ->
     convert fuel n st eoc (enc_all l ++ (if eoc then 0 :: 0 :: rest else rest)) = Some (out, rest)) ->
  ber_tree n x -> (length (enc x) <= fuel)%nat -> Zlen (enc x ++ s) <= SIZE_MAX -> to_der st x = Some piece ->
  exists e s1, CBS_get_any_ber_asn1_element (enc x ++ s) = (Some e, s1) /\
    convert_one fuel n st e s1 = Some (piece, s).
Proof.
  intros IH Hx Hlen Hsz Hd. destruct Hx as [n k t c Hv Ht Hok Hk|n k t l Hv Ht Hk Hl|n t l Hv Ht Hl]; cbn [enc to_der] in *.
  - eexists _, s. split; [by apply ber_element_complete|]. unfold convert_one. cbn [el_indefinite el_tag].
    rewrite contents_ber, Ht. cbn. by rewrite Hd.
  - apply bind_Some in Hd as (body & Hb & Hw).
    eexists _, s. split; [by apply ber_element_complete|]. unfold convert_one. cbn [el_indefinite el_tag].
    rewrite contents_ber, Ht. cbn [mbind option_bind].
    unfold ber in Hlen, Hsz. rewrite length_app in Hlen. rewrite !Zlen_app in Hsz.
    pose proof (length_ber_header k t (Zlen (enc_all l)) Hv). pose proof (Zlen_nonneg s).
    pose proof (Zlen_nonneg (ber_header k t (Zlen (enc_all l)))).
    pose proof (IH n (child_tag st t) false l [] body Hl ltac:(done) ltac:(lia) ltac:(rewrite app_nil_r; lia) Hb) as Hc.
    rewrite app_nil_r in Hc. rewrite Hc. cbn. by rewrite Hw.
  - apply bind_Some in Hd as (body & Hb & Hw).
    assert ((der_tag t ++ 0x80 :: enc_all l ++ [0; 0]) ++ s = der_tag t ++ 0x80 :: enc_all l ++ 0 :: 0 :: s) as E
      by (rewrite <- app_assoc, <- app_comm_cons, <- app_assoc; done).
    eexists _, _. split; [rewrite E; apply indefinite_complete; [done|by apply is_constructed_land]|].
    unfold convert_one. cbn [el_indefinite el_tag].
    rewrite E, Zlen_app, Zlen_cons in Hsz. pose proof (Zlen_nonneg (der_tag t)).
    rewrite length_app in Hlen. simpl in Hlen. rewrite length_app in Hlen.
    rewrite (IH n (child_tag st t) true l s body); [|done|done|lia|lia|done]. cbn. by rewrite Hw.
Qed.

Lemma convert_complete fuel : forall n st eoc l rest out,
  Forall (ber_tree n) l -> (eoc = false -> rest = []) ->
  (length (enc_all l) < fuel)%nat -> Zlen (enc_all l ++ (if eoc then 0 :: 0 :: rest else rest)) <= SIZE_MAX ->
  to_der_all st l = Some out ->
  convert fuel n st eoc (enc_all l ++ (if eoc then 0 :: 0 :: rest else rest)) = Some (out, rest).
Proof.
  induction fuel as [|fuel IH]; intros n st eoc l rest out Hl Hr Hlen Hsz Hd; [lia|]. rewrite convert_step.
  destruct l as [|x l].
  - simpl in *. injection Hd as <-. destruct eoc; [|by rewrite Hr].
    rewrite get_eoc_nil, !Zlen_cons. pose proof (Zlen_nonneg rest). by destruct (Z.gtb_spec (1 + (1 + Zlen rest)) 0); [|lia].
  - apply Forall_cons in Hl as [Hx Hl]. apply to_der_all_cons in Hd as (a & b & Ha & Hb & ->).
    rewrite fmap_cons in *. cbn [concat] in *. rewrite <- app_assoc in *.
    set (s := enc_all l ++ (if eoc then 0 :: 0 :: rest else rest)) in *.
    pose proof (enc_nonempty n x Hx) as H2. rewrite length_app in Hlen.
    destruct (element_complete fuel n st x a s IH Hx ltac:(lia) Hsz Ha) as (e & s1 & He & Hce).
    destruct (enc_head n x Hx) as (t & s0 & Hv & Het).
    destruct (Z.gtb_spec (Zlen (enc x ++ s)) 0); [|rewrite Zlen_app in *; pose proof (Zlen_nonneg s); unfold Zlen in *; lia].
    assert ((if eoc then cbs_get_eoc (enc x ++ s) else (None, enc x ++ s)) = (None, enc x ++ s)) as ->.
    { destruct eoc; [|done]. rewrite Het, <- app_assoc. by apply get_eoc_tag. }
    rewrite He. simpl. rewrite Hce. simpl. unfold s. rewrite (IH n st eoc l rest b); [done|done|done|lia| |done].
    rewrite Zlen_app in Hsz. pose proof (Zlen_nonneg (enc x)). unfold s in Hsz. lia.
Qed.

(** * Lemmas: looking for BER *)

Lemma find_ber_complete fuel : forall l n depth,
  Forall (ber_tree n) l -> Z.of_nat n + depth <= kMaxDepth -> (length (enc_all l) < fuel)%nat ->
  Zlen (enc_all l) <= SIZE_MAX ->
  cbs_find_ber fuel (enc_all l) depth = Some (negb (forallb is_der_tree l)).
Proof.
  induction fuel as [|fuel IH]; intros l n depth Hl Hn Hlen Hsz; [lia|]. cbn [cbs_find_ber].
  destruct (Z.gtb_spec depth kMaxDepth); [lia|]. destruct l as [|x l]; [done|].
  apply Forall_cons in Hl as [Hx Hl]. rewrite fmap_cons in *. cbn [concat forallb] in *.
  pose proof (enc_nonempty n x Hx). rewrite Zlen_app, length_app in *. pose proof (Zlen_nonneg (enc_all l)).
  pose proof (Zlen_nonneg (enc x)).
  destruct (Z.gtb_spec (Zlen (enc x) + Zlen (enc_all l)) 0); [|unfold Zlen in *; lia].
  pose proof (fun d => IH l n d Hl) as IHl.
  destruct Hx as [n k t c Hv Ht Hok Hk|n k t l' Hv Ht Hk Hl'|n t l' Hv Ht Hl']; cbn [enc is_der_tree] in *.
  - rewrite ber_element_complete by (done || rewrite Zlen_app; lia). cbn [el_ber_found el_tag].
    destruct (ber_minimal k (Zlen c)); [|done]. cbn [negb andb]. rewrite Ht. apply IHl; lia.
  - rewrite ber_element_complete by (done || rewrite Zlen_app; lia). cbn [el_ber_found el_tag].
    destruct (ber_minimal k _); [|done]. cbn [negb andb]. rewrite Ht. destruct (is_string_type t); [done|]. cbn [negb andb].
    rewrite contents_ber. cbn [mbind option_bind]. unfold ber in *. rewrite length_app, Zlen_app in *.
    pose proof (length_ber_header k t (Zlen (enc_all l')) Hv). pose proof (Zlen_nonneg (ber_header k t (Zlen (enc_all l')))).
    rewrite (IH l' n (depth + 1)) by (done || lia).
    destruct (forallb is_der_tree l'); [|done]. cbn [negb andb]. apply IHl; lia.
  - assert ((der_tag t ++ 0x80 :: enc_all l' ++ [0; 0]) ++ enc_all l = der_tag t ++ 0x80 :: (enc_all l' ++ [0; 0]) ++ enc_all l) as ->
      by (by rewrite <- app_assoc).
    by rewrite indefinite_complete by (done || by apply is_constructed_land).
Qed.

Lemma find_ber_sound fuel : forall inp n depth,
  bytes_ok inp -> Zlen inp <= SIZE_MAX -> Z.of_nat n + depth = kMaxDepth ->
  cbs_find_ber fuel inp depth = Some false ->
  exists l, Forall (ber_tree n) l /\ inp = enc_all l /\ forallb is_der_tree l = true.
Proof.
  induction fuel as [|fuel IH]; intros inp n depth Hok Hsz Hn Hf; [done|]. cbn [cbs_find_ber] in Hf.
  destruct (Z.gtb_spec depth kMaxDepth); [done|]. destruct (Z.gtb_spec (Zlen inp) 0).
  2:{ exists []. split_and!; [done| |done]. apply Zlen_0_inv. pose proof (Zlen_nonneg inp). lia. }
  destruct (CBS_get_any_ber_asn1_element inp) as [[e|] s] eqn:He; [|done].
  apply ber_element_sound in He as [(k & t & c & Hv & Hk & -> & ->)|(t & Hv & Hcons & -> & ->)]; [|done..].
  cbn [el_ber_found el_tag] in Hf. destruct (ber_minimal k (Zlen c)) eqn:Hm; [|done]. cbn [negb] in Hf.
  rewrite contents_ber in Hf. cbn [mbind option_bind] in Hf.
  assert (exists x, ber_tree n x /\ enc x = ber k t c /\ is_der_tree x = true /\ cbs_find_ber fuel s depth = Some false)
    as (x & Hx & Hex & Hdx & Hs).
  { unfold ber in *. simp_bytes. rewrite !Zlen_app in Hsz. pose proof (Zlen_nonneg s).
    pose proof (Zlen_nonneg (ber_header k t (Zlen c))).
    destruct (is_constructed t) eqn:Ht; [|by exists (Prim k t c); split_and!; [by constructor|..]].
    destruct (is_string_type t) eqn:Hst; [done|].
    destruct (cbs_find_ber fuel c (depth + 1)) as [[]|] eqn:Hc; try done.
    destruct n as [|n].
    { destruct fuel; [done|]. cbn [cbs_find_ber] in Hc. by destruct (Z.gtb_spec (depth + 1) kMaxDepth); [|lia]. }
    apply (IH c n) in Hc as (l & Hl & -> & Hd); [|done|lia|lia].
    exists (Cons k t l). split_and!; [by constructor|done|simpl; by rewrite Hm, Hst, Hd|done]. }
  apply bytes_ok_app in Hok as [_ Hok]. rewrite Zlen_app in Hsz. pose proof (Zlen_nonneg (ber k t c)).
  apply (IH s n) in Hs as (l & Hl & -> & Hd); [|done|lia|done].
  exists (x :: l). rewrite fmap_cons. cbn [concat forallb]. rewrite Hex, Hdx. by split_and!; [constructor|..].
Qed.

(** * Lemmas: the result is DER *)

Lemma tree_list_ind (P : tree -> Prop) :
  (forall k t c, P (Prim k t c)) -> (forall k t l, Forall P l -> P (Cons k t l)) ->
  (forall t l, Forall P l -> P (Indef t l)) -> forall x, P x.
Proof.
  intros Hp Hc Hi. fix IH 1. intros [k t c|k t l|t l]; [apply Hp|apply Hc|apply Hi];
    (induction l as [|x l IHl]; constructor; [apply IH|exact IHl]).
Qed.

Lemma clear_constructed_string t : is_string_type t = true ->
  valid_tag (clear_constructed t) /\ is_constructed (clear_constructed t) = false /\ clear_constructed t <> 0.
Proof.
  unfold is_string_type. rewrite bool_decide_eq_true, !elem_of_cons, elem_of_nil.
  intros Hin. repeat destruct Hin as [->|Hin]; try done; (split; [split_and!; done|done]).
Qed.

Lemma der_element_tree t c e :
  der_element t c = Some e -> exists k, ber_len_ok k (Zlen c) /\ ber_minimal k (Zlen c) = true /\ e = ber k t c.
Proof.
  unfold der_element. destruct (Z.leb_spec (Zlen c) 0xfffffffe); [|done]. intros [= <-].
  destruct (der_minimal (Zlen c)) as (k & Hk & Hm & Hl); [pose proof (Zlen_nonneg c); lia|].
  exists k. split_and!; [done|done|]. unfold ber, ber_header. by rewrite Hl.
Qed.

(** Elements become DER trees, fragments become their contents. *)
Definition normal (n : nat) (st : Z) (piece : bytes) : Prop :=
  if st =? 0 then exists l, Forall (ber_tree n) l /\ forallb is_der_tree l = true /\ enc_all l = piece
  else bytes_ok piece.

Lemma normal_all n st l : forall out,
  Forall (fun x => forall piece, to_der st x = Some piece -> normal n st piece) l ->
  to_der_all st l = Some out -> normal n st out.
Proof.
  induction l as [|x l IH]; intros out Hl Hd.
  { injection Hd as <-. unfold normal. destruct (st =? 0); [by exists []|constructor]. }
  apply Forall_cons in Hl as [Hx Hl]. apply to_der_all_cons in Hd as (a & b & Ha & Hb & ->).
  apply Hx in Ha. apply (IH _ Hl) in Hb. unfold normal in *. destruct (st =? 0); [|by apply bytes_ok_app].
  destruct Ha as (la & Hla & Hda & <-), Hb as (lb & Hlb & Hdb & <-).
  exists (la ++ lb). rewrite fmap_app, concat_app, forallb_app, Hda, Hdb. by split_and!; [apply Forall_app|..].
Qed.

Lemma normal_wrap n st t body piece :
  valid_tag t -> is_constructed t = true -> normal n (child_tag st t) body -> wrap st t body = Some piece ->
  normal (S n) st piece.
Proof.
  intros Hv Hc Hb Hw. unfold normal, wrap, child_tag in *. destruct (Z.eqb_spec st 0) as [->|Hst]; cbn [negb] in *.
  - rewrite Hc in *. cbn [andb] in *. apply der_element_tree in Hw as (k & Hk & Hm & ->).
    destruct (is_string_type t) eqn:Es.
    + destruct (clear_constructed_string t Es) as (Hv' & Hc' & H0). apply Z.eqb_neq in H0. rewrite H0 in Hb.
      exists [Prim k (clear_constructed t) body]. simpl. rewrite Hm, app_nil_r. split_and!; [|done|done].
      constructor; [by constructor|done].
    + destruct Hb as (l & Hl & Hd & <-). exists [Cons k t l]. simpl. rewrite Hm, Es, Hd, app_nil_r.
      split_and!; [|done|done]. constructor; [by constructor|done].
  - destruct (clear_constructed t =? st); [|done]. injection Hw as <-.
    by destruct (Z.eqb_spec st 0).
Qed.

Lemma to_der_normal x : forall n st piece, ber_tree n x -> to_der st x = Some piece -> normal n st piece.
Proof.
  assert (forall n st t l body, Forall (ber_tree n) l ->
    Forall (fun x => forall n st piece, ber_tree n x -> to_der st x = Some piece -> normal n st piece) l ->
    to_der_all (child_tag st t) l = Some body -> normal n (child_tag st t) body) as Hall.
  { intros n st t l body Hl IH. apply normal_all. rewrite Forall_forall in *. eauto. }
  induction x as [k t c|k t l IH|t l IH] using tree_list_ind; intros n st piece Hx Hd; cbn [to_der] in Hd.
  - inversion Hx as [? ? ? ? Hv Hc Hok Hk| |]; subst. unfold wrap, normal in *.
    destruct (Z.eqb_spec st 0) as [->|]; cbn [negb] in Hd; [|by destruct (_ =? st); simplify_eq].
    rewrite Hc in Hd. cbn [andb] in Hd. apply der_element_tree in Hd as (k' & Hk' & Hm & ->).
    exists [Prim k' t c]. simpl. rewrite Hm, app_nil_r. split_and!; [|done|done]. constructor; [by constructor|done].
  - apply bind_Some in Hd as (body & Hb & Hw). inversion Hx as [|n' ? ? ? Hv Hc Hk Hl|]; subst.
    eapply normal_wrap; [exact Hv|exact Hc|by eapply Hall|done].
  - apply bind_Some in Hd as (body & Hb & Hw). inversion Hx as [| |n' ? ? Hv Hc Hl]; subst.
    eapply normal_wrap; [exact Hv|exact Hc|by eapply Hall|done].
Qed.

Lemma to_der_all_normal n l out :
  Forall (ber_tree n) l -> to_der_all 0 l = Some out ->
  exists l', Forall (ber_tree n) l' /\ forallb is_der_tree l' = true /\ enc_all l' = out.
Proof.
  intros Hl Hd. apply (normal_all n 0 l out); [|done]. rewrite Forall_forall in *. intros x Hx piece.
  apply to_der_normal. by apply Hl.
Qed.

(** * Lemmas: the converter with the [CBB] *)

Section refinement.
Context {H : Type} `{MallocSpec H}.
Abbreviation CBB := (cbb_st H).

(** A run that appends what [spec] returns and leaves the input that [spec]
    leaves, and fails only if [spec] does or there is no room. *)
Definition refines {A} (s : CBB) (a : msg) (spec : option (bytes * bytes)) (r : option A * (bytes * CBB)) : Prop :=
  match r with
  | (Some _, (rest, s')) =>
      exists out, spec = Some (out, rest) /\ rep s' (sp_append out a) /\
        forall sz, fits s sz -> msg_size a + Zlen out <= sz -> fits s' sz
  | (None, _) => forall out rest, spec = Some (out, rest) -> ~ fits s (msg_size a + Zlen out)
  end.

Lemma clear_constructed_range t : 0 <= clear_constructed t < 2 ^ 32.
Proof.
  assert (clear_constructed t = Z.land (clear_constructed t) (Z.ones 32)) as ->
    by (unfold clear_constructed; by rewrite <- Z.land_assoc).
  rewrite Z.land_ones by lia. by apply Z.mod_pos_bound.
Qed.

Lemma append_fits s (s' : CBB) a data :
  (forall sz, fits s sz -> msg_size (sp_append data a) <= sz -> fits s' sz) ->
  forall sz, fits s sz -> msg_size a + Zlen data <= sz -> fits s' sz.
Proof. by rewrite sp_append_size. Qed.

(** Writing [data] to a flushed handle. *)
Lemma refines_out {A} (s : CBB) a data inp (m : ST CBB A) :
  outcome s (Some (sp_append data a)) (m s) -> refines s a (Some (data, inp)) (on_out m (inp, s)).
Proof.
  intros Ho. unfold on_out. simpl. destruct (m s) as [[x|] s'].
  - destruct Ho as (a' & [= <-] & Hrep & Hf). exists data. split_and!; [done|done|by apply append_fits].
  - destruct Ho as [_ Ho]. intros ? ? [= <- <-]. rewrite <- sp_append_size. by apply Ho.
Qed.

Lemma too_deep fuel d st eoc depth (x : bytes * CBB) :
  kMaxDepth < depth -> cbs_convert_ber fuel d st eoc depth x = (None, x).
Proof. intros Hd. destruct fuel; [done|]. cbn [cbs_convert_ber]. by destruct (Z.gtb_spec depth kMaxDepth); [|lia]. Qed.

Definition calls_refine (fuel : nat) : Prop := forall n depth d st eoc inp (s : CBB) a,
  rep s a -> length a.2 = d -> Z.of_nat n + depth = kMaxDepth -> bytes_ok inp -> Zlen inp <= SIZE_MAX ->
  refines s a (convert fuel n st eoc inp) (cbs_convert_ber fuel d st eoc depth (inp, s)).

(** The contents of the element, at the handle they go to. *)
Definition convert_body (fuel : nat) (depth : Z) (e : asn1_element) (d : nat) (st : Z) : ST (bytes * CBB) unit :=
  if el_indefinite e then cbs_convert_ber fuel d st true (depth + 1)
  else
    match el_contents e with
    | None => st_fail
    | Some contents =>
        if is_constructed (el_tag e) then with_in contents (cbs_convert_ber fuel d st false (depth + 1))
        else on_out (CBB_add_bytes d contents)
    end.

Lemma body_refines fuel n depth d st e inp (s : CBB) a :
  calls_refine fuel -> rep s a -> length a.2 = d -> Z.of_nat n + depth = kMaxDepth ->
  bytes_ok inp -> Zlen inp <= SIZE_MAX ->
  (forall c, el_contents e = Some c -> bytes_ok c /\ Zlen c <= SIZE_MAX) ->
  refines s a
    (if el_indefinite e then match n with O => None | S n => convert fuel n st true inp end
     else
       c ← el_contents e;
       if is_constructed (el_tag e) then
         match n with O => None | S n => '(body, _) ← convert fuel n st false c; Some (body, inp) end
       else Some (c, inp))
    (convert_body fuel depth e d st (inp, s)).
Proof.
  intros IH Hrep Hd Hn Hok Hsz Hc. unfold convert_body. destruct (el_indefinite e).
  { destruct n as [|n]; [by rewrite too_deep by lia|]. apply IH; [done|done|lia|done|done]. }
  destruct (el_contents e) as [c|]; [|done]. destruct (Hc c eq_refl) as [Hcok Hcsz]. cbn [mbind option_bind].
  destruct (is_constructed (el_tag e)).
  - unfold with_in. cbn [fst snd]. destruct n as [|n]; [by rewrite too_deep by lia|].
    pose proof (IH n (depth + 1) d st false c s a Hrep Hd ltac:(lia) Hcok Hcsz) as Hr.
    destruct (cbs_convert_ber _ _ _ _ _ _) as [[u|] [r s']]; cbn [refines] in *.
    + destruct Hr as (out & -> & Hrep' & Hf). by exists out.
    + intros out rest ([o r'] & E & [= <- <-])%bind_Some. by apply (Hr _ _ E).
  - apply refines_out. rewrite <- (sp_write_flushed d) by done. apply add_bytes_ok; [done|lia|done].
Qed.

(** A string fragment, whose contents go to the handle of the string. *)
Lemma fragment_refines d spec inp (s : CBB) a (body : ST (bytes * CBB) unit) :
  length a.2 = d -> refines s a spec (body (inp, s)) -> refines s a spec ((body ;;; on_out (CBB_flush d)) (inp, s)).
Proof.
  intros Hd Hb. unfold st_bind. destruct (body (inp, s)) as [[u|] [r s1]]; [|done].
  destruct Hb as (out & -> & Hrep & Hf).
  pose proof (flush_outcome d s1 _ Hrep ltac:(rewrite sp_append_length; lia)) as Ho.
  rewrite sp_flush_flushed in Ho by by rewrite sp_append_length. unfold on_out. cbn [fst snd].
  destruct (CBB_flush d s1) as [[u'|] s2]; unfold outcome in Ho; cbn [refines].
  - destruct Ho as (a' & [= <-] & Hrep' & Hf'). exists out. split_and!; [done|done|].
    intros sz Hs Hl. apply Hf'; [by apply Hf|by rewrite sp_append_size].
  - destruct Ho as [_ Ho]. intros ? ? [= <- <-] Hs. apply (Ho _ eq_refl). rewrite sp_append_size. by apply Hf.
Qed.

(** An element, whose contents go to a child that the flush closes. *)
Lemma child_refines d t spec inp (s : CBB) a (body : ST (bytes * CBB) unit) :
  rep s a -> length a.2 = d -> 0 <= t < 2 ^ 32 ->
  (forall s' a', rep s' a' -> length a'.2 = S d -> refines s' a' spec (body (inp, s'))) ->
  refines s a ('(c, rest) ← spec; e ← der_element t c; Some (e, rest))
    ((on_out (CBB_add_asn1 d t) ;;; body ;;; on_out (CBB_flush d)) (inp, s)).
Proof.
  intros Hrep Hd Ht Hbody. pose proof (add_asn1_ok d s a t Hrep ltac:(lia) Ht) as Ho.
  unfold sp_asn1 in Ho. rewrite sp_write_flushed in Ho by done. cbn [fmap option_fmap option_map] in Ho.
  set (a1 := sp_append (der_tag t) a) in *.
  assert (Hsize : forall c e, der_element t c = Some e ->
    e = der_tag t ++ der_len (Zlen c) ++ c /\ msg_size (sp_open Asn1 a1) + Zlen c <= msg_size a + Zlen e).
  { intros c e He. unfold der_element in He. destruct (Zlen c <=? 0xfffffffe); [|done]. injection He as <-.
    unfold der, der_header, a1. rewrite sp_open_size, sp_append_size, !Zlen_app, <- app_assoc. split; [done|].
    simpl. unfold der_len. destruct (Zlen c <? 128); rewrite Zlen_cons; pose proof (Zlen_nonneg (be_bytes (len_octets (Zlen c)) (Zlen c)));
      [change (Zlen []) with 0|]; lia. }
  unfold st_bind, on_out. cbn [fst snd].
  destruct (CBB_add_asn1 d t s) as [[u|] s1]; unfold outcome in Ho.
  2:{ destruct Ho as [_ Ho]. cbn [refines]. intros e rest E Hs. apply bind_Some in E as ([c r] & _ & (e' & He & [= -> ->])%bind_Some).
      apply Hsize in He as [_ Hle]. apply (Ho _ eq_refl). eapply fits_mono; [exact Hs|]. pose proof (Zlen_nonneg c). lia. }
  destruct Ho as (a' & [= <-] & Hrep1 & Hf1).
  specialize (Hbody s1 (sp_open Asn1 a1) Hrep1 ltac:(simpl; unfold a1; rewrite length_app, sp_append_length; simpl; lia)).
  destruct (body (inp, s1)) as [[u'|] [r s2]]; cbn [refines] in *.
  2:{ intros e rest E Hs. apply bind_Some in E as ([c r'] & Hsp & (e' & He & [= -> ->])%bind_Some).
      apply Hsize in He as [_ Hle]. apply (Hbody _ _ Hsp). apply Hf1; [by eapply fits_mono|]. pose proof (Zlen_nonneg c). lia. }
  destruct Hbody as (c & -> & Hrep2 & Hf2). cbn [mbind option_bind].
  pose proof (flush_outcome d s2 _ Hrep2 ltac:(rewrite sp_append_length; simpl; rewrite length_app; unfold a1; rewrite sp_append_length; lia)) as Ho.
  assert (sp_flush d (sp_append c (sp_open Asn1 a1)) = (e ← der_element t c; Some (sp_append e a))) as Hfl.
  { rewrite sp_flush_child by (unfold a1; by rewrite sp_append_length). unfold der_element, encode, a1.
    destruct (Zlen c <=? 0xfffffffe); [|done]. cbn [mbind option_bind]. rewrite sp_append_app.
    unfold der, der_header. by rewrite <- app_assoc. }
  rewrite Hfl in Ho.
  assert (Hkeep : forall e, der_element t c = Some e -> forall sz, fits s sz -> msg_size a + Zlen e <= sz -> fits s2 sz).
  { intros e [_ Hle]%Hsize sz Hs Hl. pose proof (Zlen_nonneg c). apply Hf2; [apply Hf1; [done|lia]|lia]. }
  destruct (der_element t c) as [e|]; cbn [mbind option_bind fst snd] in *.
  - destruct (CBB_flush d s2) as [[u2|] s3]; unfold outcome in Ho; cbn [refines].
    + destruct Ho as (a' & [= <-] & Hrep3 & Hf3). exists e. split_and!; [done|done|].
      intros sz Hs Hl. apply Hf3; [by apply (Hkeep _ eq_refl)|by rewrite sp_append_size].
    + destruct Ho as [_ Ho]. intros ? ? [= <- <-] Hs. apply (Ho _ eq_refl). rewrite sp_append_size. by apply (Hkeep _ eq_refl).
  - destruct (CBB_flush d s2) as [[u2|] s3]; unfold outcome in Ho; [|done]. by destruct Ho as (a' & ? & _).
Qed.

Lemma one_refines fuel n depth d st e inp (s : CBB) a :
  calls_refine fuel -> rep s a -> length a.2 = d -> Z.of_nat n + depth = kMaxDepth ->
  bytes_ok inp -> Zlen inp <= SIZE_MAX -> 0 <= el_tag e < 2 ^ 32 ->
  (forall c, el_contents e = Some c -> bytes_ok c /\ Zlen c <= SIZE_MAX) ->
  refines s a (convert_one fuel n st e inp)
    (convert_element (fun o st eoc => cbs_convert_ber fuel o st eoc (depth + 1)) d st e (inp, s)).
Proof.
  intros IH Hrep Hd Hn Hok Hsz Ht Hc. unfold convert_one, convert_element, wrap, child_tag. cbv zeta.
  pose proof (fun st d s a Hr Hl => body_refines fuel n depth d st e inp s a IH Hr Hl Hn Hok Hsz Hc) as Hbody.
  destruct (negb (st =? 0)).
  - destruct (clear_constructed (el_tag e) =? st); cbn [st_guard].
    + rewrite (st_bind_some _ _ _ d (inp, s)) by done.
      specialize (Hbody st d s a Hrep Hd). apply (fragment_refines d) in Hbody; [|done].
      match goal with |- refines _ _ (?m ≫= _) _ => destruct m as [[c r]|]; exact Hbody end.
    + match goal with |- refines _ _ (?m ≫= _) _ => destruct m as [[c r]|]; done end.
  - assert (forall (st' out_tag : Z), 0 <= out_tag < 2 ^ 32 ->
      forall (m : nat -> Z -> ST (bytes * CBB) unit) (spec : option (bytes * bytes)),
      (forall s' a', rep s' a' -> length a'.2 = S d -> refines s' a' spec (m (S d) st' (inp, s'))) ->
      refines s a ('(body, inp) ← spec; piece ← der_element out_tag body; Some (piece, inp))
        ((out_contents <-- (on_out (CBB_add_asn1 d out_tag) ;;; st_ret (S d)) ;;
          m out_contents st' ;;; on_out (CBB_flush d)) (inp, s))) as Hch.
    { intros st' out_tag Hr m spec Hm. pose proof (child_refines d out_tag spec inp s a _ Hrep Hd Hr Hm) as Hch.
      unfold st_bind in *. destruct (on_out (CBB_add_asn1 d out_tag) (inp, s)) as [[u|] x]; exact Hch. }
    destruct (is_constructed (el_tag e) && is_string_type (el_tag e)).
    + apply (Hch _ _ (clear_constructed_range _) (convert_body fuel depth e)). intros s' a' Hr Hl. by apply body_refines.
    + apply (Hch _ _ Ht (convert_body fuel depth e)). intros s' a' Hr Hl. by apply body_refines.
Qed.

Lemma on_in_eq {A} (m : ST bytes A) inp (s : CBB) : on_in m (inp, s) = ((m inp).1, ((m inp).2, s)).
Proof. unfold on_in. simpl. by destruct (m inp). Qed.

Lemma element_facts inp e s :
  bytes_ok inp -> Zlen inp <= SIZE_MAX -> CBS_get_any_ber_asn1_element inp = (Some e, s) ->
  bytes_ok s /\ Zlen s <= SIZE_MAX /\ 0 <= el_tag e < 2 ^ 32 /\
  forall c, el_contents e = Some c -> bytes_ok c /\ Zlen c <= SIZE_MAX.
Proof.
  intros Hok Hsz He.
  apply ber_element_sound in He as [(k & t & c & (Hv & _) & Hk & -> & ->)|(t & (Hv & _) & _ & -> & ->)]; [| |done..].
  - unfold ber in Hok, Hsz. simp_bytes. rewrite !Zlen_app in Hsz. pose proof (Zlen_nonneg s). pose proof (Zlen_nonneg c).
    pose proof (Zlen_nonneg (ber_header k t (Zlen c))). split; [done|]. split; [lia|]. split; [done|]. rewrite contents_ber.
    intros ? [= <-]. split; [done|lia].
  - simp_bytes. rewrite Zlen_app, Zlen_cons in Hsz. pose proof (Zlen_nonneg (der_tag t)).
    split; [done|]. split; [lia|]. split; [done|]. unfold el_contents. cbn [el_header_len el_out].
    rewrite <- (app_nil_r (der_tag t ++ [0x80])), CBS_skip_app_eq by (by rewrite Zlen_app).
    intros c [= <-]. split; [constructor|done].
Qed.

Lemma convert_refines fuel : calls_refine fuel.
Proof.
  induction fuel as [|fuel IH]; intros n depth d st eoc inp s a Hrep Hd Hn Hok Hsz; [done|].
  rewrite convert_step. cbn [cbs_convert_ber fst snd].
  destruct (Z.gtb_spec depth kMaxDepth); [lia|]. destruct (Zlen inp >? 0).
  2:{ destruct eoc; [done|]. exists []. rewrite sp_append_nil. split_and!; [done|done|]. intros sz Hs _. done. }
  destruct (if eoc then cbs_get_eoc inp else (None, inp)) as [[u|] r].
  { exists []. rewrite sp_append_nil. split_and!; [done|done|]. intros sz Hs _. done. }
  unfold st_bind at 1. rewrite on_in_eq.
  destruct (CBS_get_any_ber_asn1_element inp) as [[e|] inp1] eqn:He; [|done]. cbn [fst snd].
  destruct (element_facts _ _ _ Hok Hsz He) as (Hok1 & Hsz1 & Ht & Hc).
  pose proof (one_refines fuel n depth d st e inp1 s a IH Hrep Hd Hn Hok1 Hsz1 Ht Hc) as Hone.
  unfold st_bind. destruct (convert_element _ d st e (inp1, s)) as [[u|] [inp2 s2]]; cbn [refines] in Hone.
  - destruct Hone as (piece & Hp & Hrep2 & Hf2). rewrite Hp. cbn [mbind option_bind].
    destruct (element_sound _ _ _ _ _ _ _ _ (convert_sound fuel) Hok Hsz He Hp) as (x & _ & -> & _).
    apply bytes_ok_app in Hok as [_ Hok]. rewrite Zlen_app in Hsz. pose proof (Zlen_nonneg (enc x)).
    pose proof (IH n depth d st eoc inp2 s2 _ Hrep2 ltac:(by rewrite sp_append_length) Hn Hok ltac:(lia)) as Hr.
    destruct (cbs_convert_ber fuel d st eoc depth (inp2, s2)) as [[u'|] [r' s3]]; cbn [refines] in *.
    + destruct Hr as (out & -> & Hrep3 & Hf3). exists (piece ++ out). rewrite <- sp_append_app, Zlen_app.
      split_and!; [done|done|]. intros sz Hs Hl. pose proof (Zlen_nonneg out).
      apply Hf3; [apply Hf2; [done|lia]|rewrite sp_append_size; lia].
    + intros out rest ([o r2] & Ho & [= <- <-])%bind_Some Hfit. apply (Hr _ _ Ho).
      rewrite sp_append_size. rewrite Zlen_app in Hfit. pose proof (Zlen_nonneg o).
      apply Hf2; [|lia]. eapply fits_mono; [exact Hfit|lia].
  - intros out rest ([piece r1] & Hp & ([o r2] & Ho & [= <- <-])%bind_Some)%bind_Some Hfit.
    
    apply (Hone _ _ Hp). rewrite Zlen_app in Hfit. pose proof (Zlen_nonneg o). eapply fits_mono; [exact Hfit|lia].
Qed.

Lemma convert_iff inp out rest :
  bytes_ok inp -> Zlen inp <= SIZE_MAX ->
  convert (S (length inp)) 128 0 false inp = Some (out, rest) <->
  rest = [] /\ exists l, Forall (ber_tree 128) l /\ inp = enc_all l /\ to_der_all 0 l = Some out.
Proof.
  intros Hok Hsz. split.
  - intros Hc. apply convert_sound in Hc as (l & Hl & Hi & Hr & Hd); [|done..]. rewrite Hr, app_nil_r in Hi by done.
    split; [by apply Hr|by exists l].
  - intros (-> & l & Hl & -> & Hd).
    pose proof (convert_complete (S (length (enc_all l))) 128 0 false l [] out Hl ltac:(done) ltac:(lia)) as Hc.
    rewrite app_nil_r in Hc. by apply Hc.
Qed.

Lemma to_der_nonempty n l out : Forall (ber_tree n) l -> l <> [] -> to_der_all 0 l = Some out -> out <> [].
Proof.
  intros Hl Hne Hd. destruct l as [|x l]; [done|]. apply Forall_cons in Hl as [Hx _].
  apply to_der_all_cons in Hd as (a & b & Ha & _ & ->). pose proof (to_der_normal x n 0 a Hx Ha) as (la & Hla & _ & Hae).
  destruct la as [|y la].
  - subst a. exfalso. destruct x; cbn [to_der] in Ha; [|apply bind_Some in Ha as (body & _ & Ha)..];
      unfold wrap in Ha; cbn [Z.eqb negb] in Ha; apply der_element_tree in Ha as (k' & _ & _ & Hb);
      unfold ber, ber_header in Hb; destruct k'; by destruct (der_tag _).
  - apply Forall_cons in Hla as [Hy _]. pose proof (enc_nonempty n y Hy) as H2. intros [E _]%app_nil. subst a.
    rewrite fmap_cons in E. cbn [concat] in E. apply app_nil in E as [E _]. by rewrite E in H2; simpl in H2; lia.
Qed.

(** The second pass, on an input in which the first one found BER. *)
Lemma convert_run inp (h : H) cbb :
  bytes_ok inp -> Zlen inp <= SIZE_MAX -> CBB_init (Zlen inp) h = (Some tt, cbb) ->
  match (cbs_convert_ber (S (length inp)) 0 0 false 0 ;;; on_out (CBB_finish true)) (inp, cbb) with
  | (Some (p, n), (rest, _)) => exists out,
      convert (S (length inp)) 128 0 false inp = Some (out, rest) /\ take (Z.to_nat n) (default [] p) = out
  | (None, _) => MallocTotal H -> forall out rest,
      convert (S (length inp)) 128 0 false inp = Some (out, rest) -> Zlen inp <= 2 ^ 60 -> Zlen out <= 2 ^ 60 -> False
  end.
Proof.
  intros Hok Hsz Hi. pose proof (Zlen_nonneg inp). destruct (init_rep (Zlen inp) h cbb ltac:(lia) Hi) as (Hrep & Hcap & Hrs).
  pose proof (convert_refines (S (length inp)) 128%nat 0 0%nat 0 false inp cbb ([], []) Hrep eq_refl ltac:(done) Hok Hsz) as Hr.
  unfold st_bind. destruct (cbs_convert_ber _ _ _ _ _ _) as [[u|] [rest s1]]; cbn [refines] in Hr.
  - destruct Hr as (out & Hc & Hrep1 & _). destruct (finish_root s1 out Hrep1) as (p & s2 & Hf & Hp).
    unfold on_out. cbn [fst snd]. rewrite Hf. by exists out.
  - intros Ht out rest' Hc Hin Hout. apply (Hr _ _ Hc). right.
    split_and!; [done|done|lia|]. change (msg_size ([], [])) with 0. lia.
Qed.

Lemma der_tree_element n x s :
  ber_tree n x -> is_der_tree x = true -> Zlen (enc x ++ s) <= SIZE_MAX ->
  exists e, CBS_get_any_asn1_element (enc x ++ s) = (Some e, s) /\ el_out e = enc x.
Proof.
  intros Hx Hd Hsz. destruct Hx as [n k t c Hv Ht Hok Hk|n k t l Hv Ht Hk Hl|]; [| |done]; cbn [enc is_der_tree] in *.
  - pose proof (ber_element_complete k t c s Hv Hk Hsz) as He. rewrite Hd in He.
    eexists. split; [by apply CBS_get_any_ber_asn1_element_der; split; [exact He|]|done].
  - apply andb_true_iff in Hd as [[Hm _]%andb_true_iff _].
    pose proof (ber_element_complete k t _ s Hv Hk Hsz) as He. rewrite Hm in He.
    eexists. split; [by apply CBS_get_any_ber_asn1_element_der; split; [exact He|]|done].
Qed.

(** The first pass found nothing: the first element is returned as it is. *)
Lemma der_run l (h : H) :
  Forall (ber_tree 128) l -> forallb is_der_tree l = true -> Zlen (enc_all l) <= SIZE_MAX ->
  CBS_asn1_ber_to_der (enc_all l, h) =
    match l with
    | [] => (None, ([], h))
    | x :: l' => (Some (enc x, None), (enc_all l', h))
    end.
Proof.
  intros Hl Hd Hsz. unfold CBS_asn1_ber_to_der.
  rewrite (find_ber_complete (S (length (enc_all l))) l 128 0 Hl ltac:(done) ltac:(lia) Hsz), Hd. cbn [negb].
  destruct l as [|x l]; [done|]. apply Forall_cons in Hl as [Hx _]. cbn [forallb] in Hd.
  apply andb_true_iff in Hd as [Hd _]. rewrite fmap_cons in *. cbn [concat] in *.
  destruct (der_tree_element 128 x _ Hx Hd Hsz) as (e & -> & <-). done.
Qed.

Lemma ber_to_der_sound in_ (h : H) out storage in' h' :
  bytes_ok in_ -> Zlen in_ <= SIZE_MAX -> CBS_asn1_ber_to_der (in_, h) = (Some (out, storage), (in', h')) ->
  exists l, Forall (ber_tree 128) l /\ in_ = enc_all l /\
    match storage with
    | None => forallb is_der_tree l = true /\ exists x l', l = x :: l' /\ out = enc x /\ in' = enc_all l'
    | Some p => forallb is_der_tree l = false /\ to_der_all 0 l = Some out /\ out = take (length out) p /\ in' = []
    end.
Proof.
  intros Hok Hsz. unfold CBS_asn1_ber_to_der. destruct (cbs_find_ber (S (length in_)) in_ 0) as [[]|] eqn:Hf; [| |done].
  - destruct (CBB_init (Zlen in_) h) as [[[]|] cbb] eqn:Hi; [|done].
    pose proof (convert_run in_ h cbb Hok Hsz Hi) as Hr.
    destruct ((cbs_convert_ber _ _ _ _ _ ;;; _) _) as [[[p n]|] [rest s']]; [|done]. intros [= <- <- <- <-].
    destruct Hr as (out & Hc & Hp). apply convert_iff in Hc as (-> & l & Hl & -> & Hd); [|done..].
    rewrite (find_ber_complete _ l 128) in Hf by (done || lia). injection Hf as Hf%negb_true_iff.
    assert (l <> []) as Hne by (by intros ->).
    exists l. split; [done|]. split; [done|]. rewrite Hp. destruct p as [p|].
    + split_and!; [done|done| |done]. cbn [default from_option id] in Hp. rewrite <- Hp, length_take.
      destruct (decide (Z.to_nat n <= length p)%nat); [by rewrite Nat.min_l|]. by rewrite Nat.min_r, !take_ge by lia.
    + destruct (to_der_nonempty _ _ _ Hl Hne Hd). rewrite <- Hp. by destruct (Z.to_nat n).
  - intros Hr. apply (find_ber_sound _ in_ 128) in Hf as (l & Hl & -> & Hd); [|done..].
    pose proof (der_run l h Hl Hd Hsz) as Hdr. unfold CBS_asn1_ber_to_der in Hdr.
    rewrite (find_ber_complete (S (length (enc_all l))) l 128 0 Hl ltac:(done) ltac:(lia) Hsz), Hd in Hdr. cbn [negb] in Hdr. rewrite Hdr in Hr.
    destruct l as [|x l]; [done|]. injection Hr as <- <- <- <-. exists (x :: l). split_and!; [done|done|done|by exists x, l].
Qed.

Lemma ber_to_der_complete l (h : H) :
  MallocTotal H -> bytes_ok (enc_all l) -> Zlen (enc_all l) <= 2 ^ 60 -> Forall (ber_tree 128) l -> l <> [] ->
  forallb is_der_tree l = true \/ (exists out, to_der_all 0 l = Some out /\ Zlen out <= 2 ^ 60) ->
  exists out storage in' h', CBS_asn1_ber_to_der (enc_all l, h) = (Some (out, storage), (in', h')).
Proof.
  intros Ht Hok Hin Hl Hne Hcase. assert (Zlen (enc_all l) <= SIZE_MAX) as Hsz by (unfold SIZE_MAX; lia).
  destruct (forallb is_der_tree l) eqn:Hd.
  { destruct l as [|x l]; [done|]. rewrite (der_run _ h Hl Hd Hsz). eauto. }
  destruct Hcase as [|(out & Hout & Hsize)]; [done|].
  unfold CBS_asn1_ber_to_der. rewrite (find_ber_complete (S (length (enc_all l))) l 128 0 Hl ltac:(done) ltac:(lia) Hsz), Hd.
  cbn [negb].
  destruct (CBB_init (Zlen (enc_all l)) h) as [[[]|] cbb] eqn:Hi.
  - pose proof (convert_run _ h cbb Hok Hsz Hi) as Hr.
    destruct ((cbs_convert_ber _ _ _ _ _ ;;; _) _) as [[[p n]|] [rest s']]; [eauto|].
    destruct (Hr Ht out []); [|done..]. apply convert_iff; [done..|]. split; [done|]. by exists l.
  - unfold CBB_init in Hi. destruct (OPENSSL_malloc (Zlen (enc_all l)) h) as [[q|] h1] eqn:Hm; [done|].
    destruct (OPENSSL_malloc_total (Zlen (enc_all l)) h) as (q & h2 & Hq); [pose proof (Zlen_nonneg (enc_all l)); lia|].
    by rewrite Hq in Hm.
Qed.

(** C3. [CBS_asn1_ber_to_der] accepts exactly the BER of at most 128 levels
    ([ber_tree]): input that is DER already comes back unchanged, its first
    element as a view of the input, and everything else as the DER of the whole
    input in a new buffer.  Apart from that it fails only without memory. *)
Theorem CBS_asn1_ber_to_der_spec in_ (h : H) :
  bytes_ok in_ -> Zlen in_ <= SIZE_MAX ->
  (forall out storage in' h', CBS_asn1_ber_to_der (in_, h) = (Some (out, storage), (in', h')) ->
    exists l, Forall (ber_tree 128) l /\ in_ = enc_all l /\
      match storage with
      | None => forallb is_der_tree l = true /\ exists x l', l = x :: l' /\ out = enc x /\ in' = enc_all l'
      | Some p => forallb is_der_tree l = false /\ to_der_all 0 l = Some out /\ out = take (length out) p /\ in' = []
      end) /\
  (MallocTotal H -> forall l, Forall (ber_tree 128) l -> l <> [] -> in_ = enc_all l -> Zlen in_ <= 2 ^ 60 ->
    forallb is_der_tree l = true \/ (exists out, to_der_all 0 l = Some out /\ Zlen out <= 2 ^ 60) ->
    exists out storage in' h', CBS_asn1_ber_to_der (in_, h) = (Some (out, storage), (in', h'))).
Proof.
  intros Hok Hsz. split.
  - intros out storage in' h'. by apply ber_to_der_sound.
  - intros Ht l Hl Hne -> Hin Hcase. by apply ber_to_der_complete.
Qed.

(** What [CBS_asn1_ber_to_der] returns has no BER left: the converter
    returns (the first element of) its own results as they are. *)
Theorem CBS_asn1_ber_to_der_idempotent in_ (h h' : H) out storage r :
  bytes_ok in_ -> Zlen in_ <= SIZE_MAX -> Zlen out <= SIZE_MAX ->
  CBS_asn1_ber_to_der (in_, h) = (Some (out, storage), r) ->
  exists e rest, out = e ++ rest /\ CBS_asn1_ber_to_der (out, h') = (Some (e, None), (rest, h')).
Proof.
  intros Hok Hsz Ho Hr. destruct r as [in' h1].
  assert (exists l, Forall (ber_tree 128) l /\ forallb is_der_tree l = true /\ enc_all l = out /\ l <> [])
    as (l & Hl & Hd & <- & Hne).
  { apply ber_to_der_sound in Hr as (l & Hl & -> & Hs); [|done..]. destruct storage as [p|].
    - destruct Hs as (Hd & Hout & _). assert (l <> []) as Hne by (by intros ->).
      destruct (to_der_all_normal 128 l out Hl Hout) as (l' & Hl' & Hd' & <-). exists l'. split_and!; [done..|].
      intros ->. by destruct (to_der_nonempty 128 l [] Hl Hne Hout).
    - destruct Hs as (Hd & x & l' & -> & -> & _). apply Forall_cons in Hl as [Hx _]. cbn [forallb] in Hd.
      apply andb_true_iff in Hd as [Hd _]. exists [x]. simpl. rewrite Hd, app_nil_r. split_and!; [by constructor|done..]. }
  rewrite (der_run l h' Hl Hd Ho). destruct l as [|x l]; [done|]. by exists (enc x), (enc_all l).
Qed.

(** * Implicitly tagged strings *)

Lemma implicit_loop_ok fuel : forall t child (s : CBB) a,
  rep s a -> length a.2 = O -> bytes_ok child -> Zlen child <= SIZE_MAX -> (length child < fuel)%nat ->
  match implicit_string_loop fuel t child s with
  | (Some _, s') => exists chunks,
      child = concat (der t <$> chunks) /\ Forall (fun c => Zlen c < 2 ^ 32) chunks /\
      rep s' (sp_append (concat chunks) a)
  | (None, _) => forall chunks, valid_tag t -> child = concat (der t <$> chunks) ->
      Forall (fun c => Zlen c < 2 ^ 32) chunks -> ~ fits s (msg_size a + Zlen (concat chunks))
  end.
Proof.
  induction fuel as [|fuel IH]; intros t child s a Hrep Hl Hok Hsz Hlen; [lia|]. cbn [implicit_string_loop].
  destruct (Z.gtb_spec (Zlen child) 0).
  2:{ exists []. assert (child = []) as -> by (apply Zlen_0_inv; pose proof (Zlen_nonneg child); lia).
      simpl. by rewrite sp_append_nil. }
  destruct (CBS_get_asn1 t child) as [[chunk|] rest] eqn:Hg.
  2:{ intros [|c chunks] Hv -> Hc _; [done|]. rewrite fmap_cons in *. cbn [concat] in *. apply Forall_cons in Hc as [Hc _].
      by rewrite CBS_get_asn1_app in Hg. }
  apply CBS_get_asn1_inv in Hg as (Hv & Hc & ->); [|done..].
  apply bytes_ok_app in Hok as [_ Hok]. rewrite Zlen_app, Zlen_der in Hsz. pose proof (Zlen_nonneg rest).
  pose proof (length_ber_header 0 t 0 Hv) as Hh. unfold der in Hlen. rewrite !length_app in Hlen.
  pose proof (add_bytes_ok 0 s a chunk Hrep ltac:(lia) ltac:(unfold SIZE_MAX; lia)) as Ho.
  rewrite sp_write_flushed in Ho by done. unfold st_bind. unfold outcome in Ho.
  pose proof (Zlen_nonneg (der_header t (Zlen chunk))). pose proof (Zlen_nonneg chunk).
  assert (forall c chunks, der t chunk ++ rest = concat (der t <$> (c :: chunks)) -> Zlen c < 2 ^ 32 ->
    c = chunk /\ rest = concat (der t <$> chunks)) as Hinj.
  { intros c chunks E Hc'. rewrite fmap_cons in E. cbn [concat] in E.
    pose proof (CBS_get_asn1_app t chunk rest Hv Hc ltac:(rewrite Zlen_app, Zlen_der; lia)) as G.
    rewrite E, CBS_get_asn1_app in G; [|done..|rewrite <- E, Zlen_app, Zlen_der; lia]. by injection G as -> ->. }
  destruct (CBB_add_bytes 0 chunk s) as [[u|] s1].
  - destruct Ho as (a' & [= <-] & Hrep1 & Hf1).
    assert (length rest < fuel)%nat as Hlr.
    { unfold der_header in Hlen. rewrite length_app in Hlen. destruct (der_tag_head t Hv) as (? & ? & E & _). rewrite E in Hlen. simpl in Hlen. lia. }
    specialize (IH t rest s1 _ Hrep1 ltac:(by rewrite sp_append_length) Hok ltac:(lia) Hlr).
    destruct (implicit_string_loop fuel t rest s1) as [[u'|] s2].
    + destruct IH as (chunks & -> & Hcs & Hrep2). exists (chunk :: chunks). rewrite sp_append_app in Hrep2.
      split_and!; [done|by constructor|done].
    + intros [|c chunks] _ E Hcs Hfit; [by destruct (der_tag_head t Hv) as (? & ? & E' & _); unfold der, der_header in E; rewrite E' in E|].
      apply Forall_cons in Hcs as [Hc' Hcs]. apply Hinj in E as [-> E]; [|done]. cbn [concat] in Hfit. rewrite Zlen_app in Hfit.
      pose proof (Zlen_nonneg (concat chunks)).
      apply (IH chunks Hv E Hcs). rewrite sp_append_size. apply Hf1; [eapply fits_mono; [exact Hfit|lia]|rewrite sp_append_size; lia].
  - destruct Ho as [_ Ho]. intros [|c chunks] _ E Hcs Hfit; [by destruct (der_tag_head t Hv) as (? & ? & E' & _); unfold der, der_header in E; rewrite E' in E|].
    apply Forall_cons in Hcs as [Hc' Hcs]. apply Hinj in E as [-> E]; [|done]. cbn [concat] in Hfit. rewrite Zlen_app in Hfit.
    pose proof (Zlen_nonneg (concat chunks)). apply (Ho _ eq_refl). rewrite sp_append_size. eapply fits_mono; [exact Hfit|lia].
Qed.

(** [CBS_get_asn1_implicit_string] returns the contents of the element with
    the outer tag, and of its constructed form the concatenation of its chunks:
    exactly the DER chunks with the inner tag are accepted. *)
Theorem CBS_get_asn1_implicit_string_spec outer inner in_ (h : H) :
  let whole := Z.lor outer CBS_ASN1_CONSTRUCTED in
  bytes_ok in_ -> Zlen in_ <= SIZE_MAX ->
  (forall out storage in' h', CBS_get_asn1_implicit_string outer inner (in_, h) = (Some (out, storage), (in', h')) ->
    (storage = None /\ valid_tag outer /\ in_ = der outer out ++ in') \/
    (exists chunks, valid_tag whole /\ in_ = der whole (concat (der inner <$> chunks)) ++ in' /\
       out = concat chunks /\ out = take (length out) (default [] storage))) /\
  (MallocTotal H -> valid_tag outer -> valid_tag whole -> valid_tag inner -> outer <> whole -> Zlen in_ <= 2 ^ 60 ->
    (exists c rest, Zlen c < 2 ^ 32 /\ in_ = der outer c ++ rest) \/
    (exists chunks rest, Zlen (concat (der inner <$> chunks)) < 2 ^ 32 /\ in_ = der whole (concat (der inner <$> chunks)) ++ rest) ->
    exists out storage in' h', CBS_get_asn1_implicit_string outer inner (in_, h) = (Some (out, storage), (in', h'))).
Proof.
  intros whole Hok Hsz. unfold CBS_get_asn1_implicit_string. fold whole. split.
  - intros out storage in' h' Hr. destruct (CBS_peek_asn1_tag outer in_).
    + left. destruct (CBS_get_asn1 outer in_) as [[c|] rest] eqn:Hg; [|done].
      apply CBS_get_asn1_inv in Hg as (Hv & Hc & ->); [|done..]. injection Hr as <- <- <- <-. done.
    + right. destruct (CBB_init (Zlen in_) h) as [[[]|] s] eqn:Hi; [|done].
      destruct (init_rep (Zlen in_) h s ltac:(pose proof (Zlen_nonneg in_); lia) Hi) as (Hrep & _ & _).
      destruct (CBS_get_asn1 whole in_) as [[child|] rest] eqn:Hg; [|done].
      apply CBS_get_asn1_inv in Hg as (Hv & Hc & ->); [|done..].
      unfold der in Hok. simp_bytes.
      pose proof (implicit_loop_ok (S (length child)) inner child s _ Hrep eq_refl ltac:(done) ltac:(unfold SIZE_MAX; lia) ltac:(lia)) as Hl.
      unfold st_bind in Hr. destruct (implicit_string_loop _ _ _ _) as [[u|] s1]; [|done].
      destruct Hl as (chunks & -> & _ & Hrep1). destruct (finish_root s1 _ Hrep1) as (p & s2 & Hf & Hp).
      rewrite Hf in Hr. injection Hr as <- <- <- <-. exists chunks. change (([], []).1 ++ concat chunks) with (concat chunks) in Hp.
      rewrite Hp. split_and!; [done..|].
      unfold Zlen in Hp. by rewrite Nat2Z.id in Hp.
  - intros Ht Hvo Hvw Hvi Hne Hin [(c & rest & Hc & ->)|(chunks & rest & Hc & ->)].
    + rewrite CBS_peek_asn1_tag_der, Z.eqb_refl, CBS_get_asn1_app by done. eauto.
    + rewrite CBS_peek_asn1_tag_der by done. apply Z.eqb_neq in Hne. rewrite Hne.
      set (child := concat (der inner <$> chunks)) in *. set (in_ := der whole child ++ rest) in *.
      pose proof (Zlen_nonneg in_).
      destruct (CBB_init (Zlen in_) h) as [[[]|] s] eqn:Hi.
      2:{ unfold CBB_init in Hi. destruct (OPENSSL_malloc_total (Zlen in_) h ltac:(lia)) as (q & h2 & Hq). by rewrite Hq in Hi. }
      destruct (init_rep (Zlen in_) h s ltac:(lia) Hi) as (Hrep & Hcap & Hrs).
      unfold in_ at 1. rewrite CBS_get_asn1_app by done.
      assert (bytes_ok child) as Hcok by (unfold in_, der in Hok; by simp_bytes).
      pose proof (implicit_loop_ok (S (length child)) inner child s _ Hrep eq_refl Hcok ltac:(unfold SIZE_MAX; lia) ltac:(lia)) as Hl.
      assert (Hcs : Forall (fun c => Zlen c < 2 ^ 32) chunks /\ Zlen (concat chunks) <= Zlen child).
      { unfold child in *. clear -Hc. revert Hc. induction chunks as [|c cs IH]; intros Hc; [done|].
        rewrite fmap_cons in *. cbn [concat] in *. rewrite !Zlen_app, Zlen_der in *. pose proof (Zlen_nonneg c).
        pose proof (Zlen_nonneg (der_header inner (Zlen c))). pose proof (Zlen_nonneg (concat (der inner <$> cs))).
        destruct IH as [IH1 IH2]; [lia|]. split; [constructor; [lia|done]|lia]. }
      unfold st_bind. destruct (implicit_string_loop _ _ _ _) as [[u|] s1].
      * destruct Hl as (chunks' & _ & _ & Hrep1). destruct (finish_root s1 _ Hrep1) as (p & s2 & Hf & _). rewrite Hf. eauto.
      * destruct (Hl chunks Hvi eq_refl (proj1 Hcs)). right. split_and!; [done|done|lia|].
        change (msg_size ([], [])) with 0. destruct Hcs. lia.
Qed.

End refinement.

(** * Witnesses *)

(** A SEQUENCE of indefinite length with a constructed OCTET STRING of two
    chunks, an INTEGER, and what both become. *)
Definition ex_ber : list tree :=
  [Indef (16 + 2 ^ 29) [Cons 1 (4 + 2 ^ 29) [Prim 0 4 [7]; Prim 0 4 [8; 9]]; Prim 0 2 [5]]].

Lemma ex_ber_ok : Forall (ber_tree 128) ex_ber.
Proof. repeat constructor; simpl; try lia; done. Qed.

Definition ex_ber_bytes : bytes := Eval vm_compute in enc_all ex_ber.

Lemma ex_ber_bytes_ok : bytes_ok ex_ber_bytes.
Proof. unfold ex_ber_bytes. repeat (constructor; [unfold is_byte; lia|]). constructor. Qed.

Lemma CBS_asn1_ber_to_der_spec_witness :
  exists out storage in' h', CBS_asn1_ber_to_der (H := unit) (ex_ber_bytes, tt) = (Some (out, storage), (in', h')).
Proof.
  destruct (CBS_asn1_ber_to_der_spec ex_ber_bytes tt ex_ber_bytes_ok ltac:(done)) as [_ Hc].
  apply (Hc _ ex_ber ex_ber_ok); [done|done|done|]. right. eexists. split; [reflexivity|done].
Defined.

Lemma CBS_asn1_ber_to_der_idempotent_witness :
  exists e rest, [0x30; 8; 4; 3; 7; 8; 9; 2; 1; 5] = e ++ rest /\
    CBS_asn1_ber_to_der (H := unit) ([0x30; 8; 4; 3; 7; 8; 9; 2; 1; 5], tt) = (Some (e, None), (rest, tt)).
Proof.
  eapply (CBS_asn1_ber_to_der_idempotent ex_ber_bytes tt tt); [exact ex_ber_bytes_ok|done|done|].
  vm_compute. reflexivity.
Defined.

Lemma CBS_get_asn1_implicit_string_spec_witness :
  exists out storage in' h',
    CBS_get_asn1_implicit_string (H := unit) (2 ^ 31) 4 ([0xa0; 7; 4; 1; 7; 4; 2; 8; 9; 1], tt) = (Some (out, storage), (in', h')).
Proof.
  destruct (CBS_get_asn1_implicit_string_spec (2 ^ 31) 4 [0xa0; 7; 4; 1; 7; 4; 2; 8; 9; 1] tt
    ltac:(repeat constructor; lia) ltac:(done)) as [_ Hc].
  apply (Hc _); [split_and!; done|split_and!; done|split_and!; done|done|done|].
  right. exists [[7]; [8; 9]], [1]. split; [done|reflexivity].
Defined.

(** Constructed BIT STRINGs are not converted, and the depth is limited. *)
Example bit_string_kept : is_string_type (3 + 2 ^ 29) = false.
Proof. reflexivity. Qed.
