(* ===== verification/PosixTime.v ===== *)
(** The calendar arithmetic of [crypto/asn1/posix_time.c]: seconds of POSIX time
    against year, month, day and time of day, for the years 0000 to 9999.
    C's division truncates: it is [Z.quot] and [Z.rem].  No sum or product of
    this file leaves an [int64_t] (or an [int], where the code converts) on the
    values that pass its checks, so none of them wraps. *)
From S2P Require Import Prelude.

Record tm := Tm {
  tm_year : Z;
  tm_mon : Z;
  tm_mday : Z;
  tm_hour : Z;
  tm_min : Z;
  tm_sec : Z;
  tm_wday : Z;
  tm_yday : Z;
  tm_isdst : Z;
}.

Definition SECS_PER_HOUR : Z := 60 * 60.
Definition SECS_PER_DAY : Z := 24 * SECS_PER_HOUR.

Definition is_leap (year : Z) : bool :=
  ((Z.rem year 4 =? 0) && negb (Z.rem year 100 =? 0)) || (Z.rem year 400 =? 0).

Definition is_valid_date (year month day : Z) : bool :=
  if (day <? 1) || (month <? 1) || (year <? 0) || (year >? 9999) then false
  else if (month =? 1) || (month =? 3) || (month =? 5) || (month =? 7) || (month =? 8)
          || (month =? 10) || (month =? 12)
  then (day >? 0) && (day <=? 31)
  else if (month =? 4) || (month =? 6) || (month =? 9) || (month =? 11)
  then (day >? 0) && (day <=? 30)
  else if month =? 2
  then if is_leap year then (day >? 0) && (day <=? 29) else (day >? 0) && (day <=? 28)
  else false.

Definition is_valid_time (hours minutes seconds : Z) : bool :=
  negb ((hours <? 0) || (minutes <? 0) || (seconds <? 0) || (hours >? 23) || (minutes >? 59)
        || (seconds >? 59)).

Definition MIN_POSIX_TIME : Z := -62167219200.
Definition MAX_POSIX_TIME : Z := 253402300799.

Definition is_valid_posix_time (time : Z) : bool := (MIN_POSIX_TIME <=? time) && (time <=? MAX_POSIX_TIME).

Definition posix_time_from_utc (year month day hours minutes seconds : Z) : option Z :=
  if negb (is_valid_date year month day) || negb (is_valid_time hours minutes seconds) then None
  else
    let year := if month <=? 2 then year - 1 else year in
    let era := Z.quot (if year >=? 0 then year else year - 399) 400 in
    let year_of_era := year - era * 400 in
    let day_of_year := Z.quot (153 * (if month >? 2 then month - 3 else month + 9) + 2) 5 + day - 1 in
    let day_of_era := year_of_era * 365 + Z.quot year_of_era 4 - Z.quot year_of_era 100 + day_of_year in
    let posix_days := era * 146097 + day_of_era - 719468 in
    Some (posix_days * SECS_PER_DAY + hours * SECS_PER_HOUR + minutes * 60 + seconds).

(** [(year, month, day, hours, minutes, seconds)]. *)
Definition utc_from_posix_time (time : Z) : option (Z * Z * Z * Z * Z * Z) :=
  if negb (is_valid_posix_time time) then None
  else
    let days := Z.quot time SECS_PER_DAY in
    let leftover_seconds := Z.rem time SECS_PER_DAY in
    let '(days, leftover_seconds) :=
      if leftover_seconds <? 0 then (days - 1, leftover_seconds + SECS_PER_DAY)
      else (days, leftover_seconds) in
    let days := days + 719468 in
    let era := Z.quot (if days >? 0 then days else days - 146096) 146097 in
    let day_of_era := days - era * 146097 in
    let year_of_era :=
      Z.quot (day_of_era - Z.quot day_of_era 1460 + Z.quot day_of_era 36524 - Z.quot day_of_era 146096) 365 in
    let year := year_of_era + era * 400 in
    let day_of_year := day_of_era - (365 * year_of_era + Z.quot year_of_era 4 - Z.quot year_of_era 100) in
    let month_of_year := Z.quot (5 * day_of_year + 2) 153 in
    let month := if month_of_year <? 10 then month_of_year + 3 else month_of_year - 9 in
    let year := if month <=? 2 then year + 1 else year in
    let day := day_of_year - Z.quot (153 * month_of_year + 2) 5 + 1 in
    let hours := Z.quot leftover_seconds SECS_PER_HOUR in
    let leftover_seconds := Z.rem leftover_seconds SECS_PER_HOUR in
    Some (year, month, day, hours, Z.quot leftover_seconds 60, Z.rem leftover_seconds 60).

Definition OPENSSL_tm_to_posix (t : tm) : option Z :=
  posix_time_from_utc (tm_year t + 1900) (tm_mon t + 1) (tm_mday t) (tm_hour t) (tm_min t) (tm_sec t).

Definition OPENSSL_posix_to_tm (time : Z) : option tm :=
  match utc_from_posix_time time with
  | None => None
  | Some (year, mon, mday, hour, min, sec) =>
      Some (Tm (year - 1900) (mon - 1) mday hour min sec 0 0 0)
  end.

(** [time_t_32]: [sizeof(time_t) == sizeof(int32_t)]. *)
Definition OPENSSL_timegm (time_t_32 : bool) (t : tm) : option Z :=
  match OPENSSL_tm_to_posix t with
  | None => None
  | Some posix_time =>
      if time_t_32 && ((posix_time >? INT_MAX) || (posix_time <? INT_MIN)) then None
      else Some posix_time
  end.

Definition OPENSSL_gmtime (time : Z) : option tm := OPENSSL_posix_to_tm time.

(** The new contents of [*tm]; on failure it is unchanged. *)
Definition OPENSSL_gmtime_adj (t : tm) (offset_day offset_sec : Z) : option tm :=
  match OPENSSL_tm_to_posix t with
  | None => None
  | Some posix_time =>
      let posix_time := posix_time + offset_day * SECS_PER_DAY in
      if (posix_time >? 0) && (offset_sec >? INT64_MAX - posix_time) then None
      else if (posix_time <? 0) && (offset_sec <? INT64_MIN - posix_time) then None
      else OPENSSL_posix_to_tm (posix_time + offset_sec)
  end.

(** [(days, secs)]. *)
Definition OPENSSL_gmtime_diff (from to : tm) : option (Z * Z) :=
  match OPENSSL_tm_to_posix to with
  | None => None
  | Some time_to =>
    match OPENSSL_tm_to_posix from with
    | None => None
    | Some time_from =>
      let timediff := time_to - time_from in
      let daydiff := Z.quot timediff SECS_PER_DAY in
      Some (daydiff, Z.rem timediff SECS_PER_DAY)
    end
  end.

(** * The calendar *)

(** Days before the first of a month in a common year. *)
Definition days_before_month (month : Z) : Z :=
  nth (Z.to_nat (month - 1)) [0; 31; 59; 90; 120; 151; 181; 212; 243; 273; 304; 334] 0.

(** Days from 1970-01-01: every year has 365, and one more for each leap year
    before it, counted by the Gregorian rule. *)
Definition civil_days (year month day : Z) : Z :=
  365 * year + ((year + 3) / 4 - (year + 99) / 100 + (year + 399) / 400)
  + days_before_month month + (if is_leap year && (month >? 2) then 1 else 0) + (day - 1) - 719528.

(** * Lemmas *)

Lemma is_leap_iff y :
  0 <= y -> is_leap y = true <-> (y mod 4 = 0 /\ y mod 100 <> 0) \/ y mod 400 = 0.
Proof. intros. unfold is_leap. rewrite !Z.rem_mod_nonneg by lia. lia. Qed.

Lemma is_valid_date_cases y m d :
  is_valid_date y m d = true <->
  0 <= y <= 9999 /\ 1 <= m <= 12 /\ 1 <= d /\
  d <= nth (Z.to_nat (m - 1)) [31; (if is_leap y then 29 else 28); 31; 30; 31; 30; 31; 31; 30; 31; 30; 31] 0.
Proof.
  unfold is_valid_date.
  destruct ((d <? 1) || (m <? 1) || (y <? 0) || (y >? 9999)) eqn:E0; [split; [done|lia]|].
  destruct (decide (m <= 12)) as [Hm|Hm].
  - assert (m = 1 \/ m = 2 \/ m = 3 \/ m = 4 \/ m = 5 \/ m = 6 \/ m = 7 \/ m = 8 \/ m = 9 \/ m = 10 \/
      m = 11 \/ m = 12) as Hc by lia.
    repeat destruct Hc as [->|Hc]; try subst m; simpl; try lia. destruct (is_leap y); lia.
  - repeat match goal with |- context [m =? ?k] => destruct (Z.eqb_spec m k); [lia|] end.
    split; [done|lia].
Qed.

Lemma era_of_year y :
  -400 <= y -> Z.quot (if y >=? 0 then y else y - 399) 400 = y / 400.
Proof. intros. destruct (y >=? 0) eqn:E; dlia. Qed.

Lemma posix_time_civil y m d h mi s :
  is_valid_date y m d = true -> is_valid_time h mi s = true ->
  posix_time_from_utc y m d h mi s = Some (civil_days y m d * 86400 + h * 3600 + mi * 60 + s).
Proof.
  intros Hd Ht. unfold posix_time_from_utc. rewrite Hd, Ht. cbn [negb orb].
  apply is_valid_date_cases in Hd as (Hy & Hm & Hd & _). f_equal.
  unfold SECS_PER_DAY, SECS_PER_HOUR. change (24 * (60 * 60)) with 86400. change (60 * 60) with 3600.
  do 3 f_equal. f_equal. unfold civil_days, days_before_month.
  rewrite era_of_year by (destruct (m <=? 2); lia).
  destruct (is_leap y) eqn:E.
  - apply is_leap_iff in E; [|lia].
    assert (m = 1 \/ m = 2 \/ m = 3 \/ m = 4 \/ m = 5 \/ m = 6 \/ m = 7 \/ m = 8 \/ m = 9 \/ m = 10 \/
      m = 11 \/ m = 12) as Hc by lia.
    repeat destruct Hc as [->|Hc]; try subst m; simpl; dlia.
  - assert (~ ((y mod 4 = 0 /\ y mod 100 <> 0) \/ y mod 400 = 0)) as E'
      by (intros E'; apply is_leap_iff in E'; [congruence|lia]).
    assert (m = 1 \/ m = 2 \/ m = 3 \/ m = 4 \/ m = 5 \/ m = 6 \/ m = 7 \/ m = 8 \/ m = 9 \/ m = 10 \/
      m = 11 \/ m = 12) as Hc by lia.
    repeat destruct Hc as [->|Hc]; try subst m; simpl; dlia.
Qed.

(** A day, counted from March 1st of a year divisible by 400: the era of 400
    years, the year of the era and the day of the year that starts in March, of
    which the 366th exists when the next year is a leap year. *)
Definition next_is_leap (yoe : Z) : Prop :=
  ((yoe + 1) mod 4 = 0 /\ (yoe + 1) mod 100 <> 0) \/ (yoe + 1) mod 400 = 0.

Definition march_ok (yoe doy : Z) : Prop :=
  0 <= yoe <= 399 /\ 0 <= doy <= 365 /\ (doy = 365 -> next_is_leap yoe).

Definition march_days (era yoe doy : Z) : Z :=
  era * 146097 + (365 * yoe + yoe / 4 - yoe / 100 + doy) - 719468.

Definition march_date (era yoe doy : Z) : Z * Z * Z :=
  let mp := (5 * doy + 2) / 153 in
  let month := if mp <? 10 then mp + 3 else mp - 9 in
  (yoe + era * 400 + (if month <=? 2 then 1 else 0), month, doy - (153 * mp + 2) / 5 + 1).

Lemma march_doe_bound yoe doy :
  march_ok yoe doy -> 0 <= 365 * yoe + yoe / 4 - yoe / 100 + doy <= 146096.
Proof.
  intros (H1 & H2 & Hl). unfold next_is_leap in Hl.
  destruct (Z.eq_dec doy 365) as [E|E]; [specialize (Hl E); dlia|clear Hl; dlia].
Qed.

Lemma march_yoe yoe doy doe :
  march_ok yoe doy -> doe = 365 * yoe + yoe / 4 - yoe / 100 + doy ->
  (doe - doe / 1460 + doe / 36524 - doe / 146096) / 365 = yoe.
Proof.
  intros Hm Hd. pose proof (march_doe_bound yoe doy Hm). destruct Hm as (H1 & H2 & Hl).
  unfold next_is_leap in Hl.
  destruct (Z.eq_dec doy 365) as [E|E]; [specialize (Hl E); dlia|clear Hl; dlia].
Qed.

Lemma march_exists doe :
  0 <= doe <= 146096 ->
  exists yoe doy, march_ok yoe doy /\ doe = 365 * yoe + yoe / 4 - yoe / 100 + doy.
Proof.
  intros Hd. set (yoe := (doe - doe / 1460 + doe / 36524 - doe / 146096) / 365).
  exists yoe, (doe - (365 * yoe + yoe / 4 - yoe / 100)).
  assert (yoe = (doe - doe / 1460 + doe / 36524 - doe / 146096) / 365) as Hy by done. clearbody yoe.
  split; [|lia]. split_and!; [dlia..|]. intros E. unfold next_is_leap. dlia.
Qed.

(** The code recovers the fields of a day. *)
Lemma utc_of_march era yoe doy secs :
  march_ok yoe doy -> 0 <= secs < 86400 ->
  let t := march_days era yoe doy * 86400 + secs in
  is_valid_posix_time t = true ->
  utc_from_posix_time t =
    let '(y, m, d) := march_date era yoe doy in
    Some (y, m, d, secs / 3600, secs mod 3600 / 60, secs mod 3600 mod 60).
Proof.
  intros Hm Hs t Hv. pose proof (march_doe_bound yoe doy Hm) as Hdoe.
  unfold utc_from_posix_time. rewrite Hv. cbn [negb].
  change SECS_PER_DAY with 86400. change SECS_PER_HOUR with 3600.
  assert ((if Z.rem t 86400 <? 0 then (Z.quot t 86400 - 1, Z.rem t 86400 + 86400)
           else (Z.quot t 86400, Z.rem t 86400)) = (march_days era yoe doy, secs)) as ->.
  { unfold t. clear -Hs. generalize (march_days era yoe doy). intros D.
    destruct (Z.ltb_spec (Z.rem (D * 86400 + secs) 86400) 0); f_equal; dlia. }
  set (doe := 365 * yoe + yoe / 4 - yoe / 100 + doy) in *.
  replace (march_days era yoe doy + 719468) with (era * 146097 + doe) by (unfold march_days, doe; lia).
  replace (Z.quot (if era * 146097 + doe >? 0 then era * 146097 + doe else era * 146097 + doe - 146096) 146097)
    with era by (destruct (era * 146097 + doe >? 0) eqn:E; dlia).
  replace (era * 146097 + doe - era * 146097) with doe by lia.
  rewrite !(Z.quot_div_nonneg doe) by lia.
  rewrite (Z.quot_div_nonneg _ 365) by dlia. rewrite (march_yoe yoe doy doe Hm eq_refl).
  destruct Hm as (Hy & Hdy & _).
  rewrite (Z.quot_div_nonneg yoe 4), (Z.quot_div_nonneg yoe 100) by lia.
  replace (doe - (365 * yoe + yoe / 4 - yoe / 100)) with doy by (unfold doe; lia).
  rewrite (Z.quot_div_nonneg _ 153) by lia. unfold march_date.
  assert (0 <= (5 * doy + 2) / 153 <= 11) as Hmp by dlia.
  rewrite (Z.quot_div_nonneg (153 * _ + 2) 5) by lia.
  rewrite Z.rem_mod_nonneg, !Z.quot_div_nonneg by (try apply Z.mod_pos_bound; lia).
  pose proof (Z.mod_pos_bound secs 3600 ltac:(lia)).
  rewrite Z.rem_mod_nonneg by lia.
  destruct (_ <=? 2); [done|]. by rewrite Z.add_0_r.
Qed.

Lemma mp_cases (mp : Z) : 0 <= mp <= 11 ->
  mp = 0 \/ mp = 1 \/ mp = 2 \/ mp = 3 \/ mp = 4 \/ mp = 5 \/ mp = 6 \/ mp = 7 \/ mp = 8 \/ mp = 9 \/
  mp = 10 \/ mp = 11.
Proof. lia. Qed.

Lemma march_leap era yoe :
  0 <= yoe <= 399 -> 0 <= yoe + era * 400 + 1 -> next_is_leap yoe <-> is_leap (yoe + era * 400 + 1) = true.
Proof. intros. rewrite is_leap_iff by lia. unfold next_is_leap. split; dlia. Qed.

(** The fields of a day are a valid date, and the code computes the day back. *)
Lemma posix_of_march era yoe doy h mi s :
  march_ok yoe doy -> is_valid_time h mi s = true ->
  let '(y, m, d) := march_date era yoe doy in
  0 <= y <= 9999 ->
  is_valid_date y m d = true /\
  posix_time_from_utc y m d h mi s = Some (march_days era yoe doy * 86400 + h * 3600 + mi * 60 + s).
Proof.
  intros (Hy & Hdy & Hl) Ht. unfold march_date. set (mp := (5 * doy + 2) / 153).
  assert (mp = (5 * doy + 2) / 153) as Emp by done. clearbody mp.
  assert (0 <= mp <= 11) as Hmp by dlia. cbv zeta.
  set (m := if mp <? 10 then mp + 3 else mp - 9). set (d := doy - (153 * mp + 2) / 5 + 1).
  set (y := yoe + era * 400 + (if m <=? 2 then 1 else 0)). intros Hyr.
  assert (is_valid_date y m d = true) as Hd.
  { apply is_valid_date_cases. unfold y, m, d in *. clear Ht.
    apply mp_cases in Hmp as Hc.
    repeat destruct Hc as [->|Hc]; try rewrite Hc in *; simpl in *; (split_and!; [lia|lia|lia|lia|dlia|]); try dlia.
    destruct (is_leap (yoe + era * 400 + 1)) eqn:E; [dlia|].
    destruct (Z.eq_dec doy 365) as [E3|E3]; [|dlia].
    apply (march_leap era yoe Hy ltac:(lia)) in Hl; [congruence|done]. }
  split; [done|]. unfold posix_time_from_utc. rewrite Hd, Ht. cbn [negb orb].
  change SECS_PER_DAY with 86400. change SECS_PER_HOUR with 3600.
  assert ((if m <=? 2 then y - 1 else y) = yoe + era * 400) as ->
    by (unfold y; destruct (m <=? 2); lia).
  assert ((if m >? 2 then m - 3 else m + 9) = mp) as ->.
  { unfold m. destruct (Z.ltb_spec mp 10); destruct (_ >? 2) eqn:E; lia. }
  replace (Z.quot (if yoe + era * 400 >=? 0 then yoe + era * 400 else yoe + era * 400 - 399) 400)
    with era by (destruct (yoe + era * 400 >=? 0) eqn:E; dlia).
  replace (yoe + era * 400 - era * 400) with yoe by lia.
  rewrite !Z.quot_div_nonneg by lia. unfold march_days, d. do 3 f_equal. lia.
Qed.

(** Every valid date is the date of a day. *)
Lemma march_of_date y m d :
  is_valid_date y m d = true ->
  exists era yoe doy, march_ok yoe doy /\ march_date era yoe doy = (y, m, d).
Proof.
  intros (Hy & Hm & Hd & Hdm)%is_valid_date_cases.
  set (y' := if m <=? 2 then y - 1 else y). set (mp := if m >? 2 then m - 3 else m + 9).
  exists (y' / 400), (y' mod 400), ((153 * mp + 2) / 5 + d - 1).
  assert (0 <= y' mod 400 <= 399) as Hyoe by dlia.
  assert (0 <= mp <= 11) as Hmp by (unfold mp; destruct (m >? 2) eqn:E; lia).
  assert (m = if mp <? 10 then mp + 3 else mp - 9) as Em.
  { unfold mp. destruct (m >? 2) eqn:E; destruct (Z.ltb_spec mp 10); unfold mp in *; rewrite ?E in *;
      destruct (_ <? 10) eqn:E2; lia. }
  assert (is_leap y = true -> mp = 11 -> next_is_leap (y' mod 400)) as Hleap.
  { intros Hl Hmp11. unfold mp, y' in *. destruct (m >? 2) eqn:E; [lia|]. destruct (m <=? 2) eqn:E2; [|lia].
    apply is_leap_iff in Hl; [|lia]. unfold next_is_leap. dlia. }
  clearbody mp.
  assert ((5 * ((153 * mp + 2) / 5 + d - 1) + 2) / 153 = mp /\ march_ok (y' mod 400) ((153 * mp + 2) / 5 + d - 1))
    as [Hmp' Hok].
  { apply mp_cases in Hmp as Hc.
    repeat destruct Hc as [->|Hc]; try rewrite Hc in *; simpl in Em; subst m; simpl in Hdm;
      try (split; [dlia|split_and!; [lia|lia|dlia|dlia|dlia]]).
    destruct (is_leap y); (split; [dlia|split_and!; [lia|lia|dlia|dlia|]]); [auto|dlia]. }
  split; [done|]. unfold march_date. rewrite Hmp'. rewrite <- Em. f_equal; [f_equal|lia].
  unfold y'. destruct (m <=? 2); dlia.
Qed.

Lemma march_year_range era yoe doy secs :
  march_ok yoe doy -> 0 <= secs < 86400 ->
  is_valid_posix_time (march_days era yoe doy * 86400 + secs) = true ->
  0 <= (march_date era yoe doy).1.1 <= 9999.
Proof.
  intros Hm Hs Hv. pose proof (march_doe_bound yoe doy Hm) as Hd. destruct Hm as (Hy & Hdy & _).
  unfold is_valid_posix_time, MIN_POSIX_TIME, MAX_POSIX_TIME, march_days in Hv.
  assert (-60 <= era * 146097 + (365 * yoe + yoe / 4 - yoe / 100 + doy) <= 3652364) as Hb by lia.
  assert (-1 <= era <= 24) as He by lia. unfold march_date. cbn [fst snd].
  assert (0 <= (5 * doy + 2) / 153 <= 11) by dlia.
  destruct (decide (era = -1)) as [->|]; [|destruct (decide (era = 24)) as [->|]].
  - assert (yoe = 399) as -> by dlia. assert (10 <= (5 * doy + 2) / 153) by dlia.
    destruct (Z.ltb_spec ((5 * doy + 2) / 153) 10); [lia|]. destruct (Z.leb_spec ((5 * doy + 2) / 153 - 9) 2); lia.
  - destruct (decide (yoe = 399)) as [->|].
    + assert ((5 * doy + 2) / 153 < 10) by dlia.
      destruct (Z.ltb_spec ((5 * doy + 2) / 153) 10); [|lia]. destruct (Z.leb_spec ((5 * doy + 2) / 153 + 3) 2); lia.
    + destruct (_ <=? 2); lia.
  - destruct (_ <=? 2); lia.
Qed.

Lemma day_seconds h mi s :
  is_valid_time h mi s = true ->
  let secs := h * 3600 + mi * 60 + s in
  0 <= secs < 86400 /\ secs / 3600 = h /\ secs mod 3600 / 60 = mi /\ secs mod 3600 mod 60 = s.
Proof. unfold is_valid_time. intros Ht. cbv zeta. split_and!; [lia|lia|dlia..]. Qed.

Lemma civil_days_range y m d :
  is_valid_date y m d = true -> -719528 <= civil_days y m d <= 2932896.
Proof.
  intros (Hy & Hm & Hd & Hdm)%is_valid_date_cases. unfold civil_days, days_before_month.
  assert (m = 1 \/ m = 2 \/ m = 3 \/ m = 4 \/ m = 5 \/ m = 6 \/ m = 7 \/ m = 8 \/ m = 9 \/ m = 10 \/
    m = 11 \/ m = 12) as Hc by lia.
  destruct (is_leap y) eqn:E.
  - apply is_leap_iff in E; [|lia].
    repeat destruct Hc as [->|Hc]; try subst m; simpl in *; dlia.
  - repeat destruct Hc as [->|Hc]; try subst m; simpl in *; dlia.
Qed.

Lemma utc_iff t y m d h mi s :
  utc_from_posix_time t = Some (y, m, d, h, mi, s) <-> posix_time_from_utc y m d h mi s = Some t.
Proof.
  split.
  - intros Hu. destruct (is_valid_posix_time t) eqn:Hv.
    2: { unfold utc_from_posix_time in Hu. by rewrite Hv in Hu. }
    pose proof (Z.div_mod t 86400 ltac:(lia)) as Et. pose proof (Z.mod_pos_bound t 86400 ltac:(lia)) as Hs.
    set (D := t / 86400) in *. set (secs := t mod 86400) in *.
    destruct (march_exists ((D + 719468) mod 146097)) as (yoe & doy & Hok & Hdoe);
      [pose proof (Z.mod_pos_bound (D + 719468) 146097); lia|].
    set (era := (D + 719468) / 146097).
    assert (t = march_days era yoe doy * 86400 + secs) as Ht.
    { unfold march_days. rewrite <- Hdoe. pose proof (Z.div_mod (D + 719468) 146097 ltac:(lia)). lia. }
    rewrite Ht in Hv, Hu |- *. pose proof (march_year_range era yoe doy secs Hok Hs Hv) as Hyr.
    rewrite (utc_of_march era yoe doy secs Hok Hs Hv) in Hu.
    pose proof (posix_of_march era yoe doy h mi s Hok) as Hp.
    destruct (march_date era yoe doy) as [[y' m'] d']. simpl in Hyr. injection Hu as <- <- <- Eh Em Es.
    destruct Hp as [_ ->]; [|done|].
    + rewrite <- Eh, <- Em, <- Es. clear -Hs. unfold is_valid_time. dlia.
    + f_equal. rewrite <- Eh, <- Em, <- Es. clear -Hs. dlia.
  - intros Hp. destruct (is_valid_date y m d) eqn:Hd.
    2: { unfold posix_time_from_utc in Hp. by rewrite Hd in Hp. }
    destruct (is_valid_time h mi s) eqn:Ht.
    2: { unfold posix_time_from_utc in Hp. rewrite Hd, Ht in Hp. done. }
    pose proof (posix_time_civil y m d h mi s Hd Ht) as Hc. pose proof Hd as Hdv.
    destruct (march_of_date y m d Hd) as (era & yoe & doy & Hok & Hmd).
    pose proof (posix_of_march era yoe doy h mi s Hok Ht) as Hpm. rewrite Hmd in Hpm.
    apply is_valid_date_cases in Hd as (Hy & Hm & Hd1 & Hd2).
    destruct (Hpm Hy) as [_ Hpm']. rewrite Hpm' in Hp. injection Hp as <-.
    destruct (day_seconds h mi s Ht) as (Hs & E1 & E2 & E3).
    replace (march_days era yoe doy * 86400 + h * 3600 + mi * 60 + s)
      with (march_days era yoe doy * 86400 + (h * 3600 + mi * 60 + s)) in * by lia.
    assert (is_valid_posix_time (march_days era yoe doy * 86400 + (h * 3600 + mi * 60 + s)) = true) as Hv.
    { rewrite Hc in Hpm'. injection Hpm' as Hpm'. pose proof (civil_days_range y m d Hdv).
      unfold is_valid_posix_time, MIN_POSIX_TIME, MAX_POSIX_TIME. lia. }
    rewrite utc_of_march by done. rewrite Hmd. by rewrite E1, E2, E3.
Qed.

Lemma posix_time_range y m d h mi s t :
  posix_time_from_utc y m d h mi s = Some t -> MIN_POSIX_TIME <= t <= MAX_POSIX_TIME.
Proof.
  intros Hp%utc_iff. unfold utc_from_posix_time in Hp.
  destruct (is_valid_posix_time t) eqn:E; [|done]. unfold is_valid_posix_time in E. lia.
Qed.

Lemma posix_to_tm_iff t x :
  OPENSSL_posix_to_tm t = Some x <->
  OPENSSL_tm_to_posix x = Some t /\ tm_wday x = 0 /\ tm_yday x = 0 /\ tm_isdst x = 0.
Proof.
  unfold OPENSSL_posix_to_tm, OPENSSL_tm_to_posix. split.
  - destruct (utc_from_posix_time t) as [[[[[[y m] d] h] mi] s]|] eqn:E; [|done]. intros [= <-]. simpl.
    apply utc_iff in E. split_and!; try done.
    by rewrite <- E; f_equal; lia.
  - intros (Hp & Hw & Hy & Hi). apply utc_iff in Hp. rewrite Hp. destruct x. simpl in *. subst.
    f_equal. f_equal; lia.
Qed.

Lemma posix_to_tm_total t :
  MIN_POSIX_TIME <= t <= MAX_POSIX_TIME -> exists x, OPENSSL_posix_to_tm t = Some x.
Proof.
  intros Ht. unfold OPENSSL_posix_to_tm, utc_from_posix_time.
  replace (is_valid_posix_time t) with true by (unfold is_valid_posix_time; lia). cbn [negb].
  destruct (Z.rem t SECS_PER_DAY <? 0); eauto.
Qed.

Lemma gmtime_adj_iff t od os t0 t' :
  OPENSSL_tm_to_posix t = Some t0 -> INT_MIN <= od <= INT_MAX -> INT64_MIN <= os <= INT64_MAX ->
  OPENSSL_gmtime_adj t od os = Some t' <-> OPENSSL_posix_to_tm (t0 + od * 86400 + os) = Some t'.
Proof.
  intros Ht Hod Hos. unfold OPENSSL_gmtime_adj. rewrite Ht. change SECS_PER_DAY with 86400.
  assert (forall n, OPENSSL_posix_to_tm n = Some t' -> MIN_POSIX_TIME <= n <= MAX_POSIX_TIME) as Hr.
  { intros n Hn%posix_to_tm_iff. destruct Hn as [Hn _]. by apply posix_time_range in Hn. }
  unfold MIN_POSIX_TIME, MAX_POSIX_TIME, INT64_MIN, INT64_MAX in *.
  destruct ((_ >? 0) && _) eqn:E1; [split; [done|intros Hn%Hr; lia]|].
  destruct ((_ <? 0) && _) eqn:E2; [split; [done|intros Hn%Hr; lia]|]. done.
Qed.

Lemma posix_time_from_utc_eq y m d h mi s :
  is_valid_date y m d = true -> is_valid_time h mi s = true ->
  posix_time_from_utc y m d h mi s = Some (civil_days y m d * 86400 + h * 3600 + mi * 60 + s).
Proof. apply posix_time_civil. Qed.

(** * Properties *)

(** [posix_time_from_utc] accepts exactly the valid dates of the years 0 to
    9999 with a time of day without leap seconds, and returns the number of
    seconds that the Gregorian calendar counts from 1970. *)
Theorem posix_time_from_utc_spec y m d h mi s :
  posix_time_from_utc y m d h mi s =
    if is_valid_date y m d && is_valid_time h mi s
    then Some (civil_days y m d * 86400 + h * 3600 + mi * 60 + s) else None.
Proof.
  destruct (is_valid_date y m d) eqn:Hd, (is_valid_time h mi s) eqn:Ht; cbn [andb];
    [by apply posix_time_civil|unfold posix_time_from_utc; by rewrite Hd, ?Ht..].
Qed.

(** [utc_from_posix_time] and [posix_time_from_utc] are inverse to each
    other: one returns the fields of a time exactly when the other returns the
    time of these fields. *)
Theorem utc_from_posix_time_inverse t y m d h mi s :
  utc_from_posix_time t = Some (y, m, d, h, mi, s) <-> posix_time_from_utc y m d h mi s = Some t.
Proof. apply utc_iff. Qed.

(** C38. The calendar: [posix_time_from_utc] accepts exactly the valid dates of
    the years 0 to 9999 with a time of day without leap seconds and returns the
    number of seconds that the Gregorian calendar counts from 1970;
    [utc_from_posix_time] gives the fields of a time exactly when they are the
    fields of that time. *)
Theorem posix_time_calendar :
  (forall y m d h mi s,
     posix_time_from_utc y m d h mi s =
       if is_valid_date y m d && is_valid_time h mi s
       then Some (civil_days y m d * 86400 + h * 3600 + mi * 60 + s) else None) /\
  (forall t y m d h mi s,
     utc_from_posix_time t = Some (y, m, d, h, mi, s) <-> posix_time_from_utc y m d h mi s = Some t).
Proof. split; [exact posix_time_from_utc_spec|exact utc_from_posix_time_inverse]. Qed.

(** [OPENSSL_gmtime_adj] adds the two offsets to the time: it succeeds
    exactly when the sum is in the representable range - no overflow check
    rejects one that is, and no sum wraps - and the new fields are those of the
    sum. *)
Theorem OPENSSL_gmtime_adj_spec t od os t0 :
  OPENSSL_tm_to_posix t = Some t0 -> INT_MIN <= od <= INT_MAX -> INT64_MIN <= os <= INT64_MAX ->
  (forall t', OPENSSL_gmtime_adj t od os = Some t' ->
    OPENSSL_tm_to_posix t' = Some (t0 + od * 86400 + os)) /\
  ((exists t', OPENSSL_gmtime_adj t od os = Some t') <->
    MIN_POSIX_TIME <= t0 + od * 86400 + os <= MAX_POSIX_TIME).
Proof.
  intros Ht Hod Hos. split; [|split].
  - intros t' Ha. apply (gmtime_adj_iff t od os t0 t' Ht Hod Hos) in Ha. by apply posix_to_tm_iff in Ha as [? _].
  - intros [t' Ha]. apply (gmtime_adj_iff t od os t0 t' Ht Hod Hos) in Ha.
    apply posix_to_tm_iff in Ha as [Ha _]. by apply posix_time_range in Ha.
  - intros Hr. destruct (posix_to_tm_total _ Hr) as [t' Ht']. exists t'.
    by apply (gmtime_adj_iff t od os t0 t' Ht Hod Hos).
Qed.

Lemma OPENSSL_gmtime_adj_spec_witness :
  OPENSSL_tm_to_posix (Tm 70 0 1 0 0 0 4 0 0) = Some 0 /\
  exists t', OPENSSL_gmtime_adj (Tm 70 0 1 0 0 0 4 0 0) (-1) 5 = Some t'.
Proof.
  split; [vm_compute; reflexivity|].
  refine (proj2 (proj2 (OPENSSL_gmtime_adj_spec (Tm 70 0 1 0 0 0 4 0 0) (-1) 5 0 _ _ _)) _).
  - vm_compute. reflexivity.
  - unfold INT_MIN, INT_MAX. lia.
  - unfold INT64_MIN, INT64_MAX. lia.
  - unfold MIN_POSIX_TIME, MAX_POSIX_TIME. lia.
Defined.

(** [OPENSSL_gmtime_diff] splits the difference of two times in days and
    seconds of the same sign, and the days fit in an [int]. *)
Theorem OPENSSL_gmtime_diff_spec from to t0 t1 :
  OPENSSL_tm_to_posix from = Some t0 -> OPENSSL_tm_to_posix to = Some t1 ->
  exists days secs, OPENSSL_gmtime_diff from to = Some (days, secs) /\
    t1 - t0 = days * 86400 + secs /\ Z.abs secs < 86400 /\ 0 <= days * secs /\ INT_MIN <= days <= INT_MAX.
Proof.
  intros H0 H1. unfold OPENSSL_gmtime_diff. rewrite H0, H1. change SECS_PER_DAY with 86400.
  apply posix_time_range in H0, H1. unfold MIN_POSIX_TIME, MAX_POSIX_TIME, INT_MIN, INT_MAX in *.
  eexists _, _. split; [done|]. pose proof (Z.quot_rem (t1 - t0) 86400 ltac:(lia)).
  split_and!; [lia|dlia| |dlia..].
  destruct (Z.le_ge_cases 0 (t1 - t0)).
  - pose proof (Z.rem_bound_pos (t1 - t0) 86400). pose proof (Z.quot_pos (t1 - t0) 86400). nia.
  - assert (Z.rem (t1 - t0) 86400 <= 0) by dlia. assert (Z.quot (t1 - t0) 86400 <= 0) by dlia. nia.
Qed.

Lemma OPENSSL_gmtime_diff_spec_witness :
  exists days secs,
    OPENSSL_gmtime_diff (Tm 70 0 1 0 0 1 0 0 0) (Tm 69 11 30 0 0 0 0 0 0) = Some (days, secs) /\
    -172800 - 1 = days * 86400 + secs /\ Z.abs secs < 86400 /\ 0 <= days * secs /\ INT_MIN <= days <= INT_MAX.
Proof. apply OPENSSL_gmtime_diff_spec; vm_compute; reflexivity. Defined.
