(* ===== verification/CbsTime.v ===== *)
(** The time readers of [crypto/bytestring/cbs.c]: GeneralizedTime and UTCTime as
    RFC 5280 has them, with the time zone offsets that the code tolerates on
    request. *)
From S2P Require Import Prelude Mem Cbs PosixTime.

Definition cbs_get_two_digits : ST bytes Z :=
  first_digit <-- CBS_get_u8 ;;
  st_guard (OPENSSL_isdigit first_digit) ;;;
  second_digit <-- CBS_get_u8 ;;
  st_guard (OPENSSL_isdigit second_digit) ;;;
  st_ret ((first_digit - 48) * 10 + (second_digit - 48)).

Definition is_valid_day (year month day : Z) : bool :=
  if day <? 1 then false
  else if (month =? 1) || (month =? 3) || (month =? 5) || (month =? 7) || (month =? 8)
          || (month =? 10) || (month =? 12)
  then day <=? 31
  else if (month =? 4) || (month =? 6) || (month =? 9) || (month =? 11)
  then day <=? 30
  else if month =? 2
  then if is_leap year then day <=? 29 else day <=? 28
  else false.

Definition parse_year (is_gentime : bool) : ST bytes Z :=
  if is_gentime then
    century <-- cbs_get_two_digits ;;
    tmp <-- cbs_get_two_digits ;;
    st_ret (century * 100 + tmp)
  else
    tmp <-- cbs_get_two_digits ;;
    let year := 1900 + tmp in
    let year := if year <? 1950 then year + 100 else year in
    st_guard (negb (year >=? 2050)) ;;;
    st_ret year.

(** [offset_sign]: ['Z'], ['+'] or ['-']. *)
Definition parse_tz (tz : Z) : ST bytes Z :=
  if tz =? 90 then st_ret 0
  else if tz =? 43 then st_ret 1
  else if tz =? 45 then st_ret (-1)
  else st_fail.

Definition parse_offset (offset_sign : Z) (allow_timezone_offset : bool) : ST bytes Z :=
  if negb (offset_sign =? 0) then
    st_guard allow_timezone_offset ;;;
    offset_hours <-- cbs_get_two_digits ;;
    st_guard (negb (offset_hours >? 23)) ;;;
    offset_minutes <-- cbs_get_two_digits ;;
    st_guard (negb (offset_minutes >? 59)) ;;;
    st_ret (offset_sign * (offset_hours * 3600 + offset_minutes * 60))
  else st_ret 0.

(** The fields and [offset_seconds], before [out_tm] is touched. *)
Definition parse_time_fields (is_gentime allow_timezone_offset : bool) :
    ST bytes (Z * Z * Z * Z * Z * Z * Z) :=
  year <-- parse_year is_gentime ;;
  month <-- cbs_get_two_digits ;;
  st_guard (negb ((month <? 1) || (month >? 12))) ;;;
  day <-- cbs_get_two_digits ;;
  st_guard (is_valid_day year month day) ;;;
  hour <-- cbs_get_two_digits ;;
  st_guard (negb (hour >? 23)) ;;;
  min <-- cbs_get_two_digits ;;
  st_guard (negb (min >? 59)) ;;;
  sec <-- cbs_get_two_digits ;;
  st_guard (negb (sec >? 59)) ;;;
  tz <-- CBS_get_u8 ;;
  offset_sign <-- parse_tz tz ;;
  offset_seconds <-- parse_offset offset_sign allow_timezone_offset ;;
  (fun copy => st_guard (Zlen copy =? 0) copy) ;;;
  st_ret (year, month, day, hour, min, sec, offset_seconds).

(** [None] for [out_tm] is NULL.  The result is the return value and [*out_tm]
    afterwards: the code assigns six of its fields, before the offset is added. *)
Definition CBS_parse_rfc5280_time_internal (cbs : bytes) (is_gentime allow_timezone_offset : bool)
    (out_tm : option tm) : bool * option tm :=
  match parse_time_fields is_gentime allow_timezone_offset cbs with
  | (None, _) => (false, out_tm)
  | (Some (year, month, day, hour, min, sec, offset_seconds), _) =>
      match out_tm with
      | None => (true, None)
      | Some t =>
          let t := Tm (year - 1900) (month - 1) day hour min sec (tm_wday t) (tm_yday t) (tm_isdst t) in
          if negb (offset_seconds =? 0) then
            match OPENSSL_gmtime_adj t 0 offset_seconds with
            | None => (false, Some t)
            | Some t => (true, Some t)
            end
          else (true, Some t)
      end
  end.

Definition CBS_parse_generalized_time (cbs : bytes) (out_tm : option tm) (allow_timezone_offset : bool) :
    bool * option tm :=
  CBS_parse_rfc5280_time_internal cbs true allow_timezone_offset out_tm.

Definition CBS_parse_utc_time (cbs : bytes) (out_tm : option tm) (allow_timezone_offset : bool) :
    bool * option tm :=
  CBS_parse_rfc5280_time_internal cbs false allow_timezone_offset out_tm.

(** * The text of a time *)

Definition two_digits (n : Z) : bytes := [48 + n / 10; 48 + n mod 10].

Definition year_text (is_gentime : bool) (year : Z) : bytes :=
  if is_gentime then two_digits (year / 100) ++ two_digits (year mod 100) else two_digits (year mod 100).

(** The zone: [None] for ["Z"], or a sign, hours and minutes. *)
Definition zone_text (zone : option (bool * Z * Z)) : bytes :=
  match zone with
  | None => [90]
  | Some (neg, h, m) => (if neg then 45 else 43) :: two_digits h ++ two_digits m
  end.

Definition zone_ok (allow : bool) (zone : option (bool * Z * Z)) : Prop :=
  match zone with
  | None => True
  | Some (_, h, m) => allow = true /\ 0 <= h <= 23 /\ 0 <= m <= 59
  end.

Definition zone_seconds (zone : option (bool * Z * Z)) : Z :=
  match zone with
  | None => 0
  | Some (neg, h, m) => (if neg then -1 else 1) * (h * 3600 + m * 60)
  end.

Definition year_ok (is_gentime : bool) (year : Z) : Prop :=
  if is_gentime then 0 <= year <= 9999 else 1950 <= year <= 2049.

Definition time_text (is_gentime : bool) (y m d h mi s : Z) (zone : option (bool * Z * Z)) : bytes :=
  year_text is_gentime y ++ two_digits m ++ two_digits d ++ two_digits h ++ two_digits mi ++
  two_digits s ++ zone_text zone.

(** * Lemmas *)

Lemma two_digits_iff s n rest :
  cbs_get_two_digits s = (Some n, rest) <-> 0 <= n <= 99 /\ s = two_digits n ++ rest.
Proof.
  unfold cbs_get_two_digits. split.
  - intros Hg. apply st_bind_inv in Hg as (a & s1 & Ha & Hg). apply CBS_get_u8_inv in Ha as ->.
    apply st_bind_inv in Hg as (u & s2 & Hd & Hg). apply st_guard_inv in Hd as [Hd ->].
    apply st_bind_inv in Hg as (b & s3 & Hb & Hg). apply CBS_get_u8_inv in Hb as ->.
    apply st_bind_inv in Hg as (u' & s4 & Hd' & Hg). apply st_guard_inv in Hd' as [Hd' ->].
    unfold st_ret in Hg. simplify_eq. apply OPENSSL_isdigit_spec in Hd, Hd'. split; [lia|].
    unfold two_digits. simpl. f_equal; [dlia|]. f_equal. dlia.
  - intros [Hn ->]. unfold two_digits. simpl app.
    pose proof (Z.div_mod n 10 ltac:(lia)). pose proof (Z.mod_pos_bound n 10 ltac:(lia)).
    rewrite (st_bind_some _ _ _ _ _ (CBS_get_u8_cons _ _)).
    rewrite (st_bind_some _ _ _ tt (48 + n mod 10 :: rest)).
    2: { unfold st_guard. replace (OPENSSL_isdigit (48 + n / 10)) with true; [done|].
         symmetry. apply OPENSSL_isdigit_spec. dlia. }
    rewrite (st_bind_some _ _ _ _ _ (CBS_get_u8_cons _ _)).
    rewrite (st_bind_some _ _ _ tt rest).
    2: { unfold st_guard. replace (OPENSSL_isdigit (48 + n mod 10)) with true; [done|].
         symmetry. apply OPENSSL_isdigit_spec. lia. }
    unfold st_ret. do 2 f_equal. lia.
Qed.

Lemma parse_year_iff g s y rest :
  parse_year g s = (Some y, rest) <-> year_ok g y /\ s = year_text g y ++ rest.
Proof.
  unfold parse_year, year_ok, year_text. destruct g.
  - split.
    + intros (a & s1 & Ha & Hg)%st_bind_inv. apply st_bind_inv in Hg as (b & s2 & Hb & Hg).
      apply two_digits_iff in Ha as [Ha ->]. apply two_digits_iff in Hb as [Hb ->].
      unfold st_ret in Hg. simplify_eq. split; [lia|].
      replace ((a * 100 + b) / 100) with a by dlia. replace ((a * 100 + b) mod 100) with b by dlia.
      by rewrite <- app_assoc.
    + intros [Hy ->]. rewrite <- app_assoc.
      rewrite (st_bind_some _ _ _ (y / 100) (two_digits (y mod 100) ++ rest))
        by (apply two_digits_iff; split; [dlia|done]).
      rewrite (st_bind_some _ _ _ (y mod 100) rest) by (apply two_digits_iff; split; [dlia|done]).
      unfold st_ret. do 2 f_equal. dlia.
  - split.
    + intros (a & s1 & Ha & Hg)%st_bind_inv. apply two_digits_iff in Ha as [Ha ->].
      cbv zeta in Hg. apply st_bind_inv in Hg as (u & s2 & Hc & Hg). apply st_guard_inv in Hc as [Hc ->].
      unfold st_ret in Hg. simplify_eq. destruct (Z.ltb_spec (1900 + a) 1950).
      * split; [lia|]. do 2 f_equal. dlia.
      * split; [lia|]. do 2 f_equal. dlia.
    + intros [Hy ->]. rewrite (st_bind_some _ _ _ (y mod 100) rest) by (apply two_digits_iff; split; [dlia|done]).
      cbv zeta. assert ((if 1900 + y mod 100 <? 1950 then 1900 + y mod 100 + 100 else 1900 + y mod 100) = y) as ->.
      { destruct (Z.ltb_spec (1900 + y mod 100) 1950); dlia. }
      destruct (y >=? 2050) eqn:E; [lia|]. done.
Qed.

(** One field of two digits with its check. *)
Lemma field_iff {A} (P : Z -> bool) (k : Z -> ST bytes A) s r rest :
  (n <-- cbs_get_two_digits ;; st_guard (P n) ;;; k n) s = (Some r, rest) <->
  exists n s1, 0 <= n <= 99 /\ s = two_digits n ++ s1 /\ P n = true /\ k n s1 = (Some r, rest).
Proof.
  rewrite st_bind_iff. split.
  - intros (n & s1 & Hn & Hk). apply two_digits_iff in Hn as [Hn ->].
    apply st_bind_inv in Hk as (u & s2 & Hg & Hk). apply st_guard_inv in Hg as [Hg ->].
    by exists n, s1.
  - intros (n & s1 & Hn & -> & HP & Hk). exists n, s1. split; [by apply two_digits_iff|].
    rewrite st_bind_iff. exists tt, s1. split; [by apply st_guard_iff|done].
Qed.

Lemma sign_nonzero (neg : bool) : negb ((if neg then -1 else 1) =? 0) = true.
Proof. by destruct neg. Qed.

Lemma parse_zone_iff allow s off rest :
  (tz <-- CBS_get_u8 ;; offset_sign <-- parse_tz tz ;; parse_offset offset_sign allow) s = (Some off, rest) <->
  exists zone, zone_ok allow zone /\ s = zone_text zone ++ rest /\ off = zone_seconds zone.
Proof.
  split.
  - intros (tz & s1 & Htz & Hg)%st_bind_inv. apply CBS_get_u8_inv in Htz as ->.
    apply st_bind_inv in Hg as (sg & s2 & Hsg & Hg). unfold parse_tz in Hsg.
    destruct (Z.eqb_spec tz 90) as [->|_].
    { unfold st_ret in Hsg. simplify_eq. unfold parse_offset, st_ret in Hg. simpl in Hg. simplify_eq.
      by exists None. }
    assert (exists neg, tz = (if neg : bool then 45 else 43) /\ sg = (if neg then -1 else 1) /\ s2 = s1)
      as (neg & -> & -> & ->).
    { destruct (Z.eqb_spec tz 43) as [->|_]; [exists false; unfold st_ret in Hsg; by simplify_eq|].
      destruct (Z.eqb_spec tz 45) as [->|_]; [|done]. exists true. unfold st_ret in Hsg. by simplify_eq. }
    unfold parse_offset in Hg. rewrite (sign_nonzero neg) in Hg.
    apply st_bind_inv in Hg as (u & s3 & Ha & Hg). apply st_guard_inv in Ha as [Ha ->].
    apply field_iff in Hg as (h & s4 & Hh & -> & Hh' & Hg).
    apply field_iff in Hg as (m & s5 & Hm & -> & Hm' & Hg). unfold st_ret in Hg. simplify_eq.
    exists (Some (neg, h, m)). cbn [zone_ok zone_text zone_seconds app]. rewrite <- app_assoc.
    split_and!; [done|lia..|done|done].
  - intros (zone & Hz & -> & ->). destruct zone as [[[neg h] m]|].
    2: { cbn [zone_text app]. by rewrite (st_bind_some _ _ _ _ _ (CBS_get_u8_cons _ _)). }
    destruct Hz as (-> & Hh & Hm). cbn [zone_text app zone_seconds].
    rewrite (st_bind_some _ _ _ _ _ (CBS_get_u8_cons _ _)).
    rewrite (st_bind_some _ _ _ (if neg then -1 else 1) ((two_digits h ++ two_digits m) ++ rest)) by by destruct neg.
    unfold parse_offset. rewrite (sign_nonzero neg).
    rewrite (st_bind_some _ _ _ tt ((two_digits h ++ two_digits m) ++ rest)) by done.
    rewrite <- app_assoc. apply field_iff. exists h, (two_digits m ++ rest). split_and!; [lia..|done|lia|].
    apply field_iff. exists m, rest. split_and!; [lia..|done|lia|done].
Qed.

Lemma is_valid_day_iff y m d :
  0 <= y <= 9999 -> is_valid_day y m d = is_valid_date y m d.
Proof.
  intros Hy. unfold is_valid_day, is_valid_date.
  destruct (Z.ltb_spec d 1); [done|]. cbn [orb].
  destruct (Z.ltb_spec m 1); cbn [orb].
  - repeat match goal with |- context [m =? ?k] => destruct (Z.eqb_spec m k); [lia|] end. done.
  - destruct (Z.ltb_spec y 0); [lia|]. destruct (y >? 9999) eqn:E; [lia|]. cbn [orb].
    replace (d >? 0) with true by lia. done.
Qed.

Lemma st_bind_assoc3 {S A B C D} (m : ST S A) (k : A -> ST S B) (l : B -> ST S C) (f : C -> ST S D) s :
  st_bind (st_bind m (fun a => st_bind (k a) l)) f s =
  st_bind m (fun a => st_bind (k a) (fun b => st_bind (l b) f)) s.
Proof.
  unfold st_bind. destruct (m s) as [[a|] s1]; [|done]. destruct (k a s1) as [[b|] s2]; [|done].
  by destruct (l b s2) as [[c|] s3].
Qed.

Lemma fields_iff g allow s y m d h mi sec off rest :
  parse_time_fields g allow s = (Some (y, m, d, h, mi, sec, off), rest) <->
  rest = [] /\ year_ok g y /\ is_valid_date y m d = true /\ is_valid_time h mi sec = true /\
  exists zone, zone_ok allow zone /\ s = time_text g y m d h mi sec zone /\ off = zone_seconds zone.
Proof.
  assert (forall y, year_ok g y -> 0 <= y <= 9999) as Hyr by (unfold year_ok; destruct g; lia).
  unfold parse_time_fields, time_text. split.
  - intros (y' & s0 & Hy & Hg)%st_bind_inv. apply parse_year_iff in Hy as [Hy ->].
    apply field_iff in Hg as (m' & s1 & Hm & -> & Hm' & Hg).
    apply field_iff in Hg as (d' & s2 & Hd & -> & Hd' & Hg).
    apply field_iff in Hg as (h' & s3 & Hh & -> & Hh' & Hg).
    apply field_iff in Hg as (mi' & s4 & Hmi & -> & Hmi' & Hg).
    apply field_iff in Hg as (sec' & s5 & Hs & -> & Hs' & Hg).
    rewrite <- st_bind_assoc3 in Hg. apply st_bind_inv in Hg as (off' & s6 & Hz & Hg).
    apply parse_zone_iff in Hz as (zone & Hz & -> & ->).
    apply st_bind_inv in Hg as (u & s7 & Hn & Hg). apply st_guard_inv in Hn as [Hn ->].
    unfold st_ret in Hg. simplify_eq. apply Z.eqb_eq, Zlen_0_inv in Hn as ->.
    rewrite is_valid_day_iff in Hd' by auto. split_and!; [done|done|done|unfold is_valid_time; lia|].
    exists zone. rewrite app_nil_r. by split_and!.
  - intros (-> & Hy & Hd & Ht & zone & Hz & -> & ->). pose proof Hd as Hd'.
    apply is_valid_date_cases in Hd' as (Hy' & Hm & Hd1 & Hd2). unfold is_valid_time in Ht.
    assert (d <= 99).
    { rewrite <- (Z2Nat.id d) in Hd2 |- * by lia. clear -Hd2 Hm Hd1.
      assert (m = 1 \/ m = 2 \/ m = 3 \/ m = 4 \/ m = 5 \/ m = 6 \/ m = 7 \/ m = 8 \/ m = 9 \/ m = 10 \/
        m = 11 \/ m = 12) as Hc by lia.
      destruct (is_leap y); repeat destruct Hc as [->|Hc]; try subst m; simpl in Hd2; lia. }
    rewrite (st_bind_some _ _ _ y _) by by apply parse_year_iff.
    apply field_iff. exists m, (two_digits d ++ two_digits h ++ two_digits mi ++ two_digits sec ++ zone_text zone).
    split_and!; [lia..|done|lia|].
    apply field_iff. exists d, (two_digits h ++ two_digits mi ++ two_digits sec ++ zone_text zone).
    rewrite is_valid_day_iff by auto. split_and!; [lia..|done|done|].
    apply field_iff. exists h, (two_digits mi ++ two_digits sec ++ zone_text zone). split_and!; [lia..|done|lia|].
    apply field_iff. exists mi, (two_digits sec ++ zone_text zone). split_and!; [lia..|done|lia|].
    apply field_iff. exists sec, (zone_text zone). split_and!; [lia..|done|lia|].
    rewrite <- st_bind_assoc3. rewrite (st_bind_some _ _ _ (zone_seconds zone) []); [done|].
    apply parse_zone_iff. exists zone. by rewrite app_nil_r.
Qed.

(** The UTC of a text with [p] seconds in its own zone, as bytestring.h has it:
    a zone ahead of UTC reads later than UTC. *)
Definition utc_seconds (p : Z) (zone : option (bool * Z * Z)) : Z := p - zone_seconds zone.

Lemma plus_offset_utc (q : option Z) p zone : q = Some (p + zone_seconds zone) ->
  q = Some (p + zone_seconds zone) /\ (q = Some (utc_seconds p zone) <-> zone_seconds zone = 0).
Proof.
  intros ->. split; [done|]. unfold utc_seconds. split; [intros [= ?]; lia|intros; f_equal; lia].
Qed.

(** C39. The RFC 5280 time readers accept exactly the fixed-width texts of valid
    times - a four-digit year, or two digits for 1950 to 2049 - that end in "Z"
    or, when allowed, in a sign and an offset of less than a day.  The result is
    the time of the text plus the signed offset, which is the time in UTC that
    bytestring.h promises ([utc_seconds]) only when the offset is zero, as for
    "Z"; a text whose sum leaves the years 0 to 9999 is rejected. *)
Theorem CBS_parse_rfc5280_time_internal_spec s g allow t0 :
  (forall t', CBS_parse_rfc5280_time_internal s g allow (Some t0) = (true, Some t') ->
    exists y m d h mi sec zone p, year_ok g y /\ zone_ok allow zone /\
      s = time_text g y m d h mi sec zone /\ posix_time_from_utc y m d h mi sec = Some p /\
      OPENSSL_tm_to_posix t' = Some (p + zone_seconds zone) /\
      (OPENSSL_tm_to_posix t' = Some (utc_seconds p zone) <-> zone_seconds zone = 0)) /\
  (forall y m d h mi sec zone p, year_ok g y -> zone_ok allow zone ->
    s = time_text g y m d h mi sec zone -> posix_time_from_utc y m d h mi sec = Some p ->
    MIN_POSIX_TIME <= p + zone_seconds zone <= MAX_POSIX_TIME ->
    exists t', CBS_parse_rfc5280_time_internal s g allow (Some t0) = (true, Some t')).
Proof.
  assert (forall y m d h mi sec wd yd dst, OPENSSL_tm_to_posix (Tm (y - 1900) (m - 1) d h mi sec wd yd dst) =
    posix_time_from_utc y m d h mi sec) as Hp.
  { intros. unfold OPENSSL_tm_to_posix. simpl. f_equal; lia. }
  assert (forall zone, zone_ok allow zone -> -86400 <= zone_seconds zone <= 86400) as Hzs.
  { intros [[[[] h] m]|]; simpl; lia. }
  split.
  - intros t'. unfold CBS_parse_rfc5280_time_internal.
    destruct (parse_time_fields g allow s) as [[[[[[[[y m] d] h] mi] sec] off]|] rest] eqn:E; [|done].
    apply fields_iff in E as (-> & Hy & Hd & Ht & zone & Hz & -> & ->). intros Hr.
    pose proof (posix_time_from_utc_eq y m d h mi sec Hd Ht) as Hpt.
    exists y, m, d, h, mi, sec, zone. eexists. split; [done|]. split; [done|]. split; [done|]. split; [exact Hpt|].
    apply plus_offset_utc. destruct (Z.eqb_spec (zone_seconds zone) 0) as [->|Hne]; cbn [negb] in Hr.
    + injection Hr as <-. by rewrite Hp, Hpt, Z.add_0_r.
    + destruct (OPENSSL_gmtime_adj _ _ _) as [t1|] eqn:Ea; [|done]. injection Hr as <-.
      rewrite <- (Hp y m d h mi sec (tm_wday t0) (tm_yday t0) (tm_isdst t0)) in Hpt. eapply gmtime_adj_iff in Ea; [|exact Hpt|unfold INT_MIN, INT_MAX; lia|].
      * apply posix_to_tm_iff in Ea as [-> _]. f_equal. lia.
      * specialize (Hzs zone Hz). unfold INT64_MIN, INT64_MAX. lia.
  - intros y m d h mi sec zone p Hy Hz -> Hpt Hr. unfold CBS_parse_rfc5280_time_internal.
    replace (parse_time_fields g allow _) with (Some (y, m, d, h, mi, sec, zone_seconds zone), @nil Z).
    2: { symmetry. apply fields_iff. unfold posix_time_from_utc in Hpt.
         destruct (is_valid_date y m d); [|done]. destruct (is_valid_time h mi sec); [|done].
         split_and!; [done..|]. by exists zone. }
    destruct (Z.eqb_spec (zone_seconds zone) 0) as [|Hne]; cbn [negb]; [eauto|].
    destruct (posix_to_tm_total _ Hr) as [t' Ht'].
    set (t := Tm _ _ _ _ _ _ _ _ _). assert (OPENSSL_gmtime_adj t 0 (zone_seconds zone) = Some t') as ->; [|eauto].
    apply (gmtime_adj_iff t 0 (zone_seconds zone) p t').
    + unfold t. by rewrite Hp.
    + unfold INT_MIN, INT_MAX. lia.
    + specialize (Hzs zone Hz). unfold INT64_MIN, INT64_MAX. lia.
    + by rewrite Z.mul_0_l, Z.add_0_r.
Qed.

(** The offset is added whatever its sign means: noon at "+0100" is read as one
    o'clock in the afternoon. *)
Example offset_is_added :
  CBS_parse_utc_time (time_text false 2020 1 1 12 0 0 (Some (false, 1, 0))) (Some (Tm 0 0 0 0 0 0 3 7 1)) true =
    (true, Some (Tm 120 0 1 13 0 0 0 0 0)).
Proof. vm_compute. reflexivity. Qed.

Lemma CBS_parse_rfc5280_time_internal_spec_witness :
  exists t', CBS_parse_rfc5280_time_internal (time_text true 2020 2 29 23 59 59 (Some (true, 5, 30))) true true
    (Some (Tm 0 0 0 0 0 0 0 0 0)) = (true, Some t') /\ OPENSSL_tm_to_posix t' = Some 1583000999.
Proof.
  destruct (CBS_parse_rfc5280_time_internal_spec (time_text true 2020 2 29 23 59 59 (Some (true, 5, 30))) true true
    (Tm 0 0 0 0 0 0 0 0 0)) as [Hsound Hcomplete].
  destruct (Hcomplete 2020 2 29 23 59 59 (Some (true, 5, 30)) 1583020799) as [t' Ht'].
  - simpl. lia.
  - simpl. lia.
  - reflexivity.
  - vm_compute. reflexivity.
  - unfold MIN_POSIX_TIME, MAX_POSIX_TIME. simpl. lia.
  - exists t'. split; [exact Ht'|]. vm_compute in Ht'. injection Ht' as <-. vm_compute. reflexivity.
Defined.
