(* ===== verification/ConstTime.v ===== *)
(** The constant-time comparisons and selections of [crypto/internal.h] on a
    64-bit [crypto_word_t].  The value barriers only keep the compiler from
    reasoning about a value: they are the identity. *)
From S2P Require Import Prelude.

Definition word (x : Z) : Prop := 0 <= x < 2 ^ 64.
Definition CONSTTIME_TRUE_W : Z := 2 ^ 64 - 1.
Definition CONSTTIME_FALSE_W : Z := 0.
Definition CONSTTIME_TRUE_8 : Z := 0xff.
Definition CONSTTIME_FALSE_8 : Z := 0.

Definition constant_time_msb_w (a : Z) : Z := u64 (0 - Z.shiftr a 63).
Definition constant_time_lt_w (a b : Z) : Z :=
  constant_time_msb_w (Z.lxor a (Z.lor (Z.lxor a b) (Z.lxor (u64 (a - b)) a))).
Definition constant_time_lt_8 (a b : Z) : Z := u8 (constant_time_lt_w a b).
Definition constant_time_ge_w (a b : Z) : Z := u64 (Z.lnot (constant_time_lt_w a b)).
Definition constant_time_ge_8 (a b : Z) : Z := u8 (constant_time_ge_w a b).
Definition constant_time_is_zero_w (a : Z) : Z := constant_time_msb_w (Z.land (u64 (Z.lnot a)) (u64 (a - 1))).
Definition constant_time_is_zero_8 (a : Z) : Z := u8 (constant_time_is_zero_w a).
Definition constant_time_eq_w (a b : Z) : Z := constant_time_is_zero_w (Z.lxor a b).
Definition constant_time_eq_8 (a b : Z) : Z := u8 (constant_time_eq_w a b).
(** [a] and [b] are [int]s. *)
Definition constant_time_eq_int (a b : Z) : Z := constant_time_eq_w (u64 a) (u64 b).
Definition constant_time_eq_int_8 (a b : Z) : Z := constant_time_eq_8 (u64 a) (u64 b).
Definition constant_time_select_w (mask a b : Z) : Z :=
  Z.lor (Z.land mask a) (Z.land (u64 (Z.lnot mask)) b).
Definition constant_time_select_8 (mask a b : Z) : Z :=
  let m := u8 mask in Z.lor (Z.land m a) (Z.land (u8 (Z.lnot m)) b).

(** [int] of a word. *)
Definition to_int (x : Z) : Z := let y := u32 x in if y >? INT_MAX then y - 2 ^ 32 else y.
Definition constant_time_select_int (mask a b : Z) : Z :=
  to_int (constant_time_select_w mask (u64 a) (u64 b)).

Definition constant_time_conditional_memcpy (dst src : bytes) (n : nat) (mask : Z) : bytes :=
  zip_with (constant_time_select_8 mask) (take n src) (take n dst) ++ drop n dst.
Definition constant_time_conditional_memxor (dst src : bytes) (n : nat) (mask : Z) : bytes :=
  zip_with (fun s d => u8 (Z.lxor d (Z.land mask s))) (take n src) (take n dst) ++ drop n dst.

(** * Lemmas *)

Definition mask_of (b : bool) : Z := if b then CONSTTIME_TRUE_W else CONSTTIME_FALSE_W.

Lemma testbit_63 a : word a -> Z.testbit a 63 = (2 ^ 63 <=? a).
Proof.
  unfold word. intros Ha. rewrite Z.testbit_eqb by lia.
  destruct (Z.leb_spec (2 ^ 63) a).
  - replace (a / 2 ^ 63) with 1; [done|]. apply (Z.div_unique a (2 ^ 63) 1 (a - 2 ^ 63)); lia.
  - by rewrite Z.div_small by lia.
Qed.

Lemma u64_word x : word (u64 x).
Proof. unfold word, u64. apply Z.mod_pos_bound. lia. Qed.

Lemma msb_w a : word a -> constant_time_msb_w a = mask_of (Z.testbit a 63).
Proof.
  intros Ha. rewrite testbit_63 by done. unfold constant_time_msb_w, mask_of, word in *.
  rewrite Z.shiftr_div_pow2 by lia. destruct (Z.leb_spec (2 ^ 63) a).
  - replace (a / 2 ^ 63) with 1; [done|]. apply (Z.div_unique a (2 ^ 63) 1 (a - 2 ^ 63)); lia.
  - by rewrite Z.div_small by lia.
Qed.

Lemma word_high a i : word a -> 64 <= i -> Z.testbit a i = false.
Proof.
  intros Ha Hi. unfold word in Ha. rewrite <- (Z.mod_small a (2 ^ 64)) by done.
  apply Z.mod_pow2_bits_high. lia.
Qed.

Lemma word_bits a : 0 <= a -> (forall i, 64 <= i -> Z.testbit a i = false) -> word a.
Proof.
  intros H0 Hb. split; [done|]. destruct (decide (a < 2 ^ 64)) as [|Hge]; [done|].
  assert (64 <= Z.log2 a) by (apply Z.log2_le_pow2; lia).
  specialize (Hb (Z.log2 a) ltac:(done)). rewrite Z.bit_log2 in Hb by lia. done.
Qed.

Lemma lxor_word a b : word a -> word b -> word (Z.lxor a b).
Proof.
  intros Ha Hb. apply word_bits; [apply Z.lxor_nonneg; unfold word in *; lia|].
  intros i Hi. by rewrite Z.lxor_spec, !word_high.
Qed.
Lemma lor_word a b : word a -> word b -> word (Z.lor a b).
Proof.
  intros Ha Hb. apply word_bits; [apply Z.lor_nonneg; unfold word in *; lia|].
  intros i Hi. by rewrite Z.lor_spec, !word_high.
Qed.
Lemma land_word a b : word a -> word b -> word (Z.land a b).
Proof.
  intros Ha Hb. apply word_bits; [apply Z.land_nonneg; unfold word in *; lia|].
  intros i Hi. by rewrite Z.land_spec, !word_high.
Qed.

Create HintDb word.
#[export] Hint Resolve lxor_word lor_word land_word u64_word : word.

Lemma u64_sub a b : word a -> word b -> u64 (a - b) = if b <=? a then a - b else a - b + 2 ^ 64.
Proof.
  unfold word, u64. intros. destruct (Z.leb_spec b a); [by rewrite Z.mod_small by lia|].
  rewrite <- (Z.mod_add _ 1), Z.mod_small by lia. lia.
Qed.

Lemma lt_w a b : word a -> word b -> constant_time_lt_w a b = mask_of (a <? b).
Proof.
  intros Ha Hb. unfold constant_time_lt_w. rewrite msb_w by auto 6 with word. f_equal.
  rewrite Z.lxor_spec, Z.lor_spec, !Z.lxor_spec.
  rewrite (testbit_63 a), (testbit_63 b), (testbit_63 (u64 _)) by auto with word.
  rewrite u64_sub by done. unfold word in *.
  destruct (Z.leb_spec (2 ^ 63) a), (Z.leb_spec (2 ^ 63) b), (Z.leb_spec b a);
    (match goal with |- context [2 ^ 63 <=? ?x] => destruct (Z.leb_spec (2 ^ 63) x) end);
    simpl; lia.
Qed.

Lemma lnot_u64 a : word a -> u64 (Z.lnot a) = 2 ^ 64 - 1 - a.
Proof.
  unfold word, u64, Z.lnot. intros. rewrite <- (Z.mod_add _ 1), Z.mod_small by lia. lia.
Qed.

Lemma is_zero_w a : word a -> constant_time_is_zero_w a = mask_of (a =? 0).
Proof.
  intros Ha. unfold constant_time_is_zero_w. rewrite msb_w by auto with word. f_equal.
  rewrite Z.land_spec, !testbit_63 by auto with word. rewrite lnot_u64 by done.
  rewrite (u64_sub a 1) by (done || (unfold word; lia)). unfold word in *.
  destruct (Z.leb_spec 1 a);
    repeat match goal with |- context [2 ^ 63 <=? ?x] => destruct (Z.leb_spec (2 ^ 63) x) end;
    simpl; lia.
Qed.

Lemma eq_w a b : word a -> word b -> constant_time_eq_w a b = mask_of (a =? b).
Proof.
  intros Ha Hb. unfold constant_time_eq_w. rewrite is_zero_w by auto with word. f_equal.
  destruct (Z.eqb_spec a b) as [->|Hne]; [by rewrite Z.lxor_nilpotent|].
  destruct (Z.eqb_spec (Z.lxor a b) 0) as [E|]; [|done]. rewrite Z.lxor_eq_0_iff in E. done.
Qed.

Lemma land_ones_word a : word a -> Z.land CONSTTIME_TRUE_W a = a.
Proof.
  intros Ha. rewrite Z.land_comm. unfold CONSTTIME_TRUE_W. rewrite land_mask by lia.
  apply Z.mod_small, Ha.
Qed.

Lemma select_w c a b : word a -> word b -> constant_time_select_w (mask_of c) a b = if c then a else b.
Proof.
  intros Ha Hb. unfold constant_time_select_w, mask_of. destruct c.
  - change (u64 (Z.lnot CONSTTIME_TRUE_W)) with 0. rewrite land_ones_word by done.
    by rewrite Z.land_0_l, Z.lor_0_r.
  - change (u64 (Z.lnot CONSTTIME_FALSE_W)) with CONSTTIME_TRUE_W. rewrite land_ones_word by done.
    by rewrite Z.land_0_l.
Qed.

Lemma land_ff a : is_byte a -> Z.land 0xff a = a.
Proof.
  intros Ha. rewrite Z.land_comm. change 0xff with (2 ^ 8 - 1). rewrite land_mask by lia.
  apply Z.mod_small, Ha.
Qed.

Lemma select_8 c a b : is_byte a -> is_byte b -> constant_time_select_8 (mask_of c) a b = if c then a else b.
Proof.
  intros Ha Hb. unfold constant_time_select_8, mask_of. destruct c; cbv zeta.
  - change (u8 CONSTTIME_TRUE_W) with 0xff. change (u8 (Z.lnot 0xff)) with 0.
    by rewrite land_ff, Z.land_0_l, Z.lor_0_r.
  - change (u8 CONSTTIME_FALSE_W) with 0. change (u8 (Z.lnot 0)) with 0xff.
    by rewrite land_ff, Z.land_0_l.
Qed.

Lemma byte_word a : is_byte a -> word a.
Proof. unfold is_byte, word. lia. Qed.
#[export] Hint Resolve byte_word : word.

Lemma memcpy_mask (l k : bytes) c :
  bytes_ok l -> bytes_ok k -> length l = length k ->
  zip_with (constant_time_select_8 (mask_of c)) l k = if c then l else k.
Proof.
  revert k. induction l as [|x l IH]; intros [|y k] Hl Hk Hlen; try done; [by destruct c|].
  simp_bytes. cbn [zip_with]. rewrite select_8, IH by (done || (simpl in Hlen; lia)). by destruct c.
Qed.

(** The constant-time comparisons return the all-ones mask exactly when the
    relation holds on the unsigned words and zero otherwise, for every pair of
    64-bit words. *)
Theorem constant_time_comparisons a b :
  word a -> word b ->
  constant_time_lt_w a b = mask_of (a <? b) /\
  constant_time_ge_w a b = mask_of (b <=? a) /\
  constant_time_eq_w a b = mask_of (a =? b) /\
  constant_time_is_zero_w a = mask_of (a =? 0).
Proof.
  intros Ha Hb. split_and!; [by apply lt_w| |by apply eq_w|by apply is_zero_w].
  unfold constant_time_ge_w. rewrite lt_w by done.
  destruct (Z.ltb_spec a b), (Z.leb_spec b a); try lia; done.
Qed.

Lemma constant_time_comparisons_witness :
  constant_time_lt_w 3 (2 ^ 63 + 3) = CONSTTIME_TRUE_W /\ constant_time_lt_w 3 (2 ^ 63 + 3) = mask_of (3 <? 2 ^ 63 + 3).
Proof.
  split; [vm_compute; reflexivity|].
  refine (proj1 (constant_time_comparisons 3 (2 ^ 63 + 3) _ _)); unfold word; lia.
Defined.

(** With a mask of a comparison, the selections return one of their
    arguments and [constant_time_conditional_memcpy] copies all of the bytes or
    none. *)
Theorem constant_time_selections (c : bool) a b (dst src : bytes) n :
  word a -> word b -> bytes_ok dst -> bytes_ok src -> (n <= length dst)%nat -> (n <= length src)%nat ->
  constant_time_select_w (mask_of c) a b = (if c then a else b) /\
  constant_time_conditional_memcpy dst src n (mask_of c) = (if c then take n src ++ drop n dst else dst).
Proof.
  intros Ha Hb Hd Hs Hn1 Hn2. split; [by apply select_w|].
  unfold constant_time_conditional_memcpy. rewrite memcpy_mask;
    [|auto with bytes..|rewrite !length_take; lia].
  destruct c; [done|apply take_drop].
Qed.

Lemma constant_time_selections_witness :
  constant_time_select_w (mask_of true) 5 6 = 5 /\
  constant_time_conditional_memcpy [1; 2; 3] [7; 8] 2 (mask_of true) = [7; 8; 3].
Proof.
  refine (constant_time_selections true 5 6 [1; 2; 3] [7; 8] 2 _ _ _ _ _ _);
    try (unfold word; lia); try (repeat constructor; unfold is_byte; lia); simpl; lia.
Defined.
