(* ===== verification/Base64.v ===== *)
(** The base64 codec of [crypto/base64/base64.c]: the block functions, the
    streaming encoder and decoder with their [EVP_ENCODE_CTX], and the
    specification they are proved against (RFC 4648). *)
From S2P Require Import Prelude ConstTime.

(** * Characters *)

Definition constant_time_lt_args_8 (a b : Z) : Z := u8 (constant_time_msb_w (u64 (a - b))).
Definition constant_time_in_range_8 (a min max : Z) : Z :=
  let a := u8 (a - min) in constant_time_lt_args_8 a (u8 (max - min + 1)).

Definition conv_bin2ascii (a : Z) : Z :=
  let a := Z.land a 0x3f in
  let ret := constant_time_select_8 (constant_time_eq_8 a 62) 43 47 in
  let ret := constant_time_select_8 (constant_time_lt_args_8 a 62) (u8 (a - 52 + 48)) ret in
  let ret := constant_time_select_8 (constant_time_lt_args_8 a 52) (u8 (a - 26 + 97)) ret in
  constant_time_select_8 (constant_time_lt_args_8 a 26) (u8 (a + 65)) ret.

Definition base64_ascii_to_bin (a : Z) : Z :=
  let is_upper := constant_time_in_range_8 a 65 90 in
  let is_lower := constant_time_in_range_8 a 97 122 in
  let is_digit := constant_time_in_range_8 a 48 57 in
  let is_plus := constant_time_eq_8 a 43 in
  let is_slash := constant_time_eq_8 a 47 in
  let is_equals := constant_time_eq_8 a 61 in
  let ret := 0 in
  let ret := Z.lor ret (u8 (Z.land is_upper (a - 65))) in
  let ret := Z.lor ret (u8 (Z.land is_lower (a - 97 + 26))) in
  let ret := Z.lor ret (u8 (Z.land is_digit (a - 48 + 52))) in
  let ret := Z.lor ret (Z.land is_plus 62) in
  let ret := Z.lor ret (Z.land is_slash 63) in
  let is_valid := Z.lor (Z.lor (Z.lor (Z.lor (Z.lor is_upper is_lower) is_digit) is_plus) is_slash) is_equals in
  Z.lor ret (u8 (Z.lnot is_valid)).

(** * Encoding *)

Definition EVP_EncodedLength (len : Z) : option Z :=
  if u64 (len + 2) <? len then None
  else
    let len := u64 (len + 2) / 3 in
    if negb (Z.shiftr (u64 (Z.shiftl len 2)) 2 =? len) then None
    else
      let len := u64 (Z.shiftl len 2) in
      if u64 (len + 1) <? len then None else Some (u64 (len + 1)).

(** The characters [EVP_EncodeBlock] writes before its NUL; it returns their
    number. *)
Fixpoint EVP_EncodeBlock (src : bytes) : bytes :=
  match src with
  | s0 :: s1 :: s2 :: src =>
      let l := Z.lor (Z.lor (Z.shiftl s0 16) (Z.shiftl s1 8)) s2 in
      conv_bin2ascii (u8 (Z.shiftr l 18)) :: conv_bin2ascii (u8 (Z.shiftr l 12))
        :: conv_bin2ascii (u8 (Z.shiftr l 6)) :: conv_bin2ascii (u8 l) :: EVP_EncodeBlock src
  | [s0; s1] =>
      let l := Z.lor (Z.shiftl s0 16) (Z.shiftl s1 8) in
      [conv_bin2ascii (u8 (Z.shiftr l 18)); conv_bin2ascii (u8 (Z.shiftr l 12));
       conv_bin2ascii (u8 (Z.shiftr l 6)); 61]
  | [s0] =>
      let l := Z.shiftl s0 16 in
      [conv_bin2ascii (u8 (Z.shiftr l 18)); conv_bin2ascii (u8 (Z.shiftr l 12)); 61; 61]
  | [] => []
  end.

(** [data] has 48 bytes. *)
Record evp_encode_ctx_st := EncodeCtx {
  data_used : nat;
  data : bytes;
  eof_seen : bool;
  error_encountered : bool;
}.

Definition data_size : nat := 48.

(** [EVP_EncodeInit] and [EVP_DecodeInit] clear the context. *)
Definition EVP_EncodeInit : evp_encode_ctx_st := EncodeCtx 0 (replicate data_size 0) false false.
Definition EVP_DecodeInit : evp_encode_ctx_st := EncodeCtx 0 (replicate data_size 0) false false.

(** [memcpy(&ctx->data[off], in, n)]. *)
Definition ctx_copy (off : nat) (in_ : bytes) (ctx : evp_encode_ctx_st) : bytes :=
  take off (data ctx) ++ in_ ++ drop (off + length in_) (data ctx).

(** The [while] loop: the text written, and [total] or [None] when its sum
    overflows; the NUL at the end of the text is not kept. *)
Fixpoint encode_lines (fuel : nat) (in_ : bytes) (total : Z) : bytes * option Z * bytes :=
  match fuel with
  | O => ([], Some total, in_)
  | S fuel =>
      if Nat.leb data_size (length in_) then
        let encoded := EVP_EncodeBlock (take data_size in_) in
        let n := Zlen encoded in
        if u64 (u64 (total + n) + 1) <? total then (encoded ++ [10], None, drop data_size in_)
        else
          let '(out, total, rest) := encode_lines fuel (drop data_size in_) (u64 (u64 (total + n) + 1)) in
          (encoded ++ 10 :: out, total, rest)
      else ([], Some total, in_)
  end.

(** The text written to [out], [*out_len], and the context. *)
Definition EVP_EncodeUpdate (ctx : evp_encode_ctx_st) (in_ : bytes) : bytes * Z * evp_encode_ctx_st :=
  if Nat.eqb (length in_) 0 then ([], 0, ctx)
  else if Nat.ltb (length in_) (data_size - data_used ctx) then
    ([], 0, EncodeCtx (data_used ctx + length in_) (ctx_copy (data_used ctx) in_ ctx)
              (eof_seen ctx) (error_encountered ctx))
  else
    let '(out0, total, in_, ctx) :=
      if negb (Nat.eqb (data_used ctx) 0) then
        let todo := (data_size - data_used ctx)%nat in
        let ctx := EncodeCtx 0 (ctx_copy (data_used ctx) (take todo in_) ctx)
                     (eof_seen ctx) (error_encountered ctx) in
        let encoded := EVP_EncodeBlock (data ctx) in
        (encoded ++ [10], Zlen encoded + 1, drop todo in_, ctx)
      else ([], 0, in_, ctx) in
    let '(out1, total, in_) := encode_lines (length in_) in_ total in
    match total with
    | None => (out0 ++ out1, 0, ctx)
    | Some total =>
        let data := if negb (Nat.eqb (length in_) 0) then ctx_copy 0 in_ ctx else data ctx in
        (out0 ++ out1, if total >? INT_MAX then 0 else total,
         EncodeCtx (length in_) data (eof_seen ctx) (error_encountered ctx))
    end.

Definition EVP_EncodeFinal (ctx : evp_encode_ctx_st) : bytes * Z * evp_encode_ctx_st :=
  if Nat.eqb (data_used ctx) 0 then ([], 0, ctx)
  else
    let out := EVP_EncodeBlock (take (data_used ctx) (data ctx)) ++ [10] in
    (out, Zlen out, EncodeCtx 0 (data ctx) (eof_seen ctx) (error_encountered ctx)).

(** * Decoding *)

Definition EVP_DecodedLength (len : Z) : option Z :=
  if negb (len mod 4 =? 0) then None else Some (u64 (len / 4 * 3)).

(** The bytes written for four characters. *)
Definition base64_decode_quad (i0 i1 i2 i3 : Z) : option bytes :=
  let a := base64_ascii_to_bin i0 in
  let b := base64_ascii_to_bin i1 in
  let c := base64_ascii_to_bin i2 in
  let d := base64_ascii_to_bin i3 in
  if (a =? 0xff) || (b =? 0xff) || (c =? 0xff) || (d =? 0xff) then None
  else
    let v := Z.lor (Z.lor (Z.lor (Z.shiftl a 18) (Z.shiftl b 12)) (Z.shiftl c 6)) d in
    let bit (b : bool) : Z := if b then 1 else 0 in
    let padding_pattern :=
      Z.lor (Z.lor (Z.lor (Z.shiftl (bit (i0 =? 61)) 3) (Z.shiftl (bit (i1 =? 61)) 2))
        (Z.shiftl (bit (i2 =? 61)) 1)) (bit (i3 =? 61)) in
    if padding_pattern =? 0 then Some [u8 (Z.shiftr v 16); u8 (Z.shiftr v 8); u8 v]
    else if padding_pattern =? 1 then Some [u8 (Z.shiftr v 16); u8 (Z.shiftr v 8)]
    else if padding_pattern =? 3 then Some [u8 (Z.shiftr v 16)]
    else None.

Definition is_space (c : Z) : bool := (c =? 32) || (c =? 9) || (c =? 13) || (c =? 10).

(** What the loop of [EVP_DecodeUpdate] leaves: the bytes written, the context,
    and whether it returned -1. *)
Fixpoint decode_loop (ctx : evp_encode_ctx_st) (in_ : bytes) : bytes * evp_encode_ctx_st * bool :=
  match in_ with
  | [] => ([], ctx, false)
  | c :: in_ =>
      if is_space c then decode_loop ctx in_
      else if eof_seen ctx then ([], EncodeCtx (data_used ctx) (data ctx) (eof_seen ctx) true, true)
      else
        let d := <[data_used ctx := c]> (data ctx) in
        let used := S (data_used ctx) in
        if Nat.eqb used 4 then
          match base64_decode_quad (nth 0 d 0) (nth 1 d 0) (nth 2 d 0) (nth 3 d 0) with
          | None => ([], EncodeCtx used d (eof_seen ctx) true, true)
          | Some bs =>
              let ctx := EncodeCtx 0 d (if Zlen bs <? 3 then true else eof_seen ctx) (error_encountered ctx) in
              let '(out, ctx, err) := decode_loop ctx in_ in (bs ++ out, ctx, err)
          end
        else decode_loop (EncodeCtx used d (eof_seen ctx) (error_encountered ctx)) in_
  end.

(** The bytes written to [out], [*out_len], the context and the result. *)
Definition EVP_DecodeUpdate (ctx : evp_encode_ctx_st) (in_ : bytes) : bytes * Z * evp_encode_ctx_st * Z :=
  if error_encountered ctx then ([], 0, ctx, -1)
  else
    let '(out, ctx, err) := decode_loop ctx in_ in
    if err then (out, 0, ctx, -1)
    else if Zlen out >? INT_MAX then
      (out, 0, EncodeCtx (data_used ctx) (data ctx) (eof_seen ctx) true, -1)
    else (out, Zlen out, ctx, if eof_seen ctx then 0 else 1).

Definition EVP_DecodeFinal (ctx : evp_encode_ctx_st) : Z :=
  if error_encountered ctx || negb (Nat.eqb (data_used ctx) 0) then -1 else 1.

(** The loop over the quads: a short one must be the last. *)
Fixpoint decode_quads (in_ : bytes) : option bytes :=
  match in_ with
  | i0 :: i1 :: i2 :: i3 :: rest =>
      match base64_decode_quad i0 i1 i2 i3 with
      | None => None
      | Some bs =>
          if negb (Zlen bs =? 3) && negb (Nat.eqb (length rest) 0) then None
          else app bs <$> decode_quads rest
      end
  | _ => Some []
  end.

(** The bytes written on success; [*out_len] is their number. *)
Definition EVP_DecodeBase64 (max_out : Z) (in_ : bytes) : option bytes :=
  if negb (Zlen in_ mod 4 =? 0) then None
  else
    match EVP_DecodedLength (Zlen in_) with
    | None => None
    | Some max_len => if max_out <? max_len then None else decode_quads in_
    end.

Fixpoint trim_front (src : bytes) : bytes :=
  match src with
  | c :: rest => if negb (c =? 32) && negb (c =? 9) then src else trim_front rest
  | [] => []
  end.

Definition trim_back (src : bytes) : bytes :=
  rev ((fix go (l : bytes) := match l with c :: rest => if is_space c then go rest else l | [] => [] end) (rev src)).

(** [while (dst_len % 3 != 0) dst[dst_len++] = 0]. *)
Definition pad3 (dst : bytes) : bytes :=
  dst ++ replicate (Z.to_nat (if Zlen dst mod 3 =? 0 then 0 else 3 - Zlen dst mod 3)) 0.

Definition EVP_DecodeBlock (src : bytes) : option bytes :=
  let src := trim_back (trim_front src) in
  match EVP_DecodedLength (Zlen src) with
  | None => None
  | Some dst_len =>
      if dst_len >? INT_MAX then None
      else pad3 <$> EVP_DecodeBase64 dst_len src
  end.

(** * RFC 4648 *)

(** "A" to "Z", "a" to "z", "0" to "9", "+" and "/". *)
Definition alphabet : bytes :=
  (Z.of_nat <$> seq 65 26) ++ (Z.of_nat <$> seq 97 26) ++ (Z.of_nat <$> seq 48 10) ++ [43; 47].
Definition b64_char (n : Z) : Z := nth (Z.to_nat n) alphabet 0.

Fixpoint b64 (l : bytes) : bytes :=
  match l with
  | x :: y :: z :: l =>
      b64_char (x / 4) :: b64_char (x mod 4 * 16 + y / 16) :: b64_char (y mod 16 * 4 + z / 64)
        :: b64_char (z mod 64) :: b64 l
  | [x; y] => [b64_char (x / 4); b64_char (x mod 4 * 16 + y / 16); b64_char (y mod 16 * 4); 61]
  | [x] => [b64_char (x / 4); b64_char (x mod 4 * 16); 61; 61]
  | [] => []
  end.

(** The lines of a PEM body: 48 bytes, thus 64 characters, to the line. *)
Fixpoint full_lines (fuel : nat) (l : bytes) : bytes * bytes :=
  match fuel with
  | O => ([], l)
  | S fuel =>
      if Nat.leb data_size (length l) then
        let '(out, rest) := full_lines fuel (drop data_size l) in
        (b64 (take data_size l) ++ 10 :: out, rest)
      else ([], l)
  end.

Definition pem_body (l : bytes) : bytes :=
  let '(out, rest) := full_lines (length l) l in
  out ++ match rest with [] => [] | _ => b64 rest ++ [10] end.

(** * Lemmas: characters *)

Lemma conv_byte b : is_byte b -> conv_bin2ascii b = b64_char (b mod 64).
Proof. revert b. apply byte_forall_eqZ. byte_compute. Qed.

Lemma conv_u8 x : conv_bin2ascii (u8 x) = b64_char (x mod 64).
Proof.
  rewrite conv_byte by (unfold is_byte, u8; apply Z.mod_pos_bound; lia). unfold u8.
  change (2 ^ 8) with (64 * 4). f_equal. dlia.
Qed.

Lemma six_forall (P : Z -> bool) :
  forallb P (Z.of_nat <$> seq 0 64) = true -> forall n, 0 <= n < 64 -> P n = true.
Proof.
  intros H n Hn. rewrite forallb_forall in H. apply H, list_elem_of_In, list_elem_of_fmap.
  exists (Z.to_nat n). split; [lia|]. apply elem_of_seq. lia.
Qed.

Lemma b64_char_bin n : 0 <= n < 64 ->
  base64_ascii_to_bin (b64_char n) = n /\ (b64_char n =? 61) = false /\ is_space (b64_char n) = false.
Proof.
  intros Hn.
  assert ((base64_ascii_to_bin (b64_char n) =? n) && negb (b64_char n =? 61) && negb (is_space (b64_char n)) = true) as Hb.
  { revert n Hn. apply six_forall. byte_compute. }
  apply andb_true_iff in Hb as [[H1 H2]%andb_true_iff H3].
  split_and!; [by apply Z.eqb_eq|by destruct (b64_char n =? 61)|by destruct (is_space _)].
Qed.

Lemma pad_bin : base64_ascii_to_bin 61 = 0.
Proof. vm_compute. reflexivity. Qed.

Lemma word24 x y z : is_byte x -> is_byte y -> is_byte z ->
  Z.lor (Z.lor (Z.shiftl x 16) (Z.shiftl y 8)) z = x * 65536 + y * 256 + z.
Proof.
  unfold is_byte. intros. rewrite !Z.shiftl_mul_pow2 by lia.
  rewrite (lor_add_disjoint x (y * 2 ^ 8) 16) by lia.
  replace (x * 2 ^ 16 + y * 2 ^ 8) with ((x * 256 + y) * 2 ^ 8) by lia.
  rewrite (lor_add_disjoint _ z 8) by lia. lia.
Qed.

Lemma quad_word a b c d : 0 <= a < 64 -> 0 <= b < 64 -> 0 <= c < 64 -> 0 <= d < 64 ->
  Z.lor (Z.lor (Z.lor (Z.shiftl a 18) (Z.shiftl b 12)) (Z.shiftl c 6)) d =
  a * 262144 + b * 4096 + c * 64 + d.
Proof.
  intros. rewrite !Z.shiftl_mul_pow2 by lia.
  rewrite (lor_add_disjoint a (b * 2 ^ 12) 18) by lia.
  replace (a * 2 ^ 18 + b * 2 ^ 12) with ((a * 64 + b) * 2 ^ 12) by lia.
  rewrite (lor_add_disjoint _ (c * 2 ^ 6) 12) by lia.
  replace ((a * 64 + b) * 2 ^ 12 + c * 2 ^ 6) with (((a * 64 + b) * 64 + c) * 2 ^ 6) by lia.
  rewrite (lor_add_disjoint _ d 6) by lia. lia.
Qed.

Lemma encode_block_ind (P : bytes -> Prop) :
  P [] -> (forall x, P [x]) -> (forall x y, P [x; y]) ->
  (forall x y z l, P l -> P (x :: y :: z :: l)) -> forall l, P l.
Proof.
  intros H0 H1 H2 H3. fix IH 1. intros [|x [|y [|z l]]]; [apply H0|apply H1|apply H2|apply H3, IH].
Qed.

Lemma encode_block_eq src : bytes_ok src -> EVP_EncodeBlock src = b64 src.
Proof.
  revert src. refine (encode_block_ind _ _ _ _ _); [done|..].
  - intros x Hok. simp_bytes. cbn [EVP_EncodeBlock b64]. rewrite !conv_u8.
    rewrite !Z.shiftl_mul_pow2, !Z.shiftr_div_pow2 by lia. unfold is_byte in *.
    do 2 f_equal; [f_equal; dlia|]. f_equal. f_equal. dlia.
  - intros x y Hok. simp_bytes. cbn [EVP_EncodeBlock b64]. rewrite !conv_u8.
    pose proof (word24 x y 0 ltac:(done) ltac:(done) ltac:(unfold is_byte; lia)) as E.
    rewrite Z.lor_0_r, Z.add_0_r in E. rewrite E. rewrite !Z.shiftr_div_pow2 by lia. unfold is_byte in *.
    f_equal; [f_equal; dlia|]. f_equal; [f_equal; dlia|]. f_equal. f_equal. dlia.
  - intros x y z l IH Hok. simp_bytes. cbn [EVP_EncodeBlock b64]. rewrite !conv_u8, IH by done.
    rewrite word24 by done. rewrite !Z.shiftr_div_pow2 by lia. unfold is_byte in *.
    f_equal; [f_equal; dlia|]. f_equal; [f_equal; dlia|]. f_equal; [f_equal; dlia|]. f_equal. f_equal. dlia.
Qed.

(** * Lemmas: decoding quads *)

Lemma decode_quad_chars a b c d :
  0 <= a < 64 -> 0 <= b < 64 -> 0 <= c < 64 -> 0 <= d < 64 ->
  base64_decode_quad (b64_char a) (b64_char b) (b64_char c) (b64_char d) =
    Some [a * 4 + b / 16; b mod 16 * 16 + c / 4; c mod 4 * 64 + d] /\
  base64_decode_quad (b64_char a) (b64_char b) (b64_char c) 61 =
    Some [a * 4 + b / 16; b mod 16 * 16 + c / 4] /\
  base64_decode_quad (b64_char a) (b64_char b) 61 61 = Some [a * 4 + b / 16].
Proof.
  intros Ha Hb Hc Hd.
  destruct (b64_char_bin a Ha) as (Ea & Fa & _), (b64_char_bin b Hb) as (Eb & Fb & _),
    (b64_char_bin c Hc) as (Ec & Fc & _), (b64_char_bin d Hd) as (Ed & Fd & _).
  unfold base64_decode_quad. rewrite Ea, Eb, Ec, Ed, Fa, Fb, Fc, Fd, pad_bin.
  rewrite !quad_word by lia. cbn [Z.eqb].
  assert (forall n, 0 <= n < 64 -> (n =? 0xff) = false) as Hff by (intros; lia).
  rewrite !Hff by lia. cbn [orb]. change (61 =? 61) with true.
  split_and!; vm_compute (Z.lor _ _); simpl; unfold u8; rewrite !Z.shiftr_div_pow2 by lia;
    (f_equal; repeat (f_equal; try dlia)).
Qed.

Lemma b64_quad x y z : is_byte x -> is_byte y -> is_byte z ->
  base64_decode_quad (b64_char (x / 4)) (b64_char (x mod 4 * 16 + y / 16))
    (b64_char (y mod 16 * 4 + z / 64)) (b64_char (z mod 64)) = Some [x; y; z].
Proof.
  unfold is_byte. intros.
  destruct (decode_quad_chars (x / 4) (x mod 4 * 16 + y / 16) (y mod 16 * 4 + z / 64) (z mod 64))
    as (-> & _); [dlia..|]. f_equal. f_equal; [dlia|]. f_equal; [dlia|]. f_equal. dlia.
Qed.

Lemma decode_quads_b64 src : bytes_ok src -> decode_quads (b64 src) = Some src.
Proof.
  revert src. refine (encode_block_ind _ _ _ _ _); [done|..].
  - intros x Hok. simp_bytes. unfold is_byte in *. cbn [b64 decode_quads].
    destruct (decode_quad_chars (x / 4) (x mod 4 * 16) 0 0) as (_ & _ & ->); [dlia..|].
    cbn. do 2 f_equal. dlia.
  - intros x y Hok. simp_bytes. unfold is_byte in *. cbn [b64 decode_quads].
    destruct (decode_quad_chars (x / 4) (x mod 4 * 16 + y / 16) (y mod 16 * 4) 0) as (_ & -> & _); [dlia..|].
    cbn. do 2 f_equal; [dlia|]. f_equal. dlia.
  - intros x y z l IH Hok. simp_bytes. unfold is_byte in *. cbn [b64 decode_quads].
    rewrite b64_quad by done. cbn [length Nat.eqb negb andb].
    change (Zlen [x; y; z] =? 3) with true. cbn [negb andb]. by rewrite IH.
Qed.

Lemma length_b64 src : Zlen (b64 src) = (Zlen src + 2) / 3 * 4.
Proof.
  revert src. refine (encode_block_ind _ _ _ _ _); [done..|]. intros x y z l IH. cbn [b64].
  rewrite !Zlen_cons, IH. pose proof (Zlen_nonneg l). dlia.
Qed.

(** * Lemmas: lines *)

Definition lines (l : bytes) : bytes * bytes := full_lines (length l) l.

Lemma full_lines_fuel f g l : (length l <= f)%nat -> (length l <= g)%nat -> full_lines f l = full_lines g l.
Proof.
  revert g l. induction f as [|f IH]; intros g l Hf Hg.
  - destruct l; [|simpl in Hf; lia]. by destruct g.
  - destruct g as [|g]; [by destruct l; [|simpl in Hg; lia]|]. cbn [full_lines].
    destruct (Nat.leb_spec data_size (length l)) as [Hle|]; [|done].
    rewrite (IH g); [done|rewrite length_drop; unfold data_size in *; lia..].
Qed.

Lemma lines_short l : (length l < data_size)%nat -> lines l = ([], l).
Proof.
  intros Hl. unfold lines. rewrite (full_lines_fuel _ (S (length l))) by lia. cbn [full_lines].
  destruct (Nat.leb_spec data_size (length l)); [lia|done].
Qed.

Lemma lines_long a b : length a = data_size ->
  lines (a ++ b) = (b64 a ++ 10 :: fst (lines b), snd (lines b)).
Proof.
  intros Ha. unfold lines at 1. rewrite (full_lines_fuel (length (a ++ b)) (S (length (a ++ b)))) by lia.
  cbn [full_lines].
  pose proof (length_app a b). destruct (Nat.leb_spec data_size (length (a ++ b))); [|lia].
  rewrite take_app_length', drop_app_length' by done.
  unfold lines. rewrite (full_lines_fuel (length (a ++ b)) (length b) b) by lia.
  by destruct (full_lines _ b).
Qed.

(** Split off a full line, or know that there is none. *)
Lemma line_cases (l : bytes) : (length l < data_size)%nat \/
  exists a b, l = a ++ b /\ length a = data_size /\ (length b < length l)%nat.
Proof.
  destruct (decide (length l < data_size)%nat); [by left|right].
  exists (take data_size l), (drop data_size l). rewrite take_drop, length_take, length_drop.
  unfold data_size in *. split_and!; [done|lia..].
Qed.

Lemma line_ind (P : bytes -> Prop) :
  (forall l, (length l < data_size)%nat -> P l) ->
  (forall a b, length a = data_size -> P b -> P (a ++ b)) -> forall l, P l.
Proof.
  intros Hs Hl l. remember (length l) as n eqn:Hn. revert l Hn.
  induction (lt_wf n) as [n _ IH]. intros l ->.
  destruct (line_cases l) as [?|(a & b & -> & Ha & Hb)]; [by apply Hs|].
  apply Hl; [done|]. by apply (IH (length b)).
Qed.

Lemma lines_rest_length l : (length (snd (lines l)) < data_size)%nat.
Proof.
  revert l. apply line_ind; intros.
  - by rewrite lines_short.
  - by rewrite lines_long.
Qed.

Lemma lines_app a b :
  lines (a ++ b) = (fst (lines a) ++ fst (lines (snd (lines a) ++ b)), snd (lines (snd (lines a) ++ b))).
Proof.
  revert a. apply line_ind.
  - intros a Ha. rewrite (lines_short a) by done. simpl. apply surjective_pairing.
  - intros l a Hl IH. rewrite <- app_assoc, (lines_long l a), (lines_long l), IH by done. simpl.
    by rewrite <- app_assoc.
Qed.

Lemma lines_bytes l : bytes_ok l -> bytes_ok (snd (lines l)).
Proof.
  revert l. refine (line_ind _ _ _).
  - intros l Hl Hok. by rewrite lines_short.
  - intros a b Ha IH Hok. simp_bytes. rewrite lines_long by done. auto.
Qed.

Lemma length_b64_line a : length a = data_size -> Zlen (b64 a) = 64.
Proof. intros Ha. rewrite length_b64. unfold Zlen. by rewrite Ha. Qed.

Lemma lines_text_bound l : 0 <= Zlen (fst (lines l)) <= 2 * Zlen l.
Proof.
  revert l. apply line_ind.
  - intros l Hl. rewrite lines_short by done. pose proof (Zlen_nonneg l). simpl.
    change (Zlen (@nil Z)) with 0. lia.
  - intros a b Ha IH. rewrite lines_long by done. cbn [fst].
    rewrite !Zlen_app, Zlen_cons, length_b64_line by done.
    assert (Zlen a = 48) by (unfold Zlen; rewrite Ha; done). lia.
Qed.

Lemma encode_lines_eq fuel in_ total :
  bytes_ok in_ -> (length in_ <= fuel)%nat -> 0 <= total -> total + 2 * Zlen in_ < 2 ^ 32 ->
  encode_lines fuel in_ total =
    (fst (lines in_), Some (total + Zlen (fst (lines in_))), snd (lines in_)).
Proof.
  revert in_ total. induction fuel as [|fuel IH]; intros in_ total Hok Hf Ht Hb.
  { destruct in_; [|simpl in Hf; lia]. cbn. by rewrite Z.add_0_r. }
  cbn [encode_lines]. destruct (line_cases in_) as [Hs|(a & b & -> & Ha & Hlt)].
  - rewrite lines_short by done. destruct (Nat.leb_spec data_size (length in_)); [lia|].
    cbn. by rewrite Z.add_0_r.
  - simp_bytes. rewrite Zlen_app in Hb.
    assert (Zlen a = 48) by (unfold Zlen; by rewrite Ha).
    assert (0 <= Zlen b) by apply Zlen_nonneg.
    pose proof (length_app a b). destruct (Nat.leb_spec data_size (length (a ++ b))); [|lia].
    rewrite take_app_length', drop_app_length', encode_block_eq, length_b64_line by done.
    assert (u64 (u64 (total + 64) + 1) = total + 64 + 1) as ->.
    { unfold u64. rewrite (Z.mod_small (total + 64)), Z.mod_small by lia. done. }
    destruct (Z.ltb_spec (total + 64 + 1) total); [lia|].
    rewrite length_app in *. rewrite IH by (done || lia).
    rewrite lines_long by done. cbn [fst snd]. f_equal. f_equal. f_equal.
    rewrite Zlen_app, Zlen_cons, length_b64_line by done. lia.
Qed.

(** * Lemmas: the streaming encoder *)

(** The context holds the start [p] of a line. *)
Definition enc_holds (ctx : evp_encode_ctx_st) (p : bytes) : Prop :=
  data_used ctx = length p /\ length (data ctx) = data_size /\ (length p < data_size)%nat /\
  take (length p) (data ctx) = p /\ bytes_ok p.

Lemma ctx_copy_length off l ctx :
  length (data ctx) = data_size -> (off + length l <= data_size)%nat ->
  length (ctx_copy off l ctx) = data_size.
Proof. intros. unfold ctx_copy. rewrite !length_app, length_take, length_drop. lia. Qed.

Lemma ctx_copy_take off l ctx :
  length (data ctx) = data_size -> (off + length l <= data_size)%nat ->
  take (off + length l) (ctx_copy off l ctx) = take off (data ctx) ++ l.
Proof.
  intros Hd Ho. unfold ctx_copy. rewrite app_assoc. apply take_app_length'.
  rewrite length_app, length_take. lia.
Qed.

Lemma enc_store ctx r e1 e2 :
  length (data ctx) = data_size -> (length r < data_size)%nat -> bytes_ok r ->
  enc_holds (EncodeCtx (length r)
    (if negb (Nat.eqb (length r) 0) then ctx_copy 0 r ctx else data ctx) e1 e2) r.
Proof.
  intros Hd Hr Hok. split_and!; cbn [data data_used]; [done| |done| |done];
    destruct (Nat.eqb_spec (length r) 0) as [H0|H0]; cbn [negb]; try done.
  - apply ctx_copy_length; [done|lia].
  - by destruct r.
  - apply (ctx_copy_take 0 r ctx); [done|lia].
Qed.

(** Filling the context up to a line. *)
Lemma ctx_copy_fill ctx p in_ :
  length (data ctx) = data_size -> take (length p) (data ctx) = p ->
  (length p <= data_size)%nat -> (data_size - length p <= length in_)%nat ->
  ctx_copy (length p) (take (data_size - length p) in_) ctx = p ++ take (data_size - length p) in_.
Proof.
  intros Hd Ht Hp Hl. unfold ctx_copy. rewrite Ht, length_take, drop_ge by lia. by rewrite app_nil_r.
Qed.

(** The code after the first [if]s, on a context that holds [r] bytes of text
    already counted in [total]. *)
Lemma encode_rest ctx out0 in_ :
  length (data ctx) = data_size -> bytes_ok in_ -> Zlen out0 + 2 * Zlen in_ < 2 ^ 31 ->
  exists ctx',
    (let '(out1, total, in_) := encode_lines (length in_) in_ (Zlen out0) in
     match total with
     | None => (out0 ++ out1, 0, ctx)
     | Some total =>
         let data := if negb (Nat.eqb (length in_) 0) then ctx_copy 0 in_ ctx else data ctx in
         (out0 ++ out1, if total >? INT_MAX then 0 else total,
          EncodeCtx (length in_) data (eof_seen ctx) (error_encountered ctx))
     end) = (out0 ++ fst (lines in_), Zlen (out0 ++ fst (lines in_)), ctx') /\
    enc_holds ctx' (snd (lines in_)).
Proof.
  intros Hd Hok Hb. pose proof (Zlen_nonneg out0). pose proof (lines_text_bound in_).
  rewrite encode_lines_eq by (done || lia). cbv zeta.
  destruct (Z.gtb_spec (Zlen out0 + Zlen (fst (lines in_))) INT_MAX); [unfold INT_MAX in *; lia|].
  rewrite Zlen_app. eexists. split; [done|].
  apply enc_store; [done|apply lines_rest_length|by apply lines_bytes].
Qed.

Lemma encode_update_ok ctx p in_ :
  enc_holds ctx p -> bytes_ok in_ -> Zlen in_ < 2 ^ 29 ->
  exists ctx', EVP_EncodeUpdate ctx in_ =
      (fst (lines (p ++ in_)), Zlen (fst (lines (p ++ in_))), ctx') /\
    enc_holds ctx' (snd (lines (p ++ in_))).
Proof.
  intros (Hu & Hd & Hp & Ht & Hpok) Hok Hlen. unfold EVP_EncodeUpdate.
  destruct (Nat.eqb_spec (length in_) 0) as [H0|H0].
  { destruct in_; [|done]. rewrite app_nil_r, lines_short by done. exists ctx. done. }
  destruct (Nat.ltb_spec (length in_) (data_size - data_used ctx)) as [Hl|Hl]; rewrite Hu in *.
  { rewrite lines_short by (rewrite length_app; lia). eexists. split; [done|].
    split_and!; cbn [data data_used fst snd]; rewrite ?length_app; try lia.
    - apply ctx_copy_length; [done|lia].
    - rewrite ctx_copy_take by (done || lia). by rewrite Ht.
    - solve_bytes. }
  destruct (Nat.eqb_spec (length p) 0) as [Hp0|Hp0]; cbn [negb].
  { destruct p; [|done]. apply (encode_rest ctx [] in_); [done..|]. change (Zlen (@nil Z)) with 0. lia. }
  rewrite ctx_copy_fill by (done || lia). cbn [data].
  set (t := take (data_size - length p) in_). set (r := drop (data_size - length p) in_).
  assert (in_ = t ++ r) as E by (symmetry; apply take_drop).
  assert (bytes_ok t /\ bytes_ok r) as [Htok Hrok] by (split; subst t r; auto with bytes).
  assert (length (p ++ t) = data_size) as Hpt.
  { subst t. rewrite length_app, length_take. lia. }
  rewrite encode_block_eq by solve_bytes. rewrite E, app_assoc, (lines_long (p ++ t) r) by done. cbn [fst snd].
  replace (Zlen (b64 (p ++ t)) + 1) with (Zlen (b64 (p ++ t) ++ [10])) by apply Zlen_snoc.
  destruct (encode_rest (EncodeCtx 0 (p ++ t) (eof_seen ctx) (error_encountered ctx))
    (b64 (p ++ t) ++ [10]) r) as (ctx' & Hrest & Hh); [done..| |].
  { rewrite Zlen_snoc, length_b64_line by done. rewrite E, Zlen_app in Hlen.
    pose proof (Zlen_nonneg t). lia. }
  exists ctx'. split; [|done].
  replace (b64 (p ++ t) ++ 10 :: fst (lines r)) with ((b64 (p ++ t) ++ [10]) ++ fst (lines r))
    by (by rewrite <- app_assoc).
  exact Hrest.
Qed.

Lemma encode_final_ok ctx p :
  enc_holds ctx p ->
  let out := match p with [] => [] | _ => b64 p ++ [10] end in
  fst (EVP_EncodeFinal ctx) = (out, Zlen out) /\ enc_holds (snd (EVP_EncodeFinal ctx)) [].
Proof.
  intros (Hu & Hd & Hp & Ht & Hpok). unfold EVP_EncodeFinal. rewrite Hu.
  destruct p as [|x p]; cbn [length Nat.eqb]; [by split|].
  change (S (length p)) with (length (x :: p)). rewrite Ht, encode_block_eq by done.
  split; [done|]. split_and!; [done..|apply Nat.lt_0_succ|done|apply bytes_ok_nil].
Qed.

(** A run of [EVP_EncodeUpdate] on each chunk. *)
Fixpoint EVP_EncodeUpdates (ctx : evp_encode_ctx_st) (chunks : list bytes) : bytes * evp_encode_ctx_st :=
  match chunks with
  | [] => ([], ctx)
  | in_ :: chunks =>
      let '(out, _, ctx) := EVP_EncodeUpdate ctx in_ in
      let '(out', ctx) := EVP_EncodeUpdates ctx chunks in (out ++ out', ctx)
  end.

Lemma encode_updates_ok ctx p chunks :
  enc_holds ctx p -> Forall (fun c => bytes_ok c /\ Zlen c < 2 ^ 29) chunks ->
  exists ctx', EVP_EncodeUpdates ctx chunks = (fst (lines (p ++ concat chunks)), ctx') /\
    enc_holds ctx' (snd (lines (p ++ concat chunks))).
Proof.
  revert ctx p. induction chunks as [|c chunks IH]; intros ctx p Hh Hc; cbn [EVP_EncodeUpdates concat].
  { rewrite app_nil_r. pose proof Hh as (_ & _ & Hp & _). rewrite lines_short by done. by exists ctx. }
  apply Forall_cons in Hc as [[Hok Hl] Hc].
  destruct (encode_update_ok ctx p c Hh Hok Hl) as (ctx1 & -> & Hh1).
  destruct (IH ctx1 _ Hh1 Hc) as (ctx2 & -> & Hh2). exists ctx2.
  rewrite app_assoc, (lines_app (p ++ c)). by split.
Qed.

(** * Lemmas: the streaming decoder *)

Definition strip (l : bytes) : bytes := filter (fun c => is_space c = false) l.

Lemma decode_loop_strip ctx l : decode_loop ctx (strip l) = decode_loop ctx l.
Proof.
  revert ctx. induction l as [|c l IH]; intros ctx; [done|]. unfold strip in *. cbn [decode_loop].
  destruct (is_space c) eqn:Ec.
  - rewrite filter_cons, decide_False by (rewrite Ec; discriminate). apply IH.
  - rewrite filter_cons, decide_True by done. cbn [decode_loop]. rewrite Ec.
    repeat case_match; rewrite ?IH in *; congruence.
Qed.

Lemma decode_loop_app ctx a b :
  decode_loop ctx (a ++ b) =
    let '(o, c, err) := decode_loop ctx a in
    if (err : bool) then (o, c, true)
    else let '(o', c', err') := decode_loop c b in (o ++ o', c', err').
Proof.
  revert ctx. induction a as [|x a IH]; intros ctx.
  { simpl. by destruct (decode_loop ctx b) as [[o' c'] e']. }
  cbn [decode_loop app]. destruct (is_space x); [apply IH|]. destruct (eof_seen ctx); [done|].
  cbv zeta. case_match; [|apply IH]. case_match; [|done]. rewrite IH.
  destruct (decode_loop _ a) as [[o c] []]; [done|].
  destruct (decode_loop c b) as [[o' c'] e']. by rewrite app_assoc.
Qed.

Lemma decode_quad_length a b c d bs : base64_decode_quad a b c d = Some bs -> 1 <= Zlen bs <= 3.
Proof.
  unfold base64_decode_quad. cbv zeta. intros Eq.
  repeat (case_match; try discriminate); simplify_eq; done.
Qed.

Lemma decode_loop_flag ctx l o c err :
  decode_loop ctx l = (o, c, err) -> error_encountered ctx = false ->
  error_encountered c = err /\ Zlen o <= 3 * Zlen l.
Proof.
  revert ctx o c err. induction l as [|x l IH]; intros ctx o c err.
  { by intros [= <- <- <-]. }
  rewrite Zlen_cons. pose proof (Zlen_nonneg l). cbn [decode_loop].
  destruct (is_space x); [intros Hl Hc; destruct (IH _ _ _ _ Hl Hc); split; [done|lia]|].
  destruct (eof_seen ctx); [intros [= <- <- <-] _; split; [done|]; change (Zlen (@nil Z)) with 0; lia|].
  cbv zeta. destruct (Nat.eqb _ 4).
  - destruct (base64_decode_quad _ _ _ _) as [bs|] eqn:Eq.
    + destruct (decode_loop _ l) as [[o1 c1] e1] eqn:El. intros [= <- <- <-] Hc.
      apply IH in El as [? ?]; [|done]. rewrite Zlen_app. split; [done|].
      apply decode_quad_length in Eq. lia.
    + intros [= <- <- <-] _. split; [done|]. change (Zlen (@nil Z)) with 0. lia.
  - intros Hl Hc. apply IH in Hl as [? ?]; [|done]. split; [done|lia].
Qed.

(** What the caller of [EVP_DecodeFinal] has after a run of the loop. *)
Definition decode_finish (r : bytes * evp_encode_ctx_st * bool) : option bytes :=
  let '(o, c, err) := r in
  if err || negb (EVP_DecodeFinal c =? 1) then None else Some o.

Lemma quads_ind (P : bytes -> Prop) :
  (forall t, (length t < 4)%nat -> P t) ->
  (forall a b c d t, P t -> P (a :: b :: c :: d :: t)) -> forall t, P t.
Proof.
  intros Hs Hq. fix IH 1. intros [|a [|b [|c [|d t]]]]; [apply Hs; simpl; lia..|apply Hq, IH].
Qed.

(** The loop on one quad, from an empty context. *)
Lemma decode_loop_quad ctx a b c d t :
  length (data ctx) = data_size -> data_used ctx = 0%nat -> eof_seen ctx = false ->
  error_encountered ctx = false ->
  is_space a = false -> is_space b = false -> is_space c = false -> is_space d = false ->
  exists d', length d' = data_size /\
  decode_loop ctx (a :: b :: c :: d :: t) =
    match base64_decode_quad a b c d with
    | None => ([], EncodeCtx 4 d' false true, true)
    | Some bs =>
        let '(out, ctx, err) := decode_loop (EncodeCtx 0 d' (Zlen bs <? 3) false) t in (bs ++ out, ctx, err)
    end.
Proof.
  intros Hd Hu He Hr Ha Hb Hc Hd'. destruct ctx as [u dt e r]; cbn [data data_used eof_seen error_encountered] in *.
  subst u e r. destruct dt as [|d0 [|d1 [|d2 [|d3 dt]]]]; try discriminate Hd.
  exists (a :: b :: c :: d :: dt). split; [done|]. cbn [decode_loop data data_used eof_seen error_encountered].
  rewrite Ha, Hb, Hc, Hd'. cbn [Nat.eqb]. destruct (base64_decode_quad a b c d) as [bs|] eqn:Eq; cbn; rewrite Eq; [|done].
  by destruct (Zlen bs <? 3).
Qed.

Lemma decode_finish_quads t : Forall (fun c => is_space c = false) t ->
  forall ctx, length (data ctx) = data_size -> data_used ctx = 0%nat -> eof_seen ctx = false ->
  error_encountered ctx = false ->
  decode_finish (decode_loop ctx t) = if Zlen t mod 4 =? 0 then decode_quads t else None.
Proof.
  revert t. refine (quads_ind _ _ _).
  - intros t Hl Hns ctx Hd Hu He Hr. destruct ctx as [u dt e r]; cbn [data data_used eof_seen error_encountered] in *.
    subst u e r. destruct t as [|a [|b [|c [|d t]]]]; [done|..|simpl in Hl; lia];
      repeat (apply Forall_cons in Hns as [? Hns]); cbn [decode_loop data data_used eof_seen error_encountered];
      rewrite ?H, ?H0, ?H1; done.
  - intros a b c d t IH Hns ctx Hd Hu He Hr. repeat (apply Forall_cons in Hns as [? Hns]).
    destruct (decode_loop_quad ctx a b c d t) as (d' & Hd' & ->); [done..|].
    rewrite !Zlen_cons. replace ((1 + (1 + (1 + (1 + Zlen t)))) mod 4) with (Zlen t mod 4) by dlia.
    cbn [decode_quads]. destruct (base64_decode_quad a b c d) as [bs|] eqn:Eq; [|by destruct (_ =? 0)].
    apply decode_quad_length in Eq.
    destruct (Z.ltb_spec (Zlen bs) 3).
    + (* the padded quad *)
      destruct (Z.eqb_spec (Zlen bs) 3); [lia|]. cbn [negb andb].
      destruct t as [|x t]; [cbn; by rewrite app_nil_r|].
      apply Forall_cons in Hns as [Hx _]. cbn. rewrite Hx. by destruct (_ =? 0).
    + destruct (Z.eqb_spec (Zlen bs) 3); [|lia]. cbn [negb andb].
      specialize (IH Hns (EncodeCtx 0 d' false false) Hd' eq_refl eq_refl eq_refl).
      destruct (decode_loop _ t) as [[o c'] err]. cbn [decode_finish] in *.
      destruct (err || _); destruct (Zlen t mod 4 =? 0); try destruct (decode_quads t); simplify_eq; done.
Qed.

(** Each chunk is given to [EVP_DecodeUpdate], which must not report an error. *)
Fixpoint EVP_DecodeUpdates (ctx : evp_encode_ctx_st) (chunks : list bytes) : option (bytes * evp_encode_ctx_st) :=
  match chunks with
  | [] => Some ([], ctx)
  | in_ :: chunks =>
      let '(out, _, ctx, r) := EVP_DecodeUpdate ctx in_ in
      if r <? 0 then None
      else
        '(out', ctx) ← EVP_DecodeUpdates ctx chunks; Some (out ++ out', ctx)
  end.

Definition decode_stream (chunks : list bytes) : option bytes :=
  '(out, ctx) ← EVP_DecodeUpdates EVP_DecodeInit chunks;
  if EVP_DecodeFinal ctx =? 1 then Some out else None.

(** The whole text the streaming encoder writes for some chunks. *)
Definition encode_stream (chunks : list bytes) : bytes :=
  let '(out, ctx) := EVP_EncodeUpdates EVP_EncodeInit chunks in
  out ++ fst (fst (EVP_EncodeFinal ctx)).

Lemma decode_updates_ok ctx chunks :
  error_encountered ctx = false -> Forall (fun c => Zlen c <= 2 ^ 29) chunks ->
  EVP_DecodeUpdates ctx chunks =
    let '(o, c, err) := decode_loop ctx (concat chunks) in if (err : bool) then None else Some (o, c).
Proof.
  revert ctx. induction chunks as [|in_ chunks IH]; intros ctx He Hc; [done|].
  apply Forall_cons in Hc as [Hl Hc]. cbn [EVP_DecodeUpdates concat].
  unfold EVP_DecodeUpdate. rewrite He, decode_loop_app.
  destruct (decode_loop ctx in_) as [[o c] err] eqn:El.
  apply decode_loop_flag in El as [Hf Hlo]; [|done]. destruct err; [done|].
  destruct (Z.gtb_spec (Zlen o) INT_MAX); [unfold INT_MAX in *; lia|].
  destruct (eof_seen c); cbn [Z.ltb Z.compare]; rewrite IH by done;
    destruct (decode_loop c (concat chunks)) as [[o' c'] []]; done.
Qed.

Lemma decode_stream_eq chunks :
  Forall (fun c => Zlen c <= 2 ^ 29) chunks ->
  decode_stream chunks = let t := strip (concat chunks) in
    if Zlen t mod 4 =? 0 then decode_quads t else None.
Proof.
  intros Hc. cbv zeta. rewrite <- (decode_finish_quads (strip (concat chunks))) with (ctx := EVP_DecodeInit); try done.
  2: { apply Forall_forall. intros x Hx. by apply list_elem_of_filter in Hx as [? _]. }
  rewrite decode_loop_strip. unfold decode_stream. rewrite decode_updates_ok by done.
  destruct (decode_loop _ _) as [[o c] []]; [done|]. cbn. by destruct (EVP_DecodeFinal c =? 1).
Qed.

Lemma decode_base64_eq max_out in_ :
  EVP_DecodeBase64 max_out in_ =
    if (Zlen in_ mod 4 =? 0) && (u64 (Zlen in_ / 4 * 3) <=? max_out) then decode_quads in_ else None.
Proof.
  unfold EVP_DecodeBase64, EVP_DecodedLength. destruct (Zlen in_ mod 4 =? 0); [|done]. cbn.
  destruct (Z.ltb_spec max_out (u64 (Zlen in_ / 4 * 3))), (Z.leb_spec (u64 (Zlen in_ / 4 * 3)) max_out);
    done || lia.
Qed.

Lemma u64_le x : 0 <= x -> u64 x <= x.
Proof. intros. apply Z.mod_le; lia. Qed.

Lemma b64_mod4 src : Zlen (b64 src) mod 4 = 0.
Proof. rewrite length_b64. apply Z.mod_mul. lia. Qed.

Lemma decode_base64_b64 max_out src :
  bytes_ok src -> (Zlen src + 2) / 3 * 3 <= max_out ->
  EVP_DecodeBase64 max_out (b64 src) = Some src.
Proof.
  intros Hok Hm. rewrite decode_base64_eq, decode_quads_b64, b64_mod4 by done. cbn.
  rewrite length_b64, Z.div_mul by lia. pose proof (Zlen_nonneg src).
  pose proof (u64_le ((Zlen src + 2) / 3 * 3)). destruct (Z.leb_spec (u64 ((Zlen src + 2) / 3 * 3)) max_out); [done|dlia].
Qed.

Lemma b64_line a b : length a = data_size -> b64 (a ++ b) = b64 a ++ b64 b.
Proof.
  intros Ha. do 48 (destruct a as [|? a]; [discriminate Ha|]). destruct a; [|discriminate Ha]. done.
Qed.

Lemma strip_id l : Forall (fun c => is_space c = false) l -> strip l = l.
Proof. intros H. induction H as [|x l Hx Hl IH]; [done|]. unfold strip in *. by rewrite filter_cons, decide_True, IH by done. Qed.

Lemma b64_no_space src : bytes_ok src -> Forall (fun c => is_space c = false) (b64 src).
Proof.
  assert (forall n, 0 <= n < 64 -> is_space (b64_char n) = false) as Hc by (intros; by apply b64_char_bin).
  revert src. refine (encode_block_ind _ _ _ _ _); intros; simp_bytes; unfold is_byte in *; cbn [b64].
  - constructor.
  - repeat constructor; apply Hc; dlia.
  - repeat constructor; apply Hc; dlia.
  - do 4 (constructor; [apply Hc; dlia|]). auto.
Qed.

Lemma strip_b64 src : bytes_ok src -> strip (b64 src) = b64 src.
Proof. intros. by apply strip_id, b64_no_space. Qed.

Lemma strip_app a b : strip (a ++ b) = strip a ++ strip b.
Proof. apply filter_app. Qed.

Lemma strip_lines l : bytes_ok l -> strip (fst (lines l)) ++ b64 (snd (lines l)) = b64 l.
Proof.
  revert l. refine (line_ind _ _ _).
  - intros l Hl _. by rewrite lines_short.
  - intros a b Ha IH Hok. simp_bytes. rewrite lines_long, b64_line by done. cbn [fst snd].
    rewrite strip_app, strip_b64 by done. change (10 :: fst (lines b)) with ([10] ++ fst (lines b)).
    rewrite strip_app. cbn [app]. change (strip [10]) with (@nil Z). cbn [app]. by rewrite <- app_assoc, IH.
Qed.

Lemma pem_body_eq l :
  pem_body l = fst (lines l) ++ match snd (lines l) with [] => [] | _ => b64 (snd (lines l)) ++ [10] end.
Proof. unfold pem_body. change (full_lines (length l) l) with (lines l). by destruct (lines l) as [? []]. Qed.

Lemma strip_pem_body l : bytes_ok l -> strip (pem_body l) = b64 l.
Proof.
  intros Hok. rewrite pem_body_eq, strip_app, <- (strip_lines l) by done. f_equal.
  destruct (snd (lines l)) as [|x r] eqn:E; [done|].
  rewrite strip_app, strip_b64; [by rewrite app_nil_r|]. rewrite <- E. by apply lines_bytes.
Qed.

Lemma encode_stream_eq chunks :
  Forall (fun c => bytes_ok c /\ Zlen c < 2 ^ 29) chunks ->
  encode_stream chunks = pem_body (concat chunks).
Proof.
  intros Hc. unfold encode_stream.
  destruct (encode_updates_ok EVP_EncodeInit [] chunks) as (ctx & -> & Hh); [|done|].
  { split_and!; [done..|apply Nat.lt_0_succ|done|apply bytes_ok_nil]. }
  rewrite pem_body_eq. destruct (encode_final_ok ctx _ Hh) as [-> _]. done.
Qed.

Lemma trim_front_app a l : Forall (fun c => c = 32 \/ c = 9) a -> trim_front (a ++ l) = trim_front l.
Proof. intros H. induction H as [|x a [->| ->] _ IH]; done. Qed.

Lemma trim_back_app l b :
  Forall (fun c => is_space c = false) l -> Forall (fun c => is_space c = true) b -> trim_back (l ++ b) = l.
Proof.
  intros Hl Hb. unfold trim_back. rewrite rev_app_distr.
  apply Forall_rev in Hb, Hl. rewrite <- (rev_involutive l) at 2. f_equal.
  induction Hb as [|x k Hx Hk IH]; cbn [app]; [|by rewrite Hx].
  destruct (rev l) as [|y k]; [done|]. apply Forall_cons in Hl as [Hy _]. by rewrite Hy.
Qed.

Lemma trim_front_spaces b :
  Forall (fun c => is_space c = true) b -> Forall (fun c => is_space c = true) (trim_front b).
Proof.
  intros Hb. induction Hb as [|x b Hx Hb IH]; [constructor|]. cbn [trim_front].
  destruct (_ && _); [by constructor|done].
Qed.

Lemma trim_text sp l nl :
  Forall (fun c => c = 32 \/ c = 9) sp -> Forall (fun c => is_space c = false) l ->
  Forall (fun c => is_space c = true) nl -> trim_back (trim_front (sp ++ l ++ nl)) = l.
Proof.
  intros Hsp Hl Hnl. rewrite trim_front_app by done. destruct l as [|c l].
  - apply (trim_back_app [] (trim_front nl)); [constructor|]. by apply trim_front_spaces.
  - pose proof (Forall_inv Hl) as Hc. unfold is_space in Hc. cbn [app trim_front].
    replace (negb (c =? 32) && negb (c =? 9)) with true by (by destruct (c =? 32), (c =? 9)).
    by apply (trim_back_app (c :: l)).
Qed.

(** * Theorems *)

(** The block encoder writes the RFC 4648 encoding of its input, four
    characters for every three bytes or part of it, and [EVP_EncodedLength] is
    exactly the room this needs with its NUL, or fails when that does not fit a
    [size_t]. *)
Theorem EVP_EncodeBlock_spec src (Hok : bytes_ok src) (Hlen : Zlen src <= SIZE_MAX) :
  EVP_EncodeBlock src = b64 src /\
  Zlen (EVP_EncodeBlock src) = (Zlen src + 2) / 3 * 4 /\
  EVP_EncodedLength (Zlen src) =
    (if Zlen (b64 src) + 1 <=? SIZE_MAX then Some (Zlen (b64 src) + 1) else None).
Proof.
  rewrite encode_block_eq, length_b64 by done. split_and!; [done..|].
  pose proof (Zlen_nonneg src). unfold EVP_EncodedLength, SIZE_MAX in *.
  rewrite !Z.shiftl_mul_pow2, Z.shiftr_div_pow2 by lia. change (2 ^ 2) with 4.
  destruct (decide (Zlen src + 2 < 2 ^ 64)).
  - unfold u64. rewrite (Z.mod_small (Zlen src + 2)) by lia.
    destruct (Z.ltb_spec (Zlen src + 2) (Zlen src)); [lia|].
    set (q := (Zlen src + 2) / 3). assert (0 <= q < 2 ^ 64) by (subst q; dlia).
    destruct (decide (q * 4 < 2 ^ 64)).
    + rewrite (Z.mod_small (q * 4)), Z.div_mul, Z.eqb_refl by lia. cbn [negb].
      destruct (decide (q * 4 + 1 < 2 ^ 64)).
      * rewrite Z.mod_small by lia. destruct (Z.ltb_spec (q * 4 + 1) (q * 4)); [lia|].
        destruct (Z.leb_spec (q * 4 + 1) (2 ^ 64 - 1)); [done|lia].
      * exfalso. dlia.
    + destruct (Z.eqb_spec ((q * 4) mod 2 ^ 64 / 4) q); [dlia|]. cbn [negb].
      destruct (Z.leb_spec (q * 4 + 1) (2 ^ 64 - 1)); [lia|done].
  - assert (u64 (Zlen src + 2) < Zlen src) by (unfold u64; dlia).
    destruct (Z.ltb_spec (u64 (Zlen src + 2)) (Zlen src)); [|lia].
    destruct (Z.leb_spec ((Zlen src + 2) / 3 * 4 + 1) (2 ^ 64 - 1)); [dlia|done].
Qed.

(** The streaming encoder does not depend on how its input is cut: whatever
    the chunks given to [EVP_EncodeUpdate], the text written up to
    [EVP_EncodeFinal] is the PEM body of their concatenation. *)
Theorem encode_stream_spec chunks
    (Hc : Forall (fun c => bytes_ok c /\ Zlen c < 2 ^ 29) chunks) :
  encode_stream chunks = pem_body (concat chunks).
Proof. by apply encode_stream_eq. Qed.

(** C9. Decoding inverts encoding: [EVP_DecodeBase64] and [EVP_DecodeBlock]
    (blanks around the text, the result padded to a multiple of three) on the
    output of [EVP_EncodeBlock], and the streaming decoder on the output of
    the streaming encoder, however either text is cut. *)
Theorem base64_roundtrip src max_out sp nl chunks texts
    (Hok : bytes_ok src) (Hlen : Zlen src < 2 ^ 29) (Hm : (Zlen src + 2) / 3 * 3 <= max_out)
    (Hsp : Forall (fun c => c = 32 \/ c = 9) sp) (Hnl : Forall (fun c => is_space c = true) nl)
    (Hc : Forall (fun c => bytes_ok c /\ Zlen c < 2 ^ 29) chunks)
    (Ht : Forall (fun c => Zlen c <= 2 ^ 29) texts) (Htx : concat texts = encode_stream chunks) :
  EVP_DecodeBase64 max_out (EVP_EncodeBlock src) = Some src /\
  EVP_DecodeBlock (sp ++ EVP_EncodeBlock src ++ nl) = Some (pad3 src) /\
  decode_stream texts = Some (concat chunks).
Proof.
  rewrite encode_block_eq by done. split_and!.
  - by apply decode_base64_b64.
  - unfold EVP_DecodeBlock. rewrite trim_text by (done || by apply b64_no_space).
    pose proof (Zlen_nonneg src). unfold EVP_DecodedLength. rewrite b64_mod4, length_b64, Z.div_mul by lia.
    cbn [Z.eqb negb]. assert (u64 ((Zlen src + 2) / 3 * 3) = (Zlen src + 2) / 3 * 3) as ->.
    { apply Z.mod_small. dlia. }
    destruct (Z.gtb_spec ((Zlen src + 2) / 3 * 3) INT_MAX); [unfold INT_MAX in *; dlia|].
    by rewrite decode_base64_b64 by (done || lia).
  - rewrite decode_stream_eq by done. rewrite Htx, encode_stream_eq by done. cbv zeta.
    assert (bytes_ok (concat chunks)).
    { clear -Hc. induction Hc as [|c l [? ?] _ IH]; [apply bytes_ok_nil|]. cbn. by apply bytes_ok_app. }
    by rewrite strip_pem_body, b64_mod4, decode_quads_b64.
Qed.

(** The streaming decoder agrees with the one-shot decoder: whatever the
    chunks, and with blanks and newlines anywhere, it succeeds exactly when
    [EVP_DecodeBase64] accepts the text without them, with the same bytes. *)
Theorem decode_stream_spec chunks (Hc : Forall (fun c => Zlen c <= 2 ^ 29) chunks) :
  decode_stream chunks =
    let t := strip (concat chunks) in EVP_DecodeBase64 (Zlen t) t.
Proof.
  rewrite decode_stream_eq by done. cbv zeta. rewrite decode_base64_eq.
  set (t := strip _). pose proof (Zlen_nonneg t). pose proof (u64_le (Zlen t / 4 * 3)).
  destruct (Z.leb_spec (u64 (Zlen t / 4 * 3)) (Zlen t)); [by rewrite andb_true_r|dlia].
Qed.

(** * Witnesses *)

Lemma EVP_EncodeBlock_spec_witness :
  EVP_EncodeBlock [77; 97; 110; 77] = [84; 87; 70; 117; 84; 81; 61; 61] /\
  EVP_EncodedLength 4 = Some 9.
Proof.
  destruct (EVP_EncodeBlock_spec [77; 97; 110; 77]) as (E & _ & L).
  { repeat constructor; done. } { done. } split; [exact E|exact L].
Defined.

Lemma encode_stream_spec_witness :
  encode_stream [replicate 50 77; [97; 110]; replicate 60 0] = pem_body (replicate 50 77 ++ [97; 110] ++ replicate 60 0).
Proof.
  apply (encode_stream_spec [replicate 50 77; [97; 110]; replicate 60 0]).
  repeat constructor; done.
Defined.

Lemma base64_roundtrip_witness :
  EVP_DecodeBlock [32; 84; 87; 69; 61; 10] = Some [77; 97; 0] /\
  decode_stream [[84; 87; 69]; [61; 10]] = Some [77; 97].
Proof.
  destruct (base64_roundtrip [77; 97] 3 [32] [10] [[77]; [97]] [[84; 87; 69]; [61; 10]]) as (_ & B & C).
  1-7: repeat constructor; done. { done. }
  split; [exact B|exact C].
Defined.

Lemma decode_stream_spec_witness :
  decode_stream [[84; 10; 87]; [70; 117; 84]; [81; 61; 61]] = Some [77; 97; 110; 77].
Proof.
  rewrite (decode_stream_spec [[84; 10; 87]; [70; 117; 84]; [81; 61; 61]]); [done|].
  repeat constructor; done.
Defined.
