(* ===== verification/Stack.v ===== *)
(** The stacks of pointers of [crypto/stack/stack.c]: growth, insertion and
    deletion, heap sort, and lookup by linear or binary search.

    A pointer is its 64-bit address and [NULL] is 0.  The comparison, copying
    and freeing functions are the caller's and are parameters. *)
From S2P Require Import Prelude Mem.

Definition NULL : Z := 0.

Section stack.
Context {H : Type} `{Malloc H}.
(** Comparison functions, and what [call_cmp_func] makes of one. *)
Context {Cmp : Type} `{EqDecision Cmp} (call_cmp_func : Cmp -> Z -> Z -> Z).

(** [data] has [num_alloc] slots, of which the first [num] are in use. *)
Record stack_st := Stack {
  num : nat;
  data : list Z;
  sorted : bool;
  num_alloc : Z;
  comp : option Cmp;
}.

(** * Arrays of pointers in memory *)

Definition bytes_of_words (l : list Z) : bytes := l ≫= le_bytes 8.

Fixpoint words_of_bytes (b : bytes) : list Z :=
  match b with
  | b0 :: b1 :: b2 :: b3 :: b4 :: b5 :: b6 :: b7 :: b =>
      be_val [b7; b6; b5; b4; b3; b2; b1; b0] :: words_of_bytes b
  | _ => []
  end.

Definition sizeof_ptr : Z := 8.

(** * Creation and inspection *)

Definition kMinSize : Z := 4.

(** The structure itself takes [sizeof(OPENSSL_STACK)] = 40 bytes. *)
Definition OPENSSL_sk_new (comp : option Cmp) : ST H stack_st :=
  _ <-- OPENSSL_zalloc 40 ;;
  data <-- OPENSSL_calloc kMinSize sizeof_ptr ;;
  st_ret (Stack 0 (words_of_bytes data) false kMinSize comp).

Definition OPENSSL_sk_new_null : ST H stack_st := OPENSSL_sk_new None.

(** The operations take NULL for a stack; [on_sk] runs one on a stack there is. *)
Definition on_sk {A} (null : A) (f : stack_st -> A * stack_st) (sk : option stack_st) : A * option stack_st :=
  match sk with
  | None => (null, None)
  | Some sk => let '(r, sk) := f sk in (r, Some sk)
  end.

Definition OPENSSL_sk_num (sk : option stack_st) : nat :=
  match sk with None => O | Some sk => num sk end.

Definition OPENSSL_sk_zero (sk : option stack_st) : option stack_st :=
  snd (on_sk tt (fun sk =>
    if Nat.eqb (num sk) 0 then (tt, sk)
    else (tt, Stack 0 (replicate (num sk) 0 ++ drop (num sk) (data sk)) false (num_alloc sk) (comp sk))) sk).

Definition OPENSSL_sk_value (sk : option stack_st) (i : nat) : Z :=
  match sk with
  | None => NULL
  | Some sk => if Nat.leb (num sk) i then NULL else data sk !!! i
  end.

Definition OPENSSL_sk_set (sk : option stack_st) (i : nat) (value : Z) : Z * option stack_st :=
  on_sk NULL (fun sk =>
    if Nat.leb (num sk) i then (NULL, sk)
    else (value, Stack (num sk) (<[i := value]> (data sk)) (sorted sk) (num_alloc sk) (comp sk))) sk.

(** The pointers [call_free_func] is called on, in order. *)
Definition OPENSSL_sk_pop_free_ex (sk : option stack_st) : list Z :=
  match sk with
  | None => []
  | Some sk => filter (fun p => p <> NULL) (take (num sk) (data sk))
  end.

(** * Insertion *)

(** The capacity tried, or [None] when the size in bytes overflows. *)
Definition sk_new_alloc (num_alloc : Z) : option Z :=
  let bad new_alloc :=
    (new_alloc <? num_alloc) || negb (u64 (new_alloc * sizeof_ptr) / sizeof_ptr =? new_alloc) in
  let new_alloc := u64 (Z.shiftl num_alloc 1) in
  let new_alloc := if bad new_alloc then u64 (num_alloc + 1) else new_alloc in
  if bad new_alloc then None else Some new_alloc.

(** The block of code that makes room for one more pointer. *)
Definition sk_grow (sk : stack_st) : ST H stack_st :=
  if num_alloc sk <=? Z.of_nat (num sk) + 1 then
    match sk_new_alloc (num_alloc sk) with
    | None => st_fail
    | Some new_alloc =>
        data <-- OPENSSL_realloc (Some (bytes_of_words (data sk))) (u64 (new_alloc * sizeof_ptr)) ;;
        st_ret (Stack (num sk) (words_of_bytes data) (sorted sk) new_alloc (comp sk))
    end
  else st_ret sk.

(** [memmove(&data[dst], &data[src], n)]. *)
Definition move (data : list Z) (dst src n : nat) : list Z :=
  take dst data ++ take n (drop src data) ++ drop (dst + n) data.

Definition OPENSSL_sk_insert (sk : option stack_st) (p : Z) (where_ : nat) (h : H) : (nat * option stack_st) * H :=
  match sk with
  | None => ((O, None), h)
  | Some sk =>
      if Z.of_nat (num sk) >=? INT_MAX then ((O, Some sk), h)
      else
        match sk_grow sk h with
        | (None, h) => ((O, Some sk), h)
        | (Some sk, h) =>
            let data :=
              if Nat.leb (num sk) where_ then <[num sk := p]> (data sk)
              else <[where_ := p]> (move (data sk) (where_ + 1) where_ (num sk - where_)) in
            ((S (num sk), Some (Stack (S (num sk)) data false (num_alloc sk) (comp sk))), h)
        end
  end.

Definition OPENSSL_sk_push (sk : option stack_st) (p : Z) : H -> (nat * option stack_st) * H :=
  OPENSSL_sk_insert sk p (OPENSSL_sk_num sk).

(** * Deletion *)

Definition sk_delete (where_ : nat) (sk : stack_st) : Z * stack_st :=
  if Nat.leb (num sk) where_ then (NULL, sk)
  else
    let ret := data sk !!! where_ in
    let data :=
      if negb (Nat.eqb where_ (num sk - 1))
      then move (data sk) where_ (where_ + 1) (num sk - where_ - 1) else data sk in
    (ret, Stack (num sk - 1) data (sorted sk) (num_alloc sk) (comp sk)).

Definition OPENSSL_sk_delete (sk : option stack_st) (where_ : nat) : Z * option stack_st :=
  on_sk NULL (sk_delete where_) sk.

(** The first of the slots [i], [i + 1], ... before [n] that satisfies [f]. *)
Fixpoint find_from (f : Z -> bool) (l : list Z) (i n : nat) : option nat :=
  match n with
  | O => None
  | S n => if f (l !!! i) then Some i else find_from f l (S i) n
  end.

Definition OPENSSL_sk_delete_ptr (sk : option stack_st) (p : Z) : Z * option stack_st :=
  on_sk NULL (fun sk =>
    match find_from (fun q => q =? p) (data sk) 0 (num sk) with
    | Some i => sk_delete i sk
    | None => (NULL, sk)
    end) sk.

(** The loop over [i]; the callback may change what its [data] points to. *)
Fixpoint delete_if_loop {D} (call_func : Z -> D -> bool * D) (l : list Z) (i new_num n : nat) (d : D)
    : list Z * nat * D :=
  match n with
  | O => (l, new_num, d)
  | S n =>
      let '(del, d) := call_func (l !!! i) d in
      if (del : bool) then delete_if_loop call_func l (S i) new_num n d
      else delete_if_loop call_func (<[new_num := l !!! i]> l) (S i) (S new_num) n d
  end.

Definition OPENSSL_sk_delete_if {D} (sk : option stack_st) (call_func : Z -> D -> bool * D) (d : D)
    : D * option stack_st :=
  on_sk d (fun sk =>
    let '(l, new_num, d) := delete_if_loop call_func (data sk) 0 0 (num sk) d in
    (d, Stack new_num l (sorted sk) (num_alloc sk) (comp sk))) sk.

Definition OPENSSL_sk_shift (sk : option stack_st) : Z * option stack_st :=
  on_sk NULL (fun sk => if Nat.eqb (num sk) 0 then (NULL, sk) else sk_delete 0 sk) sk.

Definition OPENSSL_sk_pop (sk : option stack_st) : Z * option stack_st :=
  on_sk NULL (fun sk => if Nat.eqb (num sk) 0 then (NULL, sk) else sk_delete (num sk - 1) sk) sk.

(** * Lookup *)

Definition OPENSSL_sk_is_sorted (sk : option stack_st) : bool :=
  match sk with
  | None => true
  | Some sk => sorted sk || (bool_decide (comp sk <> None) && Nat.ltb (num sk) 2)
  end.

(** The binary search between [lo] and [hi]; [cmp] compares what is looked for
    with a slot. *)
Fixpoint binary_search (fuel : nat) (cmp : Z -> Z) (l : list Z) (lo hi : nat) : option nat :=
  match fuel with
  | O => None
  | S fuel =>
      if Nat.ltb lo hi then
        let mid := (lo + (hi - lo - 1) / 2)%nat in
        let r := cmp (l !!! mid) in
        if r >? 0 then binary_search fuel cmp l (mid + 1) hi
        else if r <? 0 then binary_search fuel cmp l lo mid
        else if Nat.eqb (hi - lo) 1 then Some mid
        else binary_search fuel cmp l lo (mid + 1)
      else None
  end.

(** [Some i] is a result of 1 with [*out_index = i]. *)
Definition OPENSSL_sk_find (sk : option stack_st) (p : Z) : option nat :=
  match sk with
  | None => None
  | Some sk =>
      match comp sk with
      | None => find_from (fun q => q =? p) (data sk) 0 (num sk)
      | Some comp =>
          if p =? NULL then None
          else if negb (OPENSSL_sk_is_sorted (Some sk)) then
            find_from (fun q => call_cmp_func comp p q =? 0) (data sk) 0 (num sk)
          else binary_search (S (num sk)) (call_cmp_func comp p) (data sk) 0 (num sk)
      end
  end.

(** * Copies *)

Definition OPENSSL_sk_dup (sk : option stack_st) : ST H stack_st :=
  match sk with
  | None => st_fail
  | Some sk =>
      _ <-- OPENSSL_zalloc 40 ;;
      data <-- OPENSSL_memdup (bytes_of_words (data sk)) (u64 (sizeof_ptr * num_alloc sk)) ;;
      st_ret (Stack (num sk) (words_of_bytes data) (sorted sk) (num_alloc sk) (comp sk))
  end.

(** Copies the slots from [i] on; on failure [inr] lists the copies to free. *)
Fixpoint deep_copy_loop (call_copy_func : Z -> ST H Z) (l : list Z) (i n : nat) : H -> (list Z + list Z) * H :=
  match n with
  | O => fun h => (inl l, h)
  | S n =>
      if l !!! i =? NULL then deep_copy_loop call_copy_func l (S i) n
      else fun h =>
        match call_copy_func (l !!! i) h with
        | (None, h) => (inr (filter (fun p => p <> NULL) (take i l)), h)
        | (Some c, h) => deep_copy_loop call_copy_func (<[i := c]> l) (S i) n h
        end
  end.

(** The copy if any, and the pointers given to [call_free_func]. *)
Definition OPENSSL_sk_deep_copy (sk : option stack_st) (call_copy_func : Z -> ST H Z) (h : H)
    : (option stack_st * list Z) * H :=
  match OPENSSL_sk_dup sk h with
  | (None, h) => ((None, []), h)
  | (Some ret, h) =>
      match deep_copy_loop call_copy_func (data ret) 0 (num ret) h with
      | (inl l, h) => ((Some (Stack (num ret) l (sorted ret) (num_alloc ret) (comp ret)), []), h)
      | (inr freed, h) => ((None, freed), h)
      end
  end.

(** * Heap sort *)

Definition parent_idx (idx : nat) : nat := ((idx - 1) / 2)%nat.
Definition left_idx (idx : nat) : nat := (2 * idx + 1)%nat.

Definition swap (l : list Z) (i j : nat) : list Z :=
  let tmp := l !!! i in <[j := tmp]> (<[i := l !!! j]> l).

Fixpoint down_heap (fuel : nat) (cmp : Z -> Z -> Z) (l : list Z) (i n : nat) : list Z :=
  match fuel with
  | O => l
  | S fuel =>
      let left := left_idx i in
      if Nat.leb n left then l
      else
        let next := if cmp (l !!! i) (l !!! left) <? 0 then left else i in
        let right := (left + 1)%nat in
        let next := if Nat.ltb right n && (cmp (l !!! next) (l !!! right) <? 0) then right else next in
        if Nat.eqb i next then l
        else down_heap fuel cmp (swap l i next) next n
  end.

(** [for (i = ...; i < n; i--)]: after 0 the index wraps to [SIZE_MAX]. *)
Fixpoint build_heap (cmp : Z -> Z -> Z) (l : list Z) (n i : nat) : list Z :=
  let l := down_heap n cmp l i n in
  match i with
  | O => l
  | S i => build_heap cmp l n i
  end.

(** [for (i = ...; i > 0; i--)]. *)
Fixpoint pop_heap (cmp : Z -> Z -> Z) (l : list Z) (i : nat) : list Z :=
  match i with
  | O => l
  | S i' => pop_heap cmp (down_heap i cmp (swap l 0 i) 0 i) i'
  end.

Definition OPENSSL_sk_sort (sk : option stack_st) : option stack_st :=
  snd (on_sk tt (fun sk =>
    match comp sk with
    | None => (tt, sk)
    | Some comp_ =>
        if sorted sk then (tt, sk)
        else
          let cmp := call_cmp_func comp_ in
          let l :=
            if Nat.leb 2 (num sk) then
              pop_heap cmp (build_heap cmp (data sk) (num sk) (parent_idx (num sk - 1))) (num sk - 1)
            else data sk in
          (tt, Stack (num sk) l true (num_alloc sk) (comp sk))
    end) sk).

Definition OPENSSL_sk_set_cmp_func (sk : stack_st) (comp_ : option Cmp) : option Cmp * stack_st :=
  (comp sk, Stack (num sk) (data sk)
     (if bool_decide (comp sk <> comp_) then false else sorted sk) (num_alloc sk) comp_).

End stack.

#[global] Arguments stack_st : clear implicits.
