(* ===== verification/StackSpec.v ===== *)
(** What the stacks of [Stack.v] promise: each operation on the list of
    pointers a stack holds, the heap sort, the two searches, and the invariant
    of the reachable stacks. *)
From S2P Require Import Prelude Mem Stack.

(** * Comparison functions

    [cmp] orders the pointers: swapping its arguments changes the sign of its
    result, and the order is transitive. *)
Class CmpLaws (cmp : Z -> Z -> Z) := {
  cmp_flip a b : cmp a b < 0 <-> 0 < cmp b a;
  cmp_trans a b c : cmp a b <= 0 -> cmp b c <= 0 -> cmp a c <= 0;
}.

(** Slots [i < j] below [n] are in ascending order. *)
Definition ascending (cmp : Z -> Z -> Z) (l : list Z) : Prop :=
  forall i j x y, (i < j)%nat -> l !! i = Some x -> l !! j = Some y -> cmp x y <= 0.

(** * Heap sort *)

Section heap.
Context (cmp : Z -> Z -> Z) `{!CmpLaws cmp}.

Lemma cmp_refl a : cmp a a <= 0.
Proof. pose proof (cmp_flip a a). lia. Qed.

Lemma cmp_ge a b : ~ cmp a b < 0 -> cmp b a <= 0.
Proof. rewrite cmp_flip. lia. Qed.

Lemma cmp_lt_le a b : cmp a b < 0 -> cmp a b <= 0.
Proof. lia. Qed.

Lemma length_swap l i j : length (swap l i j) = length l.
Proof. unfold swap. by rewrite !length_insert. Qed.

Lemma lookup_swap (l : list Z) i j k : (i < length l)%nat -> (j < length l)%nat ->
  swap l i j !!! k = if decide (k = j) then l !!! i else if decide (k = i) then l !!! j else l !!! k.
Proof.
  intros Hi Hj. unfold swap. destruct (decide (k = j)) as [->|Hkj].
  - apply list_lookup_total_insert_eq. by rewrite length_insert.
  - rewrite list_lookup_total_insert_ne by done. destruct (decide (k = i)) as [->|Hki].
    + by apply list_lookup_total_insert_eq.
    + by apply list_lookup_total_insert_ne.
Qed.

(** What a step of the sort may do: reorder the first [n] slots. *)
Definition reorders (n : nat) (l k : list Z) : Prop :=
  length k = length l /\ take n k ≡ₚ take n l /\ drop n k = drop n l.

Lemma reorders_refl n l : reorders n l l.
Proof. done. Qed.

Lemma reorders_trans n l1 l2 l3 : reorders n l1 l2 -> reorders n l2 l3 -> reorders n l1 l3.
Proof. intros (? & ? & ?) (? & ? & ?). split_and!; etrans; eauto. Qed.

Lemma reorders_swap (l : list Z) n i j :
  (i < n)%nat -> (j < n)%nat -> (n <= length l)%nat -> reorders n l (swap l i j).
Proof.
  intros Hi Hj Hn. split_and!; [apply length_swap| |].
  - unfold swap. rewrite !take_insert_lt by lia. apply Permutation_insert_swap.
    + rewrite lookup_take_lt by lia. apply list_lookup_lookup_total_lt. lia.
    + rewrite lookup_take_lt by lia. apply list_lookup_lookup_total_lt. lia.
  - unfold swap. by rewrite !drop_insert_lt by lia.
Qed.

Lemma reorders_mono n m l k : (n <= m)%nat -> reorders n l k -> reorders m l k.
Proof.
  intros Hnm (Hl & Ht & Hd). split_and!; [done| |].
  - replace m with (n + (m - n))%nat by lia. rewrite <- !take_take_drop, Ht, Hd. done.
  - replace m with (n + (m - n))%nat by lia. by rewrite <- !drop_drop, Hd.
Qed.

Lemma reorders_lookup n l k i : reorders n l k -> (n <= i)%nat -> k !!! i = l !!! i.
Proof.
  intros (_ & _ & Hd) Hi. rewrite !list_lookup_total_alt. f_equal.
  replace i with (n + (i - n))%nat by lia. rewrite <- !lookup_drop. by rewrite Hd.
Qed.

Lemma reorders_forall (P : Z -> Prop) n l k :
  reorders n l k -> (n <= length l)%nat ->
  (forall i, (i < n)%nat -> P (l !!! i)) -> forall i, (i < n)%nat -> P (k !!! i).
Proof.
  intros (Hl & Ht & _) Hn HP i Hi.
  assert (Forall P (take n k)) as HF.
  { rewrite Ht. apply Forall_lookup. intros j x Hj. apply lookup_take_Some in Hj as [Hj Hjn].
    apply list_lookup_total_correct in Hj as <-. auto. }
  rewrite Forall_lookup in HF. apply (HF i). rewrite lookup_take_lt by done.
  apply list_lookup_lookup_total_lt. lia.
Qed.

(** Every slot of [lo ..] below [n] is at least its children. *)
Definition heap_from (lo n : nat) (l : list Z) : Prop :=
  forall c, (0 < c < n)%nat -> (lo <= parent_idx c)%nat -> cmp (l !!! c) (l !!! parent_idx c) <= 0.

(** The same but for the slot [i], whose parent is at least its children. *)
Definition heap_but (i lo n : nat) (l : list Z) : Prop :=
  (forall c, (0 < c < n)%nat -> (lo <= parent_idx c)%nat -> parent_idx c <> i ->
     cmp (l !!! c) (l !!! parent_idx c) <= 0) /\
  (forall c, (0 < c < n)%nat -> parent_idx c = i -> (0 < i)%nat -> (lo <= parent_idx i)%nat ->
     cmp (l !!! c) (l !!! parent_idx i) <= 0).

Lemma parent_cases c i : (0 < c)%nat -> parent_idx c = i -> c = left_idx i \/ c = (left_idx i + 1)%nat.
Proof.
  unfold parent_idx, left_idx. intros Hc <-. pose proof (Nat.div_mod (c - 1) 2).
  pose proof (Nat.mod_upper_bound (c - 1) 2). lia.
Qed.

Lemma parent_left i : parent_idx (left_idx i) = i /\ parent_idx (left_idx i + 1) = i.
Proof.
  unfold parent_idx, left_idx. split.
  - replace (2 * i + 1 - 1)%nat with (i * 2)%nat by lia. by apply Nat.div_mul.
  - replace (2 * i + 1 + 1 - 1)%nat with (1 + i * 2)%nat by lia. by rewrite Nat.div_add.
Qed.

Lemma parent_lt c : (0 < c)%nat -> (parent_idx c < c)%nat.
Proof. intros. unfold parent_idx. apply Nat.Div0.div_lt_upper_bound. lia. Qed.

Lemma heap_but_done i lo n l :
  heap_but i lo n l ->
  (forall c, (0 < c < n)%nat -> parent_idx c = i -> cmp (l !!! c) (l !!! i) <= 0) -> heap_from lo n l.
Proof.
  intros [H1 _] H2 c Hc Hlo. destruct (decide (parent_idx c = i)) as [E|]; [rewrite E|]; auto.
Qed.

(** One swap of [i] with the larger child [next]. *)
Lemma heap_but_swap i next lo n l :
  (n <= length l)%nat -> (lo <= i)%nat -> (next < n)%nat -> (0 < next)%nat -> parent_idx next = i ->
  heap_but i lo n l -> cmp (l !!! i) (l !!! next) <= 0 ->
  (forall c, (0 < c < n)%nat -> parent_idx c = i -> cmp (l !!! c) (l !!! next) <= 0) ->
  heap_but next lo n (swap l i next).
Proof.
  intros Hn Hlo Hnx Hnx0 Hp [H1 H2] Hle Hch. pose proof (parent_lt next Hnx0).
  assert (forall k, swap l i next !!! k = if decide (k = next) then l !!! i else if decide (k = i) then l !!! next else l !!! k) as Hs.
  { intros k. apply lookup_swap; lia. }
  split.
  - intros c Hc Hlc Hpc. rewrite !Hs. pose proof (parent_lt c ltac:(lia)).
    destruct (decide (parent_idx c = next)); [done|].
    destruct (decide (c = next)) as [->|Hcn].
    { rewrite decide_True by done. done. }
    destruct (decide (parent_idx c = i)) as [Epi|Hpi].
    + destruct (decide (c = i)); [lia|]. by apply Hch.
    + destruct (decide (c = i)) as [->|].
      * apply (H2 next); [lia|done|lia|done].
      * by apply H1.
  - intros c Hc Hpc _ _. rewrite !Hs, Hp. pose proof (parent_lt c ltac:(lia)).
    destruct (decide (c = next)); [lia|]. destruct (decide (c = i)); [lia|].
    rewrite decide_False, decide_True by lia. rewrite <- Hpc. apply H1; [done|lia|lia].
Qed.

Lemma down_heap_spec fuel i lo n l :
  (n <= length l)%nat -> (i < n)%nat -> (n <= fuel + i)%nat -> (lo <= i)%nat -> heap_but i lo n l ->
  reorders n l (down_heap fuel cmp l i n) /\ heap_from lo n (down_heap fuel cmp l i n).
Proof.
  revert i l. induction fuel as [|fuel IH]; intros i l Hn Hi Hf Hlo Hb; [lia|].
  cbn [down_heap]. destruct (parent_left i) as [Pl Pr].
  destruct (Nat.leb_spec n (left_idx i)) as [Hl|Hl].
  { split; [apply reorders_refl|]. apply (heap_but_done i); [done|].
    intros c Hc [->| ->]%parent_cases; lia. }
  set (n1 := if cmp (l !!! i) (l !!! left_idx i) <? 0 then left_idx i else i).
  set (n2 := if Nat.ltb (left_idx i + 1) n && (cmp (l !!! n1) (l !!! (left_idx i + 1)%nat) <? 0)
             then (left_idx i + 1)%nat else n1).
  assert ((n1 = i \/ n1 = left_idx i) /\ cmp (l !!! i) (l !!! n1) <= 0 /\ cmp (l !!! left_idx i) (l !!! n1) <= 0)
    as (Hn1 & Hn1i & Hn1l).
  { subst n1. destruct (Z.ltb_spec (cmp (l !!! i) (l !!! left_idx i)) 0);
      (split; [auto|split]); auto using cmp_refl, cmp_lt_le. apply cmp_ge. lia. }
  assert ((n2 = n1 \/ n2 = (left_idx i + 1)%nat /\ (n2 < n)%nat) /\ cmp (l !!! n1) (l !!! n2) <= 0 /\
     ((left_idx i + 1 < n)%nat -> cmp (l !!! (left_idx i + 1)%nat) (l !!! n2) <= 0)) as (Hn2 & Hn12 & Hn2r).
  { subst n2. destruct (Nat.ltb_spec (left_idx i + 1) n); cbn [andb].
    - destruct (Z.ltb_spec (cmp (l !!! n1) (l !!! (left_idx i + 1)%nat)) 0); (split; [auto|split; intros]);
        auto using cmp_refl, cmp_lt_le. apply cmp_ge. lia.
    - split; [auto|split; [apply cmp_refl|lia]]. }
  assert (forall c, (0 < c < n)%nat -> parent_idx c = i -> cmp (l !!! c) (l !!! n2) <= 0) as Hch.
  { intros c Hc [->| ->]%parent_cases; [|apply Hn2r; lia|lia]. by eapply cmp_trans. }
  destruct (Nat.eqb_spec i n2) as [E|E].
  { split; [apply reorders_refl|]. apply (heap_but_done i); [done|]. intros c Hc Hp. rewrite E. auto. }
  assert (parent_idx n2 = i /\ (i < n2 < n)%nat) as [Hpn2 Hn2b].
  { unfold left_idx in *. destruct Hn2 as [->|[-> ?]]; [destruct Hn1 as [->| ->]|]; [done|split; [done|lia]..]. }
  destruct (IH n2 (swap l i n2)) as [Hr Hh]; rewrite ?length_swap; [lia..| |].
  { apply heap_but_swap; try done; try lia. by eapply cmp_trans. }
  split; [|done]. eapply reorders_trans; [|done]. apply reorders_swap; lia.
Qed.

Lemma heap_but_top i n l : heap_from (S i) n l -> heap_but i i n l.
Proof.
  intros Hh. split.
  - intros c Hc Hlc Hpc. apply Hh; [done|lia].
  - intros c Hc Hpc H0 Hlo. pose proof (parent_lt _ H0). lia.
Qed.

Lemma build_heap_spec i n l :
  (n <= length l)%nat -> (i < n)%nat -> heap_from (S i) n l ->
  reorders n l (build_heap cmp l n i) /\ heap_from 0 n (build_heap cmp l n i).
Proof.
  revert l. induction i as [|i IH]; intros l Hn Hi Hh; cbn [build_heap].
  - split; [apply down_heap_spec with (lo := O)|apply down_heap_spec with (lo := O)]; try lia; by apply heap_but_top.
  - destruct (down_heap_spec n (S i) (S i) n l) as [Hr Hd]; [lia..|by apply heap_but_top|].
    pose proof Hr as [Hl _]. destruct (IH (down_heap n cmp l (S i) n)) as [Hr' Hh']; [lia|lia|done|].
    split; [|done]. by eapply reorders_trans.
Qed.

Lemma heap_root n l k : heap_from 0 n l -> (k < n)%nat -> cmp (l !!! k) (l !!! 0%nat) <= 0.
Proof.
  intros Hh. induction (lt_wf k) as [k _ IH]. intros Hk. destruct (decide (k = 0)%nat) as [->|]; [apply cmp_refl|].
  pose proof (parent_lt k ltac:(lia)). eapply cmp_trans; [apply Hh; lia|]. apply IH; lia.
Qed.

(** The slots after [i] are sorted and at least those up to [i]. *)
Definition sorted_above (i n : nat) (l : list Z) : Prop :=
  forall j k, (j < k < n)%nat -> (i < k)%nat -> cmp (l !!! j) (l !!! k) <= 0.

Lemma pop_heap_spec i n l :
  (n <= length l)%nat -> (i < n)%nat -> heap_from 0 (S i) l -> sorted_above i n l ->
  reorders n l (pop_heap cmp l i) /\ sorted_above 0 n (pop_heap cmp l i).
Proof.
  revert l. induction i as [|i IH]; intros l Hn Hi Hh Hs; cbn [pop_heap]; [split; [apply reorders_refl|done]|].
  set (l1 := swap l 0 (S i)). set (l2 := down_heap (S i) cmp l1 0 (S i)).
  assert (reorders (S (S i)) l l1) as Hr1 by (apply reorders_swap; lia).
  pose proof Hr1 as [Hl1 _].
  assert (forall k, l1 !!! k = if decide (k = S i) then l !!! 0%nat else if decide (k = 0)%nat then l !!! S i else l !!! k)
    as Hl1k by (intros; apply lookup_swap; lia).
  destruct (down_heap_spec (S i) 0 0 (S i) l1) as [Hr2 Hh2]; [lia..| |fold l2 in Hr2, Hh2].
  { split; [|lia]. intros c Hc _ Hpc. rewrite !Hl1k, !decide_False by (pose proof (parent_lt c); lia).
    apply Hh; lia. }
  assert (sorted_above i n l2) as Hs2.
  { intros j k Hjk Hik. destruct (decide (S i <= j)%nat).
    - rewrite !(reorders_lookup (S i) l1 l2) by (done || lia). rewrite !Hl1k, !(decide_False (P := _ = 0%nat)) by lia.
      destruct (decide (j = S i)); [|rewrite decide_False by lia; apply Hs; lia].
      rewrite decide_False by lia. apply Hs; lia.
    - rewrite (reorders_lookup (S i) l1 l2 k) by (done || lia).
      assert (k < n)%nat by lia. revert j Hjk n0. cut (forall j, (j < S i)%nat -> cmp (l2 !!! j) (l1 !!! k) <= 0); [intros Hc; intros; apply Hc; lia|].
      apply (reorders_forall (fun x => cmp x (l1 !!! k) <= 0) _ l1 l2); [done|lia|]. intros j Hj.
      rewrite !Hl1k. rewrite (decide_False (P := j = S i)) by lia. destruct (decide (k = S i)).
      + destruct (decide (j = 0)%nat); apply (heap_root (S (S i))); done || lia.
      + rewrite (decide_False (P := k = 0%nat)) by lia. destruct (decide (j = 0)%nat); apply Hs; lia. }
  pose proof Hr2 as [Hl2 _].
  destruct (IH l2) as [Hr3 Hs3]; [lia|lia|done|done|].
  split; [|done]. eapply reorders_trans; [|done]. eapply reorders_trans; (eapply reorders_mono; [|done]); lia.
Qed.

Lemma heap_sort_spec n l :
  (2 <= n <= length l)%nat ->
  let k := pop_heap cmp (build_heap cmp l n (parent_idx (n - 1))) (n - 1) in
  reorders n l k /\ ascending cmp (take n k).
Proof.
  intros Hn k. pose proof (parent_lt (n - 1) ltac:(lia)).
  destruct (build_heap_spec (parent_idx (n - 1)) n l) as [Hr Hh]; [lia|lia| |].
  { intros c Hc Hp. exfalso. assert (parent_idx c <= parent_idx (n - 1))%nat; [|lia].
    apply Nat.Div0.div_le_mono. lia. }
  pose proof Hr as [Hl _].
  destruct (pop_heap_spec (n - 1) n (build_heap cmp l n (parent_idx (n - 1)))) as [Hr' Hs]; [lia|lia| | |].
  { by replace (S (n - 1)) with n by lia. } { intros j i ? ?. lia. }
  split; [by eapply reorders_trans|]. intros i j x y Hij Hx Hy.
  apply lookup_take_Some in Hx as [Hx ?], Hy as [Hy ?].
  apply list_lookup_total_correct in Hx as <-, Hy as <-. apply Hs; lia.
Qed.

End heap.

(** * Searches *)

Lemma find_from_split f l i a b :
  find_from f l i (a + b) =
    match find_from f l i a with Some k => Some k | None => find_from f l (i + a) b end.
Proof.
  revert i. induction a as [|a IH]; intros i; cbn [find_from Nat.add]; [by rewrite Nat.add_0_r|].
  destruct (f (l !!! i)); [done|]. rewrite IH. by replace (S i + a)%nat with (i + S a)%nat by lia.
Qed.

Lemma find_from_Some f l i n k :
  find_from f l i n = Some k <->
  (i <= k < i + n)%nat /\ f (l !!! k) = true /\ (forall j, (i <= j < k)%nat -> f (l !!! j) = false).
Proof.
  revert i. induction n as [|n IH]; intros i; cbn [find_from]; [split; [done|intros; lia]|].
  destruct (f (l !!! i)) eqn:Ef.
  - split; [intros [= <-]; split_and!; [lia|lia|done|intros; lia]|].
    intros (Hk & Hf & Hj). destruct (decide (k = i)) as [->|]; [done|]. rewrite Hj in Ef by lia. done.
  - rewrite IH. split.
    + intros (Hk & Hf & Hj). split_and!; [lia..|done|].
      intros j Hji. destruct (decide (j = i)) as [->|]; [done|]. apply Hj. lia.
    + intros (Hk & Hf & Hj). assert (k <> i) by congruence. split_and!; [lia..|done|].
      intros j Hji. apply Hj. lia.
Qed.

Lemma find_from_None f l i n :
  find_from f l i n = None <-> forall j, (i <= j < i + n)%nat -> f (l !!! j) = false.
Proof.
  revert i. induction n as [|n IH]; intros i; cbn [find_from]; [split; [intros; lia|done]|].
  destruct (f (l !!! i)) eqn:Ef.
  - split; [done|]. intros Hj. rewrite Hj in Ef by lia. done.
  - rewrite IH. split; intros Hj j Hji; [|apply Hj; lia].
    destruct (decide (j = i)) as [->|]; [done|]. apply Hj. lia.
Qed.

Section search.
Context (cmp : Z -> Z -> Z) `{!CmpLaws cmp}.

Lemma ascending_lookup n l i j :
  (n <= length l)%nat -> ascending cmp (take n l) -> (i <= j < n)%nat -> cmp (l !!! i) (l !!! j) <= 0.
Proof.
  intros Hn Ha Hij. destruct (decide (i = j)) as [->|]; [by apply cmp_refl|].
  apply (Ha i j); [lia|..]; rewrite lookup_take_lt by lia; apply list_lookup_lookup_total_lt; lia.
Qed.

(** On sorted slots the binary search finds what the linear one finds. *)
Lemma binary_search_eq p fuel n l lo hi :
  (n <= length l)%nat -> ascending cmp (take n l) ->
  (lo <= hi <= n)%nat -> (hi - lo < fuel)%nat ->
  binary_search fuel (cmp p) l lo hi = find_from (fun q => cmp p q =? 0) l lo (hi - lo).
Proof.
  intros Hn Ha. revert lo hi. induction fuel as [|fuel IH]; intros lo hi Hlh Hf; [lia|].
  cbn [binary_search]. destruct (Nat.ltb_spec lo hi) as [Hlt|Hge].
  2: { by replace (hi - lo)%nat with 0%nat by lia. }
  set (mid := (lo + (hi - lo - 1) / 2)%nat).
  assert (lo <= mid < hi)%nat as Hm.
  { subst mid. pose proof (Nat.Div0.div_le_upper_bound (hi - lo - 1) 2 (hi - lo - 1)). lia. }
  destruct (Z.gtb_spec (cmp p (l !!! mid)) 0) as [Hr|Hr].
  { rewrite IH by lia. replace (hi - lo)%nat with ((mid + 1 - lo) + (hi - (mid + 1)))%nat by lia.
    rewrite find_from_split. replace (lo + (mid + 1 - lo))%nat with (mid + 1)%nat by lia.
    rewrite (proj2 (find_from_None _ l lo (mid + 1 - lo))); [done|]. intros j Hj. apply Z.eqb_neq. intros E.
    pose proof (ascending_lookup n l j mid Hn Ha ltac:(lia)) as Hle.
    pose proof (cmp_trans p (l !!! j) (l !!! mid)). lia. }
  destruct (Z.ltb_spec (cmp p (l !!! mid)) 0) as [Hr'|Hr'].
  { rewrite IH by lia. replace (hi - lo)%nat with ((mid - lo) + (hi - mid))%nat by lia.
    rewrite find_from_split. replace (lo + (mid - lo))%nat with mid by lia.
    rewrite (proj2 (find_from_None _ l mid (hi - mid))); [by destruct (find_from _ l lo _)|].
    intros j Hj. apply Z.eqb_neq. intros E.
    pose proof (ascending_lookup n l mid j Hn Ha ltac:(lia)) as Hle.
    assert (cmp (l !!! j) p <= 0) as Hjp by (apply cmp_ge; [done|lia]).
    pose proof (cmp_trans _ _ _ Hle Hjp). pose proof (cmp_flip p (l !!! mid)). lia. }
  assert (cmp p (l !!! mid) = 0) as Hr0 by lia.
  destruct (Nat.eqb_spec (hi - lo) 1) as [H1|H1].
  { assert (mid = lo) as -> by lia. rewrite H1. cbn [find_from]. by rewrite Hr0. }
  assert (mid + 1 < hi)%nat.
  { subst mid. pose proof (Nat.Div0.div_lt_upper_bound (hi - lo - 1) 2 (hi - lo - 1)). lia. }
  rewrite IH by lia. replace (hi - lo)%nat with ((mid + 1 - lo) + (hi - (mid + 1)))%nat by lia.
  rewrite find_from_split. destruct (find_from _ l lo (mid + 1 - lo)) eqn:Ef; [done|].
  rewrite find_from_None in Ef. specialize (Ef mid ltac:(lia)). cbn in Ef. lia.
Qed.

(** Whatever the order, what the binary search returns compares equal. *)
Lemma binary_search_Some (f : Z -> Z) fuel l lo hi k :
  binary_search fuel f l lo hi = Some k -> (lo <= k < hi)%nat /\ f (l !!! k) = 0.
Proof.
  revert lo hi. induction fuel as [|fuel IH]; intros lo hi; cbn [binary_search]; [done|].
  destruct (Nat.ltb_spec lo hi) as [Hlt|]; [|done].
  set (mid := (lo + (hi - lo - 1) / 2)%nat).
  assert (lo <= mid < hi)%nat as Hm.
  { subst mid. pose proof (Nat.Div0.div_le_upper_bound (hi - lo - 1) 2 (hi - lo - 1)). lia. }
  clearbody mid.
  destruct (Z.gtb_spec (f (l !!! mid)) 0); [intros [? ?]%IH; split; [lia|done]|].
  destruct (Z.ltb_spec (f (l !!! mid)) 0); [intros [? ?]%IH; split; [lia|done]|].
  destruct (Nat.eqb _ _); [intros [= <-]; split; [done|lia]|].
  intros [? ?]%IH; split; [lia|done].
Qed.

End search.

(** * Pointers in memory *)

Definition is_word (x : Z) : Prop := 0 <= x < 2 ^ 64.

Lemma words_of_words l r :
  Forall is_word l -> words_of_bytes (bytes_of_words l ++ r) = l ++ words_of_bytes r.
Proof.
  intros Hl. induction Hl as [|x l Hx Hl IH]; [done|].
  change (bytes_of_words (x :: l)) with (le_bytes 8 x ++ bytes_of_words l). rewrite <- app_assoc.
  change (words_of_bytes (le_bytes 8 x ++ bytes_of_words l ++ r))
    with (be_val (be_bytes 8 x) :: words_of_bytes (bytes_of_words l ++ r)).
  rewrite IH, be_val_be_bytes_small; [done|]. exact Hx.
Qed.

Lemma length_bytes_of_words l : length (bytes_of_words l) = (8 * length l)%nat.
Proof.
  induction l as [|x l IH]; [done|].
  change (bytes_of_words (x :: l)) with (le_bytes 8 x ++ bytes_of_words l).
  rewrite length_app, IH, length_le_bytes. simpl. lia.
Qed.

Lemma bytes_of_words_ok l : bytes_ok (bytes_of_words l).
Proof.
  induction l as [|x l IH]; [apply bytes_ok_nil|].
  change (bytes_of_words (x :: l)) with (le_bytes 8 x ++ bytes_of_words l). solve_bytes.
Qed.

Lemma words_of_bytes_ok n b :
  bytes_ok b -> length b = (8 * n)%nat -> length (words_of_bytes b) = n /\ Forall is_word (words_of_bytes b).
Proof.
  revert b. induction n as [|n IH]; intros b Hok Hl; [by destruct b|].
  do 8 (destruct b as [|? b]; [simpl in Hl; lia|]). cbn [words_of_bytes length].
  simp_bytes. destruct (IH b) as [Hn Hw]; [done|simpl in Hl; lia|]. split; [by rewrite Hn|].
  constructor; [|done]. apply (be_val_bound [_; _; _; _; _; _; _; _]). solve_bytes.
Qed.

(** * Stacks as lists *)

Section spec.
Context {H : Type} `{MallocSpec H}.
Context {Cmp : Type} `{EqDecision Cmp} (call_cmp_func : Cmp -> Z -> Z -> Z).
Context `{!forall c, CmpLaws (call_cmp_func c)}.
Implicit Types sk : stack_st Cmp.

(** The pointers a stack holds. *)
Definition contents sk : list Z := take (num sk) (data sk).

Record sk_wf sk : Prop := {
  wf_data : Z.of_nat (length (data sk)) = num_alloc sk;
  wf_num : Z.of_nat (num sk) < num_alloc sk;
  wf_alloc : 4 <= num_alloc sk <= 2 ^ 32;
  wf_max : Z.of_nat (num sk) <= INT_MAX;
  wf_words : Forall is_word (data sk);
}.

(** The flag [sorted] tells the truth. *)
Definition sorted_ok sk : Prop :=
  sorted sk = true -> forall c, comp sk = Some c -> ascending (call_cmp_func c) (contents sk).

Definition insert_at (i : nat) (p : Z) (l : list Z) : list Z := take i l ++ p :: drop i l.

Lemma length_contents sk : sk_wf sk -> length (contents sk) = num sk.
Proof. intros [? ? ? ? ?]. unfold contents. rewrite length_take. lia. Qed.

(** ** Insertion *)

Lemma sk_new_alloc_spec na : 4 <= na <= 2 ^ 31 ->
  sk_new_alloc na = Some (2 * na) /\ u64 (2 * na * sizeof_ptr) = 16 * na.
Proof.
  intros Hna. unfold sk_new_alloc, sizeof_ptr, u64. cbv zeta beta.
  rewrite Z.shiftl_mul_pow2 by lia. change (2 ^ 1) with 2.
  rewrite !(Z.mod_small (na * 2)), (Z.mod_small (na * 2 * 8)) by lia.
  rewrite Z.div_mul, Z.eqb_refl by lia. destruct (Z.ltb_spec (na * 2) na); [lia|]. cbn [negb orb].
  rewrite (Z.mod_small (na * 2 * 8)), Z.div_mul, Z.eqb_refl by lia.
  destruct (Z.ltb_spec (na * 2) na); [lia|]. cbn [negb orb].
  split; [f_equal; lia|]. rewrite Z.mod_small; lia.
Qed.

Lemma sk_grow_ok sk h sk' h' :
  sk_wf sk -> Z.of_nat (num sk) < INT_MAX -> sk_grow sk h = (Some sk', h') ->
  sk_wf sk' /\ num sk' = num sk /\ contents sk' = contents sk /\ comp sk' = comp sk /\
  Z.of_nat (num sk') + 1 < num_alloc sk'.
Proof.
  intros Hwf Hn Hg. pose proof Hwf as [Hd Hu Ha Hm Hw]. unfold sk_grow in Hg. revert Hg.
  destruct (Z.leb_spec (num_alloc sk) (Z.of_nat (num sk) + 1)) as [Hle|Hle].
  2: { intros [= <- <-]. split_and!; done || lia. }
  destruct (sk_new_alloc_spec (num_alloc sk)) as [-> Hsz]; [unfold INT_MAX in *; lia|]. rewrite Hsz.
  intros Hg. st_inv. match goal with Hx : OPENSSL_realloc _ _ _ = _ |- _ =>
    apply OPENSSL_realloc_spec in Hx as (Hl & _ & Hb & Ht); [|lia] end. cbn [default from_option] in *. unfold id in *.
  unfold Zlen in *. rewrite length_bytes_of_words in Ht.
  destruct (words_of_bytes_ok (2 * length (data sk)) x) as [Hxl Hxw]; [apply Hb, bytes_of_words_ok|lia|].
  assert (take (length (data sk)) (words_of_bytes x) = data sk) as Hdata.
  { rewrite Z.min_l in Ht by lia. rewrite Nat2Z.id in Ht.
    rewrite (take_ge (bytes_of_words _)) in Ht by (rewrite length_bytes_of_words; lia).
    rewrite <- (take_drop (8 * length (data sk)) x), Ht, words_of_words by done. apply take_app_length. }
  assert (contents (Stack (num sk) (words_of_bytes x) (sorted sk) (2 * num_alloc sk) (comp sk)) = contents sk).
  { unfold contents. cbn [num data]. rewrite <- Hdata, take_take. f_equal. lia. }
  unfold INT_MAX in *. split_and!; cbn [num data num_alloc comp]; try done; try lia.
  split; cbn [num data num_alloc]; unfold INT_MAX in *; done || lia.
Qed.

Lemma insert_move p w n (l : list Z) : (w < n < length l)%nat ->
  take (S n) (<[w := p]> (move l (w + 1) w (n - w))) = insert_at w p (take n l) /\
  length (<[w := p]> (move l (w + 1) w (n - w))) = length l.
Proof.
  intros Hw. rewrite length_insert. unfold move, insert_at.
  assert (<[w := p]> (take (w + 1) l ++ take (n - w) (drop w l) ++ drop (w + 1 + (n - w)) l) =
    take w l ++ p :: take (n - w) (drop w l) ++ drop (S n) l) as ->.
  { destruct (lookup_lt_is_Some_2 l w ltac:(lia)) as [x Hx]. rewrite Nat.add_1_r, (take_S_r _ _ x) by done.
    rewrite <- app_assoc. rewrite insert_app_r_alt by (rewrite length_take; lia).
    rewrite length_take, Nat.min_l, Nat.sub_diag by lia. cbn. do 4 f_equal. lia. }
  rewrite take_take, Nat.min_l by lia. rewrite skipn_firstn_comm. split.
  - change (p :: take (n - w) (drop w l) ++ drop (S n) l) with ((p :: take (n - w) (drop w l)) ++ drop (S n) l).
    rewrite app_assoc. apply take_app_length'. rewrite length_app. cbn [length].
    rewrite !length_take, length_drop. lia.
  - rewrite !length_app, !length_take, !length_drop. lia.
Qed.

Lemma move_words l dst src n : Forall is_word l -> Forall is_word (move l dst src n).
Proof. intros. unfold move. rewrite !Forall_app. auto using Forall_take, Forall_drop. Qed.

Lemma sk_insert_cases sk p w h :
  sk_wf sk -> is_word p ->
  (exists h', OPENSSL_sk_insert (Some sk) p w h = ((O, Some sk), h') /\
     (Z.of_nat (num sk) = INT_MAX \/ sk_grow sk h = (None, h'))) \/
  (exists sk' h', OPENSSL_sk_insert (Some sk) p w h = ((S (num sk), Some sk'), h') /\
     sk_wf sk' /\ contents sk' = insert_at w p (contents sk) /\ sorted sk' = false /\ comp sk' = comp sk).
Proof.
  intros Hwf Hp. pose proof (wf_max _ Hwf). unfold OPENSSL_sk_insert.
  destruct (Z.geb_spec (Z.of_nat (num sk)) INT_MAX); [left; exists h; split; [done|left; lia]|].
  destruct (sk_grow sk h) as [[sk1|] h'] eqn:Eg; [right|left; eauto].
  destruct (sk_grow_ok _ _ _ _ Hwf ltac:(lia) Eg) as (Hwf1 & Hn & Hc & Hcomp & Hroom).
  pose proof Hwf1 as [Hd Hu Ha Hm Hw]. rewrite <- Hc, <- Hcomp, <- Hn. unfold contents.
  destruct (Nat.leb_spec (num sk1) w) as [Hle|Hlt].
  - eexists _, h'. split; [done|]. split_and!; cbn [num data sorted comp]; [|..|done|done].
    + split; cbn [num data num_alloc]; rewrite ?length_insert; try (done || lia). by apply Forall_insert.
    + unfold insert_at. rewrite take_take, Nat.min_r, drop_ge by (rewrite ?length_take; lia).
      rewrite take_insert_lt by lia. destruct (lookup_lt_is_Some_2 (data sk1) (num sk1) ltac:(lia)) as [x Hx].
      rewrite (take_S_r _ _ x) by done. rewrite insert_app_r_alt by (rewrite length_take; lia).
      rewrite length_take, Nat.min_l, Nat.sub_diag by lia. done.
  - destruct (insert_move p w (num sk1) (data sk1)) as [Ht Hl]; [lia|].
    eexists _, h'. split; [done|]. split_and!; cbn [num data sorted comp]; [|done..].
    split; cbn [num data num_alloc]; rewrite ?Hl; try (done || lia).
    apply Forall_insert; [by apply move_words|done].
Qed.

(** ** Deletion *)

Lemma move_delete w n (l : list Z) : (w < n <= length l)%nat ->
  take (n - 1) (move l w (w + 1) (n - w - 1)) = delete w (take n l) /\
  length (move l w (w + 1) (n - w - 1)) = length l.
Proof.
  intros Hw. unfold move. rewrite delete_take_drop, take_take, Nat.min_l, skipn_firstn_comm by lia.
  replace (w + 1)%nat with (S w) by lia. replace (n - S w)%nat with (n - w - 1)%nat by lia. split.
  - rewrite app_assoc. apply take_app_length'. rewrite length_app, !length_take, length_drop. lia.
  - rewrite !length_app, !length_take, !length_drop. lia.
Qed.

Lemma sk_delete_ok w sk :
  sk_wf sk -> (w < num sk)%nat ->
  sk_wf (snd (sk_delete w sk)) /\ fst (sk_delete w sk) = contents sk !!! w /\
  contents (snd (sk_delete w sk)) = delete w (contents sk) /\
  comp (snd (sk_delete w sk)) = comp sk /\ sorted (snd (sk_delete w sk)) = sorted sk.
Proof.
  intros [Hd Hu Ha Hm Hw] Hlt. unfold sk_delete.
  destruct (Nat.leb_spec (num sk) w); [lia|]. cbn [fst snd comp sorted].
  destruct (move_delete w (num sk) (data sk)) as [Ht Hl]; [lia|]. split_and!; [| | |done|done].
  - split; cbn [num data num_alloc]; try lia; destruct (Nat.eqb_spec w (num sk - 1)); cbn [negb];
      rewrite ?Hl; auto using move_words.
  - unfold contents. by rewrite !list_lookup_total_alt, lookup_take_lt.
  - unfold contents. cbn [num data]. destruct (Nat.eqb_spec w (num sk - 1)) as [->|]; cbn [negb]; [|done].
    rewrite delete_take_drop, take_take, Nat.min_l, (drop_ge (take _ _)), app_nil_r; [done|rewrite length_take|]; lia.
Qed.

Lemma sk_delete_out w sk : (num sk <= w)%nat -> sk_delete w sk = (NULL, sk).
Proof. intros. unfold sk_delete. by destruct (Nat.leb_spec (num sk) w); [|lia]. Qed.

Lemma delete_if_loop_ok {D} (f : Z -> D -> bool * D) n l i m d :
  (m <= i)%nat -> (i + n <= length l)%nat ->
  let '(l', m', d') := delete_if_loop f l i m n d in
  take m' l' = take m l ++ fst (filter_state f (take n (drop i l)) d) /\
  d' = snd (filter_state f (take n (drop i l)) d) /\
  length l' = length l /\ (m' <= m + n)%nat /\ (Forall is_word l -> Forall is_word l').
Proof.
  revert l i m d. induction n as [|n IH]; intros l i m d Hm Hi; cbn [delete_if_loop].
  { cbn. rewrite app_nil_r. split_and!; done || lia. }
  destruct (lookup_lt_is_Some_2 l i ltac:(lia)) as [x Hx].
  rewrite (drop_S _ _ _ Hx). rewrite (list_lookup_total_correct _ _ _ Hx). cbn [take filter_state].
  destruct (f x d) as [[] d1].
  - specialize (IH l (S i) m d1). destruct (delete_if_loop _ _ _ _ _ _) as [[l' m'] d'].
    destruct (filter_state f _ d1) as [k dk]. destruct IH as (? & ? & ? & ? & ?); [lia..|].
    split_and!; done || lia.
  - specialize (IH (<[m := x]> l) (S i) (S m) d1). rewrite length_insert, drop_insert_lt in IH by lia.
    destruct (delete_if_loop _ _ _ _ _ _) as [[l' m'] d'].
    destruct (filter_state f _ d1) as [k dk]. destruct IH as (IH1 & ? & ? & ? & IH5); [lia..|].
    split_and!; [|done|done|lia|].
    + rewrite IH1. destruct (lookup_lt_is_Some_2 (<[m := x]> l) m) as [y Hy]; [rewrite length_insert; lia|].
      rewrite (take_S_r _ _ y Hy), take_insert_ge, <- app_assoc by lia. cbn. do 2 f_equal.
      rewrite list_lookup_insert_eq in Hy by lia. congruence.
    + intros Hw. apply IH5, Forall_insert; [done|]. rewrite Forall_lookup in Hw. eauto.
Qed.

(** ** Sorting *)

Lemma sk_sort_ok sk : sk_wf sk ->
  exists sk', OPENSSL_sk_sort call_cmp_func (Some sk) = Some sk' /\ sk_wf sk' /\
    contents sk' ≡ₚ contents sk /\ comp sk' = comp sk /\ num sk' = num sk /\
    (sorted_ok sk -> sorted_ok sk') /\ (comp sk <> None -> sorted sk' = true).
Proof.
  intros Hwf. pose proof Hwf as [Hd Hu Ha Hm Hw]. unfold OPENSSL_sk_sort, on_sk.
  destruct (comp sk) as [c|] eqn:Ec; [|exists sk; split_and!; done].
  destruct (sorted sk) eqn:Es; [exists sk; split_and!; try done|].
  eexists. cbn [snd]. split; [done|]. unfold sorted_ok, contents. cbn [num data comp sorted].
  destruct (Nat.leb_spec 2 (num sk)) as [H2n|H2n].
  - destruct (heap_sort_spec (call_cmp_func c) (num sk) (data sk)) as [(Hl & Ht & Hdr) Hasc]; [lia|].
    split_and!; try done.
    + split; cbn [num data num_alloc]; rewrite ?Hl; try done.
      rewrite <- (take_drop (num sk)), Forall_app, Ht, Hdr, <- Forall_app, take_drop. done.
    + intros _ _ c' [= <-]. done.
  - split_and!; try done. intros _ _ c' [= <-] i j x y Hij Hx Hy.
    apply lookup_lt_Some in Hy. rewrite length_take in Hy. lia.
Qed.

(** ** Order *)

Lemma ascending_cons (cmp : Z -> Z -> Z) x l :
  ascending cmp (x :: l) <-> Forall (fun y => cmp x y <= 0) l /\ ascending cmp l.
Proof.
  split.
  - intros Ha. split; [apply Forall_lookup; intros j y Hj; by apply (Ha O (S j)); [lia|..]|].
    intros i j y z Hij Hy Hz. by apply (Ha (S i) (S j)); [lia|..].
  - intros [Hf Ha] [|i] [|j] y z Hij Hy Hz; try lia; cbn in *; simplify_eq.
    + rewrite Forall_lookup in Hf. eauto.
    + by apply (Ha i j); [lia|..].
Qed.

Lemma ascending_sublist (cmp : Z -> Z -> Z) l k : l `sublist_of` k -> ascending cmp k -> ascending cmp l.
Proof.
  intros Hs. induction Hs as [|x l k Hs IH|x l k Hs IH]; [done|..].
  - rewrite !ascending_cons. intros [Hf Ha]. split; [|auto]. rewrite Forall_forall in *. intros y Hy.
    apply Hf. eapply elem_of_submseteq; [exact Hy|by apply sublist_submseteq].
  - rewrite ascending_cons. tauto.
Qed.

Lemma sorted_ok_sublist sk sk' :
  sorted_ok sk -> contents sk' `sublist_of` contents sk -> comp sk' = comp sk -> sorted sk' = sorted sk ->
  sorted_ok sk'.
Proof. intros Hs Hsub Hc He Ht c Hc'. rewrite Hc in Hc'. rewrite He in Ht. eapply ascending_sublist; eauto. Qed.


(** ** Creation *)

Lemma sk_new_ok c h sk h' : OPENSSL_sk_new c h = (Some sk, h') ->
  sk_wf sk /\ contents sk = [] /\ comp sk = c /\ sorted sk = false.
Proof.
  unfold OPENSSL_sk_new. intros Hn. st_inv.
  match goal with Hx : OPENSSL_calloc _ _ _ = _ |- _ => unfold OPENSSL_calloc, OPENSSL_zalloc in Hx;
    change (negb (sizeof_ptr =? 0) && (kMinSize >? SIZE_MAX / sizeof_ptr)) with false in Hx; cbn iota in Hx end.
  st_inv. match goal with Hx : OPENSSL_malloc (u64 _) _ = (Some ?b, _) |- _ =>
    apply OPENSSL_malloc_spec in Hx as (Hl & _); [|done];
    change (u64 (kMinSize * sizeof_ptr)) with 32 in Hl; unfold Zlen in Hl; replace (length b) with 32%nat by lia end.
  change (words_of_bytes (replicate 32 0)) with (replicate 4 0).
  split_and!; try done. split; cbn; try done; unfold INT_MAX; try lia. repeat constructor; done.
Qed.

Lemma sk_dup_ok sk h sk' h' : sk_wf sk -> OPENSSL_sk_dup (Some sk) h = (Some sk', h') -> sk' = sk.
Proof.
  intros [Hd Hu Ha Hm Hw]. unfold OPENSSL_sk_dup. intros Hdup.
  assert (u64 (sizeof_ptr * num_alloc sk) = Z.of_nat (length (bytes_of_words (data sk)))) as E.
  { rewrite length_bytes_of_words. unfold u64, sizeof_ptr. rewrite Z.mod_small; lia. }
  rewrite E in Hdup. st_inv. match goal with Hx : OPENSSL_memdup _ _ _ = _ |- _ =>
    apply OPENSSL_memdup_spec in Hx; [subst|unfold Zlen; lia] end.
  rewrite Nat2Z.id, take_ge by done.
  rewrite <- (app_nil_r (bytes_of_words _)), words_of_words, app_nil_r by done. by destruct sk.
Qed.

(** ** Overwriting *)

Lemma ascending_overwrite (cmp : Z -> Z -> Z) l i v :
  ascending cmp l ->
  (forall j q, l !! j = Some q -> ((j < i)%nat -> cmp q v <= 0) /\ ((i < j)%nat -> cmp v q <= 0)) ->
  ascending cmp (<[i := v]> l).
Proof.
  intros Ha Hv j k x y Hjk Hx Hy.
  apply list_lookup_insert_Some in Hx as [(<- & <- & _)|[Hji Hx]],
    Hy as [(<- & <- & _)|[Hki Hy]]; [lia|by apply (Hv k)|by apply (Hv j)|by eapply Ha].
Qed.

Lemma sk_set_ok sk i v r sk' : sk_wf sk -> is_word v -> OPENSSL_sk_set (Some sk) i v = (r, Some sk') ->
  sk_wf sk' /\ contents sk' = <[i := v]> (contents sk) /\ comp sk' = comp sk /\ sorted sk' = sorted sk.
Proof.
  intros Hwf Hv Hs. pose proof Hwf as [Hd Hu Ha Hm Hw]. unfold OPENSSL_sk_set, on_sk in Hs.
  destruct (Nat.leb_spec (num sk) i); simplify_eq.
  - split_and!; try done. by rewrite list_insert_ge by (rewrite length_contents; done).
  - split_and!; try done.
    + split; cbn [num data num_alloc]; rewrite ?length_insert; try done. by apply Forall_insert.
    + unfold contents. cbn [num data]. by rewrite take_insert_lt.
Qed.

(** The pointer stored at [i] is not before its predecessors nor after its
    successors, when there is a place [i] and an order to keep. *)
Definition set_fits sk (i : nat) (v : Z) : Prop :=
  forall c j q, sorted sk = true -> comp sk = Some c -> (i < num sk)%nat -> contents sk !! j = Some q ->
    ((j < i)%nat -> call_cmp_func c q v <= 0) /\ ((i < j)%nat -> call_cmp_func c v q <= 0).

Lemma sk_set_sorted sk i v r sk' :
  sk_wf sk -> is_word v -> OPENSSL_sk_set (Some sk) i v = (r, Some sk') -> set_fits sk i v ->
  sorted_ok sk -> sorted_ok sk'.
Proof.
  intros Hwf Hv Hs Hf Hok Hso c Hc. apply sk_set_ok in Hs as (_ & -> & Hco & Hst); [|done..].
  rewrite Hco in Hc. rewrite Hst in Hso. destruct (decide (i < num sk)%nat).
  - apply ascending_overwrite; [by apply Hok|]. intros j q Hq. by apply (Hf c j q).
  - rewrite list_insert_ge by (rewrite length_contents; [lia|done]). by apply Hok.
Qed.

(** ** Deep copies *)

(** [q] is what a deep copy has for [p]: NULL is not copied. *)
Definition copied (call_copy_func : Z -> ST H Z) (p q : Z) : Prop :=
  (p = NULL /\ q = NULL) \/ (p <> NULL /\ exists h h', call_copy_func p h = (Some q, h')).

(** The copying function returns addresses. *)
Definition copies_words (call_copy_func : Z -> ST H Z) : Prop :=
  forall p h q h', call_copy_func p h = (Some q, h') -> is_word q.

(** Copies compare as what they are copies of. *)
Definition copies_ordered (call_copy_func : Z -> ST H Z) (c : Cmp) : Prop :=
  forall p q p' q', copied call_copy_func p p' -> copied call_copy_func q q' ->
    call_cmp_func c p q <= 0 -> call_cmp_func c p' q' <= 0.

Lemma deep_copy_loop_ok f n l i h l' h' :
  deep_copy_loop f l i n h = (inl l', h') -> (i + n <= length l)%nat ->
  length l' = length l /\
  (forall j, (i <= j < i + n)%nat -> copied f (l !!! j) (l' !!! j)) /\
  (forall j, ~ (i <= j < i + n)%nat -> l' !!! j = l !!! j).
Proof.
  revert l i h. induction n as [|n IH]; intros l i h Hl Hi; cbn [deep_copy_loop] in Hl.
  { simplify_eq. split_and!; [done|lia|done]. }
  destruct (Z.eqb_spec (l !!! i) NULL) as [Hnull|Hnull].
  - destruct (IH l (S i) h Hl ltac:(lia)) as (Hlen & Hin & Hout). split_and!; [done| |].
    + intros j Hj. destruct (decide (j = i)) as [->|]; [|apply Hin; lia].
      rewrite Hout by lia. by left.
    + intros j Hj. apply Hout. lia.
  - destruct (f (l !!! i) h) as [[c|] h1] eqn:Ef; [|done].
    destruct (IH (<[i := c]> l) (S i) h1 Hl) as (Hlen & Hin & Hout); [rewrite length_insert; lia|].
    rewrite length_insert in Hlen. split_and!; [done| |].
    + intros j Hj. destruct (decide (j = i)) as [->|].
      * rewrite Hout, list_lookup_total_insert_eq by lia. right. eauto.
      * rewrite <- (list_lookup_total_insert_ne l i j c) by done. apply Hin. lia.
    + intros j Hj. rewrite Hout by lia. apply list_lookup_total_insert_ne. lia.
Qed.

Lemma copied_words f p q : copies_words f -> copied f p q -> is_word q.
Proof. intros Hw [[_ ->]|[_ (h & h' & E)]]; [done|by eapply Hw]. Qed.

Lemma sk_deep_copy_ok f sk h sk' freed h' :
  sk_wf sk -> copies_words f -> OPENSSL_sk_deep_copy (Some sk) f h = ((Some sk', freed), h') ->
  sk_wf sk' /\ Forall2 (copied f) (contents sk) (contents sk') /\
  comp sk' = comp sk /\ sorted sk' = sorted sk /\ freed = [].
Proof.
  intros Hwf Hf Hdc. pose proof Hwf as [Hd Hu Ha Hm Hw]. unfold OPENSSL_sk_deep_copy in Hdc.
  destruct (OPENSSL_sk_dup (Some sk) h) as [[ret|] h1] eqn:Edup; [|done].
  apply sk_dup_ok in Edup as ->; [|done].
  destruct (deep_copy_loop f (data sk) 0 (num sk) h1) as [[l|] h2] eqn:El; [|done]. simplify_eq.
  destruct (deep_copy_loop_ok f (num sk) (data sk) 0 h1 l h' El ltac:(lia)) as (Hlen & Hin & Hout).
  split_and!; try done.
  - split; cbn [num data num_alloc]; rewrite ?Hlen; try done.
    apply Forall_lookup. intros j x Hx. apply list_lookup_total_correct in Hx as <-.
    destruct (decide (j < num sk)%nat); [eapply copied_words; [done|]; apply Hin; lia|].
    rewrite Hout by lia. destruct (decide (j < length (data sk))%nat).
    + rewrite Forall_lookup in Hw. apply (Hw j). by apply list_lookup_lookup_total_lt.
    + rewrite list_lookup_total_alt, lookup_ge_None_2 by lia. done.
  - apply Forall2_same_length_lookup_2; unfold contents; cbn [num data]; [rewrite !length_take; lia|].
    intros j x y Hx Hy. apply lookup_take_Some in Hx as [Hx Hj], Hy as [Hy _].
    apply list_lookup_total_correct in Hx as <-, Hy as <-. apply Hin. lia.
Qed.

Lemma sk_deep_copy_sorted f sk h sk' freed h' :
  sk_wf sk -> copies_words f -> OPENSSL_sk_deep_copy (Some sk) f h = ((Some sk', freed), h') ->
  (forall c, sorted sk = true -> comp sk = Some c -> copies_ordered f c) ->
  sorted_ok sk -> sorted_ok sk'.
Proof.
  intros Hwf Hf Hdc Ho Hok Hso c Hc. apply sk_deep_copy_ok in Hdc as (_ & Hcp & Hco & Hst & _); [|done..].
  rewrite Hco in Hc. rewrite Hst in Hso. intros i j x y Hij Hx Hy.
  eapply Forall2_lookup_r in Hx as (p & Hp & Hpx); [|done]. eapply Forall2_lookup_r in Hy as (q & Hq & Hqy); [|done].
  eapply (Ho c); [done..|]. by apply (Hok Hso c Hc i j).
Qed.

Lemma deep_copy_loop_fails f n l i h freed h' :
  deep_copy_loop f l i n h = (inr freed, h') -> (i + n <= length l)%nat ->
  exists m k, (m <= n)%nat /\ Forall2 (copied f) (take m (drop i l)) k /\
    freed = filter (fun p => p <> NULL) (take i l ++ k).
Proof.
  revert l i h. induction n as [|n IH]; intros l i h Hl Hi; cbn [deep_copy_loop] in Hl; [done|].
  destruct (lookup_lt_is_Some_2 l i ltac:(lia)) as [x Hx].
  rewrite (list_lookup_total_correct _ _ _ Hx) in Hl. rewrite (drop_S _ _ _ Hx).
  destruct (Z.eqb_spec x NULL) as [Hnull|Hnull].
  - apply IH in Hl as (m & k & Hm & Hk & ->); [|lia]. exists (S m), (x :: k).
    split_and!; [lia|cbn [take]; constructor; [by left|done]|].
    by rewrite (take_S_r _ _ _ Hx), <- app_assoc.
  - destruct (f x h) as [[c|] h1] eqn:Ef.
    + apply IH in Hl as (m & k & Hm & Hk & ->); [|rewrite length_insert; lia]. exists (S m), (c :: k).
      rewrite drop_insert_lt in Hk by lia.
      split_and!; [lia|cbn [take]; constructor; [right; eauto|done]|].
      rewrite (take_S_r _ _ c) by (apply list_lookup_insert_eq; lia).
      by rewrite take_insert_ge, <- app_assoc by lia.
    + simplify_eq. exists O, []. split_and!; [lia|constructor|]. by rewrite app_nil_r.
Qed.

Lemma sk_deep_copy_fails f sk h freed h' :
  sk_wf sk -> OPENSSL_sk_deep_copy (Some sk) f h = ((None, freed), h') ->
  exists i k, (i <= num sk)%nat /\ Forall2 (copied f) (take i (contents sk)) k /\
    freed = filter (fun p => p <> NULL) k.
Proof.
  intros Hwf Hdc. pose proof Hwf as [Hd Hu Ha Hm Hw]. unfold OPENSSL_sk_deep_copy in Hdc.
  destruct (OPENSSL_sk_dup (Some sk) h) as [[ret|] h1] eqn:Edup.
  2: { simplify_eq. exists O, []. split_and!; [lia|constructor|done]. }
  apply sk_dup_ok in Edup as ->; [|done].
  destruct (deep_copy_loop f (data sk) 0 (num sk) h1) as [[l|r] h2] eqn:El; simplify_eq.
  apply deep_copy_loop_fails in El as (m & k & Hmn & Hk & ->); [|lia].
  exists m, k. split_and!; [done| |done]. unfold contents. by rewrite take_take, Nat.min_l.
Qed.

(** * Reachable stacks *)

(** The stacks a caller can make.  The boolean says that no pointer of a stack
    marked sorted was replaced, by [sk_set] or by a deep copy, by one that is
    out of order: [stack.c] does not clear the mark then.  An unmarked stack
    has nothing to keep, so its history is forgotten. *)
Inductive sk_reachable : bool -> stack_st Cmp -> Prop :=
| reach_new c h sk h' : OPENSSL_sk_new c h = (Some sk, h') -> sk_reachable true sk
| reach_insert o sk p w h r sk' h' :
    sk_reachable o sk -> is_word p ->
    OPENSSL_sk_insert (Some sk) p w h = ((r, Some sk'), h') -> sk_reachable o sk'
| reach_zero o sk sk' : sk_reachable o sk -> OPENSSL_sk_zero (Some sk) = Some sk' -> sk_reachable o sk'
| reach_set o o' sk i v r sk' :
    sk_reachable o sk -> is_word v -> OPENSSL_sk_set (Some sk) i v = (r, Some sk') ->
    (o' = true -> o = true /\ set_fits sk i v) -> sk_reachable o' sk'
| reach_delete o sk w p sk' :
    sk_reachable o sk -> OPENSSL_sk_delete (Some sk) w = (p, Some sk') -> sk_reachable o sk'
| reach_delete_ptr o sk q p sk' :
    sk_reachable o sk -> OPENSSL_sk_delete_ptr (Some sk) q = (p, Some sk') -> sk_reachable o sk'
| reach_delete_if D o sk (f : Z -> D -> bool * D) d d' sk' :
    sk_reachable o sk -> OPENSSL_sk_delete_if (Some sk) f d = (d', Some sk') -> sk_reachable o sk'
| reach_shift o sk p sk' : sk_reachable o sk -> OPENSSL_sk_shift (Some sk) = (p, Some sk') -> sk_reachable o sk'
| reach_pop o sk p sk' : sk_reachable o sk -> OPENSSL_sk_pop (Some sk) = (p, Some sk') -> sk_reachable o sk'
| reach_sort o sk sk' :
    sk_reachable o sk -> OPENSSL_sk_sort call_cmp_func (Some sk) = Some sk' -> sk_reachable o sk'
| reach_set_cmp o sk c old sk' :
    sk_reachable o sk -> OPENSSL_sk_set_cmp_func sk c = (old, sk') -> sk_reachable o sk'
| reach_dup o sk h sk' h' :
    sk_reachable o sk -> OPENSSL_sk_dup (Some sk) h = (Some sk', h') -> sk_reachable o sk'
| reach_deep_copy o o' sk f h sk' freed h' :
    sk_reachable o sk -> copies_words f -> OPENSSL_sk_deep_copy (Some sk) f h = ((Some sk', freed), h') ->
    (o' = true -> o = true /\ forall c, sorted sk = true -> comp sk = Some c -> copies_ordered f c) ->
    sk_reachable o' sk'
| reach_unsorted o sk : sk_reachable o sk -> sorted sk = false -> sk_reachable true sk.

Definition sk_ok (o : bool) sk : Prop := sk_wf sk /\ (o = true -> sorted_ok sk).

Lemma sk_delete_keeps o w sk : sk_ok o sk -> sk_ok o (snd (sk_delete w sk)).
Proof.
  intros [Hwf Hs]. destruct (decide (w < num sk)%nat).
  - destruct (sk_delete_ok w sk) as (? & _ & Hc & ? & ?); [done..|]. split; [done|]. intros Ho.
    eapply sorted_ok_sublist; [by apply Hs| |done..]. rewrite Hc. apply sublist_delete.
  - rewrite sk_delete_out by lia. done.
Qed.

Lemma sk_zero_ok sk : sk_wf sk ->
  exists sk', OPENSSL_sk_zero (Some sk) = Some sk' /\ sk_wf sk' /\ contents sk' = [] /\ comp sk' = comp sk /\
    (sorted_ok sk -> sorted_ok sk').
Proof.
  intros Hwf. pose proof Hwf as [Hd Hu Ha Hm Hw]. unfold OPENSSL_sk_zero, on_sk. cbn [snd].
  destruct (Nat.eqb_spec (num sk) 0) as [E|E].
  - exists sk. split_and!; try done. unfold contents. by rewrite E.
  - eexists. split; [done|]. split_and!; try done.
    split; cbn [num data num_alloc]; try lia.
    + rewrite length_app, length_replicate, length_drop. lia.
    + apply Forall_app. split; [by apply Forall_replicate|by apply Forall_drop].
Qed.

Lemma sk_delete_if_ok {D} (f : Z -> D -> bool * D) d sk : sk_wf sk ->
  exists sk', OPENSSL_sk_delete_if (Some sk) f d = (snd (filter_state f (contents sk) d), Some sk') /\
    sk_wf sk' /\ contents sk' = fst (filter_state f (contents sk) d) /\
    comp sk' = comp sk /\ sorted sk' = sorted sk.
Proof.
  intros [Hd Hu Ha Hm Hw]. unfold OPENSSL_sk_delete_if, on_sk.
  pose proof (delete_if_loop_ok f (num sk) (data sk) 0 0 d ltac:(lia) ltac:(lia)) as Hl.
  destruct (delete_if_loop f (data sk) 0 0 (num sk) d) as [[l m] d']. cbn [Nat.add drop take app] in Hl.
  destruct Hl as (Ht & -> & Hlen & Hmn & HW). eexists. split; [done|]. split_and!; try done.
  split; cbn [num data num_alloc]; rewrite ?Hlen; try lia. auto.
Qed.

Lemma sk_reachable_ok o sk : sk_reachable o sk -> sk_ok o sk.
Proof.
  intros Hr. induction Hr as [c h sk h' Hn|o sk p w h r sk' h' _ [Hwf Hs] Hp Hi|o sk sk' _ [Hwf Hs] Hz
    |o o' sk i v r sk' _ [Hwf Hs] Hv Hst Hfit|o sk w p sk' _ Hok Hdl|o sk q p sk' _ Hok Hdl
    |D o sk f d d' sk' _ [Hwf Hs] Hdl|o sk p sk' _ Hok Hdl|o sk p sk' _ Hok Hdl
    |o sk sk' _ [Hwf Hs] Hso|o sk c old sk' _ [Hwf Hs] Hsc|o sk h sk' h' _ [Hwf Hs] Hdu
    |o o' sk f h sk' freed h' _ [Hwf Hs] Hf Hdc Hord|o sk _ [Hwf _] Huns].
  - apply sk_new_ok in Hn as (? & _ & _ & Hs). split; [done|]. intros _ ?. congruence.
  - destruct (sk_insert_cases sk p w h) as [(h2 & E & _)|(sk2 & h2 & E & Hwf2 & _ & Hs2 & _)]; [done..| |];
      rewrite E in Hi; simplify_eq; [done|]. split; [done|]. intros _ ?. congruence.
  - destruct (sk_zero_ok sk Hwf) as (sk2 & E & ? & _ & _ & ?). rewrite E in Hz. simplify_eq. split; auto.
  - split; [by eapply sk_set_ok|]. intros [-> Hfits]%Hfit. eapply sk_set_sorted; eauto.
  - apply (sk_delete_keeps o w) in Hok. unfold OPENSSL_sk_delete, on_sk in Hdl.
    destruct (sk_delete w sk). by simplify_eq.
  - unfold OPENSSL_sk_delete_ptr, on_sk in Hdl. destruct (find_from _ _ _ _) as [i|]; [|by simplify_eq].
    apply (sk_delete_keeps o i) in Hok. destruct (sk_delete i sk). by simplify_eq.
  - destruct (sk_delete_if_ok f d sk Hwf) as (sk2 & E & ? & Hc & ? & ?). rewrite E in Hdl. simplify_eq.
    split; [done|]. intros Ho. eapply sorted_ok_sublist; [by apply Hs| |done..].
    rewrite Hc. apply filter_state_sublist.
  - unfold OPENSSL_sk_shift, on_sk in Hdl. destruct (Nat.eqb _ _); [by simplify_eq|].
    apply (sk_delete_keeps o 0) in Hok. destruct (sk_delete 0 sk). by simplify_eq.
  - unfold OPENSSL_sk_pop, on_sk in Hdl. destruct (Nat.eqb _ _); [by simplify_eq|].
    apply (sk_delete_keeps o (num sk - 1)) in Hok. destruct (sk_delete _ sk). by simplify_eq.
  - destruct (sk_sort_ok sk Hwf) as (sk2 & E & ? & _ & _ & _ & ? & _). rewrite E in Hso. simplify_eq. split; auto.
  - unfold OPENSSL_sk_set_cmp_func in Hsc. simplify_eq. split; [by destruct Hwf|].
    intros Ho Hs2 c2. cbn in *. case_bool_decide as Hc; [done|].
    destruct (decide (comp sk = c)) as [<-|]; [|done]. intros. by apply Hs.
  - apply sk_dup_ok in Hdu as ->; done.
  - split; [by eapply sk_deep_copy_ok|]. intros [-> Hcp]%Hord. eapply sk_deep_copy_sorted; eauto.
  - split; [done|]. intros _ ?. congruence.
Qed.

(** * Theorems *)

(** What [sk_find] looks for: the pointer itself without a comparison function,
    and otherwise a pointer that compares equal to it. *)
Definition sk_matches sk (p q : Z) : Prop :=
  match comp sk with
  | None => q = p
  | Some c => p <> NULL /\ call_cmp_func c p q = 0
  end.

Definition matches_b sk (p q : Z) : bool :=
  match comp sk with
  | None => q =? p
  | Some c => negb (p =? NULL) && (call_cmp_func c p q =? 0)
  end.

Lemma matches_b_spec sk p q : matches_b sk p q = true <-> sk_matches sk p q.
Proof.
  unfold matches_b, sk_matches. destruct (comp sk); [|apply Z.eqb_eq].
  by rewrite andb_true_iff, negb_true_iff, Z.eqb_neq, Z.eqb_eq.
Qed.

Lemma contents_lookup sk j r : sk_wf sk ->
  contents sk !! j = Some r <-> (j < num sk)%nat /\ data sk !!! j = r.
Proof.
  intros [Hd Hu Ha Hm Hw]. unfold contents. rewrite lookup_take_Some, list_lookup_alt.
  split; [tauto|intros []; split; [split; [lia|done]|done]].
Qed.

Lemma sk_find_eq sk p : sk_ok true sk ->
  OPENSSL_sk_find call_cmp_func (Some sk) p = find_from (matches_b sk p) (data sk) 0 (num sk).
Proof.
  intros [[Hd Hu Ha Hm Hw] Hs]. unfold OPENSSL_sk_find, matches_b. destruct (comp sk) as [c|] eqn:Ec; [|done].
  destruct (Z.eqb_spec p NULL) as [->|Hp]; cbn [negb andb].
  { symmetry. apply find_from_None. done. }
  unfold OPENSSL_sk_is_sorted. rewrite Ec, bool_decide_true by done. cbn [andb].
  destruct (sorted sk) eqn:Es; cbn [orb negb].
  - rewrite (binary_search_eq _ p _ (num sk)); [by rewrite Nat.sub_0_r|lia|by apply Hs|lia|lia].
  - destruct (Nat.ltb_spec (num sk) 2) as [Hlt|]; cbn [negb]; [|done].
    rewrite (binary_search_eq _ p _ (num sk)); [by rewrite Nat.sub_0_r|lia| |lia|lia].
    intros i j x y Hij Hx Hy. apply lookup_lt_Some in Hy. rewrite length_take in Hy. lia.
Qed.

(** What is found matches, in order or not. *)
Lemma sk_find_matches sk p i : sk_wf sk -> OPENSSL_sk_find call_cmp_func (Some sk) p = Some i ->
  exists q, contents sk !! i = Some q /\ sk_matches sk p q.
Proof.
  intros Hwf Hf. exists (data sk !!! i). rewrite contents_lookup by done. unfold sk_matches.
  unfold OPENSSL_sk_find in Hf. destruct (comp sk) as [c|].
  - destruct (Z.eqb_spec p NULL); [done|]. destruct (negb _).
    + apply find_from_Some in Hf as (Hi & Hfi & _). split_and!; done || lia.
    + apply binary_search_Some in Hf as (Hi & Hfi). split_and!; done || lia.
  - apply find_from_Some in Hf as (Hi & Hfi & _). split_and!; done || lia.
Qed.

(** C36. The index [sk_find] returns holds a matching pointer, on any stack the
    operations can make.  Unless a pointer of a stack marked sorted was replaced
    out of order ([sk_reachable false]), it is the least such index, and
    the search fails exactly when no pointer matches, whether it
    goes linearly, by pointer equality, or by bisection of a sorted stack. *)
Theorem OPENSSL_sk_find_spec o sk p (Hr : sk_reachable o sk) :
  match OPENSSL_sk_find call_cmp_func (Some sk) p with
  | Some i => exists q, contents sk !! i = Some q /\ sk_matches sk p q /\
      (o = true -> forall j r, (j < i)%nat -> contents sk !! j = Some r -> ~ sk_matches sk p r)
  | None => o = true -> forall j r, contents sk !! j = Some r -> ~ sk_matches sk p r
  end.
Proof.
  apply sk_reachable_ok in Hr as Hok. pose proof Hok as [Hwf _].
  destruct (OPENSSL_sk_find _ _ _) as [i|] eqn:E.
  - apply sk_find_matches in E as E'; [|done]. destruct E' as (q & Hq & Hm). exists q. split_and!; [done..|].
    intros -> j r Hj [_ <-]%contents_lookup; [|done].
    rewrite sk_find_eq in E by done. apply find_from_Some in E as (_ & _ & Hlt).
    rewrite <- matches_b_spec, Hlt by lia. done.
  - intros -> j r [Hj <-]%contents_lookup; [|done]. rewrite sk_find_eq, find_from_None in E by done.
    rewrite <- matches_b_spec, E by lia. done.
Qed.

(** C37. Every stack the operations can make keeps its array and its counts
    consistent, whatever [sk_set] and the copying functions stored; and its
    [sorted] flag is set only when its pointers are in the order of its
    comparison function, unless one of them was replaced out of order while the
    flag was set ([sk_reachable false]). *)
Theorem sk_reachable_invariant o sk (Hr : sk_reachable o sk) :
  Z.of_nat (length (data sk)) = num_alloc sk /\
  Z.of_nat (num sk) < num_alloc sk /\ num_alloc sk * 8 <= SIZE_MAX /\ Z.of_nat (num sk) <= INT_MAX /\
  (o = true -> sorted sk = true -> forall c, comp sk = Some c -> ascending (call_cmp_func c) (contents sk)).
Proof.
  apply sk_reachable_ok in Hr as [[Hd Hu Ha Hm Hw] Hs]. unfold SIZE_MAX. split_and!; done || lia.
Qed.

(** [sk_sort] puts the pointers of a stack in ascending order and marks it
    sorted; nothing is lost and nothing else changes. *)
Theorem OPENSSL_sk_sort_spec o sk c (Hr : sk_reachable o sk) (Hc : comp sk = Some c) :
  exists sk', OPENSSL_sk_sort call_cmp_func (Some sk) = Some sk' /\
    (o = true -> ascending (call_cmp_func c) (contents sk')) /\ contents sk' ≡ₚ contents sk /\
    sorted sk' = true /\ comp sk' = Some c /\ num sk' = num sk.
Proof.
  apply sk_reachable_ok in Hr as [Hwf Hs].
  destruct (sk_sort_ok sk Hwf) as (sk' & E & _ & Hp & Hcomp & Hn & Hok & Hflag). exists sk'.
  rewrite Hc in *. split_and!; try done; [|by apply Hflag]. intros Ho. apply Hok; [by apply Hs|by apply Hflag|done].
Qed.

(** [sk_insert] puts the pointer before the one at [where], or at the end
    when there is none, clears [sorted], and returns the new count; it returns 0
    and changes nothing when the stack is full or its array cannot grow. *)
Theorem OPENSSL_sk_insert_spec o sk p w h (Hr : sk_reachable o sk) (Hp : is_word p) :
  let '(r, sk', h') := OPENSSL_sk_insert (Some sk) p w h in
  (r = O /\ sk' = Some sk /\ (Z.of_nat (num sk) < INT_MAX -> sk_grow sk h = (None, h'))) \/
  (r = S (num sk) /\ exists s, sk' = Some s /\ contents s = insert_at w p (contents sk) /\
     num s = r /\ sorted s = false /\ comp s = comp sk).
Proof.
  apply sk_reachable_ok in Hr as [Hwf Hs].
  destruct (sk_insert_cases sk p w h Hwf Hp) as [(h' & -> & Hg)|(s & h' & E & Hwf' & Hc & Hso & Hco)].
  - left. split_and!; [done..|]. intros. by destruct Hg; [lia|].
  - rewrite E. right. split; [done|]. exists s. split_and!; try done.
    apply (f_equal length) in Hc. rewrite length_contents in Hc by done. rewrite Hc. unfold insert_at.
    pose proof (length_contents sk Hwf). rewrite length_app, length_take. cbn [length]. rewrite length_drop. lia.
Qed.

(** [sk_deep_copy] copies each pointer but NULL, in order, and its flag and
    comparison function; nothing is freed.  When a copy fails, there is no stack,
    and what is freed are the copies made. *)
Theorem OPENSSL_sk_deep_copy_spec o sk f h (Hr : sk_reachable o sk) (Hf : copies_words f) :
  match OPENSSL_sk_deep_copy (Some sk) f h with
  | ((Some sk', freed), _) => Forall2 (copied f) (contents sk) (contents sk') /\
      num sk' = num sk /\ sorted sk' = sorted sk /\ comp sk' = comp sk /\ freed = []
  | ((None, freed), _) => exists i k, (i <= num sk)%nat /\ Forall2 (copied f) (take i (contents sk)) k /\
      freed = filter (fun p => p <> NULL) k
  end.
Proof.
  apply sk_reachable_ok in Hr as [Hwf _].
  destruct (OPENSSL_sk_deep_copy (Some sk) f h) as [[[sk'|] freed] h'] eqn:E.
  - apply sk_deep_copy_ok in E as (Hwf' & Hcp & ? & ? & ->); [|done..]. split_and!; try done.
    apply Forall2_length in Hcp. by rewrite !length_contents in Hcp.
  - by apply sk_deep_copy_fails in E.
Qed.

(** A call that removed the pointer at [i], and kept the rest as it was. *)
Definition deletes (i : nat) sk (res : Z * option (stack_st Cmp)) : Prop :=
  exists s, res = (contents sk !!! i, Some s) /\ contents s = delete i (contents sk) /\
    sorted s = sorted sk /\ comp s = comp sk.

Lemma sk_delete_deletes i sk : sk_wf sk -> (i < num sk)%nat -> deletes i sk (on_sk NULL (sk_delete i) (Some sk)).
Proof.
  intros Hwf Hi. destruct (sk_delete_ok i sk Hwf Hi) as (_ & Hr & Hc & Hco & Hso). unfold on_sk.
  destruct (sk_delete i sk) as [r s]. cbn [fst snd] in *. subst r. by exists s.
Qed.

(** Deletion by index, by pointer (its first occurrence), from either end
    and by a callback: what is returned, what is left and in which order; an
    index or a pointer that is not there changes nothing and returns NULL. *)
Theorem sk_deletions_spec {D} o sk w p (f : Z -> D -> bool * D) d (Hr : sk_reachable o sk) :
  ((w < num sk)%nat -> deletes w sk (OPENSSL_sk_delete (Some sk) w)) /\
  ((num sk <= w)%nat -> OPENSSL_sk_delete (Some sk) w = (NULL, Some sk)) /\
  (forall i, contents sk !! i = Some p -> (forall j, (j < i)%nat -> contents sk !! j <> Some p) ->
     deletes i sk (OPENSSL_sk_delete_ptr (Some sk) p)) /\
  (p ∉ contents sk -> OPENSSL_sk_delete_ptr (Some sk) p = (NULL, Some sk)) /\
  ((0 < num sk)%nat ->
     deletes 0 sk (OPENSSL_sk_shift (Some sk)) /\ deletes (num sk - 1) sk (OPENSSL_sk_pop (Some sk))) /\
  (num sk = O -> OPENSSL_sk_shift (Some sk) = (NULL, Some sk) /\ OPENSSL_sk_pop (Some sk) = (NULL, Some sk)) /\
  (exists s, OPENSSL_sk_delete_if (Some sk) f d = (snd (filter_state f (contents sk) d), Some s) /\
     contents s = fst (filter_state f (contents sk) d) /\ sorted s = sorted sk /\ comp s = comp sk).
Proof.
  apply sk_reachable_ok in Hr as [Hwf Hs]. pose proof Hwf as [Hd Hu Ha Hm Hw].
  pose proof (fun j r => contents_lookup sk j r Hwf) as Hc.
  split_and!.
  - by apply sk_delete_deletes.
  - intros. unfold OPENSSL_sk_delete, on_sk. by rewrite sk_delete_out.
  - intros i [Hi Hp]%Hc Hj. unfold OPENSSL_sk_delete_ptr, on_sk.
    rewrite (proj2 (find_from_Some _ (data sk) 0 (num sk) i)); [by apply sk_delete_deletes|].
    split_and!; [lia..|by apply Z.eqb_eq|]. intros j Hji. apply Z.eqb_neq. intros E.
    apply (Hj j); [lia|]. apply Hc. split; [lia|done].
  - intros Hnin. unfold OPENSSL_sk_delete_ptr, on_sk.
    rewrite (proj2 (find_from_None _ (data sk) 0 (num sk))); [done|]. intros j Hj. apply Z.eqb_neq. intros E.
    apply Hnin, list_elem_of_lookup. exists j. apply Hc. split; [lia|done].
  - intros Hn. unfold OPENSSL_sk_shift, OPENSSL_sk_pop, on_sk. destruct (Nat.eqb_spec (num sk) 0); [lia|].
    split; apply sk_delete_deletes; done || lia.
  - intros Hn. unfold OPENSSL_sk_shift, OPENSSL_sk_pop, on_sk. by rewrite Hn.
  - destruct (sk_delete_if_ok f d sk Hwf) as (s & E & _ & ? & ? & ?). by exists s.
Qed.

End spec.

(** * Witnesses: addresses compared as numbers *)

Definition cmp_addr (_ : unit) (a b : Z) : Z := a - b.

#[export] Instance cmp_addr_laws c : CmpLaws (cmp_addr c).
Proof. unfold cmp_addr. split; intros; lia. Qed.

(** The stack of [sk_new], with the pointers of [l] pushed. *)
Fixpoint push_all (sk : option (stack_st unit)) (l : list Z) : option (stack_st unit) :=
  match l with
  | [] => sk
  | p :: l => let '(_, sk, _) := OPENSSL_sk_push sk p tt in push_all sk l
  end.

Lemma push_all_reachable sk l sk' :
  sk_reachable cmp_addr true sk -> Forall is_word l -> push_all (Some sk) l = Some sk' ->
  sk_reachable cmp_addr true sk'.
Proof.
  intros Hr Hl. revert sk Hr. induction Hl as [|p l Hp Hl IH]; intros sk Hr; cbn [push_all].
  { by intros [= <-]. }
  destruct (OPENSSL_sk_push (Some sk) p tt) as [[r sk1] h] eqn:E. unfold OPENSSL_sk_push in E.
  destruct sk1 as [sk1|]; [|by destruct l as [|? l]; [|clear; induction l]].
  apply IH. by eapply reach_insert.
Qed.

Definition sk_empty : stack_st unit := Stack 0 [0; 0; 0; 0] false 4 (Some tt).
Definition sk_example : stack_st unit := Stack 5 [30; 10; 40; 10; 20; 0; 0; 0] false 8 (Some tt).
Definition sk_example_sorted : stack_st unit :=
  Stack 5 [10; 10; 20; 30; 40; 0; 0; 0] true 8 (Some tt).

Lemma sk_example_reachable : sk_reachable (H := unit) cmp_addr true sk_example.
Proof.
  apply (push_all_reachable sk_empty [30; 10; 40; 10; 20]); [|by repeat (constructor; [done|])|reflexivity].
  apply (reach_new cmp_addr (Some tt) tt sk_empty tt). reflexivity.
Qed.

Lemma sk_example_sorted_reachable : sk_reachable (H := unit) cmp_addr true sk_example_sorted.
Proof. apply (reach_sort cmp_addr true sk_example); [apply sk_example_reachable|reflexivity]. Qed.

Lemma OPENSSL_sk_sort_spec_witness :
  OPENSSL_sk_sort cmp_addr (Some sk_example) = Some sk_example_sorted /\
  exists sk', OPENSSL_sk_sort cmp_addr (Some sk_example) = Some sk' /\ ascending (cmp_addr tt) (contents sk').
Proof.
  split; [reflexivity|].
  destruct (OPENSSL_sk_sort_spec cmp_addr true sk_example tt sk_example_reachable eq_refl) as (sk' & E & Ha & _).
  exists sk'. split; [exact E|exact (Ha eq_refl)].
Defined.

Lemma OPENSSL_sk_insert_spec_witness :
  exists s, (OPENSSL_sk_insert (Some sk_example) 99 1 tt).1.2 = Some s /\ contents s = [30; 99; 10; 40; 10; 20].
Proof.
  destruct (OPENSSL_sk_insert_spec cmp_addr true sk_example 99 1 tt sk_example_reachable) as [(Hr & _)|(_ & s & Hs & Hc & _)].
  - done.
  - discriminate Hr.
  - exists s. split; [exact Hs|exact Hc].
Defined.

Lemma sk_deletions_spec_witness :
  deletes 1 sk_example (OPENSSL_sk_delete_ptr (Some sk_example) 10).
Proof.
  destruct (sk_deletions_spec cmp_addr true sk_example 1 10 (fun _ d => (true, d)) tt sk_example_reachable)
    as (_ & _ & Hp & _).
  apply Hp; [done|]. intros [|j] Hj; [done|lia].
Defined.

(** A copying function that turns the order of small addresses around. *)
Definition copy_reversed (p : Z) : ST unit Z := st_ret (u64 (1000 - p)).

Lemma copy_reversed_words : copies_words copy_reversed.
Proof. intros p h q h' [= <- _]. apply Z.mod_pos_bound. done. Qed.

Lemma OPENSSL_sk_deep_copy_spec_witness :
  match OPENSSL_sk_deep_copy (Some sk_example_sorted) copy_reversed tt with
  | ((Some sk', _), _) => Forall2 (copied copy_reversed) [10; 10; 20; 30; 40] (contents sk') /\ num sk' = 5%nat
  | _ => False
  end.
Proof.
  pose proof (OPENSSL_sk_deep_copy_spec cmp_addr true sk_example_sorted copy_reversed tt
    sk_example_sorted_reachable copy_reversed_words) as Hc.
  destruct (OPENSSL_sk_deep_copy _ _ _) as [[[sk'|] freed] h] eqn:E; [|vm_compute in E; discriminate E].
  destruct Hc as (Hc & Hn & _). split; [exact Hc|exact Hn].
Defined.

(** [sk_set] and [sk_deep_copy] leave the flag alone.  The stacks they make
    here are reachable, out of order and still marked sorted, and a pointer
    they hold is not found. *)
Definition sk_example_set : stack_st unit := Stack 5 [99; 10; 20; 30; 40; 0; 0; 0] true 8 (Some tt).
Definition sk_example_copy : stack_st unit := Stack 5 [990; 990; 980; 970; 960; 0; 0; 0] true 8 (Some tt).

Example sk_set_keeps_sorted :
  sk_reachable (H := unit) cmp_addr false sk_example_set /\
  OPENSSL_sk_is_sorted (Some sk_example_set) = true /\ OPENSSL_sk_value (Some sk_example_set) 0 = 99 /\
  OPENSSL_sk_find cmp_addr (Some sk_example_set) 99 = None.
Proof.
  split; [|repeat split].
  by apply (reach_set cmp_addr true false sk_example_sorted 0 99 99 _ sk_example_sorted_reachable).
Qed.

Example sk_deep_copy_keeps_sorted :
  sk_reachable (H := unit) cmp_addr false sk_example_copy /\
  OPENSSL_sk_is_sorted (Some sk_example_copy) = true /\ OPENSSL_sk_value (Some sk_example_copy) 0 = 990 /\
  OPENSSL_sk_find cmp_addr (Some sk_example_copy) 990 = None.
Proof.
  split; [|repeat split].
  by apply (reach_deep_copy cmp_addr true false sk_example_sorted copy_reversed tt _ [] tt
    sk_example_sorted_reachable copy_reversed_words).
Qed.

(** An overwrite in order keeps what the flag says: with 40 replaced by 45, the
    binary search still finds the least match. *)
Definition sk_example_kept : stack_st unit := Stack 5 [10; 10; 20; 30; 45; 0; 0; 0] true 8 (Some tt).

Lemma sk_example_kept_reachable : sk_reachable (H := unit) cmp_addr true sk_example_kept.
Proof.
  apply (reach_set cmp_addr true true sk_example_sorted 4 45 45); [apply sk_example_sorted_reachable|done..|].
  intros _. split; [done|]. intros [] j q _ _ _ Hq. split; intros Hj; unfold cmp_addr.
  - do 4 (destruct j as [|j]; [injection Hq as <-; lia|]). lia.
  - apply lookup_lt_Some in Hq. cbn in Hq. lia.
Qed.

Lemma OPENSSL_sk_find_spec_witness :
  OPENSSL_sk_find cmp_addr (Some sk_example_kept) 10 = Some O /\
  (exists q, contents sk_example_kept !! O = Some q /\ sk_matches cmp_addr sk_example_kept 10 q) /\
  (forall j r, contents sk_example_kept !! j = Some r -> ~ sk_matches cmp_addr sk_example_kept 40 r).
Proof.
  split; [reflexivity|split].
  - destruct (OPENSSL_sk_find_spec cmp_addr true sk_example_kept 10 sk_example_kept_reachable) as (q & Hq & Hm & _).
    exists q. split; [exact Hq|exact Hm].
  - exact (OPENSSL_sk_find_spec cmp_addr true sk_example_kept 40 sk_example_kept_reachable eq_refl).
Defined.

Lemma sk_reachable_invariant_witness : ascending (cmp_addr tt) (contents sk_example_kept).
Proof.
  destruct (sk_reachable_invariant cmp_addr true sk_example_kept sk_example_kept_reachable) as (_ & _ & _ & _ & Hs).
  exact (Hs eq_refl eq_refl tt eq_refl).
Defined.
