(* ===== verification/Lhash.v ===== *)
(** The hash table of [crypto/lhash/lhash.c]: chains of items in an array of
    buckets that grows and shrinks with the number of items.

    A pointer is its 64-bit address and [NULL] is 0; the hash and comparison
    functions are the caller's and are parameters. *)
From S2P Require Import Prelude Mem.

Section lhash.
Context {H : Type} `{Malloc H}.
Context {Hash Cmp : Type} (call_hash_func : Hash -> Z -> Z) (call_cmp_func : Cmp -> Z -> Z -> Z).

Definition kMinNumBuckets : Z := 16.
Definition kMaxAverageChainLength : Z := 2.
Definition kMinAverageChainLength : Z := 1.

(** A chain is the list of its items.  An item is told apart by its address
    [item_id], for which the model takes the number of its allocation. *)
Record lhash_item_st := Item {
  item_id : nat;
  item_data : Z;
  item_hash : Z;
}.

(** [next_id] is the number of the next allocation; the other fields are C's. *)
Record lhash_st := Lhash {
  num_items : Z;
  buckets : list (list lhash_item_st);
  num_buckets : Z;
  callback_depth : Z;
  lh_comp : Cmp;
  lh_hash : Hash;
  next_id : nat;
}.

(** The structure takes [sizeof(_LHASH)] = 48 bytes. *)
Definition OPENSSL_lh_new (hash : Hash) (comp : Cmp) : ST H lhash_st :=
  _ <-- OPENSSL_zalloc 48 ;;
  _ <-- OPENSSL_calloc kMinNumBuckets 8 ;;
  st_ret (Lhash 0 (replicate (Z.to_nat kMinNumBuckets) []) kMinNumBuckets 0 comp hash 0).

Definition OPENSSL_lh_num_items (lh : lhash_st) : Z := num_items lh.

(** The items freed, in order. *)
Definition OPENSSL_lh_free (lh : option lhash_st) : list lhash_item_st :=
  match lh with None => [] | Some lh => concat (buckets lh) end.

(** * Positions

    A pointer to the pointer to an item is a bucket and the number of [next]
    links followed in its chain. *)

Definition next_ptr : Type := nat * nat.

Fixpoint chain_find (f : lhash_item_st -> bool) (l : list lhash_item_st) : nat :=
  match l with
  | cur :: l => if f cur then O else S (chain_find f l)
  | [] => O
  end.

Definition bucket (lh : lhash_st) (i : nat) : list lhash_item_st := buckets lh !!! i.
Definition deref (lh : lhash_st) (p : next_ptr) : option lhash_item_st := bucket lh p.1 !! p.2.

Definition get_next_ptr_and_hash (lh : lhash_st) (data : Z) : next_ptr * Z :=
  let hash := call_hash_func (lh_hash lh) data in
  let b := Z.to_nat (hash mod num_buckets lh) in
  ((b, chain_find (fun cur => call_cmp_func (lh_comp lh) (item_data cur) data =? 0) (bucket lh b)), hash).

(** The key is a parameter of [cmp_key]. *)
Definition get_next_ptr_by_key (lh : lhash_st) (key_hash : Z) (cmp_key : Z -> Z) : next_ptr :=
  let b := Z.to_nat (key_hash mod num_buckets lh) in
  (b, chain_find (fun cur => cmp_key (item_data cur) =? 0) (bucket lh b)).

(** [None] is NULL. *)
Definition OPENSSL_lh_retrieve (lh : lhash_st) (data : Z) : option Z :=
  item_data <$> deref lh (fst (get_next_ptr_and_hash lh data)).

Definition OPENSSL_lh_retrieve_key (lh : lhash_st) (key_hash : Z) (cmp_key : Z -> Z) : option Z :=
  item_data <$> deref lh (get_next_ptr_by_key lh key_hash cmp_key).

(** * Resizing *)

(** [cur->next = new_buckets[b]; new_buckets[b] = cur]. *)
Definition push_front (new_num_buckets : Z) (new_buckets : list (list lhash_item_st)) (cur : lhash_item_st)
    : list (list lhash_item_st) :=
  let new_bucket := Z.to_nat (item_hash cur mod new_num_buckets) in
  <[new_bucket := cur :: new_buckets !!! new_bucket]> new_buckets.

Definition lh_rebucket (lh : lhash_st) (new_num_buckets : Z) (h : H) : lhash_st * H :=
  let alloc_size := u64 (8 * new_num_buckets) in
  if negb (alloc_size / 8 =? new_num_buckets) then (lh, h)
  else
    match OPENSSL_zalloc alloc_size h with
    | (None, h) => (lh, h)
    | (Some _, h) =>
        let new_buckets :=
          fold_left (push_front new_num_buckets) (concat (buckets lh)) (replicate (Z.to_nat new_num_buckets) []) in
        (Lhash (num_items lh) new_buckets new_num_buckets (callback_depth lh) (lh_comp lh) (lh_hash lh) (next_id lh), h)
    end.

Definition lh_maybe_resize (lh : lhash_st) (h : H) : lhash_st * H :=
  if callback_depth lh >? 0 then (lh, h)
  else
    let avg_chain_length := num_items lh / num_buckets lh in
    if avg_chain_length >? kMaxAverageChainLength then
      let new_num_buckets := u64 (num_buckets lh * 2) in
      if new_num_buckets >? num_buckets lh then lh_rebucket lh new_num_buckets h else (lh, h)
    else if (avg_chain_length <? kMinAverageChainLength) && (num_buckets lh >? kMinNumBuckets) then
      let new_num_buckets := num_buckets lh / 2 in
      let new_num_buckets := if new_num_buckets <? kMinNumBuckets then kMinNumBuckets else new_num_buckets in
      lh_rebucket lh new_num_buckets h
    else (lh, h).

(** * Insertion and deletion *)

(** The table with another chain in the bucket [b]. *)
Definition set_bucket (lh : lhash_st) (b : nat) (chain : list lhash_item_st) (num : Z) (next : nat) : lhash_st :=
  Lhash num (<[b := chain]> (buckets lh)) (num_buckets lh) (callback_depth lh) (lh_comp lh) (lh_hash lh) next.

(** The result, [*old_data] ([None] is NULL) and the table.  An item takes
    [sizeof(LHASH_ITEM)] = 24 bytes. *)
Definition OPENSSL_lh_insert (lh : lhash_st) (data : Z) (h : H) : bool * option Z * lhash_st * H :=
  let '((b, k), hash) := get_next_ptr_and_hash lh data in
  match deref lh (b, k) with
  | Some old =>
      let chain := <[k := Item (item_id old) data (item_hash old)]> (bucket lh b) in
      (true, Some (item_data old), set_bucket lh b chain (num_items lh) (next_id lh), h)
  | None =>
      match OPENSSL_malloc 24 h with
      | (None, h) => (false, None, lh, h)
      | (Some _, h) =>
          let item := Item (next_id lh) data hash in
          let lh := set_bucket lh b (bucket lh b ++ [item]) (u64 (num_items lh + 1)) (S (next_id lh)) in
          let '(lh, h) := lh_maybe_resize lh h in
          (true, None, lh, h)
      end
  end.

Definition OPENSSL_lh_delete (lh : lhash_st) (data : Z) (h : H) : option Z * lhash_st * H :=
  let '((b, k), _) := get_next_ptr_and_hash lh data in
  match deref lh (b, k) with
  | None => (None, lh, h)
  | Some item =>
      let lh := set_bucket lh b (delete k (bucket lh b)) (u64 (num_items lh - 1)) (next_id lh) in
      let '(lh, h) := lh_maybe_resize lh h in
      (Some (item_data item), lh, h)
  end.

(** * Iteration *)

(** The chain from the item [id] on; [[]] when it is not in the chain. *)
Fixpoint chain_from (id : nat) (l : list lhash_item_st) : list lhash_item_st :=
  match l with
  | cur :: rest => if Nat.eqb (item_id cur) id then l else chain_from id rest
  | [] => []
  end.

Definition set_depth (lh : lhash_st) (d : Z) : lhash_st :=
  Lhash (num_items lh) (buckets lh) (num_buckets lh) d (lh_comp lh) (lh_hash lh) (next_id lh).

(** The inner loop, from the item [cur] of the bucket [i].  The callback gets
    the table, its argument and the heap, and may change them all; it is
    [None] that the loop follows a pointer to an item the callback has freed, or
    does not end within the fuel. *)
Fixpoint doall_chain {A} (fuel : nat) (func : Z -> lhash_st * A * H -> lhash_st * A * H) (i : nat)
    (cur : option nat) (st : lhash_st * A * H) : option (lhash_st * A * H) :=
  match cur, fuel with
  | None, _ => Some st
  | Some _, O => None
  | Some id, S fuel =>
      match chain_from id (bucket st.1.1 i) with
      | [] => None
      | item :: rest => doall_chain fuel func i (item_id <$> head rest) (func (item_data item) st)
      end
  end.

(** The outer loop, from the bucket [i] on. *)
Fixpoint doall_buckets {A} (n fuel : nat) (func : Z -> lhash_st * A * H -> lhash_st * A * H) (i : nat)
    (st : lhash_st * A * H) : option (lhash_st * A * H) :=
  match n with
  | O => None
  | S n =>
      if Z.of_nat i <? num_buckets st.1.1 then
        st ← doall_chain fuel func i (item_id <$> head (bucket st.1.1 i)) st;
        doall_buckets n fuel func (S i) st
      else Some st
  end.

Definition OPENSSL_lh_doall_arg {A} (fuel : nat) (func : Z -> lhash_st * A * H -> lhash_st * A * H)
    (lh : option lhash_st) (arg : A) (h : H) : option (option lhash_st * A * H) :=
  match lh with
  | None => Some (None, arg, h)
  | Some lh =>
      let lh := if callback_depth lh <? UINT_MAX then set_depth lh (callback_depth lh + 1) else lh in
      '(lh, arg, h) ← doall_buckets (S (Z.to_nat (num_buckets lh))) fuel func 0 (lh, arg, h);
      let lh := if callback_depth lh <? UINT_MAX then set_depth lh (callback_depth lh - 1) else lh in
      let '(lh, h) := lh_maybe_resize lh h in
      Some (Some lh, arg, h)
  end.

End lhash.

#[global] Arguments lhash_st : clear implicits.
