(* ===== verification/LhashSpec.v ===== *)
(** What the hash table of [Lhash.v] promises: a finite map from the classes of
    its comparison function, whatever resizing goes on underneath. *)
From S2P Require Import Prelude Mem Lhash.

(** * The caller's functions

    [cmp x y = 0] is an equivalence, and equal data hash to the same value. *)
Class SameLaws (cmp : Z -> Z -> Z) := {
  same_refl x : cmp x x = 0;
  same_sym x y : cmp x y = 0 -> cmp y x = 0;
  same_trans x y z : cmp x y = 0 -> cmp y z = 0 -> cmp x z = 0;
}.

Class HashLaws (hash : Z -> Z) (cmp : Z -> Z -> Z) := {
  hash_bound x : 0 <= hash x < 2 ^ 32;
  same_hash x y : cmp x y = 0 -> hash x = hash y;
}.

(** * Lists without two equal data *)

Section uniq.
Context (cmp : Z -> Z -> Z) `{!SameLaws cmp}.

Fixpoint uniq (l : list Z) : Prop :=
  match l with
  | [] => True
  | x :: l => Forall (fun y => cmp x y <> 0) l /\ uniq l
  end.

Lemma uniq_perm l k : l ≡ₚ k -> uniq l -> uniq k.
Proof.
  intros Hp. induction Hp as [|x l k Hp IH|x y l|l1 l2 l3 _ IH1 _ IH2]; cbn [uniq]; auto.
  - intros [Hf Hl]. split; [|auto]. rewrite Forall_forall in *. intros y Hy. apply Hf. by rewrite Hp.
  - rewrite !Forall_cons. intros [[Hyx Hy] [Hx Hl]]. split_and!; auto.
    intros E. by apply Hyx, same_sym.
Qed.

Lemma uniq_elem l x y : uniq l -> x ∈ l -> y ∈ l -> cmp x y = 0 -> x = y.
Proof.
  induction l as [|z l IH]; [by intros _ ?%not_elem_of_nil|]. cbn [uniq]. rewrite !elem_of_cons, Forall_forall.
  intros [Hz Hl] [->|Hx] [->|Hy] E; auto.
  - by apply Hz in E.
  - apply (same_sym x) in E. by apply Hz in E.
Qed.

End uniq.

(** * Arrays of chains *)

Lemma concat_insert {A} (bs : list (list A)) b chain :
  bs !! b = Some chain -> exists rest, concat bs ≡ₚ chain ++ rest /\
    forall chain', concat (<[b := chain']> bs) ≡ₚ chain' ++ rest.
Proof.
  intros Hb. exists (concat (take b bs) ++ concat (drop (S b) bs)).
  assert (forall c : list A, concat (take b bs ++ c :: drop (S b) bs) ≡ₚ
    c ++ concat (take b bs) ++ concat (drop (S b) bs)) as Hc.
  { intros c. rewrite concat_app. cbn. rewrite !app_assoc. apply Permutation_app_tail, Permutation_app_comm. }
  split.
  - rewrite <- Hc. by rewrite take_drop_middle.
  - intros c'. rewrite <- Hc. rewrite insert_take_drop; [done|]. by eapply lookup_lt_Some.
Qed.

Section lhash.
Context {H : Type} `{MallocSpec H}.
Context {Hash Cmp : Type} (call_hash_func : Hash -> Z -> Z) (call_cmp_func : Cmp -> Z -> Z -> Z).
Context `{Hsame : !forall c, SameLaws (call_cmp_func c)}.
Context `{Hhash : !forall h c, HashLaws (call_hash_func h) (call_cmp_func c)}.
Implicit Types lh : lhash_st Hash Cmp.

Definition items lh : list lhash_item_st := concat (buckets lh).

(** The data in a table, in the order of iteration. *)
Definition datas lh : list Z := item_data <$> items lh.

Definition same lh (x y : Z) : Prop := call_cmp_func (lh_comp lh) x y = 0.

(** Every item is in the bucket of its hash. *)
Definition placed (hash : Z -> Z) (n : Z) (bs : list (list lhash_item_st)) : Prop :=
  forall b chain it, bs !! b = Some chain -> it ∈ chain ->
    item_hash it = hash (item_data it) /\ Z.to_nat (item_hash it mod n) = b.

Record lh_wf lh : Prop := {
  wf_buckets : Z.of_nat (length (buckets lh)) = num_buckets lh;
  wf_num_buckets : kMinNumBuckets <= num_buckets lh;
  wf_size : 8 * num_buckets lh < 2 ^ 64;
  wf_placed : placed (call_hash_func (lh_hash lh)) (num_buckets lh) (buckets lh);
  wf_num_items : num_items lh = Zlen (items lh);
  wf_max : num_items lh <= SIZE_MAX;
  wf_uniq : uniq (call_cmp_func (lh_comp lh)) (datas lh);
  wf_ids : NoDup (item_id <$> items lh);
  wf_next : Forall (fun it => (item_id it < next_id lh)%nat) (items lh);
}.

(** ** Looking up *)

Lemma chain_find_Some f l it : l !! chain_find f l = Some it -> f it = true /\ it ∈ l.
Proof.
  induction l as [|x l IH]; cbn [chain_find]; [done|]. destruct (f x) eqn:E.
  - intros [= <-]. split; [done|]. left.
  - cbn. intros [? ?]%IH. split; [done|]. by right.
Qed.

Lemma chain_find_None f l : l !! chain_find f l = None -> forall it, it ∈ l -> f it = false.
Proof.
  induction l as [|x l IH]; cbn [chain_find]; [intros _ it Hi; by apply not_elem_of_nil in Hi|].
  destruct (f x) eqn:E; [done|]. cbn. intros Hn it [->|Hi]%elem_of_cons; [done|]. by apply IH.
Qed.

Lemma items_bucket lh it : it ∈ items lh <-> exists b chain, buckets lh !! b = Some chain /\ it ∈ chain.
Proof.
  unfold items. rewrite list_elem_of_In, in_concat. split.
  - intros (chain & Hc & Hi). apply list_elem_of_In, list_elem_of_lookup in Hc as [b Hb].
    exists b, chain. by rewrite list_elem_of_In.
  - intros (b & chain & Hb & Hi). exists chain. rewrite <- !list_elem_of_In. split; [|done].
    by eapply list_elem_of_lookup_2.
Qed.

Lemma bucket_lookup lh x : lh_wf lh -> 0 <= x ->
  buckets lh !! Z.to_nat (x mod num_buckets lh) = Some (bucket lh (Z.to_nat (x mod num_buckets lh))).
Proof.
  intros [Hl Hm _ _ _ _ _ _ _] Hx. apply list_lookup_lookup_total_lt. unfold kMinNumBuckets in *.
  pose proof (Z.mod_pos_bound x (num_buckets lh)). lia.
Qed.

(** An item of the table is in the bucket searched for what is equal to it. *)
Lemma item_in_bucket lh it d : lh_wf lh -> it ∈ items lh -> same lh (item_data it) d ->
  it ∈ bucket lh (Z.to_nat (call_hash_func (lh_hash lh) d mod num_buckets lh)).
Proof.
  intros Hwf Hi Hs. apply items_bucket in Hi as (b & chain & Hb & Hi).
  destruct (wf_placed _ Hwf b chain it Hb Hi) as [Hh Hm]. unfold same in Hs.
  apply (same_hash (hash := call_hash_func (lh_hash lh))) in Hs. rewrite <- Hs, <- Hh, Hm.
  unfold bucket. by rewrite (list_lookup_total_correct _ _ _ Hb).
Qed.

Lemma deref_spec lh d p : lh_wf lh -> fst (get_next_ptr_and_hash call_hash_func call_cmp_func lh d) = p ->
  match deref lh p with
  | Some it => it ∈ items lh /\ same lh (item_data it) d
  | None => forall it, it ∈ items lh -> ~ same lh (item_data it) d
  end.
Proof.
  intros Hwf <-. unfold get_next_ptr_and_hash, deref. cbn [fst snd].
  set (b := Z.to_nat _). destruct (bucket lh b !! _) as [it|] eqn:E.
  - apply chain_find_Some in E as [E Hi]. split; [|by apply Z.eqb_eq]. apply items_bucket.
    exists b, (bucket lh b). split; [|done]. apply bucket_lookup; [done|].
    by destruct (hash_bound (hash := call_hash_func (lh_hash lh)) (cmp := call_cmp_func (lh_comp lh)) d).
  - intros it Hi Hs. apply (item_in_bucket lh it d) in Hi; [|done..].
    apply (chain_find_None _ _ E) in Hi. apply Z.eqb_neq in Hi. done.
Qed.

Lemma elem_datas lh x : x ∈ datas lh <-> exists it, it ∈ items lh /\ item_data it = x.
Proof. unfold datas. rewrite list_elem_of_fmap.
  split; intros (it & ? & ?); exists it; done. Qed.

Lemma retrieve_Some lh d x : lh_wf lh ->
  OPENSSL_lh_retrieve call_hash_func call_cmp_func lh d = Some x <-> x ∈ datas lh /\ same lh x d.
Proof.
  intros Hwf. unfold OPENSSL_lh_retrieve. pose proof (deref_spec lh d _ Hwf eq_refl) as Hd.
  destruct (deref lh _) as [it|]; cbn.
  - destruct Hd as [Hi Hs]. split.
    + intros [= <-]. split; [|done]. apply elem_datas. eauto.
    + intros [Hx Hsx]. f_equal. apply (uniq_elem (call_cmp_func (lh_comp lh)) (datas lh)); [by apply wf_uniq|apply elem_datas; eauto|done|].
      eapply same_trans; [exact Hs|]. by apply same_sym.
  - split; [done|]. intros [(it & Hi & <-)%elem_datas Hs]. by apply Hd in Hs.
Qed.

Lemma retrieve_None lh d : lh_wf lh ->
  OPENSSL_lh_retrieve call_hash_func call_cmp_func lh d = None <-> forall x, x ∈ datas lh -> ~ same lh x d.
Proof.
  intros Hwf. split.
  - intros Hn x Hx Hs. assert (OPENSSL_lh_retrieve call_hash_func call_cmp_func lh d = Some x) by (by apply retrieve_Some).
    congruence.
  - intros Hx. destruct (OPENSSL_lh_retrieve _ _ lh d) as [x|] eqn:E; [|done].
    apply retrieve_Some in E as [Hi Hs]; [|done]. by apply Hx in Hs.
Qed.

(** ** Changing a bucket *)

Definition item_ok lh (b : nat) (it : lhash_item_st) : Prop :=
  item_hash it = call_hash_func (lh_hash lh) (item_data it) /\ Z.to_nat (item_hash it mod num_buckets lh) = b.

Lemma placed_insert hash n bs b chain' :
  placed hash n bs ->
  (forall it, it ∈ chain' -> item_hash it = hash (item_data it) /\ Z.to_nat (item_hash it mod n) = b) ->
  placed hash n (<[b := chain']> bs).
Proof.
  intros Hp Hc b' chain it Hb Hi. apply list_lookup_insert_Some in Hb as [(<- & <- & _)|[_ Hb]]; eauto.
Qed.

(** Replacing the chain of a bucket keeps the table well formed. *)
Lemma set_bucket_wf lh b chain' num next :
  lh_wf lh -> (b < length (buckets lh))%nat ->
  let lh' := set_bucket lh b chain' num next in
  (forall it, it ∈ chain' -> item_ok lh b it) ->
  num = Zlen (items lh') -> num <= SIZE_MAX -> uniq (call_cmp_func (lh_comp lh)) (datas lh') ->
  NoDup (item_id <$> items lh') -> Forall (fun it => (item_id it < next)%nat) (items lh') -> lh_wf lh'.
Proof.
  intros [Hl Hm Hs Hp Hn Hmax Hu Hi Hx] Hb lh' Hc Hnum Huniq Hnd Hnext.
  split; subst lh'; cbn [buckets num_buckets lh_hash lh_comp num_items next_id set_bucket] in *; try done.
  - by rewrite length_insert.
  - by apply placed_insert.
Qed.

Lemma bucket_perm lh b :
  (b < length (buckets lh))%nat -> exists rest, items lh ≡ₚ bucket lh b ++ rest /\
    forall chain' num next, items (set_bucket lh b chain' num next) ≡ₚ chain' ++ rest.
Proof.
  intros Hb. destruct (concat_insert (buckets lh) b (bucket lh b)) as (rest & Ea & Eb).
  - by apply list_lookup_lookup_total_lt.
  - exists rest. split; [done|]. intros. apply Eb.
Qed.

Lemma bucket_items_ok lh b it : lh_wf lh -> (b < length (buckets lh))%nat -> it ∈ bucket lh b -> item_ok lh b it.
Proof. intros Hwf Hb Hi. eapply (wf_placed _ Hwf); [by apply list_lookup_lookup_total_lt|done]. Qed.

(** ** Resizing *)

Lemma push_front_ok hash n bs it :
  0 < n -> Z.of_nat (length bs) = n -> placed hash n bs -> 0 <= item_hash it -> item_hash it = hash (item_data it) ->
  length (push_front n bs it) = length bs /\ placed hash n (push_front n bs it) /\
  concat (push_front n bs it) ≡ₚ it :: concat bs.
Proof.
  intros Hn Hl Hp Hz Hh. unfold push_front. set (b := Z.to_nat (item_hash it mod n)).
  assert (b < length bs)%nat as Hb by (subst b; pose proof (Z.mod_pos_bound (item_hash it) n); lia).
  pose proof (list_lookup_lookup_total_lt _ _ Hb) as Hlk.
  split_and!; [apply length_insert| |].
  - apply placed_insert; [done|]. intros x [->|Hx]%elem_of_cons; [done|]. by eapply Hp.
  - destruct (concat_insert bs b _ Hlk) as (rest & Ea & Eb). by rewrite Ea, Eb.
Qed.

Lemma push_all_ok hash n l bs :
  0 < n -> Z.of_nat (length bs) = n -> placed hash n bs ->
  Forall (fun it => 0 <= item_hash it /\ item_hash it = hash (item_data it)) l ->
  let bs' := fold_left (push_front n) l bs in
  Z.of_nat (length bs') = n /\ placed hash n bs' /\ concat bs' ≡ₚ l ++ concat bs.
Proof.
  intros Hn Hl Hp Hf. revert bs Hl Hp. induction Hf as [|it l [Hz Hh] Hf IH]; intros bs Hl Hp; [done|].
  cbn [fold_left]. destruct (push_front_ok hash n bs it) as (Ea & Eb & Ec); [done..|].
  destruct (IH (push_front n bs it)) as (? & ? & IHc); [lia|done|]. split_and!; [done..|].
  rewrite IHc, Ec. cbn. by rewrite Permutation_middle.
Qed.

Lemma placed_empty hash n k : placed hash n (replicate k []).
Proof. intros b chain it Hb Hi. apply lookup_replicate in Hb as [-> _]. by apply not_elem_of_nil in Hi. Qed.

Lemma concat_empty {A} k : concat (replicate k (@nil A)) = [].
Proof. induction k; done. Qed.

(** What resizing keeps. *)
Definition resized lh lh' : Prop :=
  items lh' ≡ₚ items lh /\ num_items lh' = num_items lh /\ lh_comp lh' = lh_comp lh /\
  lh_hash lh' = lh_hash lh /\ callback_depth lh' = callback_depth lh /\ next_id lh' = next_id lh.

Lemma items_hashes lh : lh_wf lh ->
  Forall (fun it => 0 <= item_hash it /\ item_hash it = call_hash_func (lh_hash lh) (item_data it)) (items lh).
Proof.
  intros Hwf. apply Forall_forall. intros it (b & chain & Hb & Hi)%items_bucket.
  destruct (wf_placed _ Hwf b chain it Hb Hi) as [-> _].
  by destruct (hash_bound (hash := call_hash_func (lh_hash lh)) (cmp := call_cmp_func (lh_comp lh)) (item_data it)).
Qed.

Lemma rebucket_ok lh n h lh' h' :
  lh_wf lh -> kMinNumBuckets <= n < 2 ^ 64 -> lh_rebucket lh n h = (lh', h') -> lh_wf lh' /\ resized lh lh'.
Proof.
  intros Hwf Hn. unfold lh_rebucket. destruct (Z.eqb_spec (u64 (8 * n) / 8) n) as [E|E]; cbn [negb].
  2: { intros [= <- <-]. done. }
  destruct (OPENSSL_zalloc _ h) as [[b|] h1]; intros [= <- <-]; [|done].
  assert (8 * n < 2 ^ 64) by (unfold u64 in E; dlia). unfold kMinNumBuckets in *.
  destruct (push_all_ok (call_hash_func (lh_hash lh)) n (items lh) (replicate (Z.to_nat n) [])) as (Hl & Hp & Hc);
    [lia|rewrite length_replicate; lia|apply placed_empty|by apply items_hashes|].
  rewrite concat_empty, app_nil_r in Hc. destruct Hwf as [_ _ _ _ Hni Hmax Hu Hi Hx].
  set (lh' := Lhash _ _ _ _ _ _ _). assert (items lh' ≡ₚ items lh) as Hperm by exact Hc.
  split; [|done]. split; [exact Hl|exact (proj1 Hn)|done|exact Hp|..].
  - change (num_items lh = Zlen (items lh')). rewrite Hni. unfold Zlen. by rewrite Hperm.
  - exact Hmax.
  - apply (uniq_perm _ (datas lh)); [|done]. unfold datas. by rewrite Hperm.
  - by rewrite Hperm.
  - by rewrite Hperm.
Qed.

Lemma maybe_resize_ok lh h lh' h' :
  lh_wf lh -> lh_maybe_resize lh h = (lh', h') ->
  lh_wf lh' /\ resized lh lh' /\ (0 < callback_depth lh -> lh' = lh).
Proof.
  intros Hwf. pose proof Hwf as [_ Hm Hs _ _ _ _ _ _]. unfold kMinNumBuckets in Hm. unfold lh_maybe_resize.
  destruct (Z.gtb_spec (callback_depth lh) 0); [by intros [= <- <-]|].
  assert (forall n, kMinNumBuckets <= n < 2 ^ 64 -> lh_rebucket lh n h = (lh', h') ->
    lh_wf lh' /\ resized lh lh' /\ (0 < callback_depth lh -> lh' = lh)) as Hr.
  { intros n Hn E. destruct (rebucket_ok _ _ _ _ _ Hwf Hn E). split_and!; [done..|lia]. }
  destruct (_ >? kMaxAverageChainLength).
  - destruct (Z.gtb_spec (u64 (num_buckets lh * 2)) (num_buckets lh)); [|by intros [= <- <-]].
    apply Hr. unfold u64, kMinNumBuckets in *. rewrite Z.mod_small in * by lia. lia.
  - destruct (_ && _); [|by intros [= <- <-]]. apply Hr. unfold kMinNumBuckets.
    destruct (Z.ltb_spec (num_buckets lh / 2) 16); [lia|dlia].
Qed.

(** ** Insertion and deletion *)

Lemma chain_at {A} (l : list A) k x : l !! k = Some x ->
  l ≡ₚ x :: delete k l /\ forall y, <[k := y]> l ≡ₚ y :: delete k l.
Proof.
  intros Hk. split; [by apply delete_Permutation|]. intros y.
  apply lookup_lt_Some in Hk as Hlt. rewrite insert_take_drop, delete_take_drop by done.
  by rewrite Permutation_middle.
Qed.

Lemma search_bucket lh d : lh_wf lh ->
  (Z.to_nat (call_hash_func (lh_hash lh) d mod num_buckets lh) < length (buckets lh))%nat.
Proof.
  intros Hwf. eapply lookup_lt_Some, bucket_lookup; [done|].
  by destruct (hash_bound (hash := call_hash_func (lh_hash lh)) (cmp := call_cmp_func (lh_comp lh)) d).
Qed.

Lemma uniq_replace lh d old k :
  uniq (call_cmp_func (lh_comp lh)) (old :: k) -> same lh old d -> uniq (call_cmp_func (lh_comp lh)) (d :: k).
Proof.
  intros [Hf Hk] Hs. split; [|done]. rewrite Forall_forall in *. intros y Hy E. apply (Hf y Hy).
  by apply (same_trans old d y).
Qed.

Lemma retrieve_deref lh d :
  OPENSSL_lh_retrieve call_hash_func call_cmp_func lh d =
    item_data <$> deref lh (fst (get_next_ptr_and_hash call_hash_func call_cmp_func lh d)).
Proof. done. Qed.

(** What an operation on the contents leaves alone. *)
Definition same_table lh lh' : Prop :=
  lh_comp lh' = lh_comp lh /\ lh_hash lh' = lh_hash lh /\ callback_depth lh' = callback_depth lh.

Lemma replace_ok lh d b k old hash :
  lh_wf lh -> get_next_ptr_and_hash call_hash_func call_cmp_func lh d = ((b, k), hash) ->
  deref lh (b, k) = Some old ->
  let lh' := set_bucket lh b (<[k := Item (item_id old) d (item_hash old)]> (bucket lh b)) (num_items lh) (next_id lh) in
  lh_wf lh' /\ exists r, datas lh ≡ₚ item_data old :: r /\ datas lh' ≡ₚ d :: r.
Proof.
  intros Hwf Hg Ho lh'. pose proof (deref_spec lh d (b, k) Hwf) as Hd. rewrite Hg, Ho in Hd.
  destruct (Hd eq_refl) as [_ Hs]. pose proof (search_bucket lh d Hwf) as Hb.
  unfold get_next_ptr_and_hash in Hg. injection Hg as Hbe Hke Hhe. rewrite Hbe in Hb.
  destruct (bucket_perm lh b Hb) as (rest & Hp & Hset). unfold deref in Ho. cbn [fst snd] in Ho.
  destruct (chain_at _ _ _ Ho) as [Hc Hins].
  assert (items lh ≡ₚ old :: delete k (bucket lh b) ++ rest) as Hit by (by rewrite Hp, Hc at 1).
  assert (items lh' ≡ₚ Item (item_id old) d (item_hash old) :: delete k (bucket lh b) ++ rest) as Hit'.
  { subst lh'. by rewrite Hset, Hins. }
  assert (datas lh ≡ₚ item_data old :: (item_data <$> (delete k (bucket lh b) ++ rest))) as Hda by (unfold datas; by rewrite Hit).
  assert (datas lh' ≡ₚ d :: (item_data <$> (delete k (bucket lh b) ++ rest))) as Hda' by (unfold datas; by rewrite Hit').
  split; [|by eexists].
  assert ((item_id <$> items lh') ≡ₚ (item_id <$> items lh)) as Hids by (by rewrite Hit, Hit').
  apply set_bucket_wf; try done; fold lh'.
  - intros it [j Hj]%list_elem_of_lookup. apply list_lookup_insert_Some in Hj as [(_ & <- & _)|[_ Hj]].
    + destruct (bucket_items_ok lh b old Hwf Hb) as [Hh Hm]; [by eapply list_elem_of_lookup_2|].
      split; [|done]. cbn. rewrite Hh. by apply (same_hash (cmp := call_cmp_func (lh_comp lh))).
    + apply bucket_items_ok; [done|done|]. by eapply list_elem_of_lookup_2.
  - rewrite (wf_num_items _ Hwf). unfold Zlen. by rewrite Hit, Hit'.
  - by apply wf_max.
  - eapply uniq_perm; [apply Hsame|by symmetry|]. eapply uniq_replace; [|exact Hs].
    eapply uniq_perm; [apply Hsame|exact Hda|]. by apply wf_uniq.
  - rewrite Hids. by apply wf_ids.
  - pose proof (wf_next _ Hwf) as Hn. rewrite Hit in Hn. rewrite Hit'. by inversion_clear Hn; constructor.
Qed.

Lemma append_item_ok lh d b k hash :
  lh_wf lh -> num_items lh < SIZE_MAX ->
  get_next_ptr_and_hash call_hash_func call_cmp_func lh d = ((b, k), hash) -> deref lh (b, k) = None ->
  let lh' := set_bucket lh b (bucket lh b ++ [Item (next_id lh) d hash]) (u64 (num_items lh + 1)) (S (next_id lh)) in
  lh_wf lh' /\ datas lh' ≡ₚ d :: datas lh.
Proof.
  intros Hwf Hn Hg Ho lh'. pose proof (deref_spec lh d (b, k) Hwf) as Hd. rewrite Hg, Ho in Hd.
  specialize (Hd eq_refl). pose proof (search_bucket lh d Hwf) as Hb.
  unfold get_next_ptr_and_hash in Hg. injection Hg as Hbe Hke Hhe. rewrite Hbe in Hb.
  destruct (bucket_perm lh b Hb) as (rest & Hp & Hset).
  assert (items lh' ≡ₚ Item (next_id lh) d hash :: items lh) as Hit.
  { subst lh'. rewrite Hset, Hp, <- app_assoc. cbn. by rewrite Permutation_middle. }
  assert (datas lh' ≡ₚ d :: datas lh) as Hda by (unfold datas; by rewrite Hit).
  split; [|done]. apply set_bucket_wf; try done; fold lh'.
  - intros it [Hi| ->%list_elem_of_singleton]%elem_of_app; [by apply bucket_items_ok|].
    split; cbn; [done|]. by rewrite <- Hhe.
  - unfold Zlen. rewrite Hit. cbn [length]. pose proof (wf_num_items _ Hwf) as Hni. unfold Zlen, SIZE_MAX, u64 in *.
    rewrite Z.mod_small; lia.
  - pose proof (Z.mod_pos_bound (num_items lh + 1) (2 ^ 64)). unfold SIZE_MAX, u64 in *. lia.
  - eapply uniq_perm; [apply Hsame|by symmetry|]. split; [|by apply wf_uniq]. apply Forall_forall.
    intros y (it & Hi & <-)%elem_datas E. apply (Hd it Hi). by apply same_sym.
  - rewrite Hit. cbn. apply NoDup_cons. split; [|by apply wf_ids]. intros (it & E & Hi)%list_elem_of_fmap.
    pose proof (wf_next _ Hwf) as Hx. rewrite Forall_forall in Hx. specialize (Hx it Hi). lia.
  - rewrite Hit. constructor; [cbn; lia|]. eapply Forall_impl; [by apply wf_next|]. cbn. lia.
Qed.

Lemma remove_ok lh d b k it hash :
  lh_wf lh -> get_next_ptr_and_hash call_hash_func call_cmp_func lh d = ((b, k), hash) ->
  deref lh (b, k) = Some it ->
  let lh' := set_bucket lh b (delete k (bucket lh b)) (u64 (num_items lh - 1)) (next_id lh) in
  lh_wf lh' /\ datas lh ≡ₚ item_data it :: datas lh'.
Proof.
  intros Hwf Hg Ho lh'. pose proof (search_bucket lh d Hwf) as Hb.
  unfold get_next_ptr_and_hash in Hg. injection Hg as Hbe Hke Hhe. rewrite Hbe in Hb.
  destruct (bucket_perm lh b Hb) as (rest & Hp & Hset). unfold deref in Ho. cbn [fst snd] in Ho.
  destruct (chain_at _ _ _ Ho) as [Hc _].
  assert (items lh ≡ₚ it :: items lh') as Hit.
  { subst lh'. rewrite Hset, Hp, Hc at 1. done. }
  assert (datas lh ≡ₚ item_data it :: datas lh') as Hda by (unfold datas; by rewrite Hit).
  split; [|done]. apply set_bucket_wf; try done; fold lh'.
  - intros x Hx. apply bucket_items_ok; [done|done|]. eapply elem_of_submseteq; [exact Hx|].
    apply sublist_submseteq, sublist_delete.
  - pose proof (wf_num_items _ Hwf) as Hni. unfold Zlen in *. rewrite Hit in Hni. cbn [length] in Hni.
    pose proof (wf_max _ Hwf). unfold SIZE_MAX, u64 in *. rewrite Z.mod_small; lia.
  - pose proof (Z.mod_pos_bound (num_items lh - 1) (2 ^ 64)). unfold SIZE_MAX, u64 in *. lia.
  - pose proof (wf_uniq _ Hwf) as Hu. eapply uniq_perm in Hu; [|apply Hsame|exact Hda]. apply Hu.
  - pose proof (wf_ids _ Hwf) as Hu. rewrite Hit in Hu. cbn in Hu. by apply NoDup_cons in Hu as [_ Hu].
  - pose proof (wf_next _ Hwf) as Hu. rewrite Hit in Hu. by apply Forall_cons in Hu as [_ Hu].
Qed.

Lemma resized_datas lh lh' : resized lh lh' -> datas lh' ≡ₚ datas lh.
Proof. intros (Hi & _). unfold datas. by rewrite Hi. Qed.

(** ** Iteration with a callback that may delete the item it is given *)

Definition del_callback {A} (f : Z -> A -> bool * A) (x : Z) (st : lhash_st Hash Cmp * A * H)
    : lhash_st Hash Cmp * A * H :=
  let '(lh, a, h) := st in
  let '(del, a) := f x a in
  if (del : bool) then
    let '(_, lh, h) := OPENSSL_lh_delete call_hash_func call_cmp_func lh x h in (lh, a, h)
  else (lh, a, h).

Lemma uniq_middle (cmp : Z -> Z -> Z) l x k y : uniq cmp (l ++ x :: k) -> y ∈ l -> cmp y x <> 0.
Proof.
  induction l as [|z l IH]; cbn; [by intros _ ?%not_elem_of_nil|].
  rewrite Forall_app, Forall_cons. intros [(_ & Hx & _) Hu] [->|Hy]%elem_of_cons; auto.
Qed.

Lemma chain_find_middle f pre it rest :
  (forall x, x ∈ pre -> f x = false) -> f it = true -> chain_find f (pre ++ it :: rest) = length pre.
Proof.
  intros Hp Hf. induction pre as [|x pre IH]; cbn; [by rewrite Hf|].
  rewrite Hp by left. f_equal. apply IH. intros y Hy. apply Hp. by right.
Qed.

Lemma chain_from_middle pre it rest :
  NoDup (item_id <$> (pre ++ it :: rest)) -> chain_from (item_id it) (pre ++ it :: rest) = it :: rest.
Proof.
  induction pre as [|x pre IH]; cbn; [by rewrite Nat.eqb_refl|]. intros [Hx Hn]%NoDup_cons.
  destruct (Nat.eqb_spec (item_id x) (item_id it)) as [E|]; [|auto].
  exfalso. apply Hx. rewrite E. apply list_elem_of_fmap. exists it. split; [done|]. apply elem_of_app. right. left.
Qed.

(** What holds of one chain of a well-formed table. *)
Lemma chain_facts lh b pre it rest :
  lh_wf lh -> (b < length (buckets lh))%nat -> bucket lh b = pre ++ it :: rest ->
  fst (get_next_ptr_and_hash call_hash_func call_cmp_func lh (item_data it)) = (b, length pre) /\
  chain_from (item_id it) (bucket lh b) = it :: rest.
Proof.
  intros Hwf Hb Hc. destruct (bucket_perm lh b Hb) as (r & Hp & _). rewrite Hc in Hp.
  destruct (bucket_items_ok lh b it Hwf Hb) as [Hh Hm].
  { rewrite Hc. apply elem_of_app. right. left. }
  split.
  - unfold get_next_ptr_and_hash. cbn [fst]. rewrite <- Hh, Hm. f_equal. rewrite Hc.
    apply chain_find_middle; [|by apply Z.eqb_eq, same_refl]. intros x Hx. apply Z.eqb_neq.
    apply (uniq_middle _ (item_data <$> pre) _ (item_data <$> (rest ++ r))); [|by apply list_elem_of_fmap_2].
    eapply uniq_perm; [apply Hsame| |by apply wf_uniq]. unfold datas. by rewrite Hp, <- app_assoc, fmap_app.
  - rewrite Hc. apply chain_from_middle. pose proof (wf_ids _ Hwf) as Hn. rewrite Hp, fmap_app in Hn.
    by apply NoDup_app in Hn as [Hn _].
Qed.

Lemma delete_exact lh b pre it rest h :
  lh_wf lh -> (b < length (buckets lh))%nat -> bucket lh b = pre ++ it :: rest -> 0 < callback_depth lh ->
  let lh' := set_bucket lh b (pre ++ rest) (u64 (num_items lh - 1)) (next_id lh) in
  OPENSSL_lh_delete call_hash_func call_cmp_func lh (item_data it) h = (Some (item_data it), lh', h) /\ lh_wf lh'.
Proof.
  intros Hwf Hb Hc Hd lh'. destruct (chain_facts lh b pre it rest Hwf Hb Hc) as [Hg _].
  unfold OPENSSL_lh_delete. destruct (get_next_ptr_and_hash _ _ lh (item_data it)) as [p hash] eqn:Eg.
  cbn [fst] in Hg. subst p.
  assert (deref lh (b, length pre) = Some it) as Hit.
  { unfold deref. cbn [fst snd]. rewrite Hc. by apply list_lookup_middle. }
  rewrite Hit. destruct (remove_ok _ _ _ _ _ _ Hwf Eg Hit) as [Hwf' _].
  assert (delete (length pre) (bucket lh b) = pre ++ rest) as Hdel by (rewrite Hc; apply delete_middle).
  rewrite Hdel in *. fold lh' in Hwf' |- *. unfold lh_maybe_resize.
  change (callback_depth lh') with (callback_depth lh).
  destruct (Z.gtb_spec (callback_depth lh) 0); [done|lia].
Qed.

(** The chain of a bucket replaced by what is kept of it. *)
Definition bucket_filtered lh b chain lh' : Prop :=
  buckets lh' = <[b := chain]> (buckets lh) /\ num_buckets lh' = num_buckets lh /\ same_table lh lh'.

Lemma doall_chain_ok {A} (f : Z -> A -> bool * A) rest : forall fuel lh b pre a h,
  lh_wf lh -> (b < length (buckets lh))%nat -> 0 < callback_depth lh ->
  bucket lh b = pre ++ rest -> (length rest < fuel)%nat ->
  exists lh', let '(kept, a') := filter_state (fun it => f (item_data it)) rest a in
    doall_chain fuel (del_callback f) b (item_id <$> head rest) (lh, a, h) = Some (lh', a', h) /\
    lh_wf lh' /\ bucket_filtered lh b (pre ++ kept) lh'.
Proof.
  induction rest as [|it rest IH]; intros fuel lh b pre a h Hwf Hb Hd Hc Hf; (destruct fuel as [|fuel]; [cbn in Hf; lia|]).
  { exists lh. cbn. split_and!; [done|done|]. split_and!; try done.
    symmetry. apply list_insert_id. rewrite <- Hc. by apply list_lookup_lookup_total_lt. }
  cbn [head fmap option_fmap option_map doall_chain fst].
  rewrite (proj2 (chain_facts lh b pre it rest Hwf Hb Hc)). cbn [filter_state del_callback].
  destruct (f (item_data it) a) as [[] a1].
  - destruct (delete_exact lh b pre it rest h Hwf Hb Hc Hd) as [-> Hwf'].
    set (lh1 := set_bucket _ _ _ _ _) in *.
    destruct (IH fuel lh1 b pre a1 h) as (lh2 & E); [done|by cbn; rewrite length_insert|done| |cbn in Hf; lia|].
    { unfold bucket, lh1. cbn. by apply list_lookup_total_insert_eq. }
    exists lh2. destruct (filter_state _ rest a1) as [kept a2]. destruct E as (-> & Hwf2 & Hbk & Hn & Hs).
    split_and!; [done|done|]. split_and!; [|done|done]. rewrite Hbk. apply list_insert_insert_eq.
  - destruct (IH fuel lh b (pre ++ [it]) a1 h) as (lh2 & E); [done|done|done| |cbn in Hf; lia|].
    { by rewrite <- app_assoc. }
    exists lh2. destruct (filter_state _ rest a1) as [kept a2]. destruct E as (-> & Hwf2 & Hbk & Hn & Hs).
    split_and!; [done|done|]. split_and!; [|done|done]. by rewrite Hbk, <- app_assoc.
Qed.

Lemma doall_buckets_ok {A} (f : Z -> A -> bool * A) n fuel lh i a h :
  lh_wf lh -> 0 < callback_depth lh -> (length (buckets lh) < n + i)%nat -> (i <= length (buckets lh))%nat ->
  (length (concat (drop i (buckets lh))) < fuel)%nat ->
  exists lh', let '(kept, a') := filter_state (fun it => f (item_data it)) (concat (drop i (buckets lh))) a in
    doall_buckets n fuel (del_callback f) i (lh, a, h) = Some (lh', a', h) /\
    lh_wf lh' /\ items lh' = concat (take i (buckets lh)) ++ kept /\ same_table lh lh'.
Proof.
  revert lh i a. induction n as [|n IH]; intros lh i a Hwf Hd Hn Hi Hf; [lia|].
  cbn [doall_buckets fst]. pose proof (wf_buckets _ Hwf) as Hlen.
  destruct (Z.ltb_spec (Z.of_nat i) (num_buckets lh)) as [Hlt|Hge].
  2: { exists lh. rewrite drop_ge by lia. cbn. rewrite take_ge, app_nil_r by lia. done. }
  assert (buckets lh !! i = Some (bucket lh i)) as Hlk by (apply list_lookup_lookup_total_lt; lia).
  rewrite (drop_S _ _ _ Hlk) in *. cbn [concat] in *. rewrite length_app in Hf. rewrite filter_state_app.
  destruct (doall_chain_ok f (bucket lh i) fuel lh i [] a h) as (lh1 & E); [done|lia|done|done|lia|].
  destruct (filter_state _ (bucket lh i) a) as [kept1 a1]. destruct E as (-> & Hwf1 & Hbk & Hnb & Hs). cbn [mbind option_bind app] in *.
  destruct (IH lh1 (S i) a1) as (lh2 & E); try done.
  { destruct Hs as (_ & _ & ->). done. }
  1-2: rewrite Hbk, length_insert; lia.
  { rewrite Hbk, drop_insert_lt by lia. lia. }
  rewrite Hbk, drop_insert_lt in E by lia. exists lh2.
  destruct (filter_state _ (concat (drop (S i) (buckets lh))) a1) as [kept2 a2].
  destruct E as (-> & Hwf2 & Hit & Hs2). split_and!; [done|done| |].
  - rewrite Hit. erewrite take_S_r by (apply list_lookup_insert_eq; lia). rewrite take_insert_ge by lia.
    rewrite concat_app. cbn. by rewrite app_nil_r, <- app_assoc.
  - destruct Hs as (? & ? & ?), Hs2 as (? & ? & ?). split_and!; congruence.
Qed.

(** * The map *)

Abbreviation retrieve := (OPENSSL_lh_retrieve call_hash_func call_cmp_func).

#[local] Instance same_equiv lh : Equivalence (same lh).
Proof.
  split; unfold same.
  - intros x. apply same_refl.
  - intros x y. apply same_sym.
  - intros x y z. apply same_trans.
Qed.

Lemma retrieve_ext lh lh' e : lh_wf lh -> lh_wf lh' -> lh_comp lh' = lh_comp lh ->
  (forall x, same lh x e -> x ∈ datas lh' <-> x ∈ datas lh) -> retrieve lh' e = retrieve lh e.
Proof.
  intros Hwf Hwf' Hc Hx. apply option_eq. intros x. rewrite !retrieve_Some by done.
  unfold same at 1. rewrite Hc. fold (same lh x e). split; intros [Hi Hs]; (split; [by apply Hx|done]).
Qed.

Lemma retrieve_inserted lh lh' d e old r :
  lh_wf lh -> lh_wf lh' -> lh_comp lh' = lh_comp lh ->
  datas lh ≡ₚ option_list old ++ r -> (forall x, old = Some x -> same lh x d) -> datas lh' ≡ₚ d :: r ->
  retrieve lh' e = if call_cmp_func (lh_comp lh) d e =? 0 then Some d else retrieve lh e.
Proof.
  intros Hwf Hwf' Hc Hd Hold Hd'. destruct (Z.eqb_spec (call_cmp_func (lh_comp lh) d e) 0) as [E|E].
  - apply retrieve_Some; [done|]. split; [rewrite Hd'; left|]. unfold same. by rewrite Hc.
  - apply retrieve_ext; try done. intros x Hx. rewrite Hd, Hd', elem_of_cons, elem_of_app. split.
    + intros [->|]; [done|by right].
    + intros [Ho|]; [|by right]. destruct old as [y|]; [|by apply not_elem_of_nil in Ho].
      apply list_elem_of_singleton in Ho as ->. exfalso. apply E. change (same lh d e).
      transitivity y; [symmetry; by apply Hold|done].
Qed.

Lemma retrieve_deleted lh lh' d e x :
  lh_wf lh -> lh_wf lh' -> lh_comp lh' = lh_comp lh -> datas lh ≡ₚ x :: datas lh' -> same lh x d ->
  retrieve lh' e = if call_cmp_func (lh_comp lh) d e =? 0 then None else retrieve lh e.
Proof.
  intros Hwf Hwf' Hc Hd Hx. destruct (Z.eqb_spec (call_cmp_func (lh_comp lh) d e) 0) as [E|E].
  - apply retrieve_None; [done|]. intros y Hy Hs. unfold same in Hs. rewrite Hc in Hs.
    pose proof (wf_uniq _ Hwf) as Hu. eapply uniq_perm in Hu; [|apply Hsame|exact Hd]. destruct Hu as [Hf _].
    rewrite Forall_forall in Hf. apply (Hf y Hy). change (same lh x y). change (same lh d e) in E.
    change (same lh y e) in Hs. by rewrite Hx, E, Hs.
  - apply retrieve_ext; try done. intros y Hy. rewrite Hd, elem_of_cons. split; [auto|].
    intros [->|]; [|done]. exfalso. apply E. change (same lh d e). by rewrite <- Hx.
Qed.

Lemma new_ok hash comp h lh h' : OPENSSL_lh_new hash comp h = (Some lh, h') ->
  lh_wf lh /\ datas lh = [] /\ lh_comp lh = comp /\ lh_hash lh = hash /\ callback_depth lh = 0.
Proof.
  unfold OPENSSL_lh_new. intros Hn. st_inv. split_and!; try done.
  split; cbn; try done. exact (placed_empty _ _ 16). constructor.
Qed.

Lemma num_items_perm lh lh' x :
  lh_wf lh -> lh_wf lh' -> datas lh ≡ₚ x :: datas lh' -> num_items lh = 1 + num_items lh'.
Proof.
  intros Hwf Hwf' Hd. rewrite (wf_num_items _ Hwf), (wf_num_items _ Hwf'). unfold Zlen.
  rewrite <- (length_fmap item_data), <- (length_fmap item_data (items lh')).
  fold (datas lh) (datas lh'). rewrite Hd. cbn [length]. lia.
Qed.

Lemma rebucket_total `{!MallocTotal H} lh n h : 0 <= n <= 2 ^ 50 -> exists h',
  lh_rebucket lh n h = (Lhash (num_items lh)
    (fold_left (push_front n) (items lh) (replicate (Z.to_nat n) [])) n
    (callback_depth lh) (lh_comp lh) (lh_hash lh) (next_id lh), h').
Proof.
  intros Hn. unfold lh_rebucket. assert (u64 (8 * n) = 8 * n) as -> by (unfold u64; apply Z.mod_small; lia).
  rewrite Z.mul_comm, Z.div_mul, Z.eqb_refl by lia. cbn [negb].
  destruct (OPENSSL_malloc_total (n * 8) h ltac:(lia)) as (b & h' & Hm).
  unfold OPENSSL_zalloc. rewrite (st_bind_some _ _ _ _ _ Hm). unfold st_ret. eauto.
Qed.

Lemma maybe_resize_load `{!MallocTotal H} lh h lh' h' :
  callback_depth lh = 0 -> kMinNumBuckets <= num_buckets lh <= 2 ^ 49 -> 0 <= num_items lh <= 3 * num_buckets lh ->
  lh_maybe_resize lh h = (lh', h') -> num_items lh' < 3 * num_buckets lh'.
Proof.
  unfold kMinNumBuckets. intros Hd Hn Hi. unfold lh_maybe_resize, kMaxAverageChainLength, kMinAverageChainLength.
  rewrite Hd. cbn [Z.gtb Z.compare].
  assert (u64 (num_buckets lh * 2) = num_buckets lh * 2) as -> by (unfold u64; apply Z.mod_small; lia).
  destruct (Z.gtb_spec (num_items lh / num_buckets lh) 2) as [Ha|Ha].
  - destruct (Z.gtb_spec (num_buckets lh * 2) (num_buckets lh)); [|lia].
    destruct (rebucket_total lh (num_buckets lh * 2) h) as [h1 ->]; [lia|]. intros [= <- _]. cbn. lia.
  - assert (num_items lh < 3 * num_buckets lh) by (apply Z.nle_gt; intros ?; pose proof (Z.div_le_lower_bound (num_items lh) (num_buckets lh) 3); lia).
    destruct (Z.ltb_spec (num_items lh / num_buckets lh) 1) as [Hb|Hb]; cbn [andb]; [|intros [= <- _]; lia].
    destruct (_ >? _); [|intros [= <- _]; lia].
    assert (num_items lh < num_buckets lh) by (apply Z.nle_gt; intros ?; pose proof (Z.div_le_lower_bound (num_items lh) (num_buckets lh) 1); lia).
    unfold kMinNumBuckets. set (n := if num_buckets lh / 2 <? 16 then 16 else num_buckets lh / 2).
    assert (num_buckets lh / 2 <= n <= num_buckets lh) by (unfold n; destruct (Z.ltb_spec (num_buckets lh / 2) 16); dlia).
    destruct (rebucket_total lh n h) as [h1 ->]; [clearbody n; dlia|]. intros [= <- _]. cbn [num_items num_buckets].
    clearbody n. dlia.
Qed.

Lemma insert_wf lh d h : lh_wf lh -> num_items lh < SIZE_MAX ->
  lh_wf (OPENSSL_lh_insert call_hash_func call_cmp_func lh d h).1.2.
Proof.
  intros Hwf Hn. unfold OPENSSL_lh_insert. destruct (get_next_ptr_and_hash _ _ lh d) as [[b k] hash] eqn:Eg.
  destruct (deref lh (b, k)) as [old|] eqn:Ed; [by apply (replace_ok _ _ _ _ _ _ Hwf Eg Ed)|].
  destruct (OPENSSL_malloc 24 h) as [[p|] h1]; [|done].
  destruct (append_item_ok _ _ _ _ _ Hwf Hn Eg Ed) as (Hwf' & _).
  destruct (lh_maybe_resize _ h1) as [lh2 h2] eqn:Er. by destruct (maybe_resize_ok _ _ _ _ Hwf' Er).
Qed.

(** * Theorems *)

(** C11. Insertion into a well-formed table: on success what is equal to [data] is
    now [data] and every other lookup is as before, [*old_data] is what was
    replaced, and the count follows; on an allocation failure nothing has
    changed.  The table stays well formed through any resizing. *)
Theorem OPENSSL_lh_insert_spec lh d h (Hwf : lh_wf lh) (Hn : num_items lh < SIZE_MAX) :
  let '(r, old, lh', h') := OPENSSL_lh_insert call_hash_func call_cmp_func lh d h in
  lh_wf lh' /\ same_table lh lh' /\
  if (r : bool) then
    old = retrieve lh d /\
    (forall e, retrieve lh' e = if call_cmp_func (lh_comp lh) d e =? 0 then Some d else retrieve lh e) /\
    num_items lh' = num_items lh + (if old is Some _ then 0 else 1)
  else old = None /\ lh' = lh /\ retrieve lh d = None /\ OPENSSL_malloc 24 h = (None, h').
Proof.
  unfold OPENSSL_lh_insert. destruct (get_next_ptr_and_hash _ _ lh d) as [[b k] hash] eqn:Eg.
  assert (retrieve lh d = item_data <$> deref lh (b, k)) as Hr by (by rewrite retrieve_deref, Eg).
  pose proof (deref_spec lh d (b, k) Hwf) as Hd. rewrite Eg in Hd. specialize (Hd eq_refl).
  destruct (deref lh (b, k)) as [old|] eqn:Ed; cbn in Hr.
  - destruct (replace_ok _ _ _ _ _ _ Hwf Eg Ed) as (Hwf' & r & Hda & Hda').
    split_and!; try done. { intros e. apply (retrieve_inserted lh _ d e (Some (item_data old)) r); try done.
      intros x [= <-]. apply Hd. } cbn. lia.
  - destruct (OPENSSL_malloc 24 h) as [[p|] h1] eqn:Em; [|done].
    destruct (append_item_ok _ _ _ _ _ Hwf Hn Eg Ed) as (Hwf' & Hda).
    set (lh1 := set_bucket _ _ _ _ _) in *.
    destruct (lh_maybe_resize lh1 h1) as [lh2 h2] eqn:Er.
    destruct (maybe_resize_ok _ _ _ _ Hwf' Er) as (Hwf2 & Hres & _). pose proof (resized_datas _ _ Hres) as Hda2.
    destruct Hres as (_ & Hn2 & Hc2 & Hh2 & Hd2 & _). split_and!; try done.
    + intros e. apply (retrieve_inserted lh lh2 d e None (datas lh)); try done. by rewrite Hda2.
    + rewrite Hn2. subst lh1. cbn. pose proof (Zlen_nonneg (items lh)). pose proof (wf_num_items _ Hwf).
      unfold u64, SIZE_MAX in *. rewrite Z.mod_small; lia.
Qed.

(** C12. Deletion from a well-formed table: it returns what was found equal to
    [data], nothing equal to it is left, every other lookup is as before, and
    the count follows; when nothing is found nothing changes. *)
Theorem OPENSSL_lh_delete_spec lh d h (Hwf : lh_wf lh) :
  let '(r, lh', h') := OPENSSL_lh_delete call_hash_func call_cmp_func lh d h in
  lh_wf lh' /\ same_table lh lh' /\ r = retrieve lh d /\
  (forall e, retrieve lh' e = if call_cmp_func (lh_comp lh) d e =? 0 then None else retrieve lh e) /\
  num_items lh' = num_items lh - (if r is Some _ then 1 else 0) /\ (r = None -> lh' = lh).
Proof.
  unfold OPENSSL_lh_delete. destruct (get_next_ptr_and_hash _ _ lh d) as [[b k] hash] eqn:Eg.
  assert (retrieve lh d = item_data <$> deref lh (b, k)) as Hr by (by rewrite retrieve_deref, Eg).
  pose proof (deref_spec lh d (b, k) Hwf) as Hd. rewrite Eg in Hd. specialize (Hd eq_refl).
  destruct (deref lh (b, k)) as [it|] eqn:Ed; cbn in Hr.
  - destruct (remove_ok _ _ _ _ _ _ Hwf Eg Ed) as (Hwf' & Hda). set (lh1 := set_bucket _ _ _ _ _) in *.
    destruct (lh_maybe_resize lh1 h) as [lh2 h2] eqn:Er.
    destruct (maybe_resize_ok _ _ _ _ Hwf' Er) as (Hwf2 & Hres & _). pose proof (resized_datas _ _ Hres) as Hda2.
    destruct Hres as (_ & Hn2 & Hc2 & Hh2 & Hd2 & _). split_and!; try done.
    + intros e. apply (retrieve_deleted lh lh2 d e (item_data it)); try done; [by rewrite Hda2|apply Hd].
    + rewrite Hn2. apply num_items_perm in Hda; [lia|done..].
  - split_and!; try done; [|lia]. intros e. destruct (Z.eqb_spec (call_cmp_func (lh_comp lh) d e) 0) as [E|]; [|done].
    change (same lh d e) in E. apply retrieve_None; [done|]. intros x (it & Hi & <-)%elem_datas Hs.
    apply (Hd it Hi). by rewrite Hs, E.
Qed.

(** C35. Iteration with a callback that may delete the item it is given: it ends,
    visits every datum once, in bucket order, and what is left is what the
    callback kept. *)
Theorem OPENSSL_lh_doall_arg_spec {A} (f : Z -> A -> bool * A) fuel lh a h
    (Hwf : lh_wf lh) (Hd : 0 <= callback_depth lh < UINT_MAX - 1) (Hf : num_items lh < Z.of_nat fuel) :
  let '(kept, a') := filter_state f (datas lh) a in
  exists lh' h', OPENSSL_lh_doall_arg fuel (del_callback f) (Some lh) a h = Some (Some lh', a', h') /\
    lh_wf lh' /\ datas lh' ≡ₚ kept /\ same_table lh lh'.
Proof.
  unfold OPENSSL_lh_doall_arg. destruct (Z.ltb_spec (callback_depth lh) UINT_MAX); [|lia].
  set (lh1 := set_depth lh (callback_depth lh + 1)).
  assert (lh_wf lh1) as Hwf1 by (destruct Hwf; by split).
  pose proof (wf_num_items _ Hwf) as Hn. unfold Zlen, items in Hn.
  pose proof (wf_buckets _ Hwf) as Hb.
  destruct (doall_buckets_ok f (S (Z.to_nat (num_buckets lh1))) fuel lh1 0 a h) as (lh2 & E);
    [done|cbn; lia| |apply Nat.le_0_l| |].
  { rewrite Nat.add_0_r. apply Nat.lt_succ_r. change (num_buckets lh1) with (num_buckets lh). by rewrite <- Hb, Nat2Z.id. }
  { change (drop 0 (buckets lh1)) with (buckets lh). lia. }
  change (concat (drop 0 (buckets lh1))) with (items lh) in E. cbn [take concat app] in E.
  change (datas lh) with (item_data <$> items lh) at 1. rewrite (filter_state_fmap item_data f).
  destruct (filter_state _ (items lh) a) as [kept a'].
  destruct E as (-> & Hwf2 & Hit & Hc2 & Hh2 & Hd2). cbn [mbind option_bind].
  change (callback_depth lh1) with (callback_depth lh + 1) in Hd2. rewrite Hd2.
  destruct (Z.ltb_spec (callback_depth lh + 1) UINT_MAX); [|lia].
  set (lh3 := set_depth lh2 (callback_depth lh + 1 - 1)).
  assert (lh_wf lh3) as Hwf3 by (destruct Hwf2; by split).
  destruct (lh_maybe_resize lh3 h) as [lh4 h4] eqn:Er. exists lh4, h4.
  destruct (maybe_resize_ok _ _ _ _ Hwf3 Er) as (Hwf4 & Hres & _). pose proof (resized_datas _ _ Hres) as Hda.
  destruct Hres as (_ & _ & Hc4 & Hh4 & Hd4 & _). split_and!; [done|done| |].
  - rewrite Hda. unfold datas. change (items lh3) with (items lh2). by rewrite Hit.
  - split_and!; [by rewrite Hc4|by rewrite Hh4|]. rewrite Hd4. subst lh3. cbn. lia.
Qed.


End lhash.

(** * Witnesses: addresses equal when their last two digits are *)

Definition hash10 (_ : unit) (x : Z) : Z := x mod 10.
Definition cmp100 (_ : unit) (x y : Z) : Z := (x - y) mod 100.

#[export] Instance cmp100_laws c : SameLaws (cmp100 c).
Proof. unfold cmp100. split; intros; dlia. Qed.
#[export] Instance hash10_laws h c : HashLaws (hash10 h) (cmp100 c).
Proof. unfold hash10, cmp100. split; intros; dlia. Qed.

Definition lh_empty : lhash_st unit unit := Lhash 0 (replicate 16 []) 16 0 tt tt 0.
Definition lh_example : lhash_st unit unit := Eval vm_compute in
  fold_left (fun lh d => (OPENSSL_lh_insert hash10 cmp100 lh d tt).1.2) [105; 7; 15; 25] lh_empty.

Lemma lh_example_wf : lh_wf hash10 cmp100 lh_example.
Proof.
  assert (lh_example = fold_left (fun lh d => (OPENSSL_lh_insert hash10 cmp100 lh d tt).1.2) [105; 7; 15; 25] lh_empty)
    as -> by (vm_compute; reflexivity).
  cbn [fold_left]. do 4 (refine (insert_wf hash10 cmp100 _ _ _ _ _); [|vm_compute; reflexivity]).
  by apply (new_ok hash10 cmp100 tt tt tt lh_empty tt).
Qed.

Lemma OPENSSL_lh_insert_spec_witness :
  let '(_, old, lh', _) := OPENSSL_lh_insert hash10 cmp100 lh_example 205 tt in
  old = Some 105 /\ OPENSSL_lh_retrieve hash10 cmp100 lh' 5 = Some 205 /\
  OPENSSL_lh_retrieve hash10 cmp100 lh' 15 = Some 15.
Proof.
  pose proof (OPENSSL_lh_insert_spec hash10 cmp100 lh_example 205 tt lh_example_wf eq_refl) as E.
  destruct (OPENSSL_lh_insert hash10 cmp100 lh_example 205 tt) as [[[r old] lh'] h'] eqn:Ei.
  vm_compute in Ei. injection Ei as <- _ _ _. destruct E as (_ & _ & -> & E & _).
  split_and!; [done|by rewrite E|by rewrite E].
Defined.

Lemma OPENSSL_lh_delete_spec_witness :
  let '(r, lh', _) := OPENSSL_lh_delete hash10 cmp100 lh_example 5 tt in
  r = Some 105 /\ OPENSSL_lh_retrieve hash10 cmp100 lh' 205 = None /\
  OPENSSL_lh_retrieve hash10 cmp100 lh' 25 = Some 25.
Proof.
  pose proof (OPENSSL_lh_delete_spec hash10 cmp100 lh_example 5 tt lh_example_wf) as E.
  destruct (OPENSSL_lh_delete hash10 cmp100 lh_example 5 tt) as [[r lh'] h'].
  destruct E as (_ & _ & -> & E & _). split_and!; [done|by rewrite E|by rewrite E].
Defined.

(** Delete the data below 20, and count them. *)
Lemma OPENSSL_lh_doall_arg_spec_witness :
  exists lh' h', OPENSSL_lh_doall_arg 5 (del_callback hash10 cmp100 (fun x (n : Z) => (x <? 20, n + 1)))
      (Some lh_example) 0 tt = Some (Some lh', 4, h') /\ datas lh' ≡ₚ [105; 25].
Proof.
  destruct (OPENSSL_lh_doall_arg_spec hash10 cmp100 (fun x (n : Z) => (x <? 20, n + 1)) 5 lh_example 0 tt
    lh_example_wf) as (lh' & h' & E & _ & Hd & _); [done|done|].
  exists lh', h'. split; [exact E|exact Hd].
Defined.

