(* ===== verification/Pb.v ===== *)
(** What the two halves of nanopb share ([nanopb/pb.h]): wire types, the error
    messages, integer conversions, and the part of a field descriptor that the
    field codecs look at. *)
From S2P Require Import Prelude.

(** The messages that [PB_RETURN_ERROR] records. *)
Inductive pb_error :=
  | end_of_stream | io_error | varint_overflow | invalid_wire_type | parent_stream_too_short
  | invalid_data_size | integer_too_large | bytes_overflow | incorrect_fixed_length_bytes_size
  | stream_full | submsg_size_changed | invalid_field_type | bytes_size_exceeded.

(** [pb_wire_type_t], an integer: any value of three bits can be read. *)
Definition PB_WT_VARINT : Z := 0.
Definition PB_WT_64BIT : Z := 1.
Definition PB_WT_STRING : Z := 2.
Definition PB_WT_32BIT : Z := 5.

Definition PB_LTYPE_BOOL : Z := 0x00.
Definition PB_LTYPE_VARINT : Z := 0x01.
Definition PB_LTYPE_UVARINT : Z := 0x02.
Definition PB_LTYPE_SVARINT : Z := 0x03.
Definition PB_LTYPE_FIXED32 : Z := 0x04.
Definition PB_LTYPE_FIXED64 : Z := 0x05.
Definition PB_LTYPE_BYTES : Z := 0x06.
Definition PB_LTYPE_STRING : Z := 0x07.
Definition PB_LTYPE_SUBMESSAGE : Z := 0x08.
Definition PB_LTYPE_FIXED_LENGTH_BYTES : Z := 0x0A.
Definition PB_LTYPE_MASK : Z := 0x0F.
Definition PB_LTYPE (x : Z) : Z := Z.land x PB_LTYPE_MASK.

(** [PB_SIZE_MAX] with [PB_FIELD_32BIT], which the pod is built with. *)
Definition PB_SIZE_MAX : Z := 2 ^ 32 - 1.

Definition PB_LTYPE_EXTENSION : Z := 0x09.

Definition PB_HTYPE_REQUIRED : Z := 0x00.
Definition PB_HTYPE_REPEATED : Z := 0x20.
Definition PB_HTYPE_ONEOF : Z := 0x30.
Definition PB_HTYPE (x : Z) : Z := Z.land x 0x30.

Definition PB_ATYPE_STATIC : Z := 0x00.
Definition PB_ATYPE_POINTER : Z := 0x80.
Definition PB_ATYPE (x : Z) : Z := Z.land x 0xC0.

(** [pb_field_t] without [ptr], the descriptor of a submessage or a default. *)
Record pb_field_s := PbField {
  tag : Z;
  type : Z;
  data_offset : Z;    (** relative to the end of the previous field *)
  size_offset : Z;    (** relative to the data *)
  data_size : Z;
  array_size : Z;
}.

Definition PB_LAST_FIELD : pb_field_s := PbField 0 0 0 0 0 0.

(** [(intN_t)v]. *)
Definition to_signed (w v : Z) : Z := (v + 2 ^ (w - 1)) mod 2 ^ w - 2 ^ (w - 1).

Lemma to_signed_mod w v : 0 < w -> to_signed w v mod 2 ^ w = v mod 2 ^ w.
Proof.
  intros Hw. unfold to_signed. rewrite Zminus_mod_idemp_l. f_equal. lia.
Qed.

Lemma to_signed_range w v : 0 < w -> - 2 ^ (w - 1) <= to_signed w v < 2 ^ (w - 1).
Proof.
  intros Hw. unfold to_signed. assert (2 ^ w = 2 * 2 ^ (w - 1)) as E
    by (rewrite <- Z.pow_succ_r by lia; f_equal; lia).
  pose proof (Z.mod_pos_bound (v + 2 ^ (w - 1)) (2 ^ w) ltac:(lia)). lia.
Qed.

Lemma to_signed_small w v : 0 < w -> - 2 ^ (w - 1) <= v < 2 ^ (w - 1) -> to_signed w v = v.
Proof.
  intros Hw Hv. unfold to_signed. assert (2 ^ w = 2 * 2 ^ (w - 1)) as E
    by (rewrite <- Z.pow_succ_r by lia; f_equal; lia).
  rewrite Z.mod_small by lia. lia.
Qed.

Lemma to_signed_wrap w v : 0 < w -> - 2 ^ (w - 1) <= v < 2 ^ (w - 1) -> to_signed w (v mod 2 ^ w) = v.
Proof.
  intros Hw Hv. rewrite <- (to_signed_small w v) at 2 by done.
  unfold to_signed. by rewrite Zplus_mod_idemp_l.
Qed.
