(* ===== verification/PbIter.v ===== *)
(** The iterator over the fields of a message ([nanopb/pb_common.c]), which the
    encoder and the decoder share. *)
From S2P Require Import Prelude Pb.

(** [start] is the array up to its terminator [PB_LAST_FIELD], [pos] an index
    into it; the other three are addresses. *)
Record pb_field_iter_s := PbFieldIter {
  start : list pb_field_s;
  pos : nat;
  required_field_index : Z;
  dest_struct : Z;
  pData : Z;
  pSize : Z;
}.

Definition field_at (fields : list pb_field_s) (pos : nat) : pb_field_s := nth pos fields PB_LAST_FIELD.

Definition NULL : Z := 0.

Definition pb_field_iter_begin (fields : list pb_field_s) (dest_struct : Z) : bool * pb_field_iter_s :=
  let f := field_at fields 0 in
  let pData := if dest_struct =? NULL then NULL else dest_struct + data_offset f in
  let pSize := if dest_struct =? NULL then NULL else pData + size_offset f in
  (negb (tag f =? 0), PbFieldIter fields 0 0 dest_struct pData pSize).

Definition pb_field_iter_next (iter : pb_field_iter_s) : bool * pb_field_iter_s :=
  let prev_field := field_at (start iter) (pos iter) in
  if tag prev_field =? 0 then (false, iter)
  else
    let f := field_at (start iter) (S (pos iter)) in
    if tag f =? 0 then (false, snd (pb_field_iter_begin (start iter) (dest_struct iter)))
    else if (PB_HTYPE (type prev_field) =? PB_HTYPE_ONEOF) && (PB_HTYPE (type f) =? PB_HTYPE_ONEOF)
         && (data_offset f =? PB_SIZE_MAX)
    then (true, PbFieldIter (start iter) (S (pos iter)) (required_field_index iter) (dest_struct iter)
                  (pData iter) (pSize iter))
    else
      let prev_size :=
        if (PB_ATYPE (type prev_field) =? PB_ATYPE_STATIC) && (PB_HTYPE (type prev_field) =? PB_HTYPE_REPEATED)
        then data_size prev_field * array_size prev_field
        else if PB_ATYPE (type prev_field) =? PB_ATYPE_POINTER then 8
        else data_size prev_field in
      let required :=
        if PB_HTYPE (type prev_field) =? PB_HTYPE_REQUIRED then u32 (required_field_index iter + 1)
        else required_field_index iter in
      let data := pData iter + prev_size + data_offset f in
      (true, PbFieldIter (start iter) (S (pos iter)) required (dest_struct iter) data (data + size_offset f)).

Definition is_field (tag' : Z) (f : pb_field_s) : bool :=
  (tag f =? tag') && negb (PB_LTYPE (type f) =? PB_LTYPE_EXTENSION).

(** The loop, which ends when the iterator is back at [start]. *)
Fixpoint iter_find_loop (fuel : nat) (start' : nat) (tag' : Z) (iter : pb_field_iter_s) : bool * pb_field_iter_s :=
  match fuel with
  | O => (false, iter)
  | S fuel =>
      if is_field tag' (field_at (start iter) (pos iter)) then (true, iter)
      else
        let iter := snd (pb_field_iter_next iter) in
        if (pos iter =? start')%nat then (false, iter) else iter_find_loop fuel start' tag' iter
  end.

(** The iterator passes every field once. *)
Definition pb_field_iter_find (iter : pb_field_iter_s) (tag' : Z) : bool * pb_field_iter_s :=
  iter_find_loop (S (length (start iter))) (pos iter) tag' iter.

(** * The fields of a message

    [iter_at fields dest k] is the iterator after [k] calls of
    [pb_field_iter_next]. *)
Definition iter_at (fields : list pb_field_s) (dest : Z) (k : nat) : pb_field_iter_s :=
  Nat.iter k (fun iter => snd (pb_field_iter_next iter)) (snd (pb_field_iter_begin fields dest)).

(** No field of a message is its terminator. *)
Definition fields_ok (fields : list pb_field_s) : Prop := Forall (fun f => tag f <> 0) fields.

Section iter.
Context (fields : list pb_field_s) (dest : Z) (Hok : fields_ok fields).

Lemma field_at_ok k : (k < length fields)%nat -> tag (field_at fields k) <> 0.
Proof.
  intros Hk. unfold field_at. destruct (nth_lookup_or_length fields k PB_LAST_FIELD) as [E|]; [|lia].
  unfold fields_ok in Hok. rewrite Forall_lookup in Hok. by apply (Hok k).
Qed.

Lemma iter_at_fields k :
  (k < length fields)%nat ->
  pos (iter_at fields dest k) = k /\ start (iter_at fields dest k) = fields /\ dest_struct (iter_at fields dest k) = dest.
Proof.
  induction k as [|k IH]; intros Hk; [done|]. destruct IH as (Hp & Hs & Hd); [lia|].
  change (iter_at fields dest (S k)) with (snd (pb_field_iter_next (iter_at fields dest k))).
  unfold pb_field_iter_next. rewrite Hp, Hs, Hd.
  destruct (Z.eqb_spec (tag (field_at fields k)) 0) as [E|_]; [by apply field_at_ok in E; [|lia]|].
  destruct (Z.eqb_spec (tag (field_at fields (S k))) 0) as [E|_]; [by apply field_at_ok in E|].
  by destruct (_ && _).
Qed.

(** The iterator steps through the fields in order and then starts again. *)
Lemma pb_field_iter_next_at k :
  (k < length fields)%nat ->
  pb_field_iter_next (iter_at fields dest k) =
    if (S k <? length fields)%nat then (true, iter_at fields dest (S k)) else (false, iter_at fields dest 0).
Proof.
  intros Hk. destruct (iter_at_fields k Hk) as (Hp & Hs & Hd).
  change (iter_at fields dest (S k)) with (snd (pb_field_iter_next (iter_at fields dest k))).
  unfold pb_field_iter_next. rewrite Hp, Hs, Hd.
  destruct (Z.eqb_spec (tag (field_at fields k)) 0) as [E|_]; [by apply field_at_ok in E|].
  destruct (Nat.ltb_spec (S k) (length fields)).
  - destruct (Z.eqb_spec (tag (field_at fields (S k))) 0) as [E|_]; [by apply field_at_ok in E|]. by destruct (_ && _).
  - assert (field_at fields (S k) = PB_LAST_FIELD) as -> by (apply nth_overflow; lia). done.
Qed.

Definition next_pos (k : nat) : nat := if (S k <? length fields)%nat then S k else 0%nat.

Lemma pb_field_iter_next_pos k :
  (k < length fields)%nat -> snd (pb_field_iter_next (iter_at fields dest k)) = iter_at fields dest (next_pos k).
Proof. intros Hk. rewrite pb_field_iter_next_at by done. unfold next_pos. by destruct (S k <? length fields)%nat. Qed.

(** The loop on [m] fields in a row from [j], the place [k] where it ends not
    among them. *)
Lemma iter_find_segment tag' k m j fuel :
  (j + m <= length fields)%nat -> (0 < m <= fuel)%nat -> (forall i, j < i < j + m -> i <> k)%nat ->
  iter_find_loop fuel k tag' (iter_at fields dest j) =
    match list_find (fun f => is_field tag' f = true) (take m (drop j fields)) with
    | Some (d, _) => (true, iter_at fields dest (j + d))
    | None =>
        if (next_pos (j + m - 1) =? k)%nat then (false, iter_at fields dest k)
        else iter_find_loop (fuel - m) k tag' (iter_at fields dest (next_pos (j + m - 1)))
    end.
Proof.
  revert j fuel. induction m as [|m IH]; intros j fuel Hj Hf Hk; [lia|]. destruct fuel as [|fuel]; [lia|].
  cbn [iter_find_loop]. destruct (iter_at_fields j ltac:(lia)) as (Hp & Hs & _). rewrite Hp, Hs.
  assert (drop j fields = field_at fields j :: drop (S j) fields) as ->.
  { unfold field_at. destruct (nth_lookup_or_length fields j PB_LAST_FIELD) as [E|]; [|lia]. by apply drop_S. }
  cbn [take list_find]. destruct (is_field tag' (field_at fields j)) eqn:Ef.
  { rewrite decide_True by done. by rewrite Nat.add_0_r. }
  rewrite decide_False by congruence. rewrite pb_field_iter_next_pos by lia.
  assert (next_pos j < length fields)%nat as Hnext by (unfold next_pos; destruct (Nat.ltb_spec (S j) (length fields)); lia).
  destruct (iter_at_fields _ Hnext) as (-> & _ & _). destruct (decide (m = 0%nat)) as [->|Hm].
  - cbn [take list_find]. replace (j + 1 - 1)%nat with j by lia. rewrite Nat.sub_succ, Nat.sub_0_r.
    destruct (Nat.eqb_spec (next_pos j) k) as [->|]; done.
  - assert (next_pos j = S j) as -> by (unfold next_pos; destruct (Nat.ltb_spec (S j) (length fields)); lia).
    destruct (Nat.eqb_spec (S j) k) as [E|_]; [exfalso; apply (Hk (S j)); lia|].
    rewrite IH by (lia || (intros i Hi; apply Hk; lia)). replace (S j + m - 1)%nat with (j + S m - 1)%nat by lia.
    destruct (list_find _ _) as [[d f]|]; cbn -[iter_at]; [|done]. by rewrite Nat.add_succ_r.
Qed.

End iter.

(** C33. [pb_field_iter_find] looks at every field of the message once, from the
    current one to the last and then from the first on: it stops at the first
    one that has the tag and is not an extension range, with the iterator that
    [pb_field_iter_next] makes for it, and otherwise comes back to where it was. *)
Theorem pb_field_iter_find_spec fields dest tag' k :
  fields_ok fields -> (k < length fields)%nat ->
  pb_field_iter_find (iter_at fields dest k) tag' =
    match list_find (fun f => is_field tag' f = true) (drop k fields) with
    | Some (d, _) => (true, iter_at fields dest (k + d))
    | None =>
        match list_find (fun f => is_field tag' f = true) (take k fields) with
        | Some (d, _) => (true, iter_at fields dest d)
        | None => (false, iter_at fields dest k)
        end
    end.
Proof.
  intros Hok Hk. unfold pb_field_iter_find. destruct (iter_at_fields fields dest Hok k Hk) as (-> & -> & _).
  rewrite (iter_find_segment fields dest Hok tag' k (length fields - k) k) by (intros; lia).
  rewrite (take_ge (drop k fields)) by (rewrite length_drop; lia).
  destruct (list_find _ (drop k fields)) as [[d f]|]; [done|].
  replace (k + (length fields - k) - 1)%nat with (length fields - 1)%nat by lia.
  assert (forall n, next_pos fields (length fields - 1) = n <-> n = 0%nat) as Hlast.
  { intros n. unfold next_pos. destruct (Nat.ltb_spec (S (length fields - 1)) (length fields)); lia. }
  rewrite (proj2 (Hlast 0%nat) eq_refl). destruct (Nat.eqb_spec 0 k) as [<-|]; [by cbn|].
  rewrite (iter_find_segment fields dest Hok tag' k k 0) by (intros; lia). rewrite drop_0.
  destruct (list_find _ (take k fields)) as [[d f]|]; [done|].
  assert (next_pos fields (0 + k - 1) = k) as ->.
  { unfold next_pos. destruct (Nat.ltb_spec (S (0 + k - 1)) (length fields)); lia. }
  by rewrite Nat.eqb_refl.
Qed.

Lemma pb_field_iter_find_spec_witness :
  let fields := [PbField 1 PB_LTYPE_BOOL 0 0 1 0; PbField 3 PB_LTYPE_UVARINT 3 0 4 0] in
  fields_ok fields /\ (1 < length fields)%nat /\
  pb_field_iter_find (iter_at fields 4096 1) 1 = (true, iter_at fields 4096 0).
Proof.
  assert (fields_ok [PbField 1 PB_LTYPE_BOOL 0 0 1 0; PbField 3 PB_LTYPE_UVARINT 3 0 4 0]) as Hok by (repeat constructor; done).
  cbv zeta. split; [exact Hok|]. split; [cbn; lia|].
  rewrite (pb_field_iter_find_spec _ 4096 1 1 Hok) by (cbn; lia). reflexivity.
Defined.
