(* ===== verification/PbDecode.v ===== *)
(** The wire layer of nanopb's decoder ([nanopb/pb_decode.c]): input streams,
    varints, tags, skipping, substreams, and the decoders of numeric fields. *)
From S2P Require Import Prelude Pb.

(** * Input streams

    A stream reads through a callback over a state of its own; [buf_read], whose
    state is the memory behind a pointer, is the one of the library. *)
Class IStream (S : Type) := {
  callback : Z -> ST S bytes;
  is_buf_read : bool;
}.

Record pb_istream_s (S : Type) := PbIstream {
  state : S;
  bytes_left : Z;
  errmsg : option pb_error;
}.
Arguments PbIstream {S}.
Arguments state {S}.
Arguments bytes_left {S}.
Arguments errmsg {S}.

(** The bytes from the pointer on: reading advances the pointer. *)
Definition buf_read (count : Z) : ST bytes bytes := fun source =>
  (Some (take (Z.to_nat count) source), drop (Z.to_nat count) source).

#[export] Instance buf_istream : IStream bytes := { callback := buf_read; is_buf_read := true }.

Definition pb_istream_from_buffer (buf : bytes) (bufsize : Z) : pb_istream_s bytes :=
  PbIstream buf bufsize None.

Section decode.
Context {S : Type} `{IStream S}.
Abbreviation stream := (pb_istream_s S).

(** The first message is kept. *)
Definition PB_SET_ERROR (msg : pb_error) (st : stream) : stream :=
  PbIstream (state st) (bytes_left st) (match errmsg st with Some e => Some e | None => Some msg end).

Definition PB_RETURN_ERROR {A} (msg : pb_error) : ST stream A := fun st => (None, PB_SET_ERROR msg st).

Definition pb_callback (count : Z) : ST stream bytes := fun st =>
  let '(r, s) := callback count (state st) in (r, PbIstream s (bytes_left st) (errmsg st)).

Definition set_bytes_left (n : Z) (st : stream) : stream := PbIstream (state st) n (errmsg st).

(** [pb_read] of a count above 0, without the special case for skipping. *)
Definition pb_read_some (count : Z) : ST stream bytes := fun st =>
  if bytes_left st <? count then PB_RETURN_ERROR end_of_stream st
  else
    match pb_callback count st with
    | (None, st) => PB_RETURN_ERROR io_error st
    | (Some buf, st) => (Some buf, set_bytes_left (bytes_left st - count) st)
    end.

Definition pb_read (count : Z) : ST stream bytes :=
  if count =? 0 then st_ret [] else pb_read_some count.

(** [pb_read] with [buf == NULL]: [n] chunks of 16 and the rest, unless the
    callback is [buf_read]. *)
Fixpoint pb_skip_chunks (n : nat) (count : Z) : ST stream unit :=
  match n with
  | O => pb_read count ;;; st_ret tt
  | Datatypes.S n => pb_read 16 ;;; pb_skip_chunks n (count - 16)
  end.

Definition pb_read_null (count : Z) : ST stream unit :=
  if count =? 0 then st_ret tt
  else if negb is_buf_read then pb_skip_chunks (Z.to_nat ((count - 1) / 16)) count
  else pb_read_some count ;;; st_ret tt.

Definition pb_readbyte : ST stream Z := fun st =>
  if bytes_left st =? 0 then PB_RETURN_ERROR end_of_stream st
  else
    match pb_callback 1 st with
    | (Some (b :: _), st) => (Some b, set_bytes_left (bytes_left st - 1) st)
    | (_, st) => PB_RETURN_ERROR io_error st
    end.

(** * Varints *)

(** The loop of the multibyte case; [bitpos] has 8 bits.  Every pass takes a
    byte off the stream. *)
Fixpoint varint32_loop (fuel : nat) (bitpos result : Z) : ST stream Z :=
  match fuel with
  | O => st_fail
  | Datatypes.S fuel =>
      byte <-- pb_readbyte ;;
      result <--
        (if bitpos >=? 32 then
           let sign_extension := if bitpos <? 63 then 0xFF else 0x01 in
           if negb (Z.land byte 0x7F =? 0) && ((Z.shiftr result 31 =? 0) || negb (byte =? sign_extension))
           then PB_RETURN_ERROR varint_overflow
           else st_ret result
         else st_ret (Z.lor result (u32 (Z.shiftl (Z.land byte 0x7F) bitpos)))) ;;
      let bitpos := u8 (bitpos + 7) in
      if negb (Z.land byte 0x80 =? 0) then varint32_loop fuel bitpos result
      else if (bitpos =? 35) && negb (Z.land byte 0x70 =? 0) then PB_RETURN_ERROR varint_overflow
      else st_ret result
  end.

(** The result and [eof]. *)
Definition pb_decode_varint32_eof (st : stream) : option Z * bool * stream :=
  match pb_readbyte st with
  | (None, st) => (None, bytes_left st =? 0, st)
  | (Some byte, st) =>
      if Z.land byte 0x80 =? 0 then (Some byte, false, st)
      else
        let '(r, st) := varint32_loop (Datatypes.S (Z.to_nat (bytes_left st))) 7 (Z.land byte 0x7F) st in
        (r, false, st)
  end.

Definition pb_decode_varint32 : ST stream Z := fun st =>
  let '(r, _, st) := pb_decode_varint32_eof st in (r, st).

Fixpoint varint_loop (fuel : nat) (bitpos result : Z) : ST stream Z :=
  match fuel with
  | O => st_fail
  | Datatypes.S fuel =>
      if bitpos >=? 64 then PB_RETURN_ERROR varint_overflow
      else
        byte <-- pb_readbyte ;;
        let result := Z.lor result (u64 (Z.shiftl (Z.land byte 0x7F) bitpos)) in
        if negb (Z.land byte 0x80 =? 0) then varint_loop fuel (u8 (bitpos + 7)) result else st_ret result
  end.

(** [bitpos] is 0, 7, ..., 63 in ten passes, and 70 in the eleventh. *)
Definition pb_decode_varint : ST stream Z := varint_loop 11 0 0.

Fixpoint skip_varint_loop (fuel : nat) : ST stream unit :=
  match fuel with
  | O => st_fail
  | Datatypes.S fuel =>
      buf <-- pb_read 1 ;;
      if negb (Z.land (hd 0 buf) 0x80 =? 0) then skip_varint_loop fuel else st_ret tt
  end.

Definition pb_skip_varint : ST stream unit := fun st =>
  skip_varint_loop (Datatypes.S (Z.to_nat (bytes_left st))) st.

Definition pb_skip_string : ST stream unit :=
  length <-- pb_decode_varint32 ;; pb_read_null length.

(** [wire_type] and [tag], and [eof]. *)
Definition pb_decode_tag (st : stream) : option (Z * Z) * bool * stream :=
  match pb_decode_varint32_eof st with
  | (None, eof, st) => (None, eof, st)
  | (Some temp, eof, st) =>
      if temp =? 0 then (None, true, st)
      else (Some (Z.land temp 7, Z.shiftr temp 3), eof, st)
  end.

Definition pb_skip_field (wire_type : Z) : ST stream unit :=
  if wire_type =? PB_WT_VARINT then pb_skip_varint
  else if wire_type =? PB_WT_64BIT then pb_read_null 8
  else if wire_type =? PB_WT_STRING then pb_skip_string
  else if wire_type =? PB_WT_32BIT then pb_read_null 4
  else PB_RETURN_ERROR invalid_wire_type.

(** [max_size] is a bound on the passes. *)
Fixpoint raw_varint_loop (max_size : nat) : ST stream bytes :=
  match max_size with
  | O => st_fail
  | Datatypes.S max_size =>
      buf <-- pb_read 1 ;;
      if negb (Z.land (hd 0 buf) 0x80 =? 0) then rest <-- raw_varint_loop max_size ;; st_ret (buf ++ rest)
      else st_ret buf
  end.

Definition read_raw_value (wire_type : Z) (max_size : nat) : ST stream bytes :=
  if wire_type =? PB_WT_VARINT then raw_varint_loop max_size
  else if wire_type =? PB_WT_64BIT then pb_read 8
  else if wire_type =? PB_WT_32BIT then pb_read 4
  else PB_RETURN_ERROR invalid_wire_type.

(** * Substreams

    The substream starts as a copy of [stream], whose state only moves when the
    substream is closed. *)

Definition pb_make_string_substream : ST stream stream :=
  size <-- pb_decode_varint32 ;;
  fun st =>
    if bytes_left st <? size then PB_RETURN_ERROR parent_stream_too_short st
    else (Some (set_bytes_left size st), set_bytes_left (bytes_left st - size) st).

Definition pb_close_string_substream (substream : stream) : ST stream unit := fun st =>
  match
    (if negb (bytes_left substream =? 0) then pb_read_null (bytes_left substream) substream
     else (Some tt, substream))
  with
  | (None, _) => (None, st)
  | (Some _, substream) => (Some tt, PbIstream (state substream) (bytes_left st) (errmsg substream))
  end.

(** * Numbers *)

Definition pb_dec_bool : ST stream bool :=
  value <-- pb_decode_varint32 ;; st_ret (negb (value =? 0)).

Definition pb_decode_bool : ST stream bool := pb_dec_bool.

Definition pb_decode_svarint : ST stream Z :=
  value <-- pb_decode_varint ;;
  if negb (Z.land value 1 =? 0) then st_ret (to_signed 64 (u64 (Z.lnot (Z.shiftr value 1))))
  else st_ret (to_signed 64 (Z.shiftr value 1)).

(** The [i]th byte of [bytes], shifted to its place. *)
Definition byte_at (l : bytes) (i : nat) : Z := Z.shiftl (nth i l 0) (8 * Z.of_nat i).

Definition pb_decode_fixed32 : ST stream Z :=
  l <-- pb_read 4 ;;
  st_ret (Z.lor (Z.lor (Z.lor (byte_at l 0) (byte_at l 1)) (byte_at l 2)) (byte_at l 3)).

Definition pb_decode_fixed64 : ST stream Z :=
  l <-- pb_read 8 ;;
  st_ret (Z.lor (Z.lor (Z.lor (Z.lor (Z.lor (Z.lor (Z.lor (byte_at l 0) (byte_at l 1)) (byte_at l 2))
    (byte_at l 3)) (byte_at l 4)) (byte_at l 5)) (byte_at l 6)) (byte_at l 7)).

(** The number stored in a field of [data_size] bytes: [cast w v] is the
    conversion to its type of [w] bits. *)
Definition store_field (cast : Z -> Z -> Z) (field : pb_field_s) (value : Z) : ST stream Z :=
  if negb (bool_decide (data_size field ∈ [8; 4; 2; 1])) then PB_RETURN_ERROR invalid_data_size
  else
    let clamped := cast (8 * data_size field) value in
    if negb (clamped =? value) then PB_RETURN_ERROR integer_too_large else st_ret clamped.

Definition pb_dec_varint (field : pb_field_s) : ST stream Z :=
  value <-- pb_decode_varint ;;
  let svalue := if data_size field =? 8 then to_signed 64 value else to_signed 32 value in
  store_field to_signed field svalue.

Definition pb_dec_uvarint (field : pb_field_s) : ST stream Z :=
  value <-- pb_decode_varint ;; store_field (fun w v => v mod 2 ^ w) field value.

Definition pb_dec_svarint (field : pb_field_s) : ST stream Z :=
  value <-- pb_decode_svarint ;; store_field to_signed field value.

Definition pb_dec_fixed32 : ST stream Z := pb_decode_fixed32.
Definition pb_dec_fixed64 : ST stream Z := pb_decode_fixed64.

(** The [data_size] bytes of the field. *)
Definition pb_dec_fixed_length_bytes (field : pb_field_s) : ST stream bytes :=
  size <-- pb_decode_varint32 ;;
  if size >? PB_SIZE_MAX then PB_RETURN_ERROR bytes_overflow
  else if size =? 0 then st_ret (replicate (Z.to_nat (data_size field)) 0)
  else if negb (size =? data_size field) then PB_RETURN_ERROR incorrect_fixed_length_bytes_size
  else pb_read (data_size field).

End decode.
