(* ===== verification/PbEncode.v ===== *)
(** The wire layer of nanopb's encoder ([nanopb/pb_encode.c]): output streams,
    which may only count, varints, tags, strings, submessages, and the encoders
    of scalar fields. *)
From S2P Require Import Prelude Pb.

(** * Output streams *)

(** A callback over a state of its own; [o_null] is the state of
    [PB_OSTREAM_SIZING], whose callback is NULL. *)
Class OStream (S : Type) := {
  o_callback : bytes -> ST S unit;
  o_null : S;
}.

Record pb_ostream_s (S : Type) := PbOstream {
  has_callback : bool;    (** [callback != NULL] *)
  o_state : S;
  max_size : Z;
  bytes_written : Z;
  o_errmsg : option pb_error;
}.
Arguments PbOstream {S}.
Arguments has_callback {S}.
Arguments o_state {S}.
Arguments max_size {S}.
Arguments bytes_written {S}.
Arguments o_errmsg {S}.

(** The memory of a buffer and the offset of the pointer into it. *)
Definition buf_write (buf : bytes) : ST (bytes * nat) unit := fun '(mem, dest) =>
  (Some tt, (take dest mem ++ buf ++ drop (dest + length buf) mem, (dest + length buf)%nat)).

#[export] Instance buf_ostream : OStream (bytes * nat) := { o_callback := buf_write; o_null := ([], O) }.

Definition pb_ostream_from_buffer (buf : bytes) (bufsize : Z) : pb_ostream_s (bytes * nat) :=
  PbOstream true (buf, O) bufsize 0 None.

Section encode.
Context {S : Type} `{OStream S}.
Abbreviation stream := (pb_ostream_s S).

Definition PB_OSTREAM_SIZING : stream := PbOstream false o_null 0 0 None.

Definition o_set_error (msg : pb_error) (st : stream) : stream :=
  PbOstream (has_callback st) (o_state st) (max_size st) (bytes_written st)
    (match o_errmsg st with Some e => Some e | None => Some msg end).

Definition o_return_error {A} (msg : pb_error) : ST stream A := fun st => (None, o_set_error msg st).

(** [stream->bytes_written += count]. *)
Definition add_written (count : Z) (st : stream) : stream :=
  PbOstream (has_callback st) (o_state st) (max_size st) (u64 (bytes_written st + count)) (o_errmsg st).

Definition pb_write (buf : bytes) : ST stream unit := fun st =>
  let count := Zlen buf in
  if (count >? 0) && has_callback st then
    if (u64 (bytes_written st + count) <? bytes_written st) || (u64 (bytes_written st + count) >? max_size st)
    then o_return_error stream_full st
    else
      match o_callback buf (o_state st) with
      | (None, s) =>
          o_return_error io_error (PbOstream (has_callback st) s (max_size st) (bytes_written st) (o_errmsg st))
      | (Some _, s) =>
          (Some tt, add_written count (PbOstream (has_callback st) s (max_size st) (bytes_written st) (o_errmsg st)))
      end
  else (Some tt, add_written count st).

(** * Varints *)

(** The loop [while (value)]; a 64-bit value has at most ten digits. *)
Fixpoint varint_buffer (fuel : nat) (value : Z) : bytes :=
  match fuel with
  | O => []
  | Datatypes.S fuel =>
      if negb (value =? 0) then u8 (Z.lor (Z.land value 0x7F) 0x80) :: varint_buffer fuel (Z.shiftr value 7)
      else []
  end.

Definition pb_encode_varint (value : Z) : ST stream unit :=
  if value <=? 0x7F then pb_write [u8 value]
  else
    let buffer := varint_buffer 10 value in
    pb_write (alter (fun b => Z.land b 0x7F) (length buffer - 1)%nat buffer).

Definition pb_encode_svarint (value : Z) : ST stream unit :=
  let zigzagged :=
    if value <? 0 then u64 (Z.lnot (u64 (Z.shiftl (u64 value) 1))) else u64 (Z.shiftl (u64 value) 1) in
  pb_encode_varint zigzagged.

(** * Fixed-width numbers *)

Definition pb_encode_fixed32 (val : Z) : ST stream unit :=
  pb_write [u8 (Z.land val 0xFF); u8 (Z.land (Z.shiftr val 8) 0xFF);
            u8 (Z.land (Z.shiftr val 16) 0xFF); u8 (Z.land (Z.shiftr val 24) 0xFF)].

Definition pb_encode_fixed64 (val : Z) : ST stream unit :=
  pb_write [u8 (Z.land val 0xFF); u8 (Z.land (Z.shiftr val 8) 0xFF);
            u8 (Z.land (Z.shiftr val 16) 0xFF); u8 (Z.land (Z.shiftr val 24) 0xFF);
            u8 (Z.land (Z.shiftr val 32) 0xFF); u8 (Z.land (Z.shiftr val 40) 0xFF);
            u8 (Z.land (Z.shiftr val 48) 0xFF); u8 (Z.land (Z.shiftr val 56) 0xFF)].

(** * Tags, strings, submessages *)

Definition pb_encode_tag (wiretype field_number : Z) : ST stream unit :=
  pb_encode_varint (Z.lor (u64 (Z.shiftl field_number 3)) wiretype).

Definition pb_encode_tag_for_field (field : pb_field_s) : ST stream unit :=
  let ltype := PB_LTYPE (type field) in
  if bool_decide (ltype ∈ [PB_LTYPE_BOOL; PB_LTYPE_VARINT; PB_LTYPE_UVARINT; PB_LTYPE_SVARINT])
  then pb_encode_tag PB_WT_VARINT (tag field)
  else if ltype =? PB_LTYPE_FIXED32 then pb_encode_tag PB_WT_32BIT (tag field)
  else if ltype =? PB_LTYPE_FIXED64 then pb_encode_tag PB_WT_64BIT (tag field)
  else if bool_decide (ltype ∈ [PB_LTYPE_BYTES; PB_LTYPE_STRING; PB_LTYPE_SUBMESSAGE; PB_LTYPE_FIXED_LENGTH_BYTES])
  then pb_encode_tag PB_WT_STRING (tag field)
  else o_return_error invalid_field_type.

(** The [size] bytes of [buffer]. *)
Definition pb_encode_string (buffer : bytes) : ST stream unit :=
  pb_encode_varint (Zlen buffer) ;;; pb_write buffer.

(** [pb_encode] stands for [pb_encode(stream, fields, src_struct)]: what the
    descriptors make of the structure is a program on streams. *)
Definition pb_encode_submessage (pb_encode : ST stream unit) : ST stream unit := fun st =>
  match pb_encode PB_OSTREAM_SIZING with
  | (None, substream) =>
      (None, PbOstream (has_callback st) (o_state st) (max_size st) (bytes_written st) (o_errmsg substream))
  | (Some _, substream) =>
      let size := bytes_written substream in
      (pb_encode_varint size ;;;
       fun st =>
         if negb (has_callback st) then (Some tt, add_written size st)
         else if u64 (bytes_written st + size) >? max_size st then o_return_error stream_full st
         else
           let '(status, substream) := pb_encode (PbOstream true (o_state st) size 0 None) in
           let st := PbOstream (has_callback st) (o_state substream) (max_size st)
             (u64 (bytes_written st + bytes_written substream)) (o_errmsg substream) in
           if negb (bytes_written substream =? size) then o_return_error submsg_size_changed st
           else (status, st)) st
  end.

Definition pb_encode_delimited (pb_encode : ST stream unit) : ST stream unit := pb_encode_submessage pb_encode.

Definition pb_encode_nullterminated (pb_encode : ST stream unit) : ST stream unit :=
  pb_encode ;;; pb_write [0].

Definition pb_get_encoded_size (pb_encode : ST stream unit) : option Z :=
  match pb_encode PB_OSTREAM_SIZING with
  | (None, _) => None
  | (Some _, st) => Some (bytes_written st)
  end.

(** * Fields: [src] is the value of the field *)

Definition pb_enc_bool (src : bool) : ST stream unit := pb_encode_varint (if src then 1 else 0).

Definition valid_data_size (field : pb_field_s) : bool := bool_decide (data_size field ∈ [1; 2; 4; 8]).

Definition pb_enc_varint (field : pb_field_s) (src : Z) : ST stream unit :=
  if negb (valid_data_size field) then o_return_error invalid_data_size else pb_encode_varint (u64 src).

Definition pb_enc_uvarint (field : pb_field_s) (src : Z) : ST stream unit :=
  if negb (valid_data_size field) then o_return_error invalid_data_size else pb_encode_varint src.

Definition pb_enc_svarint (field : pb_field_s) (src : Z) : ST stream unit :=
  if negb (valid_data_size field) then o_return_error invalid_data_size else pb_encode_svarint src.

Definition pb_enc_fixed32 (src : Z) : ST stream unit := pb_encode_fixed32 src.
Definition pb_enc_fixed64 (src : Z) : ST stream unit := pb_encode_fixed64 src.

(** [src] is [None] for NULL; the [size] of a bytes array is the length of its
    [bytes], which come four bytes after it. *)
Definition pb_enc_bytes (field : pb_field_s) (src : option bytes) : ST stream unit :=
  match src with
  | None => pb_encode_string []
  | Some bytes =>
      if (PB_ATYPE (type field) =? PB_ATYPE_STATIC) && (Zlen bytes >? u64 (data_size field - 4))
      then o_return_error bytes_size_exceeded
      else pb_encode_string bytes
  end.

(** The loop over the characters: [max_size] of them, or up to the NUL. *)
Fixpoint enc_string_size (max_size : nat) (p : bytes) : nat :=
  match max_size, p with
  | Datatypes.S max_size, c :: p => if negb (c =? 0) then Datatypes.S (enc_string_size max_size p) else O
  | _, _ => O
  end.

(** [src] is the memory from the pointer on. *)
Definition pb_enc_string (field : pb_field_s) (src : option bytes) : ST stream unit :=
  match src with
  | None => pb_encode_string []
  | Some p =>
      let max_size :=
        if PB_ATYPE (type field) =? PB_ATYPE_POINTER then length p else Z.to_nat (data_size field) in
      pb_encode_string (take (enc_string_size max_size p) p)
  end.

Definition pb_enc_fixed_length_bytes (field : pb_field_s) (src : bytes) : ST stream unit :=
  pb_encode_string (take (Z.to_nat (data_size field)) src).

End encode.

(** [safe_read_bool] on the object representation of a [bool]. *)
Definition safe_read_bool (p : bytes) : bool := existsb (fun b => negb (b =? 0)) p.
