(* ===== verification/PbReadSpec.v ===== *)
(** The decoder as a parser of byte strings: [sees st l t] says which bytes a
    stream may still give ([l]) and which follow its end ([t]); [reads m l r] says
    what the call [m] makes of [l], and that it never takes a byte of [t]. *)
From S2P Require Import Prelude Pb PbDecode.

(** * Base-128 numbers, the least significant digit first *)

(** The encoding of [v] with the fewest digits. *)
Fixpoint varint_digits (n : nat) (v : Z) : bytes :=
  match n with
  | O => []
  | S n => if v <? 128 then [v] else (128 + v mod 128) :: varint_digits n (v / 128)
  end.

Definition varint (v : Z) : bytes := varint_digits 10 v.

(** The digits up to the one that does not announce another, and the rest. *)
Fixpoint varint_split (l : bytes) : option (bytes * bytes) :=
  match l with
  | [] => None
  | b :: l => if b <? 128 then Some ([b], l) else '(d, r) ← varint_split l; Some (b :: d, r)
  end.

Fixpoint digits_val (d : bytes) : Z :=
  match d with [] => 0 | b :: d => b mod 128 + 128 * digits_val d end.

Lemma digits_val_nonneg d : 0 <= digits_val d.
Proof. induction d as [|b d IH]; cbn [digits_val]; [lia|]. dlia. Qed.

Lemma pow128_cons {A} (b : A) d : 2 ^ (7 * Zlen (b :: d)) = 128 * 2 ^ (7 * Zlen d).
Proof.
  rewrite Zlen_cons, Z.mul_add_distr_l, Z.pow_add_r by (pose proof (Zlen_nonneg d); lia). done.
Qed.

Lemma pow128_S n : 2 ^ (7 * Z.of_nat (S n)) = 128 * 2 ^ (7 * Z.of_nat n).
Proof. rewrite Nat2Z.inj_succ, Z.mul_succ_r, Z.pow_add_r by lia. change (2 ^ 7) with 128. lia. Qed.

Lemma digits_val_app d e : digits_val (d ++ e) = digits_val d + 2 ^ (7 * Zlen d) * digits_val e.
Proof.
  induction d as [|b d IH]; cbn [app digits_val].
  - change (Zlen (@nil Z)) with 0. lia.
  - rewrite IH, pow128_cons. lia.
Qed.

Lemma digits_val_lt d : digits_val d < 2 ^ (7 * Zlen d).
Proof.
  induction d as [|b d IH]; cbn [digits_val]; [done|].
  rewrite pow128_cons. dlia.
Qed.

Lemma varint_split_app l d r : varint_split l = Some (d, r) -> l = d ++ r.
Proof.
  revert d. induction l as [|b l IH]; intros d; cbn [varint_split]; [done|].
  destruct (b <? 128); [by intros [= <- <-]|].
  destruct (varint_split l) as [[d' r']|]; cbn; [|done]. intros [= <- <-]. by rewrite (IH _ eq_refl).
Qed.

Lemma varint_split_nonempty l d r : varint_split l = Some (d, r) -> (0 < length d)%nat.
Proof.
  destruct l as [|b l]; cbn [varint_split]; [done|]. destruct (b <? 128); [by intros [= <- _]; cbn; lia|].
  destruct (varint_split l) as [[d' r']|]; cbn; [|done]. intros [= <- _]. cbn. lia.
Qed.

Lemma varint_split_digits n v r :
  0 <= v < 2 ^ (7 * Z.of_nat n) -> (0 < n)%nat -> varint_split (varint_digits n v ++ r) = Some (varint_digits n v, r).
Proof.
  revert v. induction n as [|n IH]; intros v Hv Hn; [lia|]. cbn [varint_digits].
  destruct (Z.ltb_spec v 128); cbn [app varint_split].
  - by destruct (Z.ltb_spec v 128); [|lia].
  - destruct (Z.ltb_spec (128 + v mod 128) 128); [dlia|].
    destruct n as [|n]; [cbn in Hv; lia|]. rewrite IH; [done| |lia].
    rewrite pow128_S in Hv. dlia.
Qed.

Lemma digits_val_digits n v : 0 <= v < 2 ^ (7 * Z.of_nat n) -> digits_val (varint_digits n v) = v.
Proof.
  revert v. induction n as [|n IH]; intros v Hv; cbn [varint_digits]; [cbn in *; lia|].
  destruct (Z.ltb_spec v 128); cbn [digits_val].
  - rewrite Z.mod_small by lia. lia.
  - rewrite pow128_S in Hv. rewrite IH by dlia. dlia.
Qed.

Lemma length_varint_digits n v : (length (varint_digits n v) <= n)%nat.
Proof.
  revert v. induction n as [|n IH]; intros v; cbn [varint_digits]; [done|].
  destruct (v <? 128); cbn [length]; [lia|]. specialize (IH (v / 128)). lia.
Qed.

Lemma varint_digits_ok n v : 0 <= v -> bytes_ok (varint_digits n v).
Proof.
  revert v. induction n as [|n IH]; intros v Hv; cbn [varint_digits]; [constructor|].
  destruct (Z.ltb_spec v 128); solve_bytes; [unfold is_byte; dlia|]. apply IH. dlia.
Qed.

Lemma varint_split_varint v r : 0 <= v < 2 ^ 64 -> varint_split (varint v ++ r) = Some (varint v, r).
Proof. intros. apply varint_split_digits; [|lia]. split; [lia|]. apply Z.lt_le_trans with (2 ^ 64); [lia|done]. Qed.

Lemma digits_val_varint v : 0 <= v < 2 ^ 64 -> digits_val (varint v) = v.
Proof. intros. apply digits_val_digits. split; [lia|]. apply Z.lt_le_trans with (2 ^ 64); [lia|done]. Qed.

Lemma varint_ok v : 0 <= v -> bytes_ok (varint v).
Proof. apply varint_digits_ok. Qed.
#[export] Hint Resolve varint_ok : bytes.

Lemma length_varint v : (length (varint v) <= 10)%nat.
Proof. apply length_varint_digits. Qed.

(** What [pb_decode_varint32] wants of the digits above the low 32 bits: a fifth
    and last digit has four bits; digits after the fifth are zero, or the digits
    of a sign extension if the result is negative. *)
Fixpoint high_digits_ok (negative : bool) (i : nat) (d : bytes) : bool :=
  match d with
  | [] => true
  | b :: d =>
      ((b mod 128 =? 0) || (negative && (b =? (if (i <? 9)%nat then 255 else 1)))) && high_digits_ok negative (S i) d
  end.

Definition digits32_ok (d : bytes) : bool :=
  if (length d =? 5)%nat then nth 4 d 0 <? 16
  else high_digits_ok (2 ^ 31 <=? digits_val d mod 2 ^ 32) 5 (drop 5 d).

Definition varint32_parse (l : bytes) : option (Z * bytes) :=
  '(d, r) ← varint_split l; if digits32_ok d then Some (digits_val d mod 2 ^ 32, r) else None.

(** The encodings on which the bit position of [pb_decode_varint32] does not wrap. *)
Definition short_varint (l : bytes) : Prop := forall d r, varint_split l = Some (d, r) -> (length d <= 36)%nat.

(** [pb_skip_field] as a function of the bytes. *)
Definition skip_bytes (n : Z) (l : bytes) : option (unit * bytes) :=
  if n <=? Zlen l then Some (tt, drop (Z.to_nat n) l) else None.

Definition skip_parse (wire_type : Z) (l : bytes) : option (unit * bytes) :=
  if wire_type =? PB_WT_VARINT then '(_, r) ← varint_split l; Some (tt, r)
  else if wire_type =? PB_WT_64BIT then skip_bytes 8 l
  else if wire_type =? PB_WT_STRING then '(n, r) ← varint32_parse l; skip_bytes n r
  else if wire_type =? PB_WT_32BIT then skip_bytes 4 l
  else None.

(** A digit put in its place. *)
Lemma lor_digit w k r x :
  0 <= k <= w -> 0 <= r < 2 ^ k -> Z.lor r (Z.shiftl x k mod 2 ^ w) = (r + 2 ^ k * x) mod 2 ^ w.
Proof.
  intros Hk Hr. assert (2 ^ w = 2 ^ k * 2 ^ (w - k)) as E by (rewrite <- Z.pow_add_r by lia; f_equal; lia).
  rewrite Z.shiftl_mul_pow2, E, (Z.mul_comm x), Z.mul_mod_distr_l by lia.
  rewrite Z.lor_comm, (Z.mul_comm (2 ^ k) (x mod _)), lor_add_disjoint by lia. rewrite <- E.
  apply Z.mod_unique with (x / 2 ^ (w - k)).
  - pose proof (Z.mod_pos_bound x (2 ^ (w - k)) ltac:(lia)). nia.
  - rewrite (Z.div_mod x (2 ^ (w - k))) at 1 by lia. rewrite E. ring.
Qed.

Lemma digit_bound r p b : 0 <= r < p -> 0 <= r + p * (b mod 128) < 128 * p.
Proof. intros Hr. pose proof (Z.mod_pos_bound b 128 ltac:(lia)). nia. Qed.

Lemma continues b : is_byte b -> (Z.land b 0x80 =? 0) = (b <? 128).
Proof. apply (byte_forall_eq (fun b => Z.land b 0x80 =? 0) (fun b => b <? 128)). byte_compute. Qed.

Lemma digit b : Z.land b 0x7F = b mod 128.
Proof. change 0x7F with (2 ^ 7 - 1). by rewrite land_mask by lia. Qed.

Lemma drop_varint_digits k n v :
  2 ^ (7 * Z.of_nat k) <= v -> (k <= n)%nat ->
  drop k (varint_digits n v) = varint_digits (n - k) (v / 2 ^ (7 * Z.of_nat k)) /\
  length (varint_digits n v) = (k + length (varint_digits (n - k) (v / 2 ^ (7 * Z.of_nat k))))%nat.
Proof.
  revert n v. induction k as [|k IH]; intros n v Hv Hn.
  { change (2 ^ (7 * Z.of_nat 0)) with 1. by rewrite Z.div_1_r, Nat.sub_0_r, drop_0. }
  destruct n as [|n]; [lia|]. rewrite pow128_S in Hv |- *. cbn [varint_digits].
  assert (1 <= 2 ^ (7 * Z.of_nat k)) by lia. destruct (Z.ltb_spec v 128); [lia|]. cbn [drop length].
  destruct (IH n (v / 128) ltac:(dlia) ltac:(lia)) as [-> ->].
  rewrite <- Zdiv_Zdiv by lia. done.
Qed.

Lemma length_varint_digits_lt k n v :
  v < 2 ^ (7 * Z.of_nat (S k)) -> (length (varint_digits n v) <= S k)%nat.
Proof.
  revert n v. induction k as [|k IH]; intros n v Hv; (destruct n as [|n]; [cbn; lia|]); cbn [varint_digits];
    (destruct (Z.ltb_spec v 128); [cbn; lia|]); [cbn in Hv; lia|]. cbn [length].
  rewrite pow128_S in Hv. specialize (IH n (v / 128) ltac:(dlia)). lia.
Qed.

Lemma varint32_parse_small v r : 0 <= v < 2 ^ 32 -> varint32_parse (varint v ++ r) = Some (v, r).
Proof.
  intros Hv. unfold varint32_parse. rewrite varint_split_varint by lia. cbn [mbind option_bind].
  rewrite digits_val_varint, (Z.mod_small v) by lia.
  assert (digits32_ok (varint v) = true) as ->; [|done]. unfold digits32_ok, varint.
  destruct (Z.lt_ge_cases v (2 ^ 28)).
  - pose proof (length_varint_digits_lt 3 10 v ltac:(done)). destruct (Nat.eqb_spec (length (varint_digits 10 v)) 5); [lia|].
    by rewrite drop_ge by lia.
  - destruct (drop_varint_digits 4 10 v) as [Hd ->]; [done|lia|].
    change (10 - 4)%nat with 6%nat in *. change (2 ^ (7 * Z.of_nat 4)) with (2 ^ 28) in *. cbn [varint_digits] in Hd |- *.
    destruct (Z.ltb_spec (v / 2 ^ 28) 128); [|dlia].
    rewrite <- (Nat.add_0_r 4). rewrite <- nth_skipn, Hd. cbn. apply Z.ltb_lt. dlia.
Qed.

Lemma high_digits_ok_small negative k i n u :
  0 < u < 2 ^ (7 * Z.of_nat k) -> (k <= n)%nat -> (i + k <= 9)%nat -> high_digits_ok negative i (varint_digits n u) = false.
Proof.
  revert i n u. induction k as [|k IH]; intros i n u Hu Hn Hi; [cbn in Hu; lia|]. destruct n as [|n]; [lia|].
  cbn [varint_digits]. rewrite pow128_S in Hu. destruct (Z.ltb_spec u 128); cbn [high_digits_ok].
  - rewrite Z.mod_small by lia. destruct (Z.eqb_spec u 0); [lia|]. destruct (Nat.ltb_spec i 9); [|lia].
    destruct (Z.eqb_spec u 255); [lia|]. by rewrite andb_false_r.
  - rewrite IH by dlia. apply andb_false_r.
Qed.

Lemma varint32_parse_large v r : 2 ^ 32 <= v < 2 ^ 63 -> varint32_parse (varint v ++ r) = None.
Proof.
  intros Hv. unfold varint32_parse. rewrite varint_split_varint by lia. cbn [mbind option_bind].
  assert (digits32_ok (varint v) = false) as ->; [|done]. unfold digits32_ok, varint.
  destruct (Z.lt_ge_cases v (2 ^ 35)).
  - destruct (drop_varint_digits 4 10 v) as [Hd ->]; [change (2 ^ 28 <= v); lia|lia|].
    change (10 - 4)%nat with 6%nat in *. change (2 ^ (7 * Z.of_nat 4)) with (2 ^ 28) in *. cbn [varint_digits] in Hd |- *.
    destruct (Z.ltb_spec (v / 2 ^ 28) 128); [|dlia].
    rewrite <- (Nat.add_0_r 4). rewrite <- nth_skipn, Hd. cbn. apply Z.ltb_ge. dlia.
  - destruct (drop_varint_digits 5 10 v) as [-> ->]; [done|lia|]. change (10 - 5)%nat with 5%nat in *.
    change (2 ^ (7 * Z.of_nat 5)) with (2 ^ 35).
    assert (0 < length (varint_digits 5 (v / 2 ^ 35)))%nat by (cbn [varint_digits]; destruct (_ <? _); cbn; lia).
    destruct (Nat.eqb_spec (5 + length (varint_digits 5 (v / 2 ^ 35))) 5); [lia|].
    apply (high_digits_ok_small _ 4); [|lia..]. change (2 ^ (7 * Z.of_nat 4)) with (2 ^ 28). dlia.
Qed.

Lemma varint32_parse_negative w r :
  - 2 ^ 31 <= w < 0 -> varint32_parse (varint (w mod 2 ^ 64) ++ r) = Some (w mod 2 ^ 32, r).
Proof.
  intros Hw. assert (w mod 2 ^ 64 = w + 2 ^ 64) as -> by dlia. unfold varint32_parse.
  rewrite varint_split_varint by lia. cbn [mbind option_bind]. rewrite digits_val_varint by lia.
  assert ((w + 2 ^ 64) mod 2 ^ 32 = w mod 2 ^ 32) as E by dlia. rewrite E.
  assert (digits32_ok (varint (w + 2 ^ 64)) = true) as ->; [|done]. unfold digits32_ok.
  rewrite digits_val_varint, E by lia. unfold varint.
  destruct (drop_varint_digits 5 10 (w + 2 ^ 64)) as [-> ->]; [change (2 ^ 35 <= w + 2 ^ 64); lia|lia|].
  change (2 ^ (7 * Z.of_nat 5)) with (2 ^ 35). assert ((w + 2 ^ 64) / 2 ^ 35 = 2 ^ 29 - 1) as -> by dlia.
  destruct (Z.leb_spec (2 ^ 31) (w mod 2 ^ 32)); [done|dlia].
Qed.

Lemma short_varint_varint v r : 0 <= v < 2 ^ 64 -> short_varint (varint v ++ r).
Proof.
  intros Hv d r' E. rewrite varint_split_varint in E by done. injection E as <- _. pose proof (length_varint v). lia.
Qed.

(** * Streams *)

(** What the callback of a stream owes the library: it gives the next bytes of
    its input as long as there are that many. *)
Class IStreamSpec (S : Type) `{IStream S} := {
  remaining : S -> bytes;
  callback_ok n s : 0 < n <= Zlen (remaining s) -> exists s',
    callback n s = (Some (take (Z.to_nat n) (remaining s)), s') /\ remaining s' = drop (Z.to_nat n) (remaining s);
}.

#[export] Program Instance buf_istream_spec : IStreamSpec bytes := { remaining s := s }.
Next Obligation. intros n s _. by exists (drop (Z.to_nat n) s). Qed.

(** A stream that is not a buffer: a file that counts its calls. *)
#[export] Instance file_istream : IStream (bytes * nat) := {
  callback n '(l, calls) := (if n <=? Zlen l then Some (take (Z.to_nat n) l) else None, (drop (Z.to_nat n) l, S calls));
  is_buf_read := false;
}.

#[export] Program Instance file_istream_spec : IStreamSpec (bytes * nat) := { remaining := fst }.
Next Obligation.
  intros n [l k] Hn. cbn in *. destruct (Z.leb_spec n (Zlen l)); [|lia]. eauto.
Qed.

Section reads.
Context {I : Type} `{IStreamSpec I}.
Abbreviation stream := (pb_istream_s I).

Definition sees (st : stream) (l t : bytes) : Prop := bytes_left st = Zlen l /\ remaining (state st) = l ++ t.

Definition reads {A} (m : ST stream A) (l : bytes) (r : option (A * bytes)) : Prop :=
  forall st t, sees st l t -> exists st',
    match r with
    | Some (a, l') => m st = (Some a, st') /\ sees st' l' t /\ errmsg st' = errmsg st
    | None => m st = (None, st') /\ is_Some (errmsg st') /\ exists l', sees st' l' t
    end.

Lemma reads_ret {A} (a : A) l : reads (st_ret a) l (Some (a, l)).
Proof. intros st t Hs. by exists st. Qed.

Lemma reads_bind {A B} (m : ST stream A) (k : A -> ST stream B) l a l' r :
  reads m l (Some (a, l')) -> reads (k a) l' r -> reads (st_bind m k) l r.
Proof.
  intros Hm Hk st t Hs. destruct (Hm st t Hs) as (st1 & E & Hs1 & He). destruct (Hk st1 t Hs1) as (st2 & Hr).
  exists st2. rewrite (st_bind_some _ _ _ _ _ E). destruct r as [[b l2]|]; [|done]. by rewrite <- He.
Qed.

Lemma reads_bind_fail {A B} (m : ST stream A) (k : A -> ST stream B) l :
  reads m l None -> reads (st_bind m k) l None.
Proof.
  intros Hm st t Hs. destruct (Hm st t Hs) as (st1 & E & Hr). exists st1. by rewrite (st_bind_none _ _ _ _ E).
Qed.

Lemma reads_error {A} msg l : reads (PB_RETURN_ERROR (A := A) msg) l None.
Proof.
  intros st t Hs. eexists. split; [reflexivity|]. split; [cbn; by destruct (errmsg st)|]. by exists l.
Qed.

Lemma pb_callback_ok n st l t :
  sees st l t -> 0 < n <= Zlen l -> exists s',
    pb_callback n st = (Some (take (Z.to_nat n) l), PbIstream s' (bytes_left st) (errmsg st)) /\
    sees (PbIstream s' (bytes_left st - n) (errmsg st)) (drop (Z.to_nat n) l) t.
Proof.
  intros [Hl Hr] Hn. destruct (callback_ok n (state st)) as (s' & E & Hs').
  { rewrite Hr, Zlen_app. pose proof (Zlen_nonneg t). lia. }
  exists s'. unfold pb_callback. rewrite E, Hr, take_app_le by (unfold Zlen in *; lia). split; [done|].
  split; cbn; [rewrite Zlen_drop by lia; lia|]. rewrite Hs', Hr. by rewrite drop_app_le by (unfold Zlen in *; lia).
Qed.

Lemma reads_pb_read_some n l :
  0 < n -> reads (pb_read_some n) l (if n <=? Zlen l then Some (take (Z.to_nat n) l, drop (Z.to_nat n) l) else None).
Proof.
  intros Hn st t Hs. unfold pb_read_some. rewrite (proj1 Hs). destruct (Z.leb_spec n (Zlen l)) as [Hle|Hgt].
  - destruct (Z.ltb_spec (Zlen l) n); [lia|]. destruct (pb_callback_ok n st l t Hs) as (s' & -> & Hs'); [lia|].
    by eexists.
  - destruct (Z.ltb_spec (Zlen l) n); [|lia]. exact (reads_error (A := bytes) _ l st t Hs).
Qed.

Lemma reads_pb_read n l :
  0 <= n -> reads (pb_read n) l (if n <=? Zlen l then Some (take (Z.to_nat n) l, drop (Z.to_nat n) l) else None).
Proof.
  intros Hn. unfold pb_read. destruct (Z.eqb_spec n 0) as [->|]; [|apply reads_pb_read_some; lia].
  destruct (Z.leb_spec 0 (Zlen l)); [|pose proof (Zlen_nonneg l); lia]. rewrite take_0, drop_0. apply reads_ret.
Qed.

Lemma reads_skip_chunks k n l :
  16 * Z.of_nat k <= n ->
  reads (pb_skip_chunks k n) l (if n <=? Zlen l then Some (tt, drop (Z.to_nat n) l) else None).
Proof.
  revert n l. induction k as [|k IH]; intros n l Hn; cbn [pb_skip_chunks].
  - pose proof (reads_pb_read n l ltac:(lia)) as Hr. destruct (n <=? Zlen l).
    + eapply reads_bind; [exact Hr|]. apply reads_ret.
    + by apply reads_bind_fail.
  - pose proof (reads_pb_read 16 l ltac:(lia)) as Hr. destruct (Z.leb_spec 16 (Zlen l)).
    + eapply reads_bind; [exact Hr|]. specialize (IH (n - 16) (drop (Z.to_nat 16) l) ltac:(lia)).
      rewrite Zlen_drop, drop_drop in IH by lia.
      replace (Z.to_nat 16 + Z.to_nat (n - 16))%nat with (Z.to_nat n) in IH by lia.
      by destruct (Z.leb_spec n (Zlen l)), (Z.leb_spec (n - 16) (Zlen l - 16)); try lia.
    + destruct (Z.leb_spec n (Zlen l)); [lia|]. by apply reads_bind_fail.
Qed.

(** Skipping and reading take the same bytes. *)
Lemma reads_pb_read_null n l :
  0 <= n -> reads (pb_read_null n) l (if n <=? Zlen l then Some (tt, drop (Z.to_nat n) l) else None).
Proof.
  intros Hn. unfold pb_read_null. destruct (Z.eqb_spec n 0) as [->|].
  { destruct (Z.leb_spec 0 (Zlen l)); [|pose proof (Zlen_nonneg l); lia]. rewrite drop_0. apply reads_ret. }
  destruct is_buf_read; cbn [negb].
  - pose proof (reads_pb_read_some n l ltac:(lia)) as Hr. destruct (n <=? Zlen l).
    + eapply reads_bind; [exact Hr|]. apply reads_ret.
    + by apply reads_bind_fail.
  - apply reads_skip_chunks. dlia.
Qed.

Lemma reads_pb_readbyte b l : reads pb_readbyte (b :: l) (Some (b, l)).
Proof.
  intros st t Hs. unfold pb_readbyte. rewrite (proj1 Hs), Zlen_cons. pose proof (Zlen_nonneg l).
  destruct (Z.eqb_spec (1 + Zlen l) 0); [lia|].
  destruct (pb_callback_ok 1 st (b :: l) t Hs) as (s' & -> & Hs'); [rewrite Zlen_cons; lia|].
  change (drop (Z.to_nat 1) (b :: l)) with l in Hs'. by eexists.
Qed.

Lemma reads_pb_readbyte_nil : reads pb_readbyte [] None.
Proof.
  intros st t Hs. unfold pb_readbyte. rewrite (proj1 Hs). change (Zlen (@nil Z) =? 0) with true. exact (reads_error (A := Z) _ _ st t Hs).
Qed.

(** * Varints *)

Lemma reads_varint_loop fuel i r l :
  bytes_ok l -> (i + fuel = 11)%nat -> (i = 10%nat \/ 0 <= r < 2 ^ (7 * Z.of_nat i)) -> (i <= 10)%nat ->
  reads (varint_loop fuel (7 * Z.of_nat i) r) l
    ('(d, rest) ← varint_split l;
     if (i + length d <=? 10)%nat then Some ((r + 2 ^ (7 * Z.of_nat i) * digits_val d) mod 2 ^ 64, rest) else None).
Proof.
  revert i r l. induction fuel as [|fuel IH]; intros i r l Hl Hi Hr Hi10; [lia|]. cbn [varint_loop].
  destruct (Z.geb_spec (7 * Z.of_nat i) 64).
  { assert (i = 10%nat) as -> by lia. destruct (varint_split l) as [[d rest]|] eqn:E; cbn; [|apply reads_error].
    apply varint_split_nonempty in E. destruct (length d); [lia|]. apply reads_error. }
  destruct Hr as [|Hr]; [lia|]. destruct l as [|b l]; cbn [varint_split].
  { apply reads_bind_fail, reads_pb_readbyte_nil. }
  simp_bytes. eapply reads_bind; [apply reads_pb_readbyte|]. rewrite continues, digit by done. cbv zeta.
  unfold u64. rewrite lor_digit by lia. destruct (Z.ltb_spec b 128); cbn [negb].
  - cbn. destruct (Nat.leb_spec (i + 1) 10); [|lia]. rewrite Z.mul_0_r, Z.add_0_r. apply reads_ret.
  - specialize (IH (S i) ((r + 2 ^ (7 * Z.of_nat i) * (b mod 128)) mod 2 ^ 64) l).
    unfold u8. rewrite Z.mod_small by lia. replace (7 * Z.of_nat i + 7) with (7 * Z.of_nat (S i)) by lia.
    assert (reads (varint_loop fuel (7 * Z.of_nat (S i)) ((r + 2 ^ (7 * Z.of_nat i) * (b mod 128)) mod 2 ^ 64)) l
      ('(d, rest) ← varint_split l; if (S i + length d <=? 10)%nat then
        Some (((r + 2 ^ (7 * Z.of_nat i) * (b mod 128)) mod 2 ^ 64 + 2 ^ (7 * Z.of_nat (S i)) * digits_val d) mod 2 ^ 64, rest)
        else None)) as Hrec.
    { apply IH; [done|lia| |lia]. destruct (decide (i = 9%nat)) as [->|]; [by left|right].
      assert (2 ^ (7 * Z.of_nat (S i)) <= 2 ^ 64) by (apply Z.pow_le_mono_r; lia).
      pose proof (digit_bound _ _ b Hr). rewrite pow128_S in *. rewrite Z.mod_small; lia. }
    destruct (varint_split l) as [[d rest]|]; cbn [mbind option_bind] in *; [|done]. cbn [length digits_val].
    rewrite Nat.add_succ_r. destruct (S i + length d <=? 10)%nat eqn:E; cbn [plus] in E; rewrite E; [|done].
    rewrite Zplus_mod_idemp_l, pow128_S in Hrec. by replace (r + 2 ^ (7 * Z.of_nat i) * (b mod 128 + 128 * digits_val d))
      with (r + 2 ^ (7 * Z.of_nat i) * (b mod 128) + 128 * 2 ^ (7 * Z.of_nat i) * digits_val d) by ring.
Qed.

Lemma reads_pb_decode_varint l :
  bytes_ok l -> reads pb_decode_varint l
    ('(d, rest) ← varint_split l; if (length d <=? 10)%nat then Some (digits_val d mod 2 ^ 64, rest) else None).
Proof.
  intros Hl. pose proof (reads_varint_loop 11 0 0 l Hl ltac:(lia) ltac:(right; cbn; lia) ltac:(lia)) as Hr.
  destruct (varint_split l) as [[d rest]|]; cbn [mbind option_bind] in *; [|exact Hr].
  change (2 ^ (7 * Z.of_nat 0)) with 1 in Hr. by rewrite Z.mul_1_l, Z.add_0_l in Hr.
Qed.

(** The part of [varint32_loop] after the fifth digit. *)
Lemma reads_varint32_high fuel i r l d rest :
  bytes_ok l -> varint_split l = Some (d, rest) -> (length d <= fuel)%nat -> (5 <= i)%nat -> (i + length d <= 36)%nat ->
  0 <= r < 2 ^ 32 ->
  reads (varint32_loop fuel (7 * Z.of_nat i) r) l (if high_digits_ok (2 ^ 31 <=? r) i d then Some (r, rest) else None).
Proof.
  intros Hl Hd Hf Hi Hi36 Hr. revert i l d Hl Hd Hf Hi Hi36. induction fuel as [|fuel IH]; intros i l d Hl Hd Hf Hi Hi36.
  { apply varint_split_nonempty in Hd. lia. }
  destruct l as [|b l]; cbn [varint_split] in Hd; [done|]. simp_bytes. cbn [varint32_loop].
  eapply reads_bind; [apply reads_pb_readbyte|]. rewrite continues, digit by done. cbv zeta.
  destruct (Z.geb_spec (7 * Z.of_nat i) 32); [|lia].
  assert (exists e, d = b :: e) as [e ->].
  { destruct (b <? 128); [by injection Hd as <-; eexists|]. destruct (varint_split l) as [[d' r']|]; cbn in Hd; [|done].
    injection Hd as <- _. by eexists. }
  cbn [length] in *. assert ((if 7 * Z.of_nat i <? 63 then 255 else 1) = (if (i <? 9)%nat then 255 else 1)) as ->
    by (destruct (Z.ltb_spec (7 * Z.of_nat i) 63), (Nat.ltb_spec i 9); done || lia).
  assert ((Z.shiftr r 31 =? 0) = negb (2 ^ 31 <=? r)) as ->.
  { rewrite Z.shiftr_div_pow2 by lia. destruct (Z.leb_spec (2 ^ 31) r); cbn [negb].
    - apply Z.eqb_neq. dlia. - apply Z.eqb_eq. dlia. }
  cbn [high_digits_ok]. rewrite <- negb_andb, <- negb_orb.
  destruct (_ || _); cbn [negb andb]; [|apply reads_bind_fail, reads_error].
  eapply reads_bind; [apply reads_ret|]. unfold u8. rewrite Z.mod_small by lia.
  replace (7 * Z.of_nat i + 7) with (7 * Z.of_nat (S i)) by lia.
  destruct (b <? 128); cbn [negb].
  - injection Hd as <- <-. destruct (Z.eqb_spec (7 * Z.of_nat (S i)) 35); [lia|]. apply reads_ret.
  - destruct (varint_split l) as [[d' r']|] eqn:E; cbn in Hd; [|done]. injection Hd as <- ->. apply IH; [done..|lia|lia|lia].
Qed.

(** The digits of an encoding that ends before its last one. *)
Lemma reads_varint32_truncated fuel bitpos r l :
  bytes_ok l -> varint_split l = None -> (length l < fuel)%nat -> reads (varint32_loop fuel bitpos r) l None.
Proof.
  revert bitpos r l. induction fuel as [|fuel IH]; intros bitpos r l Hl Hd Hf; [lia|]. cbn [varint32_loop].
  destruct l as [|b l]; [apply reads_bind_fail, reads_pb_readbyte_nil|]. simp_bytes. cbn [varint_split length] in *.
  eapply reads_bind; [apply reads_pb_readbyte|]. rewrite continues by done. cbv zeta.
  destruct (b <? 128); [done|]. cbn [negb].
  assert (varint_split l = None) as E by (by destruct (varint_split l) as [[]|]).
  destruct (bitpos >=? 32); [destruct (_ && _); [apply reads_bind_fail, reads_error|]|];
    (eapply reads_bind; [apply reads_ret|]; apply IH; [done..|lia]).
Qed.

(** The part before: [n] digits still reach the low 32 bits. *)
Lemma reads_varint32_low n fuel i r l d rest :
  bytes_ok l -> varint_split l = Some (d, rest) -> (length d <= fuel)%nat -> (i + n = 5)%nat -> (i + length d <= 36)%nat ->
  0 <= r < 2 ^ (7 * Z.of_nat i) -> r < 2 ^ 32 ->
  let v := (r + 2 ^ (7 * Z.of_nat i) * digits_val d) mod 2 ^ 32 in
  reads (varint32_loop fuel (7 * Z.of_nat i) r) l
    (if (if (length d =? n)%nat then nth (n - 1) d 0 <? 16 else high_digits_ok (2 ^ 31 <=? v) 5 (drop n d))
     then Some (v, rest) else None).
Proof.
  revert fuel i r l d. induction n as [|n IH]; intros fuel i r l d Hl Hd Hf Hi Hi36 Hr Hr32 v.
  { assert (i = 5%nat) as -> by lia. pose proof (varint_split_nonempty _ _ _ Hd). destruct (Nat.eqb_spec (length d) 0); [lia|].
    assert (v = r) as ->.
    { subst v. change (7 * Z.of_nat 5) with (32 + 3). rewrite Z.pow_add_r, <- Z.mul_assoc, (Z.mul_comm (2 ^ 32)), Z_mod_plus_full by lia.
      apply Z.mod_small. lia. }
    apply reads_varint32_high; done || lia. }
  destruct fuel as [|fuel]; [apply varint_split_nonempty in Hd; lia|].
  destruct l as [|b l]; cbn [varint_split] in Hd; [done|]. simp_bytes. cbn [varint32_loop].
  eapply reads_bind; [apply reads_pb_readbyte|]. rewrite continues, digit by done. cbv zeta.
  destruct (Z.geb_spec (7 * Z.of_nat i) 32); [lia|].
  eapply reads_bind; [apply reads_ret|]. unfold u8, u32. rewrite lor_digit, Z.mod_small by lia.
  replace (7 * Z.of_nat i + 7) with (7 * Z.of_nat (S i)) by lia. destruct (Z.ltb_spec b 128); cbn [negb].
  - injection Hd as <- <-. cbn [length digits_val] in v. assert (v = (r + 2 ^ (7 * Z.of_nat i) * (b mod 128)) mod 2 ^ 32) as ->
      by (subst v; by rewrite Z.mul_0_r, Z.add_0_r).
    assert ((Z.land b 112 =? 0) = (b <? 16)) as Hlow.
    { apply eqb_prop. rewrite <- (Z.mod_small b 128) by (unfold is_byte in *; lia).
      apply (byte_forall (fun b => Bool.eqb (Z.land (b mod 128) 112 =? 0) (b mod 128 <? 16))); [byte_compute|done]. }
    rewrite Hlow. destruct n as [|n]; cbn [length Nat.eqb drop nth Nat.sub high_digits_ok].
    + assert (i = 4%nat) as -> by lia. change (7 * Z.of_nat 5 =? 35) with true. destruct (b <? 16); [apply reads_ret|apply reads_error].
    + destruct (Z.eqb_spec (7 * Z.of_nat (S i)) 35); [lia|]. destruct n; apply reads_ret.
  - destruct (varint_split l) as [[d' r']|] eqn:E; cbn in Hd; [|done]. injection Hd as <- ->. cbn [length digits_val] in *.
    pose proof (digit_bound _ _ b Hr) as Hdb. rewrite <- pow128_S in Hdb.
    pose proof (Z.mod_pos_bound (r + 2 ^ (7 * Z.of_nat i) * (b mod 128)) (2 ^ 32) ltac:(lia)) as Hb.
    pose proof (Z.mod_le (r + 2 ^ (7 * Z.of_nat i) * (b mod 128)) (2 ^ 32) ltac:(lia) ltac:(lia)) as Hle.
    specialize (IH fuel (S i) _ l d' H2 E ltac:(lia) ltac:(lia) ltac:(lia) (conj (proj1 Hb) (Z.le_lt_trans _ _ _ Hle (proj2 Hdb))) (proj2 Hb)).
    cbv zeta in IH. rewrite Zplus_mod_idemp_l, pow128_S in IH.
    replace (r + 2 ^ (7 * Z.of_nat i) * (b mod 128) + 128 * 2 ^ (7 * Z.of_nat i) * digits_val d')
      with (r + 2 ^ (7 * Z.of_nat i) * (b mod 128 + 128 * digits_val d')) in IH by ring. fold v in IH.
    pose proof (varint_split_nonempty _ _ _ E). cbn [Nat.eqb drop Nat.sub].
    destruct n as [|n]; cbn [Nat.sub nth] in *; [|by rewrite Nat.sub_0_r in *].
    by destruct (Nat.eqb_spec (length d') 0); [lia|].
Qed.

(** [eof] tells the end of the input before the first digit. *)
Lemma pb_decode_varint32_eof_eq st l t :
  sees st l t ->
  pb_decode_varint32_eof st = (fst (pb_decode_varint32 st), bool_decide (l = []), snd (pb_decode_varint32 st)).
Proof.
  intros Hs. unfold pb_decode_varint32, pb_decode_varint32_eof. destruct l as [|b l].
  - destruct Hs as [Hl _]. change (Zlen (@nil Z)) with 0 in Hl. unfold pb_readbyte. rewrite Hl.
    change (0 =? 0) with true. unfold PB_RETURN_ERROR. cbn [PB_SET_ERROR bytes_left fst snd]. by rewrite Hl.
  - destruct (reads_pb_readbyte b l st t Hs) as (st' & -> & _). rewrite bool_decide_eq_false_2 by done.
    destruct (_ =? 0); [done|]. by destruct (varint32_loop _ _ _ _).
Qed.

Lemma reads_varint32_rest b l :
  is_byte b -> bytes_ok l -> 128 <= b -> short_varint (b :: l) ->
  reads (varint32_loop (S (length l)) 7 (b mod 128)) l (varint32_parse (b :: l)).
Proof.
  intros Hb Hl H128 Hshort. unfold varint32_parse. unfold short_varint in Hshort. cbn [varint_split] in *.
  destruct (Z.ltb_spec b 128); [lia|]. destruct (varint_split l) as [[d r]|] eqn:E; cbn [mbind option_bind] in *.
  - specialize (Hshort _ _ eq_refl). cbn [length] in Hshort.
    pose proof (f_equal length (varint_split_app _ _ _ E)) as Hlen. rewrite length_app in Hlen.
    exact (reads_varint32_low 4 (S (length l)) 1 (b mod 128) l d r Hl E ltac:(lia) ltac:(lia) ltac:(lia)
      (Z.mod_pos_bound b 128 ltac:(lia)) ltac:(dlia)).
  - apply reads_varint32_truncated; done || lia.
Qed.

Lemma reads_pb_decode_varint32 l :
  bytes_ok l -> short_varint l -> reads pb_decode_varint32 l (varint32_parse l).
Proof.
  intros Hl Hshort st t Hs. unfold pb_decode_varint32, pb_decode_varint32_eof. destruct l as [|b l].
  { destruct (reads_pb_readbyte_nil st t Hs) as (st' & -> & Hst'). by exists st'. }
  destruct (reads_pb_readbyte b l st t Hs) as (st' & -> & Hst' & He). simp_bytes. rewrite continues, digit by done.
  destruct (Z.ltb_spec b 128) as [Hb|Hb].
  { exists st'. unfold varint32_parse. cbn [varint_split]. destruct (Z.ltb_spec b 128); [|lia].
    unfold is_byte in *. cbn. by rewrite Z.mul_0_r, Z.add_0_r, (Z.mod_small b 128), Z.mod_small by lia. }
  assert (Z.to_nat (bytes_left st') = length l) as -> by (rewrite (proj1 Hst'); unfold Zlen; lia).
  destruct (reads_varint32_rest b l ltac:(done) ltac:(done) Hb Hshort st' t Hst') as (st2 & Hr).
  exists st2. rewrite <- He. destruct (varint32_parse (b :: l)) as [[v r]|]; destruct Hr as [-> Hr]; done.
Qed.

(** * Skipping *)

Lemma reads_pb_read_1 b l : reads (pb_read 1) (b :: l) (Some ([b], l)).
Proof.
  pose proof (reads_pb_read 1 (b :: l) ltac:(lia)) as Hr. rewrite Zlen_cons in Hr. pose proof (Zlen_nonneg l).
  by destruct (Z.leb_spec 1 (1 + Zlen l)); [|lia].
Qed.

Lemma reads_skip_varint_loop fuel l :
  bytes_ok l -> (length l < fuel)%nat ->
  reads (skip_varint_loop fuel) l ('(_, r) ← varint_split l; Some (tt, r)).
Proof.
  revert l. induction fuel as [|fuel IH]; intros l Hl Hf; [lia|]. cbn [skip_varint_loop].
  destruct l as [|b l]; [apply reads_bind_fail, (reads_pb_read 1 []); lia|]. simp_bytes. cbn [varint_split length] in *.
  eapply reads_bind; [apply reads_pb_read_1|]. cbn [hd]. rewrite continues by done.
  destruct (b <? 128); cbn [negb]; [apply reads_ret|]. specialize (IH l H2 ltac:(lia)).
  by destruct (varint_split l) as [[d r]|].
Qed.

Lemma reads_pb_skip_varint l : bytes_ok l -> reads pb_skip_varint l ('(_, r) ← varint_split l; Some (tt, r)).
Proof.
  intros Hl st t Hs. unfold pb_skip_varint. rewrite (proj1 Hs). unfold Zlen. rewrite Nat2Z.id.
  apply reads_skip_varint_loop; done || lia.
Qed.

Lemma reads_pb_skip_string l :
  bytes_ok l -> short_varint l -> reads pb_skip_string l ('(n, r) ← varint32_parse l; skip_bytes n r).
Proof.
  intros Hl Hshort. unfold pb_skip_string. pose proof (reads_pb_decode_varint32 l Hl Hshort) as Hr.
  destruct (varint32_parse l) as [[n r]|] eqn:E; cbn [mbind option_bind].
  - eapply reads_bind; [exact Hr|]. apply reads_pb_read_null. unfold varint32_parse in E.
    destruct (varint_split l) as [[d r']|]; cbn [mbind option_bind] in E; [|done].
    destruct (digits32_ok d); [|done]. injection E as <- _. dlia.
  - by apply reads_bind_fail.
Qed.

Lemma reads_pb_skip_field wire_type l :
  bytes_ok l -> (wire_type = PB_WT_STRING -> short_varint l) ->
  reads (pb_skip_field wire_type) l (skip_parse wire_type l).
Proof.
  intros Hl Hshort. unfold pb_skip_field, skip_parse, skip_bytes.
  destruct (wire_type =? PB_WT_VARINT); [by apply reads_pb_skip_varint|].
  destruct (wire_type =? PB_WT_64BIT); [by apply reads_pb_read_null|].
  destruct (Z.eqb_spec wire_type PB_WT_STRING); [by apply reads_pb_skip_string; auto|].
  destruct (wire_type =? PB_WT_32BIT); [by apply reads_pb_read_null|apply reads_error].
Qed.

(** What [read_raw_value] reads is what [pb_skip_field] skips. *)
Lemma reads_raw_varint_loop n l d r :
  bytes_ok l -> varint_split l = Some (d, r) -> (length d <= n)%nat -> reads (raw_varint_loop n) l (Some (d, r)).
Proof.
  revert l d. induction n as [|n IH]; intros l d Hl Hd Hn; [apply varint_split_nonempty in Hd; lia|].
  cbn [raw_varint_loop]. destruct l as [|b l]; [done|]. simp_bytes. cbn [varint_split] in Hd.
  eapply reads_bind; [apply reads_pb_read_1|]. cbn [hd]. rewrite continues by done.
  destruct (b <? 128); cbn [negb]; [injection Hd as <- <-; apply reads_ret|].
  destruct (varint_split l) as [[d' r']|] eqn:E; cbn in Hd; [|done]. injection Hd as <- ->. cbn [length] in Hn.
  eapply reads_bind; [apply (IH l d'); done || lia|]. apply reads_ret.
Qed.

Lemma skip_bytes_some n d r : skip_bytes n (d ++ r) = Some (tt, r) -> 0 <= n -> Zlen d = n.
Proof.
  unfold skip_bytes. rewrite Zlen_app. intros E Hn. pose proof (Zlen_nonneg d). pose proof (Zlen_nonneg r).
  destruct (Z.leb_spec n (Zlen d + Zlen r)); [|done]. apply (f_equal (fmap (fun x => Zlen (snd x)))) in E.
  cbn in E. injection E as E. rewrite Zlen_drop, Zlen_app in E by (rewrite Zlen_app; lia). lia.
Qed.

Lemma reads_read_raw_value wire_type max_size d r :
  bytes_ok (d ++ r) -> wire_type <> PB_WT_STRING -> skip_parse wire_type (d ++ r) = Some (tt, r) ->
  (length d <= max_size)%nat -> reads (read_raw_value wire_type max_size) (d ++ r) (Some (d, r)).
Proof.
  intros Hl Hwt Hp Hmax. unfold skip_parse in Hp. unfold read_raw_value.
  destruct (wire_type =? PB_WT_VARINT).
  { destruct (varint_split (d ++ r)) as [[e r']|] eqn:E; cbn in Hp; [|done]. injection Hp as ->.
    pose proof (varint_split_app _ _ _ E) as Ed. apply app_inv_tail in Ed as <-. by apply reads_raw_varint_loop. }
  assert (forall n, 0 <= n -> skip_bytes n (d ++ r) = Some (tt, r) -> reads (pb_read n) (d ++ r) (Some (d, r))) as Hread.
  { intros n Hn Es. apply skip_bytes_some in Es as <-; [|done]. pose proof (reads_pb_read (Zlen d) (d ++ r) Hn) as Hr.
    rewrite take_Zlen_app, drop_Zlen_app, Zlen_app in Hr. pose proof (Zlen_nonneg r).
    by destruct (Z.leb_spec (Zlen d) (Zlen d + Zlen r)); [|lia]. }
  destruct (wire_type =? PB_WT_64BIT); [by apply Hread|].
  destruct (Z.eqb_spec wire_type PB_WT_STRING); [done|]. destruct (wire_type =? PB_WT_32BIT); [by apply Hread|done].
Qed.

(** * Tags and substreams *)

Lemma pb_decode_tag_ok st l t :
  bytes_ok l -> short_varint l -> sees st l t -> exists st',
    match varint32_parse l with
    | Some (v, r) =>
        pb_decode_tag st = ((if v =? 0 then None else Some (v mod 8, v / 8)), v =? 0, st') /\
        sees st' r t /\ errmsg st' = errmsg st
    | None => pb_decode_tag st = (None, bool_decide (l = []), st') /\ is_Some (errmsg st') /\ exists l', sees st' l' t
    end.
Proof.
  intros Hl Hshort Hs. destruct (reads_pb_decode_varint32 l Hl Hshort st t Hs) as (st' & Hr). exists st'.
  unfold pb_decode_tag. rewrite (pb_decode_varint32_eof_eq st l t Hs).
  destruct (varint32_parse l) as [[v r]|] eqn:E; destruct Hr as [-> Hr]; cbn [fst snd]; [|done].
  assert (bool_decide (l = []) = false) as -> by (apply bool_decide_eq_false_2; by intros ->).
  change 7 with (2 ^ 3 - 1). rewrite land_mask, Z.shiftr_div_pow2 by lia. by destruct (v =? 0).
Qed.

Lemma pb_close_string_substream_ok st sub l l' t :
  sees sub l' (l ++ t) -> bytes_left st = Zlen l -> exists st',
    pb_close_string_substream sub st = (Some tt, st') /\ sees st' l t /\ errmsg st' = errmsg sub.
Proof.
  intros Hs Hleft. unfold pb_close_string_substream. destruct (Z.eqb_spec (bytes_left sub) 0) as [E|E]; cbn [negb].
  - assert (l' = []) as -> by (apply Zlen_0_inv; by rewrite <- (proj1 Hs)). eexists. split; [done|]. by destruct Hs.
  - destruct (reads_pb_read_null (bytes_left sub) l' ltac:(rewrite (proj1 Hs); apply Zlen_nonneg) sub _ Hs) as (sub' & Hr).
    rewrite (proj1 Hs), Z.leb_refl in Hr. destruct Hr as (Er & Hs' & He).
    rewrite (proj1 Hs), Er. eexists. split; [done|]. rewrite <- He. split; [|done].
    unfold Zlen in Hs' at 1. rewrite Nat2Z.id, drop_all in Hs'. by destruct Hs'.
Qed.

(** [pb_make_string_substream] for the bytes it is given. *)
Lemma pb_make_string_substream_ok st l t :
  bytes_ok l -> short_varint l -> sees st l t ->
  match varint32_parse l with
  | Some (n, r) =>
      if n <=? Zlen r then
        exists sub st', pb_make_string_substream st = (Some sub, st') /\
          sees sub (take (Z.to_nat n) r) (drop (Z.to_nat n) r ++ t) /\ bytes_left st' = Zlen (drop (Z.to_nat n) r) /\
          errmsg sub = errmsg st
      else exists st', pb_make_string_substream st = (None, st') /\ is_Some (errmsg st')
  | None => exists st', pb_make_string_substream st = (None, st') /\ is_Some (errmsg st')
  end.
Proof.
  intros Hl Hshort Hs. destruct (reads_pb_decode_varint32 l Hl Hshort st t Hs) as (st' & Hr).
  unfold pb_make_string_substream. destruct (varint32_parse l) as [[n r]|] eqn:E; destruct Hr as (Er & Hr).
  - rewrite (st_bind_some _ _ _ _ _ Er). destruct Hr as ([Hb Hrem] & He).
    assert (0 <= n).
    { unfold varint32_parse in E. destruct (varint_split l) as [[d r']|]; cbn in E; [|done].
      destruct (digits32_ok d); [|done]. injection E as <- _. dlia. }
    rewrite Hb. destruct (Z.leb_spec n (Zlen r)), (Z.ltb_spec (Zlen r) n); try lia.
    + eexists _, _. split; [done|]. cbn [set_bytes_left bytes_left errmsg]. rewrite Zlen_drop by lia.
      split; [|done]. split; cbn [set_bytes_left bytes_left state]; [by rewrite Zlen_take by lia|].
      by rewrite app_assoc, take_drop.
    + eexists. split; [done|]. cbn. by destruct (errmsg st').
  - rewrite (st_bind_none _ _ _ _ Er). naive_solver.
Qed.

(** * Numbers *)

(** The values of a varint and of a zigzag varint. *)
Lemma reads_pb_decode_varint_varint v r :
  0 <= v < 2 ^ 64 -> bytes_ok r -> reads pb_decode_varint (varint v ++ r) (Some (v, r)).
Proof.
  intros Hv Hr. pose proof (reads_pb_decode_varint (varint v ++ r)) as H'.
  rewrite varint_split_varint in H' by done. cbn [mbind option_bind] in H'. rewrite digits_val_varint, Z.mod_small in H' by done.
  pose proof (length_varint v). destruct (Nat.leb_spec (length (varint v)) 10); [|lia]. apply H'. apply bytes_ok_app. by split; [apply varint_ok; lia|].
Qed.

Definition unzigzag (u : Z) : Z := if Z.odd u then - (u / 2) - 1 else u / 2.

Lemma reads_pb_decode_svarint_varint u r :
  0 <= u < 2 ^ 64 -> bytes_ok r -> reads pb_decode_svarint (varint u ++ r) (Some (unzigzag u, r)).
Proof.
  intros Hu Hr. unfold pb_decode_svarint. eapply reads_bind; [by apply reads_pb_decode_varint_varint|].
  change 1 with (2 ^ 1 - 1) at 1. rewrite land_mask, Zmod_odd by lia. rewrite Z.shiftr_div_pow2 by lia. change (2 ^ 1) with 2.
  unfold unzigzag. destruct (Z.odd u); cbn [negb Z.eqb].
  - replace (to_signed 64 (u64 (Z.lnot (u / 2)))) with (- (u / 2) - 1); [apply reads_ret|].
    unfold u64, Z.lnot, Z.pred. symmetry. rewrite to_signed_wrap by dlia. lia.
  - rewrite to_signed_small by dlia. apply reads_ret.
Qed.

(** One more byte of a little-endian number. *)
Lemma lor_le_byte v k : 0 <= k -> Z.lor (v mod 2 ^ k) (Z.shiftl ((v / 2 ^ k) mod 256) k) = v mod 2 ^ (k + 8).
Proof.
  intros Hk. pose proof (Z.mod_pos_bound v (2 ^ k) ltac:(lia)).
  rewrite Z.shiftl_mul_pow2, Z.lor_comm, lor_add_disjoint by lia.
  rewrite Z.pow_add_r, Z.rem_mul_r by lia. change (2 ^ 8) with 256. lia.
Qed.

Lemma byte_at_le_bytes n i v : (i < n)%nat -> byte_at (le_bytes n v) i = Z.shiftl ((v / 2 ^ (8 * Z.of_nat i)) mod 256) (8 * Z.of_nat i).
Proof.
  intros Hi. unfold byte_at. f_equal. revert n v Hi. induction i as [|i IH]; intros [|n] v Hi; [lia| |lia|]; cbn [le_bytes nth].
  { change (2 ^ (8 * Z.of_nat 0)) with 1. by rewrite Z.div_1_r. }
  rewrite IH by lia. rewrite Nat2Z.inj_succ, Z.mul_succ_r, Z.add_comm, Z.pow_add_r, <- Zdiv_Zdiv by lia. done.
Qed.

Lemma reads_pb_read_bytes d r : reads (pb_read (Zlen d)) (d ++ r) (Some (d, r)).
Proof.
  pose proof (reads_pb_read (Zlen d) (d ++ r) (Zlen_nonneg d)) as Hr. rewrite take_Zlen_app, drop_Zlen_app, Zlen_app in Hr.
  pose proof (Zlen_nonneg r). by destruct (Z.leb_spec (Zlen d) (Zlen d + Zlen r)); [|lia].
Qed.

Lemma reads_pb_decode_fixed32 v r : reads pb_decode_fixed32 (le_bytes 4 v ++ r) (Some (v mod 2 ^ 32, r)).
Proof.
  unfold pb_decode_fixed32. eapply reads_bind; [apply (reads_pb_read_bytes (le_bytes 4 v))|].
  rewrite !byte_at_le_bytes by lia. change (Z.shiftl ((v / 2 ^ (8 * Z.of_nat 0)) mod 256) (8 * Z.of_nat 0)) with
    (Z.shiftl ((v / 1) mod 2 ^ 8) 0). rewrite Z.div_1_r, Z.shiftl_0_r.
  rewrite !lor_le_byte by lia. apply reads_ret.
Qed.

Lemma reads_pb_decode_fixed64 v r : reads pb_decode_fixed64 (le_bytes 8 v ++ r) (Some (v mod 2 ^ 64, r)).
Proof.
  unfold pb_decode_fixed64. eapply reads_bind; [apply (reads_pb_read_bytes (le_bytes 8 v))|].
  rewrite !byte_at_le_bytes by lia. change (Z.shiftl ((v / 2 ^ (8 * Z.of_nat 0)) mod 256) (8 * Z.of_nat 0)) with
    (Z.shiftl ((v / 1) mod 2 ^ 8) 0). rewrite Z.div_1_r, Z.shiftl_0_r.
  rewrite !lor_le_byte by lia. apply reads_ret.
Qed.

(** A value of [w] bits in a field of [data_size] bytes. *)
Lemma reads_store_field cast field value l :
  reads (store_field cast field value) l
    (if bool_decide (data_size field ∈ [8; 4; 2; 1]) && (cast (8 * data_size field) value =? value) then Some (value, l) else None).
Proof.
  unfold store_field. destruct (bool_decide _); cbn [negb andb]; [|apply reads_error].
  destruct (Z.eqb_spec (cast (8 * data_size field) value) value) as [->|]; cbn [negb]; [apply reads_ret|apply reads_error].
Qed.

(** The decoders of number fields on the encoding of [u]. *)
Definition has_data_size (field : pb_field_s) (n : Z) : Prop := data_size field = n /\ n ∈ [8; 4; 2; 1].

Lemma data_size_cases n : n ∈ [8; 4; 2; 1] -> n = 8 \/ n = 4 \/ n = 2 \/ n = 1.
Proof. rewrite !elem_of_cons, elem_of_nil. tauto. Qed.

Lemma reads_pb_dec_uvarint field n u r :
  has_data_size field n -> 0 <= u < 2 ^ 64 -> bytes_ok r ->
  reads (pb_dec_uvarint field) (varint u ++ r) (if u <? 2 ^ (8 * n) then Some (u, r) else None).
Proof.
  intros [Hn Hin] Hu Hr. unfold pb_dec_uvarint. eapply reads_bind; [by apply reads_pb_decode_varint_varint|].
  pose proof (reads_store_field (fun w v => v mod 2 ^ w) field u r) as Hs. rewrite Hn, bool_decide_eq_true_2 in Hs by done.
  assert (0 < 2 ^ (8 * n)) by (apply data_size_cases in Hin; apply Z.pow_pos_nonneg; lia).
  replace (u mod 2 ^ (8 * n) =? u) with (u <? 2 ^ (8 * n)) in Hs; [done|].
  destruct (Z.ltb_spec u (2 ^ (8 * n))); symmetry; [apply Z.eqb_eq, Z.mod_small; lia|].
  apply Z.eqb_neq. pose proof (Z.mod_pos_bound u (2 ^ (8 * n))). lia.
Qed.

Lemma to_signed_eqb n v : n ∈ [8; 4; 2; 1] -> (to_signed (8 * n) v =? v) = (- 2 ^ (8 * n - 1) <=? v) && (v <? 2 ^ (8 * n - 1)).
Proof.
  intros Hin. assert (0 < 8 * n) as Hn by (apply data_size_cases in Hin; lia).
  pose proof (to_signed_range (8 * n) v Hn). pose proof (to_signed_small (8 * n) v Hn).
  destruct (Z.eqb_spec (to_signed (8 * n) v) v), (Z.leb_spec (- 2 ^ (8 * n - 1)) v), (Z.ltb_spec v (2 ^ (8 * n - 1))); cbn; lia.
Qed.

Lemma reads_pb_dec_svarint field n u r :
  has_data_size field n -> 0 <= u < 2 ^ 64 -> bytes_ok r ->
  reads (pb_dec_svarint field) (varint u ++ r)
    (if (- 2 ^ (8 * n - 1) <=? unzigzag u) && (unzigzag u <? 2 ^ (8 * n - 1)) then Some (unzigzag u, r) else None).
Proof.
  intros [Hn Hin] Hu Hr. unfold pb_dec_svarint. eapply reads_bind; [by apply reads_pb_decode_svarint_varint|].
  pose proof (reads_store_field to_signed field (unzigzag u) r) as Hs. rewrite Hn, bool_decide_eq_true_2 in Hs by done.
  by rewrite to_signed_eqb in Hs by done.
Qed.

Lemma reads_pb_dec_varint field n u r :
  has_data_size field n -> 0 <= u < 2 ^ 64 -> bytes_ok r ->
  let v := if n =? 8 then to_signed 64 u else to_signed 32 u in
  reads (pb_dec_varint field) (varint u ++ r)
    (if (- 2 ^ (8 * n - 1) <=? v) && (v <? 2 ^ (8 * n - 1)) then Some (v, r) else None).
Proof.
  intros [Hn Hin] Hu Hr v. unfold pb_dec_varint. eapply reads_bind; [by apply reads_pb_decode_varint_varint|].
  cbv zeta. rewrite Hn. fold v. pose proof (reads_store_field to_signed field v r) as Hs.
  rewrite Hn, bool_decide_eq_true_2 in Hs by done. by rewrite to_signed_eqb in Hs by done.
Qed.

End reads.

(** * Properties *)

(** [pb_decode_varint] takes the digits up to the first one without the
    continuation bit, at most ten, and returns their value modulo 2^64; it fails
    on a longer number and on one that the stream cuts off, and never reads past
    the stream's end. *)
Theorem pb_decode_varint_spec {I} `{IStreamSpec I} l :
  bytes_ok l ->
  reads pb_decode_varint l
    ('(d, rest) ← varint_split l; if (length d <=? 10)%nat then Some (digits_val d mod 2 ^ 64, rest) else None).
Proof. apply reads_pb_decode_varint. Qed.

Lemma pb_decode_varint_spec_witness :
  bytes_ok [0xAC; 0x02; 0x07] /\
  exists st', pb_decode_varint (pb_istream_from_buffer [0xAC; 0x02; 0x07; 0x09] 3) = (Some 300, st') /\
    sees st' [0x07] [0x09] /\ errmsg st' = None.
Proof.
  assert (bytes_ok [0xAC; 0x02; 0x07]) as Hok by solve_bytes.
  split; [exact Hok|].
  exact (pb_decode_varint_spec (I := bytes) [0xAC; 0x02; 0x07] Hok (pb_istream_from_buffer [0xAC; 0x02; 0x07; 0x09] 3) [0x09]
    (conj eq_refl eq_refl)).
Defined.

(** C31. [pb_decode_varint32] on every encoding of at most 36 bytes: which digits
    above the low 32 bits it lets pass, and the value modulo 2^32.  On what
    [pb_encode_varint] writes: it returns the numbers below 2^32, refuses those
    from 2^32 to 2^63, and returns the low half of a sign-extended negative
    32-bit number. *)
Theorem pb_decode_varint32_spec {I} `{IStreamSpec I} :
  (forall l, bytes_ok l -> short_varint l -> reads pb_decode_varint32 l (varint32_parse l)) /\
  (forall v r, 0 <= v < 2 ^ 32 -> bytes_ok r -> reads pb_decode_varint32 (varint v ++ r) (Some (v, r))) /\
  (forall v r, 2 ^ 32 <= v < 2 ^ 63 -> bytes_ok r -> reads pb_decode_varint32 (varint v ++ r) None) /\
  (forall w r, - 2 ^ 31 <= w < 0 -> bytes_ok r ->
     reads pb_decode_varint32 (varint (w mod 2 ^ 64) ++ r) (Some (w mod 2 ^ 32, r))).
Proof.
  split; [apply reads_pb_decode_varint32|].
  assert (forall v r, 0 <= v < 2 ^ 64 -> bytes_ok r -> reads pb_decode_varint32 (varint v ++ r) (varint32_parse (varint v ++ r))) as Hr.
  { intros v r Hv Hr. apply reads_pb_decode_varint32; [|by apply short_varint_varint].
    apply bytes_ok_app. by split; [apply varint_ok; lia|]. }
  split_and!; intros v r Hv Hok.
  - rewrite <- varint32_parse_small by done. apply Hr; [lia|done].
  - rewrite <- (varint32_parse_large v r) by done. apply Hr; [lia|done].
  - rewrite <- varint32_parse_negative by done. apply Hr; [dlia|done].
Qed.

Lemma pb_decode_varint32_spec_witness :
  0 <= 300 < 2 ^ 32 /\ exists st',
    pb_decode_varint32 (pb_istream_from_buffer [0xAC; 0x02; 0x07] 3) = (Some 300, st') /\ sees st' [0x07] [] /\ errmsg st' = None.
Proof.
  split; [lia|]. assert (bytes_ok [0x07]) as Hok by solve_bytes.
  destruct (pb_decode_varint32_spec (I := bytes)) as (_ & Hsmall & _).
  exact (Hsmall 300 [0x07] ltac:(lia) Hok (pb_istream_from_buffer [0xAC; 0x02; 0x07] 3) [] (conj eq_refl eq_refl)).
Defined.

(** What escapes the checks: bits above the 32nd in a fifth digit that is not
    the last, the top bit of a 64-bit number if bit 31 is set, and, after 36
    digits, digits that land in the low bits again. *)
Example varint32_overflow_missed :
  fst (pb_decode_varint32 (pb_istream_from_buffer [0x80; 0x80; 0x80; 0x80; 0xF0; 0x00] 6)) = Some 0 /\
  digits_val [0x80; 0x80; 0x80; 0x80; 0xF0; 0x00] = 7 * 2 ^ 32 /\
  fst (pb_decode_varint32 (pb_istream_from_buffer (varint (2 ^ 63 + 2 ^ 31)) 10)) = Some (2 ^ 31) /\
  fst (pb_decode_varint32 (pb_istream_from_buffer (replicate 37 0x80 ++ [0x01]) 38)) = Some 8.
Proof. by vm_compute. Qed.

(** The top digit of ten may carry six bits that are lost. *)
Example varint_overflow_missed :
  fst (pb_decode_varint (pb_istream_from_buffer (replicate 9 0x80 ++ [0x02]) 10)) = Some 0.
Proof. by vm_compute. Qed.



(** A substream holds exactly the bytes that its length announces: whatever
    is read from it, closing it leaves the parent at the byte after them; it is
    refused when the parent is shorter. *)
Theorem pb_string_substream_spec {I} `{IStreamSpec I} (st : pb_istream_s I) l t :
  bytes_ok l -> short_varint l -> sees st l t ->
  match varint32_parse l with
  | Some (n, r) =>
      if n <=? Zlen r then
        exists sub st', pb_make_string_substream st = (Some sub, st') /\
          sees sub (take (Z.to_nat n) r) (drop (Z.to_nat n) r ++ t) /\
          forall sub' l', sees sub' l' (drop (Z.to_nat n) r ++ t) -> exists st'',
            pb_close_string_substream sub' st' = (Some tt, st'') /\ sees st'' (drop (Z.to_nat n) r) t /\
            errmsg st'' = errmsg sub'
      else exists st', pb_make_string_substream st = (None, st') /\ is_Some (errmsg st')
  | None => exists st', pb_make_string_substream st = (None, st') /\ is_Some (errmsg st')
  end.
Proof.
  intros Hl Hshort Hs. pose proof (pb_make_string_substream_ok st l t Hl Hshort Hs) as Hm.
  destruct (varint32_parse l) as [[n r]|]; [|done]. destruct (n <=? Zlen r); [|done].
  destruct Hm as (sub & st' & E & Hsub & Hleft & _). exists sub, st'. split; [done|]. split; [done|].
  intros sub' l' Hs'. by apply pb_close_string_substream_ok with l'.
Qed.

Lemma pb_string_substream_spec_witness :
  let st := pb_istream_from_buffer [0x02; 0x61; 0x62; 0x07; 0x09] 4 in
  sees st [0x02; 0x61; 0x62; 0x07] [0x09] /\
  exists sub st', pb_make_string_substream st = (Some sub, st') /\ sees sub [0x61; 0x62] [0x07; 0x09].
Proof.
  cbv zeta. split; [done|].
  assert (bytes_ok [0x02; 0x61; 0x62; 0x07]) as Hok by solve_bytes.
  assert (short_varint [0x02; 0x61; 0x62; 0x07]) as Hs by (intros d r E; injection E as <- _; cbn; lia).
  pose proof (pb_string_substream_spec (pb_istream_from_buffer [0x02; 0x61; 0x62; 0x07; 0x09] 4)
    [0x02; 0x61; 0x62; 0x07] [0x09] Hok Hs (conj eq_refl eq_refl)) as Hsub.
  destruct Hsub as (sub & st' & E & Hsees & _). exists sub, st'. split; [exact E|exact Hsees].
Defined.
