(* ===== verification/PbWriteSpec.v ===== *)
(** The encoder as a writer of byte strings: [writes m e] says that the call [m]
    adds [e] to a stream that has room for it and fails otherwise without passing
    the limit, and that a stream that only counts adds the length of [e].  At the
    end, what is written reads back. *)
From S2P Require Import Prelude Pb PbDecode PbEncode PbReadSpec.

(** * Streams *)

(** What the callback of an output stream owes the library: it appends what it
    gets as long as it has room. *)
Class OStreamSpec (S : Type) `{OStream S} := {
  written : S -> bytes;
  room : S -> Z;
  o_callback_ok buf s : Zlen buf <= room s -> exists s',
    o_callback buf s = (Some tt, s') /\ written s' = written s ++ buf /\ room s' = room s - Zlen buf;
}.

#[export] Program Instance buf_ostream_spec : OStreamSpec (bytes * nat) := {
  written '(mem, pos) := take pos mem;
  room '(mem, pos) := Zlen mem - Z.of_nat pos;
}.
Next Obligation.
  intros buf [mem pos] Hroom. eexists. split; [done|]. unfold Zlen in *. split.
  - rewrite app_assoc, take_app_le by (rewrite length_app, length_take; lia).
    apply take_ge. rewrite length_app, length_take. lia.
  - rewrite !length_app, length_take, length_drop. lia.
Qed.

Section writes.
Context {I : Type} `{OStreamSpec I}.
Abbreviation stream := (pb_ostream_s I).

(** A stream that the library has not overrun. *)
Definition ostream_ok (st : stream) : Prop :=
  0 <= bytes_written st < 2 ^ 64 /\
  (has_callback st = true -> bytes_written st <= max_size st < 2 ^ 64 /\ max_size st - bytes_written st <= room (o_state st)).

(** [st'] is [st] after [e]. *)
Definition appended (st : stream) (e : bytes) (st' : stream) : Prop :=
  has_callback st' = has_callback st /\ max_size st' = max_size st /\
  bytes_written st' = bytes_written st + Zlen e /\
  (if has_callback st then
     written (o_state st') = written (o_state st) ++ e /\ room (o_state st') = room (o_state st) - Zlen e
   else o_state st' = o_state st).

Definition writes (m : ST stream unit) (e : bytes) : Prop :=
  forall st, ostream_ok st -> bytes_written st + Zlen e < 2 ^ 64 ->
  if has_callback st && (max_size st <? bytes_written st + Zlen e) then
    exists st' e', m st = (None, st') /\ is_Some (o_errmsg st') /\ ostream_ok st' /\
      appended st e' st' /\ e' `prefix_of` e
  else
    exists st', m st = (Some tt, st') /\ ostream_ok st' /\ appended st e st' /\
      (o_errmsg st = None -> o_errmsg st' = None).

Lemma appended_nil st : appended st [] st.
Proof.
  split; [done|]. split; [done|]. change (Zlen (@nil Z)) with 0. split; [lia|].
  destruct (has_callback st); [rewrite app_nil_r; split; [done|lia]|done].
Qed.

Lemma appended_trans st e st1 f st2 : appended st e st1 -> appended st1 f st2 -> appended st (e ++ f) st2.
Proof.
  intros (Hc & Hm & Hb & Hw) (Hc1 & Hm1 & Hb1 & Hw1). rewrite Hc in *. unfold appended. rewrite Zlen_app, Hc1, Hm1.
  split_and!; [done|done|lia|]. destruct (has_callback st); [|congruence].
  destruct Hw as [Hw Hr], Hw1 as [Hw1 Hr1]. rewrite Hw1, Hw, app_assoc. split; [done|lia].
Qed.

Lemma writes_bind m k e f :
  writes m e -> (writes k f) -> writes (m ;;; k) (e ++ f).
Proof.
  intros Hm Hk st Hok Hlim. rewrite Zlen_app in *. pose proof (Zlen_nonneg f). specialize (Hm st Hok ltac:(lia)).
  destruct (has_callback st && (max_size st <? bytes_written st + Zlen e)) eqn:E1.
  - apply andb_true_iff in E1 as [-> Hlt]. apply Z.ltb_lt in Hlt.
    destruct (Z.ltb_spec (max_size st) (bytes_written st + (Zlen e + Zlen f))); [|lia]. cbn [andb].
    destruct Hm as (st' & e' & Er & He & Hok' & Ha & Hp). exists st', e'.
    rewrite (st_bind_none _ _ _ _ Er). split_and!; try done. by apply prefix_app_r.
  - destruct Hm as (st1 & Er & Hok1 & Ha & He). specialize (Hk st1 Hok1). rewrite (st_bind_some _ _ _ _ _ Er).
    destruct Ha as (Hc & Hm & Hb & Hw) eqn:Eq. clear Eq. rewrite Hc, Hm, Hb in Hk.
    rewrite <- Z.add_assoc in Hk. specialize (Hk ltac:(lia)).
    destruct (has_callback st && (max_size st <? bytes_written st + (Zlen e + Zlen f))).
    + destruct Hk as (st2 & f' & Er2 & He2 & Hok2 & Ha2 & Hp). exists st2, (e ++ f'). split_and!; try done.
      * by eapply appended_trans. * by apply prefix_app.
    + destruct Hk as (st2 & Er2 & Hok2 & Ha2 & He2). exists st2. split_and!; try done; [|auto].
      by eapply appended_trans.
Qed.

Lemma writes_pb_write e : writes (pb_write e) e.
Proof.
  intros st [Hb Hcb] Hlim. unfold pb_write. pose proof (Zlen_nonneg e). unfold u64. rewrite !Z.mod_small by lia.
  assert (has_callback st = false \/ Zlen e = 0 -> exists st', (Some tt, add_written (Zlen e) st) = (Some tt, st') /\
    ostream_ok st' /\ appended st e st' /\ (o_errmsg st = None -> o_errmsg st' = None)) as Hcount.
  { intros Hcase. eexists. split; [done|]. unfold ostream_ok, appended, add_written, u64. cbn. rewrite Z.mod_small by lia.
    split_and!; try done || lia; [intros Hc; destruct (Hcb Hc), Hcase; [congruence|lia]|].
    destruct Hcase as [->| ->%Zlen_0_inv]; [done|].
    change (Zlen (@nil Z)) with 0. destruct (has_callback st); [rewrite app_nil_r; split; [done|lia]|done]. }
  destruct (has_callback st) eqn:Ec; cbn [andb negb] in *; [|rewrite andb_false_r; apply Hcount; by left].
  destruct (Hcb eq_refl) as [Hmax Hroom]. rewrite andb_true_r. destruct (Z.gtb_spec (Zlen e) 0).
  - destruct (Z.ltb_spec (bytes_written st + Zlen e) (bytes_written st)); [lia|]. cbn [orb].
    rewrite Z.gtb_ltb. destruct (Z.ltb_spec (max_size st) (bytes_written st + Zlen e)).
    + eexists _, []. split; [done|]. split; [cbn; by destruct (o_errmsg st)|].
      split; [by split; [done|]|]. split; [exact (appended_nil st)|apply prefix_nil].
    + destruct (o_callback_ok e (o_state st)) as (s' & -> & Hw & Hr); [lia|].
      eexists. split; [done|]. unfold ostream_ok, appended, add_written, u64. cbn. rewrite Z.mod_small, Ec by lia.
      split_and!; try done || lia; intros; lia.
  - destruct (Z.ltb_spec (max_size st) (bytes_written st + Zlen e)); [lia|]. apply Hcount. right. lia.
Qed.

(** * Numbers *)

Lemma varint_buffer_eq n v :
  0 < v < 2 ^ (7 * Z.of_nat n) ->
  alter (fun b => Z.land b 0x7F) (length (varint_buffer n v) - 1)%nat (varint_buffer n v) = varint_digits n v /\
  (0 < length (varint_buffer n v))%nat.
Proof.
  revert v. induction n as [|n IH]; intros v Hv; [cbn in Hv; lia|]. rewrite pow128_S in Hv.
  cbn [varint_buffer varint_digits]. destruct (Z.eqb_spec v 0); [lia|]. cbn [negb].
  rewrite digit, Z.shiftr_div_pow2 by lia. change (2 ^ 7) with 128.
  assert (u8 (Z.lor (v mod 128) 128) = 128 + v mod 128) as ->.
  { pose proof (lor_add_disjoint 1 (v mod 128) 7 ltac:(lia) ltac:(dlia)) as E. change (1 * 2 ^ 7) with 128 in E.
    rewrite Z.lor_comm, E. unfold u8. dlia. }
  split; [|cbn; lia]. destruct (Z.ltb_spec v 128).
  - rewrite (Z.div_small v), (Z.mod_small v) by lia. destruct n; cbn; [|]; rewrite (digit (128 + v)); f_equal; dlia.
  - destruct (IH (v / 128) ltac:(dlia)) as [<- Hlen]. cbn [length]. rewrite Nat.sub_succ, Nat.sub_0_r.
    destruct (length (varint_buffer n (v / 128))) as [|k]; [lia|]. cbn. by rewrite Nat.sub_0_r.
Qed.

Lemma writes_pb_encode_varint v : 0 <= v < 2 ^ 64 -> writes (pb_encode_varint v) (varint v).
Proof.
  intros Hv. unfold pb_encode_varint. destruct (Z.leb_spec v 127).
  - assert (varint v = [u8 v]) as ->; [|apply writes_pb_write].
    unfold varint. cbn [varint_digits]. destruct (Z.ltb_spec v 128); [|lia]. unfold u8. by rewrite Z.mod_small by lia.
  - cbv zeta. destruct (varint_buffer_eq 10 v) as [-> _]; [|apply writes_pb_write].
    split; [lia|]. apply Z.lt_le_trans with (2 ^ 64); [lia|done].
Qed.

Definition zigzag (v : Z) : Z := if v <? 0 then - 2 * v - 1 else 2 * v.

Lemma zigzag_range v : - 2 ^ 63 <= v < 2 ^ 63 -> 0 <= zigzag v < 2 ^ 64.
Proof. intros. unfold zigzag. destruct (Z.ltb_spec v 0); lia. Qed.

Lemma unzigzag_zigzag v : unzigzag (zigzag v) = v.
Proof.
  unfold unzigzag, zigzag. destruct (Z.ltb_spec v 0).
  - replace (- 2 * v - 1) with (2 * (- v - 1) + 1) by lia. rewrite Z.odd_odd. dlia.
  - rewrite Z.odd_even. dlia.
Qed.

Lemma writes_pb_encode_svarint v : - 2 ^ 63 <= v < 2 ^ 63 -> writes (pb_encode_svarint v) (varint (zigzag v)).
Proof.
  intros Hv. unfold pb_encode_svarint. rewrite Z.shiftl_mul_pow2 by lia. unfold u64.
  replace (if v <? 0 then _ else _) with (zigzag v); [by apply writes_pb_encode_varint, zigzag_range|].
  unfold zigzag, Z.lnot, Z.pred. destruct (Z.ltb_spec v 0); dlia.
Qed.

Lemma byte_le k v : 0 <= k -> u8 (Z.land (Z.shiftr v k) 0xFF) = (v / 2 ^ k) mod 256.
Proof.
  intros Hk. change 0xFF with (2 ^ 8 - 1). rewrite land_mask, Z.shiftr_div_pow2 by lia. unfold u8. by rewrite Zmod_mod.
Qed.

Lemma byte_le_0 v : u8 (Z.land v 0xFF) = v mod 256.
Proof. change 0xFF with (2 ^ 8 - 1). rewrite land_mask by lia. unfold u8. by rewrite Zmod_mod. Qed.

Lemma writes_pb_encode_fixed32 v : writes (pb_encode_fixed32 v) (le_bytes 4 v).
Proof.
  unfold pb_encode_fixed32. rewrite byte_le_0, !byte_le by lia. cbn [le_bytes]. rewrite !Zdiv_Zdiv by lia. apply writes_pb_write.
Qed.

Lemma writes_pb_encode_fixed64 v : writes (pb_encode_fixed64 v) (le_bytes 8 v).
Proof.
  unfold pb_encode_fixed64. rewrite byte_le_0, !byte_le by lia. cbn [le_bytes]. rewrite !Zdiv_Zdiv by lia. apply writes_pb_write.
Qed.

Lemma writes_pb_encode_tag wiretype field_number :
  0 <= wiretype < 8 -> 0 <= field_number < 2 ^ 32 ->
  writes (pb_encode_tag wiretype field_number) (varint (field_number * 8 + wiretype)).
Proof.
  intros Hw Hf. unfold pb_encode_tag, u64. rewrite Z.shiftl_mul_pow2, Z.mod_small by lia.
  rewrite (lor_add_disjoint field_number wiretype 3) by lia. apply writes_pb_encode_varint. lia.
Qed.

Lemma writes_pb_encode_string buffer :
  Zlen buffer < 2 ^ 64 -> writes (pb_encode_string buffer) (varint (Zlen buffer) ++ buffer).
Proof.
  intros Hb. pose proof (Zlen_nonneg buffer). apply writes_bind; [by apply writes_pb_encode_varint|apply writes_pb_write].
Qed.

(** * Submessages *)

Lemma writes_sizing m e :
  writes m e -> Zlen e < 2 ^ 64 -> exists st', m PB_OSTREAM_SIZING = (Some tt, st') /\ bytes_written st' = Zlen e.
Proof.
  intros Hm He. destruct (Hm PB_OSTREAM_SIZING) as (st' & E & _ & (_ & _ & Hb & _) & _).
  - split; [cbn; lia|done].
  - cbn. lia.
  - by exists st'.
Qed.

(** The body of a submessage once its length is written. *)
Lemma submessage_body m e :
  writes m e -> Zlen e < 2 ^ 64 -> writes (fun st =>
    if negb (has_callback st) then (Some tt, add_written (Zlen e) st)
    else if u64 (bytes_written st + Zlen e) >? max_size st then o_return_error stream_full st
    else
      let '(status, substream) := m (PbOstream true (o_state st) (Zlen e) 0 None) in
      let st := PbOstream (has_callback st) (o_state substream) (max_size st)
        (u64 (bytes_written st + bytes_written substream)) (o_errmsg substream) in
      if negb (bytes_written substream =? Zlen e) then o_return_error submsg_size_changed st
      else (status, st)) e.
Proof.
  intros Hm He st [Hb Hcb] Hlim. pose proof (Zlen_nonneg e). unfold u64.
  destruct (has_callback st) eqn:Ec; cbn [andb negb].
  - destruct (Hcb eq_refl) as [Hmax Hroom]. rewrite Z.mod_small, Z.gtb_ltb by lia.
    destruct (Z.ltb_spec (max_size st) (bytes_written st + Zlen e)).
    + eexists _, []. split; [done|]. split; [cbn; by destruct (o_errmsg st)|].
      split; [by split|]. split; [exact (appended_nil st)|apply prefix_nil].
    + set (sub := PbOstream true (o_state st) (Zlen e) 0 None).
      assert (ostream_ok sub) as Hsub by (split; cbn; lia). specialize (Hm sub Hsub ltac:(cbn; lia)).
      cbn [sub has_callback max_size bytes_written andb Z.add] in Hm. rewrite Z.ltb_irrefl in Hm.
      destruct Hm as (sub' & -> & [_ Hok] & (Hc & Hm & Hw & Ho & Hr) & Herr). cbn in Hc, Hm, Hw, Ho, Hr.
      specialize (Hok Hc). rewrite Hm, Hw, Z.eqb_refl in *. cbn [negb].
      eexists. split; [done|]. unfold ostream_ok, appended. cbn. rewrite Z.mod_small, Ec by lia.
      split_and!; try done || lia; intros; (lia || by apply Herr).
  - eexists. split; [done|]. unfold ostream_ok, appended, add_written, u64. cbn. rewrite Z.mod_small, Ec by lia.
    by split_and!; try lia.
Qed.

Lemma writes_pb_encode_submessage m e :
  writes m e -> Zlen e < 2 ^ 64 -> writes (pb_encode_submessage m) (varint (Zlen e) ++ e).
Proof.
  intros Hm He. pose proof (Zlen_nonneg e). destruct (writes_sizing m e Hm He) as (sizing & E & Hsize).
  intros st. unfold pb_encode_submessage. rewrite E, Hsize.
  apply (writes_bind _ _ _ _ (writes_pb_encode_varint (Zlen e) ltac:(lia)) (submessage_body m e Hm He)).
Qed.

Lemma writes_pb_encode_nullterminated m e : writes m e -> writes (pb_encode_nullterminated m) (e ++ [0]).
Proof. intros Hm. apply writes_bind; [done|apply writes_pb_write]. Qed.

Lemma pb_get_encoded_size_eq m e : writes m e -> Zlen e < 2 ^ 64 -> pb_get_encoded_size m = Some (Zlen e).
Proof.
  intros Hm He. destruct (writes_sizing m e Hm He) as (st' & E & Hsize). unfold pb_get_encoded_size. by rewrite E, Hsize.
Qed.

(** * Fields *)

Lemma has_data_size_valid field n : has_data_size field n -> valid_data_size field = true.
Proof.
  intros [Hn Hin]. apply bool_decide_eq_true_2. rewrite Hn. revert Hin. rewrite !elem_of_cons. tauto.
Qed.

Lemma data_size_pow n : n ∈ [8; 4; 2; 1] -> 2 ^ (8 * n) <= 2 ^ 64 /\ 2 ^ (8 * n - 1) <= 2 ^ 63.
Proof. intros Hin. apply data_size_cases in Hin. split; apply Z.pow_le_mono_r; lia. Qed.

Lemma writes_pb_enc_uvarint field n v :
  has_data_size field n -> 0 <= v < 2 ^ (8 * n) -> writes (pb_enc_uvarint field v) (varint v).
Proof.
  intros Hf Hv. pose proof (data_size_pow n (proj2 Hf)). unfold pb_enc_uvarint. rewrite (has_data_size_valid _ _ Hf).
  apply writes_pb_encode_varint. lia.
Qed.

Lemma writes_pb_enc_varint field n v :
  has_data_size field n -> - 2 ^ (8 * n - 1) <= v < 2 ^ (8 * n - 1) -> writes (pb_enc_varint field v) (varint (v mod 2 ^ 64)).
Proof.
  intros Hf Hv. unfold pb_enc_varint. rewrite (has_data_size_valid _ _ Hf).
  apply writes_pb_encode_varint. apply Z.mod_pos_bound. lia.
Qed.

Lemma writes_pb_enc_svarint field n v :
  has_data_size field n -> - 2 ^ (8 * n - 1) <= v < 2 ^ (8 * n - 1) -> writes (pb_enc_svarint field v) (varint (zigzag v)).
Proof.
  intros Hf Hv. pose proof (data_size_pow n (proj2 Hf)). unfold pb_enc_svarint. rewrite (has_data_size_valid _ _ Hf).
  apply writes_pb_encode_svarint. lia.
Qed.

End writes.

Section decode_fields.
Context {I : Type} `{IStreamSpec I}.

Lemma reads_back_varint field n v r :
  has_data_size field n -> - 2 ^ (8 * n - 1) <= v < 2 ^ (8 * n - 1) -> bytes_ok r ->
  reads (pb_dec_varint field) (varint (v mod 2 ^ 64) ++ r) (Some (v, r)).
Proof.
  intros Hf Hv Hr. pose proof (data_size_pow n (proj2 Hf)) as [_ Hp].
  pose proof (reads_pb_dec_varint field n (v mod 2 ^ 64) r Hf (Z.mod_pos_bound v (2 ^ 64) ltac:(lia)) Hr) as Hd. cbv zeta in Hd.
  assert ((if n =? 8 then to_signed 64 (v mod 2 ^ 64) else to_signed 32 (v mod 2 ^ 64)) = v) as E.
  { destruct (Z.eqb_spec n 8); [apply to_signed_wrap; lia|].
    assert (2 ^ (8 * n - 1) <= 2 ^ 31).
    { destruct Hf as [_ Hin]. apply data_size_cases in Hin. apply Z.pow_le_mono_r; lia. }
    unfold to_signed. dlia. }
  rewrite E in Hd. destruct (Z.leb_spec (- 2 ^ (8 * n - 1)) v), (Z.ltb_spec v (2 ^ (8 * n - 1))); done || lia.
Qed.

Lemma reads_back_svarint field n v r :
  has_data_size field n -> - 2 ^ (8 * n - 1) <= v < 2 ^ (8 * n - 1) -> bytes_ok r ->
  reads (pb_dec_svarint field) (varint (zigzag v) ++ r) (Some (v, r)).
Proof.
  intros Hf Hv Hr. pose proof (data_size_pow n (proj2 Hf)) as [_ Hp].
  pose proof (reads_pb_dec_svarint field n (zigzag v) r Hf (zigzag_range v ltac:(lia)) Hr) as Hd.
  rewrite unzigzag_zigzag in Hd.
  destruct (Z.leb_spec (- 2 ^ (8 * n - 1)) v), (Z.ltb_spec v (2 ^ (8 * n - 1))); done || lia.
Qed.

Lemma reads_back_uvarint field n v r :
  has_data_size field n -> 0 <= v < 2 ^ (8 * n) -> bytes_ok r ->
  reads (pb_dec_uvarint field) (varint v ++ r) (Some (v, r)).
Proof.
  intros Hf Hv Hr. pose proof (data_size_pow n (proj2 Hf)) as [Hp _].
  pose proof (reads_pb_dec_uvarint field n v r Hf ltac:(lia) Hr) as Hd. by destruct (Z.ltb_spec v (2 ^ (8 * n))); [|lia].
Qed.

Lemma reads_back_varint32 v r : 0 <= v < 2 ^ 32 -> bytes_ok r -> reads pb_decode_varint32 (varint v ++ r) (Some (v, r)).
Proof.
  intros Hv Hr. rewrite <- varint32_parse_small by done. apply reads_pb_decode_varint32.
  - apply bytes_ok_app. by split; [apply varint_ok; lia|].
  - apply short_varint_varint. lia.
Qed.

Lemma reads_back_bool b r : bytes_ok r -> reads pb_dec_bool (varint (if b : bool then 1 else 0) ++ r) (Some (b, r)).
Proof.
  intros Hr. unfold pb_dec_bool. eapply reads_bind; [apply (reads_back_varint32 (if b then 1 else 0)); [by destruct b|done]|].
  destruct b; apply reads_ret.
Qed.

End decode_fields.

(** * Properties *)

(** C29. Every number field reads back: what the encoder of a field type writes
    for a value that the field's [data_size] can hold, the decoder of that type
    turns into the value again, whatever follows; negative numbers, zigzag
    numbers and booleans included. *)
Theorem pb_field_roundtrip {O I} `{OStreamSpec O} `{IStreamSpec I} field n r :
  has_data_size field n -> bytes_ok r ->
  (forall v, 0 <= v < 2 ^ (8 * n) -> exists e,
     writes (I := O) (pb_enc_uvarint field v) e /\ reads (I := I) (pb_dec_uvarint field) (e ++ r) (Some (v, r))) /\
  (forall v, - 2 ^ (8 * n - 1) <= v < 2 ^ (8 * n - 1) -> exists e,
     writes (I := O) (pb_enc_varint field v) e /\ reads (I := I) (pb_dec_varint field) (e ++ r) (Some (v, r))) /\
  (forall v, - 2 ^ (8 * n - 1) <= v < 2 ^ (8 * n - 1) -> exists e,
     writes (I := O) (pb_enc_svarint field v) e /\ reads (I := I) (pb_dec_svarint field) (e ++ r) (Some (v, r))) /\
  (forall v, 0 <= v < 2 ^ 32 -> exists e,
     writes (I := O) (pb_enc_fixed32 v) e /\ reads (I := I) pb_dec_fixed32 (e ++ r) (Some (v, r))) /\
  (forall v, 0 <= v < 2 ^ 64 -> exists e,
     writes (I := O) (pb_enc_fixed64 v) e /\ reads (I := I) pb_dec_fixed64 (e ++ r) (Some (v, r))) /\
  (forall b, exists e,
     writes (I := O) (pb_enc_bool b) e /\ reads (I := I) pb_dec_bool (e ++ r) (Some (b, r))).
Proof.
  intros Hf Hr. split_and!; intros v; [intros Hv..|].
  - exists (varint v). split; [by eapply writes_pb_enc_uvarint|by eapply reads_back_uvarint].
  - exists (varint (v mod 2 ^ 64)). split; [by eapply writes_pb_enc_varint|by eapply reads_back_varint].
  - exists (varint (zigzag v)). split; [by eapply writes_pb_enc_svarint|by eapply reads_back_svarint].
  - exists (le_bytes 4 v). split; [apply writes_pb_encode_fixed32|].
    rewrite <- (Z.mod_small v (2 ^ 32)) at 2 by done. apply reads_pb_decode_fixed32.
  - exists (le_bytes 8 v). split; [apply writes_pb_encode_fixed64|].
    rewrite <- (Z.mod_small v (2 ^ 64)) at 2 by done. apply reads_pb_decode_fixed64.
  - exists (varint (if v then 1 else 0)). split; [apply writes_pb_encode_varint; by destruct v|by apply reads_back_bool].
Qed.

(** A 32-bit field, over buffers. *)
Lemma pb_field_roundtrip_witness :
  let field := PbField 1 PB_LTYPE_VARINT 0 0 4 0 in
  has_data_size field 4 /\ bytes_ok [7] /\ exists e,
    writes (pb_enc_varint (S := bytes * nat) field (-3)) e /\
    reads (pb_dec_varint (S := bytes) field) (e ++ [7]) (Some (-3, [7])).
Proof.
  assert (has_data_size (PbField 1 PB_LTYPE_VARINT 0 0 4 0) 4) as Hf by (split; [done|rewrite !elem_of_cons; auto]).
  assert (bytes_ok [7]) as Hr by solve_bytes.
  cbv zeta. split; [exact Hf|]. split; [exact Hr|].
  destruct (pb_field_roundtrip (O := bytes * nat) (I := bytes) _ 4 [7] Hf Hr) as (_ & Hv & _).
  apply Hv. lia.
Defined.

(** A submessage is its length as a varint and then the message, whatever
    [pb_encode] writes: the first pass counts exactly the bytes of the second,
    the limit of the stream holds, and the counting stream agrees. *)
Theorem pb_encode_submessage_spec {O} `{OStreamSpec O} (pb_encode : ST (pb_ostream_s O) unit) e :
  writes pb_encode e -> Zlen e < 2 ^ 64 ->
  writes (pb_encode_submessage pb_encode) (varint (Zlen e) ++ e) /\
  writes (pb_encode_delimited pb_encode) (varint (Zlen e) ++ e) /\
  writes (pb_encode_nullterminated pb_encode) (e ++ [0]) /\
  pb_get_encoded_size pb_encode = Some (Zlen e).
Proof.
  intros Hm He. split_and!; [by apply writes_pb_encode_submessage..| |by apply pb_get_encoded_size_eq].
  by apply writes_pb_encode_nullterminated.
Qed.

Lemma pb_encode_submessage_spec_witness :
  writes (pb_encode_varint (S := bytes * nat) 300) (varint 300) /\ Zlen (varint 300) < 2 ^ 64 /\
  pb_get_encoded_size (pb_encode_varint (S := bytes * nat) 300) = Some 2.
Proof.
  assert (writes (pb_encode_varint (S := bytes * nat) 300) (varint 300)) as Hw by (apply writes_pb_encode_varint; lia).
  split; [exact Hw|]. split; [done|].
  destruct (pb_encode_submessage_spec _ _ Hw eq_refl) as (_ & _ & _ & Hsize). exact Hsize.
Defined.

(** C30. The record of a submessage or a string reads back: the decoder finds the
    wire type and the number of the field, a substream with exactly the bytes of
    the message, and skips the record as a whole. *)
Theorem pb_delimited_roundtrip {O I} `{OStreamSpec O} `{IStreamSpec I} (pb_encode : ST (pb_ostream_s O) unit) e field_number r :
  writes pb_encode e -> bytes_ok e -> bytes_ok r -> Zlen e < 2 ^ 32 -> 0 < field_number < 2 ^ 29 ->
  exists head,
    writes (pb_encode_tag PB_WT_STRING field_number ;;; pb_encode_submessage pb_encode) (head ++ varint (Zlen e) ++ e) /\
    (forall (st : pb_istream_s I) t, sees st (head ++ varint (Zlen e) ++ e ++ r) t -> exists st1 sub st2 st3,
       pb_decode_tag st = (Some (PB_WT_STRING, field_number), false, st1) /\
       pb_make_string_substream st1 = (Some sub, st2) /\ sees sub e (r ++ t) /\
       pb_skip_field PB_WT_STRING st1 = (Some tt, st3) /\ sees st3 r t).
Proof.
  intros Hm He Hr Hlen Hf. exists (varint (field_number * 8 + PB_WT_STRING)). pose proof (Zlen_nonneg e).
  split. { apply writes_bind; [apply writes_pb_encode_tag; unfold PB_WT_STRING; lia|apply writes_pb_encode_submessage; [done|lia]]. }
  intros st t Hs. set (l := varint (Zlen e) ++ e ++ r) in *.
  assert (bytes_ok l) as Hl by (subst l; rewrite !bytes_ok_app; split; [by apply varint_ok|done]).
  assert (short_varint l) as Hshort by (apply short_varint_varint; lia).
  assert (varint32_parse l = Some (Zlen e, e ++ r)) as Hp by (apply varint32_parse_small; lia).
  set (tg := field_number * 8 + PB_WT_STRING) in *. assert (0 <= tg < 2 ^ 32) as Htg by (unfold tg, PB_WT_STRING; lia).
  destruct (pb_decode_tag_ok st (varint tg ++ l) t) as (st1 & Ht); [|apply short_varint_varint; lia|done|].
  { rewrite bytes_ok_app. by split; [apply varint_ok; lia|]. }
  rewrite varint32_parse_small in Ht by done. destruct Ht as (Et & Hs1 & _).
  pose proof (pb_make_string_substream_ok st1 l t Hl Hshort Hs1) as Hsub.
  destruct (reads_pb_skip_field PB_WT_STRING l Hl (fun _ => Hshort) st1 t Hs1) as (st3 & Hskip).
  change (skip_parse PB_WT_STRING l) with ('(n, r) ← varint32_parse l; skip_bytes n r) in Hskip.
  rewrite Hp in Hskip, Hsub. cbn [mbind option_bind] in Hskip. unfold skip_bytes in Hskip.
  rewrite Zlen_app in *. pose proof (Zlen_nonneg r). destruct (Z.leb_spec (Zlen e) (Zlen e + Zlen r)); [|lia].
  rewrite drop_Zlen_app in *. rewrite take_Zlen_app in Hsub. destruct Hsub as (sub & st2 & Esub & Hsub & _).
  exists st1, sub, st2, st3. split_and!; try done; [|by destruct Hskip|by destruct Hskip as (_ & ? & _)].
  rewrite Et. destruct (Z.eqb_spec tg 0); [unfold tg, PB_WT_STRING in *; lia|].
  do 4 f_equal; unfold tg, PB_WT_STRING; dlia.
Qed.

Lemma pb_delimited_roundtrip_witness :
  writes (pb_encode_varint (S := bytes * nat) 300) (varint 300) /\
  exists head,
    writes (pb_encode_tag PB_WT_STRING 5 ;;; pb_encode_submessage (pb_encode_varint (S := bytes * nat) 300))
      (head ++ varint 2 ++ varint 300) /\
    exists st1, pb_decode_tag (pb_istream_from_buffer (head ++ varint 2 ++ varint 300 ++ [7]) (Zlen (head ++ varint 2 ++ varint 300 ++ [7]))) =
      (Some (PB_WT_STRING, 5), false, st1).
Proof.
  assert (writes (pb_encode_varint (S := bytes * nat) 300) (varint 300)) as Hw by (apply writes_pb_encode_varint; lia).
  split; [exact Hw|].
  assert (bytes_ok (varint 300)) as He by (apply varint_ok; lia). assert (bytes_ok [7]) as Hr by solve_bytes.
  destruct (pb_delimited_roundtrip (I := bytes) _ _ 5 [7] Hw He Hr eq_refl ltac:(lia)) as (head & Hwrites & Hreads).
  exists head. split; [exact Hwrites|].
  destruct (Hreads (pb_istream_from_buffer (head ++ varint 2 ++ varint 300 ++ [7]) (Zlen (head ++ varint 2 ++ varint 300 ++ [7]))) [])
    as (st1 & _ & _ & _ & E & _); [split; [done|cbn; by rewrite app_nil_r]|].
  exists st1. exact E.
Defined.
