(* ===== verification/Digest.v ===== *)
(** The collector that MD4, MD5, SHA-1 and SHA-256 share
    ([crypto/fipsmodule/digest/md32_common.h]), the one of SHA-512
    ([crypto/fipsmodule/sha/sha512.c]), and the loads, stores and rotations of
    [crypto/internal.h] that hash functions use.

    The block function is a parameter: for every one, feeding a message in pieces
    gives the hash of the padded message. *)
From S2P Require Import Prelude.

(** * [crypto/internal.h] *)

(** [memcpy(dst + off, src)] within the array [dst]. *)
Definition OPENSSL_memcpy (off : nat) (src dst : bytes) : bytes :=
  take off dst ++ src ++ drop (off + length src) dst.

Definition OPENSSL_memset (off n : nat) (dst : bytes) : bytes := OPENSSL_memcpy off (replicate n 0) dst.

(** The value of a little-endian string. *)
Definition le_val (l : bytes) : Z := be_val (rev l).

Definition CRYPTO_load_u32_le (in_ : bytes) : Z := le_val (take 4 in_).
Definition CRYPTO_load_u32_be (in_ : bytes) : Z := be_val (take 4 in_).
Definition CRYPTO_store_u32_le (v : Z) : bytes := le_bytes 4 v.
Definition CRYPTO_store_u32_be (v : Z) : bytes := be_bytes 4 v.
Definition CRYPTO_store_u64_be (v : Z) : bytes := be_bytes 8 v.

Definition CRYPTO_rotl_u32 (value shift : Z) : Z :=
  Z.lor (u32 (Z.shiftl value shift)) (Z.shiftr value (Z.land (- shift) 31)).
Definition CRYPTO_rotr_u32 (value shift : Z) : Z :=
  Z.lor (Z.shiftr value shift) (u32 (Z.shiftl value (Z.land (- shift) 31))).
Definition CRYPTO_rotr_u64 (value shift : Z) : Z :=
  Z.lor (Z.shiftr value shift) (u64 (Z.shiftl value (Z.land (- shift) 63))).

Lemma le_val_app l k : le_val (l ++ k) = le_val l + 256 ^ Zlen l * le_val k.
Proof. unfold le_val. rewrite rev_app_distr, be_val_app. unfold Zlen. rewrite length_rev. lia. Qed.

Lemma le_val_bound l : bytes_ok l -> 0 <= le_val l < 256 ^ Zlen l.
Proof. intros Hl. unfold le_val. pose proof (be_val_bound (rev l) ltac:(by apply Forall_rev)) as Hb. unfold Zlen in *. by rewrite length_rev in Hb. Qed.

Lemma le_val_le_bytes n v : le_val (le_bytes n v) = v mod 256 ^ Z.of_nat n.
Proof. unfold le_val. apply be_val_be_bytes. Qed.

Lemma le_val_replicate_0 k : le_val (replicate k 0) = 0.
Proof. induction k as [|k IH]; [done|]. change (replicate (S k) 0) with ([0] ++ replicate k 0). by rewrite le_val_app, IH. Qed.

Lemma le_val_split a b l : le_val (take (a + b) l) = le_val (take a l) + 256 ^ Z.of_nat a * le_val (take b (drop a l)).
Proof.
  rewrite <- (take_drop a (take (a + b) l)) at 1. rewrite le_val_app, take_take, Nat.min_l, <- take_drop_commute by lia.
  destruct (decide (a <= length l)%nat); [unfold Zlen; by rewrite length_take_le|].
  rewrite (drop_ge l) by lia. rewrite take_nil. unfold le_val. cbn. lia.
Qed.

(** A string of four words. *)
Lemma le_val_load_u32 l :
  le_val (take 16 l) =
  CRYPTO_load_u32_le l + 2 ^ 32 * (CRYPTO_load_u32_le (drop 4 l) +
    2 ^ 32 * (CRYPTO_load_u32_le (drop 8 l) + 2 ^ 32 * CRYPTO_load_u32_le (drop 12 l))).
Proof.
  unfold CRYPTO_load_u32_le. rewrite (le_val_split 4 12), (le_val_split 4 8), (le_val_split 4 4), !drop_drop. reflexivity.
Qed.

Lemma load_u32_le_bound l : bytes_ok l -> 0 <= CRYPTO_load_u32_le l < 2 ^ 32.
Proof.
  intros Hl. unfold CRYPTO_load_u32_le. pose proof (le_val_bound (take 4 l) ltac:(auto with bytes)) as [H0 H1].
  split; [done|]. eapply Z.lt_le_trans; [exact H1|]. change (2 ^ 32) with (256 ^ 4). apply Z.pow_le_mono_r; [lia|].
  unfold Zlen. rewrite length_take. lia.
Qed.

(** * Hash contexts *)

(** [struct sha256_state_st] and its like; [h] is the chaining value. *)
Record md_state := MdState {
  h : list Z;
  Nl : Z;
  Nh : Z;
  data : bytes;    (** one block, of which [num] bytes are used *)
  num : nat;
}.

(** A block function takes [n] blocks from the front of its input. *)
Abbreviation block_func_t := (list Z -> bytes -> nat -> list Z).

Section md32.
Context (block_func : block_func_t) (block_size : nat).

(** The part of [crypto_md32_update] after the partial block is gone. *)
Definition md_update_blocks (in_ : bytes) (c : md_state) : md_state :=
  let n := (length in_ / block_size)%nat in
  let h := if (0 <? n)%nat then block_func (h c) in_ n else h c in
  let in_ := drop (n * block_size) in_ in
  if (0 <? length in_)%nat then MdState h (Nl c) (Nh c) (OPENSSL_memcpy 0 in_ (data c)) (length in_)
  else MdState h (Nl c) (Nh c) (data c) (num c).

Definition crypto_md32_update (in_ : bytes) (c : md_state) : md_state :=
  let len := Z.of_nat (length in_) in
  if len =? 0 then c
  else
    let l := u32 (Nl c + u32 (Z.shiftl (u32 len) 3)) in
    let Nh1 := if l <? Nl c then u32 (Nh c + 1) else Nh c in
    let Nh2 := u32 (Nh1 + u32 (Z.shiftr len 29)) in
    let n := num c in
    if negb (n =? 0)%nat then
      if (block_size <=? length in_)%nat || (block_size <=? length in_ + n)%nat then
        let full := OPENSSL_memcpy n (take (block_size - n) in_) (data c) in
        let c := MdState (block_func (h c) full 1) l Nh2 (OPENSSL_memset 0 block_size full) 0 in
        md_update_blocks (drop (block_size - n) in_) c
      else MdState (h c) l Nh2 (OPENSSL_memcpy n in_ (data c)) (n + length in_)
    else md_update_blocks in_ (MdState (h c) l Nh2 (data c) n).

(** The bytes [lenb] are the length of the message, the end of the last block. *)
Definition md_pad (lenb : bytes) (h : list Z) (data : bytes) (num : nat) : list Z :=
  let data := OPENSSL_memcpy num [0x80] data in
  let n := (num + 1)%nat in
  let '(h, data, n) :=
    if (block_size - length lenb <? n)%nat then
      let data := OPENSSL_memset n (block_size - n) data in (block_func h data 1, data, 0%nat)
    else (h, data, n) in
  let data := OPENSSL_memset n (block_size - length lenb - n) data in
  block_func h (OPENSSL_memcpy (block_size - length lenb) lenb data) 1.

Definition crypto_md32_final (is_big_endian : bool) (c : md_state) : md_state :=
  let lenb :=
    if is_big_endian then CRYPTO_store_u32_be (Nh c) ++ CRYPTO_store_u32_be (Nl c)
    else CRYPTO_store_u32_le (Nl c) ++ CRYPTO_store_u32_le (Nh c) in
  MdState (md_pad lenb (h c) (data c) (num c)) (Nl c) (Nh c) (replicate block_size 0) 0.

(** * [sha512.c]: 64-bit counters and a block of 128 bytes *)

Definition SHA512_Update (in_ : bytes) (c : md_state) : md_state :=
  let len := Z.of_nat (length in_) in
  if len =? 0 then c
  else
    let l := u64 (Nl c + u64 (Z.shiftl len 3)) in
    let Nh1 := if l <? Nl c then u64 (Nh c + 1) else Nh c in
    let Nh2 := u64 (Nh1 + Z.shiftr len 61) in
    if negb (num c =? 0)%nat then
      let n := (block_size - num c)%nat in
      if (length in_ <? n)%nat then MdState (h c) l Nh2 (OPENSSL_memcpy (num c) in_ (data c)) (num c + length in_)
      else
        let p := OPENSSL_memcpy (num c) (take n in_) (data c) in
        md_update_blocks (drop n in_) (MdState (block_func (h c) p 1) l Nh2 p 0)
    else md_update_blocks in_ (MdState (h c) l Nh2 (data c) (num c)).

(** [sha512_final_impl] up to the output. *)
Definition sha512_final_h (c : md_state) : list Z :=
  md_pad (CRYPTO_store_u64_be (Nh c) ++ CRYPTO_store_u64_be (Nl c)) (h c) (data c) (num c).

End md32.

(** * What a hash of blocks is *)

Section spec.
Context (block_size : nat) (block : list Z -> bytes -> list Z).

(** [n] blocks from the front of [l]. *)
Fixpoint hash_blocks (n : nat) (h : list Z) (l : bytes) : list Z :=
  match n with
  | O => h
  | S n => hash_blocks n (block h (take block_size l)) (drop block_size l)
  end.

(** A 1 bit, zeros up to the end of a block, the last bytes being the length. *)
Definition padding (lenb : bytes) (len : nat) : bytes :=
  0x80 :: replicate (Z.to_nat ((- Z.of_nat (len + 1 + length lenb)) mod Z.of_nat block_size)) 0 ++ lenb.

(** The hash of [m] without the final serialisation. *)
Definition hash_message (lenb : bytes) (h0 : list Z) (m : bytes) : list Z :=
  let p := m ++ padding lenb (length m) in hash_blocks (length p / block_size) h0 p.

Lemma hash_blocks_app n k hv l :
  hash_blocks (n + k) hv l = hash_blocks k (hash_blocks n hv l) (drop (n * block_size) l).
Proof.
  revert hv l. induction n as [|n IH]; intros hv l; cbn [plus hash_blocks]; [by rewrite drop_0|].
  rewrite IH, drop_drop. do 2 f_equal.
Qed.

Lemma hash_blocks_prefix n hv l k : (n * block_size <= length l)%nat -> hash_blocks n hv (l ++ k) = hash_blocks n hv l.
Proof.
  revert hv l. induction n as [|n IH]; intros hv l Hl; cbn [hash_blocks]; [done|].
  rewrite take_app_le, drop_app_le by lia. apply IH. rewrite length_drop. lia.
Qed.

End spec.

(** A block function does its blocks one after the other. *)
Class BlockFunc (block_size : nat) (block_func : block_func_t) := {
  block_func_spec n hv l : block_func hv l (S n) = hash_blocks block_size (fun hv l => block_func hv l 1%nat) (S n) hv l;
}.

(** * Streaming *)

Lemma length_memcpy off src dst :
  (off + length src <= length dst)%nat -> length (OPENSSL_memcpy off src dst) = length dst.
Proof. intros Hl. unfold OPENSSL_memcpy. rewrite !length_app, length_take, length_drop. lia. Qed.

Lemma length_memset off n dst : (off + n <= length dst)%nat -> length (OPENSSL_memset off n dst) = length dst.
Proof. intros Hl. apply length_memcpy. by rewrite length_replicate. Qed.

Lemma take_memcpy off src dst :
  (off <= length dst)%nat -> take (off + length src) (OPENSSL_memcpy off src dst) = take off dst ++ src.
Proof.
  intros Hl. unfold OPENSSL_memcpy. rewrite app_assoc.
  rewrite take_app_le by (rewrite length_app, length_take; lia).
  apply take_ge. rewrite length_app, length_take. lia.
Qed.

(** A block that is filled to the end. *)
Lemma memcpy_full off src dst :
  (off + length src = length dst)%nat -> OPENSSL_memcpy off src dst = take off dst ++ src.
Proof. intros Hl. unfold OPENSSL_memcpy. by rewrite Hl, drop_all, app_nil_r. Qed.

(** Numbers in two halves. *)
Lemma le_bytes_app b a hi lo :
  0 <= lo < 256 ^ Z.of_nat b -> le_bytes b lo ++ le_bytes a hi = le_bytes (b + a) (hi * 256 ^ Z.of_nat b + lo).
Proof.
  revert lo. induction b as [|b IH]; intros lo Hlo; cbn [plus le_bytes app].
  - change (256 ^ Z.of_nat 0) with 1 in *. f_equal. lia.
  - rewrite Nat2Z.inj_succ, Z.pow_succ_r in * by lia. rewrite IH by dlia.
    replace (hi * (256 * 256 ^ Z.of_nat b) + lo) with (lo + hi * 256 ^ Z.of_nat b * 256) by ring.
    rewrite Z_mod_plus_full, Z.div_add by lia. do 2 f_equal. lia.
Qed.

Lemma be_bytes_app a b hi lo :
  0 <= lo < 256 ^ Z.of_nat b -> be_bytes a hi ++ be_bytes b lo = be_bytes (a + b) (hi * 256 ^ Z.of_nat b + lo).
Proof. intros Hlo. unfold be_bytes. by rewrite <- rev_app_distr, le_bytes_app, Nat.add_comm by done. Qed.

Lemma le_bytes_mod n v : le_bytes n (v mod 256 ^ Z.of_nat n) = le_bytes n v.
Proof. rewrite <- (rev_involutive (le_bytes n v)). fold (be_bytes n v). rewrite <- be_bytes_mod. unfold be_bytes. by rewrite rev_involutive. Qed.

Section streaming.
Context (block_func : block_func_t) (block_size : nat) `{BlockFunc block_size block_func}.
Context (Hbs : (0 < block_size)%nat).

Abbreviation block := (fun hv l => block_func hv l 1%nat).
Abbreviation blocks := (hash_blocks block_size block).

Lemma block_func_blocks n hv l : (0 < n)%nat -> block_func hv l n = blocks n hv l.
Proof. destruct n as [|n]; [lia|]. intros _. apply block_func_spec. Qed.

Lemma block_func_take hv l : block_func hv l 1 = block_func hv (take block_size l) 1.
Proof. by rewrite (block_func_spec 0) at 1. Qed.

(** The context after the message [m], the counters apart. *)
Definition absorbed (h0 : list Z) (m : bytes) (c : md_state) : Prop :=
  exists q, length m = (q * block_size + num c)%nat /\ (num c < block_size)%nat /\
    h c = blocks q h0 m /\ take (num c) (data c) = drop (q * block_size) m /\ length (data c) = block_size.

Lemma absorbed_update_blocks h0 m in_ c :
  num c = 0%nat -> absorbed h0 m c -> absorbed h0 (m ++ in_) (md_update_blocks block_func block_size in_ c).
Proof.
  intros Hnum (q & Hlen & _ & Hh & _ & Hdata). rewrite Hnum, Nat.add_0_r in Hlen. unfold md_update_blocks.
  set (n := (length in_ / block_size)%nat).
  pose proof (Nat.div_mod_eq (length in_) block_size) as Hdiv. fold n in Hdiv.
  pose proof (Nat.mod_upper_bound (length in_) block_size ltac:(lia)) as Hmod.
  assert ((if (0 <? n)%nat then block_func (h c) in_ n else h c) = blocks (q + n) h0 (m ++ in_)) as ->.
  { rewrite hash_blocks_app, hash_blocks_prefix, <- Hlen, drop_app_length, <- Hh by lia.
    destruct (Nat.ltb_spec 0 n); [by apply block_func_blocks|]. by replace n with 0%nat by lia. }
  assert (length (drop (n * block_size) in_) = length in_ mod block_size)%nat as Hrest by (rewrite length_drop; lia).
  assert (drop ((q + n) * block_size) (m ++ in_) = drop (n * block_size) in_) as Hdrop.
  { rewrite Nat.mul_add_distr_r, <- drop_drop, <- Hlen. by rewrite drop_app_length. }
  exists (q + n)%nat. rewrite length_app, Hdrop.
  destruct (Nat.ltb_spec 0 (length (drop (n * block_size) in_))); cbn [num h data].
  - rewrite Hrest in *. split; [lia|]. split; [lia|]. split; [done|]. rewrite length_memcpy by (rewrite Hrest; lia).
    split; [|done]. rewrite <- Hrest. exact (take_memcpy 0 _ (data c) ltac:(lia)).
  - rewrite Hnum. split; [lia|]. split; [lia|]. split; [done|]. split; [|done].
    symmetry. apply nil_length_inv. lia.
Qed.

(** Filling the partial block. *)
Lemma absorbed_fill h0 m in_ c l Nh' p :
  absorbed h0 m c -> (length in_ + num c = block_size)%nat -> length p = block_size ->
  absorbed h0 (m ++ in_) (MdState (block_func (h c) (OPENSSL_memcpy (num c) in_ (data c)) 1) l Nh' p 0).
Proof.
  intros (q & Hlen & Hnum & Hh & Htake & Hdata) Hin Hp. exists (S q). cbn [num h data]. rewrite length_app.
  split; [lia|]. split; [lia|]. replace (S q) with (q + 1)%nat by lia. split; [|split; [|done]].
  - rewrite hash_blocks_app, hash_blocks_prefix, <- Hh, drop_app_le by lia. cbn [hash_blocks].
    rewrite memcpy_full, Htake by lia. by apply block_func_take.
  - rewrite drop_ge; [done|]. rewrite length_app. lia.
Qed.

(** A piece that does not fill the block. *)
Lemma absorbed_partial h0 m in_ c l Nh' :
  absorbed h0 m c -> (num c + length in_ < block_size)%nat ->
  absorbed h0 (m ++ in_) (MdState (h c) l Nh' (OPENSSL_memcpy (num c) in_ (data c)) (num c + length in_)).
Proof.
  intros (q & Hlen & Hnum & Hh & Htake & Hdata) Hin. exists q. cbn [num h data]. rewrite length_app.
  split; [lia|]. split; [lia|]. split; [by rewrite hash_blocks_prefix by lia|].
  rewrite length_memcpy by lia. split; [|done]. rewrite take_memcpy, Htake, drop_app_le by lia. done.
Qed.

Lemma absorbed_counters h0 m c l Nh' : absorbed h0 m c -> absorbed h0 m (MdState (h c) l Nh' (data c) (num c)).
Proof. done. Qed.

Lemma absorbed_md32_update h0 m in_ c :
  absorbed h0 m c -> absorbed h0 (m ++ in_) (crypto_md32_update block_func block_size in_ c).
Proof.
  intros Hc. unfold crypto_md32_update. destruct (Z.eqb_spec (Z.of_nat (length in_)) 0) as [E|_].
  { assert (in_ = []) as -> by (apply nil_length_inv; lia). by rewrite app_nil_r. }
  cbv zeta. set (Nh2 := u32 (_ + u32 (Z.shiftr _ _))). clearbody Nh2. set (l := u32 (Nl c + _)). clearbody l.
  destruct (Nat.eqb_spec (num c) 0) as [E|E]; cbn [negb].
  { apply absorbed_update_blocks; [done|by apply absorbed_counters]. }
  pose proof Hc as (q & Hlen & Hnum & _ & _ & Hdata).
  destruct (Nat.leb_spec block_size (length in_)), (Nat.leb_spec block_size (length in_ + num c)); cbn [orb]; try lia.
  all: try (apply absorbed_partial; [done|lia]).
  all: rewrite <- (take_drop (block_size - num c) in_) at 1; rewrite app_assoc; apply absorbed_update_blocks; [done|];
    apply absorbed_fill; [done|rewrite length_take; lia|];
    rewrite length_memset; rewrite length_memcpy; rewrite ?length_take; lia.
Qed.

Lemma absorbed_SHA512_Update h0 m in_ c :
  absorbed h0 m c -> absorbed h0 (m ++ in_) (SHA512_Update block_func block_size in_ c).
Proof.
  intros Hc. unfold SHA512_Update. destruct (Z.eqb_spec (Z.of_nat (length in_)) 0) as [E|_].
  { assert (in_ = []) as -> by (apply nil_length_inv; lia). by rewrite app_nil_r. }
  cbv zeta. set (Nh2 := u64 (_ + Z.shiftr _ _)). clearbody Nh2. set (l := u64 (Nl c + _)). clearbody l.
  destruct (Nat.eqb_spec (num c) 0) as [E|E]; cbn [negb].
  { apply absorbed_update_blocks; [done|by apply absorbed_counters]. }
  pose proof Hc as (q & Hlen & Hnum & _ & _ & Hdata).
  destruct (Nat.ltb_spec (length in_) (block_size - num c)).
  - apply absorbed_partial; [done|lia].
  - rewrite <- (take_drop (block_size - num c) in_) at 1. rewrite app_assoc. apply absorbed_update_blocks; [done|].
    apply absorbed_fill; [done|rewrite length_take; lia|].
    rewrite length_memcpy; rewrite ?length_take; lia.
Qed.

(** * Padding *)

(** The last block: what is used of it, zeros, and the length. *)
Lemma last_block n lenb D :
  (n + length lenb <= block_size)%nat -> length D = block_size ->
  OPENSSL_memcpy (block_size - length lenb) lenb (OPENSSL_memset n (block_size - length lenb - n) D) =
  take n D ++ replicate (block_size - length lenb - n) 0 ++ lenb.
Proof.
  intros Hn HD. rewrite memcpy_full by (rewrite length_memset; lia). rewrite app_assoc. f_equal.
  unfold OPENSSL_memset.
  pose proof (take_memcpy n (replicate (block_size - length lenb - n) 0) D ltac:(lia)) as Ht.
  rewrite length_replicate in Ht. by replace (block_size - length lenb)%nat with (n + (block_size - length lenb - n))%nat at 1 by lia.
Qed.

(** The number of zeros in each case. *)
Lemma padding_zeros q r L len k :
  (0 < k <= 2)%nat -> len = (q * block_size + r)%nat -> (k * block_size <= r + 1 + L + (block_size - 1) < (k + 1) * block_size)%nat ->
  Z.to_nat ((- Z.of_nat (len + 1 + L)) mod Z.of_nat block_size) = (k * block_size - L - r - 1)%nat.
Proof.
  intros Hk -> Hr.
  assert ((- Z.of_nat (q * block_size + r + 1 + L)) mod Z.of_nat block_size = Z.of_nat (k * block_size - L - r - 1)) as ->; [|lia].
  symmetry. apply Z.mod_unique_pos with (- Z.of_nat (q + k)); nia.
Qed.

Lemma blocks_1 hv X : length X = block_size -> blocks 1 hv X = block_func hv X 1.
Proof. intros HX. cbn [hash_blocks]. by rewrite take_ge by lia. Qed.

Lemma blocks_2 hv X Y :
  length X = block_size -> length Y = block_size -> blocks 2 hv (X ++ Y) = block_func (block_func hv X 1) Y 1.
Proof.
  intros HX HY. cbn [hash_blocks]. rewrite take_app_length', drop_app_length' by done. by rewrite (take_ge Y) by lia.
Qed.

(** The blocks after the complete ones of [m]. *)
Lemma absorbed_blocks h0 m c q z n :
  length m = (q * block_size + num c)%nat -> h c = blocks q h0 m -> length (m ++ z) = ((q + n) * block_size)%nat ->
  hash_blocks block_size block (length (m ++ z) / block_size) h0 (m ++ z) = blocks n (h c) (drop (q * block_size) m ++ z).
Proof.
  intros Hlen Hh Hz. rewrite Hz, Nat.div_mul, hash_blocks_app, hash_blocks_prefix, <- Hh, drop_app_le by lia. done.
Qed.

Lemma md_pad_message lenb h0 m c :
  absorbed h0 m c -> (length lenb < block_size)%nat ->
  md_pad block_func block_size lenb (h c) (data c) (num c) = hash_message block_size block lenb h0 m.
Proof.
  intros (q & Hlen & Hnum & Hh & Htake & Hdata) HL. unfold md_pad, hash_message, padding.
  set (d := OPENSSL_memcpy (num c) [0x80] (data c)). cbv zeta.
  assert (take (num c + 1) d = drop (q * block_size) m ++ [0x80]) as Hfirst.
  { rewrite <- Htake. apply (take_memcpy (num c) [0x80]). lia. }
  assert (length d = block_size) as Hd by (subst d; rewrite length_memcpy; cbn; lia). clearbody d.
  destruct (Nat.ltb_spec (block_size - length lenb) (num c + 1)).
  - rewrite (padding_zeros q (num c) _ _ 2) by lia.
    replace (2 * block_size - length lenb - num c - 1)%nat with ((block_size - (num c + 1)) + (block_size - length lenb))%nat by lia.
    rewrite (absorbed_blocks h0 m c q _ 2); [|done..|rewrite length_app; cbn [length]; rewrite length_app, length_replicate; lia].
    assert (OPENSSL_memset (num c + 1) (block_size - (num c + 1)) d =
      drop (q * block_size) m ++ 0x80 :: replicate (block_size - (num c + 1)) 0) as ->.
    { unfold OPENSSL_memset. rewrite memcpy_full, Hfirst by (rewrite length_replicate; lia). by rewrite <- app_assoc. }
    assert (length (drop (q * block_size) m ++ 0x80 :: replicate (block_size - (num c + 1)) 0) = block_size) as HX
      by (rewrite length_app, length_drop; cbn [length]; rewrite length_replicate; lia).
    rewrite last_block, take_0, Nat.sub_0_r by lia.
    rewrite replicate_add, <- app_assoc. cbn [app].
    replace (drop (q * block_size) m ++ 128 :: replicate (block_size - (num c + 1)) 0 ++ replicate (block_size - length lenb) 0 ++ lenb)
      with ((drop (q * block_size) m ++ 0x80 :: replicate (block_size - (num c + 1)) 0) ++ replicate (block_size - length lenb) 0 ++ lenb)
      by (by rewrite <- app_assoc).
    rewrite blocks_2; [done|exact HX|rewrite length_app, length_replicate; lia].
  - rewrite (padding_zeros q (num c) _ _ 1) by lia.
    replace (1 * block_size - length lenb - num c - 1)%nat with (block_size - length lenb - (num c + 1))%nat by lia.
    rewrite (absorbed_blocks h0 m c q _ 1); [|done..|rewrite length_app; cbn [length]; rewrite length_app, length_replicate; lia].
    rewrite last_block, Hfirst by lia. rewrite <- app_assoc. cbn [app].
    rewrite blocks_1; [done|]. rewrite length_app, length_drop. cbn [length]. rewrite length_app, length_replicate. lia.
Qed.

(** * The counters *)

Definition counts (w : Z) (m : bytes) (c : md_state) : Prop :=
  0 <= Nl c < 2 ^ w /\ 0 <= Nh c < 2 ^ w /\ Nh c * 2 ^ w + Nl c = (8 * Z.of_nat (length m)) mod (2 ^ w * 2 ^ w).

(** A bit count of two words, with the carry. *)
Lemma add_count W lo hi bits n :
  0 < W -> 0 <= lo < W -> 0 <= hi -> 0 <= n -> hi * W + lo = bits mod (W * W) ->
  let l := (lo + n mod W) mod W in
  let hi1 := if l <? lo then (hi + 1) mod W else hi in
  let hi2 := (hi1 + n / W) mod W in
  0 <= l < W /\ 0 <= hi2 < W /\ hi2 * W + l = (bits + n) mod (W * W).
Proof.
  intros HW Hlo Hhi Hn E l hi1 hi2.
  pose proof (Z.mod_pos_bound n W HW) as Hm. pose proof (Z.div_mod n W ltac:(lia)) as Hdiv.
  assert (0 <= l < W) as Hl by (by apply Z.mod_pos_bound).
  assert (exists c, lo + n mod W = c * W + l /\ hi2 = (hi + c + n / W) mod W) as (c & Hc & Hhi2).
  { unfold hi2, hi1. destruct (Z.lt_ge_cases (lo + n mod W) W).
    - exists 0. assert (l = lo + n mod W) as El by (by apply Z.mod_small; lia). rewrite El in *.
      destruct (Z.ltb_spec (lo + n mod W) lo); [lia|]. split; [lia|]. f_equal. lia.
    - exists 1. assert (l = lo + n mod W - W) as El by (symmetry; apply Z.mod_unique with 1; lia). rewrite El in *.
      destruct (Z.ltb_spec (lo + n mod W - W) lo); [|lia]. split; [lia|]. by rewrite Zplus_mod_idemp_l. }
  split; [done|]. split; [rewrite Hhi2; by apply Z.mod_pos_bound|].
  assert (((hi + c + n / W) * W + l) mod (W * W) = (bits + n) mod (W * W)) as <-.
  { rewrite <- (Zplus_mod_idemp_l bits n), <- E. f_equal. nia. }
  rewrite Hhi2. pose proof (Z.div_mod (hi + c + n / W) W ltac:(lia)) as Hd.
  pose proof (Z.mod_pos_bound (hi + c + n / W) W HW).
  apply Z.mod_unique with ((hi + c + n / W) / W); nia.
Qed.

Lemma counts_update_blocks w m in_ c : counts w m c -> counts w m (md_update_blocks block_func block_size in_ c).
Proof. intros Hc. unfold md_update_blocks. by destruct (0 <? length (drop _ _))%nat. Qed.

Lemma counts_md32_update m in_ c : counts 32 m c -> counts 32 (m ++ in_) (crypto_md32_update block_func block_size in_ c).
Proof.
  intros (Hl & Hh & E). unfold crypto_md32_update. destruct (Z.eqb_spec (Z.of_nat (length in_)) 0) as [E0|_].
  { assert (in_ = []) as -> by (apply nil_length_inv; lia). by rewrite app_nil_r. }
  pose proof (add_count (2 ^ 32) (Nl c) (Nh c) _ (8 * Z.of_nat (length in_)) ltac:(lia) Hl ltac:(lia) ltac:(lia) E) as Hadd.
  cbv zeta in Hadd |- *.
  assert (u32 (Z.shiftl (u32 (Z.of_nat (length in_))) 3) = (8 * Z.of_nat (length in_)) mod 2 ^ 32) as ->.
  { rewrite Z.shiftl_mul_pow2 by lia. unfold u32. change (2 ^ 3) with 8. rewrite Zmult_mod_idemp_l. f_equal. lia. }
  assert (Z.shiftr (Z.of_nat (length in_)) 29 = 8 * Z.of_nat (length in_) / 2 ^ 32) as ->.
  { rewrite Z.shiftr_div_pow2 by lia. change (2 ^ 32) with (8 * 2 ^ 29). by rewrite Z.div_mul_cancel_l by lia. }
  unfold u32 in *. rewrite (Zplus_mod_idemp_r (8 * Z.of_nat (length in_) / 2 ^ 32)). rewrite <- Z.mul_add_distr_l, <- Nat2Z.inj_add, <- length_app in Hadd.
  set (l := (Nl c + _) mod _) in *. clearbody l. set (Nh2 := (_ + 8 * Z.of_nat (length in_) / 2 ^ 32) mod _) in *. clearbody Nh2.
  destruct (num c =? 0)%nat; cbn [negb]; [by apply counts_update_blocks|].
  destruct (_ || _); [by apply counts_update_blocks|done].
Qed.

Lemma counts_SHA512_Update m in_ c : counts 64 m c -> counts 64 (m ++ in_) (SHA512_Update block_func block_size in_ c).
Proof.
  intros (Hl & Hh & E). unfold SHA512_Update. destruct (Z.eqb_spec (Z.of_nat (length in_)) 0) as [E0|_].
  { assert (in_ = []) as -> by (apply nil_length_inv; lia). by rewrite app_nil_r. }
  pose proof (add_count (2 ^ 64) (Nl c) (Nh c) _ (8 * Z.of_nat (length in_)) ltac:(lia) Hl ltac:(lia) ltac:(lia) E) as Hadd.
  cbv zeta in Hadd |- *.
  assert (u64 (Z.shiftl (Z.of_nat (length in_)) 3) = (8 * Z.of_nat (length in_)) mod 2 ^ 64) as ->
    by (rewrite Z.shiftl_mul_pow2 by lia; unfold u64; f_equal; lia).
  assert (Z.shiftr (Z.of_nat (length in_)) 61 = 8 * Z.of_nat (length in_) / 2 ^ 64) as ->.
  { rewrite Z.shiftr_div_pow2 by lia. change (2 ^ 64) with (8 * 2 ^ 61). by rewrite Z.div_mul_cancel_l by lia. }
  unfold u64 in *. rewrite <- Z.mul_add_distr_l, <- Nat2Z.inj_add, <- length_app in Hadd.
  set (l := (Nl c + _) mod _) in *. clearbody l. set (Nh2 := (_ + 8 * Z.of_nat (length in_) / 2 ^ 64) mod _) in *. clearbody Nh2.
  destruct (num c =? 0)%nat; cbn [negb]; [by apply counts_update_blocks|].
  destruct (_ <? _)%nat; [done|by apply counts_update_blocks].
Qed.

(** * Whole messages *)

Definition md_start (h0 : list Z) (d : bytes) : md_state := MdState h0 0 0 d 0.

Lemma absorbed_start h0 d : length d = block_size -> absorbed h0 [] (md_start h0 d).
Proof. intros Hd. exists 0%nat. by repeat split; cbn; rewrite ?take_0; try lia. Qed.

Lemma counts_start w h0 d : 0 <= w -> counts w [] (md_start h0 d).
Proof. intros Hw. pose proof (Z.pow_pos_nonneg 2 w ltac:(lia) Hw). by repeat split; cbn; rewrite ?Z.mod_0_l; try lia. Qed.

(** An invariant of updates, over a list of pieces. *)
Lemma fold_updates (P : bytes -> md_state -> Prop) (update : bytes -> md_state -> md_state) chunks m c :
  (forall m in_ c, P m c -> P (m ++ in_) (update in_ c)) -> P m c ->
  P (m ++ concat chunks) (fold_left (fun c in_ => update in_ c) chunks c).
Proof.
  intros Hstep. revert m c. induction chunks as [|x chunks IH]; intros m c Hc; cbn [concat fold_left]; [by rewrite app_nil_r|].
  rewrite app_assoc. auto.
Qed.

Lemma counts_be w n m c :
  counts w m c -> w = 8 * Z.of_nat n -> be_bytes n (Nh c) ++ be_bytes n (Nl c) = be_bytes (n + n) (8 * Z.of_nat (length m)).
Proof.
  intros (Hl & Hh & E) ->. rewrite Z.pow_mul_r in * by lia. change (2 ^ 8) with 256 in *.
  rewrite be_bytes_app by done. rewrite E. rewrite <- Z.pow_add_r, <- Nat2Z.inj_add by lia. apply be_bytes_mod.
Qed.

Lemma counts_le w n m c :
  counts w m c -> w = 8 * Z.of_nat n -> le_bytes n (Nl c) ++ le_bytes n (Nh c) = le_bytes (n + n) (8 * Z.of_nat (length m)).
Proof.
  intros (Hl & Hh & E) ->. rewrite Z.pow_mul_r in * by lia. change (2 ^ 8) with 256 in *.
  rewrite le_bytes_app by done. rewrite E. rewrite <- Z.pow_add_r, <- Nat2Z.inj_add by lia. apply le_bytes_mod.
Qed.

(** The pieces in which a message comes do not matter. *)
Lemma md32_streaming (is_big_endian : bool) h0 d chunks :
  length d = block_size -> (8 < block_size)%nat ->
  let m := concat chunks in
  h (crypto_md32_final block_func block_size is_big_endian
       (fold_left (fun c in_ => crypto_md32_update block_func block_size in_ c) chunks (md_start h0 d))) =
  hash_message block_size block
    ((if is_big_endian then be_bytes 8 else le_bytes 8) (8 * Z.of_nat (length m))) h0 m.
Proof.
  intros Hd Hbig m. set (c := fold_left _ chunks _).
  assert (absorbed h0 m c) as Ha by (by apply (fold_updates (absorbed h0) _ _ []); [apply absorbed_md32_update|apply absorbed_start]).
  assert (counts 32 m c) as Hc by (by apply (fold_updates (counts 32) _ _ []); [apply counts_md32_update|apply counts_start]).
  unfold crypto_md32_final. cbn [h]. rewrite (md_pad_message _ h0 m c Ha).
  - f_equal. destruct is_big_endian; [exact (counts_be 32 4 m c Hc eq_refl)|exact (counts_le 32 4 m c Hc eq_refl)].
  - destruct is_big_endian; unfold CRYPTO_store_u32_be, CRYPTO_store_u32_le;
      rewrite length_app, ?length_be_bytes, ?length_le_bytes; lia.
Qed.

Lemma SHA512_streaming h0 d chunks :
  length d = block_size -> (16 < block_size)%nat ->
  let m := concat chunks in
  sha512_final_h block_func block_size
    (fold_left (fun c in_ => SHA512_Update block_func block_size in_ c) chunks (md_start h0 d)) =
  hash_message block_size block (be_bytes 16 (8 * Z.of_nat (length m))) h0 m.
Proof.
  intros Hd Hbig m. set (c := fold_left _ chunks _).
  assert (absorbed h0 m c) as Ha by (by apply (fold_updates (absorbed h0) _ _ []); [apply absorbed_SHA512_Update|apply absorbed_start]).
  assert (counts 64 m c) as Hc by (by apply (fold_updates (counts 64) _ _ []); [apply counts_SHA512_Update|apply counts_start]).
  unfold sha512_final_h. rewrite (md_pad_message _ h0 m c Ha).
  - f_equal. exact (counts_be 64 8 m c Hc eq_refl).
  - unfold CRYPTO_store_u64_be. rewrite length_app, !length_be_bytes. lia.
Qed.

End streaming.

(** A block function with a reference for one block. *)
Lemma hash_message_ext block_size block block' lenb h0 m :
  (forall hv l, block hv l = block' hv l) -> hash_message block_size block lenb h0 m = hash_message block_size block' lenb h0 m.
Proof.
  intros He. unfold hash_message. cbv zeta. generalize (m ++ padding block_size lenb (length m)) as p.
  intros p. generalize (length p / block_size)%nat as n. intros n. revert h0 p.
  induction n as [|n IH]; intros h0 p; cbn [hash_blocks]; [done|]. by rewrite He, IH.
Qed.
