(* ===== verification/Sha2.v ===== *)
(** SHA-224 and SHA-256 ([crypto/fipsmodule/sha/sha256.c]), SHA-384, SHA-512 and
    SHA-512/256 ([sha512.c]).  The two block functions are the same macros over
    words of 32 and of 64 bits; the variants in assembler are not modelled. *)
From S2P Require Import Prelude Digest.

(** * The rounds of [sha256_block_data_order_nohw] and [sha512_block_data_order_nohw]

    The C code passes the eight variables to each round rotated by one place;
    a tuple is the variables in the order of the arguments. *)
Definition regs : Type := Z * Z * Z * Z * Z * Z * Z * Z.

Definition next_args (r : regs) : regs := let '(a, b, c, d, e, f, g, h) := r in (h, a, b, c, d, e, f, g).

Definition Ch (x y z : Z) : Z := Z.lxor (Z.land x y) (Z.land (Z.lnot x) z).
Definition Maj (x y z : Z) : Z := Z.lxor (Z.lxor (Z.land x y) (Z.land x z)) (Z.land y z).

(** The [n] words of [bits] bits that a table row is made of. *)
Definition words (n : nat) (bits : Z) (row : Z) : list Z :=
  (fun i => (row / 2 ^ (bits * Z.of_nat i)) mod 2 ^ bits) <$> rev (seq 0 n).

Section sha2.
Context (wrap : Z -> Z) (Sigma0 Sigma1 sigma0 sigma1 : Z -> Z) (K : list Z) (rounds : nat).

Definition ROUND_00_15 (i : nat) (T1 : Z) (r : regs) : regs :=
  let '(a, b, c, d, e, f, g, h) := r in
  let T1 := wrap (T1 + h + Sigma1 e + Ch e f g + nth i K 0) in
  let h := wrap (Sigma0 a + Maj a b c) in
  (a, b, c, wrap (d + T1), e, f, g, wrap (h + T1)).

(** [X] is used as a ring of 16 words. *)
Definition ROUND_16_63 (i : nat) (s : regs * list Z) : regs * list Z :=
  let '(r, X) := s in
  let s0 := sigma0 (nth (Nat.land (i + 1) 0x0f) X 0) in
  let s1 := sigma1 (nth (Nat.land (i + 14) 0x0f) X 0) in
  let T1 := wrap (nth (Nat.land i 0x0f) X 0 + (s0 + s1 + nth (Nat.land (i + 9) 0x0f) X 0)) in
  (ROUND_00_15 i T1 r, <[Nat.land i 0x0f := T1]> X).

Definition load_regs (state : list Z) : regs :=
  let w i := nth i state 0 in
  (w 0%nat, w 1%nat, w 2%nat, w 3%nat, w 4%nat, w 5%nat, w 6%nat, w 7%nat).

(** [state[i] += ...]. *)
Definition add_regs (state : list Z) (r : regs) : list Z :=
  let w i := nth i state 0 in
  let '(a, b, c, d, e, f, g, h) := r in
  [wrap (w 0%nat + a); wrap (w 1%nat + b); wrap (w 2%nat + c); wrap (w 3%nat + d);
   wrap (w 4%nat + e); wrap (w 5%nat + f); wrap (w 6%nat + g); wrap (w 7%nat + h)].

(** One pass of the loop over the blocks, with the 16 words of the block. *)
Definition sha2_block (state X : list Z) : list Z :=
  let r := fold_left (fun r i => next_args (ROUND_00_15 i (nth i X 0) r)) (seq 0 16) (load_regs state) in
  let '(r, _) :=
    fold_left (fun s i => let '(r, X) := ROUND_16_63 i s in (next_args r, X)) (seq 16 (rounds - 16)) (r, X) in
  add_regs state r.

(** * The compression function of FIPS 180-4 *)

(** The message schedule, the words [M] and [n] more. *)
Fixpoint schedule (M : list Z) (n : nat) : list Z :=
  match n with
  | O => M
  | S n =>
      let W := schedule M n in
      let t := length W in
      W ++ [wrap (sigma1 (nth (t - 2) W 0) + nth (t - 7) W 0 + sigma0 (nth (t - 15) W 0) + nth (t - 16) W 0)]
  end.

Definition fips_round (Kt Wt : Z) (r : regs) : regs :=
  let '(a, b, c, d, e, f, g, h) := r in
  let T1 := wrap (h + Sigma1 e + Ch e f g + Kt + Wt) in
  let T2 := wrap (Sigma0 a + Maj a b c) in
  (wrap (T1 + T2), a, b, c, wrap (d + T1), e, f, g).

Definition fips_block (state M : list Z) : list Z :=
  let W := schedule M (rounds - 16) in
  add_regs state (fold_left (fun r t => fips_round (nth t K 0) (nth t W 0) r) (seq 0 rounds) (load_regs state)).

End sha2.

(** * SHA-256 *)

Module Sha256.

Definition K256 : list Z := mjoin (words 8 32 <$>
  [0x428a2f9871374491b5c0fbcfe9b5dba53956c25b59f111f1923f82a4ab1c5ed5;
   0xd807aa9812835b01243185be550c7dc372be5d7480deb1fe9bdc06a7c19bf174;
   0xe49b69c1efbe47860fc19dc6240ca1cc2de92c6f4a7484aa5cb0a9dc76f988da;
   0x983e5152a831c66db00327c8bf597fc7c6e00bf3d5a7914706ca635114292967;
   0x27b70a852e1b21384d2c6dfc53380d13650a7354766a0abb81c2c92e92722c85;
   0xa2bfe8a1a81a664bc24b8b70c76c51a3d192e819d6990624f40e3585106aa070;
   0x19a4c1161e376c082748774c34b0bcb5391c0cb34ed8aa4a5b9cca4f682e6ff3;
   0x748f82ee78a5636f84c878148cc7020890befffaa4506cebbef9a3f7c67178f2]).

Definition Sigma0 (x : Z) : Z := Z.lxor (Z.lxor (CRYPTO_rotr_u32 x 2) (CRYPTO_rotr_u32 x 13)) (CRYPTO_rotr_u32 x 22).
Definition Sigma1 (x : Z) : Z := Z.lxor (Z.lxor (CRYPTO_rotr_u32 x 6) (CRYPTO_rotr_u32 x 11)) (CRYPTO_rotr_u32 x 25).
Definition sigma0 (x : Z) : Z := Z.lxor (Z.lxor (CRYPTO_rotr_u32 x 7) (CRYPTO_rotr_u32 x 18)) (Z.shiftr x 3).
Definition sigma1 (x : Z) : Z := Z.lxor (Z.lxor (CRYPTO_rotr_u32 x 17) (CRYPTO_rotr_u32 x 19)) (Z.shiftr x 10).

Definition SHA256_CBLOCK : nat := 64.
Definition SHA224_DIGEST_LENGTH : nat := 28.
Definition SHA256_DIGEST_LENGTH : nat := 32.

Definition load_words (data : bytes) : list Z := (fun i => CRYPTO_load_u32_be (drop (4 * i) data)) <$> seq 0 16.

Definition sha256_block (state : list Z) (data : bytes) : list Z :=
  sha2_block u32 Sigma0 Sigma1 sigma0 sigma1 K256 64 state (load_words data).

Fixpoint sha256_block_data_order_nohw (state : list Z) (data : bytes) (num : nat) {struct num} : list Z :=
  match num with
  | O => state
  | S num => sha256_block_data_order_nohw (sha256_block state data) (drop 64 data) num
  end.

(** [struct sha256_state_st]: the context and [md_len]. *)
Record sha256_state_st := Sha256State {
  ctx : md_state;
  md_len : nat;
}.

Definition SHA224_Init : sha256_state_st :=
  Sha256State (md_start (words 8 32 0xc1059ed8367cd5073070dd17f70e5939ffc00b316858151164f98fa7befa4fa4) (replicate 64 0)) SHA224_DIGEST_LENGTH.

Definition SHA256_Init : sha256_state_st :=
  Sha256State (md_start (words 8 32 0x6a09e667bb67ae853c6ef372a54ff53a510e527f9b05688c1f83d9ab5be0cd19) (replicate 64 0)) SHA256_DIGEST_LENGTH.

Definition SHA256_Transform (data : bytes) (c : sha256_state_st) : list Z :=
  sha256_block_data_order_nohw (h (ctx c)) data 1.

Definition SHA256_Update (data : bytes) (c : sha256_state_st) : sha256_state_st :=
  Sha256State (crypto_md32_update sha256_block_data_order_nohw SHA256_CBLOCK data (ctx c)) (md_len c).

Definition SHA224_Update (data : bytes) (c : sha256_state_st) : sha256_state_st := SHA256_Update data c.

(** The digest and the context left behind. *)
Definition sha256_final_impl (md_len' : nat) (c : sha256_state_st) : option bytes * sha256_state_st :=
  let c := Sha256State (crypto_md32_final sha256_block_data_order_nohw SHA256_CBLOCK true (ctx c)) (md_len c) in
  if (SHA256_DIGEST_LENGTH <? md_len')%nat then (None, c)
  else (Some (mjoin (CRYPTO_store_u32_be <$> take (md_len' / 4) (h (ctx c)))), c).

Definition SHA256_Final (c : sha256_state_st) : option bytes * sha256_state_st := sha256_final_impl (md_len c) c.
Definition SHA224_Final (c : sha256_state_st) : option bytes * sha256_state_st := sha256_final_impl SHA224_DIGEST_LENGTH c.

Definition SHA224 (data : bytes) : option bytes := fst (SHA224_Final (SHA224_Update data SHA224_Init)).
Definition SHA256 (data : bytes) : option bytes := fst (SHA256_Final (SHA256_Update data SHA256_Init)).

End Sha256.

(** * SHA-512 *)

Module Sha512.

Definition K512 : list Z := mjoin (words 4 64 <$>
  [0x428a2f98d728ae227137449123ef65cdb5c0fbcfec4d3b2fe9b5dba58189dbbc;
   0x3956c25bf348b53859f111f1b605d019923f82a4af194f9bab1c5ed5da6d8118;
   0xd807aa98a303024212835b0145706fbe243185be4ee4b28c550c7dc3d5ffb4e2;
   0x72be5d74f27b896f80deb1fe3b1696b19bdc06a725c71235c19bf174cf692694;
   0xe49b69c19ef14ad2efbe4786384f25e30fc19dc68b8cd5b5240ca1cc77ac9c65;
   0x2de92c6f592b02754a7484aa6ea6e4835cb0a9dcbd41fbd476f988da831153b5;
   0x983e5152ee66dfaba831c66d2db43210b00327c898fb213fbf597fc7beef0ee4;
   0xc6e00bf33da88fc2d5a79147930aa72506ca6351e003826f142929670a0e6e70;
   0x27b70a8546d22ffc2e1b21385c26c9264d2c6dfc5ac42aed53380d139d95b3df;
   0x650a73548baf63de766a0abb3c77b2a881c2c92e47edaee692722c851482353b;
   0xa2bfe8a14cf10364a81a664bbc423001c24b8b70d0f89791c76c51a30654be30;
   0xd192e819d6ef5218d69906245565a910f40e35855771202a106aa07032bbd1b8;
   0x19a4c116b8d2d0c81e376c085141ab532748774cdf8eeb9934b0bcb5e19b48a8;
   0x391c0cb3c5c95a634ed8aa4ae3418acb5b9cca4f7763e373682e6ff3d6b2b8a3;
   0x748f82ee5defb2fc78a5636f43172f6084c87814a1f0ab728cc702081a6439ec;
   0x90befffa23631e28a4506cebde82bde9bef9a3f7b2c67915c67178f2e372532b;
   0xca273eceea26619cd186b8c721c0c207eada7dd6cde0eb1ef57d4f7fee6ed178;
   0x06f067aa72176fba0a637dc5a2c898a6113f9804bef90dae1b710b35131c471b;
   0x28db77f523047d8432caab7b40c724933c9ebe0a15c9bebc431d67c49c100d4c;
   0x4cc5d4becb3e42b6597f299cfc657e2a5fcb6fab3ad6faec6c44198c4a475817]).

Definition Sigma0 (x : Z) : Z := Z.lxor (Z.lxor (CRYPTO_rotr_u64 x 28) (CRYPTO_rotr_u64 x 34)) (CRYPTO_rotr_u64 x 39).
Definition Sigma1 (x : Z) : Z := Z.lxor (Z.lxor (CRYPTO_rotr_u64 x 14) (CRYPTO_rotr_u64 x 18)) (CRYPTO_rotr_u64 x 41).
Definition sigma0 (x : Z) : Z := Z.lxor (Z.lxor (CRYPTO_rotr_u64 x 1) (CRYPTO_rotr_u64 x 8)) (Z.shiftr x 7).
Definition sigma1 (x : Z) : Z := Z.lxor (Z.lxor (CRYPTO_rotr_u64 x 19) (CRYPTO_rotr_u64 x 61)) (Z.shiftr x 6).

Definition SHA512_CBLOCK : nat := 128.
Definition SHA384_DIGEST_LENGTH : nat := 48.
Definition SHA512_DIGEST_LENGTH : nat := 64.
Definition SHA512_256_DIGEST_LENGTH : nat := 32.

Definition load_words (in_ : bytes) : list Z := (fun i => be_val (take 8 (drop (8 * i) in_))) <$> seq 0 16.

Definition sha512_block (state : list Z) (in_ : bytes) : list Z :=
  sha2_block u64 Sigma0 Sigma1 sigma0 sigma1 K512 80 state (load_words in_).

Fixpoint sha512_block_data_order_nohw (state : list Z) (in_ : bytes) (num : nat) {struct num} : list Z :=
  match num with
  | O => state
  | S num => sha512_block_data_order_nohw (sha512_block state in_) (drop 128 in_) num
  end.

(** [struct sha512_state_st]; the initialisers do not clear the block [p]. *)
Record sha512_state_st := Sha512State {
  ctx : md_state;
  md_len : nat;
}.

Definition SHA384_Init (p : bytes) : sha512_state_st :=
  Sha512State (md_start (words 8 64 0xcbbb9d5dc1059ed8629a292a367cd5079159015a3070dd17152fecd8f70e593967332667ffc00b318eb44a8768581511db0c2e0d64f98fa747b5481dbefa4fa4) p) SHA384_DIGEST_LENGTH.

Definition SHA512_Init (p : bytes) : sha512_state_st :=
  Sha512State (md_start (words 8 64 0x6a09e667f3bcc908bb67ae8584caa73b3c6ef372fe94f82ba54ff53a5f1d36f1510e527fade682d19b05688c2b3e6c1f1f83d9abfb41bd6b5be0cd19137e2179) p) SHA512_DIGEST_LENGTH.

Definition SHA512_256_Init (p : bytes) : sha512_state_st :=
  Sha512State (md_start (words 8 64 0x22312194fc2bf72c9f555fa3c84c64c22393b86b6f53b151963877195940eabd96283ee2a88effe3be5e1e25538639922b0199fc2c85b8aa0eb72ddc81c52ca2) p) SHA512_256_DIGEST_LENGTH.

Definition SHA512_Transform (block : bytes) (c : sha512_state_st) : list Z :=
  sha512_block_data_order_nohw (h (ctx c)) block 1.

Definition SHA512_Update (in_data : bytes) (c : sha512_state_st) : sha512_state_st :=
  Sha512State (Digest.SHA512_Update sha512_block_data_order_nohw SHA512_CBLOCK in_data (ctx c)) (md_len c).

Definition SHA384_Update (data : bytes) (c : sha512_state_st) : sha512_state_st := SHA512_Update data c.
Definition SHA512_256_Update (data : bytes) (c : sha512_state_st) : sha512_state_st := SHA512_Update data c.

Definition sha512_final_impl (md_len : nat) (c : sha512_state_st) : bytes :=
  mjoin (CRYPTO_store_u64_be <$> take (md_len / 8) (sha512_final_h sha512_block_data_order_nohw SHA512_CBLOCK (ctx c))).

Definition SHA512_Final (c : sha512_state_st) : bytes := sha512_final_impl (md_len c) c.
Definition SHA384_Final (c : sha512_state_st) : bytes := sha512_final_impl SHA384_DIGEST_LENGTH c.
Definition SHA512_256_Final (c : sha512_state_st) : bytes := sha512_final_impl SHA512_256_DIGEST_LENGTH c.

(** [p] is what the block of the context holds. *)
Definition SHA384 (p data : bytes) : bytes := SHA384_Final (SHA384_Update data (SHA384_Init p)).
Definition SHA512 (p data : bytes) : bytes := SHA512_Final (SHA512_Update data (SHA512_Init p)).
Definition SHA512_256 (p data : bytes) : bytes := SHA512_256_Final (SHA512_256_Update data (SHA512_256_Init p)).

End Sha512.
