(* ===== verification/Sha2Spec.v ===== *)
(** SHA-2 as FIPS 180-4 states it: the code's ring of 16 words is the message
    schedule, and hashing in pieces is hashing the padded message. *)
From S2P Require Import Prelude Digest Sha2.

#[local] Arguments Nat.land : simpl never.

(** [& 0x0f]. *)
Lemma land_15 n : Nat.land n 15 = (n mod 16)%nat.
Proof. exact (Nat.land_ones n 4). Qed.

Lemma fold_left_ext_in {A B} (f g : A -> B -> A) l a :
  (forall a x, x ∈ l -> f a x = g a x) -> fold_left f l a = fold_left g l a.
Proof.
  revert a. induction l as [|x l IH]; intros a Hfg; cbn [fold_left]; [done|].
  rewrite Hfg by (by left). apply IH. intros b y Hy. apply Hfg. by right.
Qed.

Section block.
Context (wrap : Z -> Z) (Sigma0 Sigma1 sigma0 sigma1 : Z -> Z) (K : list Z) (rounds : nat).

Abbreviation ROUND_00_15 := (ROUND_00_15 wrap Sigma0 Sigma1 K).
Abbreviation ROUND_16_63 := (ROUND_16_63 wrap Sigma0 Sigma1 sigma0 sigma1 K).
Abbreviation fips_round := (fips_round wrap Sigma0 Sigma1).
Abbreviation schedule := (schedule wrap sigma0 sigma1).

(** A round in place followed by the rotation of the names is a round that
    shifts the variables. *)
Lemma ROUND_fips i W r : next_args (ROUND_00_15 i W r) = fips_round (nth i K 0) W r.
Proof.
  destruct r as [[[[[[[a b] c] d] e] f] g] hv]. unfold Sha2.ROUND_00_15, Sha2.fips_round, next_args.
  assert (W + hv + Sigma1 e + Ch e f g + nth i K 0 = hv + Sigma1 e + Ch e f g + nth i K 0 + W) as -> by lia.
  cbv zeta. by rewrite (Z.add_comm (wrap (Sigma0 a + Maj a b c))).
Qed.

Lemma length_schedule M n : length (schedule M n) = (length M + n)%nat.
Proof. induction n as [|n IH]; cbn [Sha2.schedule]; [lia|]. rewrite length_app, IH. cbn. lia. Qed.

Lemma nth_schedule M n k t : (t < length M + n)%nat -> nth t (schedule M (n + k)) 0 = nth t (schedule M n) 0.
Proof.
  intros Ht. induction k as [|k IH]; [by rewrite Nat.add_0_r|]. rewrite Nat.add_succ_r. cbn [Sha2.schedule].
  rewrite app_nth1, IH; [done|]. rewrite length_schedule. lia.
Qed.

(** The ring [X] after [n] rounds holds the last 16 words of the schedule. *)
Definition ring (M : list Z) (n : nat) (X : list Z) : Prop :=
  length X = 16%nat /\ forall j, (n <= j < n + 16)%nat -> nth (j mod 16) X 0 = nth j (schedule M n) 0.

Lemma ring_step M n r X :
  length M = 16%nat -> ring M n X ->
  exists X', ROUND_16_63 (16 + n) (r, X) = (ROUND_00_15 (16 + n) (nth (16 + n) (schedule M (S n)) 0) r, X') /\ ring M (S n) X'.
Proof.
  intros HM [HX Hring]. unfold Sha2.ROUND_16_63. rewrite !land_15.
  assert (forall k, (1 <= k <= 16)%nat -> nth ((16 + n + (16 - k)) mod 16) X 0 = nth (16 + n - k) (schedule M n) 0) as Hback.
  { intros k Hk. rewrite <- Hring by lia. f_equal.
    replace (16 + n + (16 - k))%nat with (16 + n - k + 1 * 16)%nat by lia. by rewrite Nat.Div0.mod_add. }
  pose proof (Hback 15%nat ltac:(lia)) as H15. pose proof (Hback 2%nat ltac:(lia)) as H2. pose proof (Hback 7%nat ltac:(lia)) as H7.
  pose proof (Hback 16%nat ltac:(lia)) as H16.
  change (16 - 15)%nat with 1%nat in H15. change (16 - 2)%nat with 14%nat in H2. change (16 - 7)%nat with 9%nat in H7.
  rewrite Nat.sub_diag, Nat.add_0_r in H16. rewrite H15, H2, H7, H16.
  set (T1 := wrap _). assert (nth (16 + n) (schedule M (S n)) 0 = T1) as HT.
  { cbn [Sha2.schedule]. rewrite app_nth2; rewrite length_schedule, HM; [|lia]. rewrite Nat.sub_diag. cbn [nth].
    unfold T1. f_equal. lia. }
  eexists. split; [by rewrite HT|]. split; [by rewrite length_insert|]. intros j Hj. rewrite nth_insert by (rewrite HX; apply Nat.mod_upper_bound; lia).
  destruct (decide (j = 16 + n)%nat) as [->|Hne]; [by rewrite decide_True, HT|].
  rewrite decide_False.
  - rewrite Hring by lia. rewrite <- (Nat.add_1_r n). symmetry. apply nth_schedule. lia.
  - intros E. apply Hne. pose proof (Nat.div_mod_eq j 16). pose proof (Nat.div_mod_eq (16 + n) 16). lia.
Qed.

Lemma sha2_rounds M N n r :
  length M = 16%nat -> (n <= N)%nat -> exists X,
  fold_left (fun s i => let '(r, X) := ROUND_16_63 i s in (next_args r, X)) (seq 16 n) (r, M) =
    (fold_left (fun r t => fips_round (nth t K 0) (nth t (schedule M N) 0) r) (seq 16 n) r, X) /\ ring M n X.
Proof.
  intros HM. induction n as [|n IH]; intros Hn.
  { exists M. split; [done|]. split; [done|]. intros j Hj. by rewrite Nat.mod_small by lia. }
  destruct IH as (X & E & Hring); [lia|]. rewrite seq_S, !fold_left_app, E. cbn [fold_left].
  destruct (ring_step M n (fold_left (fun r t => fips_round (nth t K 0) (nth t (schedule M N) 0) r) (seq 16 n) r) X HM Hring)
    as (X' & -> & Hring').
  exists X'. split; [|done]. rewrite ROUND_fips. do 2 f_equal.
  replace N with (S n + (N - S n))%nat by lia. symmetry. apply nth_schedule. lia.
Qed.

Lemma sha2_block_fips state M :
  length M = 16%nat -> (16 <= rounds)%nat ->
  sha2_block wrap Sigma0 Sigma1 sigma0 sigma1 K rounds state M = fips_block wrap Sigma0 Sigma1 sigma0 sigma1 K rounds state M.
Proof.
  intros HM Hr. unfold sha2_block, fips_block.
  assert (seq 0 rounds = seq 0 16 ++ seq 16 (rounds - 16)) as -> by (rewrite <- seq_app; f_equal; lia).
  rewrite fold_left_app.
  assert (fold_left (fun r i => next_args (ROUND_00_15 i (nth i M 0) r)) (seq 0 16) (load_regs state) =
    fold_left (fun r t => fips_round (nth t K 0) (nth t (schedule M (rounds - 16)) 0) r) (seq 0 16) (load_regs state)) as ->.
  { apply fold_left_ext_in. intros r t Ht. apply elem_of_seq in Ht. rewrite ROUND_fips. f_equal.
    symmetry. apply (nth_schedule M 0). lia. }
  by destruct (sha2_rounds M (rounds - 16) (rounds - 16)
    (fold_left (fun r t => fips_round (nth t K 0) (nth t (schedule M (rounds - 16)) 0) r) (seq 0 16) (load_regs state)) HM ltac:(lia))
    as (X & -> & _).
Qed.

End block.

(** * The constants of FIPS 180-4

    They are the leading bits of the fractional parts of roots of the first prime
    numbers; the source lists them. *)

Definition is_prime (p : Z) : bool := forallb (fun q => negb (p mod q =? 0)) (seqZ 2 (p - 2)).
Definition all_primes : list Z := List.filter is_prime (seqZ 2 408).
Definition primes (n : nat) : list Z := take n all_primes.

(** The greatest number of [b] bits whose [k]-th power is at most [n]. *)
Definition iroot (k : Z) (b : nat) (n : Z) : Z :=
  fold_left (fun r i => if (r + 2 ^ Z.of_nat i) ^ k <=? n then r + 2 ^ Z.of_nat i else r) (rev (seq 0 b)) 0.

(** The first [w] bits of the fractional part of the [k]-th root of [p]. *)
Definition frac_root (k : Z) (w : nat) (p : Z) : Z := iroot k (w + 5) (p * 2 ^ (Z.of_nat w * k)) mod 2 ^ Z.of_nat w.

Definition fips_K256 : list Z := frac_root 3 32 <$> primes 64.
Definition fips_K512 : list Z := frac_root 3 64 <$> primes 80.
Definition fips_H256 : list Z := frac_root 2 32 <$> primes 8.
Definition fips_H512 : list Z := frac_root 2 64 <$> primes 8.
Definition fips_H384 : list Z := frac_root 2 64 <$> drop 8 (primes 16).
(** The second 32 bits of the same roots. *)
Definition fips_H224 : list Z := (fun x => x mod 2 ^ 32) <$> fips_H384.

Lemma iroot_spec k b n r : 1 <= k -> 0 <= r < 2 ^ Z.of_nat b -> r ^ k <= n < (r + 1) ^ k -> iroot k b n = r.
Proof.
  intros Hk Hr Hn. unfold iroot. set (f := fun r0 i => _).
  assert (forall m, (m <= b)%nat -> fold_left f (rev (seq m (b - m))) 0 = r / 2 ^ Z.of_nat m * 2 ^ Z.of_nat m) as Hf.
  2: { rewrite <- (Nat.sub_0_r b), (Hf 0%nat) by lia. change (2 ^ Z.of_nat 0) with 1. by rewrite Z.div_1_r, Z.mul_1_r. }
  intros m Hm. remember (b - m)%nat as j eqn:Ej. revert m Hm Ej. induction j as [|j IH]; intros m Hm Ej.
  { replace m with b by lia. cbn. rewrite Z.div_small by done. done. }
  cbn [seq rev]. rewrite fold_left_app, (IH (S m)) by lia. cbn [fold_left]. subst f. cbv beta.
  rewrite Nat2Z.inj_succ, Z.pow_succ_r by lia. set (q := 2 ^ Z.of_nat m). assert (0 < q) as Hq by (apply Z.pow_pos_nonneg; lia).
  rewrite (Z.mul_comm 2 q), <- Z.div_div by lia. set (t := r / q). assert (q * t <= r < q * t + q) as Ht.
  { unfold t. pose proof (Z.div_mod r q ltac:(lia)). pose proof (Z.mod_pos_bound r q Hq). lia. }
  assert (t = 2 * (t / 2) + t mod 2 /\ 0 <= t mod 2 < 2) as [Et Hb] by (pose proof (Z.div_mod t 2 ltac:(lia)); pose proof (Z.mod_pos_bound t 2 ltac:(lia)); lia).
  assert (0 <= t / 2) as Hu by (apply Z.div_pos; [apply Z.div_pos; lia|lia]).
  set (u := t / 2) in *. set (c := t mod 2) in *. clearbody t u c.
  destruct (Z.leb_spec ((u * (q * 2) + q) ^ k) n) as [Hle|Hgt]; assert (c = 0 \/ c = 1) as [-> | ->] by lia; rewrite Et in *; try lia; exfalso.
  - assert ((r + 1) ^ k <= (u * (q * 2) + q) ^ k); [apply Z.pow_le_mono_l; nia|lia].
  - assert ((u * (q * 2) + q) ^ k <= r ^ k); [apply Z.pow_le_mono_l; nia|lia].
Qed.

(** [x] after the integer part of the root of [p], which has three bits. *)
Definition root_check (k : Z) (w : nat) (p x : Z) : bool :=
  let r := iroot k 3 p * 2 ^ Z.of_nat w + x in
  let n := p * 2 ^ (Z.of_nat w * k) in
  (0 <=? x) && (x <? 2 ^ Z.of_nat w) && (iroot k 3 p <? 8) && (0 <=? iroot k 3 p) && (r ^ k <=? n) && (n <? (r + 1) ^ k).

Lemma frac_root_check k w p x : 1 <= k -> root_check k w p x = true -> frac_root k w p = x.
Proof.
  unfold root_check. cbv zeta. rewrite !andb_true_iff, !Z.leb_le, !Z.ltb_lt.
  intros Hk (((((Hx0 & Hx) & Hc) & Hc0) & Hr) & Hr'). unfold frac_root.
  assert (0 < 2 ^ Z.of_nat w) by (apply Z.pow_pos_nonneg; lia).
  rewrite (iroot_spec k (w + 5) _ (iroot k 3 p * 2 ^ Z.of_nat w + x)); [|done| |done].
  - rewrite Z.add_comm, Z.mod_add, Z.mod_small by lia. done.
  - rewrite Nat2Z.inj_add, Z.pow_add_r by lia. change (2 ^ Z.of_nat 5) with 32. nia.
Qed.

Lemma frac_roots_check k w ps xs :
  1 <= k -> length xs = length ps -> forallb (fun '(p, x) => root_check k w p x) (zip ps xs) = true -> frac_root k w <$> ps = xs.
Proof.
  intros Hk. revert xs. induction ps as [|p ps IH]; intros [|x xs] Hl Hc; try done. cbn [zip zip_with forallb] in Hc.
  apply andb_true_iff in Hc as [Hp Hps]. rewrite fmap_cons, (frac_root_check _ _ _ _ Hk Hp). f_equal. apply IH; [by injection Hl|done].
Qed.

Lemma all_primes_eq : all_primes =
    [2; 3; 5; 7; 11; 13; 17; 19; 23; 29; 31; 37; 41; 43; 47; 53; 59; 61; 67; 71; 73; 79; 83; 89; 97; 101; 103; 107;
     109; 113; 127; 131; 137; 139; 149; 151; 157; 163; 167; 173; 179; 181; 191; 193; 197; 199; 211; 223; 227; 229;
     233; 239; 241; 251; 257; 263; 269; 271; 277; 281; 283; 293; 307; 311; 313; 317; 331; 337; 347; 349; 353; 359;
     367; 373; 379; 383; 389; 397; 401; 409].
Proof. by vm_compute. Qed.

Ltac solve_roots :=
  symmetry; unfold fips_K256, fips_K512, fips_H256, fips_H512, fips_H384, primes; rewrite all_primes_eq;
  apply frac_roots_check; [done|vm_compute; reflexivity..].

Lemma K256_fips : Sha256.K256 = fips_K256.
Proof. solve_roots. Qed.

Lemma K512_fips : Sha512.K512 = fips_K512.
Proof. solve_roots. Qed.

Lemma H256_fips : h (Sha256.ctx Sha256.SHA256_Init) = fips_H256.
Proof. solve_roots. Qed.

Lemma H512_fips p : h (Sha512.ctx (Sha512.SHA512_Init p)) = fips_H512.
Proof. solve_roots. Qed.

Lemma H384_fips p : h (Sha512.ctx (Sha512.SHA384_Init p)) = fips_H384.
Proof. solve_roots. Qed.

Lemma H224_fips : h (Sha256.ctx Sha256.SHA224_Init) = fips_H224.
Proof. unfold fips_H224. rewrite <- (H384_fips []). by vm_compute. Qed.

(** * The hash functions of FIPS 180-4 *)

(** The last chaining value for a message. *)
Definition fips_sha256_hash (h0 : list Z) (m : bytes) : list Z :=
  hash_message 64
    (fun hv l => fips_block u32 Sha256.Sigma0 Sha256.Sigma1 Sha256.sigma0 Sha256.sigma1 fips_K256 64 hv (Sha256.load_words l))
    (be_bytes 8 (8 * Z.of_nat (length m))) h0 m.

Definition fips_sha512_hash (h0 : list Z) (m : bytes) : list Z :=
  hash_message 128
    (fun hv l => fips_block u64 Sha512.Sigma0 Sha512.Sigma1 Sha512.sigma0 Sha512.sigma1 fips_K512 80 hv (Sha512.load_words l))
    (be_bytes 16 (8 * Z.of_nat (length m))) h0 m.

(** SHA-512/t starts from the hash of its own name. *)
Definition fips_H512_256 : list Z :=
  fips_sha512_hash (Z.lxor 0xa5a5a5a5a5a5a5a5 <$> fips_H512) [83; 72; 65; 45; 53; 49; 50; 47; 50; 53; 54].

Lemma H512_256_fips p : h (Sha512.ctx (Sha512.SHA512_256_Init p)) = fips_H512_256.
Proof. unfold fips_H512_256, fips_sha512_hash. rewrite <- K512_fips, <- (H512_fips []). by vm_compute. Qed.

(** The digest is the leftmost [n] words. *)
Definition fips_sha256 (n : nat) (h0 : list Z) (m : bytes) : bytes := mjoin (be_bytes 4 <$> take n (fips_sha256_hash h0 m)).
Definition fips_sha512 (n : nat) (h0 : list Z) (m : bytes) : bytes := mjoin (be_bytes 8 <$> take n (fips_sha512_hash h0 m)).

Lemma sha256_block_take hv l : Sha256.sha256_block hv (take 64 l) = Sha256.sha256_block hv l.
Proof.
  unfold Sha256.sha256_block. f_equal. apply list_fmap_ext. intros k i [-> Hi]%lookup_seq.
  unfold CRYPTO_load_u32_be. by rewrite take_drop_take by lia.
Qed.

Lemma sha512_block_take hv l : Sha512.sha512_block hv (take 128 l) = Sha512.sha512_block hv l.
Proof.
  unfold Sha512.sha512_block. f_equal. apply list_fmap_ext. intros k i [-> Hi]%lookup_seq.
  by rewrite take_drop_take by lia.
Qed.

Lemma sha256_block_fips hv l :
  Sha256.sha256_block hv l =
  fips_block u32 Sha256.Sigma0 Sha256.Sigma1 Sha256.sigma0 Sha256.sigma1 fips_K256 64 hv (Sha256.load_words l).
Proof. unfold Sha256.sha256_block. rewrite K256_fips. rewrite sha2_block_fips; [done|by unfold Sha256.load_words; rewrite length_fmap, length_seq|lia]. Qed.

Lemma sha512_block_fips hv l :
  Sha512.sha512_block hv l =
  fips_block u64 Sha512.Sigma0 Sha512.Sigma1 Sha512.sigma0 Sha512.sigma1 fips_K512 80 hv (Sha512.load_words l).
Proof. unfold Sha512.sha512_block. rewrite K512_fips. rewrite sha2_block_fips; [done|by unfold Sha512.load_words; rewrite length_fmap, length_seq|lia]. Qed.

#[local] Opaque Sha256.sha256_block Sha512.sha512_block.

(** A loop that does one block after the other. *)
Lemma BlockFunc_loop block_size (block : list Z -> bytes -> list Z) (f : block_func_t) :
  (forall hv l, block hv (take block_size l) = block hv l) ->
  (forall hv l, f hv l 0%nat = hv) ->
  (forall hv l n, f hv l (S n) = f (block hv l) (drop block_size l) n) -> BlockFunc block_size f.
Proof.
  intros Htake H0 HS. split. intros n. generalize (S n) as k. clear n. intros k.
  induction k as [|k IH]; intros hv l; [apply H0|]. cbn [hash_blocks].
  by rewrite !HS, H0, Htake, IH.
Qed.

#[export] Instance sha256_blocks : BlockFunc 64 Sha256.sha256_block_data_order_nohw.
Proof. by apply (BlockFunc_loop 64 Sha256.sha256_block); [apply sha256_block_take|..]. Qed.

#[export] Instance sha512_blocks : BlockFunc 128 Sha512.sha512_block_data_order_nohw.
Proof. by apply (BlockFunc_loop 128 Sha512.sha512_block); [apply sha512_block_take|..]. Qed.

Lemma sha256_message h0 chunks :
  h (crypto_md32_final Sha256.sha256_block_data_order_nohw 64 true
      (fold_left (fun c d => crypto_md32_update Sha256.sha256_block_data_order_nohw 64 d c) chunks
        (md_start h0 (replicate 64 0)))) = fips_sha256_hash h0 (concat chunks).
Proof.
  rewrite (md32_streaming Sha256.sha256_block_data_order_nohw 64 ltac:(lia) true h0 (replicate 64 0) chunks eq_refl ltac:(lia)).
  unfold fips_sha256_hash. by rewrite (hash_message_ext 64 _ _ _ h0 (concat chunks) sha256_block_fips).
Qed.

Lemma sha512_message h0 p chunks :
  length p = 128%nat ->
  sha512_final_h Sha512.sha512_block_data_order_nohw 128
    (fold_left (fun c d => SHA512_Update Sha512.sha512_block_data_order_nohw 128 d c) chunks (md_start h0 p)) =
  fips_sha512_hash h0 (concat chunks).
Proof.
  intros Hp. rewrite (SHA512_streaming Sha512.sha512_block_data_order_nohw 128 ltac:(lia) h0 p chunks Hp ltac:(lia)).
  unfold fips_sha512_hash. by rewrite (hash_message_ext 128 _ _ _ h0 (concat chunks) sha512_block_fips).
Qed.

Lemma SHA256_Update_fold chunks c n :
  fold_left (fun c d => Sha256.SHA256_Update d c) chunks (Sha256.Sha256State c n) =
  Sha256.Sha256State (fold_left (fun c d => crypto_md32_update Sha256.sha256_block_data_order_nohw 64 d c) chunks c) n.
Proof. revert c. induction chunks as [|d chunks IH]; intros c; [done|]. apply IH. Qed.

Lemma SHA512_Update_fold chunks c n :
  fold_left (fun c d => Sha512.SHA512_Update d c) chunks (Sha512.Sha512State c n) =
  Sha512.Sha512State (fold_left (fun c d => SHA512_Update Sha512.sha512_block_data_order_nohw 128 d c) chunks c) n.
Proof. revert c. induction chunks as [|d chunks IH]; intros c; [done|]. apply IH. Qed.

Lemma SHA256_Final_fold chunks c :
  Sha256.SHA256_Final (fold_left (fun c d => Sha256.SHA256_Update d c) chunks c) =
  Sha256.sha256_final_impl (Sha256.md_len c) (fold_left (fun c d => Sha256.SHA256_Update d c) chunks c).
Proof. destruct c as [c n]. unfold Sha256.SHA256_Final. by rewrite SHA256_Update_fold. Qed.

Lemma SHA512_Final_fold chunks c :
  Sha512.SHA512_Final (fold_left (fun c d => Sha512.SHA512_Update d c) chunks c) =
  Sha512.sha512_final_impl (Sha512.md_len c) (fold_left (fun c d => Sha512.SHA512_Update d c) chunks c).
Proof. destruct c as [c n]. unfold Sha512.SHA512_Final. by rewrite SHA512_Update_fold. Qed.

Lemma sha256_final_message n chunks h0 n' :
  (n <= 32)%nat ->
  fst (Sha256.sha256_final_impl n (fold_left (fun c d => Sha256.SHA256_Update d c) chunks
    (Sha256.Sha256State (md_start h0 (replicate 64 0)) n'))) = Some (fips_sha256 (n / 4) h0 (concat chunks)).
Proof.
  intros Hn. rewrite SHA256_Update_fold. unfold Sha256.sha256_final_impl, Sha256.SHA256_DIGEST_LENGTH, Sha256.SHA256_CBLOCK.
  cbv zeta. destruct (Nat.ltb_spec 32 n); [lia|]. cbn [fst Sha256.ctx]. rewrite sha256_message. done.
Qed.

Lemma sha512_final_message n chunks h0 p n' :
  length p = 128%nat ->
  Sha512.sha512_final_impl n (fold_left (fun c d => Sha512.SHA512_Update d c) chunks (Sha512.Sha512State (md_start h0 p) n')) =
  fips_sha512 (n / 8) h0 (concat chunks).
Proof.
  intros Hp. rewrite SHA512_Update_fold. unfold Sha512.sha512_final_impl, Sha512.SHA512_CBLOCK. cbn [Sha512.ctx].
  by rewrite sha512_message.
Qed.

Lemma sha256_final_one n m h0 n' :
  (n <= 32)%nat ->
  fst (Sha256.sha256_final_impl n (Sha256.SHA256_Update m (Sha256.Sha256State (md_start h0 (replicate 64 0)) n'))) =
  Some (fips_sha256 (n / 4) h0 m).
Proof. intros Hn. rewrite <- (app_nil_r m) at 2. exact (sha256_final_message n [m] h0 n' Hn). Qed.

Lemma sha512_final_one n m h0 p n' :
  length p = 128%nat ->
  Sha512.sha512_final_impl n (Sha512.SHA512_Update m (Sha512.Sha512State (md_start h0 p) n')) = fips_sha512 (n / 8) h0 m.
Proof. intros Hp. rewrite <- (app_nil_r m) at 2. exact (sha512_final_message n [m] h0 p n' Hp). Qed.

(** A digest has its length. *)
Lemma length_hash_message k block_size block lenb h0 m :
  (forall hv l, length (block hv l) = k) -> length h0 = k -> length (hash_message block_size block lenb h0 m) = k.
Proof.
  intros Hb. unfold hash_message. cbv zeta. generalize (m ++ padding block_size lenb (length m)) as p.
  intros p. generalize (length p / block_size)%nat as n. intros n. revert h0 p.
  induction n as [|n IH]; intros h0 p Hh; cbn [hash_blocks]; auto.
Qed.

Lemma length_fips_block wrap S0 S1 s0 s1 K rounds state M : length (fips_block wrap S0 S1 s0 s1 K rounds state M) = 8%nat.
Proof. unfold fips_block, add_regs. by destruct (fold_left _ _ _) as [[[[[[[a b] c] d] e] f] g] hv]. Qed.

Lemma length_fips_sha256 n h0 m : length h0 = 8%nat -> (n <= 8)%nat -> length (fips_sha256 n h0 m) = (4 * n)%nat.
Proof.
  intros Hh Hn. unfold fips_sha256. rewrite (length_mjoin_words _ 4) by apply length_be_bytes.
  rewrite length_take. unfold fips_sha256_hash. rewrite (length_hash_message 8); [lia|intros; apply length_fips_block|done].
Qed.

Lemma length_fips_sha512 n h0 m : length h0 = 8%nat -> (n <= 8)%nat -> length (fips_sha512 n h0 m) = (8 * n)%nat.
Proof.
  intros Hh Hn. unfold fips_sha512. rewrite (length_mjoin_words _ 8) by apply length_be_bytes.
  rewrite length_take. unfold fips_sha512_hash. rewrite (length_hash_message 8); [lia|intros; apply length_fips_block|done].
Qed.

(** * Properties *)

(** C26. SHA-256 and SHA-224 are those of FIPS 180-4: for a message that comes in
    any pieces, the streaming functions return the digest of 32 or 28 bytes that
    the standard defines for the whole (padding, message schedule and
    compression, from constants that are roots of primes), and the one-shot
    functions agree. *)
Theorem SHA256_fips chunks :
  let m := concat chunks in
  let run := fold_left (fun c d => Sha256.SHA256_Update d c) chunks in
  let H256 := fips_H256 in
  let H224 := fips_H224 in
  fst (Sha256.SHA256_Final (run Sha256.SHA256_Init)) = Some (fips_sha256 8 H256 m) /\
  fst (Sha256.SHA224_Final (run Sha256.SHA224_Init)) = Some (fips_sha256 7 H224 m) /\
  Sha256.SHA256 m = Some (fips_sha256 8 H256 m) /\
  Sha256.SHA224 m = Some (fips_sha256 7 H224 m) /\
  length (fips_sha256 8 H256 m) = Sha256.SHA256_DIGEST_LENGTH /\
  length (fips_sha256 7 H224 m) = Sha256.SHA224_DIGEST_LENGTH.
Proof.
  intros m run H256 H224. unfold H256, H224. rewrite <- H256_fips, <- H224_fips.
  split; [|split; [|split; [|split; [|split]]]].
  - unfold run. rewrite SHA256_Final_fold. apply (sha256_final_message 32). lia.
  - apply (sha256_final_message 28). lia.
  - apply (sha256_final_one 32). lia.
  - apply (sha256_final_one 28). lia.
  - apply (length_fips_sha256 8); [done|lia].
  - apply (length_fips_sha256 7); [done|lia].
Qed.

(** C27. SHA-384, SHA-512 and SHA-512/256 likewise, whatever the uncleared block
    of the context holds. *)
Theorem SHA512_fips chunks p :
  length p = Sha512.SHA512_CBLOCK ->
  let m := concat chunks in
  let run := fold_left (fun c d => Sha512.SHA512_Update d c) chunks in
  let H512 := fips_H512 in
  let H384 := fips_H384 in
  let H512_256 := fips_H512_256 in
  Sha512.SHA512_Final (run (Sha512.SHA512_Init p)) = fips_sha512 8 H512 m /\
  Sha512.SHA384_Final (run (Sha512.SHA384_Init p)) = fips_sha512 6 H384 m /\
  Sha512.SHA512_256_Final (run (Sha512.SHA512_256_Init p)) = fips_sha512 4 H512_256 m /\
  Sha512.SHA512 p m = fips_sha512 8 H512 m /\
  Sha512.SHA384 p m = fips_sha512 6 H384 m /\
  Sha512.SHA512_256 p m = fips_sha512 4 H512_256 m /\
  length (fips_sha512 8 H512 m) = Sha512.SHA512_DIGEST_LENGTH /\
  length (fips_sha512 6 H384 m) = Sha512.SHA384_DIGEST_LENGTH /\
  length (fips_sha512 4 H512_256 m) = Sha512.SHA512_256_DIGEST_LENGTH.
Proof.
  intros Hp m run H512 H384 H512_256. unfold H512, H384, H512_256.
  rewrite <- (H512_fips p), <- (H384_fips p), <- (H512_256_fips p).
  split; [|split; [|split; [|split; [|split; [|split; [|split; [|split]]]]]]].
  - unfold run. rewrite SHA512_Final_fold. by apply (sha512_final_message 64).
  - by apply (sha512_final_message 48).
  - by apply (sha512_final_message 32).
  - by apply (sha512_final_one 64).
  - by apply (sha512_final_one 48).
  - by apply (sha512_final_one 32).
  - apply (length_fips_sha512 8); [done|lia].
  - apply (length_fips_sha512 6); [done|lia].
  - apply (length_fips_sha512 4); [done|lia].
Qed.

Lemma SHA512_fips_witness :
  length (replicate 128 0) = Sha512.SHA512_CBLOCK /\
  Sha512.SHA512 (replicate 128 0) [97; 98; 99] =
    fips_sha512 8 fips_H512 [97; 98; 99].
Proof.
  split; [reflexivity|].
  pose proof (SHA512_fips [[97]; [98; 99]] (replicate 128 0) eq_refl) as Hf. cbv zeta in Hf.
  destruct Hf as (_ & _ & _ & Hf & _). exact Hf.
Defined.

(** The roots are not to be taken when two constants are compared. *)
#[global] Opaque fips_K256 fips_K512 fips_H256 fips_H224 fips_H512 fips_H384 fips_H512_256.
