(* ===== verification/Sha1.v ===== *)
(** SHA-1 ([crypto/fipsmodule/sha/sha1.c]): the block function, the functions
    over the shared collector, the generator of FIPS 186-2, and SHA-1 as
    FIPS 180-4 states it.  The variants in assembler are not modelled. *)
From S2P Require Import Prelude Digest Sha2 Sha2Spec.

(** * The block function *)

Definition K_00_19 : Z := 0x5a827999.
Definition K_20_39 : Z := 0x6ed9eba1.
Definition K_40_59 : Z := 0x8f1bbcdc.
Definition K_60_79 : Z := 0xca62c1d6.

Definition F_00_19 (b c d : Z) : Z := Z.lxor (Z.land (Z.lxor c d) b) d.
Definition F_20_39 (b c d : Z) : Z := Z.lxor (Z.lxor b c) d.
Definition F_40_59 (b c d : Z) : Z := Z.lor (Z.land b c) (Z.land (Z.lor b c) d).
Definition F_60_79 (b c d : Z) : Z := F_20_39 b c d.

(** The six variables in the order of the arguments of a round; the next round
    gets them rotated by one place. *)
Definition regs6 : Type := Z * Z * Z * Z * Z * Z.

Definition next_args6 (r : regs6) : regs6 := let '(a, b, c, d, e, f) := r in (f, a, b, c, d, e).

(** What the [BODY] macros do with the word of the round. *)
Definition BODY (F : Z -> Z -> Z -> Z) (K xi : Z) (r : regs6) : regs6 :=
  let '(a, b, c, d, e, f) := r in
  (a, CRYPTO_rotl_u32 b 30, c, d, e, u32 (xi + e + K + CRYPTO_rotl_u32 a 5 + F b c d)).

(** The sixteen variables [XX0], ..., [XX15] as a list. *)
Definition Xupdate (i : nat) (X : list Z) : Z :=
  CRYPTO_rotl_u32
    (Z.lxor (Z.lxor (Z.lxor (nth (i mod 16) X 0) (nth ((i + 2) mod 16) X 0)) (nth ((i + 8) mod 16) X 0))
      (nth ((i + 13) mod 16) X 0)) 1.

(** The function and the constant of round [i]. *)
Definition round_F (i : nat) : Z -> Z -> Z -> Z :=
  if (i <? 20)%nat then F_00_19 else if (i <? 40)%nat then F_20_39 else if (i <? 60)%nat then F_40_59 else F_60_79.
Definition round_K (i : nat) : Z :=
  if (i <? 20)%nat then K_00_19 else if (i <? 40)%nat then K_20_39 else if (i <? 60)%nat then K_40_59 else K_60_79.

Definition BODY_00_15 (i : nat) (X : list Z) (r : regs6) : regs6 := BODY F_00_19 K_00_19 (nth i X 0) r.

(** [BODY_16_19] to [BODY_60_79]: the word is computed and stored first. *)
Definition BODY_16_79 (i : nat) (s : regs6 * list Z) : regs6 * list Z :=
  let '(r, X) := s in
  let xi := Xupdate i X in
  (BODY (round_F i) (round_K i) xi r, <[(i mod 16)%nat := xi]> X).

Definition load_regs6 (state : list Z) : regs6 :=
  let w i := nth i state 0 in (w 0%nat, w 1%nat, w 2%nat, w 3%nat, w 4%nat, 0).

(** [state[0] += E], [state[1] += T], [state[2] += A], ...: after 80 rounds the
    arguments of the next one would be [E, T, A, B, C, D]. *)
Definition add_regs6 (state : list Z) (r : regs6) : list Z :=
  let w i := nth i state 0 in
  let '(a, b, c, d, e, _) := r in
  [u32 (w 0%nat + a); u32 (w 1%nat + b); u32 (w 2%nat + c); u32 (w 3%nat + d); u32 (w 4%nat + e)].

Definition sha1_block_words (state X : list Z) : list Z :=
  let r := fold_left (fun r i => next_args6 (BODY_00_15 i X r)) (seq 0 16) (load_regs6 state) in
  let '(r, _) := fold_left (fun s i => let '(r, X) := BODY_16_79 i s in (next_args6 r, X)) (seq 16 64) (r, X) in
  add_regs6 state r.

Definition sha1_block (state : list Z) (data : bytes) : list Z := sha1_block_words state (Sha256.load_words data).

(** [num] is not 0: the C loop tests it after a block. *)
Fixpoint sha1_block_data_order_nohw (state : list Z) (data : bytes) (num : nat) {struct num} : list Z :=
  match num with
  | O => state
  | S num => sha1_block_data_order_nohw (sha1_block state data) (drop 64 data) num
  end.

(** * Contexts *)

Definition SHA_CBLOCK : nat := 64.
Definition SHA_DIGEST_LENGTH : nat := 20.

Definition SHA1_Init : md_state := md_start (words 5 32 0x67452301efcdab8998badcfe10325476c3d2e1f0) (replicate 64 0).

Definition SHA1_Transform (data : bytes) (c : md_state) : list Z := sha1_block_data_order_nohw (h c) data 1.

Definition SHA1_Update (data : bytes) (c : md_state) : md_state :=
  crypto_md32_update sha1_block_data_order_nohw SHA_CBLOCK data c.

Definition sha1_output_state (hv : list Z) : bytes := mjoin (CRYPTO_store_u32_be <$> take 5 hv).

Definition SHA1_Final (c : md_state) : bytes * md_state :=
  let c := crypto_md32_final sha1_block_data_order_nohw SHA_CBLOCK true c in (sha1_output_state (h c), c).

Definition SHA1 (data : bytes) : bytes := fst (SHA1_Final (SHA1_Update data SHA1_Init)).

(** * The pseudorandom function of FIPS 186-2 *)

(** The sum and the carry. *)
Definition CRYPTO_addc_u32 (x y carry : Z) : Z * Z := (u32 (x + y + carry), Z.shiftr (x + y + carry) 32).

(** The loop over the words of XKEY from the last; [n] words are left. *)
Fixpoint add_words (n : nat) (block : bytes) (hv : list Z) (carry : Z) : bytes :=
  match n with
  | O => block
  | S i =>
      let '(tmp, carry) := CRYPTO_addc_u32 (CRYPTO_load_u32_be (drop (i * 4) block)) (nth i hv 0) carry in
      add_words i (OPENSSL_memcpy (i * 4) (CRYPTO_store_u32_be tmp) block) hv carry
  end.

(** Each pass writes up to 20 bytes of [out_len]. *)
Fixpoint prf_loop (fuel : nat) (out_len : nat) (block : bytes) : bytes :=
  match fuel with
  | O => []
  | S fuel =>
      if (out_len =? 0)%nat then []
      else
        let hv := SHA1_Transform block SHA1_Init in
        let block := add_words 5 block hv 1 in
        if (out_len <? SHA_DIGEST_LENGTH)%nat then take out_len (sha1_output_state hv)
        else sha1_output_state hv ++ prf_loop fuel (out_len - SHA_DIGEST_LENGTH) block
  end.

Definition CRYPTO_fips_186_2_prf (out_len : nat) (xkey : bytes) : bytes :=
  prf_loop (S out_len) out_len (OPENSSL_memcpy 0 (take SHA_DIGEST_LENGTH xkey) (replicate SHA_CBLOCK 0)).

(** * SHA-1 in FIPS 180-4 *)

(** The schedule, the words [M] and [n] more. *)
Fixpoint schedule1 (M : list Z) (n : nat) : list Z :=
  match n with
  | O => M
  | S n =>
      let W := schedule1 M n in
      let t := length W in
      W ++ [CRYPTO_rotl_u32 (Z.lxor (Z.lxor (Z.lxor (nth (t - 3) W 0) (nth (t - 8) W 0)) (nth (t - 14) W 0)) (nth (t - 16) W 0)) 1]
  end.

Definition Parity (x y z : Z) : Z := Z.lxor (Z.lxor x y) z.

Definition fips_f (t : nat) : Z -> Z -> Z -> Z :=
  if (t <? 20)%nat then Ch else if (t <? 40)%nat then Parity else if (t <? 60)%nat then Maj else Parity.

(** The constant of the rounds: 30 bits of the square roots of 2, 3, 5 and 10. *)
Definition fips_K1 (t : nat) : Z :=
  Z.sqrt ((if (t <? 20)%nat then 2 else if (t <? 40)%nat then 3 else if (t <? 60)%nat then 5 else 10) * 2 ^ 60).

Definition fips_H1 : list Z := [0x67452301; 0xefcdab89; 0x98badcfe; 0x10325476; 0xc3d2e1f0].

Definition regs5 : Type := Z * Z * Z * Z * Z.

Definition fips_round1 (t : nat) (Wt : Z) (r : regs5) : regs5 :=
  let '(a, b, c, d, e) := r in
  (u32 (CRYPTO_rotl_u32 a 5 + fips_f t b c d + e + fips_K1 t + Wt), a, CRYPTO_rotl_u32 b 30, c, d).

Definition fips_block1 (state M : list Z) : list Z :=
  let W := schedule1 M 64 in
  let w i := nth i state 0 in
  let '(a, b, c, d, e) :=
    fold_left (fun r t => fips_round1 t (nth t W 0) r) (seq 0 80) (w 0%nat, w 1%nat, w 2%nat, w 3%nat, w 4%nat) in
  [u32 (w 0%nat + a); u32 (w 1%nat + b); u32 (w 2%nat + c); u32 (w 3%nat + d); u32 (w 4%nat + e)].

Definition fips_sha1 (m : bytes) : bytes :=
  mjoin (be_bytes 4 <$>
    take 5 (hash_message 64 (fun hv l => fips_block1 hv (Sha256.load_words l)) (be_bytes 8 (8 * Z.of_nat (length m))) fips_H1 m)).
