(* ===== verification/Sha1Spec.v ===== *)
(** SHA-1 is the function of FIPS 180-4, over any pieces of the message. *)
From S2P Require Import Prelude Digest Sha2 Sha2Spec Sha1.

(** * The round functions *)

(** Equality of bitwise expressions, by truth tables. *)
Ltac solve_bitwise :=
  apply Z.bits_inj'; intros ??;
  repeat (rewrite Z.lxor_spec || rewrite Z.land_spec || rewrite Z.lor_spec || rewrite Z.lnot_spec by lia);
  repeat match goal with |- context [Z.testbit ?x ?n] => destruct (Z.testbit x n) end; reflexivity.

Lemma F_00_19_Ch b c d : F_00_19 b c d = Ch b c d.
Proof. unfold F_00_19, Ch. solve_bitwise. Qed.

Lemma F_40_59_Maj b c d : F_40_59 b c d = Maj b c d.
Proof. unfold F_40_59, Maj. solve_bitwise. Qed.

Lemma round_F_fips i b c d : round_F i b c d = fips_f i b c d.
Proof.
  unfold round_F, fips_f. destruct (i <? 20)%nat; [apply F_00_19_Ch|]. destruct (i <? 40)%nat; [done|].
  destruct (i <? 60)%nat; [apply F_40_59_Maj|done].
Qed.

Lemma round_K_fips i : round_K i = fips_K1 i.
Proof. unfold round_K, fips_K1. by destruct (i <? 20)%nat, (i <? 40)%nat, (i <? 60)%nat. Qed.

(** The five variables of the standard. *)
Definition five (r : regs6) : regs5 := let '(a, b, c, d, e, _) := r in (a, b, c, d, e).

Lemma BODY_fips i xi r : five (next_args6 (BODY (round_F i) (round_K i) xi r)) = fips_round1 i xi (five r).
Proof.
  destruct r as [[[[[a b] c] d] e] f]. cbn [BODY next_args6 five fips_round1]. rewrite round_F_fips, round_K_fips. do 5 f_equal. lia.
Qed.

(** * The schedule *)

Lemma length_schedule1 M n : length (schedule1 M n) = (length M + n)%nat.
Proof. induction n as [|n IH]; cbn [schedule1]; [lia|]. rewrite length_app, IH. cbn. lia. Qed.

Lemma nth_schedule1 M n k t : (t < length M + n)%nat -> nth t (schedule1 M (n + k)) 0 = nth t (schedule1 M n) 0.
Proof.
  intros Ht. induction k as [|k IH]; [by rewrite Nat.add_0_r|]. rewrite Nat.add_succ_r. cbn [schedule1].
  rewrite app_nth1, IH; [done|]. rewrite length_schedule1. lia.
Qed.

(** The sixteen variables after [n] rounds. *)
Definition ring1 (M : list Z) (n : nat) (X : list Z) : Prop :=
  length X = 16%nat /\ forall j, (n <= j < n + 16)%nat -> nth (j mod 16) X 0 = nth j (schedule1 M n) 0.

Lemma ring1_step M n X :
  length M = 16%nat -> ring1 M n X ->
  Xupdate (16 + n) X = nth (16 + n) (schedule1 M (S n)) 0 /\
  ring1 M (S n) (<[((16 + n) mod 16)%nat := Xupdate (16 + n) X]> X).
Proof.
  intros HM [HX Hring].
  assert (forall k, (1 <= k <= 16)%nat -> nth ((16 + n + (16 - k)) mod 16) X 0 = nth (16 + n - k) (schedule1 M n) 0) as Hback.
  { intros k Hk. rewrite <- Hring by lia. f_equal.
    replace (16 + n + (16 - k))%nat with (16 + n - k + 1 * 16)%nat by lia. by rewrite Nat.Div0.mod_add. }
  pose proof (Hback 16%nat ltac:(lia)) as H16. pose proof (Hback 14%nat ltac:(lia)) as H14.
  pose proof (Hback 8%nat ltac:(lia)) as H8. pose proof (Hback 3%nat ltac:(lia)) as H3.
  change (16 - 14)%nat with 2%nat in H14. change (16 - 8)%nat with 8%nat in H8. change (16 - 3)%nat with 13%nat in H3.
  rewrite Nat.sub_diag, Nat.add_0_r in H16.
  assert (Xupdate (16 + n) X = nth (16 + n) (schedule1 M (S n)) 0) as HT.
  { unfold Xupdate. rewrite H16, H14, H8, H3. cbn [schedule1]. rewrite app_nth2; rewrite length_schedule1, HM; [|lia].
    rewrite Nat.sub_diag. cbn [nth]. f_equal. solve_bitwise. }
  split; [done|]. split; [by rewrite length_insert|]. intros j Hj.
  rewrite nth_insert by (rewrite HX; apply Nat.mod_upper_bound; lia).
  destruct (decide (j = 16 + n)%nat) as [->|Hne]; [by rewrite decide_True|]. rewrite decide_False.
  - rewrite Hring by lia. rewrite <- (Nat.add_1_r n). symmetry. apply nth_schedule1. lia.
  - intros E. apply Hne. pose proof (Nat.div_mod_eq j 16). pose proof (Nat.div_mod_eq (16 + n) 16). lia.
Qed.

Lemma sha1_rounds M N n r :
  length M = 16%nat -> (n <= N)%nat -> exists r' X,
  fold_left (fun s i => let '(r, X) := BODY_16_79 i s in (next_args6 r, X)) (seq 16 n) (r, M) = (r', X) /\
  five r' = fold_left (fun r t => fips_round1 t (nth t (schedule1 M N) 0) r) (seq 16 n) (five r) /\ ring1 M n X.
Proof.
  intros HM. induction n as [|n IH]; intros Hn.
  { exists r, M. split; [done|]. split; [done|]. split; [done|]. intros j Hj. by rewrite Nat.mod_small by lia. }
  destruct IH as (r' & X & E & Er & Hring); [lia|]. destruct (ring1_step M n X HM Hring) as [HT Hring'].
  rewrite seq_S, !fold_left_app, E. cbn [fold_left BODY_16_79]. eexists _, _. split; [done|]. split; [|done].
  rewrite BODY_fips, Er, HT. f_equal. replace N with (S n + (N - S n))%nat by lia. symmetry. apply nth_schedule1. lia.
Qed.

Lemma sha1_first_rounds M N n r :
  (n <= 16)%nat -> length M = 16%nat ->
  five (fold_left (fun r i => next_args6 (BODY_00_15 i M r)) (seq 0 n) r) =
  fold_left (fun r t => fips_round1 t (nth t (schedule1 M N) 0) r) (seq 0 n) (five r).
Proof.
  intros Hn HM. induction n as [|n IH]; [done|]. rewrite seq_S, !fold_left_app. cbn [fold_left plus].
  rewrite <- IH by lia. unfold BODY_00_15.
  assert (nth n (schedule1 M N) 0 = nth n M 0) as -> by (apply (nth_schedule1 M 0 N n); lia). rewrite <- BODY_fips.
  unfold round_F, round_K. by destruct (Nat.ltb_spec n 20); [|lia].
Qed.

Lemma sha1_block_fips state data : sha1_block state data = fips_block1 state (Sha256.load_words data).
Proof.
  unfold sha1_block, sha1_block_words, fips_block1. set (M := Sha256.load_words data).
  assert (length M = 16%nat) as HM by (unfold M, Sha256.load_words; by rewrite length_fmap, length_seq).
  clearbody M. change (seq 0 80) with (seq 0 16 ++ seq 16 64). rewrite fold_left_app.
  pose proof (sha1_first_rounds M 64 16 (load_regs6 state) ltac:(lia) HM) as H1.
  destruct (sha1_rounds M 64 64 (fold_left (fun r i => next_args6 (BODY_00_15 i M r)) (seq 0 16) (load_regs6 state)) HM ltac:(lia))
    as (r' & X & -> & H2 & _).
  rewrite H1 in H2. change (five (load_regs6 state)) with (nth 0 state 0, nth 1 state 0, nth 2 state 0, nth 3 state 0, nth 4 state 0) in H2.
  rewrite <- H2. by destruct r' as [[[[[a b] c] d] e] f].
Qed.

#[local] Opaque sha1_block.

(** * Streaming *)

Lemma sha1_block_take hv l : sha1_block hv (take 64 l) = sha1_block hv l.
Proof.
  rewrite !sha1_block_fips. f_equal. apply list_fmap_ext. intros k i [-> Hi]%lookup_seq.
  unfold CRYPTO_load_u32_be. by rewrite take_drop_take by lia.
Qed.

#[export] Instance sha1_blocks : BlockFunc 64 sha1_block_data_order_nohw.
Proof. by apply (BlockFunc_loop 64 sha1_block); [apply sha1_block_take|..]. Qed.

Lemma SHA1_message chunks :
  fst (SHA1_Final (fold_left (fun c d => SHA1_Update d c) chunks SHA1_Init)) = fips_sha1 (concat chunks).
Proof.
  unfold SHA1_Final, sha1_output_state. cbn [fst].
  pose proof (md32_streaming sha1_block_data_order_nohw 64 ltac:(lia) true (h SHA1_Init) (replicate 64 0) chunks eq_refl ltac:(lia)) as Hm.
  cbv zeta in Hm. rewrite (hash_message_ext 64 _ _ _ (h SHA1_Init) (concat chunks) sha1_block_fips) in Hm.
  unfold fips_sha1. change fips_H1 with (h SHA1_Init). by rewrite <- Hm.
Qed.

Lemma length_fips_sha1 m : length (fips_sha1 m) = SHA_DIGEST_LENGTH.
Proof.
  unfold fips_sha1. rewrite (length_mjoin_words _ 4) by apply length_be_bytes. rewrite length_take.
  rewrite (length_hash_message 5); [done| |done]. intros hv l. unfold fips_block1.
  by destruct (fold_left _ _ _) as [[[[a b] c] d] e].
Qed.

(** * Properties *)

(** C28. SHA-1 is that of FIPS 180-4: the unrolled rounds over sixteen variables,
    with their simplified Boolean functions, are the standard's compression
    function, and a message hashes to the standard's digest of 20 bytes whether
    it comes whole or in pieces. *)
Theorem SHA1_fips chunks :
  let m := concat chunks in
  fst (SHA1_Final (fold_left (fun c d => SHA1_Update d c) chunks SHA1_Init)) = fips_sha1 m /\
  SHA1 m = fips_sha1 m /\ length (fips_sha1 m) = SHA_DIGEST_LENGTH.
Proof.
  intros m. split; [apply SHA1_message|]. split.
  - rewrite <- (app_nil_r m) at 2. exact (SHA1_message [m]).
  - apply length_fips_sha1.
Qed.

Example SHA1_abc : SHA1 [97; 98; 99] = be_bytes 20 0xa9993e364706816aba3e25717850c26c9cd0d89d.
Proof. by vm_compute. Qed.

(** * The generator of FIPS 186-2 *)

Definition word_bytes (hv : list Z) : bytes := mjoin (CRYPTO_store_u32_be <$> hv).

Lemma word_bytes_snoc hv x : word_bytes (hv ++ [x]) = word_bytes hv ++ be_bytes 4 x.
Proof.
  unfold word_bytes. induction hv as [|y hv IH]; [apply app_nil_r|].
  change (be_bytes 4 y ++ mjoin (CRYPTO_store_u32_be <$> hv ++ [x]) = (be_bytes 4 y ++ mjoin (CRYPTO_store_u32_be <$> hv)) ++ be_bytes 4 x).
  by rewrite IH, app_assoc.
Qed.

(** The loop with the carry adds the words as one number. *)
Lemma add_words_eq n block hv carry :
  (4 * n <= length block)%nat -> (n <= length hv)%nat -> Forall (fun x => 0 <= x < 2 ^ 32) hv -> bytes_ok block ->
  add_words n block hv carry =
  be_bytes (4 * n) (be_val (take (4 * n) block) + be_val (word_bytes (take n hv)) + carry) ++ drop (4 * n) block.
Proof.
  revert block carry. induction n as [|n IH]; intros block carry Hb Hn Hhv Hok; [by rewrite drop_0|].
  cbn [add_words]. unfold CRYPTO_addc_u32, CRYPTO_load_u32_be. rewrite (Nat.mul_comm n 4).
  destruct (lookup_lt_is_Some_2 hv n ltac:(lia)) as [x Hx].
  rewrite (nth_lookup_Some _ _ 0 _ Hx). pose proof (Forall_lookup_1 _ _ _ _ Hhv Hx) as Hrange. cbv beta in Hrange.
  assert (take (S n) hv = take n hv ++ [x]) as -> by (by apply take_S_r).
  set (v := be_val (take 4 (drop (4 * n) block))).
  assert (take (4 * S n) block = take (4 * n) block ++ take 4 (drop (4 * n) block)) as ->.
  { replace (4 * S n)%nat with (4 * n + 4)%nat by lia. symmetry. apply take_take_drop. }
  assert (Zlen (take 4 (drop (4 * n) block)) = 4) as H4 by (unfold Zlen; rewrite length_take, length_drop; lia).
  assert (0 <= v < 2 ^ 32) as Hv.
  { pose proof (be_val_bound (take 4 (drop (4 * n) block)) ltac:(auto with bytes)) as Hbound. rewrite H4 in Hbound. exact Hbound. }
  set (sum := v + x + carry). set (M := OPENSSL_memcpy _ _ _).
  assert (M = take (4 * n) block ++ be_bytes 4 (u32 sum) ++ drop (4 * n + 4) block) as HM by done.
  assert (length (take (4 * n) block) = 4 * n)%nat as Htake by (rewrite length_take; lia).
  assert (bytes_ok M) as HMok by (rewrite HM; solve_bytes).
  assert (length M = length block) as HMlen by (rewrite HM, !length_app, length_be_bytes, length_drop; lia). clearbody M.
  rewrite IH by (done || lia). rewrite HM, take_app_length', drop_app_length', app_assoc by done.
  replace (4 * S n)%nat with (4 * n + 4)%nat by lia. f_equal.
  rewrite word_bytes_snoc, !be_val_app, H4. unfold Zlen. rewrite length_be_bytes.
  rewrite be_bytes_app by (unfold u32; change (256 ^ Z.of_nat 4) with (2 ^ 32); apply Z.mod_pos_bound; lia).
  f_equal. change (256 ^ Z.of_nat 4) with (2 ^ 32). change (256 ^ 4) with (2 ^ 32). fold v.
  rewrite be_val_be_bytes. change (256 ^ Z.of_nat 4) with (2 ^ 32). rewrite (Z.mod_small x (2 ^ 32)) by lia.
  rewrite Z.shiftr_div_pow2 by lia. unfold u32. pose proof (Z.div_mod sum (2 ^ 32) ltac:(lia)). unfold sum in *. lia.
Qed.

(** FIPS 186-2, appendix 3.1 with XSEED = 0: [w = G(t, XKEY)] and
    [XKEY = (1 + XKEY + w) mod 2^160], [n] times. *)
Fixpoint prf_blocks (n : nat) (xkey : Z) : bytes :=
  match n with
  | O => []
  | S n =>
      let hv := fips_block1 (h SHA1_Init) (Sha256.load_words (be_bytes 20 xkey ++ replicate 44 0)) in
      word_bytes hv ++ prf_blocks n ((1 + xkey + be_val (word_bytes hv)) mod 2 ^ 160)
  end.

Lemma fips_block1_words state M :
  length (fips_block1 state M) = 5%nat /\ Forall (fun x => 0 <= x < 2 ^ 32) (fips_block1 state M).
Proof.
  unfold fips_block1. destruct (fold_left _ _ _) as [[[[a b] c] d] e]. split; [done|].
  repeat constructor; unfold u32; apply Z.mod_pos_bound; lia.
Qed.

Lemma length_word_bytes hv : length (word_bytes hv) = (length hv * 4)%nat.
Proof. apply (length_mjoin_words CRYPTO_store_u32_be 4). intros x. apply length_be_bytes. Qed.

Lemma length_prf_blocks n xkey : length (prf_blocks n xkey) = (20 * n)%nat.
Proof.
  revert xkey. induction n as [|n IH]; intros xkey; [done|]. cbn [prf_blocks]. cbv zeta.
  rewrite length_app, length_word_bytes, IH, (proj1 (fips_block1_words _ _)). lia.
Qed.

Lemma SHA1_Transform_fips block : SHA1_Transform block SHA1_Init = fips_block1 (h SHA1_Init) (Sha256.load_words block).
Proof. unfold SHA1_Transform. cbn [sha1_block_data_order_nohw]. apply sha1_block_fips. Qed.

(** One pass. *)
Lemma prf_loop_step fuel out_len block :
  prf_loop (S fuel) out_len block =
  if (out_len =? 0)%nat then []
  else
    let hv := fips_block1 (h SHA1_Init) (Sha256.load_words block) in
    if (out_len <? 20)%nat then take out_len (word_bytes hv) else word_bytes hv ++ prf_loop fuel (out_len - 20) (add_words 5 block hv 1).
Proof.
  cbn [prf_loop]. rewrite SHA1_Transform_fips. pose proof (proj1 (fips_block1_words (h SHA1_Init) (Sha256.load_words block))) as Hlen.
  generalize dependent (fips_block1 (h SHA1_Init) (Sha256.load_words block)). intros hv Hlen.
  unfold sha1_output_state, word_bytes. by rewrite (take_ge hv) by lia.
Qed.

Lemma pow_160 : 256 ^ Z.of_nat 20 = 2 ^ 160.
Proof. by vm_compute. Qed.

(** The next XKEY. *)
Lemma add_words_xkey xkey hv :
  0 <= xkey < 2 ^ 160 -> length hv = 5%nat -> Forall (fun x => 0 <= x < 2 ^ 32) hv ->
  add_words 5 (be_bytes 20 xkey ++ replicate 44 0) hv 1 =
  be_bytes 20 ((1 + xkey + be_val (word_bytes hv)) mod 2 ^ 160) ++ replicate 44 0.
Proof.
  intros Hx Hlen Hwords. assert (bytes_ok (be_bytes 20 xkey ++ replicate 44 0)) as Hok.
  { apply bytes_ok_app. split; [apply be_bytes_ok|]. apply Forall_replicate. unfold is_byte. lia. }
  rewrite add_words_eq; [|rewrite length_app, length_be_bytes, length_replicate; lia|rewrite Hlen; lia|exact Hwords|exact Hok].
  rewrite (take_ge hv) by (rewrite Hlen; lia). replace (4 * 5)%nat with 20%nat by lia.
  rewrite take_app_length', drop_app_length' by (by rewrite length_be_bytes).
  rewrite be_val_be_bytes_small by (by rewrite pow_160). f_equal. rewrite <- pow_160, be_bytes_mod. f_equal. lia.
Qed.

Lemma prf_loop_eq fuel out_len xkey :
  0 <= xkey < 2 ^ 160 -> (out_len < fuel)%nat ->
  prf_loop fuel out_len (be_bytes 20 xkey ++ replicate 44 0) = take out_len (prf_blocks fuel xkey).
Proof.
  revert out_len xkey. induction fuel as [|fuel IH]; intros out_len xkey Hx Hf; [lia|]. rewrite prf_loop_step. cbn [prf_blocks].
  destruct (Nat.eqb_spec out_len 0) as [->|Hne]; [by rewrite take_0|]. cbv zeta.
  destruct (fips_block1_words (h SHA1_Init) (Sha256.load_words (be_bytes 20 xkey ++ replicate 44 0))) as [Hlen Hwords].
  revert Hlen Hwords. generalize (fips_block1 (h SHA1_Init) (Sha256.load_words (be_bytes 20 xkey ++ replicate 44 0))).
  intros hv Hlen Hwords. pose proof (length_word_bytes hv) as HL. rewrite Hlen in HL.
  destruct (Nat.ltb_spec out_len 20); [by rewrite take_app_le by lia|].
  rewrite take_app_ge, HL by lia. f_equal. rewrite add_words_xkey by done. apply IH; [apply Z.mod_pos_bound; lia|lia].
Qed.

(** [CRYPTO_fips_186_2_prf] is the generator of FIPS 186-2 for every output
    length: the blocks of the standard, cut to the length, with the 160-bit
    addition that the code does word by word. *)
Theorem CRYPTO_fips_186_2_prf_spec out_len xkey :
  length xkey = SHA_DIGEST_LENGTH -> bytes_ok xkey ->
  CRYPTO_fips_186_2_prf out_len xkey = take out_len (prf_blocks (S out_len) (be_val xkey)) /\
  length (CRYPTO_fips_186_2_prf out_len xkey) = out_len.
Proof.
  intros Hlen Hok. unfold SHA_DIGEST_LENGTH in Hlen.
  assert (CRYPTO_fips_186_2_prf out_len xkey = take out_len (prf_blocks (S out_len) (be_val xkey))) as E.
  { unfold CRYPTO_fips_186_2_prf. rewrite <- prf_loop_eq; [|pose proof (be_val_bound xkey Hok) as Hb; unfold Zlen in Hb; by rewrite Hlen, pow_160 in Hb|lia].
    f_equal. unfold SHA_DIGEST_LENGTH, SHA_CBLOCK, OPENSSL_memcpy. rewrite (take_ge xkey) by lia. rewrite Hlen.
    rewrite <- (be_bytes_be_val xkey Hok) at 1. by rewrite Hlen. }
  split; [done|]. rewrite E, length_take.
  rewrite length_prf_blocks. lia.
Qed.

Lemma CRYPTO_fips_186_2_prf_spec_witness :
  length (replicate 20 1) = SHA_DIGEST_LENGTH /\ bytes_ok (replicate 20 1) /\
  length (CRYPTO_fips_186_2_prf 25 (replicate 20 1)) = 25%nat.
Proof.
  assert (bytes_ok (replicate 20 1)) as Hok by (apply Forall_replicate; unfold is_byte; lia).
  split; [reflexivity|]. split; [exact Hok|]. exact (proj2 (CRYPTO_fips_186_2_prf_spec 25 (replicate 20 1) eq_refl Hok)).
Defined.
