(* ===== verification/Mdx.v ===== *)
(** MD5 ([crypto/fipsmodule/md5/md5.c]) and MD4 ([crypto/fipsmodule/md4/md4.c]):
    the block functions, the functions over the shared collector, and the
    algorithms as RFC 1321 and RFC 1320 state them. *)
From S2P Require Import Prelude Digest Sha2 Sha2Spec Sha1 Sha1Spec.

(** The four variables in the order of the arguments of a step; the next step
    gets them rotated by one place. *)
Definition regs4 : Type := Z * Z * Z * Z.

Definition next_args4 (r : regs4) : regs4 := let '(a, b, c, d) := r in (d, a, b, c).

Definition load_words_le (data : bytes) : list Z := (fun i => CRYPTO_load_u32_le (drop (4 * i) data)) <$> seq 0 16.

Definition load_regs4 (state : list Z) : regs4 :=
  let w i := nth i state 0 in (w 0%nat, w 1%nat, w 2%nat, w 3%nat).

Definition add_regs4 (state : list Z) (r : regs4) : list Z :=
  let w i := nth i state 0 in
  let '(a, b, c, d) := r in [u32 (w 0%nat + a); u32 (w 1%nat + b); u32 (w 2%nat + c); u32 (w 3%nat + d)].

Definition md_initial : list Z := words 4 32 0x67452301efcdab8998badcfe10325476.

(** A step takes the index of its word, the rotation and the constant. *)
Definition op : Type := nat * Z * Z.

(** * MD5 *)

Module Md5.

Definition F (b c d : Z) : Z := Z.lxor (Z.land (Z.lxor c d) b) d.
Definition G (b c d : Z) : Z := Z.lxor (Z.land (Z.lxor b c) d) c.
Definition H (b c d : Z) : Z := Z.lxor (Z.lxor b c) d.
Definition I (b c d : Z) : Z := Z.lxor (Z.lor (Z.lnot d) b) c.

(** [R0] to [R3]; [~d] is a 32-bit complement, which the sum reduces. *)
Definition R (f : Z -> Z -> Z -> Z) (k s t : Z) (r : regs4) : regs4 :=
  let '(a, b, c, d) := r in
  let a := u32 (a + (k + t + f b c d)) in
  let a := CRYPTO_rotl_u32 a s in
  (u32 (a + b), b, c, d).

Definition round_0 : list op :=
  [(0%nat, 7, 0xd76aa478); (1%nat, 12, 0xe8c7b756); (2%nat, 17, 0x242070db); (3%nat, 22, 0xc1bdceee);
   (4%nat, 7, 0xf57c0faf); (5%nat, 12, 0x4787c62a); (6%nat, 17, 0xa8304613); (7%nat, 22, 0xfd469501);
   (8%nat, 7, 0x698098d8); (9%nat, 12, 0x8b44f7af); (10%nat, 17, 0xffff5bb1); (11%nat, 22, 0x895cd7be);
   (12%nat, 7, 0x6b901122); (13%nat, 12, 0xfd987193); (14%nat, 17, 0xa679438e); (15%nat, 22, 0x49b40821)].
Definition round_1 : list op :=
  [(1%nat, 5, 0xf61e2562); (6%nat, 9, 0xc040b340); (11%nat, 14, 0x265e5a51); (0%nat, 20, 0xe9b6c7aa);
   (5%nat, 5, 0xd62f105d); (10%nat, 9, 0x02441453); (15%nat, 14, 0xd8a1e681); (4%nat, 20, 0xe7d3fbc8);
   (9%nat, 5, 0x21e1cde6); (14%nat, 9, 0xc33707d6); (3%nat, 14, 0xf4d50d87); (8%nat, 20, 0x455a14ed);
   (13%nat, 5, 0xa9e3e905); (2%nat, 9, 0xfcefa3f8); (7%nat, 14, 0x676f02d9); (12%nat, 20, 0x8d2a4c8a)].
Definition round_2 : list op :=
  [(5%nat, 4, 0xfffa3942); (8%nat, 11, 0x8771f681); (11%nat, 16, 0x6d9d6122); (14%nat, 23, 0xfde5380c);
   (1%nat, 4, 0xa4beea44); (4%nat, 11, 0x4bdecfa9); (7%nat, 16, 0xf6bb4b60); (10%nat, 23, 0xbebfbc70);
   (13%nat, 4, 0x289b7ec6); (0%nat, 11, 0xeaa127fa); (3%nat, 16, 0xd4ef3085); (6%nat, 23, 0x04881d05);
   (9%nat, 4, 0xd9d4d039); (12%nat, 11, 0xe6db99e5); (15%nat, 16, 0x1fa27cf8); (2%nat, 23, 0xc4ac5665)].
Definition round_3 : list op :=
  [(0%nat, 6, 0xf4292244); (7%nat, 10, 0x432aff97); (14%nat, 15, 0xab9423a7); (5%nat, 21, 0xfc93a039);
   (12%nat, 6, 0x655b59c3); (3%nat, 10, 0x8f0ccc92); (10%nat, 15, 0xffeff47d); (1%nat, 21, 0x85845dd1);
   (8%nat, 6, 0x6fa87e4f); (15%nat, 10, 0xfe2ce6e0); (6%nat, 15, 0xa3014314); (13%nat, 21, 0x4e0811a1);
   (4%nat, 6, 0xf7537e82); (11%nat, 10, 0xbd3af235); (2%nat, 15, 0x2ad7d2bb); (9%nat, 21, 0xeb86d391)].

Definition steps (f : Z -> Z -> Z -> Z) (ops : list op) (X : list Z) (r : regs4) : regs4 :=
  fold_left (fun r '(k, s, t) => next_args4 (R f (nth k X 0) s t r)) ops r.

Definition md5_block (state : list Z) (data : bytes) : list Z :=
  let X := load_words_le data in
  add_regs4 state (steps I round_3 X (steps H round_2 X (steps G round_1 X (steps F round_0 X (load_regs4 state))))).

Fixpoint md5_block_data_order (state : list Z) (data : bytes) (num : nat) {struct num} : list Z :=
  match num with
  | O => state
  | S num => md5_block_data_order (md5_block state data) (drop 64 data) num
  end.

Definition MD5_CBLOCK : nat := 64.
Definition MD5_DIGEST_LENGTH : nat := 16.

Definition MD5_Init : md_state := md_start md_initial (replicate 64 0).
Definition MD5_Transform (data : bytes) (c : md_state) : list Z := md5_block_data_order (h c) data 1.
Definition MD5_Update (data : bytes) (c : md_state) : md_state := crypto_md32_update md5_block_data_order MD5_CBLOCK data c.
Definition MD5_Final (c : md_state) : bytes * md_state :=
  let c := crypto_md32_final md5_block_data_order MD5_CBLOCK false c in
  (mjoin (CRYPTO_store_u32_le <$> take 4 (h c)), c).
Definition MD5 (data : bytes) : bytes := fst (MD5_Final (MD5_Update data MD5_Init)).

End Md5.

(** * MD4 *)

Module Md4.

Definition F (b c d : Z) : Z := Z.lxor (Z.land (Z.lxor c d) b) d.
Definition G (b c d : Z) : Z := Z.lor (Z.lor (Z.land b c) (Z.land b d)) (Z.land c d).
Definition H (b c d : Z) : Z := Z.lxor (Z.lxor b c) d.

(** [R0] to [R2]. *)
Definition R (f : Z -> Z -> Z -> Z) (k s t : Z) (r : regs4) : regs4 :=
  let '(a, b, c, d) := r in
  let a := u32 (a + (k + t + f b c d)) in
  (CRYPTO_rotl_u32 a s, b, c, d).

Definition round_0 : list op :=
  [(0%nat, 3, 0x00000000); (1%nat, 7, 0x00000000); (2%nat, 11, 0x00000000); (3%nat, 19, 0x00000000);
   (4%nat, 3, 0x00000000); (5%nat, 7, 0x00000000); (6%nat, 11, 0x00000000); (7%nat, 19, 0x00000000);
   (8%nat, 3, 0x00000000); (9%nat, 7, 0x00000000); (10%nat, 11, 0x00000000); (11%nat, 19, 0x00000000);
   (12%nat, 3, 0x00000000); (13%nat, 7, 0x00000000); (14%nat, 11, 0x00000000); (15%nat, 19, 0x00000000)].
Definition round_1 : list op :=
  [(0%nat, 3, 0x5a827999); (4%nat, 5, 0x5a827999); (8%nat, 9, 0x5a827999); (12%nat, 13, 0x5a827999);
   (1%nat, 3, 0x5a827999); (5%nat, 5, 0x5a827999); (9%nat, 9, 0x5a827999); (13%nat, 13, 0x5a827999);
   (2%nat, 3, 0x5a827999); (6%nat, 5, 0x5a827999); (10%nat, 9, 0x5a827999); (14%nat, 13, 0x5a827999);
   (3%nat, 3, 0x5a827999); (7%nat, 5, 0x5a827999); (11%nat, 9, 0x5a827999); (15%nat, 13, 0x5a827999)].
Definition round_2 : list op :=
  [(0%nat, 3, 0x6ed9eba1); (8%nat, 9, 0x6ed9eba1); (4%nat, 11, 0x6ed9eba1); (12%nat, 15, 0x6ed9eba1);
   (2%nat, 3, 0x6ed9eba1); (10%nat, 9, 0x6ed9eba1); (6%nat, 11, 0x6ed9eba1); (14%nat, 15, 0x6ed9eba1);
   (1%nat, 3, 0x6ed9eba1); (9%nat, 9, 0x6ed9eba1); (5%nat, 11, 0x6ed9eba1); (13%nat, 15, 0x6ed9eba1);
   (3%nat, 3, 0x6ed9eba1); (11%nat, 9, 0x6ed9eba1); (7%nat, 11, 0x6ed9eba1); (15%nat, 15, 0x6ed9eba1)].

Definition steps (f : Z -> Z -> Z -> Z) (ops : list op) (X : list Z) (r : regs4) : regs4 :=
  fold_left (fun r '(k, s, t) => next_args4 (R f (nth k X 0) s t r)) ops r.

Definition md4_block (state : list Z) (data : bytes) : list Z :=
  let X := load_words_le data in
  add_regs4 state (steps H round_2 X (steps G round_1 X (steps F round_0 X (load_regs4 state)))).

Fixpoint md4_block_data_order (state : list Z) (data : bytes) (num : nat) {struct num} : list Z :=
  match num with
  | O => state
  | S num => md4_block_data_order (md4_block state data) (drop 64 data) num
  end.

Definition MD4_CBLOCK : nat := 64.
Definition MD4_DIGEST_LENGTH : nat := 16.

Definition MD4_Init : md_state := md_start md_initial (replicate 64 0).
Definition MD4_Transform (data : bytes) (c : md_state) : list Z := md4_block_data_order (h c) data 1.
Definition MD4_Update (data : bytes) (c : md_state) : md_state := crypto_md32_update md4_block_data_order MD4_CBLOCK data c.
Definition MD4_Final (c : md_state) : bytes * md_state :=
  let c := crypto_md32_final md4_block_data_order MD4_CBLOCK false c in
  (mjoin (CRYPTO_store_u32_le <$> take 4 (h c)), c).
Definition MD4 (data : bytes) : bytes := fst (MD4_Final (MD4_Update data MD4_Init)).

End Md4.

(** * The algorithms of the RFCs *)

(** The Boolean functions of RFC 1321, section 3.4, and RFC 1320. *)
Definition rfc_F (x y z : Z) : Z := Z.lor (Z.land x y) (Z.land (Z.lnot x) z).
Definition rfc_G5 (x y z : Z) : Z := Z.lor (Z.land x z) (Z.land y (Z.lnot z)).
Definition rfc_G4 (x y z : Z) : Z := Z.lor (Z.lor (Z.land x y) (Z.land x z)) (Z.land y z).
Definition rfc_H (x y z : Z) : Z := Z.lxor (Z.lxor x y) z.
Definition rfc_I (x y z : Z) : Z := Z.lxor y (Z.lor x (Z.lnot z)).

(** The table of RFC 1321: [4294967296 * abs (sin (i + 1))]. *)
Definition rfc_T : list Z :=
  words 64 32 0xd76aa478e8c7b756242070dbc1bdceeef57c0faf4787c62aa8304613fd469501698098d88b44f7afffff5bb1895cd7be6b901122fd987193a679438e49b40821f61e2562c040b340265e5a51e9b6c7aad62f105d02441453d8a1e681e7d3fbc821e1cde6c33707d6f4d50d87455a14eda9e3e905fcefa3f8676f02d98d2a4c8afffa39428771f6816d9d6122fde5380ca4beea444bdecfa9f6bb4b60bebfbc70289b7ec6eaa127fad4ef308504881d05d9d4d039e6db99e51fa27cf8c4ac5665f4292244432aff97ab9423a7fc93a039655b59c38f0ccc92ffeff47d85845dd16fa87e4ffe2ce6e0a30143144e0811a1f7537e82bd3af2352ad7d2bbeb86d391.

(** The word and the rotation of step [i]. *)
Definition rfc_k5 (i : nat) : nat :=
  match (i / 16)%nat with O => i | 1%nat => (5 * i + 1) mod 16 | 2%nat => (3 * i + 5) mod 16 | _ => (7 * i) mod 16 end.
Definition rfc_s5 (i : nat) : Z :=
  nth (i mod 4) (match (i / 16)%nat with O => [7; 12; 17; 22] | 1%nat => [5; 9; 14; 20] | 2%nat => [4; 11; 16; 23] | _ => [6; 10; 15; 21] end) 0.
Definition rfc_f5 (i : nat) : Z -> Z -> Z -> Z :=
  match (i / 16)%nat with O => rfc_F | 1%nat => rfc_G5 | 2%nat => rfc_H | _ => rfc_I end.

(** [a = b + ((a + f(b, c, d) + X[k] + T[i]) <<< s)], and the roles move on. *)
Definition rfc_step5 (X : list Z) (i : nat) (r : regs4) : regs4 :=
  let '(a, b, c, d) := r in
  (d, u32 (b + CRYPTO_rotl_u32 (u32 (a + rfc_f5 i b c d + nth (rfc_k5 i) X 0 + nth i rfc_T 0)) (rfc_s5 i)), b, c).

Definition rfc_block5 (state X : list Z) : list Z :=
  add_regs4 state (fold_left (fun r i => rfc_step5 X i r) (seq 0 64) (load_regs4 state)).

(** RFC 1320: the words of the second round go by columns, those of the third in
    bit-reversed order. *)
Definition rfc_k4 (i : nat) : nat :=
  match (i / 16)%nat with
  | O => i
  | 1%nat => (4 * (i mod 4) + (i mod 16) / 4)%nat
  | _ => (8 * (i mod 2) + 4 * ((i / 2) mod 2) + 2 * ((i / 4) mod 2) + (i / 8) mod 2)%nat
  end.
Definition rfc_s4 (i : nat) : Z :=
  nth (i mod 4) (match (i / 16)%nat with O => [3; 7; 11; 19] | 1%nat => [3; 5; 9; 13] | _ => [3; 9; 11; 15] end) 0.
Definition rfc_t4 (i : nat) : Z := match (i / 16)%nat with O => 0 | 1%nat => 0x5a827999 | _ => 0x6ed9eba1 end.
Definition rfc_f4 (i : nat) : Z -> Z -> Z -> Z := match (i / 16)%nat with O => rfc_F | 1%nat => rfc_G4 | _ => rfc_H end.

Definition rfc_step4 (X : list Z) (i : nat) (r : regs4) : regs4 :=
  let '(a, b, c, d) := r in
  (d, CRYPTO_rotl_u32 (u32 (a + rfc_f4 i b c d + nth (rfc_k4 i) X 0 + rfc_t4 i)) (rfc_s4 i), b, c).

Definition rfc_block4 (state X : list Z) : list Z :=
  add_regs4 state (fold_left (fun r i => rfc_step4 X i r) (seq 0 48) (load_regs4 state)).

(** The digest: little-endian words, and the length in bits at the end of the
    padding little-endian as well. *)
Definition rfc_md (block : list Z -> list Z -> list Z) (m : bytes) : bytes :=
  mjoin (le_bytes 4 <$>
    take 4 (hash_message 64 (fun hv l => block hv (load_words_le l)) (le_bytes 8 (8 * Z.of_nat (length m))) md_initial m)).

(** * Proofs *)

Lemma F_rfc b c d : Md5.F b c d = rfc_F b c d.
Proof. unfold Md5.F, rfc_F. solve_bitwise. Qed.
Lemma G_rfc5 b c d : Md5.G b c d = rfc_G5 b c d.
Proof. unfold Md5.G, rfc_G5. solve_bitwise. Qed.
Lemma G_rfc4 b c d : Md4.G b c d = rfc_G4 b c d.
Proof. unfold Md4.G, rfc_G4. solve_bitwise. Qed.
Lemma I_rfc b c d : Md5.I b c d = rfc_I b c d.
Proof. unfold Md5.I, rfc_I. solve_bitwise. Qed.


(** Steps from a table are steps by number. *)
Lemma steps_seq (R : Z -> Z -> Z -> regs4 -> regs4) (X : list Z) (step : nat -> regs4 -> regs4) (of_step : nat -> op) ops i r :
  (forall j r, (i <= j < i + length ops)%nat ->
    (let '(k, s, t) := of_step j in next_args4 (R (nth k X 0) s t r)) = step j r) ->
  of_step <$> seq i (length ops) = ops ->
  fold_left (fun r '(k, s, t) => next_args4 (R (nth k X 0) s t r)) ops r =
  fold_left (fun r j => step j r) (seq i (length ops)) r.
Proof.
  revert i r. induction ops as [|o ops IH]; intros i r Hstep Hops; [done|].
  cbn [length seq fmap list_fmap] in Hops. injection Hops as Hi Hops. cbn [fold_left length seq].
  rewrite <- (Hstep i r) by (cbn; lia). rewrite Hi. destruct o as [[k s] t]. apply IH; [|done].
  intros j r' Hj. apply Hstep. cbn. lia.
Qed.

Lemma div_16 j q : (16 * q <= j < 16 * q + 16)%nat -> (j / 16 = q)%nat.
Proof. intros Hj. symmetry. apply (Nat.div_unique _ _ _ (j - 16 * q)); lia. Qed.

Definition op5 (i : nat) : op := (rfc_k5 i, rfc_s5 i, nth i rfc_T 0).
Definition op4 (i : nat) : op := (rfc_k4 i, rfc_s4 i, rfc_t4 i).

Lemma R5_step f X j r :
  (forall b c d, f b c d = rfc_f5 j b c d) ->
  (let '(k, s, t) := op5 j in next_args4 (Md5.R f (nth k X 0) s t r)) = rfc_step5 X j r.
Proof.
  intros Hf. destruct r as [[[a b] c] d]. cbn [op5 Md5.R next_args4 rfc_step5]. rewrite Hf.
  replace (a + (nth (rfc_k5 j) X 0 + nth j rfc_T 0 + rfc_f5 j b c d))
    with (a + rfc_f5 j b c d + nth (rfc_k5 j) X 0 + nth j rfc_T 0) by lia.
  by rewrite (Z.add_comm _ b).
Qed.

Lemma R4_step f X j r :
  (forall b c d, f b c d = rfc_f4 j b c d) ->
  (let '(k, s, t) := op4 j in next_args4 (Md4.R f (nth k X 0) s t r)) = rfc_step4 X j r.
Proof.
  intros Hf. destruct r as [[[a b] c] d]. cbn [op4 Md4.R next_args4 rfc_step4]. rewrite Hf.
  by replace (a + (nth (rfc_k4 j) X 0 + rfc_t4 j + rfc_f4 j b c d))
    with (a + rfc_f4 j b c d + nth (rfc_k4 j) X 0 + rfc_t4 j) by lia.
Qed.

(** One round is sixteen steps. *)
Lemma md5_round q f ops X r :
  op5 <$> seq (16 * q) 16 = ops -> (forall j b c d, (j / 16 = q)%nat -> f b c d = rfc_f5 j b c d) ->
  Md5.steps f ops X r = fold_left (fun r i => rfc_step5 X i r) (seq (16 * q) 16) r.
Proof.
  intros <- Hf. unfold Md5.steps.
  rewrite (steps_seq (Md5.R f) X (rfc_step5 X) op5 _ (16 * q)); rewrite length_fmap, length_seq; [done| |done].
  intros j r' Hj. apply R5_step. intros b c d. apply Hf. by apply div_16.
Qed.

Lemma md4_round q f ops X r :
  op4 <$> seq (16 * q) 16 = ops -> (forall j b c d, (j / 16 = q)%nat -> f b c d = rfc_f4 j b c d) ->
  Md4.steps f ops X r = fold_left (fun r i => rfc_step4 X i r) (seq (16 * q) 16) r.
Proof.
  intros <- Hf. unfold Md4.steps.
  rewrite (steps_seq (Md4.R f) X (rfc_step4 X) op4 _ (16 * q)); rewrite length_fmap, length_seq; [done| |done].
  intros j r' Hj. apply R4_step. intros b c d. apply Hf. by apply div_16.
Qed.

Lemma md5_block_rfc state data : Md5.md5_block state data = rfc_block5 state (load_words_le data).
Proof.
  unfold Md5.md5_block, rfc_block5. generalize (load_words_le data) as X. intros X.
  change (seq 0 64) with (seq (16 * 0) 16 ++ seq (16 * 1) 16 ++ seq (16 * 2) 16 ++ seq (16 * 3) 16).
  rewrite !fold_left_app. f_equal.
  rewrite (md5_round 0 Md5.F Md5.round_0); [|by vm_compute|intros j b c d Hj; unfold rfc_f5; rewrite Hj; apply F_rfc].
  rewrite (md5_round 1 Md5.G Md5.round_1); [|by vm_compute|intros j b c d Hj; unfold rfc_f5; rewrite Hj; apply G_rfc5].
  rewrite (md5_round 2 Md5.H Md5.round_2); [|by vm_compute|intros j b c d Hj; unfold rfc_f5; by rewrite Hj].
  by rewrite (md5_round 3 Md5.I Md5.round_3); [|by vm_compute|intros j b c d Hj; unfold rfc_f5; rewrite Hj; apply I_rfc].
Qed.

Lemma md4_block_rfc state data : Md4.md4_block state data = rfc_block4 state (load_words_le data).
Proof.
  unfold Md4.md4_block, rfc_block4. generalize (load_words_le data) as X. intros X.
  change (seq 0 48) with (seq (16 * 0) 16 ++ seq (16 * 1) 16 ++ seq (16 * 2) 16).
  rewrite !fold_left_app. f_equal.
  rewrite (md4_round 0 Md4.F Md4.round_0); [|by vm_compute|intros j b c d Hj; unfold rfc_f4; rewrite Hj; apply F_rfc].
  rewrite (md4_round 1 Md4.G Md4.round_1); [|by vm_compute|intros j b c d Hj; unfold rfc_f4; rewrite Hj; apply G_rfc4].
  by rewrite (md4_round 2 Md4.H Md4.round_2); [|by vm_compute|intros j b c d Hj; unfold rfc_f4; by rewrite Hj].
Qed.

#[local] Opaque Md5.md5_block Md4.md4_block.

(** * Streaming *)

Lemma load_words_le_take l : load_words_le (take 64 l) = load_words_le l.
Proof.
  apply list_fmap_ext. intros k i [-> Hi]%lookup_seq. unfold CRYPTO_load_u32_le. by rewrite take_drop_take by lia.
Qed.

#[export] Instance md5_blocks : BlockFunc 64 Md5.md5_block_data_order.
Proof. apply (BlockFunc_loop 64 Md5.md5_block); [|done..]. intros hv l. by rewrite !md5_block_rfc, load_words_le_take. Qed.

#[export] Instance md4_blocks : BlockFunc 64 Md4.md4_block_data_order.
Proof. apply (BlockFunc_loop 64 Md4.md4_block); [|done..]. intros hv l. by rewrite !md4_block_rfc, load_words_le_take. Qed.

Lemma md_message (block : list Z -> bytes -> list Z) (f : block_func_t) rfc chunks {Hf : BlockFunc 64 f} :
  (forall hv l, f hv l 1%nat = block hv l) -> (forall hv l, block hv l = rfc hv (load_words_le l)) ->
  mjoin (CRYPTO_store_u32_le <$> take 4 (h (crypto_md32_final f 64 false
    (fold_left (fun c d => crypto_md32_update f 64 d c) chunks (md_start md_initial (replicate 64 0)))))) =
  rfc_md rfc (concat chunks).
Proof.
  intros H1 Hblock.
  pose proof (md32_streaming f 64 ltac:(lia) false md_initial (replicate 64 0) chunks eq_refl ltac:(lia)) as Hm. cbv zeta in Hm.
  rewrite (hash_message_ext 64 _ (fun hv l => rfc hv (load_words_le l)) _ md_initial (concat chunks)) in Hm
    by (intros hv l; by rewrite H1, Hblock).
  unfold rfc_md. by rewrite <- Hm.
Qed.

Lemma length_rfc_md block m : (forall hv X, length (block hv X) = 4%nat) -> length (rfc_md block m) = 16%nat.
Proof.
  intros Hblock. unfold rfc_md. rewrite (length_mjoin_words _ 4) by apply length_le_bytes.
  rewrite length_take, (length_hash_message 4); [done| |done]. intros hv l. apply Hblock.
Qed.

Lemma length_add_regs4 state r : length (add_regs4 state r) = 4%nat.
Proof. by destruct r as [[[a b] c] d]. Qed.

Lemma MD5_message chunks :
  fst (Md5.MD5_Final (fold_left (fun c d => Md5.MD5_Update d c) chunks Md5.MD5_Init)) = rfc_md rfc_block5 (concat chunks).
Proof. exact (md_message Md5.md5_block Md5.md5_block_data_order _ chunks (fun _ _ => eq_refl) md5_block_rfc). Qed.

Lemma MD4_message chunks :
  fst (Md4.MD4_Final (fold_left (fun c d => Md4.MD4_Update d c) chunks Md4.MD4_Init)) = rfc_md rfc_block4 (concat chunks).
Proof. exact (md_message Md4.md4_block Md4.md4_block_data_order _ chunks (fun _ _ => eq_refl) md4_block_rfc). Qed.

(** * Properties *)

(** MD5 is that of RFC 1321 and MD4 that of RFC 1320: the unrolled steps, with
    their tables of words, rotations and constants and their simplified Boolean
    functions, are the steps of the RFCs by number, and a message hashes to the
    RFC's digest of 16 bytes whether it comes whole or in pieces. *)
Theorem MD5_MD4_rfc chunks :
  let m := concat chunks in
  (fst (Md5.MD5_Final (fold_left (fun c d => Md5.MD5_Update d c) chunks Md5.MD5_Init)) = rfc_md rfc_block5 m /\
   Md5.MD5 m = rfc_md rfc_block5 m /\ length (rfc_md rfc_block5 m) = Md5.MD5_DIGEST_LENGTH) /\
  (fst (Md4.MD4_Final (fold_left (fun c d => Md4.MD4_Update d c) chunks Md4.MD4_Init)) = rfc_md rfc_block4 m /\
   Md4.MD4 m = rfc_md rfc_block4 m /\ length (rfc_md rfc_block4 m) = Md4.MD4_DIGEST_LENGTH).
Proof.
  intros m. split; split; [apply MD5_message| |apply MD4_message|]; split;
    try (apply length_rfc_md; intros; apply length_add_regs4);
    rewrite <- (app_nil_r m) at 2; [exact (MD5_message [m])|exact (MD4_message [m])].
Qed.

Example MD5_abc : Md5.MD5 [97; 98; 99] = be_bytes 16 0x900150983cd24fb0d6963f7d28e17f72.
Proof. by vm_compute. Qed.

Example MD4_abc : Md4.MD4 [97; 98; 99] = be_bytes 16 0xa448017aaf21d8525fc10ae87aa6729d.
Proof. by vm_compute. Qed.
