(* ===== verification/Evp.v ===== *)
(** The digests behind one interface: [crypto/fipsmodule/digest/digests.c], which
    wraps each hash function in an [EVP_MD], and [crypto/fipsmodule/digest/digest.c],
    the contexts [EVP_MD_CTX] that own the state of any of them. *)
From S2P Require Import Prelude Mem Digest Sha2 Sha2Spec Sha1 Sha1Spec Mdx.

(** * [digests.c] *)

(** [struct env_md_st].  [init] runs over memory: a context that is used again, or
    a block fresh from the allocator. *)
Record env_md_st := EnvMd {
  md_size : nat;
  block_size : nat;
  ctx_size : Z;                                (** bytes of the context in memory *)
  ctx_t : Type;
  init : ctx_t + bytes -> ctx_t;
  update : bytes -> ctx_t -> ctx_t;
  final : ctx_t -> bytes;
  cleansed : ctx_t;                            (** a context of zero bytes *)
}.

(** A context of [n] words that is all zero. *)
Definition zero_state (n block : nat) : md_state := MdState (replicate n 0) 0 0 (replicate block 0) 0.

Definition md4_method : env_md_st := {|
  md_size := Md4.MD4_DIGEST_LENGTH; block_size := 64; ctx_size := 92; ctx_t := md_state;
  init _ := Md4.MD4_Init; update := Md4.MD4_Update; final c := fst (Md4.MD4_Final c);
  cleansed := zero_state 4 64 |}.

Definition md5_method : env_md_st := {|
  md_size := Md5.MD5_DIGEST_LENGTH; block_size := 64; ctx_size := 92; ctx_t := md_state;
  init _ := Md5.MD5_Init; update := Md5.MD5_Update; final c := fst (Md5.MD5_Final c);
  cleansed := zero_state 4 64 |}.

Definition sha1_method : env_md_st := {|
  md_size := SHA_DIGEST_LENGTH; block_size := 64; ctx_size := 96; ctx_t := md_state;
  init _ := SHA1_Init; update := SHA1_Update; final c := fst (SHA1_Final c);
  cleansed := zero_state 5 64 |}.

(** [SHA256_Final] fails only on a context whose [md_len] was tampered with; it
    then writes nothing. *)
Definition sha256_zero : Sha256.sha256_state_st := Sha256.Sha256State (zero_state 8 64) 0.

Definition sha224_method : env_md_st := {|
  md_size := Sha256.SHA224_DIGEST_LENGTH; block_size := 64; ctx_size := 112; ctx_t := Sha256.sha256_state_st;
  init _ := Sha256.SHA224_Init; update := Sha256.SHA224_Update; final c := default [] (fst (Sha256.SHA224_Final c));
  cleansed := sha256_zero |}.

Definition sha256_method : env_md_st := {|
  md_size := Sha256.SHA256_DIGEST_LENGTH; block_size := 64; ctx_size := 112; ctx_t := Sha256.sha256_state_st;
  init _ := Sha256.SHA256_Init; update := Sha256.SHA256_Update; final c := default [] (fst (Sha256.SHA256_Final c));
  cleansed := sha256_zero |}.

(** The block [p] of a SHA-512 context, which the initialisers leave as it is: in
    memory it is behind eight words of state and two of the counter. *)
Definition sha512_p (mem : Sha512.sha512_state_st + bytes) : bytes :=
  match mem with
  | inl c => data (Sha512.ctx c)
  | inr b => take 128 (drop 80 b)
  end.

Definition sha512_zero : Sha512.sha512_state_st := Sha512.Sha512State (zero_state 8 128) 0.

Definition sha384_method : env_md_st := {|
  md_size := Sha512.SHA384_DIGEST_LENGTH; block_size := 128; ctx_size := 216; ctx_t := Sha512.sha512_state_st;
  init mem := Sha512.SHA384_Init (sha512_p mem); update := Sha512.SHA384_Update; final := Sha512.SHA384_Final;
  cleansed := sha512_zero |}.

Definition sha512_method : env_md_st := {|
  md_size := Sha512.SHA512_DIGEST_LENGTH; block_size := 128; ctx_size := 216; ctx_t := Sha512.sha512_state_st;
  init mem := Sha512.SHA512_Init (sha512_p mem); update := Sha512.SHA512_Update; final := Sha512.SHA512_Final;
  cleansed := sha512_zero |}.

Definition sha512_256_method : env_md_st := {|
  md_size := Sha512.SHA512_256_DIGEST_LENGTH; block_size := 128; ctx_size := 216; ctx_t := Sha512.sha512_state_st;
  init mem := Sha512.SHA512_256_Init (sha512_p mem); update := Sha512.SHA512_256_Update; final := Sha512.SHA512_256_Final;
  cleansed := sha512_zero |}.

(** [MD5_SHA1_CTX]. *)
Definition md5_sha1_method : env_md_st := {|
  md_size := Md5.MD5_DIGEST_LENGTH + SHA_DIGEST_LENGTH; block_size := 64; ctx_size := 188; ctx_t := md_state * md_state;
  init _ := (Md5.MD5_Init, SHA1_Init);
  update d c := (Md5.MD5_Update d c.1, SHA1_Update d c.2);
  final c := fst (Md5.MD5_Final c.1) ++ fst (SHA1_Final c.2);
  cleansed := (zero_state 4 64, zero_state 5 64) |}.

(** The addresses of the methods, which are what the code compares. *)
Inductive EVP_MD :=
  | EVP_md4 | EVP_md5 | EVP_sha1 | EVP_sha224 | EVP_sha256 | EVP_sha384 | EVP_sha512 | EVP_sha512_256 | EVP_md5_sha1.

#[export] Instance EVP_MD_eq_dec : EqDecision EVP_MD.
Proof. solve_decision. Defined.

Definition method (type : EVP_MD) : env_md_st :=
  match type with
  | EVP_md4 => md4_method
  | EVP_md5 => md5_method
  | EVP_sha1 => sha1_method
  | EVP_sha224 => sha224_method
  | EVP_sha256 => sha256_method
  | EVP_sha384 => sha384_method
  | EVP_sha512 => sha512_method
  | EVP_sha512_256 => sha512_256_method
  | EVP_md5_sha1 => md5_sha1_method
  end.

Definition EVP_MD_size (md : EVP_MD) : nat := md_size (method md).
Definition EVP_MD_block_size (md : EVP_MD) : nat := block_size (method md).

(** * [digest.c] *)

(** [digest] and the context that [md_data] points to, or NULL twice.  The
    signing contexts that the EVP_PKEY layer puts into [pctx] are not there. *)
Definition EVP_MD_CTX : Type := option { t : EVP_MD & ctx_t (method t) }.

Definition EVP_MD_CTX_md (ctx : EVP_MD_CTX) : option EVP_MD := projT1 <$> ctx.
Definition EVP_MD_CTX_size (ctx : EVP_MD_CTX) : option nat := EVP_MD_size <$> EVP_MD_CTX_md ctx.
Definition EVP_MD_CTX_block_size (ctx : EVP_MD_CTX) : option nat := EVP_MD_block_size <$> EVP_MD_CTX_md ctx.

Definition EVP_MD_CTX_init : EVP_MD_CTX := None.
Definition EVP_MD_CTX_cleanup (ctx : EVP_MD_CTX) : EVP_MD_CTX := EVP_MD_CTX_init.
Definition EVP_MD_CTX_reset (ctx : EVP_MD_CTX) : EVP_MD_CTX := EVP_MD_CTX_init.

(** The new [out] and [in]. *)
Definition EVP_MD_CTX_move (out in_ : EVP_MD_CTX) : EVP_MD_CTX * EVP_MD_CTX := (in_, EVP_MD_CTX_init).

Definition EVP_DigestUpdate (data : bytes) (ctx : EVP_MD_CTX) : EVP_MD_CTX :=
  match ctx with
  | Some (existT t c) => Some (existT t (update (method t) data c))
  | None => None
  end.

(** The digest, and the context with its state wiped. *)
Definition EVP_DigestFinal_ex (ctx : EVP_MD_CTX) : bytes * EVP_MD_CTX :=
  match ctx with
  | Some (existT t c) => (final (method t) c, Some (existT t (cleansed (method t))))
  | None => ([], None)
  end.

Definition EVP_DigestFinal (ctx : EVP_MD_CTX) : bytes * EVP_MD_CTX :=
  let '(md, ctx) := EVP_DigestFinal_ex ctx in (md, EVP_MD_CTX_cleanup ctx).

Section evp.
Context {H : Type} `{Malloc H}.

(** The functions that allocate return the new [ctx]; when they fail it is as it
    was. *)
Definition EVP_MD_CTX_new : ST H EVP_MD_CTX := _ <-- OPENSSL_malloc 32 ;; st_ret EVP_MD_CTX_init.

Definition EVP_MD_CTX_copy_ex (in_ out : EVP_MD_CTX) : ST H EVP_MD_CTX :=
  match in_ with
  | None => st_fail
  | Some (existT t c) =>
      (if decide (EVP_MD_CTX_md out = Some t) then st_ret tt
       else _ <-- OPENSSL_malloc (ctx_size (method t)) ;; st_ret tt) ;;;
      st_ret in_
  end.

Definition EVP_MD_CTX_copy (in_ : EVP_MD_CTX) : ST H EVP_MD_CTX := EVP_MD_CTX_copy_ex in_ EVP_MD_CTX_init.

Definition EVP_DigestInit_ex (type : EVP_MD) (ctx : EVP_MD_CTX) : ST H EVP_MD_CTX :=
  let fresh :=
    md_data <-- OPENSSL_malloc (ctx_size (method type)) ;;
    st_ret (Some (existT type (init (method type) (inr md_data)))) in
  match ctx with
  | Some (existT t c) =>
      if decide (t = type) then st_ret (Some (existT t (init (method t) (inl c)))) else fresh
  | None => fresh
  end.

Definition EVP_DigestInit (type : EVP_MD) : ST H EVP_MD_CTX := EVP_DigestInit_ex type EVP_MD_CTX_init.

Definition EVP_Digest (data : bytes) (type : EVP_MD) : ST H bytes :=
  ctx <-- EVP_DigestInit_ex type EVP_MD_CTX_init ;;
  st_ret (EVP_DigestFinal_ex (EVP_DigestUpdate data ctx)).1.

End evp.

(** * What a digest promises *)

(** [H] is the hash function that a method computes. *)
Class MethodLaws (M : env_md_st) (H : bytes -> bytes) := {
  usable : ctx_t M + bytes -> Prop;            (** memory that [init] may get *)
  method_message mem chunks :
    usable mem -> final M (fold_left (fun c d => update M d c) chunks (init M mem)) = H (concat chunks);
  usable_fold mem chunks : usable mem -> usable (inl (fold_left (fun c d => update M d c) chunks (init M mem)));
  usable_cleansed : usable (inl (cleansed M));
  usable_fresh b : Zlen b = ctx_size M -> usable (inr b);
  length_digest m : length (H m) = md_size M;
  md_size_block : (0 < md_size M <= block_size M)%nat;
  ctx_size_small : 0 <= ctx_size M <= 2 ^ 62;
}.

Definition md4 (m : bytes) : bytes := rfc_md rfc_block4 m.
Definition md5 (m : bytes) : bytes := rfc_md rfc_block5 m.

(** The hash functions of the standards. *)
Definition digest (type : EVP_MD) (m : bytes) : bytes :=
  match type with
  | EVP_md4 => md4 m
  | EVP_md5 => md5 m
  | EVP_sha1 => fips_sha1 m
  | EVP_sha224 => fips_sha256 7 fips_H224 m
  | EVP_sha256 => fips_sha256 8 fips_H256 m
  | EVP_sha384 => fips_sha512 6 fips_H384 m
  | EVP_sha512 => fips_sha512 8 fips_H512 m
  | EVP_sha512_256 => fips_sha512 4 fips_H512_256 m
  | EVP_md5_sha1 => md5 m ++ fips_sha1 m
  end.

#[local] Opaque rfc_md fips_sha1 fips_sha256 fips_sha512 Md4.md4_block Md5.md5_block sha1_block Sha256.sha256_block Sha512.sha512_block.

(** The methods whose [init] does not read the memory. *)
Ltac solve_method :=
  refine {| usable _ := True |}; try done; try (split; vm_compute; first [lia | discriminate]).

#[export] Instance md4_laws : MethodLaws md4_method md4.
Proof.
  solve_method; [intros mem chunks ?; exact (MD4_message chunks)|].
  intros m. by apply length_rfc_md; intros; apply length_add_regs4.
Qed.

#[export] Instance md5_laws : MethodLaws md5_method md5.
Proof.
  solve_method; [intros mem chunks ?; exact (MD5_message chunks)|].
  intros m. by apply length_rfc_md; intros; apply length_add_regs4.
Qed.

#[export] Instance sha1_laws : MethodLaws sha1_method fips_sha1.
Proof. solve_method; [intros mem chunks ?; exact (SHA1_message chunks)|apply length_fips_sha1]. Qed.

#[export] Instance sha224_laws : MethodLaws sha224_method (digest EVP_sha224).
Proof.
  change (digest EVP_sha224) with (fips_sha256 7 fips_H224). rewrite <- H224_fips.
  solve_method; [intros mem chunks ?|intros m; apply (length_fips_sha256 7); [done|lia]].
  exact (f_equal (default []) (sha256_final_message 28 chunks _ 28 ltac:(lia))).
Qed.

#[export] Instance sha256_laws : MethodLaws sha256_method (digest EVP_sha256).
Proof.
  change (digest EVP_sha256) with (fips_sha256 8 fips_H256). rewrite <- H256_fips.
  solve_method; [intros mem chunks ?|intros m; apply (length_fips_sha256 8); [done|lia]].
  refine (eq_trans (f_equal (fun r => default [] (fst r)) (SHA256_Final_fold chunks _)) _).
  exact (f_equal (default []) (sha256_final_message 32 chunks _ 32 ltac:(lia))).
Qed.

#[export] Instance md5_sha1_laws : MethodLaws md5_sha1_method (digest EVP_md5_sha1).
Proof.
  assert (forall chunks a b,
    fold_left (fun c d => (Md5.MD5_Update d c.1, SHA1_Update d c.2)) chunks (a, b) =
    (fold_left (fun c d => Md5.MD5_Update d c) chunks a, fold_left (fun c d => SHA1_Update d c) chunks b)) as Hpair.
  { intros chunks. induction chunks as [|d chunks IH]; intros a b; [done|]. apply IH. }
  solve_method.
  - intros mem chunks ?. cbn [update final init md5_sha1_method]. rewrite Hpair. cbn [fst snd].
    exact (f_equal2 app (MD5_message chunks) (SHA1_message chunks)).
  - intros m. cbn [digest]. rewrite length_app, length_fips_sha1. unfold md5.
    by rewrite length_rfc_md by (intros; apply length_add_regs4).
Qed.

(** SHA-512 and its truncations: [n] words of output, starting from [h0]. *)
Section sha512_laws.
Context (n : nat) (h0 : list Z) (len : nat).
Context (Hn : (0 < n <= 8)%nat) (Hlen : (len / 8 = n)%nat) (Hlen' : (len = 8 * n)%nat) (Hh0 : length h0 = 8%nat).

Definition sha512_like : env_md_st := {|
  md_size := len; block_size := 128; ctx_size := 216; ctx_t := Sha512.sha512_state_st;
  init mem := Sha512.Sha512State (md_start h0 (sha512_p mem)) len; update := Sha512.SHA512_Update;
  final := Sha512.sha512_final_impl len; cleansed := sha512_zero |}.

Lemma sha512_like_laws : MethodLaws sha512_like (fips_sha512 n h0).
Proof.
  refine {| usable (mem : ctx_t sha512_like + bytes) := length (sha512_p mem) = 128%nat |}.
  - intros mem chunks Hp. subst n. by apply sha512_final_message.
  - intros mem chunks Hp. cbn [sha512_p update init sha512_like]. rewrite SHA512_Update_fold. cbn [Sha512.ctx].
    assert (absorbed Sha512.sha512_block_data_order_nohw 128 h0 [] (md_start h0 (sha512_p mem))) as H0
      by (apply absorbed_start; first [lia | done]).
    apply (fold_updates _ (SHA512_Update Sha512.sha512_block_data_order_nohw 128) chunks) in H0
      as (q & _ & _ & _ & _ & Hd); [exact Hd|].
    intros m in_ c. apply absorbed_SHA512_Update; first [lia | apply _].
  - done.
  - intros b Hb. cbn in *. unfold Zlen in Hb. rewrite length_take, length_drop. lia.
  - intros m. cbn [md_size sha512_like]. rewrite Hlen'. apply length_fips_sha512; [done|lia].
  - cbn. lia.
  - cbn. lia.
Qed.

End sha512_laws.

#[export] Instance sha384_laws : MethodLaws sha384_method (digest EVP_sha384).
Proof.
  change (digest EVP_sha384) with (fips_sha512 6 fips_H384). rewrite <- (H384_fips []).
  by apply (sha512_like_laws 6 _ 48); first [lia | done].
Qed.

#[export] Instance sha512_laws : MethodLaws sha512_method (digest EVP_sha512).
Proof.
  change (digest EVP_sha512) with (fips_sha512 8 fips_H512). rewrite <- (H512_fips []).
  destruct (sha512_like_laws 8 (h (Sha512.ctx (Sha512.SHA512_Init []))) 64) as [u Hm Hf Hc Hfr Hl Hs Hz]; [lia|done..|].
  refine {| usable := u : ctx_t sha512_method + bytes -> Prop |}; [|exact Hf|exact Hc|exact Hfr|exact Hl|exact Hs|exact Hz].
  intros mem chunks Hmem. refine (eq_trans _ (Hm mem chunks Hmem)). exact (SHA512_Final_fold chunks _).
Qed.

#[export] Instance sha512_256_laws : MethodLaws sha512_256_method (digest EVP_sha512_256).
Proof.
  change (digest EVP_sha512_256) with (fips_sha512 4 fips_H512_256). rewrite <- (H512_256_fips []).
  by apply (sha512_like_laws 4 _ 32); first [lia | done].
Qed.

#[export] Instance method_laws type : MethodLaws (method type) (digest type).
Proof.
  destruct type; [exact md4_laws|exact md5_laws|exact sha1_laws|exact sha224_laws|exact sha256_laws|exact sha384_laws|exact sha512_laws
    |exact sha512_256_laws|exact md5_sha1_laws].
Qed.

(** * Contexts *)

Section contexts.
Context {H : Type} `{MallocSpec H}.

(** The only failure is that of the allocator. *)
Abbreviation no_memory := (~ MallocTotal H).

Definition md_valid (ctx : EVP_MD_CTX) : Prop :=
  match ctx with
  | Some (existT t c) => usable (M := method t) (H := digest t) (inl c)
  | None => True
  end.

(** [ctx] has been given the message [m]. *)
Definition md_holds (type : EVP_MD) (m : bytes) (ctx : EVP_MD_CTX) : Prop :=
  exists mem chunks, usable (M := method type) (H := digest type) mem /\ m = concat chunks /\
    ctx = Some (existT type (fold_left (fun c d => update (method type) d c) chunks (init (method type) mem))).

Lemma md_holds_valid type m ctx : md_holds type m ctx -> md_valid ctx.
Proof. intros (mem & chunks & Hmem & _ & ->). by apply usable_fold. Qed.

Lemma md_holds_md type m ctx : md_holds type m ctx -> EVP_MD_CTX_md ctx = Some type.
Proof. by intros (mem & chunks & _ & _ & ->). Qed.

Lemma EVP_DigestInit_ex_ok type ctx hp :
  md_valid ctx -> ensures no_memory (EVP_DigestInit_ex type ctx) hp (fun ctx' _ => md_holds type [] ctx').
Proof.
  intros Hctx. unfold EVP_DigestInit_ex.
  assert (ensures no_memory (md_data <-- OPENSSL_malloc (ctx_size (method type));;
    st_ret (Some (existT type (init (method type) (inr md_data))))) hp (fun ctx' _ => md_holds type [] ctx')) as Hfresh.
  { pose proof (ctx_size_small (M := method type) (H := digest type)) as Hsize.
    unfold ensures, st_bind. destruct (OPENSSL_malloc _ hp) as [[b|] hp'] eqn:E.
    - apply OPENSSL_malloc_spec in E as (Hb & _ & _); [|lia]. exists (inr b), []. split; [by apply usable_fresh|done].
    - intros Ht. destruct (OPENSSL_malloc_total (ctx_size (method type)) hp Hsize) as (b & hp'' & E'). congruence. }
  destruct ctx as [[t c]|]; [|done]. destruct (decide (t = type)) as [->|]; [|done].
  by exists (inl c), [].
Qed.

Lemma EVP_DigestUpdate_ok type m d ctx : md_holds type m ctx -> md_holds type (m ++ d) (EVP_DigestUpdate d ctx).
Proof.
  intros (mem & chunks & Hmem & -> & ->). exists mem, (chunks ++ [d]).
  rewrite fold_left_app, concat_app. cbn [concat]. rewrite app_nil_r. split; [done|]. split; reflexivity.
Qed.

Lemma EVP_DigestFinal_ex_ok type m ctx :
  md_holds type m ctx -> exists ctx', EVP_DigestFinal_ex ctx = (digest type m, ctx') /\ md_valid ctx' /\ EVP_MD_CTX_md ctx' = Some type.
Proof.
  intros (mem & chunks & Hmem & -> & ->). exists (Some (existT type (cleansed (method type)))). split; [|split; [|done]].
  - unfold EVP_DigestFinal_ex. by rewrite (method_message (M := method type) (H := digest type)).
  - apply usable_cleansed.
Qed.

Lemma EVP_MD_CTX_copy_ex_ok type m in_ out hp :
  md_holds type m in_ -> ensures no_memory (EVP_MD_CTX_copy_ex in_ out) hp (fun ctx' _ => ctx' = in_).
Proof.
  intros (mem & chunks & _ & _ & ->). unfold EVP_MD_CTX_copy_ex.
  pose proof (ctx_size_small (M := method type) (H := digest type)) as Hsize.
  destruct (decide (EVP_MD_CTX_md out = Some type)); [done|].
  unfold ensures, st_bind. destruct (OPENSSL_malloc _ hp) as [[b|] hp'] eqn:E; [done|].
  intros Ht. destruct (OPENSSL_malloc_total (ctx_size (method type)) hp Hsize) as (b & hp'' & E'). congruence.
Qed.

(** Between contexts of one method nothing is allocated. *)
Lemma EVP_MD_CTX_copy_ex_same type m in_ out (hp : H) :
  md_holds type m in_ -> EVP_MD_CTX_md out = Some type -> EVP_MD_CTX_copy_ex in_ out hp = (Some in_, hp).
Proof.
  intros (mem & chunks & _ & _ & ->) Hout. unfold EVP_MD_CTX_copy_ex.
  by destruct (decide (EVP_MD_CTX_md out = Some type)).
Qed.

Lemma EVP_Digest_ok data type hp : ensures no_memory (EVP_Digest data type) hp (fun out _ => out = digest type data).
Proof.
  unfold EVP_Digest. eapply ensures_bind; [by apply EVP_DigestInit_ex_ok|]. intros ctx hp' Hctx.
  apply (EVP_DigestUpdate_ok _ _ data) in Hctx. apply EVP_DigestFinal_ex_ok in Hctx as (ctx' & E & _). unfold ensures, st_ret.
  by rewrite E.
Qed.

Lemma length_digest_type type m : length (digest type m) = EVP_MD_size type.
Proof. apply (length_digest (M := method type)). Qed.

Lemma EVP_MD_sizes type : (0 < EVP_MD_size type <= EVP_MD_block_size type)%nat.
Proof. apply (md_size_block (M := method type) (H := digest type)). Qed.

(** [EVP_MAX_MD_SIZE]. *)
Lemma EVP_MD_size_max type : (EVP_MD_size type <= 64)%nat.
Proof. apply Nat.leb_le. by destruct type. Qed.

End contexts.

(** The hash functions are known by their laws only from here on. *)
#[global] Opaque digest method.
