(* ===== verification/Hmac.v ===== *)
(** HMAC over any digest ([crypto/fipsmodule/hmac/hmac.c]). *)
From S2P Require Import Prelude Mem Evp.

(** [struct hmac_ctx_st]. *)
Record hmac_ctx_st := HmacCtx {
  md : option EVP_MD;
  md_ctx : EVP_MD_CTX;
  i_ctx : EVP_MD_CTX;
  o_ctx : EVP_MD_CTX;
}.

Definition set_md (t : option EVP_MD) (ctx : hmac_ctx_st) := HmacCtx t (md_ctx ctx) (i_ctx ctx) (o_ctx ctx).
Definition set_md_ctx (c : EVP_MD_CTX) (ctx : hmac_ctx_st) := HmacCtx (md ctx) c (i_ctx ctx) (o_ctx ctx).
Definition set_i_ctx (c : EVP_MD_CTX) (ctx : hmac_ctx_st) := HmacCtx (md ctx) (md_ctx ctx) c (o_ctx ctx).
Definition set_o_ctx (c : EVP_MD_CTX) (ctx : hmac_ctx_st) := HmacCtx (md ctx) (md_ctx ctx) (i_ctx ctx) c.

Definition HMAC_CTX_init : hmac_ctx_st := HmacCtx None EVP_MD_CTX_init EVP_MD_CTX_init EVP_MD_CTX_init.
Definition HMAC_CTX_cleanup (ctx : hmac_ctx_st) : hmac_ctx_st := HMAC_CTX_init.
Definition HMAC_CTX_reset (ctx : hmac_ctx_st) : hmac_ctx_st := HMAC_CTX_init.
Definition HMAC_CTX_get_md (ctx : hmac_ctx_st) : option EVP_MD := md ctx.
Definition HMAC_size (ctx : hmac_ctx_st) : option nat := EVP_MD_size <$> md ctx.

Section hmac.
Context {H : Type} `{Malloc H}.
Abbreviation ST_HMAC := (ST (hmac_ctx_st * H)).

(** An operation of the digest layer on one of the three contexts. *)
Definition on_md_ctx (f : EVP_MD_CTX -> ST H EVP_MD_CTX) : ST_HMAC unit := fun '(ctx, hp) =>
  match f (md_ctx ctx) hp with
  | (Some c, hp) => (Some tt, (set_md_ctx c ctx, hp))
  | (None, hp) => (None, (ctx, hp))
  end.
Definition on_i_ctx (f : EVP_MD_CTX -> ST H EVP_MD_CTX) : ST_HMAC unit := fun '(ctx, hp) =>
  match f (i_ctx ctx) hp with
  | (Some c, hp) => (Some tt, (set_i_ctx c ctx, hp))
  | (None, hp) => (None, (ctx, hp))
  end.
Definition on_o_ctx (f : EVP_MD_CTX -> ST H EVP_MD_CTX) : ST_HMAC unit := fun '(ctx, hp) =>
  match f (o_ctx ctx) hp with
  | (Some c, hp) => (Some tt, (set_o_ctx c ctx, hp))
  | (None, hp) => (None, (ctx, hp))
  end.

(** [EVP_DigestInit_ex] and [EVP_DigestUpdate] of a whole string. *)
Definition digest_start (t : EVP_MD) (d : bytes) (c : EVP_MD_CTX) : ST H EVP_MD_CTX :=
  c <-- EVP_DigestInit_ex t c ;; st_ret (EVP_DigestUpdate d c).

Definition final_md_ctx : ST_HMAC bytes := fun '(ctx, hp) =>
  let '(out, c) := EVP_DigestFinal_ex (md_ctx ctx) in (Some out, (set_md_ctx c ctx, hp)).

Definition copy_to_md_ctx (get : hmac_ctx_st -> EVP_MD_CTX) : ST_HMAC unit :=
  fun s => on_md_ctx (EVP_MD_CTX_copy_ex (get s.1)) s.

(** The key of one block: long keys are hashed, short ones padded with zeros. *)
Definition hmac_key_block (t : EVP_MD) (key : bytes) : ST_HMAC bytes :=
  key_block <--
    (if (EVP_MD_block_size t <? length key)%nat then on_md_ctx (digest_start t key) ;;; final_md_ctx
     else st_ret key) ;;
  st_ret (key_block ++ replicate (EVP_MD_block_size t - length key_block) 0).

(** [None] is NULL, for a key and for a method; a key without any method is a
    read through NULL in [EVP_MD_block_size], here a failure. *)
Definition HMAC_Init_ex (key : option bytes) (new_md : option EVP_MD) : ST_HMAC unit := fun s =>
  let new_md := match new_md with None => md s.1 | Some _ => new_md end in
  ((if negb (bool_decide (new_md = md s.1)) || negb (bool_decide (key = None)) then
      match new_md with
      | None => st_fail
      | Some t =>
          key_block <-- hmac_key_block t (default [] key) ;;
          on_i_ctx (digest_start t (Z.lxor 0x36 <$> key_block)) ;;;
          on_o_ctx (digest_start t (Z.lxor 0x5c <$> key_block)) ;;;
          fun '(ctx, hp) => (Some tt, (set_md new_md ctx, hp))
      end
    else st_ret tt) ;;;
   copy_to_md_ctx i_ctx) s.

Definition HMAC_Update (data : bytes) : ST_HMAC unit :=
  on_md_ctx (fun c => st_ret (EVP_DigestUpdate data c)).

Definition HMAC_Final : ST_HMAC bytes :=
  buf <-- final_md_ctx ;;
  copy_to_md_ctx o_ctx ;;;
  HMAC_Update buf ;;;
  final_md_ctx.

Definition HMAC_CTX_copy_ex (src : hmac_ctx_st) : ST_HMAC unit :=
  on_i_ctx (EVP_MD_CTX_copy_ex (i_ctx src)) ;;;
  on_o_ctx (EVP_MD_CTX_copy_ex (o_ctx src)) ;;;
  on_md_ctx (EVP_MD_CTX_copy_ex (md_ctx src)) ;;;
  fun '(dest, hp) => (Some tt, (set_md (md src) dest, hp)).

Definition HMAC_CTX_copy (src : hmac_ctx_st) : ST_HMAC unit := fun '(dest, hp) =>
  HMAC_CTX_copy_ex src (HMAC_CTX_init, hp).

Definition HMAC_Init (key : option bytes) (new_md : option EVP_MD) : ST_HMAC unit := fun '(ctx, hp) =>
  HMAC_Init_ex key new_md
    (if negb (bool_decide (key = None)) && negb (bool_decide (new_md = None)) then HMAC_CTX_init else ctx, hp).

Definition HMAC_CTX_new : ST H hmac_ctx_st := _ <-- OPENSSL_malloc 104 ;; st_ret HMAC_CTX_init.

(** A local context, initialised and cleaned up. *)
Definition with_hmac_ctx {A} (m : ST_HMAC A) : ST H A := fun hp =>
  let '(a, (_, hp)) := m (HMAC_CTX_init, hp) in (a, hp).

Definition HMAC (evp_md : EVP_MD) (key : option bytes) (data : bytes) : ST H bytes :=
  with_hmac_ctx (HMAC_Init_ex key (Some evp_md) ;;; HMAC_Update data ;;; HMAC_Final).

End hmac.

(** * RFC 2104 *)

Section rfc2104.
Context (t : EVP_MD).

Definition rfc_key (k : bytes) : bytes :=
  let k := if (EVP_MD_block_size t <? length k)%nat then digest t k else k in
  k ++ replicate (EVP_MD_block_size t - length k) 0.

Definition ipad (k : bytes) : bytes := Z.lxor 0x36 <$> rfc_key k.
Definition opad (k : bytes) : bytes := Z.lxor 0x5c <$> rfc_key k.

Definition hmac (k m : bytes) : bytes := digest t (opad k ++ digest t (ipad k ++ m)).

End rfc2104.

(** * Contexts *)

Section contexts.
Context {H : Type} `{MallocSpec H}.
Abbreviation no_memory := (~ MallocTotal H).

Definition hmac_valid (ctx : hmac_ctx_st) : Prop :=
  md_valid (md_ctx ctx) /\ md_valid (i_ctx ctx) /\ md_valid (o_ctx ctx).

(** [ctx] has the key [k]: nothing is to be allocated any more. *)
Definition hmac_keyed (t : EVP_MD) (k : bytes) (ctx : hmac_ctx_st) : Prop :=
  md ctx = Some t /\ md_holds t (ipad t k) (i_ctx ctx) /\ md_holds t (opad t k) (o_ctx ctx) /\
  md_valid (md_ctx ctx) /\ EVP_MD_CTX_md (md_ctx ctx) = Some t.

(** And it has been given the message [m]. *)
Definition hmac_holds (t : EVP_MD) (k m : bytes) (ctx : hmac_ctx_st) : Prop :=
  hmac_keyed t k ctx /\ md_holds t (ipad t k ++ m) (md_ctx ctx).

Lemma hmac_keyed_valid t k ctx : hmac_keyed t k ctx -> hmac_valid ctx.
Proof. intros (_ & Hi & Ho & Hm & _). split; [done|]. split; by eapply md_holds_valid. Qed.

Lemma hmac_init_valid : hmac_valid HMAC_CTX_init.
Proof. done. Qed.

Lemma length_hmac t k m : length (hmac t k m) = EVP_MD_size t.
Proof. apply length_digest_type. Qed.

(** ** The digest layer on the members *)

Lemma on_md_ctx_ok e f ctx (hp : H) P (Q : unit -> hmac_ctx_st * H -> Prop) :
  ensures e (f (md_ctx ctx)) hp (fun c _ => P c) -> (forall c hp, P c -> Q tt (set_md_ctx c ctx, hp)) ->
  ensures e (on_md_ctx f) (ctx, hp) Q.
Proof. unfold ensures, on_md_ctx. destruct (f _ hp) as [[c|] hp']; auto. Qed.

Lemma on_i_ctx_ok e f ctx (hp : H) P (Q : unit -> hmac_ctx_st * H -> Prop) :
  ensures e (f (i_ctx ctx)) hp (fun c _ => P c) -> (forall c hp, P c -> Q tt (set_i_ctx c ctx, hp)) ->
  ensures e (on_i_ctx f) (ctx, hp) Q.
Proof. unfold ensures, on_i_ctx. destruct (f _ hp) as [[c|] hp']; auto. Qed.

Lemma on_o_ctx_ok e f ctx (hp : H) P (Q : unit -> hmac_ctx_st * H -> Prop) :
  ensures e (f (o_ctx ctx)) hp (fun c _ => P c) -> (forall c hp, P c -> Q tt (set_o_ctx c ctx, hp)) ->
  ensures e (on_o_ctx f) (ctx, hp) Q.
Proof. unfold ensures, on_o_ctx. destruct (f _ hp) as [[c|] hp']; auto. Qed.

Lemma digest_start_ok t d c (hp : H) :
  md_valid c -> ensures no_memory (digest_start t d c) hp (fun c' _ => md_holds t d c').
Proof.
  intros Hc. eapply ensures_bind; [by apply EVP_DigestInit_ex_ok|]. intros c' hp' Hc'.
  by apply (EVP_DigestUpdate_ok t []).
Qed.

Lemma final_md_ctx_ok e t m ctx (hp : H) :
  md_holds t m (md_ctx ctx) ->
  ensures e final_md_ctx (ctx, hp) (fun out s => out = digest t m /\
    exists c, s.1 = set_md_ctx c ctx /\ md_valid c /\ EVP_MD_CTX_md c = Some t).
Proof.
  intros Hm. apply EVP_DigestFinal_ex_ok in Hm as (c & E & Hc & Ht). unfold ensures, final_md_ctx. rewrite E.
  split; [done|]. by exists c.
Qed.

Lemma copy_to_md_ctx_ok e t m get ctx (hp : H) :
  md_holds t m (get ctx) -> EVP_MD_CTX_md (md_ctx ctx) = Some t ->
  ensures e (copy_to_md_ctx get) (ctx, hp) (fun _ s => s.1 = set_md_ctx (get ctx) ctx).
Proof.
  intros Hm Ht. unfold copy_to_md_ctx. cbn [fst].
  apply (on_md_ctx_ok _ _ _ _ (fun c => c = get ctx)); [|by intros c hp' ->].
  unfold ensures. by rewrite (EVP_MD_CTX_copy_ex_same t m).
Qed.

Lemma copy_to_md_ctx_alloc t m get ctx (hp : H) :
  md_holds t m (get ctx) ->
  ensures no_memory (copy_to_md_ctx get) (ctx, hp) (fun _ s => s.1 = set_md_ctx (get ctx) ctx).
Proof.
  intros Hm. unfold copy_to_md_ctx. cbn [fst].
  eapply on_md_ctx_ok; [by eapply EVP_MD_CTX_copy_ex_ok|]. by intros c hp' ->.
Qed.

(** ** The operations *)

Lemma hmac_key_block_ok t key ctx (hp : H) :
  md_valid (md_ctx ctx) ->
  ensures no_memory (hmac_key_block t key) (ctx, hp) (fun kb s => kb = rfc_key t key /\
    md s.1 = md ctx /\ i_ctx s.1 = i_ctx ctx /\ o_ctx s.1 = o_ctx ctx /\ md_valid (md_ctx s.1)).
Proof.
  intros Hv. unfold hmac_key_block.
  apply (ensures_bind _ _ _ _ (fun kb s => kb = (if (EVP_MD_block_size t <? length key)%nat then digest t key else key) /\
    md s.1 = md ctx /\ i_ctx s.1 = i_ctx ctx /\ o_ctx s.1 = o_ctx ctx /\ md_valid (md_ctx s.1))).
  - destruct (EVP_MD_block_size t <? length key)%nat; [|by apply ensures_ret].
    eapply ensures_bind.
    { eapply (on_md_ctx_ok _ _ _ _ _ (fun _ s => exists c, s.1 = set_md_ctx c ctx /\ md_holds t key c)); [by apply digest_start_ok|].
      intros c hp' Hc. by exists c. }
    intros _ [ctx' hp'] (c & E & Hc). cbn [fst] in E. subst ctx'.
    eapply ensures_mono; [by apply (final_md_ctx_ok _ t key)|].
    intros out [ctx' hp''] (-> & c' & E & Hc' & _). cbn [fst] in *. by subst ctx'.
  - intros kb s (-> & Hs). by apply ensures_ret.
Qed.

Lemma set_md_keyed t k ctx c :
  hmac_keyed t k ctx -> md_valid c -> EVP_MD_CTX_md c = Some t -> hmac_keyed t k (set_md_ctx c ctx).
Proof. intros (Hmd & Hi & Ho & _) Hc Ht. by repeat split. Qed.

(** A key is set, on a context in any state. *)
Lemma HMAC_Init_ex_key t key new_md ctx (hp : H) :
  hmac_valid ctx -> new_md = Some t \/ (new_md = None /\ md ctx = Some t) -> (key <> None \/ md ctx <> Some t) ->
  ensures no_memory (HMAC_Init_ex key new_md) (ctx, hp) (fun _ s => hmac_holds t (default [] key) [] s.1).
Proof.
  intros (Hm & Hi & Ho) Hnew Hneed. unfold ensures, HMAC_Init_ex. cbn [fst].
  replace (match new_md with Some _ => new_md | None => md ctx end) with (Some t) by (by destruct Hnew as [->|[-> ->]]).
  cbv zeta. fold (ensures (S := hmac_ctx_st * H) (A := unit)).
  replace (negb (bool_decide (Some t = md ctx)) || negb (bool_decide (key = None))) with true.
  2:{ symmetry. apply orb_true_iff. rewrite !negb_true_iff, !bool_decide_eq_false. destruct Hneed; [by right|left; congruence]. }
  eapply (ensures_bind _ _ _ _ (fun _ s => md s.1 = Some t /\ md_holds t (ipad t (default [] key)) (i_ctx s.1) /\
    md_holds t (opad t (default [] key)) (o_ctx s.1) /\ md_valid (md_ctx s.1))).
  - eapply ensures_bind; [by apply hmac_key_block_ok|]. intros kb [ctx1 hp1] (-> & _ & Ei & Eo & Hm1). cbn [fst] in *.
    eapply ensures_bind.
    { eapply (on_i_ctx_ok _ _ _ _ _ (fun _ s => exists c, s.1 = set_i_ctx c ctx1 /\ md_holds t (ipad t (default [] key)) c));
        [apply digest_start_ok; by rewrite Ei|]. intros c hp' Hc. by exists c. }
    intros _ [ctx2 hp2] (ci & E & Hci). cbn [fst] in E. subst ctx2.
    eapply ensures_bind.
    { eapply (on_o_ctx_ok _ _ _ _ _ (fun _ s => exists c, s.1 = set_o_ctx c (set_i_ctx ci ctx1) /\ md_holds t (opad t (default [] key)) c));
        [apply digest_start_ok; cbn; by rewrite Eo|]. intros c hp' Hc. by exists c. }
    intros _ [ctx3 hp3] (co & E & Hco). cbn [fst] in E. by subst ctx3.
  - intros _ [ctx' hp'] (Hmd & Hi' & Ho' & Hm'). cbn [fst] in *.
    eapply ensures_mono; [by eapply (copy_to_md_ctx_alloc t)|]. intros _ [ctx'' hp''] E. cbn [fst] in *. subst ctx''.
    split; [|by rewrite app_nil_r]. repeat split; [done..| |]; [by eapply md_holds_valid|by eapply md_holds_md].
Qed.

(** With neither key nor method the context is rewound: this cannot fail. *)
Lemma HMAC_Init_ex_rewind e t k ctx (hp : H) :
  hmac_keyed t k ctx ->
  ensures e (HMAC_Init_ex None None) (ctx, hp) (fun _ s => hmac_holds t k [] s.1).
Proof.
  intros (Hmd & Hi & Ho & Hm & Ht).
  assert (HMAC_Init_ex None None (ctx, hp) = copy_to_md_ctx i_ctx (ctx, hp)) as E.
  { unfold HMAC_Init_ex. cbn [fst]. cbv iota zeta.
    by rewrite (bool_decide_eq_true_2 (md ctx = md ctx)), (bool_decide_eq_true_2 (@None bytes = None)) by done. }
  unfold ensures. rewrite E. clear E. fold (ensures e (copy_to_md_ctx i_ctx) (ctx, hp) (fun _ s => hmac_holds t k [] s.1)).
  eapply ensures_mono; [by eapply (copy_to_md_ctx_ok _ t)|]. intros _ [ctx' hp'] E. cbn [fst] in *. subst ctx'.
  split; [|by rewrite app_nil_r]. repeat split; [done..| |]; [by eapply md_holds_valid|by eapply md_holds_md].
Qed.

Lemma HMAC_Update_ok e t k m d ctx (hp : H) :
  hmac_holds t k m ctx -> ensures e (HMAC_Update d) (ctx, hp) (fun _ s => hmac_holds t k (m ++ d) s.1).
Proof.
  intros [Hk Hm]. apply (on_md_ctx_ok _ _ _ _ (md_holds t ((ipad t k ++ m) ++ d))).
  { apply ensures_ret. by apply EVP_DigestUpdate_ok. }
  intros c hp' Hc. split; [|by rewrite app_assoc]. apply set_md_keyed; [done|by eapply md_holds_valid|by eapply md_holds_md].
Qed.

(** Neither can the end fail. *)
Lemma HMAC_Final_ok e t k m ctx (hp : H) :
  hmac_holds t k m ctx ->
  ensures e HMAC_Final (ctx, hp) (fun out s => out = hmac t k m /\ hmac_keyed t k s.1).
Proof.
  intros [Hk Hm]. unfold HMAC_Final. eapply ensures_bind; [by apply (final_md_ctx_ok _ t)|].
  intros buf [ctx1 hp1] (-> & c & E & Hc & Ht). cbn [fst] in E. subst ctx1.
  pose proof (set_md_keyed _ _ _ _ Hk Hc Ht) as (Hmd & Hi & Ho & _ & Ht').
  eapply ensures_bind; [by eapply (copy_to_md_ctx_ok _ t)|].
  intros _ [ctx2 hp2] E. cbn [fst] in E. subst ctx2. cbn [o_ctx set_md_ctx].
  eapply ensures_bind.
  { apply (on_md_ctx_ok _ _ _ _ (md_holds t (opad t k ++ digest t (ipad t k ++ m)))
      (fun _ s => exists c, s.1 = set_md_ctx c ctx /\ md_holds t (opad t k ++ digest t (ipad t k ++ m)) c)).
    - apply ensures_ret. by apply EVP_DigestUpdate_ok.
    - intros c' hp' Hc'. by exists c'. }
  intros _ [ctx3 hp3] (c3 & E & Hc3). cbn [fst] in E. subst ctx3.
  eapply ensures_mono; [by apply (final_md_ctx_ok _ t (opad t k ++ digest t (ipad t k ++ m)))|].
  intros out [ctx4 hp4] (-> & c4 & E & Hc4 & Ht4). cbn [fst] in *. subst ctx4. split; [done|].
  by apply (set_md_keyed t k (set_md_ctx c3 ctx)); [apply set_md_keyed; [done|by eapply md_holds_valid|by eapply md_holds_md]|..].
Qed.

Lemma HMAC_CTX_copy_ex_ok t k m src dest (hp : H) :
  hmac_holds t k m src ->
  ensures no_memory (HMAC_CTX_copy_ex src) (dest, hp) (fun _ s => s.1 = src).
Proof.
  intros [(Hmd & Hi & Ho & _) Hm]. unfold HMAC_CTX_copy_ex.
  eapply ensures_bind.
  { apply (on_i_ctx_ok _ _ _ _ (fun c => c = i_ctx src) (fun _ s => s.1 = set_i_ctx (i_ctx src) dest));
      [by eapply EVP_MD_CTX_copy_ex_ok|by intros c hp' ->]. }
  intros _ [d1 hp1] E. cbn [fst] in E. subst d1. eapply ensures_bind.
  { apply (on_o_ctx_ok _ _ _ _ (fun c => c = o_ctx src) (fun _ s => s.1 = set_o_ctx (o_ctx src) (set_i_ctx (i_ctx src) dest)));
      [by eapply EVP_MD_CTX_copy_ex_ok|by intros c hp' ->]. }
  intros _ [d2 hp2] E. cbn [fst] in E. subst d2. eapply ensures_bind.
  { apply (on_md_ctx_ok _ _ _ _ (fun c => c = md_ctx src)
      (fun _ s => s.1 = set_md_ctx (md_ctx src) (set_o_ctx (o_ctx src) (set_i_ctx (i_ctx src) dest))));
      [by eapply EVP_MD_CTX_copy_ex_ok|by intros c hp' ->]. }
  intros _ [d3 hp3] E. cbn [fst] in E. subst d3. by destruct src.
Qed.

(** A message in pieces. *)
Fixpoint HMAC_Updates (chunks : list bytes) : ST (hmac_ctx_st * H) unit :=
  match chunks with
  | [] => st_ret tt
  | d :: chunks => HMAC_Update d ;;; HMAC_Updates chunks
  end.

Lemma HMAC_Updates_ok e t k m chunks ctx (hp : H) :
  hmac_holds t k m ctx -> ensures e (HMAC_Updates chunks) (ctx, hp) (fun _ s => hmac_holds t k (m ++ concat chunks) s.1).
Proof.
  revert m ctx hp. induction chunks as [|d chunks IH]; intros m ctx hp Hc; cbn [HMAC_Updates concat].
  - apply ensures_ret. by rewrite app_nil_r.
  - eapply ensures_bind; [by apply HMAC_Update_ok|]. intros _ [ctx' hp'] Hc'. rewrite app_assoc. by apply IH.
Qed.

(** Updates and the end, after which the context still has its key. *)
Lemma hmac_finish_ok e t k m chunks ctx (hp : H) :
  hmac_holds t k m ctx ->
  ensures e (HMAC_Updates chunks ;;; HMAC_Final) (ctx, hp) (fun out s =>
    out = hmac t k (m ++ concat chunks) /\ hmac_keyed t k s.1).
Proof.
  intros Hc. eapply ensures_bind; [by apply HMAC_Updates_ok|]. intros _ [ctx' hp'] Hc'. by apply HMAC_Final_ok.
Qed.

Lemma with_hmac_ctx_ok {A} e (m : ST (hmac_ctx_st * H) A) hp (P : A -> Prop) :
  ensures e m (HMAC_CTX_init, hp) (fun a _ => P a) -> ensures e (with_hmac_ctx m) hp (fun a _ => P a).
Proof. unfold ensures, with_hmac_ctx. by destruct (m _) as [[a|] [ctx hp']]. Qed.

Lemma HMAC_ok t key data (hp : H) :
  ensures no_memory (HMAC t key data) hp (fun out _ => out = hmac t (default [] key) data).
Proof.
  apply with_hmac_ctx_ok. eapply ensures_bind; [by apply (HMAC_Init_ex_key t); [apply hmac_init_valid|left|right]|].
  intros _ [ctx hp'] Hc. eapply ensures_bind; [by apply (HMAC_Update_ok _ t (default [] key) [] data)|].
  intros _ [ctx' hp''] Hc'. eapply ensures_mono; [by apply HMAC_Final_ok|]. by intros out s [-> _].
Qed.

(** * Properties *)

(** C21. HMAC is that of RFC 2104 over the hash function of the standard, for every
    digest: a context in whatever state an earlier use has left takes a key and a
    method, and a message in any pieces, and gives the code of the whole; the only
    failure is that of the allocator.  Rewinding it for another message under the
    same key, and finishing that, cannot fail at all.  The one-shot function
    gives the same code. *)
Theorem HMAC_rfc2104 t key chunks ctx (hp : H) :
  hmac_valid ctx ->
  ensures (~ MallocTotal H) (HMAC_Init_ex (Some key) (Some t) ;;; HMAC_Updates chunks ;;; HMAC_Final) (ctx, hp) (fun out s =>
    out = hmac t key (concat chunks) /\ length out = EVP_MD_size t /\ hmac_valid s.1 /\
    forall chunks' hp', ensures False (HMAC_Init_ex None None ;;; HMAC_Updates chunks' ;;; HMAC_Final) (s.1, hp') (fun out' s' =>
      out' = hmac t key (concat chunks') /\ hmac_valid s'.1)) /\
  ensures (~ MallocTotal H) (HMAC t (Some key) (concat chunks)) hp (fun out _ => out = hmac t key (concat chunks)).
Proof.
  intros Hv. split; [|apply HMAC_ok].
  eapply ensures_bind; [by apply (HMAC_Init_ex_key t (Some key)); [|left|left]|]. intros _ [ctx1 hp1] H1'.
  eapply ensures_mono; [by apply hmac_finish_ok|]. intros out [ctx2 hp2] [-> H2]. cbn [fst default app] in *.
  split; [done|]. split; [apply length_hmac|]. split; [by eapply hmac_keyed_valid|]. intros chunks' hp'.
  eapply ensures_bind; [by eapply HMAC_Init_ex_rewind|]. intros _ [ctx3 hp3] H3.
  eapply ensures_mono; [by apply hmac_finish_ok|]. intros out [ctx4 hp4] [-> H4]. split; [done|by eapply hmac_keyed_valid].
Qed.

End contexts.

Lemma HMAC_rfc2104_witness :
  let run := (HMAC_Init_ex (Some [1; 2]) (Some EVP_sha256) ;;; HMAC_Updates [[3]; [4; 5]] ;;; HMAC_Final) (HMAC_CTX_init, tt) in
  fst run = Some (hmac EVP_sha256 [1; 2] [3; 4; 5]).
Proof.
  destruct (HMAC_rfc2104 EVP_sha256 [1; 2] [[3]; [4; 5]] HMAC_CTX_init tt hmac_init_valid) as [Hrun _].
  unfold ensures in Hrun. cbv zeta.
  destruct ((HMAC_Init_ex (Some [1; 2]) (Some EVP_sha256) ;;; HMAC_Updates [[3]; [4; 5]] ;;; HMAC_Final) (HMAC_CTX_init, tt))
    as [[out|] s]; [destruct Hrun as [-> _]; reflexivity|destruct (Hrun unit_malloc_total)].
Defined.

(** The second test of RFC 4231. *)
Example HMAC_sha256_rfc4231 :
  fst (HMAC EVP_sha256 (Some [0x4a; 0x65; 0x66; 0x65])
    [0x77; 0x68; 0x61; 0x74; 0x20; 0x64; 0x6f; 0x20; 0x79; 0x61; 0x20; 0x77; 0x61; 0x6e; 0x74; 0x20; 0x66; 0x6f; 0x72; 0x20;
     0x6e; 0x6f; 0x74; 0x68; 0x69; 0x6e; 0x67; 0x3f] tt) =
  Some (be_bytes 32 0x5bdcc146bf60754e6a042426089575c75a003f089d2739839dec58b964ec3843).
Proof. by vm_compute. Qed.
