(* ===== verification/Kdf.v ===== *)
(** Key derivation over HMAC: HKDF ([crypto/fipsmodule/hkdf/hkdf.c]), PBKDF2
    ([crypto/evp/pbkdf.c]), and the functions of TLS 1.2 and 1.3
    ([crypto/fipsmodule/tls/kdf.c]), with the RFCs that define them. *)
From S2P Require Import Prelude Mem Evp Hmac Cbb.

Section kdf.
Context {H : Type} `{Malloc H}.

(** * HKDF *)

Definition HKDF_extract (digest : EVP_MD) (secret : bytes) (salt : option bytes) : ST H bytes := HMAC digest salt secret.

(** Passes [i] to [i + togo - 1]; [done] bytes have been written. *)
Fixpoint hkdf_expand_loop (digest : EVP_MD) (info : bytes) (out_len togo : nat) (i : Z) (done : nat) (previous : bytes) :
    ST (hmac_ctx_st * H) bytes :=
  match togo with
  | O => st_ret []
  | S togo =>
      (if negb (i =? 0) then HMAC_Init_ex None None ;;; HMAC_Update previous else st_ret tt) ;;;
      HMAC_Update info ;;;
      HMAC_Update [u8 (i + 1)] ;;;
      previous <-- HMAC_Final ;;
      let todo := if (out_len - done <? EVP_MD_size digest)%nat then (out_len - done)%nat else EVP_MD_size digest in
      rest <-- hkdf_expand_loop digest info out_len togo (i + 1) (done + todo) previous ;;
      st_ret (take todo previous ++ rest)
  end.

Definition HKDF_expand (out_len : nat) (digest : EVP_MD) (prk info : bytes) : ST H bytes :=
  let len := Z.of_nat out_len in
  let digest_len := Z.of_nat (EVP_MD_size digest) in
  let n := u64 (len + digest_len - 1) / digest_len in
  if (u64 (len + digest_len) <? len) || (255 <? n) then st_fail
  else
    with_hmac_ctx (
      HMAC_Init_ex (Some prk) (Some digest) ;;;
      hkdf_expand_loop digest info out_len (Z.to_nat n) 0 0 []).

Definition HKDF (out_len : nat) (digest : EVP_MD) (secret : bytes) (salt : option bytes) (info : bytes) : ST H bytes :=
  prk <-- HKDF_extract digest secret salt ;;
  HKDF_expand out_len digest prk info.

(** * PBKDF2 *)

(** [togo] more iterations on [out_key], after [digest_tmp]. *)
Fixpoint pbkdf2_xor (togo : nat) (digest_tmp out_key : bytes) : ST (hmac_ctx_st * H) bytes :=
  match togo with
  | O => st_ret out_key
  | S togo =>
      HMAC_Init_ex None None ;;;
      HMAC_Update digest_tmp ;;;
      digest_tmp <-- HMAC_Final ;;
      pbkdf2_xor togo digest_tmp (zip_with Z.lxor out_key digest_tmp)
  end.

Definition i_buf (i : Z) : bytes :=
  [u8 (Z.land (Z.shiftr i 24) 0xff); u8 (Z.land (Z.shiftr i 16) 0xff); u8 (Z.land (Z.shiftr i 8) 0xff); u8 (Z.land i 0xff)].

Fixpoint pbkdf2_loop (fuel : nat) (digest : EVP_MD) (salt : bytes) (iterations : Z) (key_len : nat) (i : Z) :
    ST (hmac_ctx_st * H) bytes :=
  match fuel with
  | O => st_fail
  | S fuel =>
      if (key_len =? 0)%nat then st_ret []
      else
        let todo := if (key_len <? EVP_MD_size digest)%nat then key_len else EVP_MD_size digest in
        HMAC_Init_ex None None ;;;
        HMAC_Update salt ;;;
        HMAC_Update (i_buf i) ;;;
        digest_tmp <-- HMAC_Final ;;
        out_key <-- pbkdf2_xor (Z.to_nat (iterations - 1)) digest_tmp (take todo digest_tmp) ;;
        rest <-- pbkdf2_loop fuel digest salt iterations (key_len - todo) (u32 (i + 1)) ;;
        st_ret (out_key ++ rest)
  end.

(** What is in [out_key], and the value returned: for no iterations the key is
    that of one iteration, and the result 0 all the same. *)
Definition PKCS5_PBKDF2_HMAC (password salt : bytes) (iterations : Z) (digest : EVP_MD) (key_len : nat) : ST H (bytes * Z) :=
  with_hmac_ctx (
    HMAC_Init_ex (Some password) (Some digest) ;;;
    out_key <-- pbkdf2_loop (S key_len) digest salt iterations key_len 1 ;;
    st_ret (out_key, if iterations =? 0 then 0 else 1)).

Definition PKCS5_PBKDF2_HMAC_SHA1 (password salt : bytes) (iterations : Z) (key_len : nat) : ST H (bytes * Z) :=
  PKCS5_PBKDF2_HMAC password salt iterations EVP_sha1 key_len.

(** * TLS 1.2 *)

(** Operations on one of the local contexts, which an error discards. *)
Definition hmac_do (m : ST (hmac_ctx_st * H) unit) (ctx : hmac_ctx_st) : ST H hmac_ctx_st := fun hp =>
  let '(r, (ctx, hp)) := m (ctx, hp) in ((fun _ => ctx) <$> r, hp).

Definition hmac_final (ctx : hmac_ctx_st) : ST H (bytes * hmac_ctx_st) := fun hp =>
  let '(r, (ctx, hp)) := HMAC_Final (ctx, hp) in ((fun out => (out, ctx)) <$> r, hp).

(** [HMAC_Update] of the label and the two seeds. *)
Definition update_seeds (label seed1 seed2 : bytes) : ST (hmac_ctx_st * H) unit :=
  HMAC_Update label ;;; HMAC_Update seed1 ;;; HMAC_Update seed2.

(** What is left of [out], with the output added by exclusive or. *)
Fixpoint tls1_P_hash_loop (fuel chunk : nat) (label seed1 seed2 : bytes) (ctx_init ctx ctx_tmp : hmac_ctx_st)
    (A1 out : bytes) : ST H bytes :=
  match fuel with
  | O => st_fail
  | S fuel =>
      ctx <-- hmac_do (HMAC_CTX_copy_ex ctx_init ;;; HMAC_Update A1) ctx ;;
      ctx_tmp <-- (if (chunk <? length out)%nat then hmac_do (HMAC_CTX_copy_ex ctx) ctx_tmp else st_ret ctx_tmp) ;;
      ctx <-- hmac_do (update_seeds label seed1 seed2) ctx ;;
      r <-- hmac_final ctx ;;
      let len := if (length out <? length r.1)%nat then length out else length r.1 in
      let done := zip_with Z.lxor (take len out) (take len r.1) in
      let out := drop len out in
      if (length out =? 0)%nat then st_ret done
      else
        next <-- hmac_final ctx_tmp ;;
        rest <-- tls1_P_hash_loop fuel chunk label seed1 seed2 ctx_init r.2 next.2 next.1 out ;;
        st_ret (done ++ rest)
  end.

Definition tls1_P_hash (out : bytes) (md : EVP_MD) (secret label seed1 seed2 : bytes) : ST H bytes :=
  let chunk := EVP_MD_size md in
  ctx_init <-- hmac_do (HMAC_Init_ex (Some secret) (Some md)) HMAC_CTX_init ;;
  ctx <-- hmac_do (HMAC_CTX_copy_ex ctx_init ;;; update_seeds label seed1 seed2) HMAC_CTX_init ;;
  A1 <-- hmac_final ctx ;;
  tls1_P_hash_loop (S (length out)) chunk label seed1 seed2 ctx_init A1.2 HMAC_CTX_init A1.1 out.

Definition CRYPTO_tls1_prf (digest : EVP_MD) (out_len : nat) (secret label seed1 seed2 : bytes) : ST H bytes :=
  if (out_len =? 0)%nat then st_ret []
  else
    let out := replicate out_len 0 in
    if bool_decide (digest = EVP_md5_sha1) then
      let secret_half := (length secret - length secret / 2)%nat in
      out <-- tls1_P_hash out EVP_md5 (take secret_half secret) label seed1 seed2 ;;
      tls1_P_hash out EVP_sha1 (take secret_half (drop (length secret - secret_half) secret)) label seed1 seed2
    else tls1_P_hash out digest secret label seed1 seed2.

(** * TLS 1.3 *)

(** The string "tls13 ". *)
Definition kProtocolLabel : bytes := [0x74; 0x6c; 0x73; 0x31; 0x33; 0x20].

(** [HkdfLabel]; the length goes through a [uint16_t] parameter. *)
Definition add_hkdf_label (out_len : nat) (label hash : bytes) : ST (cbb_st H) (option bytes * Z) :=
  CBB_add_u16 0 (u16 (Z.of_nat out_len)) ;;;
  CBB_add_u8_length_prefixed 0 ;;;
  CBB_add_bytes 1 kProtocolLabel ;;;
  CBB_add_bytes 1 label ;;;
  CBB_add_u8_length_prefixed 0 ;;;
  CBB_add_bytes 1 hash ;;;
  CBB_finish true.

Definition CRYPTO_tls13_hkdf_expand_label (out_len : nat) (digest : EVP_MD) (secret label hash : bytes) : ST H bytes := fun hp =>
  match CBB_init (u64 (2 + 1 + 6 + Zlen label + 1 + Zlen hash)) hp with
  | (None, cbb) => (None, heap cbb)
  | (Some _, cbb) =>
      match add_hkdf_label out_len label hash cbb with
      | (None, cbb) => (None, heap cbb)
      | (Some (hkdf_label, hkdf_label_len), cbb) =>
          HKDF_expand out_len digest secret (take (Z.to_nat hkdf_label_len) (default [] hkdf_label)) (heap cbb)
      end
  end.

End kdf.

(** * The RFCs *)

(** The first [len] bytes of the blocks [B(i) | B(i+1) | ...] of [size] bytes. *)
Definition prefix_blocks (size : nat) (B : nat -> bytes) (i len : nat) : bytes :=
  take len (concat (B <$> seq i ((len + size - 1) / size))).

(** RFC 5869: [T(0)] is empty, [T(i) = HMAC(PRK, T(i-1) | info | i)]. *)
Fixpoint hkdf_T (t : EVP_MD) (prk info : bytes) (i : nat) : bytes :=
  match i with
  | O => []
  | S i => hmac t prk (hkdf_T t prk info i ++ info ++ [Z.of_nat (S i)])
  end.

Definition hkdf_okm (t : EVP_MD) (prk info : bytes) (len : nat) : bytes :=
  prefix_blocks (EVP_MD_size t) (hkdf_T t prk info) 1 len.

(** RFC 8018, section 5.2: [U_1 = PRF(P, S | INT(i))], [U_j = PRF(P, U_{j-1})], and
    [F] is the exclusive or of the first [c]. *)
Fixpoint pbkdf2_U (t : EVP_MD) (password salt : bytes) (i : Z) (j : nat) : bytes :=
  match j with
  | O => hmac t password (salt ++ be_bytes 4 i)
  | S j => hmac t password (pbkdf2_U t password salt i j)
  end.

Definition pbkdf2_F (t : EVP_MD) (password salt : bytes) (c : nat) (i : Z) : bytes :=
  fold_left (zip_with Z.lxor) (pbkdf2_U t password salt i <$> seq 1 (c - 1)) (pbkdf2_U t password salt i 0).

Definition pbkdf2_dk (t : EVP_MD) (password salt : bytes) (c len : nat) : bytes :=
  prefix_blocks (EVP_MD_size t) (fun i => pbkdf2_F t password salt c (Z.of_nat i)) 1 len.

(** RFC 5246, section 5: [A(0) = seed], [A(i) = HMAC(secret, A(i-1))], and [P_hash] is
    [HMAC(secret, A(1) + seed) + HMAC(secret, A(2) + seed) + ...]. *)
Fixpoint P_hash_A (t : EVP_MD) (secret seed : bytes) (i : nat) : bytes :=
  match i with
  | O => seed
  | S i => hmac t secret (P_hash_A t secret seed i)
  end.

Definition P_hash (t : EVP_MD) (secret seed : bytes) (len : nat) : bytes :=
  prefix_blocks (EVP_MD_size t) (fun i => hmac t secret (P_hash_A t secret seed i ++ seed)) 1 len.

(** RFC 2246, section 5: the halves of the secret share a byte if it is odd. *)
Definition tls1_prf (t : EVP_MD) (secret seed : bytes) (len : nat) : bytes :=
  if bool_decide (t = EVP_md5_sha1) then
    let half := ((length secret + 1) / 2)%nat in
    zip_with Z.lxor (P_hash EVP_md5 (take half secret) seed len)
      (P_hash EVP_sha1 (drop (length secret - half) secret) seed len)
  else P_hash t secret seed len.

(** RFC 8446, section 7.1. *)
Definition hkdf_label (out_len : nat) (label hash : bytes) : bytes :=
  be_bytes 2 (Z.of_nat out_len) ++ [6 + Zlen label] ++ kProtocolLabel ++ label ++ [Zlen hash] ++ hash.
