(* ===== verification/KdfSpec.v ===== *)
(** Key derivation gives what the RFCs say. *)
From S2P Require Import Prelude Mem Evp Hmac Der Cbs Cbb CbbSpec Kdf.

Lemma prefix_blocks_0 size B i : (0 < size)%nat -> prefix_blocks size B i 0 = [].
Proof. done. Qed.

(** A pass of a loop that writes one block at a time. *)
Lemma prefix_blocks_step size B i len :
  (0 < size)%nat -> (0 < len)%nat -> length (B i) = size ->
  let todo := if (len <? size)%nat then len else size in
  prefix_blocks size B i len = take todo (B i) ++ prefix_blocks size B (S i) (len - todo).
Proof.
  intros Hs Hl HB todo. unfold prefix_blocks.
  assert (((len + size - 1) / size)%nat = S ((len - todo + size - 1) / size)) as ->.
  { unfold todo. destruct (Nat.ltb_spec len size).
    - rewrite Nat.sub_diag, (Nat.div_small (0 + size - 1)) by lia. symmetry. apply (Nat.div_unique _ _ _ (len - 1)); lia.
    - replace (len + size - 1)%nat with (len - size + size - 1 + 1 * size)%nat by lia. rewrite Nat.div_add by lia. lia. }
  cbn [seq fmap list_fmap concat]. rewrite take_app, HB. f_equal.
  - unfold todo. destruct (Nat.ltb_spec len size); [done|]. rewrite !take_ge by lia. done.
  - f_equal. unfold todo. destruct (Nat.ltb_spec len size); lia.
Qed.

Lemma length_prefix_blocks size B i len :
  (0 < size)%nat -> (forall j, (i <= j)%nat -> length (B j) = size) -> length (prefix_blocks size B i len) = len.
Proof.
  intros Hs HB. unfold prefix_blocks. rewrite length_take, length_concat.
  assert (forall n i', (i <= i')%nat -> list_sum (length <$> (B <$> seq i' n)) = (n * size)%nat) as Hsum.
  { intros n. induction n as [|n IH]; intros j Hj; cbn; [done|]. by rewrite HB, IH by lia. }
  rewrite Hsum by lia.
  pose proof (Nat.div_mod_eq (len + size - 1) size). pose proof (Nat.mod_upper_bound (len + size - 1) size). lia.
Qed.

Section kdf.
Context {H : Type} `{MallocSpec H}.
Abbreviation no_memory := (~ MallocTotal H).

(** * HKDF *)

Lemma hkdf_expand_loop_ok e t prk info out_len : forall togo i done (ctx : hmac_ctx_st) (hp : H),
  (togo = (out_len - done + EVP_MD_size t - 1) / EVP_MD_size t)%nat -> (done <= out_len)%nat -> (i + togo <= 255)%nat ->
  (if (i =? 0)%nat then hmac_holds t prk [] ctx else hmac_keyed t prk ctx) ->
  ensures e (hkdf_expand_loop t info out_len togo (Z.of_nat i) done (hkdf_T t prk info i)) (ctx, hp)
    (fun out _ => out = prefix_blocks (EVP_MD_size t) (hkdf_T t prk info) (S i) (out_len - done)).
Proof.
  pose proof (EVP_MD_sizes t) as Hs. intros togo. induction togo as [|togo IH]; intros i done ctx hp Htogo Hdone Hi Hctx.
  { apply ensures_ret. pose proof (Nat.div_mod_eq (out_len - done + EVP_MD_size t - 1) (EVP_MD_size t)) as Hd.
    pose proof (Nat.mod_upper_bound (out_len - done + EVP_MD_size t - 1) (EVP_MD_size t) ltac:(lia)).
    replace (out_len - done)%nat with 0%nat by lia. symmetry. apply prefix_blocks_0. lia. }
  cbn [hkdf_expand_loop]. eapply (ensures_bind _ _ _ _ (fun _ s => hmac_holds t prk (hkdf_T t prk info i) s.1)).
  { destruct i as [|i]; cbn [Nat.eqb] in Hctx; [by apply ensures_ret|].
    destruct (Z.eqb_spec (Z.of_nat (S i)) 0); [lia|]. cbn [negb].
    eapply ensures_bind; [by apply HMAC_Init_ex_rewind|]. intros _ [ctx1 hp1] Hc. by apply (HMAC_Update_ok _ t prk []). }
  intros _ [ctx1 hp1] Hc1. eapply ensures_bind; [by apply HMAC_Update_ok|]. intros _ [ctx2 hp2] Hc2.
  eapply ensures_bind; [by apply HMAC_Update_ok|]. intros _ [ctx3 hp3] Hc3.
  eapply ensures_bind; [by apply HMAC_Final_ok|]. intros previous [ctx4 hp4] [-> Hc4]. cbn [fst] in Hc4.
  assert (hmac t prk ((hkdf_T t prk info i ++ info) ++ [u8 (Z.of_nat i + 1)]) = hkdf_T t prk info (S i)) as ->.
  { cbn [hkdf_T]. rewrite <- app_assoc. unfold u8. rewrite Z.mod_small by lia. by replace (Z.of_nat i + 1) with (Z.of_nat (S i)) by lia. }
  set (todo := if (out_len - done <? EVP_MD_size t)%nat then (out_len - done)%nat else EVP_MD_size t).
  assert (0 < out_len - done)%nat as Hpos.
  { apply Nat.neq_0_lt_0. intros E. rewrite E, Nat.div_small in Htogo by lia. lia. }
  assert (todo <= out_len - done)%nat as Htodo by (unfold todo; destruct (Nat.ltb_spec (out_len - done) (EVP_MD_size t)); lia).
  replace (Z.of_nat i + 1) with (Z.of_nat (S i)) by lia.
  eapply ensures_bind.
  - apply (IH (S i) (done + todo)%nat); [|lia|lia|done]. apply Nat.succ_inj. rewrite Htogo. unfold todo.
    destruct (Nat.ltb_spec (out_len - done) (EVP_MD_size t)).
    + replace (out_len - (done + (out_len - done)))%nat with 0%nat by lia.
      rewrite (Nat.div_small (0 + EVP_MD_size t - 1)) by lia. symmetry. apply (Nat.div_unique _ _ _ (out_len - done - 1)); lia.
    + replace (out_len - done + EVP_MD_size t - 1)%nat
        with (out_len - (done + EVP_MD_size t) + EVP_MD_size t - 1 + 1 * EVP_MD_size t)%nat by lia.
      rewrite Nat.div_add by lia. lia.
  - intros rest s ->. apply ensures_ret. rewrite (prefix_blocks_step _ _ (S i)); [|lia|done|apply length_hmac].
    fold todo. f_equal. f_equal. lia.
Qed.

Lemma HKDF_expand_ok t prk info out_len (hp : H) :
  Z.of_nat out_len <= SIZE_MAX ->
  if (255 * EVP_MD_size t <? out_len)%nat then HKDF_expand out_len t prk info hp = (None, hp)
  else ensures no_memory (HKDF_expand out_len t prk info) hp (fun out _ => out = hkdf_okm t prk info out_len).
Proof.
  intros Hlen. unfold SIZE_MAX in Hlen. pose proof (EVP_MD_sizes t) as Hs. pose proof (EVP_MD_size_max t) as Hmax.
  unfold HKDF_expand. cbv zeta. set (size := Z.of_nat (EVP_MD_size t)).
  assert (0 < size <= 64) as Hsize by (unfold size; lia).
  destruct (Z.ltb_spec (u64 (Z.of_nat out_len + size)) (Z.of_nat out_len)) as [Hwrap|Hwrap].
  { cbn [orb]. destruct (Nat.ltb_spec (255 * EVP_MD_size t) out_len) as [|Hsmall]; [done|].
    unfold u64 in Hwrap. rewrite Z.mod_small in Hwrap by lia. lia. }
  assert (Z.of_nat out_len + size < 2 ^ 64) as Hnowrap.
  { destruct (Z.lt_ge_cases (Z.of_nat out_len + size) (2 ^ 64)) as [|Hge]; [done|]. exfalso. unfold u64 in Hwrap.
    replace (Z.of_nat out_len + size) with (Z.of_nat out_len + size - 2 ^ 64 + 1 * 2 ^ 64) in Hwrap by lia.
    rewrite Z.mod_add, Z.mod_small in Hwrap by lia. lia. }
  cbn [orb]. unfold u64. rewrite (Z.mod_small (Z.of_nat out_len + size - 1)) by lia.
  assert ((Z.of_nat out_len + size - 1) / size = Z.of_nat ((out_len + EVP_MD_size t - 1) / EVP_MD_size t)) as ->.
  { unfold size. rewrite Nat2Z.inj_div. f_equal. lia. }
  set (n := ((out_len + EVP_MD_size t - 1) / EVP_MD_size t)%nat).
  pose proof (Nat.div_mod_eq (out_len + EVP_MD_size t - 1) (EVP_MD_size t)) as Hn. fold n in Hn.
  pose proof (Nat.mod_upper_bound (out_len + EVP_MD_size t - 1) (EVP_MD_size t) ltac:(lia)) as Hmod.
  destruct (Nat.ltb_spec (255 * EVP_MD_size t) out_len) as [Hlarge|Hsmall]; destruct (Z.ltb_spec 255 (Z.of_nat n)); [done|nia|nia|].
  apply with_hmac_ctx_ok. eapply ensures_bind; [by apply (HMAC_Init_ex_key t (Some prk)); [apply hmac_init_valid|left|left]|].
  intros _ [ctx hp1] Hctx. rewrite Nat2Z.id. eapply ensures_mono.
  - apply (hkdf_expand_loop_ok _ t prk info out_len n 0 0); [by rewrite Nat.sub_0_r|lia|lia|exact Hctx].
  - intros out s ->. by rewrite Nat.sub_0_r.
Qed.

Lemma HKDF_ok t secret salt info out_len (hp : H) :
  Z.of_nat out_len <= SIZE_MAX -> (out_len <= 255 * EVP_MD_size t)%nat ->
  ensures no_memory (HKDF out_len t secret salt info) hp (fun out _ =>
    out = hkdf_okm t (hmac t (default [] salt) secret) info out_len).
Proof.
  intros Hlen Hmax. unfold HKDF, HKDF_extract. eapply ensures_bind; [apply HMAC_ok|]. intros prk hp' ->.
  pose proof (HKDF_expand_ok t (hmac t (default [] salt) secret) info out_len hp' Hlen) as Hx.
  destruct (Nat.ltb_spec (255 * EVP_MD_size t) out_len); [lia|done].
Qed.

(** * PBKDF2 *)

Lemma i_buf_eq i : 0 <= i -> i_buf i = be_bytes 4 i.
Proof.
  intros Hi. unfold i_buf, u8. change 0xff with (Z.ones 8). rewrite !Z.land_ones, !Zmod_mod, !Z.shiftr_div_pow2 by lia.
  change (be_bytes 4 i) with [i / 256 / 256 / 256 mod 256; i / 256 / 256 mod 256; i / 256 mod 256; i mod 256].
  rewrite !Z.div_div by lia. done.
Qed.

Lemma length_pbkdf2_U t p salt i j : length (pbkdf2_U t p salt i j) = EVP_MD_size t.
Proof. destruct j; apply length_hmac. Qed.

Lemma zip_with_take (f : Z -> Z -> Z) n (a b : bytes) : zip_with f (take n a) b = take n (zip_with f a b).
Proof. revert a b. induction n as [|n IH]; intros [|x a] [|y b]; cbn; [done..|]. by rewrite IH. Qed.

Lemma pbkdf2_xor_ok e t p salt i : forall togo j n acc (ctx : hmac_ctx_st) (hp : H),
  hmac_keyed t p ctx ->
  ensures e (pbkdf2_xor togo (pbkdf2_U t p salt i j) (take n acc)) (ctx, hp) (fun out s =>
    out = take n (fold_left (zip_with Z.lxor) (pbkdf2_U t p salt i <$> seq (S j) togo) acc) /\ hmac_keyed t p s.1).
Proof.
  intros togo. induction togo as [|togo IH]; intros j n acc ctx hp Hctx; cbn [pbkdf2_xor seq fmap list_fmap fold_left];
    [by apply ensures_ret|].
  eapply ensures_bind; [by apply HMAC_Init_ex_rewind|]. intros _ [ctx1 hp1] Hc1.
  eapply ensures_bind; [by apply (HMAC_Update_ok _ t p [])|]. intros _ [ctx2 hp2] Hc2.
  eapply ensures_bind; [by apply HMAC_Final_ok|]. intros tmp [ctx3 hp3] [-> Hc3]. cbn [fst app] in *.
  change (hmac t p (pbkdf2_U t p salt i j)) with (pbkdf2_U t p salt i (S j)). rewrite zip_with_take. by apply IH.
Qed.

Lemma length_zip_lxor (a b : bytes) : length b = length a -> length (zip_with Z.lxor a b) = length a.
Proof. intros Hb. rewrite length_zip_with. lia. Qed.

Lemma length_pbkdf2_F t p salt c i : length (pbkdf2_F t p salt c i) = EVP_MD_size t.
Proof.
  unfold pbkdf2_F. generalize (length_pbkdf2_U t p salt i 0). generalize (pbkdf2_U t p salt i 0) as acc.
  induction (seq 1 (c - 1)) as [|j l IH]; intros acc Hacc; cbn; [done|].
  apply IH. rewrite length_zip_lxor; [done|]. by rewrite length_pbkdf2_U.
Qed.

(** The counter of 32 bits wraps. *)
Lemma pbkdf2_F_wrap t p salt c i : pbkdf2_F t p salt c (u32 i) = pbkdf2_F t p salt c i.
Proof.
  assert (forall j, pbkdf2_U t p salt (u32 i) j = pbkdf2_U t p salt i j) as HU.
  { intros j. induction j as [|j IH]; cbn [pbkdf2_U]; [|by rewrite IH].
    unfold u32. change (2 ^ 32) with (256 ^ Z.of_nat 4). by rewrite be_bytes_mod. }
  unfold pbkdf2_F. rewrite HU. f_equal. apply list_fmap_ext. intros k j _. apply HU.
Qed.

Lemma pbkdf2_loop_ok e t p salt iterations : forall fuel key_len i (ctx : hmac_ctx_st) (hp : H),
  (key_len < fuel)%nat -> hmac_keyed t p ctx ->
  ensures e (pbkdf2_loop fuel t salt iterations key_len (u32 (Z.of_nat i))) (ctx, hp) (fun out _ =>
    out = prefix_blocks (EVP_MD_size t) (fun i => pbkdf2_F t p salt (Z.to_nat (Z.max 1 iterations)) (Z.of_nat i)) i key_len).
Proof.
  pose proof (EVP_MD_sizes t) as Hs. intros fuel. induction fuel as [|fuel IH]; intros key_len i ctx hp Hfuel Hctx; [lia|].
  cbn [pbkdf2_loop]. destruct (Nat.eqb_spec key_len 0) as [->|Hpos]; [by apply ensures_ret; rewrite prefix_blocks_0 by lia|].
  set (todo := if (key_len <? EVP_MD_size t)%nat then key_len else EVP_MD_size t).
  assert (0 < todo <= key_len)%nat as Htodo by (unfold todo; destruct (Nat.ltb_spec key_len (EVP_MD_size t)); lia).
  eapply ensures_bind; [by apply HMAC_Init_ex_rewind|]. intros _ [ctx1 hp1] Hc1.
  eapply ensures_bind; [by apply (HMAC_Update_ok _ t p [])|]. intros _ [ctx2 hp2] Hc2.
  eapply ensures_bind; [by apply HMAC_Update_ok|]. intros _ [ctx3 hp3] Hc3.
  eapply ensures_bind; [by apply HMAC_Final_ok|]. intros tmp [ctx4 hp4] [-> Hc4]. cbn [fst app] in *.
  rewrite i_buf_eq by (apply Z.mod_pos_bound; lia).
  change (hmac t p (salt ++ be_bytes 4 (u32 (Z.of_nat i)))) with (pbkdf2_U t p salt (u32 (Z.of_nat i)) 0).
  eapply ensures_bind; [by apply pbkdf2_xor_ok|]. intros out [ctx5 hp5] [-> Hc5]. cbn [fst] in Hc5.
  assert (u32 (u32 (Z.of_nat i) + 1) = u32 (Z.of_nat (S i))) as ->.
  { unfold u32. rewrite Zplus_mod_idemp_l. f_equal. lia. }
  eapply ensures_bind; [apply IH; [lia|done]|]. intros rest s ->. apply ensures_ret.
  rewrite (prefix_blocks_step _ _ i key_len); [|lia|lia|apply length_pbkdf2_F]. fold todo. f_equal.
  rewrite <- pbkdf2_F_wrap. unfold pbkdf2_F. by replace (Z.to_nat (Z.max 1 iterations) - 1)%nat with (Z.to_nat (iterations - 1)) by lia.
Qed.

(** * TLS 1.2 *)

Lemma hmac_do_ok e m ctx (hp : H) (P : hmac_ctx_st -> Prop) :
  ensures e m (ctx, hp) (fun _ s => P s.1) -> ensures e (hmac_do m ctx) hp (fun c _ => P c).
Proof. unfold ensures, hmac_do. by destruct (m (ctx, hp)) as [[[]|] [ctx' hp']]. Qed.

Lemma hmac_final_ok e t k m ctx (hp : H) :
  hmac_holds t k m ctx -> ensures e (hmac_final ctx) hp (fun r _ => r.1 = hmac t k m /\ hmac_keyed t k r.2).
Proof.
  intros Hc. pose proof (HMAC_Final_ok e t k m ctx hp Hc) as Hf. unfold ensures, hmac_final in *.
  by destruct (HMAC_Final (ctx, hp)) as [[out|] [ctx' hp']].
Qed.

Lemma update_seeds_ok e t k m label seed1 seed2 ctx (hp : H) :
  hmac_holds t k m ctx ->
  ensures e (update_seeds label seed1 seed2) (ctx, hp) (fun _ s => hmac_holds t k (m ++ label ++ seed1 ++ seed2) s.1).
Proof.
  intros Hc. unfold update_seeds. rewrite !app_assoc.
  eapply ensures_bind; [by apply HMAC_Update_ok|]. intros _ [ctx1 hp1] Hc1.
  eapply ensures_bind; [by apply HMAC_Update_ok|]. intros _ [ctx2 hp2] Hc2. by apply HMAC_Update_ok.
Qed.

Lemma zip_with_split n (out X Y : bytes) :
  length (take n out) = length (take n X) ->
  zip_with Z.lxor out (take n X ++ Y) = zip_with Z.lxor (take n out) (take n X) ++ zip_with Z.lxor (drop n out) Y.
Proof. intros Hl. rewrite <- (take_drop n out) at 1. by rewrite zip_with_app. Qed.

(** A copy of a keyed context goes on with more input. *)
Lemma copy_then_ok t k m m' src dest (k' : ST (hmac_ctx_st * H) unit) (hp : H) :
  hmac_holds t k m src ->
  (forall ctx hp, hmac_holds t k m ctx -> ensures no_memory k' (ctx, hp) (fun _ s => hmac_holds t k m' s.1)) ->
  ensures no_memory (hmac_do (HMAC_CTX_copy_ex src ;;; k') dest) hp (fun c _ => hmac_holds t k m' c).
Proof.
  intros Hsrc Hk. apply hmac_do_ok. eapply ensures_bind; [by eapply HMAC_CTX_copy_ex_ok|].
  intros _ [ctx hp'] E. cbn [fst] in E. subst ctx. by apply Hk.
Qed.

Section P_hash.
Context (t : EVP_MD) (secret label seed1 seed2 : bytes).
Abbreviation seed := (label ++ seed1 ++ seed2).
Abbreviation A := (P_hash_A t secret seed).
Abbreviation B := (fun i => hmac t secret (A i ++ seed)).

Lemma tls1_P_hash_loop_ok : forall fuel i ctx_init ctx ctx_tmp out (hp : H),
  (length out < fuel)%nat -> hmac_holds t secret [] ctx_init ->
  ensures no_memory (tls1_P_hash_loop fuel (EVP_MD_size t) label seed1 seed2 ctx_init ctx ctx_tmp (A i) out) hp
    (fun o _ => o = zip_with Z.lxor out (prefix_blocks (EVP_MD_size t) B i (length out))).
Proof.
  pose proof (EVP_MD_sizes t) as Hs. intros fuel. induction fuel as [|fuel IH]; intros i ctx_init ctx ctx_tmp out hp Hfuel Hinit; [lia|].
  cbn [tls1_P_hash_loop]. eapply ensures_bind.
  { eapply copy_then_ok; [exact Hinit|]. intros c hp1 Hc. by apply HMAC_Update_ok. }
  intros c1 hp1 Hc1. cbn [app] in Hc1.
  eapply (ensures_bind _ _ _ _ (fun c _ => (EVP_MD_size t < length out)%nat -> hmac_holds t secret (A i) c)).
  { destruct (Nat.ltb_spec (EVP_MD_size t) (length out)); [|apply ensures_ret; lia].
    apply hmac_do_ok. eapply ensures_mono; [by eapply HMAC_CTX_copy_ex_ok|]. by intros _ [c hp2] ->. }
  intros ctx_tmp' hp2 Htmp. eapply ensures_bind; [apply hmac_do_ok; by apply update_seeds_ok|].
  intros c2 hp3 Hc2. eapply ensures_bind; [exact (hmac_final_ok _ _ _ _ _ _ Hc2)|]. intros [hm c3] hp4 [-> Hc3]. cbn [fst snd]. cbv zeta.
  rewrite length_hmac. set (len := if (length out <? EVP_MD_size t)%nat then length out else EVP_MD_size t).
  destruct (Nat.eq_dec (length out) 0) as [Hnil|Hpos].
  { apply nil_length_inv in Hnil. subst out. clearbody len. rewrite !take_nil, drop_nil. reflexivity. }
  rewrite (prefix_blocks_step _ B i (length out)); [|lia|lia|apply length_hmac]. cbv zeta. fold len.
  assert (0 < len <= length out)%nat as Hlen by (unfold len; destruct (Nat.ltb_spec (length out) (EVP_MD_size t)); lia).
  rewrite zip_with_split.
  2:{ rewrite !length_take, length_hmac. unfold len. destruct (Nat.ltb_spec (length out) (EVP_MD_size t)); lia. }
  rewrite length_drop. destruct (Nat.eqb_spec (length out - len) 0) as [E|E].
  - apply ensures_ret. rewrite E, prefix_blocks_0 by lia. rewrite zip_with_nil_r. by rewrite app_nil_r.
  - assert (EVP_MD_size t < length out)%nat as Hlt by (unfold len in E; destruct (Nat.ltb_spec (length out) (EVP_MD_size t)); lia).
    eapply ensures_bind; [apply hmac_final_ok, Htmp, Hlt|]. intros [A1 c4] hp5 [-> Hc4]. cbn [fst snd].
    change (hmac t secret (A i)) with (A (S i)).
    eapply ensures_bind; [apply IH; [rewrite length_drop; lia|exact Hinit]|]. intros rest hp6 ->. apply ensures_ret.
    by rewrite length_drop.
Qed.

Lemma tls1_P_hash_ok out (hp : H) :
  ensures no_memory (tls1_P_hash out t secret label seed1 seed2) hp
    (fun o _ => o = zip_with Z.lxor out (P_hash t secret seed (length out))).
Proof.
  unfold tls1_P_hash. cbv zeta. eapply ensures_bind.
  { apply hmac_do_ok. apply (HMAC_Init_ex_key t (Some secret)); [apply hmac_init_valid|by left|by left]. }
  intros ctx_init hp1 Hinit. cbn [default] in Hinit. eapply ensures_bind.
  { eapply copy_then_ok; [exact Hinit|]. intros c hp2 Hc. by apply update_seeds_ok. }
  intros c1 hp2 Hc1. cbn [app] in Hc1. eapply ensures_bind; [by apply hmac_final_ok|]. intros [A1 c2] hp3 [-> Hc2]. cbn [fst snd].
  change (hmac t secret seed) with (A 1). apply (tls1_P_hash_loop_ok (S (length out)) 1); [lia|done].
Qed.

End P_hash.

Lemma length_P_hash t secret seed len : length (P_hash t secret seed len) = len.
Proof. pose proof (EVP_MD_sizes t). apply length_prefix_blocks; [lia|]. intros j _. apply length_hmac. Qed.

Lemma zip_lxor_0 n (l : bytes) : length l = n -> zip_with Z.lxor (replicate n 0) l = l.
Proof. intros <-. induction l as [|x l IH]; cbn; [done|]. by rewrite IH. Qed.

Lemma CRYPTO_tls1_prf_ok t out_len secret label seed1 seed2 (hp : H) :
  ensures no_memory (CRYPTO_tls1_prf t out_len secret label seed1 seed2) hp (fun out _ =>
    out = tls1_prf t secret (label ++ seed1 ++ seed2) out_len).
Proof.
  unfold CRYPTO_tls1_prf, tls1_prf. destruct (Nat.eqb_spec out_len 0) as [->|Hpos].
  { apply ensures_ret. by case_bool_decide. }
  cbv zeta. case_bool_decide as Ht.
  - assert (length secret - length secret / 2 = (length secret + 1) / 2)%nat as ->.
    { pose proof (Nat.div_mod_eq (length secret) 2). pose proof (Nat.mod_upper_bound (length secret) 2 ltac:(lia)).
      apply (Nat.div_unique _ _ _ (1 - length secret mod 2)); lia. }
    set (half := ((length secret + 1) / 2)%nat).
    assert (half <= length secret)%nat as Hhalf.
    { unfold half. pose proof (Nat.div_mod_eq (length secret + 1) 2). pose proof (Nat.mod_upper_bound (length secret + 1) 2 ltac:(lia)). lia. }
    rewrite (take_ge (drop (length secret - half) secret)) by (rewrite length_drop; lia).
    eapply ensures_bind; [apply tls1_P_hash_ok|]. intros out hp1 ->. rewrite length_replicate, zip_lxor_0 by apply length_P_hash.
    eapply ensures_mono; [apply tls1_P_hash_ok|]. intros out hp2 ->. by rewrite length_P_hash.
  - eapply ensures_mono; [apply tls1_P_hash_ok|]. intros out hp2 ->.
    by rewrite length_replicate, zip_lxor_0 by apply length_P_hash.
Qed.

(** * TLS 1.3 *)

(** A call that ends in [CBB_finish], with the bytes [sp]. *)
Definition finishes (s : cbb_st H) (sp : option bytes) (r : option (option bytes * Z) * cbb_st H) : Prop :=
  match r with
  | (Some (p, n), _) => sp = Some (take (Z.to_nat n) (default [] p))
  | (None, _) => forall b, sp = Some b -> ~ fits s (Zlen b)
  end.

Lemma finishes_seq {A} (m : ST (cbb_st H) A) (k : A -> ST (cbb_st H) (option bytes * Z)) s a sp :
  outcome s (Some a) (m s) -> (forall x s', rep s' a -> finishes s' sp (k x s')) ->
  (forall b, sp = Some b -> msg_size a <= Zlen b) -> finishes s sp (st_bind m k s).
Proof.
  intros Hm Hk Hsz. unfold st_bind. destruct (m s) as [[x|] s'].
  - destruct Hm as (a' & [= <-] & Hrep & Hf). specialize (Hk x s' Hrep). unfold finishes in *.
    destruct (k x s') as [[[p n]|] s'']; [done|]. intros b Hb Hs. apply (Hk b Hb). apply Hf; [done|by apply Hsz].
  - intros b Hb Hs. destruct Hm as [_ Hm]. apply (Hm a eq_refl). eapply fits_mono; [exact Hs|by apply Hsz].
Qed.

Lemma finishes_none {A} (m : ST (cbb_st H) A) (k : A -> ST (cbb_st H) (option bytes * Z)) s :
  outcome s None (m s) -> finishes s None (st_bind m k s).
Proof. unfold st_bind. destruct (m s) as [[x|] s']; [by intros (a & ? & _)|done]. Qed.

Lemma finish_finishes (s : cbb_st H) a : rep s a -> finishes s (close a.1 a.2) (CBB_finish true s).
Proof.
  intros Hrep. destruct (CBB_finish true s) as [[[p n]|] s'] eqn:E.
  - destruct (finish_ok s a p n s' true Hrep E) as (b & Hb & _ & Htake). unfold finishes. by rewrite Htake.
  - intros b Hb. pose proof (flush_outcome 0 s a Hrep ltac:(lia)) as Hf. unfold CBB_finish, st_bind in E.
    destruct (CBB_flush 0 s) as [[[]|] s1].
    + rewrite andb_false_r in E. discriminate.
    + destruct Hf as [_ Hf]. unfold sp_flush in Hf. cbn [close_at] in Hf. rewrite Hb in Hf.
      intros Hs. apply (Hf _ eq_refl). unfold msg_size. cbn. exact Hs.
Qed.

Lemma Zlen_hkdf_label n label hash : Zlen (hkdf_label n label hash) = 10 + Zlen label + Zlen hash.
Proof.
  unfold hkdf_label. rewrite !Zlen_app, Zlen_be_bytes.
  change (Zlen kProtocolLabel) with 6. change (Zlen [6 + Zlen label]) with 1. change (Zlen [Zlen hash]) with 1. lia.
Qed.

(** One length-prefixed vector of the label. *)
Lemma vector_flush c (a : bytes) :
  0 <= Zlen c -> sp_flush 0 (a, [(LenPrefix 1, c)]) = if Zlen c <=? 255 then Some (a ++ [Zlen c] ++ c, []) else None.
Proof.
  intros Hc. unfold sp_flush. cbn [fst snd close_at close encode]. change (256 ^ Z.of_nat 1) with 256.
  destruct (Z.ltb_spec (Zlen c) 256), (Z.leb_spec (Zlen c) 255); [|lia..|done].
  rewrite be_bytes_S, Z.mod_small by lia. done.
Qed.

Lemma add_hkdf_label_ok out_len label hash (s : cbb_st H) :
  rep s ([], []) -> Zlen label + Zlen hash <= 2 ^ 62 -> 
  finishes s
    (if (6 + Zlen label <=? 255) && (Zlen hash <=? 255) then Some (hkdf_label (Z.to_nat (u16 (Z.of_nat out_len))) label hash) else None)
    (add_hkdf_label out_len label hash s).
Proof.
  intros Hrep Hlen. pose proof (Zlen_nonneg label). pose proof (Zlen_nonneg hash).
  unfold add_hkdf_label. set (w := Z.to_nat (u16 (Z.of_nat out_len))).
  assert (u16 (Z.of_nat out_len) = Z.of_nat w) as -> by (unfold w; rewrite Z2Nat.id by (apply Z.mod_pos_bound; lia); done).
  assert (Z.of_nat w < 65536) as Hv by (unfold w; rewrite Z2Nat.id; apply Z.mod_pos_bound; lia). clearbody w.
  remember (if (6 + Zlen label <=? 255) && (Zlen hash <=? 255) then Some (hkdf_label w label hash) else None) as sp eqn:Hsp.
  assert (forall b, sp = Some b -> 10 + Zlen label + Zlen hash <= Zlen b) as Hsz.
  { intros b Hb. destruct (_ && _) in Hsp; [|congruence]. assert (b = hkdf_label w label hash) as -> by congruence.
    by rewrite Zlen_hkdf_label. }
  set (l2 := be_bytes 2 (Z.of_nat w)) in *. assert (Zlen l2 = 2) as Hl2 by apply Zlen_be_bytes.
  (* the length of the output *)
  eapply (finishes_seq _ _ _ (l2, [])).
  { pose proof (add_u_ok 0 s ([], []) (Z.of_nat w) 2 Hrep ltac:(cbn; lia) ltac:(lia) ltac:(lia)) as Ho.
    destruct (Z.ltb_spec (Z.of_nat w) (256 ^ Z.of_nat 2)); [exact Ho|cbn in *; lia]. }
  2:{ intros b Hb. apply Hsz in Hb. unfold msg_size. cbn [flatten fst snd]. lia. }
  intros _ s1 Hr1. eapply (finishes_seq _ _ _ (l2, [(LenPrefix 1, [])])).
  { exact (add_length_prefixed_ok 0 s1 _ 1 Hr1 ltac:(cbn; lia) ltac:(lia)). }
  2:{ intros b Hb. apply Hsz in Hb. unfold msg_size. cbn [flatten fst snd prefix_len replicate]. rewrite ?Zlen_app, Hl2. unfold Zlen in *. cbn in *. lia. }
  intros _ s2 Hr2. eapply (finishes_seq _ _ _ (l2, [(LenPrefix 1, kProtocolLabel)])).
  { exact (add_bytes_ok 1 s2 _ kProtocolLabel Hr2 ltac:(cbn; lia) ltac:(done)). }
  2:{ intros b Hb. apply Hsz in Hb. unfold msg_size. cbn [flatten fst snd prefix_len replicate]. rewrite ?Zlen_app, Hl2. unfold Zlen in *. cbn in *. lia. }
  intros _ s3 Hr3. eapply (finishes_seq _ _ _ (l2, [(LenPrefix 1, kProtocolLabel ++ label)])).
  { exact (add_bytes_ok 1 s3 _ label Hr3 ltac:(cbn; lia) ltac:(unfold SIZE_MAX; lia)). }
  2:{ intros b Hb. apply Hsz in Hb. unfold msg_size. cbn [flatten fst snd prefix_len replicate]. rewrite ?Zlen_app, Hl2. unfold Zlen in *. cbn in *. lia. }
  intros _ s4 Hr4.
  assert (Zlen (kProtocolLabel ++ label) = 6 + Zlen label) as Hl by (by rewrite Zlen_app).
  pose proof (add_length_prefixed_ok 0 s4 _ 1 Hr4 ltac:(cbn; lia) ltac:(lia)) as Hchild.
  unfold sp_child in Hchild. rewrite vector_flush, Hl in Hchild by lia.
  destruct (Z.leb_spec (6 + Zlen label) 255) as [Hfit|Hfit]; [|rewrite Hsp; by apply finishes_none].
  cbn [andb] in Hsp. set (l3 := l2 ++ [6 + Zlen label] ++ kProtocolLabel ++ label) in *.
  assert (Zlen l3 = 9 + Zlen label) as Hl3 by (unfold l3; rewrite !Zlen_app, Hl2; unfold Zlen; cbn; lia).
  eapply (finishes_seq _ _ _ (l3, [(LenPrefix 1, [])])).
  { exact Hchild. }
  2:{ intros b Hb. apply Hsz in Hb. unfold msg_size. cbn [flatten fst snd prefix_len replicate]. rewrite ?Zlen_app, Hl3. unfold Zlen in *. cbn in *. lia. }
  intros _ s5 Hr5. eapply (finishes_seq _ _ _ (l3, [(LenPrefix 1, hash)])).
  { exact (add_bytes_ok 1 s5 _ hash Hr5 ltac:(cbn; lia) ltac:(unfold SIZE_MAX; lia)). }
  2:{ intros b Hb. apply Hsz in Hb. unfold msg_size. cbn [flatten fst snd prefix_len replicate]. rewrite ?Zlen_app, Hl3. unfold Zlen in *. cbn in *. lia. }
  intros _ s6 Hr6. pose proof (finish_finishes s6 _ Hr6) as Hf. cbn [fst snd close encode] in Hf.
  change (256 ^ Z.of_nat 1) with 256 in Hf. rewrite Hsp.
  destruct (Z.leb_spec (Zlen hash) 255), (Z.ltb_spec (Zlen hash) 256); [|lia..|exact Hf].
  rewrite be_bytes_S, Z.mod_small in Hf by lia. unfold l3, l2 in Hf. unfold hkdf_label. rewrite <- !app_assoc in Hf. exact Hf.
Qed.

Lemma CRYPTO_tls13_hkdf_expand_label_ok t out_len secret label hash (hp : H) :
  Z.of_nat out_len <= SIZE_MAX -> Zlen label + Zlen hash <= 2 ^ 61 ->
  if (6 + Zlen label <=? 255) && (Zlen hash <=? 255) && (out_len <=? 255 * EVP_MD_size t)%nat
  then ensures no_memory (CRYPTO_tls13_hkdf_expand_label out_len t secret label hash) hp
    (fun out _ => out = hkdf_okm t secret (hkdf_label out_len label hash) out_len)
  else fst (CRYPTO_tls13_hkdf_expand_label out_len t secret label hash hp) = None.
Proof.
  intros Hout Hlen. pose proof (Zlen_nonneg label). pose proof (Zlen_nonneg hash). pose proof (EVP_MD_size_max t).
  unfold ensures, CRYPTO_tls13_hkdf_expand_label. replace (2 + 1 + 6 + Zlen label + 1 + Zlen hash) with (10 + Zlen label + Zlen hash) by lia.
  unfold u64. rewrite Z.mod_small by lia. set (n := 10 + Zlen label + Zlen hash).
  destruct (CBB_init n hp) as [[[]|] s0] eqn:Hi.
  2:{ destruct (_ && _ && _); [|done]. intros Ht. destruct (OPENSSL_malloc_total n hp ltac:(unfold n; lia)) as (b & hp' & E).
      unfold CBB_init in Hi. by rewrite E in Hi. }
  destruct (init_rep n hp s0 ltac:(unfold n, SIZE_MAX; lia) Hi) as (Hrep & Hcap & _).
  pose proof (add_hkdf_label_ok out_len label hash s0 Hrep ltac:(lia)) as Hf.
  destruct (add_hkdf_label out_len label hash s0) as [[[p l]|] s1].
  - unfold finishes in Hf. destruct (_ && _); [|done]. apply (inj Some) in Hf. rewrite <- Hf. cbn [andb].
    pose proof (HKDF_expand_ok t secret (hkdf_label (Z.to_nat (u16 (Z.of_nat out_len))) label hash) out_len (heap s1) Hout) as Hx.
    destruct (Nat.ltb_spec (255 * EVP_MD_size t) out_len), (Nat.leb_spec out_len (255 * EVP_MD_size t)); [lia|by rewrite Hx| |lia].
    assert (Z.to_nat (u16 (Z.of_nat out_len)) = out_len) as E by (unfold u16; rewrite Z.mod_small by lia; lia).
    rewrite E in *. exact Hx.
  - unfold finishes in Hf. destruct (_ && _); [|done]. exfalso. apply (Hf _ eq_refl). left. rewrite Zlen_hkdf_label, Hcap. done.
Qed.

(** * Properties *)

(** C23. HKDF is that of RFC 5869 for every digest: expansion asks for at most 255
    blocks, fails on more, and otherwise writes the blocks
    [T(i) = HMAC(PRK, T(i-1) | info | i)], cut to the length asked for; with the
    extraction in front it is [HKDF].  Apart from a length that is too large, only
    the allocator can make it fail. *)
Theorem HKDF_rfc5869 t prk secret salt info out_len (hp : H) :
  Z.of_nat out_len <= SIZE_MAX ->
  (if (255 * EVP_MD_size t <? out_len)%nat then HKDF_expand out_len t prk info hp = (None, hp)
   else ensures (~ MallocTotal H) (HKDF_expand out_len t prk info) hp (fun out _ =>
     out = hkdf_okm t prk info out_len /\ length out = out_len)) /\
  ((out_len <= 255 * EVP_MD_size t)%nat ->
   ensures (~ MallocTotal H) (HKDF out_len t secret salt info) hp (fun out _ =>
     out = hkdf_okm t (hmac t (default [] salt) secret) info out_len)).
Proof.
  intros Hlen. split; [|by apply HKDF_ok]. pose proof (HKDF_expand_ok t prk info out_len hp Hlen) as Hx.
  destruct (255 * EVP_MD_size t <? out_len)%nat; [done|]. eapply ensures_mono; [exact Hx|]. intros out s ->. split; [done|].
  pose proof (EVP_MD_sizes t). apply length_prefix_blocks; [lia|]. intros [|j] Hj; [lia|apply length_hmac].
Qed.

(** C24. PBKDF2 is that of RFC 8018 with HMAC: the key is the first bytes of the
    blocks [F(P, S, c, i)], each the exclusive or of [c] iterated codes.  Only the
    allocator can stop it.  A count of no iterations gives the key of one and the
    result 0.  The block number is taken modulo [2^32]: where the RFC refuses to
    derive more than [2^32 - 1] blocks, the blocks come again. *)
Theorem PKCS5_PBKDF2_HMAC_rfc8018 t password salt iterations key_len (hp : H) :
  ensures (~ MallocTotal H) (PKCS5_PBKDF2_HMAC password salt iterations t key_len) hp (fun r _ =>
    r.1 = pbkdf2_dk t password salt (Z.to_nat (Z.max 1 iterations)) key_len /\ length r.1 = key_len /\
    (r.2 = if iterations =? 0 then 0 else 1) /\
    forall c i, pbkdf2_F t password salt c (i + 2 ^ 32) = pbkdf2_F t password salt c i).
Proof.
  apply (with_hmac_ctx_ok (A := bytes * Z)). eapply ensures_bind; [by apply (HMAC_Init_ex_key t (Some password)); [apply hmac_init_valid|left|left]|].
  intros _ [ctx hp1] [Hctx _]. eapply ensures_bind; [apply (pbkdf2_loop_ok _ t password salt iterations (S key_len) key_len 1); [lia|done]|].
  intros out s ->. apply ensures_ret. pose proof (EVP_MD_sizes t). split; [done|]. split; [|split; [done|]].
  - apply length_prefix_blocks; [lia|]. intros j _. apply length_pbkdf2_F.
  - intros c i. rewrite <- (pbkdf2_F_wrap _ _ _ _ (i + 2 ^ 32)), <- (pbkdf2_F_wrap _ _ _ _ i). f_equal. unfold u32.
    rewrite <- (Z.mul_1_l (2 ^ 32)) at 1. by rewrite Z.mod_add.
Qed.

(** C25. The key derivation of TLS 1.0 to 1.2 is that of RFC 2246 and RFC 5246: with
    one digest it is [P_hash] over the label and the seeds, and with MD5 and SHA-1
    the exclusive or of both, each with its half of the secret, the middle byte of
    an odd secret in both.  Only the allocator can make it fail. *)
Theorem CRYPTO_tls1_prf_rfc5246 t out_len secret label seed1 seed2 (hp : H) :
  ensures (~ MallocTotal H) (CRYPTO_tls1_prf t out_len secret label seed1 seed2) hp (fun out _ =>
    out = tls1_prf t secret (label ++ seed1 ++ seed2) out_len).
Proof. apply CRYPTO_tls1_prf_ok. Qed.

(** C22. [HKDF-Expand-Label] of TLS 1.3: the label that the writer [CBB] builds is the
    structure of RFC 8446, and the result is its expansion.  It fails, before
    anything is derived, exactly for a label or a context that does not fit the
    byte for its length and for more output than HKDF gives, or without memory. *)
Theorem CRYPTO_tls13_hkdf_expand_label_rfc8446 t out_len secret label hash (hp : H) :
  Z.of_nat out_len <= SIZE_MAX -> Zlen label + Zlen hash <= 2 ^ 61 ->
  if (6 + Zlen label <=? 255) && (Zlen hash <=? 255) && (out_len <=? 255 * EVP_MD_size t)%nat
  then ensures (~ MallocTotal H) (CRYPTO_tls13_hkdf_expand_label out_len t secret label hash) hp
    (fun out _ => out = hkdf_okm t secret (hkdf_label out_len label hash) out_len)
  else fst (CRYPTO_tls13_hkdf_expand_label out_len t secret label hash hp) = None.
Proof. apply CRYPTO_tls13_hkdf_expand_label_ok. Qed.

End kdf.

(** * Test vectors and witnesses *)

(** The first test of RFC 5869. *)
Example HKDF_sha256_rfc5869 :
  fst (HKDF 42 EVP_sha256 (replicate 22 0x0b) (Some (be_bytes 13 0x000102030405060708090a0b0c)) (be_bytes 10 0xf0f1f2f3f4f5f6f7f8f9) tt) =
  Some (be_bytes 42 0x3cb25f25faacd57a90434f64d0362f2a2d2d0a90cf1a5a4c5db02d56ecc4c5bf34007208d5b887185865).
Proof. by vm_compute. Qed.

(** "password", "salt", two iterations; 25 bytes are two blocks. *)
Example PBKDF2_sha1_vector :
  fst (PKCS5_PBKDF2_HMAC_SHA1 [0x70; 0x61; 0x73; 0x73; 0x77; 0x6f; 0x72; 0x64] [0x73; 0x61; 0x6c; 0x74] 2 25 tt) =
  Some (be_bytes 25 0xea6c014dc72d6f8ccd1ed92ace1d41f0d8de8957cae9313626, 1).
Proof. by vm_compute. Qed.

(** TLS 1.2 with SHA-256, the label "test label". *)
Example tls1_prf_sha256_vector :
  fst (CRYPTO_tls1_prf EVP_sha256 40 (be_bytes 16 0x9bbe436ba940f017b17652849a71db35) [0x74; 0x65; 0x73; 0x74; 0x20; 0x6c; 0x61; 0x62; 0x65; 0x6c]
    (be_bytes 16 0xa0ba9f936cda311827a6f796ffd5198c) [] tt) =
  Some (be_bytes 40 0xe3f229ba727be17b8d122620557cd453c2aab21d07c3d495329b52d4e61edb5a6b301791e90d35c9).
Proof. by vm_compute. Qed.

Lemma ensures_unit {A} (m : ST unit A) (P : A -> unit -> Prop) :
  ensures (~ MallocTotal unit) m tt P -> exists a, fst (m tt) = Some a /\ P a tt.
Proof.
  unfold ensures. destruct (m tt) as [[a|] []]; [by exists a|]. intros Hm. destruct (Hm unit_malloc_total).
Qed.

Lemma HKDF_rfc5869_witness :
  HKDF_expand 4081 EVP_md5 [1] [2] tt = (None, tt) /\
  exists out, fst (HKDF_expand 20 EVP_md5 [1] [2] tt) = Some out /\ out = hkdf_okm EVP_md5 [1] [2] 20 /\ length out = 20%nat.
Proof.
  split.
  - exact (proj1 (HKDF_rfc5869 EVP_md5 [1] [] None [2] 4081 tt ltac:(vm_compute; discriminate))).
  - apply (ensures_unit (HKDF_expand 20 EVP_md5 [1] [2])
      (fun out _ => out = hkdf_okm EVP_md5 [1] [2] 20 /\ length out = 20%nat)).
    exact (proj1 (HKDF_rfc5869 EVP_md5 [1] [] None [2] 20 tt ltac:(vm_compute; discriminate))).
Defined.

Lemma PKCS5_PBKDF2_HMAC_rfc8018_witness :
  exists r, fst (PKCS5_PBKDF2_HMAC [1] [2] 0 EVP_md5 20 tt) = Some r /\ r.1 = pbkdf2_dk EVP_md5 [1] [2] 1 20 /\ r.2 = 0.
Proof.
  destruct (ensures_unit _ _ (PKCS5_PBKDF2_HMAC_rfc8018 EVP_md5 [1] [2] 0 20 tt)) as (r & Hr & Hdk & _ & H0 & _).
  exists r. split; [exact Hr|]. split; [exact Hdk|exact H0].
Defined.

Lemma CRYPTO_tls1_prf_rfc5246_witness :
  exists out, fst (CRYPTO_tls1_prf EVP_md5_sha1 50 [1; 2; 3] [4] [5] [6] tt) = Some out /\
    out = zip_with Z.lxor (P_hash EVP_md5 [1; 2] [4; 5; 6] 50) (P_hash EVP_sha1 [2; 3] [4; 5; 6] 50).
Proof. exact (ensures_unit _ _ (CRYPTO_tls1_prf_rfc5246 EVP_md5_sha1 50 [1; 2; 3] [4] [5] [6] tt)). Defined.

Lemma CRYPTO_tls13_hkdf_expand_label_rfc8446_witness :
  (exists out, fst (CRYPTO_tls13_hkdf_expand_label 12 EVP_sha256 [1] [0x69; 0x76] [] tt) = Some out /\
    out = hkdf_okm EVP_sha256 [1] (hkdf_label 12 [0x69; 0x76] []) 12) /\
  hkdf_label 12 [0x69; 0x76] [] = [0; 12; 8; 0x74; 0x6c; 0x73; 0x31; 0x33; 0x20; 0x69; 0x76; 0] /\
  fst (CRYPTO_tls13_hkdf_expand_label 12 EVP_sha256 [1] (replicate 250 0) [] tt) = None.
Proof.
  assert (Z.of_nat 12 <= SIZE_MAX) as Hout by (unfold SIZE_MAX; lia).
  split; [|split; [reflexivity|]].
  - apply (ensures_unit (CRYPTO_tls13_hkdf_expand_label 12 EVP_sha256 [1] [0x69; 0x76] [])
      (fun out _ => out = hkdf_okm EVP_sha256 [1] (hkdf_label 12 [0x69; 0x76] []) 12)).
    exact (CRYPTO_tls13_hkdf_expand_label_rfc8446 EVP_sha256 12 [1] [0x69; 0x76] [] tt Hout ltac:(vm_compute; discriminate)).
  - exact (CRYPTO_tls13_hkdf_expand_label_rfc8446 EVP_sha256 12 [1] (replicate 250 0) [] tt Hout ltac:(vm_compute; discriminate)).
Defined.
