(* ===== verification/Poly1305.v ===== *)
(** The one-time authenticator Poly1305 ([crypto/poly1305/poly1305.c]): the
    portable code, which an ARM phone runs, and the function of RFC 8439, 2.5.

    A number of 130 bits is five limbs of 26 bits; each is a [uint32_t] with room
    for what has not been carried yet. *)
From S2P Require Import Prelude Digest.

Record limbs := Limbs { l0 : Z; l1 : Z; l2 : Z; l3 : Z; l4 : Z }.

(** [r] and [h] are [r0] to [r4] and [h0] to [h4]. *)
Record poly1305_state_st := Poly1305State {
  r : limbs;
  s1 : Z; s2 : Z; s3 : Z; s4 : Z;
  h : limbs;
  buf : bytes;        (** 16 bytes, of which [buf_used] are input *)
  buf_used : nat;
  key : bytes;
}.

Definition with_h (x : limbs) (st : poly1305_state_st) : poly1305_state_st :=
  Poly1305State (r st) (s1 st) (s2 st) (s3 st) (s4 st) x (buf st) (buf_used st) (key st).
Definition with_buf (b : bytes) (n : nat) (st : poly1305_state_st) : poly1305_state_st :=
  Poly1305State (r st) (s1 st) (s2 st) (s3 st) (s4 st) (h st) b n (key st).

Definition mul32x32_64 (a b : Z) : Z := u64 (a * b).

(** * Blocks *)

(** The additions to [state->h0] ... [state->h4] of the 16 bytes at [in_]; [hi] is
    the bit above a whole block, [1 << 24] in the highest limb. *)
Definition add_block (in_ : bytes) (hi : Z) (x : limbs) : limbs :=
  let t0 := CRYPTO_load_u32_le in_ in
  let t1 := CRYPTO_load_u32_le (drop 4 in_) in
  let t2 := CRYPTO_load_u32_le (drop 8 in_) in
  let t3 := CRYPTO_load_u32_le (drop 12 in_) in
  Limbs (u32 (l0 x + Z.land t0 0x3ffffff))
        (u32 (l1 x + Z.land (Z.shiftr (Z.lor (u64 (Z.shiftl t1 32)) t0) 26) 0x3ffffff))
        (u32 (l2 x + Z.land (Z.shiftr (Z.lor (u64 (Z.shiftl t2 32)) t1) 20) 0x3ffffff))
        (u32 (l3 x + Z.land (Z.shiftr (Z.lor (u64 (Z.shiftl t3 32)) t2) 14) 0x3ffffff))
        (u32 (l4 x + Z.lor (Z.shiftr t3 8) hi)).

(** [poly1305_donna_mul]: the product with [r], [2 ^ 130] being 5, and a pass of
    carries. *)
Definition poly1305_donna_mul (st : poly1305_state_st) : poly1305_state_st :=
  let '(Limbs h0 h1 h2 h3 h4) := h st in
  let '(Limbs r0 r1 r2 r3 r4) := r st in
  let t0 := u64 (mul32x32_64 h0 r0 + mul32x32_64 h1 (s4 st) + mul32x32_64 h2 (s3 st) +
                 mul32x32_64 h3 (s2 st) + mul32x32_64 h4 (s1 st)) in
  let t1 := u64 (mul32x32_64 h0 r1 + mul32x32_64 h1 r0 + mul32x32_64 h2 (s4 st) +
                 mul32x32_64 h3 (s3 st) + mul32x32_64 h4 (s2 st)) in
  let t2 := u64 (mul32x32_64 h0 r2 + mul32x32_64 h1 r1 + mul32x32_64 h2 r0 +
                 mul32x32_64 h3 (s4 st) + mul32x32_64 h4 (s3 st)) in
  let t3 := u64 (mul32x32_64 h0 r3 + mul32x32_64 h1 r2 + mul32x32_64 h2 r1 +
                 mul32x32_64 h3 r0 + mul32x32_64 h4 (s4 st)) in
  let t4 := u64 (mul32x32_64 h0 r4 + mul32x32_64 h1 r3 + mul32x32_64 h2 r2 +
                 mul32x32_64 h3 r1 + mul32x32_64 h4 r0) in
  let h0 := Z.land (u32 t0) 0x3ffffff in
  let c := Z.shiftr t0 26 in
  let t1 := u64 (t1 + c) in
  let h1 := Z.land (u32 t1) 0x3ffffff in
  let b := u32 (Z.shiftr t1 26) in
  let t2 := u64 (t2 + b) in
  let h2 := Z.land (u32 t2) 0x3ffffff in
  let b := u32 (Z.shiftr t2 26) in
  let t3 := u64 (t3 + b) in
  let h3 := Z.land (u32 t3) 0x3ffffff in
  let b := u32 (Z.shiftr t3 26) in
  let t4 := u64 (t4 + b) in
  let h4 := Z.land (u32 t4) 0x3ffffff in
  let b := u32 (Z.shiftr t4 26) in
  let h0 := u32 (h0 + u32 (b * 5)) in
  with_h (Limbs h0 h1 h2 h3 h4) st.

(** The loop [poly1305_donna_16bytes], with what is left of the input. *)
Fixpoint poly1305_donna_16bytes (fuel : nat) (in_ : bytes) (st : poly1305_state_st) : poly1305_state_st * bytes :=
  match fuel with
  | O => (st, in_)
  | S fuel =>
      if (16 <=? length in_)%nat then
        let st := with_h (add_block in_ (Z.shiftl 1 24) (h st)) st in
        poly1305_donna_16bytes fuel (drop 16 in_) (poly1305_donna_mul st)
      else (st, in_)
  end.

Definition poly1305_update (in_ : bytes) (st : poly1305_state_st) : poly1305_state_st :=
  let '(st, in_) := poly1305_donna_16bytes (length in_) in_ st in
  let len := length in_ in
  if (len =? 0)%nat then st
  else
    let mp := in_ ++ [1] ++ replicate (16 - (len + 1)) 0 in
    poly1305_donna_mul (with_h (add_block mp 0 (h st)) st).

(** * The interface *)

Definition CRYPTO_poly1305_init (state : poly1305_state_st) (k : bytes) : poly1305_state_st :=
  let t0 := CRYPTO_load_u32_le k in
  let t1 := CRYPTO_load_u32_le (drop 4 k) in
  let t2 := CRYPTO_load_u32_le (drop 8 k) in
  let t3 := CRYPTO_load_u32_le (drop 12 k) in
  let r0 := Z.land t0 0x3ffffff in
  let t0 := Z.shiftr t0 26 in
  let t0 := Z.lor t0 (u32 (Z.shiftl t1 6)) in
  let r1 := Z.land t0 0x3ffff03 in
  let t1 := Z.shiftr t1 20 in
  let t1 := Z.lor t1 (u32 (Z.shiftl t2 12)) in
  let r2 := Z.land t1 0x3ffc0ff in
  let t2 := Z.shiftr t2 14 in
  let t2 := Z.lor t2 (u32 (Z.shiftl t3 18)) in
  let r3 := Z.land t2 0x3f03fff in
  let t3 := Z.shiftr t3 8 in
  let r4 := Z.land t3 0x00fffff in
  Poly1305State (Limbs r0 r1 r2 r3 r4) (u32 (r1 * 5)) (u32 (r2 * 5)) (u32 (r3 * 5)) (u32 (r4 * 5))
    (Limbs 0 0 0 0 0) (buf state) 0 (take 16 (drop 16 k)).

(** What [CRYPTO_poly1305_update] does when [state->buf] is not in use any
    more. *)
Definition poly1305_update_blocks (in_ : bytes) (st : poly1305_state_st) : poly1305_state_st :=
  let '(st, in_) :=
    if (16 <=? length in_)%nat then
      let todo := (length in_ / 16 * 16)%nat in (poly1305_update (take todo in_) st, drop todo in_)
    else (st, in_) in
  if negb (length in_ =? 0)%nat then with_buf (OPENSSL_memcpy 0 in_ (buf st)) (length in_) st else st.

Definition CRYPTO_poly1305_update (st : poly1305_state_st) (in_ : bytes) : poly1305_state_st :=
  if (length in_ =? 0)%nat then st
  else if negb (buf_used st =? 0)%nat then
    let todo := Nat.min (16 - buf_used st) (length in_) in
    let st := with_buf (OPENSSL_memcpy (buf_used st) (take todo in_) (buf st)) (buf_used st + todo) st in
    let st := if (buf_used st =? 16)%nat then with_buf (buf st) 0 (poly1305_update (take 16 (buf st)) st) else st in
    poly1305_update_blocks (drop todo in_) st
  else poly1305_update_blocks in_ st.

(** The first pass of carries of [CRYPTO_poly1305_finish]; the last one into [h0]
    is not carried on. *)
Definition finish_carry (x : limbs) : limbs :=
  let '(Limbs h0 h1 h2 h3 h4) := x in
  let b := Z.shiftr h0 26 in
  let h0 := Z.land h0 0x3ffffff in
  let h1 := u32 (h1 + b) in
  let b := Z.shiftr h1 26 in
  let h1 := Z.land h1 0x3ffffff in
  let h2 := u32 (h2 + b) in
  let b := Z.shiftr h2 26 in
  let h2 := Z.land h2 0x3ffffff in
  let h3 := u32 (h3 + b) in
  let b := Z.shiftr h3 26 in
  let h3 := Z.land h3 0x3ffffff in
  let h4 := u32 (h4 + b) in
  let b := Z.shiftr h4 26 in
  let h4 := Z.land h4 0x3ffffff in
  let h0 := u32 (h0 + u32 (b * 5)) in
  Limbs h0 h1 h2 h3 h4.

(** [g] is [h + 5 - 2 ^ 130]; masks select it unless it is negative. *)
Definition finish_select (x : limbs) : limbs :=
  let '(Limbs h0 h1 h2 h3 h4) := x in
  let g0 := u32 (h0 + 5) in
  let b := Z.shiftr g0 26 in
  let g0 := Z.land g0 0x3ffffff in
  let g1 := u32 (h1 + b) in
  let b := Z.shiftr g1 26 in
  let g1 := Z.land g1 0x3ffffff in
  let g2 := u32 (h2 + b) in
  let b := Z.shiftr g2 26 in
  let g2 := Z.land g2 0x3ffffff in
  let g3 := u32 (h3 + b) in
  let b := Z.shiftr g3 26 in
  let g3 := Z.land g3 0x3ffffff in
  let g4 := u32 (h4 + b - Z.shiftl 1 26) in
  let b := u32 (Z.shiftr g4 31 - 1) in
  let nb := u32 (Z.lnot b) in
  let sel h g := Z.lor (Z.land h nb) (Z.land g b) in
  Limbs (sel h0 g0) (sel h1 g1) (sel h2 g2) (sel h3 g3) (sel h4 g4).

Definition CRYPTO_poly1305_finish (st : poly1305_state_st) : bytes * poly1305_state_st :=
  let st := if negb (buf_used st =? 0)%nat then poly1305_update (take (buf_used st) (buf st)) st else st in
  let x := finish_select (finish_carry (h st)) in
  let '(Limbs h0 h1 h2 h3 h4) := x in
  let f0 := u64 (Z.lor h0 (u32 (Z.shiftl h1 26)) + CRYPTO_load_u32_le (key st)) in
  let f1 := u64 (Z.lor (Z.shiftr h1 6) (u32 (Z.shiftl h2 20)) + CRYPTO_load_u32_le (drop 4 (key st))) in
  let f2 := u64 (Z.lor (Z.shiftr h2 12) (u32 (Z.shiftl h3 14)) + CRYPTO_load_u32_le (drop 8 (key st))) in
  let f3 := u64 (Z.lor (Z.shiftr h3 18) (u32 (Z.shiftl h4 8)) + CRYPTO_load_u32_le (drop 12 (key st))) in
  let mac0 := CRYPTO_store_u32_le (u32 f0) in
  let f1 := u64 (f1 + Z.shiftr f0 32) in
  let mac1 := CRYPTO_store_u32_le (u32 f1) in
  let f2 := u64 (f2 + Z.shiftr f1 32) in
  let mac2 := CRYPTO_store_u32_le (u32 f2) in
  let f3 := u64 (f3 + Z.shiftr f2 32) in
  let mac3 := CRYPTO_store_u32_le (u32 f3) in
  (mac0 ++ mac1 ++ mac2 ++ mac3, with_h x st).

(** * RFC 8439, 2.5 *)

Definition p1305 : Z := 2 ^ 130 - 5.

Definition rfc_clamp (k : Z) : Z := Z.land k 0x0ffffffc0ffffffc0ffffffc0fffffff.

(** The accumulator [a] after the blocks of [msg], each with a byte 1 above it. *)
Fixpoint rfc_blocks (fuel : nat) (k a : Z) (msg : bytes) : Z :=
  match fuel, msg with
  | O, _ | _, [] => a
  | S fuel, _ => rfc_blocks fuel k ((a + le_val (take 16 msg ++ [1])) * k mod p1305) (drop 16 msg)
  end.

Definition rfc_accumulator (k msg : bytes) : Z :=
  rfc_blocks (length msg) (rfc_clamp (le_val (take 16 k))) 0 msg.

Definition rfc_poly1305_mac (k msg : bytes) : bytes :=
  le_bytes 16 (rfc_accumulator k msg + le_val (take 16 (drop 16 k))).
