(* ===== verification/Poly1305Spec.v ===== *)
(** Poly1305 is the function of RFC 8439, over any pieces of the message: the
    bounds of the limbs, their value modulo [2 ^ 130 - 5], and the one case in
    which [CRYPTO_poly1305_finish] loses a carry. *)
From S2P Require Import Prelude Digest Poly1305.

(** * Limbs *)

Definition lval (x : limbs) : Z :=
  l0 x + 2 ^ 26 * (l1 x + 2 ^ 26 * (l2 x + 2 ^ 26 * (l3 x + 2 ^ 26 * l4 x))).

(** Between blocks: [h0] holds the last carry, times five. *)
Definition limbs_ok (x : limbs) : Prop :=
  0 <= l0 x < 42 * 2 ^ 26 /\ 0 <= l1 x < 2 ^ 26 /\ 0 <= l2 x < 2 ^ 26 /\ 0 <= l3 x < 2 ^ 26 /\ 0 <= l4 x < 2 ^ 26.

(** After a block has been added, before the product. *)
Definition limbs_room (x : limbs) : Prop :=
  0 <= l0 x < 43 * 2 ^ 26 /\ 0 <= l1 x < 2 ^ 27 /\ 0 <= l2 x < 2 ^ 27 /\ 0 <= l3 x < 2 ^ 27 /\
  0 <= l4 x < 3 * 2 ^ 25.

(** A clamped [r] and its multiples. *)
Definition r_ok (st : poly1305_state_st) : Prop :=
  let x := r st in
  0 <= l0 x < 2 ^ 26 /\ 0 <= l1 x < 2 ^ 26 /\ 0 <= l2 x < 2 ^ 26 /\ 0 <= l3 x < 2 ^ 26 /\ 0 <= l4 x < 2 ^ 20 /\
  s1 st = 5 * l1 x /\ s2 st = 5 * l2 x /\ s3 st = 5 * l3 x /\ s4 st = 5 * l4 x.

Lemma land26 x : Z.land x 0x3ffffff = x mod 2 ^ 26.
Proof. exact (land_mask x 26 ltac:(lia)). Qed.

Lemma u32_mod26 x : u32 x mod 2 ^ 26 = x mod 2 ^ 26.
Proof. unfold u32. apply Z.mod_mod_divide. by exists 64. Qed.

Lemma u32_id x : 0 <= x < 2 ^ 32 -> u32 x = x.
Proof. apply Z.mod_small. Qed.

Lemma u64_id x : 0 <= x < 2 ^ 64 -> u64 x = x.
Proof. apply Z.mod_small. Qed.

Lemma shiftr_div x k : 0 <= k -> Z.shiftr x k = x / 2 ^ k.
Proof. apply Z.shiftr_div_pow2. Qed.

Lemma prod_bound a b A B : 0 <= a <= A -> 0 <= b <= B -> 0 <= a * b <= A * B.
Proof. intros Ha Hb. split; [lia|]. apply Z.mul_le_mono_nonneg; lia. Qed.

Lemma mul32x32_64_id a b : 0 <= a < 2 ^ 32 -> 0 <= b < 2 ^ 32 -> mul32x32_64 a b = a * b.
Proof.
  intros Ha Hb. apply u64_id. pose proof (prod_bound a b (2 ^ 32 - 1) (2 ^ 32 - 1) ltac:(lia) ltac:(lia)). lia.
Qed.

(** The carries of [poly1305_donna_mul]. *)
Definition mul_carry (t0 t1 t2 t3 t4 : Z) : limbs :=
  let t1 := t1 + t0 / 2 ^ 26 in
  let t2 := t2 + t1 / 2 ^ 26 in
  let t3 := t3 + t2 / 2 ^ 26 in
  let t4 := t4 + t3 / 2 ^ 26 in
  Limbs (t0 mod 2 ^ 26 + t4 / 2 ^ 26 * 5) (t1 mod 2 ^ 26) (t2 mod 2 ^ 26) (t3 mod 2 ^ 26) (t4 mod 2 ^ 26).

Lemma mul_carry_val t0 t1 t2 t3 t4 :
  exists q, lval (mul_carry t0 t1 t2 t3 t4) =
            t0 + 2 ^ 26 * (t1 + 2 ^ 26 * (t2 + 2 ^ 26 * (t3 + 2 ^ 26 * t4))) - q * p1305.
Proof.
  unfold lval, mul_carry, p1305. cbn [l0 l1 l2 l3 l4].
  pose proof (Z.div_mod t0 (2 ^ 26) ltac:(lia)). set (u1 := t1 + t0 / 2 ^ 26) in *.
  pose proof (Z.div_mod u1 (2 ^ 26) ltac:(lia)). set (u2 := t2 + u1 / 2 ^ 26) in *.
  pose proof (Z.div_mod u2 (2 ^ 26) ltac:(lia)). set (u3 := t3 + u2 / 2 ^ 26) in *.
  pose proof (Z.div_mod u3 (2 ^ 26) ltac:(lia)). set (u4 := t4 + u3 / 2 ^ 26) in *.
  pose proof (Z.div_mod u4 (2 ^ 26) ltac:(lia)). exists (u4 / 2 ^ 26). lia.
Qed.

Lemma mul_carry_ok t0 t1 t2 t3 t4 :
  0 <= t0 <= 71 * 2 ^ 52 -> 0 <= t1 -> 0 <= t2 -> 0 <= t3 ->
  t1 <= 63 * 2 ^ 52 -> t2 <= 55 * 2 ^ 52 -> t3 <= 50 * 2 ^ 52 -> 0 <= t4 < 524 * 2 ^ 46 ->
  limbs_ok (mul_carry t0 t1 t2 t3 t4).
Proof. unfold limbs_ok, mul_carry. cbn [l0 l1 l2 l3 l4]. intros. dlia. Qed.

(** The coefficients of the product. *)
Definition mul_coeffs (st : poly1305_state_st) : limbs :=
  let x := h st in let y := r st in
  Limbs (l0 x * l0 y + l1 x * s4 st + l2 x * s3 st + l3 x * s2 st + l4 x * s1 st)
        (l0 x * l1 y + l1 x * l0 y + l2 x * s4 st + l3 x * s3 st + l4 x * s2 st)
        (l0 x * l2 y + l1 x * l1 y + l2 x * l0 y + l3 x * s4 st + l4 x * s3 st)
        (l0 x * l3 y + l1 x * l2 y + l2 x * l1 y + l3 x * l0 y + l4 x * s4 st)
        (l0 x * l4 y + l1 x * l3 y + l2 x * l2 y + l3 x * l1 y + l4 x * l0 y).

Lemma mul_coeffs_val st :
  r_ok st -> exists q, lval (mul_coeffs st) = lval (h st) * lval (r st) - q * p1305.
Proof.
  intros (_ & _ & _ & _ & _ & E1 & E2 & E3 & E4). unfold mul_coeffs, lval, p1305. cbn [l0 l1 l2 l3 l4].
  rewrite E1, E2, E3, E4. set (x := h st). set (y := r st).
  exists (l1 x * l4 y + l2 x * l3 y + l3 x * l2 y + l4 x * l1 y +
     2 ^ 26 * (l2 x * l4 y + l3 x * l3 y + l4 x * l2 y + 2 ^ 26 * (l3 x * l4 y + l4 x * l3 y + 2 ^ 26 * (l4 x * l4 y)))).
  ring.
Qed.

Lemma dot5_bound a0 a1 a2 a3 a4 A0 A1 A2 A3 A4 b0 b1 b2 b3 b4 B0 B1 B2 B3 B4 M :
  0 <= a0 < A0 -> 0 <= b0 < B0 -> 0 <= a1 < A1 -> 0 <= b1 < B1 -> 0 <= a2 < A2 -> 0 <= b2 < B2 ->
  0 <= a3 < A3 -> 0 <= b3 < B3 -> 0 <= a4 < A4 -> 0 <= b4 < B4 ->
  A0 * B0 + A1 * B1 + A2 * B2 + A3 * B3 + A4 * B4 <= M ->
  0 <= a0 * b0 + a1 * b1 + a2 * b2 + a3 * b3 + a4 * b4 <= M.
Proof.
  intros Ha0 Hb0 Ha1 Hb1 Ha2 Hb2 Ha3 Hb3 Ha4 Hb4 HM.
  pose proof (prod_bound a0 b0 A0 B0 ltac:(lia) ltac:(lia)). pose proof (prod_bound a1 b1 A1 B1 ltac:(lia) ltac:(lia)).
  pose proof (prod_bound a2 b2 A2 B2 ltac:(lia) ltac:(lia)). pose proof (prod_bound a3 b3 A3 B3 ltac:(lia) ltac:(lia)).
  pose proof (prod_bound a4 b4 A4 B4 ltac:(lia) ltac:(lia)). lia.
Qed.

Lemma mul_coeffs_bound st :
  r_ok st -> limbs_room (h st) ->
  let t := mul_coeffs st in
  0 <= l0 t <= 71 * 2 ^ 52 - 2 ^ 32 /\ 0 <= l1 t <= 63 * 2 ^ 52 - 2 ^ 33 /\ 0 <= l2 t <= 55 * 2 ^ 52 - 2 ^ 33 /\
  0 <= l3 t <= 50 * 2 ^ 52 - 2 ^ 33 /\ 0 <= l4 t <= 523 * 2 ^ 46.
Proof.
  intros (H0 & H1 & H2 & H3 & H4 & E1 & E2 & E3 & E4) (X0 & X1 & X2 & X3 & X4).
  unfold mul_coeffs. cbn [l0 l1 l2 l3 l4].
  assert (0 <= s1 st < 5 * 2 ^ 26) as S1 by lia. assert (0 <= s2 st < 5 * 2 ^ 26) as S2 by lia.
  assert (0 <= s3 st < 5 * 2 ^ 26) as S3 by lia. assert (0 <= s4 st < 5 * 2 ^ 20) as S4 by lia.
  refine (conj _ (conj _ (conj _ (conj _ _)))); (eapply dot5_bound; try eassumption; lia).
Qed.

(** No [uint64_t] of the product overflows and no carry is cut to 32 bits. *)
Lemma poly1305_donna_mul_eq st :
  r_ok st -> limbs_room (h st) ->
  let t := mul_coeffs st in
  poly1305_donna_mul st = with_h (mul_carry (l0 t) (l1 t) (l2 t) (l3 t) (l4 t)) st.
Proof.
  intros Hr Hx. pose proof (mul_coeffs_bound st Hr Hx) as Hb. cbv zeta in *.
  destruct Hr as (H0 & H1 & H2 & H3 & H4 & E1 & E2 & E3 & E4). destruct Hx as (X0 & X1 & X2 & X3 & X4).
  unfold poly1305_donna_mul, mul_carry. destruct st as [[r0 r1 r2 r3 r4] s1 s2 s3 s4 [h0 h1 h2 h3 h4] bf n k].
  unfold with_h, mul_coeffs in *. cbn [l0 l1 l2 l3 l4 r Poly1305.s1 Poly1305.s2 Poly1305.s3 Poly1305.s4 h buf buf_used key] in *.
  rewrite !mul32x32_64_id by lia.
  set (t0 := h0 * r0 + _ + _ + _ + _) in *. set (t1 := h0 * r1 + _ + _ + _ + _) in *. set (t2 := h0 * r2 + _ + _ + _ + _) in *.
  set (t3 := h0 * r3 + _ + _ + _ + _) in *. set (t4 := h0 * r4 + _ + _ + _ + _) in *. clearbody t0 t1 t2 t3 t4.
  clear H0 H1 H2 H3 H4 E1 E2 E3 E4 X0 X1 X2 X3 X4. destruct Hb as (B0 & B1 & B2 & B3 & B4).
  rewrite !land26, !u32_mod26, !shiftr_div by lia.
  rewrite (u64_id t0), (u64_id t1), (u64_id t2), (u64_id t3), (u64_id t4) by lia.
  assert (0 <= t0 / 2 ^ 26 <= 71 * 2 ^ 26) as C0 by dlia. set (c0 := t0 / 2 ^ 26) in *.
  rewrite (u64_id (t1 + c0)) by lia.
  assert (0 <= (t1 + c0) / 2 ^ 26 < 2 ^ 32) as C1 by (clearbody c0; dlia). set (c1 := (t1 + c0) / 2 ^ 26) in *.
  rewrite (u32_id c1), (u64_id (t2 + c1)) by lia.
  assert (0 <= (t2 + c1) / 2 ^ 26 < 2 ^ 32) as C2 by (clearbody c1; dlia). set (c2 := (t2 + c1) / 2 ^ 26) in *.
  rewrite (u32_id c2), (u64_id (t3 + c2)) by lia.
  assert (0 <= (t3 + c2) / 2 ^ 26 < 2 ^ 32) as C3 by (clearbody c2; dlia). set (c3 := (t3 + c2) / 2 ^ 26) in *.
  rewrite (u32_id c3), (u64_id (t4 + c3)) by lia.
  assert (0 <= (t4 + c3) / 2 ^ 26 <= 9 * 2 ^ 26) as C4 by (clearbody c3; dlia). set (c4 := (t4 + c3) / 2 ^ 26) in *.
  assert (0 <= t0 mod 2 ^ 26 < 2 ^ 26) by (apply Z.mod_pos_bound; lia).
  rewrite (u32_id c4), (u32_id (c4 * 5)), u32_id by (clearbody c4; lia). done.
Qed.
(** * Blocks *)

Lemma lor_shl32 a b : 0 <= a < 2 ^ 32 -> 0 <= b < 2 ^ 32 -> Z.lor (u64 (Z.shiftl a 32)) b = a * 2 ^ 32 + b.
Proof. intros. rewrite Z.shiftl_mul_pow2, u64_id by lia. apply lor_add_disjoint; lia. Qed.

(** The 26-bit limbs of four words. *)
Lemma words_limbs t0 t1 t2 t3 :
  0 <= t0 < 2 ^ 32 -> 0 <= t1 < 2 ^ 32 -> 0 <= t2 < 2 ^ 32 -> 0 <= t3 < 2 ^ 32 ->
  t0 mod 2 ^ 26 + 2 ^ 26 * ((t1 * 2 ^ 32 + t0) / 2 ^ 26 mod 2 ^ 26 + 2 ^ 26 * ((t2 * 2 ^ 32 + t1) / 2 ^ 20 mod 2 ^ 26 +
    2 ^ 26 * ((t3 * 2 ^ 32 + t2) / 2 ^ 14 mod 2 ^ 26 + 2 ^ 26 * (t3 / 2 ^ 8)))) =
  t0 + 2 ^ 32 * (t1 + 2 ^ 32 * (t2 + 2 ^ 32 * t3)).
Proof. intros. dlia. Qed.

Lemma add_block_spec in_ hi x :
  bytes_ok in_ -> limbs_ok x -> hi = 0 \/ hi = 2 ^ 24 ->
  limbs_room (add_block in_ hi x) /\ lval (add_block in_ hi x) = lval x + le_val (take 16 in_) + 2 ^ 104 * hi.
Proof.
  intros Hin Hx Hhi. pose proof (load_u32_le_bound in_ Hin) as B0.
  pose proof (load_u32_le_bound (drop 4 in_) ltac:(auto with bytes)) as B1.
  pose proof (load_u32_le_bound (drop 8 in_) ltac:(auto with bytes)) as B2.
  pose proof (load_u32_le_bound (drop 12 in_) ltac:(auto with bytes)) as B3.
  rewrite le_val_load_u32, <- words_limbs by done. unfold add_block.
  set (t0 := CRYPTO_load_u32_le in_) in *. set (t1 := CRYPTO_load_u32_le (drop 4 in_)) in *.
  set (t2 := CRYPTO_load_u32_le (drop 8 in_)) in *. set (t3 := CRYPTO_load_u32_le (drop 12 in_)) in *.
  clearbody t0 t1 t2 t3. rewrite !lor_shl32, !land26, !shiftr_div by (done || lia).
  assert (Z.lor (t3 / 2 ^ 8) hi = t3 / 2 ^ 8 + hi) as ->.
  { destruct Hhi as [->| ->]; [rewrite Z.lor_0_r; lia|]. rewrite Z.lor_comm.
    pose proof (lor_add_disjoint 1 (t3 / 2 ^ 8) 24 ltac:(lia) ltac:(dlia)) as E. rewrite Z.mul_1_l in E. lia. }
  assert (forall v, 0 <= v mod 2 ^ 26 < 2 ^ 26) as Hm by (intros; apply Z.mod_pos_bound; lia).
  pose proof (Hm t0). pose proof (Hm ((t1 * 2 ^ 32 + t0) / 2 ^ 26)). pose proof (Hm ((t2 * 2 ^ 32 + t1) / 2 ^ 20)).
  pose proof (Hm ((t3 * 2 ^ 32 + t2) / 2 ^ 14)). assert (0 <= t3 / 2 ^ 8 < 2 ^ 24) by dlia. clear Hm.
  set (n0 := t0 mod 2 ^ 26) in *. set (n1 := (t1 * 2 ^ 32 + t0) / 2 ^ 26 mod 2 ^ 26) in *.
  set (n2 := (t2 * 2 ^ 32 + t1) / 2 ^ 20 mod 2 ^ 26) in *. set (n3 := (t3 * 2 ^ 32 + t2) / 2 ^ 14 mod 2 ^ 26) in *.
  set (n4 := t3 / 2 ^ 8) in *. clearbody n0 n1 n2 n3 n4. clear B0 B1 B2 B3 t0 t1 t2 t3.
  destruct Hx as (X0 & X1 & X2 & X3 & X4). unfold limbs_room, lval. cbn [l0 l1 l2 l3 l4]. rewrite !u32_id by lia. lia.
Qed.

(** What the limbs stand for. *)
Definition acc_rep (st : poly1305_state_st) (a : Z) : Prop := limbs_ok (h st) /\ lval (h st) mod p1305 = a.

Lemma acc_step st in_ hi a :
  r_ok st -> bytes_ok in_ -> hi = 0 \/ hi = 2 ^ 24 -> acc_rep st a ->
  let st' := poly1305_donna_mul (with_h (add_block in_ hi (h st)) st) in
  (exists x, st' = with_h x st) /\
  acc_rep st' ((a + (le_val (take 16 in_) + 2 ^ 104 * hi)) * lval (r st) mod p1305).
Proof.
  intros Hr Hin Hhi [Hx Ha]. destruct (add_block_spec in_ hi (h st) Hin Hx Hhi) as [Hroom Hval]. cbv zeta.
  set (st1 := with_h (add_block in_ hi (h st)) st). assert (r_ok st1) as Hr1 by exact Hr.
  rewrite (poly1305_donna_mul_eq st1 Hr1 Hroom). split; [by eexists|]. unfold acc_rep. cbn [h with_h].
  pose proof (mul_coeffs_bound st1 Hr1 Hroom) as Hb. cbv zeta in Hb.
  destruct (mul_coeffs_val st1 Hr1) as [q Hq]. cbn [h with_h st1] in Hq. rewrite Hval in Hq. set (t := mul_coeffs st1) in *.
  split; [apply mul_carry_ok; lia|]. destruct (mul_carry_val (l0 t) (l1 t) (l2 t) (l3 t) (l4 t)) as [q' ->].
  fold (lval t). rewrite Hq, <- Ha. change (r st1) with (r st).
  replace (_ - q * p1305 - q' * p1305) with
    ((lval (h st) + (le_val (take 16 in_) + 2 ^ 104 * hi)) * lval (r st) + (- q - q') * p1305) by lia.
  rewrite Z.mod_add by done. rewrite <- (Z.mul_mod_idemp_l (_ + _)) by done.
  rewrite <- (Z.add_mod_idemp_l (lval (h st))) by done. by rewrite Z.mul_mod_idemp_l by done.
Qed.

(** The blocks of RFC 8439. *)
Lemma rfc_blocks_nil fuel k a : rfc_blocks fuel k a [] = a.
Proof. by destruct fuel. Qed.

Lemma rfc_blocks_cons fuel k a m :
  m <> [] -> rfc_blocks (S fuel) k a m = rfc_blocks fuel k ((a + le_val (take 16 m ++ [1])) * k mod p1305) (drop 16 m).
Proof. by destruct m. Qed.

Lemma rfc_blocks_fuel f g k a m : (length m <= f)%nat -> (length m <= g)%nat -> rfc_blocks f k a m = rfc_blocks g k a m.
Proof.
  revert g a m. induction f as [|f IH]; intros g a m Hf Hg.
  { destruct m; [|cbn in Hf; lia]. by rewrite !rfc_blocks_nil. }
  destruct (decide (m = [])) as [->|Hne]; [by rewrite !rfc_blocks_nil|].
  destruct g as [|g]; [destruct m; [done|cbn in Hg; lia]|]. rewrite !rfc_blocks_cons by done.
  assert (0 < length m)%nat by (destruct m; [done|cbn; lia]). apply IH; rewrite length_drop; lia.
Qed.

(** The accumulator after [m]. *)
Definition acc (k a : Z) (m : bytes) : Z := rfc_blocks (length m) k a m.

Lemma acc_nil k a : acc k a [] = a.
Proof. done. Qed.

Lemma acc_cons k a m :
  m <> [] -> acc k a m = acc k ((a + le_val (take 16 m ++ [1])) * k mod p1305) (drop 16 m).
Proof.
  intros Hne. unfold acc. destruct (length m) as [|n] eqn:E; [by apply nil_length_inv in E|].
  rewrite rfc_blocks_cons by done. apply rfc_blocks_fuel; rewrite length_drop; lia.
Qed.

Lemma acc_app k a m n : length m = (length m / 16 * 16)%nat -> acc k a (m ++ n) = acc k (acc k a m) n.
Proof.
  generalize (length m / 16)%nat as b. intros b. revert a m. induction b as [|b IH]; intros a m Hm.
  - assert (m = []) as ->; [apply nil_length_inv; lia|done].
  - assert (16 <= length m)%nat by lia.
    rewrite (acc_cons k a (m ++ n)), (acc_cons k a m) by (intros E; apply (f_equal length) in E; rewrite ?length_app in E; cbn in E; lia).
    rewrite take_app_le, drop_app_le by lia. apply IH. rewrite length_drop. lia.
Qed.

Lemma poly1305_donna_16bytes_spec fuel in_ st a :
  r_ok st -> bytes_ok in_ -> acc_rep st a -> (length in_ <= fuel)%nat ->
  let '(st', rest) := poly1305_donna_16bytes fuel in_ st in
  (exists x, st' = with_h x st) /\ rest = drop (length in_ / 16 * 16) in_ /\
  acc_rep st' (acc (lval (r st)) a (take (length in_ / 16 * 16) in_)).
Proof.
  revert in_ st a. induction fuel as [|fuel IH]; intros in_ st a Hr Hin Ha Hf; cbn [poly1305_donna_16bytes].
  { destruct in_; [|cbn in Hf; lia]. split; [exists (h st); by destruct st|]. done. }
  destruct (Nat.leb_spec 16 (length in_)) as [Hl|Hl].
  - destruct (acc_step st in_ (2 ^ 24) a Hr Hin ltac:(auto) Ha) as [[x Ex] Ha'].
    change (Z.shiftl 1 24) with (2 ^ 24). set (st1 := poly1305_donna_mul _) in *. clearbody st1.
    specialize (IH (drop 16 in_) st1 _ ltac:(by rewrite Ex) ltac:(auto with bytes) Ha' ltac:(rewrite length_drop; lia)).
    destruct (poly1305_donna_16bytes fuel (drop 16 in_) st1) as [st2 rest]. destruct IH as ([y Ey] & -> & Ha2).
    split; [exists y; by rewrite Ey, Ex|]. rewrite length_drop, drop_drop in *.
    replace (length in_ / 16 * 16)%nat with (16 + (length in_ - 16) / 16 * 16)%nat
      by (nat_div (length in_) 16%nat; nat_div (length in_ - 16)%nat 16%nat; lia). split; [done|].
    set (j := ((length in_ - 16) / 16 * 16)%nat) in *. rewrite acc_cons.
    + rewrite take_take, Nat.min_l, <- take_drop_commute by lia. replace (lval (r st1)) with (lval (r st)) in Ha2 by (by rewrite Ex).
      replace (le_val (take 16 in_ ++ [1])) with (le_val (take 16 in_) + 2 ^ 104 * 2 ^ 24); [done|].
      rewrite le_val_app. unfold Zlen. rewrite length_take_le by lia. done.
    + by destruct in_; [cbn in Hl; lia|].
  - split; [exists (h st); by destruct st|]. rewrite Nat.div_small by lia. done.
Qed.

Lemma poly1305_update_spec in_ st a :
  r_ok st -> bytes_ok in_ -> acc_rep st a ->
  (exists x, poly1305_update in_ st = with_h x st) /\
  acc_rep (poly1305_update in_ st) (acc (lval (r st)) a in_).
Proof.
  intros Hr Hin Ha. unfold poly1305_update.
  pose proof (poly1305_donna_16bytes_spec (length in_) in_ st a Hr Hin Ha ltac:(lia)) as Hs.
  destruct (poly1305_donna_16bytes (length in_) in_ st) as [st1 rest]. destruct Hs as ([x Ex] & -> & Ha1).
  nat_div (length in_) 16%nat. set (j := (length in_ / 16 * 16)%nat) in *.
  assert (j <= length in_)%nat by (unfold j; lia). replace (acc (lval (r st)) a in_) with (acc (lval (r st)) a (take j in_ ++ drop j in_)) by (by rewrite take_drop).
  rewrite acc_app by (rewrite length_take, Nat.min_l by lia; unfold j; by rewrite Nat.div_mul by lia).
  assert (length (drop j in_) < 16)%nat as Hrest by (rewrite length_drop; unfold j; lia).
  set (rest := drop j in_) in *. assert (bytes_ok rest) as Hro by (unfold rest; auto with bytes). clearbody rest.
  destruct (Nat.eqb_spec (length rest) 0) as [E|E].
  { apply nil_length_inv in E as ->. split; [by exists x|done]. }
  set (mp := rest ++ [1] ++ replicate (16 - (length rest + 1)) 0).
  assert (bytes_ok mp) as Hmp.
  { unfold mp. apply bytes_ok_app. split; [done|]. apply bytes_ok_app. split; [by repeat constructor|]. by apply Forall_replicate. }
  assert (length mp = 16%nat) as Hlen by (unfold mp; rewrite !length_app, length_replicate; cbn; lia).
  destruct (acc_step st1 mp 0 _ ltac:(by rewrite Ex) Hmp ltac:(auto) Ha1) as [[y Ey] Ha2].
  split; [exists y; by rewrite Ey, Ex|]. rewrite (acc_cons _ _ rest) by (intros ->; done). rewrite (drop_ge rest), acc_nil, (take_ge rest) by lia.
  rewrite (take_ge mp) in Ha2 by lia. replace (lval (r st1)) with (lval (r st)) in Ha2 by (by rewrite Ex).
  replace (le_val (rest ++ [1])) with (le_val mp + 2 ^ 104 * 0); [done|].
  unfold mp. rewrite app_assoc, (le_val_app (rest ++ [1])). rewrite le_val_replicate_0. lia.
Qed.

(** * The tag is a function of the key and the message *)

(** The limbs alone: a product, some blocks, a whole input. *)
Definition hmul (st : poly1305_state_st) (x : limbs) : limbs := h (poly1305_donna_mul (with_h x st)).
Fixpoint hblocks (st : poly1305_state_st) (n : nat) (x : limbs) (m : bytes) : limbs :=
  match n with
  | O => x
  | S n => hblocks st n (hmul st (add_block m (2 ^ 24) x)) (drop 16 m)
  end.
Definition htail (st : poly1305_state_st) (x : limbs) (m : bytes) : limbs :=
  if (length m =? 0)%nat then x else hmul st (add_block (m ++ [1] ++ replicate (16 - (length m + 1)) 0) 0 x).
Definition hupdate (st : poly1305_state_st) (x : limbs) (m : bytes) : limbs :=
  htail st (hblocks st (length m / 16) x m) (drop (length m / 16 * 16) m).

Lemma donna_mul_hmul st : poly1305_donna_mul st = with_h (hmul st (h st)) st.
Proof. unfold hmul, poly1305_donna_mul. destruct st as [[? ? ? ? ?] ? ? ? ? [? ? ? ? ?] ? ? ?]. done. Qed.

Lemma hmul_with_h st x y : hmul (with_h x st) y = hmul st y.
Proof. done. Qed.

Lemma hblocks_with_h st z n x m : hblocks (with_h z st) n x m = hblocks st n x m.
Proof. revert x m. induction n as [|n IH]; intros x m; cbn [hblocks]; [done|]. by rewrite IH, hmul_with_h. Qed.

Lemma donna_16bytes_hblocks fuel m st :
  (length m <= fuel)%nat ->
  poly1305_donna_16bytes fuel m st = (with_h (hblocks st (length m / 16) (h st) m) st, drop (length m / 16 * 16) m).
Proof.
  revert m st. induction fuel as [|fuel IH]; intros m st Hf; cbn [poly1305_donna_16bytes].
  { destruct m; [|cbn in Hf; lia]. by destruct st. }
  destruct (Nat.leb_spec 16 (length m)) as [Hl|Hl].
  - assert (length m / 16 = S (length (drop 16 m) / 16))%nat as E.
    { rewrite length_drop. nat_div (length m) 16%nat. nat_div (length m - 16)%nat 16%nat. lia. }
    rewrite donna_mul_hmul, IH by (rewrite length_drop; lia). rewrite E. cbn [hblocks].
    rewrite hblocks_with_h, hblocks_with_h, hmul_with_h, drop_drop. done.
  - rewrite Nat.div_small by lia. cbn [hblocks]. by destruct st.
Qed.

Lemma poly1305_update_hupdate m st : poly1305_update m st = with_h (hupdate st (h st) m) st.
Proof.
  unfold poly1305_update, hupdate, htail. rewrite donna_16bytes_hblocks by lia. cbn [h with_h].
  destruct (_ =? 0)%nat; [done|]. rewrite donna_mul_hmul. cbn [h with_h]. by rewrite !hmul_with_h.
Qed.

Lemma hblocks_app st n k x a b :
  length a = (n * 16)%nat -> hblocks st (n + k) x (a ++ b) = hblocks st k (hblocks st n x a) b.
Proof.
  revert x a. induction n as [|n IH]; intros x a Ha; cbn [plus hblocks]; [by apply nil_length_inv in Ha as ->|].
  rewrite drop_app_le, IH by (rewrite ?length_drop; lia). f_equal. f_equal. f_equal. unfold add_block, CRYPTO_load_u32_le.
  rewrite !drop_app_le by lia. by rewrite !take_app_le by (rewrite ?length_drop; lia).
Qed.

(** The state after whole blocks [m] of a key: [h] is what it has to be. *)
Definition canonical (st : poly1305_state_st) (m : bytes) : Prop :=
  h st = hblocks st (length m / 16) (Limbs 0 0 0 0 0) m.

Lemma canonical_with_buf st b n m : canonical (with_buf b n st) m <-> canonical st m.
Proof.
  unfold canonical. cbn [h with_buf].
  assert (forall k x m, hblocks (with_buf b n st) k x m = hblocks st k x m) as E; [|by rewrite E].
  induction k as [|k IH]; intros x m'; cbn [hblocks]; [done|]. rewrite IH. f_equal.
  unfold hmul, poly1305_donna_mul. destruct st as [[? ? ? ? ?] ? ? ? ? [? ? ? ? ?] ? ? ?], (add_block m' (2 ^ 24) x). done.
Qed.

Lemma canonical_update st a b :
  canonical st a -> length a = (length a / 16 * 16)%nat -> length b = (length b / 16 * 16)%nat ->
  canonical (poly1305_update b st) (a ++ b).
Proof.
  intros Hc Ha Hb. rewrite poly1305_update_hupdate. unfold canonical. cbn [h with_h]. rewrite hblocks_with_h.
  rewrite length_app. rewrite Ha, Hb at 1. rewrite <- Nat.mul_add_distr_r, Nat.div_mul by lia. rewrite hblocks_app by done.
  rewrite <- Hc. unfold hupdate. rewrite <- Hb, drop_all. done.
Qed.

(** * Streaming *)

(** A state that has been given [m]: whole blocks are in the accumulator, the
    rest in the buffer. *)
Definition keyed (k : Z) (pad : bytes) (st : poly1305_state_st) : Prop :=
  r_ok st /\ lval (r st) = k /\ key st = pad /\ length (buf st) = 16%nat.

Definition poly_holds (k : Z) (pad m : bytes) (st : poly1305_state_st) : Prop :=
  keyed k pad st /\
  exists whole tail, m = whole ++ tail /\ length whole = (length whole / 16 * 16)%nat /\
    take (buf_used st) (buf st) = tail /\ (buf_used st < 16)%nat /\ bytes_ok tail /\ acc_rep st (acc k 0 whole) /\
    canonical st whole.

Lemma keyed_update k pad st in_ a :
  keyed k pad st -> bytes_ok in_ -> acc_rep st a ->
  keyed k pad (poly1305_update in_ st) /\ acc_rep (poly1305_update in_ st) (acc k a in_) /\
  buf (poly1305_update in_ st) = buf st /\ buf_used (poly1305_update in_ st) = buf_used st.
Proof.
  intros (Hr & Hk & Hp & Hb) Hin Ha. destruct (poly1305_update_spec in_ st a Hr Hin Ha) as [[x Ex] Ha'].
  rewrite Hk in Ha'. split; [|split; [done|]]; by rewrite Ex.
Qed.

Lemma keyed_with_buf k pad b n st : keyed k pad st -> length b = 16%nat -> keyed k pad (with_buf b n st).
Proof. intros (Hr & Hk & Hp & _) Hb. done. Qed.

Lemma acc_snoc_blocks k whole m :
  length whole = (length whole / 16 * 16)%nat -> acc k (acc k 0 whole) m = acc k 0 (whole ++ m).
Proof. intros. by rewrite acc_app. Qed.

Lemma whole_app (a b : bytes) :
  length a = (length a / 16 * 16)%nat -> length b = (length b / 16 * 16)%nat ->
  length (a ++ b) = (length (a ++ b) / 16 * 16)%nat.
Proof.
  rewrite length_app. intros Ha Hb. rewrite Ha, Hb at 2. rewrite <- Nat.mul_add_distr_r, Nat.div_mul by lia. lia.
Qed.

Lemma update_blocks_holds k pad whole in_ st :
  keyed k pad st -> length whole = (length whole / 16 * 16)%nat -> buf_used st = 0%nat -> bytes_ok in_ ->
  acc_rep st (acc k 0 whole) -> canonical st whole ->
  poly_holds k pad (whole ++ in_) (poly1305_update_blocks in_ st).
Proof.
  intros Hk Hw H0 Hin Ha Hcan. unfold poly1305_update_blocks. nat_div (length in_) 16%nat.
  set (todo := (length in_ / 16 * 16)%nat) in *.
  assert (forall st', keyed k pad st' -> buf_used st' = 0%nat -> forall whole' rest, bytes_ok rest -> (length rest < 16)%nat ->
    length whole' = (length whole' / 16 * 16)%nat -> acc_rep st' (acc k 0 whole') -> canonical st' whole' ->
    poly_holds k pad (whole' ++ rest)
      (if negb (length rest =? 0)%nat then with_buf (OPENSSL_memcpy 0 rest (buf st')) (length rest) st' else st')) as Htail.
  { intros st' Hk' H0' whole' rest Hro Hrl Hw' Ha' Hcan'. destruct (Nat.eqb_spec (length rest) 0) as [E|E]; cbn [negb].
    - apply nil_length_inv in E as ->. split; [done|]. exists whole', []. rewrite H0'. split_and!; try done; lia.
    - destruct Hk' as (Hr & Hl & Hp & Hb). split.
      { apply keyed_with_buf; [done|]. rewrite length_memcpy; lia. }
      exists whole', rest. cbn [buf buf_used with_buf].
      pose proof (take_memcpy 0 rest (buf st') ltac:(lia)) as Ht. rewrite Nat.add_0_l, take_0 in Ht.
      split_and!; try done. by apply canonical_with_buf. }
  destruct (Nat.leb_spec 16 (length in_)) as [Hl|Hl].
  - destruct (keyed_update k pad st (take todo in_) _ Hk ltac:(auto with bytes) Ha) as (Hk' & Ha' & Hbf & Hbu).
    rewrite acc_snoc_blocks in Ha' by done. rewrite <- (take_drop todo in_) at 1. rewrite app_assoc.
    assert (length (take todo in_) = (length (take todo in_) / 16 * 16)%nat) as Htd.
    { rewrite length_take, Nat.min_l by lia. unfold todo. by rewrite Nat.div_mul by lia. }
    apply Htail; [done|by rewrite Hbu|auto with bytes|rewrite length_drop; lia|by apply whole_app|done|].
    by apply canonical_update.
  - by apply Htail.
Qed.

Lemma CRYPTO_poly1305_update_holds k pad m in_ st :
  poly_holds k pad m st -> bytes_ok in_ -> poly_holds k pad (m ++ in_) (CRYPTO_poly1305_update st in_).
Proof.
  intros [Hk (whole & tail & -> & Hw & Ht & Hu & Hto & Ha & Hcan)] Hin. unfold CRYPTO_poly1305_update.
  destruct (Nat.eqb_spec (length in_) 0) as [E|E].
  { apply nil_length_inv in E as ->. rewrite app_nil_r. split; [done|]. by exists whole, tail. }
  rewrite <- app_assoc. destruct (Nat.eqb_spec (buf_used st) 0) as [E0|E0]; cbn [negb].
  { rewrite E0 in Ht. cbn in Ht. subst tail. by apply update_blocks_holds. }
  pose proof Hk as (Hr & Hl & Hp & Hb).
  set (todo := Nat.min (16 - buf_used st) (length in_)). assert (todo <= length in_)%nat by lia.
  assert (length (take todo in_) = todo) as Htl by (rewrite length_take; lia).
  set (b := OPENSSL_memcpy (buf_used st) (take todo in_) (buf st)).
  assert (length b = 16%nat) as Hbl by (unfold b; rewrite length_memcpy; lia).
  assert (take (buf_used st + todo) b = tail ++ take todo in_) as Hbt.
  { rewrite <- Htl at 1. unfold b. rewrite take_memcpy by lia. by rewrite Ht. }
  set (st1 := with_buf b (buf_used st + todo) st). assert (keyed k pad st1) as Hk1 by done.
  assert (length tail = buf_used st) as Htail by (rewrite <- Ht, length_take; lia).
  destruct (Nat.eqb_spec (buf_used st1) 16) as [E16|E16]; cbn [buf_used with_buf st1] in E16.
  - rewrite E16 in Hbt. change (buf st1) with b. rewrite Hbt. rewrite <- (take_drop todo in_) at 1. rewrite app_assoc, app_assoc.
    destruct (keyed_update k pad st1 (tail ++ take todo in_) (acc k 0 whole) Hk1 ltac:(solve_bytes) Ha) as (Hk' & Ha' & Hbf & Hbu).
    rewrite acc_snoc_blocks in Ha' by done.
    assert (length (tail ++ take todo in_) = 16%nat) as E16' by (by rewrite length_app, Htl, Htail).
    apply update_blocks_holds; [by apply keyed_with_buf| |done|auto with bytes|by rewrite <- app_assoc|apply canonical_with_buf].
    + rewrite <- app_assoc. apply whole_app; [done|]. by rewrite E16'.
    + rewrite <- app_assoc. apply (canonical_update st1); [by apply canonical_with_buf|done|by rewrite E16'].
  - assert (todo = length in_) as Ht' by lia. rewrite Ht', drop_all. unfold poly1305_update_blocks. cbn.
    split; [done|]. exists whole, (tail ++ in_). rewrite Ht', (take_ge in_) in Hbt by lia. cbn [buf buf_used with_buf st1].
    rewrite Ht'. refine (conj eq_refl (conj Hw (conj Hbt (conj _ (conj _ (conj Ha _)))))); [lia|solve_bytes|by apply canonical_with_buf].
Qed.

(** * The key *)

Lemma land_split k a m0 m1 :
  0 <= k -> 0 <= m0 < 2 ^ k -> Z.land a (m0 + 2 ^ k * m1) = Z.land a m0 + 2 ^ k * Z.land (a / 2 ^ k) m1.
Proof.
  intros Hk Hm. assert (0 <= Z.land a m0 < 2 ^ k) as Hl.
  { rewrite <- (Z.mod_small m0 (2 ^ k)) by done. rewrite <- Z.land_ones by done. rewrite Z.land_assoc, Z.land_ones by done.
    apply Z.mod_pos_bound. lia. }
  rewrite (Z.add_comm m0), (Z.mul_comm _ m1), <- (lor_add_disjoint m1 m0 k) by done.
  rewrite (Z.add_comm (Z.land a m0)), (Z.mul_comm (2 ^ k)), <- (lor_add_disjoint _ (Z.land a m0) k) by done.
  rewrite Z.land_lor_distr_r. f_equal. rewrite <- !Z.shiftl_mul_pow2, <- Z.shiftr_div_pow2 by lia.
  apply Z.bits_inj'; intros i Hi. rewrite Z.land_spec. destruct (decide (i < k)).
  - rewrite !Z.shiftl_spec_low by lia. apply andb_false_r.
  - rewrite !Z.shiftl_spec_high by lia. rewrite Z.land_spec, Z.shiftr_spec by lia. do 2 f_equal. lia.
Qed.

(** Masks of less than 26 bits do not see what is above. *)
Lemma land_low26 a b m : 0 <= m < 2 ^ 26 -> a mod 2 ^ 26 = b mod 2 ^ 26 -> Z.land a m = Z.land b m.
Proof.
  intros Hm E. rewrite <- (Z.mod_small m (2 ^ 26)) by done. rewrite <- Z.land_ones, !(Z.land_comm m), !Z.land_assoc by lia.
  rewrite !Z.land_ones by lia. by rewrite E.
Qed.

Lemma land_bound a m : 0 <= m -> 0 <= Z.land a m <= m.
Proof.
  intros Hm. split; [apply Z.land_nonneg; lia|]. destruct (Z.le_gt_cases (Z.land a m) m) as [|Hgt]; [done|].
  exfalso. assert (Z.ldiff m a + Z.land a m = m) as E; [|pose proof (proj2 (Z.ldiff_nonneg m a) ltac:(lia)); lia].
  rewrite Z.add_nocarry_lxor; apply Z.bits_inj'; intros i Hi;
    rewrite ?Z.lxor_spec, ?Z.land_spec, ?Z.ldiff_spec, ?Z.land_spec, ?Z.bits_0; by destruct (Z.testbit a i), (Z.testbit m i).
Qed.

Lemma lor_shl a b k : 0 <= k <= 32 -> 0 <= a < 2 ^ k -> Z.lor a (u32 (Z.shiftl b k)) = a + u32 (b * 2 ^ k).
Proof.
  intros Hk Ha. rewrite Z.shiftl_mul_pow2, Z.lor_comm by lia. unfold u32.
  replace (2 ^ 32) with (2 ^ (32 - k) * 2 ^ k) by (rewrite <- Z.pow_add_r by lia; f_equal; lia).
  rewrite Z.mul_mod_distr_r by lia. rewrite lor_add_disjoint by lia. lia.
Qed.

Lemma clamp_limbs R :
  rfc_clamp R = lval (Limbs (Z.land R 0x3ffffff) (Z.land (R / 2 ^ 26) 0x3ffff03) (Z.land (R / 2 ^ 52) 0x3ffc0ff)
                            (Z.land (R / 2 ^ 78) 0x3f03fff) (Z.land (R / 2 ^ 104) 0x00fffff)).
Proof.
  unfold rfc_clamp, lval. cbn [l0 l1 l2 l3 l4].
  change 0x0ffffffc0ffffffc0ffffffc0fffffff with
    (0x3ffffff + 2 ^ 26 * (0x3ffff03 + 2 ^ 26 * (0x3ffc0ff + 2 ^ 26 * (0x3f03fff + 2 ^ 26 * 0x00fffff)))).
  rewrite !land_split, !Zdiv_Zdiv by lia. rewrite <- !Z.pow_add_r by lia. done.
Qed.

Lemma CRYPTO_poly1305_init_holds st0 k :
  bytes_ok k -> length (buf st0) = 16%nat ->
  poly_holds (rfc_clamp (le_val (take 16 k))) (take 16 (drop 16 k)) [] (CRYPTO_poly1305_init st0 k).
Proof.
  intros Hok Hbuf. pose proof (load_u32_le_bound k Hok) as B0.
  pose proof (load_u32_le_bound (drop 4 k) ltac:(auto with bytes)) as B1.
  pose proof (load_u32_le_bound (drop 8 k) ltac:(auto with bytes)) as B2.
  pose proof (load_u32_le_bound (drop 12 k) ltac:(auto with bytes)) as B3.
  split.
  - rewrite le_val_load_u32. unfold CRYPTO_poly1305_init.
    set (t0 := CRYPTO_load_u32_le k) in *. set (t1 := CRYPTO_load_u32_le (drop 4 k)) in *.
    set (t2 := CRYPTO_load_u32_le (drop 8 k)) in *. set (t3 := CRYPTO_load_u32_le (drop 12 k)) in *. clearbody t0 t1 t2 t3.
    rewrite !shiftr_div, !lor_shl by (lia || dlia). unfold keyed, r_ok. cbn [r s1 s2 s3 s4 h buf key l0 l1 l2 l3 l4].
    pose proof (land_bound t0 0x3ffffff ltac:(lia)). pose proof (land_bound (t0 / 2 ^ 26 + u32 (t1 * 2 ^ 6)) 0x3ffff03 ltac:(lia)).
    pose proof (land_bound (t1 / 2 ^ 20 + u32 (t2 * 2 ^ 12)) 0x3ffc0ff ltac:(lia)).
    pose proof (land_bound (t2 / 2 ^ 14 + u32 (t3 * 2 ^ 18)) 0x3f03fff ltac:(lia)). pose proof (land_bound (t3 / 2 ^ 8) 0x00fffff ltac:(lia)).
    repeat rewrite (u32_id (Z.land _ _ * 5)) by lia. split; [lia|]. split; [|done]. rewrite clamp_limbs. unfold u32.
    rewrite (land_low26 t0 (t0 + 2 ^ 32 * (t1 + 2 ^ 32 * (t2 + 2 ^ 32 * t3)))) by (lia || dlia).
    rewrite (land_low26 (t0 / 2 ^ 26 + _) ((t0 + 2 ^ 32 * (t1 + 2 ^ 32 * (t2 + 2 ^ 32 * t3))) / 2 ^ 26)) by (lia || dlia).
    rewrite (land_low26 (t1 / 2 ^ 20 + _) ((t0 + 2 ^ 32 * (t1 + 2 ^ 32 * (t2 + 2 ^ 32 * t3))) / 2 ^ 52)) by (lia || dlia).
    rewrite (land_low26 (t2 / 2 ^ 14 + _) ((t0 + 2 ^ 32 * (t1 + 2 ^ 32 * (t2 + 2 ^ 32 * t3))) / 2 ^ 78)) by (lia || dlia).
    replace (t3 / 2 ^ 8) with ((t0 + 2 ^ 32 * (t1 + 2 ^ 32 * (t2 + 2 ^ 32 * t3))) / 2 ^ 104) by dlia. done.
  - exists [], []. split_and!; try done; try (cbn; lia). apply bytes_ok_nil.
Qed.

(** * The end *)

(** The carries of [CRYPTO_poly1305_finish]. *)
Lemma finish_carry_spec x :
  limbs_ok x ->
  let y := finish_carry x in
  lval y mod p1305 = lval x mod p1305 /\
  0 <= l0 y < 2 ^ 26 + 5 /\ 0 <= l1 y < 2 ^ 26 /\ 0 <= l2 y < 2 ^ 26 /\ 0 <= l3 y < 2 ^ 26 /\ 0 <= l4 y < 2 ^ 26 /\
  (2 ^ 26 <= l0 y -> l1 y < 42 /\ l2 y = 0 /\ l3 y = 0 /\ l4 y = 0).
Proof.
  destruct x as [h0 h1 h2 h3 h4]. unfold limbs_ok. cbn [l0 l1 l2 l3 l4]. intros (H0 & H1 & H2 & H3 & H4).
  unfold finish_carry, lval. rewrite !land26, !shiftr_div by lia. cbn [l0 l1 l2 l3 l4].
  assert (0 <= h0 / 2 ^ 26 < 42) by dlia. rewrite (u32_id (h1 + _)) by lia. set (b0 := h0 / 2 ^ 26) in *.
  pose proof (Z.div_mod h0 (2 ^ 26) ltac:(lia)) as E0. pose proof (Z.mod_pos_bound h0 (2 ^ 26) ltac:(lia)). fold b0 in E0.
  pose proof (Z.div_mod (h1 + b0) (2 ^ 26) ltac:(lia)) as E1. pose proof (Z.mod_pos_bound (h1 + b0) (2 ^ 26) ltac:(lia)).
  assert (0 <= (h1 + b0) / 2 ^ 26 <= 1) by (clearbody b0; dlia). rewrite (u32_id (h2 + _)) by lia. set (b1 := (h1 + b0) / 2 ^ 26) in *.
  pose proof (Z.div_mod (h2 + b1) (2 ^ 26) ltac:(lia)) as E2. pose proof (Z.mod_pos_bound (h2 + b1) (2 ^ 26) ltac:(lia)).
  assert (0 <= (h2 + b1) / 2 ^ 26 <= 1) by (clearbody b1; dlia). rewrite (u32_id (h3 + _)) by lia. set (b2 := (h2 + b1) / 2 ^ 26) in *.
  pose proof (Z.div_mod (h3 + b2) (2 ^ 26) ltac:(lia)) as E3. pose proof (Z.mod_pos_bound (h3 + b2) (2 ^ 26) ltac:(lia)).
  assert (0 <= (h3 + b2) / 2 ^ 26 <= 1) by (clearbody b2; dlia). rewrite (u32_id (h4 + _)) by lia. set (b3 := (h3 + b2) / 2 ^ 26) in *.
  pose proof (Z.div_mod (h4 + b3) (2 ^ 26) ltac:(lia)) as E4. pose proof (Z.mod_pos_bound (h4 + b3) (2 ^ 26) ltac:(lia)).
  assert (0 <= (h4 + b3) / 2 ^ 26 <= 1) by (clearbody b3; dlia). set (b4 := (h4 + b3) / 2 ^ 26) in *.
  rewrite (u32_id (b4 * 5)), (u32_id (_ + _)) by lia.
  set (m0 := h0 mod 2 ^ 26) in *. set (m1 := (h1 + b0) mod 2 ^ 26) in *. set (m2 := (h2 + b1) mod 2 ^ 26) in *.
  set (m3 := (h3 + b2) mod 2 ^ 26) in *. set (m4 := (h4 + b3) mod 2 ^ 26) in *.
  clearbody b0 b1 b2 b3 b4 m0 m1 m2 m3 m4. split; [|lia].
  rewrite <- (Z.mod_add (_ + _) b4 p1305) by done. f_equal. unfold p1305. lia.
Qed.

(** With the number that the limbs end up with, the reduced one. *)
Lemma finish_select_spec x :
  0 <= l0 x < 2 ^ 26 + 5 -> 0 <= l1 x < 2 ^ 26 -> 0 <= l2 x < 2 ^ 26 -> 0 <= l3 x < 2 ^ 26 -> 0 <= l4 x < 2 ^ 26 ->
  (2 ^ 26 <= l0 x -> l1 x < 42 /\ l2 x = 0 /\ l3 x = 0 /\ l4 x = 0) ->
  let y := finish_select x in
  lval y = lval x mod p1305 /\
  0 <= l1 y < 2 ^ 26 /\ 0 <= l2 y < 2 ^ 26 /\ 0 <= l3 y < 2 ^ 26 /\ 0 <= l4 y < 2 ^ 26 /\
  (0 <= l0 y < 2 ^ 26 \/ (2 ^ 26 <= l0 y < 2 ^ 26 + 5 /\ l1 y < 42 /\ l2 y = 0 /\ l3 y = 0 /\ l4 y = 0)).
Proof.
  destruct x as [h0 h1 h2 h3 h4]. cbn [l0 l1 l2 l3 l4]. intros H0 H1 H2 H3 H4 Hbig.
  unfold finish_select, lval. rewrite !land26, !shiftr_div by lia. rewrite (u32_id (h0 + 5)) by lia.
  set (g0 := h0 + 5) in *. pose proof (Z.div_mod g0 (2 ^ 26) ltac:(lia)) as E0. pose proof (Z.mod_pos_bound g0 (2 ^ 26) ltac:(lia)).
  assert (0 <= g0 / 2 ^ 26 <= 1) by (unfold g0; dlia). rewrite (u32_id (h1 + _)) by lia. set (b0 := g0 / 2 ^ 26) in *.
  pose proof (Z.div_mod (h1 + b0) (2 ^ 26) ltac:(lia)) as E1. pose proof (Z.mod_pos_bound (h1 + b0) (2 ^ 26) ltac:(lia)).
  assert (0 <= (h1 + b0) / 2 ^ 26 <= 1) by (clearbody b0; dlia). rewrite (u32_id (h2 + _)) by lia. set (b1 := (h1 + b0) / 2 ^ 26) in *.
  pose proof (Z.div_mod (h2 + b1) (2 ^ 26) ltac:(lia)) as E2. pose proof (Z.mod_pos_bound (h2 + b1) (2 ^ 26) ltac:(lia)).
  assert (0 <= (h2 + b1) / 2 ^ 26 <= 1) by (clearbody b1; dlia). rewrite (u32_id (h3 + _)) by lia. set (b2 := (h2 + b1) / 2 ^ 26) in *.
  pose proof (Z.div_mod (h3 + b2) (2 ^ 26) ltac:(lia)) as E3. pose proof (Z.mod_pos_bound (h3 + b2) (2 ^ 26) ltac:(lia)).
  assert (0 <= (h3 + b2) / 2 ^ 26 <= 1) by (clearbody b2; dlia). set (b3 := (h3 + b2) / 2 ^ 26) in *.
  change (Z.shiftl 1 26) with (2 ^ 26).
  set (m0 := g0 mod 2 ^ 26) in *. set (m1 := (h1 + b0) mod 2 ^ 26) in *. set (m2 := (h2 + b1) mod 2 ^ 26) in *.
  set (m3 := (h3 + b2) mod 2 ^ 26) in *. unfold g0 in *. clearbody b0 b1 b2 b3 m0 m1 m2 m3. clear g0.
  assert (Z.land 0 0 = 0) as _ by done.
  assert (forall a b, 0 <= a < 2 ^ 32 -> Z.lor (Z.land a 0xffffffff) (Z.land b 0) = a) as Hfst.
  { intros a b Ha. rewrite Z.land_0_r, Z.lor_0_r. exact (eq_trans (land_mask a 32 ltac:(lia)) (Z.mod_small _ _ Ha)). }
  assert (forall a b, 0 <= b < 2 ^ 32 -> Z.lor (Z.land a 0) (Z.land b 0xffffffff) = b) as Hsnd.
  { intros a b Hb. rewrite Z.land_0_r, Z.lor_0_l. exact (eq_trans (land_mask b 32 ltac:(lia)) (Z.mod_small _ _ Hb)). }
  destruct (decide (h4 + b3 < 2 ^ 26)) as [Hlt|Hge].
  - assert (u32 (h4 + b3 - 2 ^ 26) = h4 + b3 - 2 ^ 26 + 2 ^ 32) as ->.
    { unfold u32. rewrite <- (Z.mod_add _ 1) by lia. apply Z.mod_small. lia. }
    assert (u32 ((h4 + b3 - 2 ^ 26 + 2 ^ 32) / 2 ^ 31 - 1) = 0) as ->.
    { replace ((h4 + b3 - 2 ^ 26 + 2 ^ 32) / 2 ^ 31) with 1 by dlia. done. }
    change (u32 (Z.lnot 0)) with 0xffffffff. cbn [l0 l1 l2 l3 l4]. rewrite !Hfst by lia.
    split; [symmetry; apply Z.mod_small; unfold p1305; lia|]. lia.
  - assert (h4 + b3 - 2 ^ 26 = 0) as Hg4 by lia. rewrite Hg4.
    change (u32 0) with 0. change (u32 (0 / 2 ^ 31 - 1)) with 0xffffffff. change (u32 (Z.lnot 0xffffffff)) with 0.
    cbn [l0 l1 l2 l3 l4]. rewrite !Hsnd by lia. split; [|lia].
    apply (Z.mod_unique_pos _ p1305 1); unfold p1305; lia.
Qed.

(** One word of a sum, and the carry into the rest. *)
Lemma le_bytes_carry n F R : le_bytes (4 + n) (F + 2 ^ 32 * R) = le_bytes 4 (u32 F) ++ le_bytes n (R + F / 2 ^ 32).
Proof.
  rewrite le_bytes_plus. change (256 ^ Z.of_nat 4) with (2 ^ 32). f_equal; [|f_equal; dlia].
  rewrite <- le_bytes_mod, <- (le_bytes_mod 4 (u32 F)). f_equal. change (256 ^ Z.of_nat 4) with (2 ^ 32). unfold u32.
  rewrite Zmod_mod. replace (F + 2 ^ 32 * R) with (F + R * 2 ^ 32) by lia. by apply Z.mod_add.
Qed.

(** The four additions at the end of [CRYPTO_poly1305_finish]. *)
Lemma finish_words w0 w1 w2 w3 k :
  0 <= w0 < 2 ^ 32 -> 0 <= w1 < 2 ^ 32 -> 0 <= w2 < 2 ^ 32 -> 0 <= w3 < 2 ^ 32 -> bytes_ok k ->
  let f0 := u64 (w0 + CRYPTO_load_u32_le k) in
  let f1 := u64 (u64 (w1 + CRYPTO_load_u32_le (drop 4 k)) + Z.shiftr f0 32) in
  let f2 := u64 (u64 (w2 + CRYPTO_load_u32_le (drop 8 k)) + Z.shiftr f1 32) in
  let f3 := u64 (u64 (w3 + CRYPTO_load_u32_le (drop 12 k)) + Z.shiftr f2 32) in
  le_bytes 4 (u32 f0) ++ le_bytes 4 (u32 f1) ++ le_bytes 4 (u32 f2) ++ le_bytes 4 (u32 f3) =
  le_bytes 16 (w0 + 2 ^ 32 * (w1 + 2 ^ 32 * (w2 + 2 ^ 32 * w3)) + le_val (take 16 k)).
Proof.
  intros W0 W1 W2 W3 Hk. pose proof (load_u32_le_bound k Hk) as B0.
  pose proof (load_u32_le_bound (drop 4 k) ltac:(auto with bytes)) as B1.
  pose proof (load_u32_le_bound (drop 8 k) ltac:(auto with bytes)) as B2.
  pose proof (load_u32_le_bound (drop 12 k) ltac:(auto with bytes)) as B3.
  rewrite le_val_load_u32. set (k0 := CRYPTO_load_u32_le k) in *. set (k1 := CRYPTO_load_u32_le (drop 4 k)) in *.
  set (k2 := CRYPTO_load_u32_le (drop 8 k)) in *. set (k3 := CRYPTO_load_u32_le (drop 12 k)) in *.
  clearbody k0 k1 k2 k3. cbv zeta. rewrite !shiftr_div by lia. rewrite (u64_id (w0 + k0)), (u64_id (w1 + k1)), (u64_id (w2 + k2)), (u64_id (w3 + k3)) by lia.
  assert (0 <= (w0 + k0) / 2 ^ 32 <= 1) by dlia.
  replace (w0 + 2 ^ 32 * (w1 + 2 ^ 32 * (w2 + 2 ^ 32 * w3)) + (k0 + 2 ^ 32 * (k1 + 2 ^ 32 * (k2 + 2 ^ 32 * k3)))) with
    ((w0 + k0) + 2 ^ 32 * ((w1 + k1) + 2 ^ 32 * ((w2 + k2) + 2 ^ 32 * (w3 + k3)))) by lia.
  rewrite (le_bytes_carry 12). f_equal. set (c0 := (w0 + k0) / 2 ^ 32) in *. clearbody c0. rewrite (u64_id (w1 + k1 + c0)) by lia.
  replace (w1 + k1 + 2 ^ 32 * (w2 + k2 + 2 ^ 32 * (w3 + k3)) + c0) with
    ((w1 + k1 + c0) + 2 ^ 32 * ((w2 + k2) + 2 ^ 32 * (w3 + k3))) by lia.
  assert (0 <= (w1 + k1 + c0) / 2 ^ 32 <= 1) by dlia.
  rewrite (le_bytes_carry 8). f_equal. set (c1 := (w1 + k1 + c0) / 2 ^ 32) in *. clearbody c1. rewrite (u64_id (w2 + k2 + c1)) by lia.
  replace (w2 + k2 + 2 ^ 32 * (w3 + k3) + c1) with ((w2 + k2 + c1) + 2 ^ 32 * (w3 + k3)) by lia.
  assert (0 <= (w2 + k2 + c1) / 2 ^ 32 <= 1) by dlia.
  rewrite (le_bytes_carry 4). f_equal. set (c2 := (w2 + k2 + c1) / 2 ^ 32) in *. clearbody c2. rewrite (u64_id (w3 + k3 + c2)) by lia.
  apply (le_bytes_mod 4).
Qed.

(** The words of limbs that have no more than 26 bits; the low one may have
    lost a bit. *)
Lemma finish_low_words y :
  0 <= l0 y < 2 ^ 26 -> 0 <= l1 y < 2 ^ 26 -> 0 <= l2 y < 2 ^ 26 -> 0 <= l3 y < 2 ^ 26 -> 0 <= l4 y < 2 ^ 26 ->
  exists q,
  Z.lor (l0 y) (u32 (Z.shiftl (l1 y) 26)) + 2 ^ 32 * (Z.lor (Z.shiftr (l1 y) 6) (u32 (Z.shiftl (l2 y) 20)) +
    2 ^ 32 * (Z.lor (Z.shiftr (l2 y) 12) (u32 (Z.shiftl (l3 y) 14)) +
    2 ^ 32 * Z.lor (Z.shiftr (l3 y) 18) (u32 (Z.shiftl (l4 y) 8)))) = lval y + 2 ^ 128 * q.
Proof.
  intros. rewrite !shiftr_div, !lor_shl by (lia || dlia). unfold lval, u32. exists (- (l4 y / 2 ^ 24)). dlia.
Qed.

(** The [|] of a limb that is too big with an odd one. *)
Lemma lost_carry j e : 0 <= j < 5 -> 0 <= e < 42 ->
  Z.lor (2 ^ 26 + j) (u32 (Z.shiftl e 26)) = j + 2 ^ 26 * (if Z.even e then e + 1 else e).
Proof.
  intros Hj He. assert (forallb (fun j => forallb (fun e =>
    Z.lor (2 ^ 26 + j) (u32 (Z.shiftl e 26)) =? j + 2 ^ 26 * (if Z.even e then e + 1 else e)) (Z.of_nat <$> seq 0 42)) (Z.of_nat <$> seq 0 5) = true) as H
    by (vm_compute; reflexivity).
  rewrite forallb_forall in H. specialize (H j). rewrite forallb_forall in H. apply Z.eqb_eq, H; apply list_elem_of_In, list_elem_of_fmap.
  - exists (Z.to_nat j). split; [lia|]. apply elem_of_seq. lia.
  - exists (Z.to_nat e). split; [lia|]. apply elem_of_seq. lia.
Qed.

Lemma u32_bound x : 0 <= u32 x < 2 ^ 32.
Proof. apply Z.mod_pos_bound. lia. Qed.

Lemma lor_u32 a b : 0 <= a < 2 ^ 32 -> 0 <= b < 2 ^ 32 -> 0 <= Z.lor a b < 2 ^ 32.
Proof.
  intros Ha Hb. rewrite <- (Z.mod_small a (2 ^ 32)), <- (Z.mod_small b (2 ^ 32)), <- !Z.land_ones by lia.
  rewrite <- Z.land_lor_distr_l, Z.land_ones by lia. apply Z.mod_pos_bound. lia.
Qed.

Lemma CRYPTO_poly1305_finish_holds k pad m st :
  poly_holds k pad m st -> bytes_ok pad ->
  let A := acc k 0 m in
  let tag := fst (CRYPTO_poly1305_finish st) in
  tag = le_bytes 16 (A + le_val (take 16 pad)) \/
  (A mod 2 ^ 27 < 5 /\ 2 ^ 27 <= A < 43 * 2 ^ 26 /\ tag = le_bytes 16 (A - 2 ^ 26 + le_val (take 16 pad))).
Proof.
  intros [Hk (whole & tail & -> & Hw & Ht & Hu & Hto & Ha & _)] Hpad. cbv zeta. unfold CRYPTO_poly1305_finish.
  set (st1 := if negb (buf_used st =? 0)%nat then _ else _).
  assert (keyed k pad st1 /\ acc_rep st1 (acc k 0 (whole ++ tail))) as [(_ & _ & Hp & _) [Hx HA]].
  { unfold st1. rewrite Ht. destruct (Nat.eqb_spec (buf_used st) 0) as [E|E]; cbn [negb].
    - rewrite E in Ht. cbn in Ht. subst tail. by rewrite app_nil_r.
    - destruct (keyed_update k pad st tail _ Hk Hto Ha) as (Hk' & Ha' & _). by rewrite acc_snoc_blocks in Ha'. }
  clearbody st1. set (A := acc k 0 (whole ++ tail)) in *. clearbody A.
  destruct (finish_carry_spec (h st1) Hx) as (Hv & C0 & C1 & C2 & C3 & C4 & Cb).
  destruct (finish_select_spec (finish_carry (h st1)) C0 C1 C2 C3 C4 Cb) as (Hs & S1 & S2 & S3 & S4 & S0). rewrite Hv, HA in Hs.
  destruct (finish_select (finish_carry (h st1))) as [y0 y1 y2 y3 y4] eqn:Ey. clear C0 C1 C2 C3 C4 Cb Ey Hv. cbn [fst].
  unfold CRYPTO_store_u32_le. rewrite Hp. cbn [l0 l1 l2 l3 l4] in *.
  pose proof (fun a b Ha => lor_u32 a (u32 b) Ha (u32_bound b)) as Hlor.
  pose proof (Hlor y0 (Z.shiftl y1 26) ltac:(lia)) as W0.
  pose proof (Hlor (Z.shiftr y1 6) (Z.shiftl y2 20) ltac:(rewrite shiftr_div by lia; dlia)) as W1.
  pose proof (Hlor (Z.shiftr y2 12) (Z.shiftl y3 14) ltac:(rewrite shiftr_div by lia; dlia)) as W2.
  pose proof (Hlor (Z.shiftr y3 18) (Z.shiftl y4 8) ltac:(rewrite shiftr_div by lia; dlia)) as W3.
  pose proof (finish_words _ _ _ _ pad W0 W1 W2 W3 Hpad) as Hf. cbv zeta in Hf. rewrite Hf. clear Hf Hlor.
  assert (forall V W, (exists q, V = W + 2 ^ 128 * q) -> le_bytes 16 (V + le_val (take 16 pad)) = le_bytes 16 (W + le_val (take 16 pad))) as Hmod.
  { intros V W [q ->]. rewrite <- le_bytes_mod, <- (le_bytes_mod 16 (W + _)). f_equal. change (256 ^ Z.of_nat 16) with (2 ^ 128).
    rewrite <- (Z.mod_add (W + _) q) by lia. f_equal. lia. }
  destruct S0 as [S0|(S0 & T1 & -> & -> & ->)].
  - left. apply Hmod. rewrite <- Hs. by apply (finish_low_words (Limbs y0 y1 y2 y3 y4)).
  - unfold lval in Hs. cbn [l0 l1 l2 l3 l4] in Hs. change (Z.shiftl 0 20) with 0. change (Z.shiftl 0 14) with 0. change (Z.shiftl 0 8) with 0.
    change (Z.shiftr 0 12) with 0. change (Z.shiftr 0 18) with 0. change (u32 0) with 0. rewrite !Z.lor_0_r, !shiftr_div by lia.
    rewrite (Z.div_small y1) by lia. replace y0 with (2 ^ 26 + (y0 - 2 ^ 26)) by lia. rewrite lost_carry by lia.
    pose proof (Z.even_spec y1) as Hev. destruct (Z.even y1) eqn:Ee.
    + left. f_equal. lia.
    + right. assert (exists e, y1 = 2 * e + 1) as [e ->] by (apply Z.odd_spec; by rewrite <- Z.negb_even, Ee).
      split; [|split; [lia|f_equal; lia]]. rewrite <- Hs.
      replace (y0 + 2 ^ 26 * (2 * e + 1 + 2 ^ 26 * (0 + 2 ^ 26 * (0 + 2 ^ 26 * 0)))) with (y0 - 2 ^ 26 + (e + 1) * 2 ^ 27) by lia.
      rewrite Z.mod_add, Z.mod_small by lia. lia.
Qed.

(** Two states with the same key. *)
Definition same_key (st st' : poly1305_state_st) : Prop :=
  r st = r st' /\ s1 st = s1 st' /\ s2 st = s2 st' /\ s3 st = s3 st' /\ s4 st = s4 st' /\ key st = key st'.

Lemma keyed_same_key k pad st st' : keyed k pad st -> keyed k pad st' -> same_key st st'.
Proof.
  intros ((A0 & A1 & A2 & A3 & A4 & E1 & E2 & E3 & E4) & Hl & Hp & _) ((B0 & B1 & B2 & B3 & B4 & F1 & F2 & F3 & F4) & Hl' & Hp' & _).
  unfold lval in *. assert (r st = r st') as Er.
  { destruct (r st) as [a0 a1 a2 a3 a4], (r st') as [b0 b1 b2 b3 b4]. cbn [l0 l1 l2 l3 l4] in *. f_equal; lia. }
  unfold same_key. rewrite E1, E2, E3, E4, F1, F2, F3, F4, Er. by rewrite Hp.
Qed.

Lemma hmul_same_key st st' x : same_key st st' -> hmul st x = hmul st' x.
Proof. intros (Er & E1 & E2 & E3 & E4 & _). unfold hmul, poly1305_donna_mul. cbn [h with_h r s1 s2 s3 s4]. rewrite Er, E1, E2, E3, E4. by destruct x, (r st'). Qed.

Lemma hblocks_same_key st st' n x m : same_key st st' -> hblocks st n x m = hblocks st' n x m.
Proof.
  intros Hs. revert x m. induction n as [|n IH]; intros x m; cbn [hblocks]; [done|]. by rewrite IH, (hmul_same_key st st').
Qed.

Lemma hupdate_same_key st st' x m : same_key st st' -> hupdate st x m = hupdate st' x m.
Proof.
  intros Hs. unfold hupdate, htail. rewrite (hblocks_same_key st st') by done. destruct (_ =? 0)%nat; [done|]. by apply hmul_same_key.
Qed.

(** [CRYPTO_poly1305_finish] looks at the limbs with the rest of the input, and
    at the key. *)
Lemma finish_eq st :
  fst (CRYPTO_poly1305_finish st) =
  fst (CRYPTO_poly1305_finish (with_buf [] 0 (with_h
    (if (buf_used st =? 0)%nat then h st else hupdate st (h st) (take (buf_used st) (buf st))) st))).
Proof.
  unfold CRYPTO_poly1305_finish. cbn [buf_used with_buf Nat.eqb negb]. destruct (buf_used st =? 0)%nat; cbn [negb].
  - cbn [h with_buf with_h key]. by destruct (finish_select _).
  - rewrite poly1305_update_hupdate. cbn [h with_buf with_h key]. by destruct (finish_select _).
Qed.

Lemma finish_same_key st st' x :
  same_key st st' -> fst (CRYPTO_poly1305_finish (with_buf [] 0 (with_h x st))) = fst (CRYPTO_poly1305_finish (with_buf [] 0 (with_h x st'))).
Proof.
  intros (_ & _ & _ & _ & _ & E). unfold CRYPTO_poly1305_finish. cbn [buf_used with_buf with_h Nat.eqb negb h key]. rewrite E.
  by destruct (finish_select _).
Qed.

Lemma blocks_unique (a b a' b' : bytes) :
  a ++ b = a' ++ b' -> length a = (length a / 16 * 16)%nat -> length a' = (length a' / 16 * 16)%nat ->
  (length b < 16)%nat -> (length b' < 16)%nat -> a = a' /\ b = b'.
Proof.
  intros E Ha Ha' Hb Hb'. pose proof (f_equal length E) as El. rewrite !length_app in El.
  apply app_inj_1; [lia|done].
Qed.

Lemma poly_tag_unique k pad m st st' :
  poly_holds k pad m st -> poly_holds k pad m st' -> fst (CRYPTO_poly1305_finish st) = fst (CRYPTO_poly1305_finish st').
Proof.
  intros [Hk (a & b & E & Ha & Ht & Hu & _ & _ & Hc)] [Hk' (a' & b' & E' & Ha' & Ht' & Hu' & _ & _ & Hc')].
  pose proof (keyed_same_key _ _ _ _ Hk Hk') as Hs. destruct Hk as (_ & _ & _ & Hb), Hk' as (_ & _ & _ & Hb').
  assert (length b = buf_used st) as Lb by (rewrite <- Ht, length_take; lia).
  assert (length b' = buf_used st') as Lb' by (rewrite <- Ht', length_take; lia).
  destruct (blocks_unique a b a' b') as [<- <-]; [congruence|done|done|lia|lia|].
  rewrite finish_eq, (finish_eq st'). rewrite (finish_same_key _ st') by done. rewrite Ht, Ht', <- Lb, <- Lb'.
  rewrite (hupdate_same_key st st') by done. unfold canonical in *. by rewrite Hc, Hc', (hblocks_same_key st st').
Qed.

(** * Properties *)

Lemma poly_holds_updates k pad chunks m st :
  poly_holds k pad m st -> Forall bytes_ok chunks ->
  poly_holds k pad (m ++ concat chunks) (fold_left CRYPTO_poly1305_update chunks st).
Proof.
  revert m st. induction chunks as [|c chunks IH]; intros m st Hst Hc; cbn [fold_left concat]; [by rewrite app_nil_r|].
  apply Forall_cons in Hc as [Hc Hcs]. rewrite app_assoc. apply IH; [|done]. by apply CRYPTO_poly1305_update_holds.
Qed.

(** One key and message, in a state that was zero. *)
Definition poly_zero_state : poly1305_state_st :=
  Poly1305State (Limbs 0 0 0 0 0) 0 0 0 0 (Limbs 0 0 0 0 0) (replicate 16 0) 0 [].
Definition poly1305_mac (k m : bytes) : bytes :=
  fst (CRYPTO_poly1305_finish (CRYPTO_poly1305_update (CRYPTO_poly1305_init poly_zero_state k) m)).

Lemma poly1305_mac_chunks st0 k chunks :
  length (buf st0) = 16%nat -> bytes_ok k -> Forall bytes_ok chunks ->
  fst (CRYPTO_poly1305_finish (fold_left CRYPTO_poly1305_update chunks (CRYPTO_poly1305_init st0 k))) = poly1305_mac k (concat chunks).
Proof.
  intros Hb Hk Hc. eapply poly_tag_unique.
  - by apply (poly_holds_updates _ _ chunks [] _ (CRYPTO_poly1305_init_holds st0 k Hk Hb)).
  - assert (bytes_ok (concat chunks)) as Hcc.
    { induction Hc as [|c cs Hc1 Hcs IH]; cbn [concat]; [apply bytes_ok_nil|]. apply bytes_ok_app. by split. }
    exact (CRYPTO_poly1305_update_holds _ _ [] _ _ (CRYPTO_poly1305_init_holds poly_zero_state k Hk eq_refl) Hcc).
Qed.

(** The accumulators for which a carry can be lost. *)
Definition carry_lost (A : Z) : Prop := A mod 2 ^ 27 < 5 /\ 2 ^ 27 <= A < 43 * 2 ^ 26.

Lemma poly1305_mac_rfc k m :
  bytes_ok k -> bytes_ok m ->
  let A := rfc_accumulator k m in
  poly1305_mac k m = rfc_poly1305_mac k m \/
  (carry_lost A /\ poly1305_mac k m = le_bytes 16 (A - 2 ^ 26 + le_val (take 16 (drop 16 k)))).
Proof.
  intros Hk Hm. pose proof (CRYPTO_poly1305_update_holds _ _ [] m _ (CRYPTO_poly1305_init_holds poly_zero_state k Hk eq_refl) Hm) as Hst.
  pose proof (CRYPTO_poly1305_finish_holds _ _ _ _ Hst ltac:(auto with bytes)) as Hf.
  cbv zeta in Hf. rewrite take_take in Hf. destruct Hf as [Hf|(H1 & H2 & H3)]; [left; exact Hf|right; split; [by split|exact H3]].
Qed.

Lemma length_poly1305_mac k m : length (poly1305_mac k m) = 16%nat.
Proof.
  unfold poly1305_mac, CRYPTO_poly1305_finish. destruct (finish_select _). cbn [fst]. unfold CRYPTO_store_u32_le.
  by rewrite !length_app, !length_le_bytes.
Qed.

(** C19. Poly1305 is that of RFC 8439: whatever the memory of the state held and
    however the message is cut into updates, the tag is the same, and it is the
    standard's, with one exception: when the accumulator reduces to a multiple of
    [2 ^ 27] and at most 4, below [43 * 2 ^ 26], [CRYPTO_poly1305_finish] may lose
    the carry between its two lowest limbs, and the tag is that of an accumulator
    less [2 ^ 26]. *)
Theorem CRYPTO_poly1305_rfc8439 st0 k chunks :
  length (buf st0) = 16%nat -> bytes_ok k -> Forall bytes_ok chunks ->
  let m := concat chunks in
  let A := rfc_accumulator k m in
  let tag := fst (CRYPTO_poly1305_finish (fold_left CRYPTO_poly1305_update chunks (CRYPTO_poly1305_init st0 k))) in
  tag = poly1305_mac k m /\
  (tag = rfc_poly1305_mac k m \/
   (carry_lost A /\ tag = le_bytes 16 (A - 2 ^ 26 + le_val (take 16 (drop 16 k))))).
Proof.
  intros Hb Hk Hc. cbv zeta. rewrite poly1305_mac_chunks by done. split; [done|]. apply poly1305_mac_rfc; [done|].
  induction Hc as [|c cs Hc1 Hcs IH]; cbn [concat]; [apply bytes_ok_nil|]. apply bytes_ok_app. by split.
Qed.

(** The test vector of RFC 8439, 2.5.2, in two pieces. *)
Definition rfc_2_5_2_key : bytes := be_bytes 32 0x85d6be7857556d337f4452fe42d506a80103808afb0db2fd4abff6af4149f51b.
Definition rfc_2_5_2_msg : bytes := be_bytes 34 0x43727970746f6772617068696320466f72756d2052657365617263682047726f7570.

Lemma CRYPTO_poly1305_rfc8439_witness :
  let k := rfc_2_5_2_key in
  let tag := fst (CRYPTO_poly1305_finish
    (fold_left CRYPTO_poly1305_update [take 5 rfc_2_5_2_msg; drop 5 rfc_2_5_2_msg] (CRYPTO_poly1305_init poly_zero_state k))) in
  rfc_poly1305_mac k rfc_2_5_2_msg = be_bytes 16 0xa8061dc1305136c6c22b8baf0c0127a9 /\ tag = poly1305_mac k rfc_2_5_2_msg.
Proof.
  split; [vm_compute; reflexivity|].
  destruct (CRYPTO_poly1305_rfc8439 poly_zero_state rfc_2_5_2_key [take 5 rfc_2_5_2_msg; drop 5 rfc_2_5_2_msg]) as [Ht _];
    [| | |exact Ht].
  - reflexivity.
  - apply be_bytes_ok.
  - apply Forall_cons; split; [apply bytes_ok_take, be_bytes_ok|]. apply Forall_cons; split; [apply bytes_ok_drop, be_bytes_ok|].
    by apply Forall_nil.
Defined.

(** The exception is there: a key and a message of 16 bytes for which the tag is
    not that of the standard. *)
Example CRYPTO_poly1305_lost_carry :
  let k := be_bytes 16 0xf5fb110c9c73ff0a006d010ea493440d ++ replicate 16 0 in
  let m := be_bytes 16 0xfc304b3dabafbb1749f32b94049f99af in
  fst (CRYPTO_poly1305_finish (CRYPTO_poly1305_update (CRYPTO_poly1305_init poly_zero_state k) m)) =
    be_bytes 16 0x04000004000000000000000000000000 /\
  rfc_poly1305_mac k m = be_bytes 16 0x04000008000000000000000000000000.
Proof. vm_compute. done. Qed.
