(* ===== verification/Chacha.v ===== *)
(** The stream cipher ChaCha20 ([crypto/chacha/chacha.c]): the portable code,
    which the pods are built with ([OPENSSL_NO_ASM]), and the cipher of RFC 8439,
    2.1 to 2.4. *)
From S2P Require Import Prelude Digest.

Definition sigma : bytes := [101; 120; 112; 97; 110; 100; 32; 51; 50; 45; 98; 121; 116; 101; 32; 107].

(** [x[i] += x[j]] and [x[i] = CRYPTO_rotl_u32(x[i] ^ x[j], n)]. *)
Definition add_to (i j : nat) (x : list Z) : list Z := <[i := u32 (nth i x 0 + nth j x 0)]> x.
Definition xor_rotl (i j : nat) (n : Z) (x : list Z) : list Z :=
  <[i := CRYPTO_rotl_u32 (Z.lxor (nth i x 0) (nth j x 0)) n]> x.

Definition QUARTERROUND (a b c d : nat) (x : list Z) : list Z :=
  let x := add_to a b x in
  let x := xor_rotl d a 16 x in
  let x := add_to c d x in
  let x := xor_rotl b c 12 x in
  let x := add_to a b x in
  let x := xor_rotl d a 8 x in
  let x := add_to c d x in
  xor_rotl b c 7 x.

(** Two of the 20 rounds, the body of both loops. *)
Definition two_rounds (x : list Z) : list Z :=
  let x := QUARTERROUND 0 4 8 12 x in
  let x := QUARTERROUND 1 5 9 13 x in
  let x := QUARTERROUND 2 6 10 14 x in
  let x := QUARTERROUND 3 7 11 15 x in
  let x := QUARTERROUND 0 5 10 15 x in
  let x := QUARTERROUND 1 6 11 12 x in
  let x := QUARTERROUND 2 7 8 13 x in
  QUARTERROUND 3 4 9 14 x.

(** [n] little-endian words. *)
Definition load_words (n : nat) (l : bytes) : list Z :=
  (fun i => CRYPTO_load_u32_le (drop (4 * i) l)) <$> seq 0 n.

Definition CRYPTO_hchacha20 (key nonce : bytes) : bytes :=
  let x := load_words 4 sigma ++ load_words 8 key ++ load_words 4 nonce in
  let x := fold_left (fun x _ => two_rounds x) (seq 0 10) x in
  mjoin (CRYPTO_store_u32_le <$> take 4 x) ++ mjoin (CRYPTO_store_u32_le <$> take 4 (drop 12 x)).

Definition chacha_core (input : list Z) : bytes :=
  let x := fold_left (fun x _ => two_rounds x) (seq 0 10) input in
  let x := zip_with (fun a b => u32 (a + b)) x input in
  mjoin (CRYPTO_store_u32_le <$> x).

(** The loop over the blocks of the input; [input[12]] is the counter. *)
Fixpoint chacha_blocks (fuel : nat) (in_ : bytes) (input : list Z) : bytes :=
  match fuel with
  | O => []
  | S fuel =>
      if (0 <? length in_)%nat then
        let todo := if (length in_ <? 64)%nat then length in_ else 64%nat in
        let buf := chacha_core input in
        let out := zip_with Z.lxor (take todo in_) (take todo buf) in
        out ++ chacha_blocks fuel (drop todo in_) (<[12%nat := u32 (nth 12 input 0 + 1)]> input)
      else []
  end.

Definition CRYPTO_chacha_20 (in_ key nonce : bytes) (counter : Z) : bytes :=
  let input := load_words 4 sigma ++ load_words 4 key ++ load_words 4 (drop 16 key) ++ [counter] ++ load_words 3 nonce in
  chacha_blocks (length in_) in_ input.

(** * RFC 8439, 2.1 to 2.4 *)

(** Rotation of a word of 32 bits. *)
Definition rfc_rotl (x n : Z) : Z := (x * 2 ^ n) mod 2 ^ 32 + x / 2 ^ (32 - n).

Definition rfc_quarter_round (s : Z * Z * Z * Z) : Z * Z * Z * Z :=
  let '(a, b, c, d) := s in
  let a := (a + b) mod 2 ^ 32 in let d := rfc_rotl (Z.lxor d a) 16 in
  let c := (c + d) mod 2 ^ 32 in let b := rfc_rotl (Z.lxor b c) 12 in
  let a := (a + b) mod 2 ^ 32 in let d := rfc_rotl (Z.lxor d a) 8 in
  let c := (c + d) mod 2 ^ 32 in let b := rfc_rotl (Z.lxor b c) 7 in
  (a, b, c, d).

(** The state is a matrix of 4 by 4 words. A quarter round on the words in
    column [col + skew * row] of each row: a column for [skew] 0, a diagonal for
    1. *)
Definition rfc_QUARTERROUND (skew : nat) (x : list Z) (col : nat) : list Z :=
  let at_ row := (4 * row + (col + skew * row) mod 4)%nat in
  let '(a, b, c, d) := rfc_quarter_round (nth (at_ 0%nat) x 0, nth (at_ 1%nat) x 0, nth (at_ 2%nat) x 0, nth (at_ 3%nat) x 0) in
  <[at_ 3%nat := d]> (<[at_ 2%nat := c]> (<[at_ 1%nat := b]> (<[at_ 0%nat := a]> x))).

Definition rfc_inner_block (x : list Z) : list Z :=
  fold_left (rfc_QUARTERROUND 1) [0; 1; 2; 3]%nat (fold_left (rfc_QUARTERROUND 0) [0; 1; 2; 3]%nat x).

Definition rfc_rounds (x : list Z) : list Z := Nat.iter 10 rfc_inner_block x.

Definition words_of (l : bytes) : list Z := load_words (length l / 4) l.

Definition rfc_constants : bytes := be_bytes 16 0x657870616e642033322d62797465206b.

Definition rfc_chacha20_block (key nonce : bytes) (counter : Z) : bytes :=
  let state := words_of (rfc_constants ++ key ++ le_bytes 4 counter ++ nonce) in
  mjoin (le_bytes 4 <$> zip_with (fun a b => (a + b) mod 2 ^ 32) (rfc_rounds state) state).

Definition rfc_keystream (key nonce : bytes) (counter : Z) (n : nat) : bytes :=
  mjoin ((fun j => rfc_chacha20_block key nonce ((counter + Z.of_nat j) mod 2 ^ 32)) <$> seq 0 n).

Definition rfc_chacha20_encrypt (key nonce : bytes) (counter : Z) (plaintext : bytes) : bytes :=
  zip_with Z.lxor plaintext (rfc_keystream key nonce counter (length plaintext / 64 + 1)).

(** HChaCha20, of the draft on XChaCha20: the rounds alone, without the middle of
    the state. *)
Definition rfc_hchacha20 (key nonce : bytes) : bytes :=
  let x := rfc_rounds (words_of (rfc_constants ++ key ++ nonce)) in
  mjoin (le_bytes 4 <$> (take 4 x ++ drop 12 x)).
