(* ===== verification/ChachaSpec.v ===== *)
(** ChaCha20 is the cipher of RFC 8439: the quarter rounds over an array, the
    block, and the stream with the counter that wraps. *)
From S2P Require Import Prelude Digest Chacha.

(** * Words *)

Definition word (x : Z) : Prop := 0 <= x < 2 ^ 32.
Definition words_ok (x : list Z) : Prop := Forall word x.

Lemma u32_word x : word (u32 x).
Proof. apply Z.mod_pos_bound. lia. Qed.

Lemma word_lxor a b : word a -> word b -> word (Z.lxor a b).
Proof.
  unfold word. intros Ha Hb. rewrite <- (Z.mod_small a (2 ^ 32)), <- (Z.mod_small b (2 ^ 32)) by done.
  rewrite <- !Z.land_ones by lia.
  replace (Z.lxor (Z.land a (Z.ones 32)) (Z.land b (Z.ones 32))) with (Z.land (Z.lxor a b) (Z.ones 32)).
  - rewrite Z.land_ones by lia. apply Z.mod_pos_bound. lia.
  - apply Z.bits_inj'. intros i Hi. rewrite !Z.land_spec, !Z.lxor_spec, !Z.land_spec.
    by destruct (Z.testbit a i), (Z.testbit b i), (Z.testbit (Z.ones 32) i).
Qed.

Lemma rotl_rfc v n : word v -> 0 < n < 32 -> CRYPTO_rotl_u32 v n = rfc_rotl v n.
Proof.
  unfold word. intros Hv Hn. unfold CRYPTO_rotl_u32, rfc_rotl, u32.
  change 31 with (2 ^ 5 - 1). rewrite land_mask by lia. change (2 ^ 5) with 32.
  replace ((- n) mod 32) with (32 - n) by (rewrite Z.mod_opp_l_nz; rewrite ?Z.mod_small; lia).
  rewrite Z.shiftl_mul_pow2, Z.shiftr_div_pow2 by lia.
  replace (2 ^ 32) with (2 ^ (32 - n) * 2 ^ n) at 1 2 by (rewrite <- Z.pow_add_r by lia; f_equal; lia).
  rewrite Z.mul_mod_distr_r by lia. apply lor_add_disjoint; [lia|].
  split; [apply Z.div_pos; lia|]. apply Z.div_lt_upper_bound; [lia|].
  rewrite <- Z.pow_add_r by lia. replace (32 - n + n) with 32 by lia. lia.
Qed.

Lemma rotl_word v n : word v -> 0 < n < 32 -> word (rfc_rotl v n).
Proof.
  intros Hv Hn. rewrite <- rotl_rfc by done. unfold CRYPTO_rotl_u32. unfold word in *.
  assert (0 <= Z.shiftr v (Z.land (- n) 31) < 2 ^ 32) as H2.
  { rewrite Z.shiftr_div_pow2 by (apply Z.land_nonneg; lia).
    pose proof (Z.pow_pos_nonneg 2 (Z.land (- n) 31) ltac:(lia) ltac:(apply Z.land_nonneg; lia)).
    split; [apply Z.div_pos; lia|]. apply Z.div_lt_upper_bound; nia. }
  pose proof (u32_word (Z.shiftl v n)) as H1. unfold word in H1.
  rewrite <- (Z.mod_small (u32 _) (2 ^ 32)), <- (Z.mod_small (Z.shiftr _ _) (2 ^ 32)), <- !Z.land_ones by lia.
  rewrite <- Z.land_lor_distr_l, Z.land_ones by lia. apply Z.mod_pos_bound. lia.
Qed.

(** * Rounds *)

Lemma add_to_ok i j x : words_ok x -> words_ok (add_to i j x).
Proof. intros Hx. apply Forall_insert; [done|apply u32_word]. Qed.

Lemma nth_word i x : words_ok x -> word (nth i x 0).
Proof.
  intros Hx. destruct (nth_in_or_default i x 0) as [Hin| ->]; [|unfold word; lia].
  unfold words_ok in Hx. rewrite Forall_forall in Hx. apply Hx. by apply list_elem_of_In.
Qed.

(** [xor_rotl] with the rotation of the RFC. *)
Lemma xor_rotl_rfc i j n x :
  words_ok x -> 0 < n < 32 ->
  xor_rotl i j n x = <[i := rfc_rotl (Z.lxor (nth i x 0) (nth j x 0)) n]> x /\ words_ok (xor_rotl i j n x).
Proof.
  intros Hx Hn. assert (word (Z.lxor (nth i x 0) (nth j x 0))) as Hw by (apply word_lxor; by apply nth_word).
  unfold xor_rotl. rewrite rotl_rfc by done. split; [done|]. apply Forall_insert; [done|]. by apply rotl_word.
Qed.

(** The quarter round with the rotations of the RFC, one after the other. *)
Definition quarter_steps (a b c d : nat) (x : list Z) : list Z :=
  let xr i j n x := <[i := rfc_rotl (Z.lxor (nth i x 0) (nth j x 0)) n]> x in
  xr b c 7 (add_to c d (xr d a 8 (add_to a b (xr b c 12 (add_to c d (xr d a 16 (add_to a b x))))))).

Lemma QUARTERROUND_steps a b c d x : words_ok x -> QUARTERROUND a b c d x = quarter_steps a b c d x /\ words_ok (QUARTERROUND a b c d x).
Proof.
  intros Hx. unfold QUARTERROUND, quarter_steps. cbv zeta.
  pose proof (add_to_ok a b x Hx) as H1. destruct (xor_rotl_rfc d a 16 _ H1 ltac:(lia)) as [<- H2].
  pose proof (add_to_ok c d _ H2) as H3. destruct (xor_rotl_rfc b c 12 _ H3 ltac:(lia)) as [<- H4].
  pose proof (add_to_ok a b _ H4) as H5. destruct (xor_rotl_rfc d a 8 _ H5 ltac:(lia)) as [<- H6].
  pose proof (add_to_ok c d _ H6) as H7. by destruct (xor_rotl_rfc b c 7 _ H7 ltac:(lia)) as [<- H8].
Qed.

Lemma length_QUARTERROUND a b c d x : length (QUARTERROUND a b c d x) = length x.
Proof. unfold QUARTERROUND, add_to, xor_rotl. by rewrite !length_insert. Qed.

(** An array with four other elements. *)
Section four.
Context (a b c d : nat) (x : list Z) (Hnd : NoDup [a; b; c; d]) (Hlt : Forall (fun i => i < length x)%nat [a; b; c; d]).

Definition upd4 (v : Z * Z * Z * Z) : list Z :=
  let '(va, vb, vc, vd) := v in <[d := vd]> (<[c := vc]> (<[b := vb]> (<[a := va]> x))).

Lemma four_distinct : a <> b /\ a <> c /\ a <> d /\ b <> c /\ b <> d /\ c <> d.
Proof.
  rewrite !NoDup_cons, !not_elem_of_cons in Hnd. destruct Hnd as ((? & ? & ? & _) & (? & ? & _) & (? & _) & _). done.
Qed.

Lemma four_below : (a < length x /\ b < length x /\ c < length x /\ d < length x)%nat.
Proof. clear Hnd. repeat match goal with H : Forall _ (_ :: _) |- _ => apply Forall_cons in H as [? H] end. done. Qed.

Lemma nth_upd4 va vb vc vd :
  let y := upd4 (va, vb, vc, vd) in nth a y 0 = va /\ nth b y 0 = vb /\ nth c y 0 = vc /\ nth d y 0 = vd.
Proof.
  destruct four_distinct as (? & ? & ? & ? & ? & ?). destruct four_below as (? & ? & ? & ?). cbn [upd4].
  repeat split; rewrite ?nth_insert by (rewrite ?length_insert; lia); repeat case_decide; congruence.
Qed.

Lemma add_to_a va vb vc vd : add_to a b (upd4 (va, vb, vc, vd)) = upd4 ((va + vb) mod 2 ^ 32, vb, vc, vd).
Proof.
  destruct (nth_upd4 va vb vc vd) as (Ea & Eb & _). unfold add_to. rewrite Ea, Eb. cbn [upd4].
  destruct four_distinct as (? & ? & ? & ? & ? & ?).
  rewrite (list_insert_insert_ne _ a d), (list_insert_insert_ne _ a c), (list_insert_insert_ne _ a b) by congruence.
  by rewrite list_insert_insert_eq.
Qed.

Lemma add_to_c va vb vc vd : add_to c d (upd4 (va, vb, vc, vd)) = upd4 (va, vb, (vc + vd) mod 2 ^ 32, vd).
Proof.
  destruct (nth_upd4 va vb vc vd) as (_ & _ & Ec & Ed). unfold add_to. rewrite Ec, Ed. cbn [upd4].
  destruct four_distinct as (? & ? & ? & ? & ? & ?).
  rewrite (list_insert_insert_ne _ c d) by congruence. by rewrite list_insert_insert_eq.
Qed.

Lemma rotl_d n va vb vc vd :
  let y := upd4 (va, vb, vc, vd) in
  <[d := rfc_rotl (Z.lxor (nth d y 0) (nth a y 0)) n]> y = upd4 (va, vb, vc, rfc_rotl (Z.lxor vd va) n).
Proof.
  destruct (nth_upd4 va vb vc vd) as (Ea & _ & _ & Ed). cbv zeta in *. rewrite Ea, Ed. cbn [upd4]. by rewrite list_insert_insert_eq.
Qed.

Lemma rotl_b n va vb vc vd :
  let y := upd4 (va, vb, vc, vd) in
  <[b := rfc_rotl (Z.lxor (nth b y 0) (nth c y 0)) n]> y = upd4 (va, rfc_rotl (Z.lxor vb vc) n, vc, vd).
Proof.
  destruct (nth_upd4 va vb vc vd) as (_ & Eb & Ec & _). cbv zeta in *. rewrite Eb, Ec. cbn [upd4].
  destruct four_distinct as (? & ? & ? & ? & ? & ?).
  rewrite (list_insert_insert_ne _ b d), (list_insert_insert_ne _ b c) by congruence. by rewrite list_insert_insert_eq.
Qed.

Lemma upd4_id : x = upd4 (nth a x 0, nth b x 0, nth c x 0, nth d x 0).
Proof.
  destruct four_below as (? & ? & ? & ?). cbn [upd4].
  assert (forall i, (i < length x)%nat -> x !! i = Some (nth i x 0)) as Hx.
  { intros i Hi. rewrite nth_lookup. by destruct (lookup_lt_is_Some_2 x i Hi) as [v ->]. }
  by rewrite !(list_insert_id x) by auto.
Qed.

Lemma quarter_steps_upd4 : quarter_steps a b c d x = upd4 (rfc_quarter_round (nth a x 0, nth b x 0, nth c x 0, nth d x 0)).
Proof.
  rewrite upd4_id at 1. generalize (nth a x 0) (nth b x 0) (nth c x 0) (nth d x 0). intros va vb vc vd.
  unfold quarter_steps. by rewrite !add_to_a, !rotl_d, !add_to_c, !rotl_b, !add_to_a, !rotl_d, !add_to_c, !rotl_b.
Qed.
End four.

Lemma quarter_rfc a b c d skew col x :
  let at_ row := (4 * row + (col + skew * row) mod 4)%nat in
  a = at_ 0%nat -> b = at_ 1%nat -> c = at_ 2%nat -> d = at_ 3%nat -> words_ok x /\ length x = 16%nat ->
  let y := QUARTERROUND a b c d x in y = rfc_QUARTERROUND skew x col /\ words_ok y /\ length y = 16%nat.
Proof.
  intros at_ Ea Eb Ec Ed [Hx Hl]. cbv zeta. rewrite length_QUARTERROUND. destruct (QUARTERROUND_steps a b c d x Hx) as [-> Hw].
  split; [|done]. assert (forall row, (4 * row <= at_ row < 4 * row + 4)%nat) as Hat.
  { intros row. unfold at_. pose proof (Nat.mod_upper_bound (col + skew * row) 4 ltac:(lia)). lia. }
  pose proof (Hat 0%nat). pose proof (Hat 1%nat). pose proof (Hat 2%nat). pose proof (Hat 3%nat).
  rewrite quarter_steps_upd4.
  - unfold rfc_QUARTERROUND. fold (at_ 0%nat) (at_ 1%nat) (at_ 2%nat) (at_ 3%nat). by rewrite <- Ea, <- Eb, <- Ec, <- Ed.
  - rewrite !NoDup_cons, !not_elem_of_cons. pose proof (NoDup_nil_2 (A := nat)). pose proof (not_elem_of_nil (A := nat)).
    repeat split; auto; lia.
  - rewrite !Forall_cons, Forall_nil. rewrite Hl. lia.
Qed.

#[local] Opaque rfc_QUARTERROUND QUARTERROUND.

Lemma two_rounds_rfc x :
  words_ok x /\ length x = 16%nat ->
  two_rounds x = rfc_inner_block x /\ words_ok (two_rounds x) /\ length (two_rounds x) = 16%nat.
Proof.
  intros Hx. unfold two_rounds, rfc_inner_block. cbn [fold_left]. cbv zeta.
  destruct (quarter_rfc 0 4 8 12 0 0 x eq_refl eq_refl eq_refl eq_refl Hx) as [<- H0].
  destruct (quarter_rfc 1 5 9 13 0 1 _ eq_refl eq_refl eq_refl eq_refl H0) as [<- H1].
  destruct (quarter_rfc 2 6 10 14 0 2 _ eq_refl eq_refl eq_refl eq_refl H1) as [<- H2].
  destruct (quarter_rfc 3 7 11 15 0 3 _ eq_refl eq_refl eq_refl eq_refl H2) as [<- H3].
  destruct (quarter_rfc 0 5 10 15 1 0 _ eq_refl eq_refl eq_refl eq_refl H3) as [<- H4].
  destruct (quarter_rfc 1 6 11 12 1 1 _ eq_refl eq_refl eq_refl eq_refl H4) as [<- H5].
  destruct (quarter_rfc 2 7 8 13 1 2 _ eq_refl eq_refl eq_refl eq_refl H5) as [<- H6].
  destruct (quarter_rfc 3 4 9 14 1 3 _ eq_refl eq_refl eq_refl eq_refl H6) as [<- H7]. done.
Qed.

#[local] Opaque two_rounds rfc_inner_block.

Lemma rounds_rfc n x :
  words_ok x /\ length x = 16%nat ->
  let y := fold_left (fun x _ => two_rounds x) (seq 0 n) x in
  y = Nat.iter n rfc_inner_block x /\ words_ok y /\ length y = 16%nat.
Proof.
  intros Hx. induction n as [|n IH]; [done|]. cbv zeta in *. rewrite seq_S, fold_left_app. cbn [fold_left Nat.iter].
  destruct IH as [E H]. destruct (two_rounds_rfc _ H) as [E' H']. split; [|done]. rewrite E', E. done.
Qed.

(** * Loading the state *)

Lemma load_words_ok n l : bytes_ok l -> words_ok (load_words n l).
Proof. intros Hl. apply Forall_fmap, Forall_true. intros i. apply load_u32_le_bound. auto with bytes. Qed.

Lemma length_load_words n l : length (load_words n l) = n.
Proof. unfold load_words. by rewrite length_fmap, length_seq. Qed.

Lemma load_words_app a b l k : length l = (4 * a)%nat -> load_words (a + b) (l ++ k) = load_words a l ++ load_words b k.
Proof.
  intros Hl. unfold load_words. rewrite seq_app, fmap_app. f_equal.
  - apply list_fmap_ext. intros i j [-> Hj]%lookup_seq. unfold CRYPTO_load_u32_le.
    rewrite drop_app_le by lia. rewrite take_app_le by (rewrite length_drop; lia). done.
  - rewrite <- (Nat.add_0_r (0 + a)), <- fmap_add_seq, <- list_fmap_compose. apply list_fmap_ext. intros i j _. unfold compose.
    cbv beta. f_equal. rewrite drop_app_ge by lia. f_equal. lia.
Qed.

Lemma load_word v : word v -> load_words 1 (le_bytes 4 v) = [v].
Proof.
  intros Hv. unfold load_words, CRYPTO_load_u32_le. cbn [seq fmap list_fmap]. rewrite drop_0, take_ge by (rewrite length_le_bytes; lia).
  rewrite le_val_le_bytes. by rewrite Z.mod_small.
Qed.

(** The initial state of both functions. *)
Lemma chacha_state key nonce counter :
  length key = 32%nat -> length nonce = 12%nat -> word counter ->
  load_words 4 sigma ++ load_words 4 key ++ load_words 4 (drop 16 key) ++ [counter] ++ load_words 3 nonce =
  words_of (rfc_constants ++ key ++ le_bytes 4 counter ++ nonce).
Proof.
  intros Hk Hn Hc. unfold words_of. rewrite !length_app, Hk, Hn, length_le_bytes.
  change ((length rfc_constants + (32 + (4 + 12))) / 4)%nat with (4 + (8 + (1 + 3)))%nat.
  rewrite !load_words_app by (rewrite ?length_le_bytes; done). rewrite load_word by done. f_equal.
  rewrite <- (take_drop 16 key) at 3. rewrite (load_words_app 4 4) by (rewrite length_take; lia). rewrite <- app_assoc.
  f_equal. apply list_fmap_ext. intros i j [-> Hi]%lookup_seq. unfold CRYPTO_load_u32_le. rewrite take_drop_take by lia. done.
Qed.

(** * The block and the stream *)

Lemma rfc_rounds_length x : words_ok x -> length x = 16%nat -> length (rfc_rounds x) = 16%nat.
Proof. intros Hx Hl. unfold rfc_rounds. by destruct (rounds_rfc 10 x (conj Hx Hl)) as [<- [_ H]]. Qed.

(** The initial state of a block. *)
Definition block_state (key nonce : bytes) (counter : Z) : list Z :=
  words_of (rfc_constants ++ key ++ le_bytes 4 counter ++ nonce).

Lemma block_state_ok key nonce counter :
  bytes_ok key -> bytes_ok nonce -> length key = 32%nat -> length nonce = 12%nat ->
  words_ok (block_state key nonce counter) /\ length (block_state key nonce counter) = 16%nat.
Proof.
  intros Hk Hn Lk Ln. unfold block_state, words_of. split.
  - apply load_words_ok. solve_bytes. apply be_bytes_ok.
  - rewrite length_load_words, !length_app, length_le_bytes, Lk, Ln. done.
Qed.

Lemma chacha_core_rfc key nonce counter :
  bytes_ok key -> bytes_ok nonce -> length key = 32%nat -> length nonce = 12%nat ->
  chacha_core (block_state key nonce counter) = rfc_chacha20_block key nonce counter.
Proof.
  intros Hk Hn Lk Ln. unfold chacha_core, rfc_chacha20_block. fold (block_state key nonce counter).
  by destruct (rounds_rfc 10 _ (block_state_ok key nonce counter Hk Hn Lk Ln)) as [-> _].
Qed.

Lemma length_rfc_block key nonce counter :
  bytes_ok key -> bytes_ok nonce -> length key = 32%nat -> length nonce = 12%nat ->
  length (rfc_chacha20_block key nonce counter) = 64%nat.
Proof.
  intros Hk Hn Lk Ln. unfold rfc_chacha20_block. fold (block_state key nonce counter).
  destruct (block_state_ok key nonce counter Hk Hn Lk Ln) as [Hw Hl].
  rewrite (length_mjoin_words _ 4) by apply length_le_bytes. rewrite length_zip_with, rfc_rounds_length by done. by rewrite Hl.
Qed.

(** The counter is one word of the state. *)
Lemma block_state_next key nonce counter :
  length key = 32%nat -> length nonce = 12%nat -> word counter ->
  <[12%nat := u32 (nth 12 (block_state key nonce counter) 0 + 1)]> (block_state key nonce counter) =
  block_state key nonce (u32 (counter + 1)).
Proof.
  intros Lk Ln Hc. unfold block_state. rewrite <- !chacha_state by (try done; apply u32_word).
  set (p := load_words 4 sigma ++ load_words 4 key ++ load_words 4 (drop 16 key)).
  assert (forall v, load_words 4 sigma ++ load_words 4 key ++ load_words 4 (drop 16 key) ++ [v] ++ load_words 3 nonce =
    p ++ [v] ++ load_words 3 nonce) as E by (intros v; unfold p; by rewrite <- !app_assoc).
  rewrite !E. assert (length p = 12%nat) as Hp by (unfold p; by rewrite !length_app, !length_load_words).
  clearbody p. rewrite app_nth2, insert_app_r_alt by lia. by rewrite Hp.
Qed.

Lemma keystream_plus key nonce counter n k :
  rfc_keystream key nonce counter (n + k) = rfc_keystream key nonce counter n ++ rfc_keystream key nonce (u32 (counter + Z.of_nat n)) k.
Proof.
  unfold rfc_keystream. rewrite seq_app, fmap_app, join_app. f_equal. f_equal.
  rewrite <- (Nat.add_0_r (0 + n)), <- fmap_add_seq, <- list_fmap_compose. apply list_fmap_ext. intros i j _. unfold compose, u32.
  cbv beta. f_equal. rewrite Zplus_mod_idemp_l. f_equal. lia.
Qed.

Section stream.
Context (key nonce : bytes) (Hk : bytes_ok key) (Hn : bytes_ok nonce).
Context (Lk : length key = 32%nat) (Ln : length nonce = 12%nat).

Lemma length_keystream counter n : length (rfc_keystream key nonce counter n) = (64 * n)%nat.
Proof.
  unfold rfc_keystream. rewrite (length_mjoin_words _ 64) by (intros; by apply length_rfc_block). rewrite length_seq. lia.
Qed.

Lemma keystream_S counter n :
  word counter -> rfc_keystream key nonce counter (S n) =
  rfc_chacha20_block key nonce counter ++ rfc_keystream key nonce (u32 (counter + 1)) n.
Proof.
  intros Hc. unfold rfc_keystream. cbn [seq fmap list_fmap mjoin list_join]. rewrite Z.add_0_r, Z.mod_small by done. f_equal. f_equal.
  rewrite <- fmap_S_seq, <- list_fmap_compose. apply list_fmap_ext. intros i j _. unfold compose, u32. cbv beta. f_equal.
  rewrite Zplus_mod_idemp_l. f_equal. lia.
Qed.

Lemma zip_lxor_keystream counter n k (m : bytes) :
  (length m <= 64 * n)%nat -> (n <= k)%nat ->
  zip_with Z.lxor m (rfc_keystream key nonce counter k) = zip_with Z.lxor m (rfc_keystream key nonce counter n).
Proof.
  intros Hm Hk'.
  replace k with (n + (k - n))%nat by lia. rewrite keystream_plus, zip_with_cut, length_keystream, take_ge, (drop_ge m) by lia.
  apply app_nil_r.
Qed.

Lemma chacha_blocks_rfc fuel m counter :
  (length m <= fuel)%nat -> word counter ->
  chacha_blocks fuel m (block_state key nonce counter) = rfc_chacha20_encrypt key nonce counter m.
Proof.
  revert m counter. induction fuel as [|fuel IH]; intros m counter Hf Hc; cbn [chacha_blocks].
  { by destruct m; [|cbn in Hf; lia]. }
  destruct (Nat.ltb_spec 0 (length m)) as [Hl|Hl]; [|by destruct m; [|cbn in Hl; lia]].
  rewrite chacha_core_rfc, block_state_next by done. unfold rfc_chacha20_encrypt.
  set (todo := if (length m <? 64)%nat then length m else 64%nat).
  assert (todo = Nat.min (length m) 64) as Ht by (unfold todo; destruct (Nat.ltb_spec (length m) 64); lia). clearbody todo.
  rewrite IH by (rewrite ?length_drop; (lia || apply u32_word)). unfold rfc_chacha20_encrypt.
  nat_div (length m) 64%nat. rewrite (Nat.add_1_r (length m / 64)), keystream_S by done.
  rewrite zip_with_cut, length_rfc_block by done.
  assert (todo = 64 \/ todo = length m)%nat as [-> | ->] by lia.
  - rewrite (take_ge (rfc_chacha20_block _ _ _)) by (rewrite length_rfc_block by done; lia). f_equal.
    nat_div (length (drop 64 m)) 64%nat. rewrite length_drop in *. symmetry. apply zip_lxor_keystream; rewrite ?length_drop; lia.
  - rewrite (take_ge m), (drop_ge m), (drop_ge m) by lia. rewrite (take_ge m) by lia. f_equal.
    rewrite <- (take_ge m (length m)) at 1 by lia. symmetry. rewrite <- (take_drop (length m) (rfc_chacha20_block key nonce counter)) at 1.
    rewrite zip_with_cut, length_take, length_rfc_block, Nat.min_l, drop_ge, take_ge by (done || lia). apply app_nil_r.
Qed.

(** Encryption goes on where it has stopped, on a whole block. *)
Lemma rfc_encrypt_app counter a b n :
  word counter -> length a = (64 * n)%nat ->
  rfc_chacha20_encrypt key nonce counter (a ++ b) =
  rfc_chacha20_encrypt key nonce counter a ++ rfc_chacha20_encrypt key nonce (u32 (counter + Z.of_nat n)) b.
Proof.
  intros Hc Ha. unfold rfc_chacha20_encrypt.
  rewrite (zip_lxor_keystream counter (n + (length b / 64 + 1)) (length (a ++ b) / 64 + 1)).
  2: { rewrite length_app, Ha. nat_div (length b) 64%nat. lia. }
  2: { rewrite length_app, Ha. nat_div (length b) 64%nat. nat_div (64 * n + length b)%nat 64%nat. lia. }
  rewrite (zip_lxor_keystream counter n (length a / 64 + 1)) by (rewrite Ha, ?(Nat.mul_comm 64), ?Nat.div_mul; lia).
  rewrite keystream_plus.
  rewrite zip_with_cut, length_keystream, <- Ha, take_app_length, drop_app_length. done.
Qed.

Lemma length_rfc_encrypt counter m : length (rfc_chacha20_encrypt key nonce counter m) = length m.
Proof. unfold rfc_chacha20_encrypt. rewrite length_zip_with, length_keystream. nat_div (length m) 64%nat. lia. Qed.

Lemma rfc_encrypt_prefix counter a b :
  take (length a) (rfc_chacha20_encrypt key nonce counter (a ++ b)) = rfc_chacha20_encrypt key nonce counter a.
Proof.
  unfold rfc_chacha20_encrypt. nat_div (length a) 64%nat. nat_div (length (a ++ b)) 64%nat.
  rewrite <- (zip_lxor_keystream counter (length a / 64 + 1) (length (a ++ b) / 64 + 1) a) by (rewrite ?length_app in *; lia).
  set (ks := rfc_keystream _ _ _ _). clearbody ks. clear. revert ks. induction a as [|x a IH]; intros [|y ks]; cbn; [done..|].
  by rewrite IH.
Qed.

Lemma zip_lxor_twice (m s : bytes) : (length m <= length s)%nat -> zip_with Z.lxor (zip_with Z.lxor m s) s = m.
Proof.
  revert s. induction m as [|x m IH]; intros [|y s] Hl; cbn in *; [done|done|lia|]. rewrite IH by lia. f_equal.
  by rewrite Z.lxor_assoc, Z.lxor_nilpotent, Z.lxor_0_r.
Qed.

Lemma rfc_encrypt_twice counter m : rfc_chacha20_encrypt key nonce counter (rfc_chacha20_encrypt key nonce counter m) = m.
Proof.
  unfold rfc_chacha20_encrypt at 1. rewrite length_rfc_encrypt. unfold rfc_chacha20_encrypt. apply zip_lxor_twice.
  rewrite length_keystream. nat_div (length m) 64%nat. lia.
Qed.

Lemma CRYPTO_chacha_20_eq counter m : word counter -> CRYPTO_chacha_20 m key nonce counter = rfc_chacha20_encrypt key nonce counter m.
Proof. intros Hc. unfold CRYPTO_chacha_20. rewrite chacha_state by done. by apply chacha_blocks_rfc. Qed.

End stream.

Lemma mjoin_le_bytes_ok n l : bytes_ok (mjoin (le_bytes n <$> l)).
Proof.
  induction l as [|y l IH]; [apply bytes_ok_nil|].
  change (bytes_ok (le_bytes n y ++ mjoin (le_bytes n <$> l))). apply bytes_ok_app. split; [apply le_bytes_ok|done].
Qed.

Lemma rfc_block_bytes_ok key nonce counter : bytes_ok (rfc_chacha20_block key nonce counter).
Proof. apply mjoin_le_bytes_ok. Qed.

Lemma CRYPTO_hchacha20_eq key nonce :
  bytes_ok key -> bytes_ok nonce -> length key = 32%nat -> length nonce = 16%nat ->
  CRYPTO_hchacha20 key nonce = rfc_hchacha20 key nonce /\ length (rfc_hchacha20 key nonce) = 32%nat /\
  bytes_ok (rfc_hchacha20 key nonce).
Proof.
  intros Hk Hn Lk Ln. unfold CRYPTO_hchacha20, rfc_hchacha20.
  assert (load_words 4 sigma ++ load_words 8 key ++ load_words 4 nonce = words_of (rfc_constants ++ key ++ nonce)) as ->.
  { unfold words_of. rewrite !length_app, Lk, Ln. change ((length rfc_constants + (32 + 16)) / 4)%nat with (4 + (8 + 4))%nat.
    by rewrite !load_words_app. }
  set (x := words_of _). assert (words_ok x /\ length x = 16%nat) as Hx.
  { unfold x, words_of. split; [apply load_words_ok; solve_bytes; apply be_bytes_ok|].
    by rewrite length_load_words, !length_app, Lk, Ln. }
  destruct (rounds_rfc 10 x Hx) as [-> [_ Hl]]. change (Nat.iter 10 rfc_inner_block x) with (rfc_rounds x) in *.
  destruct Hx as [Hw Hl0]. pose proof (rfc_rounds_length x Hw Hl0) as Hr. split.
  { rewrite (take_ge (drop 12 _)) by (rewrite length_drop, Hr; lia). by rewrite fmap_app, join_app. }
  split.
  - rewrite (length_mjoin_words _ 4) by apply length_le_bytes. rewrite length_app, length_take, length_drop, Hr. done.
  - apply mjoin_le_bytes_ok.
Qed.

Lemma lxor_byte a b : is_byte a -> is_byte b -> is_byte (Z.lxor a b).
Proof.
  unfold is_byte. intros Ha Hb. assert (Z.lxor a b = Z.lxor a b mod 2 ^ 8) as ->; [|apply Z.mod_pos_bound; lia].
  rewrite <- Z.land_ones by lia. apply Z.bits_inj'. intros i Hi. rewrite Z.land_spec, Z.lxor_spec.
  rewrite <- (Z.mod_small a (2 ^ 8)), <- (Z.mod_small b (2 ^ 8)), <- !Z.land_ones, !Z.land_spec by lia.
  by destruct (Z.testbit a i), (Z.testbit b i), (Z.testbit (Z.ones 8) i).
Qed.

Lemma zip_lxor_bytes_ok (l k : bytes) : bytes_ok l -> bytes_ok k -> bytes_ok (zip_with Z.lxor l k).
Proof.
  intros Hl. revert k. induction Hl as [|x l Hx Hl IH]; intros [|y k] Hk; cbn; try apply bytes_ok_nil.
  apply bytes_ok_cons in Hk as [Hy Hk]. apply bytes_ok_cons. split; [by apply lxor_byte|by apply IH].
Qed.

Lemma rfc_encrypt_bytes_ok key nonce counter m : bytes_ok m -> bytes_ok (rfc_chacha20_encrypt key nonce counter m).
Proof.
  intros Hm. apply zip_lxor_bytes_ok; [done|]. unfold rfc_keystream. induction (seq _ _) as [|j l IH]; [apply bytes_ok_nil|].
  cbn [fmap list_fmap mjoin list_join]. apply bytes_ok_app. split; [apply rfc_block_bytes_ok|exact IH].
Qed.

(** * Properties *)

(** C20. ChaCha20 is the cipher of RFC 8439: for every length of input, the output
    is the input xor the standard's key stream, the block counter wrapping at
    [2 ^ 32] without touching the nonce; deciphering is enciphering; and two
    calls, the second with the counter advanced, do what one does on the
    concatenation when the first ends on a block. HChaCha20 is that of the draft
    on XChaCha20. *)
Theorem CRYPTO_chacha_20_rfc8439 key nonce counter m :
  bytes_ok key -> bytes_ok nonce -> length key = 32%nat -> length nonce = 12%nat -> word counter ->
  CRYPTO_chacha_20 m key nonce counter = rfc_chacha20_encrypt key nonce counter m /\
  CRYPTO_chacha_20 (CRYPTO_chacha_20 m key nonce counter) key nonce counter = m /\
  (forall n m', length m = (64 * n)%nat ->
     CRYPTO_chacha_20 (m ++ m') key nonce counter =
     CRYPTO_chacha_20 m key nonce counter ++ CRYPTO_chacha_20 m' key nonce (u32 (counter + Z.of_nat n))) /\
  (forall nonce', bytes_ok nonce' -> length nonce' = 16%nat -> CRYPTO_hchacha20 key nonce' = rfc_hchacha20 key nonce').
Proof.
  intros Hk Hn Lk Ln Hc. rewrite !CRYPTO_chacha_20_eq by done. split; [done|]. split; [by apply rfc_encrypt_twice|]. split.
  - intros n m' Hm. rewrite !CRYPTO_chacha_20_eq by (done || apply u32_word). by apply rfc_encrypt_app.
  - intros nonce' Hn' Ln'. by apply CRYPTO_hchacha20_eq.
Qed.

(** The test vector of RFC 8439, 2.4.2. *)
Definition rfc_2_4_2_key : bytes := be_bytes 32 0x000102030405060708090a0b0c0d0e0f101112131415161718191a1b1c1d1e1f.
Definition rfc_2_4_2_nonce : bytes := be_bytes 12 0x000000000000004a00000000.
Definition rfc_2_4_2_start : bytes := be_bytes 16 0x4c616469657320616e642047656e746c.

Lemma CRYPTO_chacha_20_rfc8439_witness :
  CRYPTO_chacha_20 rfc_2_4_2_start rfc_2_4_2_key rfc_2_4_2_nonce 1 = be_bytes 16 0x6e2e359a2568f98041ba0728dd0d6981 /\
  rfc_chacha20_encrypt rfc_2_4_2_key rfc_2_4_2_nonce 1 rfc_2_4_2_start = be_bytes 16 0x6e2e359a2568f98041ba0728dd0d6981.
Proof.
  assert (CRYPTO_chacha_20 rfc_2_4_2_start rfc_2_4_2_key rfc_2_4_2_nonce 1 = be_bytes 16 0x6e2e359a2568f98041ba0728dd0d6981) as E
    by (vm_compute; reflexivity).
  split; [exact E|].
  destruct (CRYPTO_chacha_20_rfc8439 rfc_2_4_2_key rfc_2_4_2_nonce 1 rfc_2_4_2_start) as [H _];
    [apply be_bytes_ok|apply be_bytes_ok|reflexivity|reflexivity|unfold word; lia|].
  exact (eq_trans (eq_sym H) E).
Defined.
