(* ===== verification/Aead.v ===== *)
(** Authenticated encryption: the interface [EVP_AEAD] with its contexts
    ([crypto/fipsmodule/cipher/aead.c]) and ChaCha20-Poly1305 with its extension
    to long nonces ([crypto/cipher_extra/e_chacha20poly1305.c]).

    Input and output may be the same buffer, so both are addresses in a memory
    that the calls change; the state of [ST mem] is that memory. The key, the
    nonce, the additional data and the extra input are read where nothing is
    written, and are values. *)
From S2P Require Import Prelude Mem Digest Poly1305 Chacha.

(** * Memory *)

Abbreviation mem := (Z -> Z).

Definition mload (m : mem) (p len : Z) : bytes := (fun i => m (p + Z.of_nat i)) <$> seq 0 (Z.to_nat len).
Definition mstore (p : Z) (bs : bytes) (m : mem) : mem :=
  fun a => if (p <=? a) && (a <? p + Zlen bs) then nth (Z.to_nat (a - p)) bs 0 else m a.

Definition st_load (p len : Z) : ST mem bytes := fun m => (Some (mload m p len), m).
Definition st_store (p : Z) (bs : bytes) : ST mem unit := fun m => (Some tt, mstore p bs m).

(** [OPENSSL_memset(p, 0, len)] *)
Definition mclear (p len : Z) (m : mem) : mem := mstore p (replicate (Z.to_nat len) 0) m.

(** What [goto error] does to the memory that a failed call leaves. *)
Definition on_error {A} (clear : mem -> mem) (c : ST mem A) : ST mem A := fun m =>
  match c m with
  | (Some a, m') => (Some a, m')
  | (None, m') => (None, clear m')
  end.

(** [crypto/internal.h] *)
Definition buffers_alias (a a_bytes b b_bytes : Z) : bool := (u64 (a + a_bytes) >? b) && (u64 (b + b_bytes) >? a).

(** * [EVP_AEAD] *)

(** The part of an [EVP_AEAD_CTX] that belongs to the algorithm. *)
Record aead_data := AeadData {
  state : bytes;       (** 564 bytes *)
  tag_len : Z;
}.

Inductive evp_aead_direction_t := evp_aead_open | evp_aead_seal.

(** A [NULL] pointer to a function is [None]. *)
Record evp_aead_st := EvpAead {
  key_len : Z;
  nonce_len : Z;
  overhead : Z;
  max_tag_len : Z;
  seal_scatter_supports_extra_in : bool;
  init : option (bytes -> Z -> ST aead_data unit);
  init_with_direction : bytes -> Z -> evp_aead_direction_t -> ST aead_data unit;
  (** [out], [max_out_len], [nonce], [in], [in_len], [ad] *)
  open_ : option (aead_data -> Z -> Z -> bytes -> Z -> Z -> bytes -> ST mem Z);
  (** [out], [out_tag], [max_out_tag_len], [nonce], [in], [in_len], [extra_in], [ad] *)
  seal_scatter : aead_data -> Z -> Z -> Z -> bytes -> Z -> Z -> bytes -> bytes -> ST mem Z;
  (** [out], [nonce], [in], [in_len], [in_tag], [in_tag_len], [ad] *)
  open_gather : option (aead_data -> Z -> bytes -> Z -> Z -> Z -> Z -> bytes -> ST mem unit);
  get_iv : option (aead_data -> option bytes);
  tag_len_func : option (aead_data -> Z -> Z -> Z);
}.

Record EVP_AEAD_CTX := AeadCtx { aead : option evp_aead_st; data : aead_data }.

Definition EVP_AEAD_CTX_zero : EVP_AEAD_CTX := AeadCtx None (AeadData (replicate 564 0) 0).

Definition EVP_AEAD_CTX_init_with_direction (a : evp_aead_st) (key : bytes) (tag_len : Z) (dir : evp_aead_direction_t) :
    ST EVP_AEAD_CTX unit := fun ctx =>
  if negb (Zlen key =? key_len a) then (None, AeadCtx None (data ctx))
  else
    let '(ok, d) :=
      match init a with
      | Some f => f key tag_len (data ctx)
      | None => init_with_direction a key tag_len dir (data ctx)
      end in
    (ok, AeadCtx (match ok with Some _ => Some a | None => None end) d).

Definition EVP_AEAD_CTX_init (a : evp_aead_st) (key : bytes) (tag_len : Z) : ST EVP_AEAD_CTX unit := fun ctx =>
  match init a with
  | None => (None, AeadCtx None (data ctx))
  | Some _ => EVP_AEAD_CTX_init_with_direction a key tag_len evp_aead_open ctx
  end.

(** A call to a method of the context; [cleanup] is never anything but empty for
    the algorithms here. *)
Definition EVP_AEAD_CTX_cleanup (ctx : EVP_AEAD_CTX) : EVP_AEAD_CTX :=
  match aead ctx with
  | None => ctx
  | Some _ => AeadCtx None (data ctx)
  end.

Section new.
Context {H : Type} `{Malloc H}.

(** The block that [EVP_AEAD_CTX_new] has allocated is cleared without a look at
    the pointer: no memory is [NullDereference]. *)
Inductive new_result :=
  | NullDereference
  | NewNull
  | New (ctx : EVP_AEAD_CTX).

Definition EVP_AEAD_CTX_new (a : evp_aead_st) (key : bytes) (tag_len : Z) (hp : H) : new_result * H :=
  match OPENSSL_malloc 584 hp with
  | (None, hp) => (NullDereference, hp)
  | (Some _, hp) =>
      match EVP_AEAD_CTX_init a key tag_len EVP_AEAD_CTX_zero with
      | (Some _, ctx) => (New ctx, hp)
      | (None, _) => (NewNull, hp)
      end
  end.
End new.

Definition check_alias (in_ in_len out out_len : Z) : bool :=
  if negb (buffers_alias in_ in_len out out_len) then true else in_ =? out.

(** The calls on a context whose [aead] is [a]. *)
Section ctx.
Context (a : evp_aead_st) (d : aead_data).

Definition EVP_AEAD_CTX_seal (out max_out_len : Z) (nonce : bytes) (in_ in_len : Z) (ad : bytes) : ST mem Z :=
  on_error (mclear out max_out_len) (
    st_guard (negb (u64 (in_len + overhead a) <? in_len)) ;;;
    st_guard (negb (max_out_len <? in_len)) ;;;
    st_guard (check_alias in_ in_len out max_out_len) ;;;
    out_tag_len <-- seal_scatter a d out (out + in_len) (max_out_len - in_len) nonce in_ in_len [] ad ;;
    st_ret (in_len + out_tag_len)).

Definition EVP_AEAD_CTX_seal_scatter (out out_tag max_out_tag_len : Z) (nonce : bytes) (in_ in_len : Z)
    (extra_in ad : bytes) : ST mem Z :=
  on_error (fun m => mclear out_tag max_out_tag_len (mclear out in_len m)) (
    st_guard (negb (negb (check_alias in_ in_len out in_len) ||
                    buffers_alias out in_len out_tag max_out_tag_len ||
                    buffers_alias in_ in_len out_tag max_out_tag_len)) ;;;
    st_guard (negb (negb (seal_scatter_supports_extra_in a) && negb (Zlen extra_in =? 0))) ;;;
    seal_scatter a d out out_tag max_out_tag_len nonce in_ in_len extra_in ad).

Definition EVP_AEAD_CTX_open_gather (out : Z) (nonce : bytes) (in_ in_len in_tag in_tag_len : Z) (ad : bytes) : ST mem unit :=
  on_error (mclear out in_len) (
    st_guard (check_alias in_ in_len out in_len) ;;;
    match open_gather a with
    | None => st_fail
    | Some f => f d out nonce in_ in_len in_tag in_tag_len ad
    end).

Definition EVP_AEAD_CTX_open (out max_out_len : Z) (nonce : bytes) (in_ in_len : Z) (ad : bytes) : ST mem Z :=
  on_error (mclear out max_out_len) (
    st_guard (check_alias in_ in_len out max_out_len) ;;;
    match open_ a with
    | Some f => f d out max_out_len nonce in_ in_len ad
    | None =>
        st_guard (negb (in_len <? tag_len d)) ;;;
        let plaintext_len := in_len - tag_len d in
        st_guard (negb (max_out_len <? plaintext_len)) ;;;
        EVP_AEAD_CTX_open_gather out nonce in_ plaintext_len (in_ + plaintext_len) (tag_len d) ad ;;;
        st_ret plaintext_len
    end).

Definition EVP_AEAD_CTX_get_iv : option bytes :=
  match get_iv a with
  | None => None
  | Some f => f d
  end.

Definition EVP_AEAD_CTX_tag_len (in_len extra_in_len : Z) : option Z :=
  match tag_len_func a with
  | Some f => Some (f d in_len extra_in_len)
  | None => if u64 (extra_in_len + tag_len d) <? extra_in_len then None else Some (u64 (extra_in_len + tag_len d))
  end.
End ctx.

(** * ChaCha20-Poly1305 *)

Definition POLY1305_TAG_LEN : Z := 16.

(** The key is at the front of the context's state. *)
Definition aead_chacha20_poly1305_init (key : bytes) (tag_len : Z) : ST aead_data unit := fun d =>
  let tag_len := if tag_len =? 0 then POLY1305_TAG_LEN else tag_len in
  if tag_len >? POLY1305_TAG_LEN then (None, d)
  else if negb (Zlen key =? 32) then (None, d)
  else (Some tt, AeadData (OPENSSL_memcpy 0 key (state d)) tag_len).

Definition c20_key (d : aead_data) : bytes := take 32 (state d).

Section chacha20_poly1305.
(** What the memory of the local [poly1305_state] of [calc_tag] holds at first. *)
Context (uninit : poly1305_state_st).

Definition poly1305_update_length (poly1305 : poly1305_state_st) (data_len : Z) : poly1305_state_st :=
  CRYPTO_poly1305_update poly1305 (le_bytes 8 data_len).

Definition calc_tag (key nonce ad ciphertext ciphertext_extra : bytes) : bytes :=
  let poly1305_key := CRYPTO_chacha_20 (replicate 32 0) key nonce 0 in
  let padding (len : Z) := replicate (Z.to_nat (16 - len mod 16)) 0 in
  let ctx := CRYPTO_poly1305_init uninit poly1305_key in
  let ctx := CRYPTO_poly1305_update ctx ad in
  let ctx := if negb (Zlen ad mod 16 =? 0) then CRYPTO_poly1305_update ctx (padding (Zlen ad)) else ctx in
  let ctx := CRYPTO_poly1305_update ctx ciphertext in
  let ctx := CRYPTO_poly1305_update ctx ciphertext_extra in
  let ciphertext_total := u64 (Zlen ciphertext + Zlen ciphertext_extra) in
  let ctx := if negb (ciphertext_total mod 16 =? 0) then CRYPTO_poly1305_update ctx (padding ciphertext_total) else ctx in
  let ctx := poly1305_update_length ctx (Zlen ad) in
  let ctx := poly1305_update_length ctx ciphertext_total in
  fst (CRYPTO_poly1305_finish ctx).

(** The loop over the extra input: the rest of the block where the input ends,
    and then whole blocks. *)
Fixpoint seal_extra (fuel : nat) (key nonce : bytes) (block_counter : Z) (offset : nat) (extra_in : bytes) : bytes :=
  match fuel with
  | O => []
  | S fuel =>
      if (0 <? length extra_in)%nat then
        let block := CRYPTO_chacha_20 (replicate 64 0) key nonce block_counter in
        let n := Nat.min (64 - offset) (length extra_in) in
        zip_with Z.lxor (take n extra_in) (drop offset block) ++
        seal_extra fuel key nonce (u32 (block_counter + 1)) 0 (drop n extra_in)
      else []
  end.

Definition chacha20_poly1305_seal_scatter (key : bytes) (out out_tag max_out_tag_len : Z) (nonce : bytes)
    (in_ in_len : Z) (extra_in ad : bytes) (tag_len : Z) : ST mem Z :=
  let extra_in_len := Zlen extra_in in
  st_guard (negb (u64 (extra_in_len + tag_len) <? tag_len)) ;;;
  st_guard (negb (max_out_tag_len <? u64 (tag_len + extra_in_len))) ;;;
  st_guard (Zlen nonce =? 12) ;;;
  st_guard (negb (in_len >=? Z.shiftl 1 32 * 64 - 64)) ;;;
  st_guard (negb (max_out_tag_len <? tag_len)) ;;;
  (if negb (extra_in_len =? 0) then
     st_store out_tag (seal_extra (length extra_in) key nonce (u32 (1 + in_len / 64)) (Z.to_nat (in_len mod 64)) extra_in)
   else st_ret tt) ;;;
  plaintext <-- st_load in_ in_len ;;
  st_store out (CRYPTO_chacha_20 plaintext key nonce 1) ;;;
  ciphertext <-- st_load out in_len ;;
  ciphertext_extra <-- st_load out_tag extra_in_len ;;
  st_store (out_tag + extra_in_len) (take (Z.to_nat tag_len) (calc_tag key nonce ad ciphertext ciphertext_extra)) ;;;
  st_ret (extra_in_len + tag_len).

Definition aead_chacha20_poly1305_seal_scatter (d : aead_data) (out out_tag max_out_tag_len : Z) (nonce : bytes)
    (in_ in_len : Z) (extra_in ad : bytes) : ST mem Z :=
  chacha20_poly1305_seal_scatter (c20_key d) out out_tag max_out_tag_len nonce in_ in_len extra_in ad (tag_len d).

(** The nonce that is left after the key has been derived. *)
Definition derived_nonce (nonce : bytes) : bytes := replicate 4 0 ++ take 8 (drop 16 nonce).

Definition aead_xchacha20_poly1305_seal_scatter (d : aead_data) (out out_tag max_out_tag_len : Z) (nonce : bytes)
    (in_ in_len : Z) (extra_in ad : bytes) : ST mem Z :=
  st_guard (Zlen nonce =? 24) ;;;
  let derived_key := CRYPTO_hchacha20 (c20_key d) (take 16 nonce) in
  chacha20_poly1305_seal_scatter derived_key out out_tag max_out_tag_len (derived_nonce nonce) in_ in_len extra_in ad (tag_len d).

Definition chacha20_poly1305_open_gather (key : bytes) (out : Z) (nonce : bytes) (in_ in_len in_tag in_tag_len : Z)
    (ad : bytes) (tag_len : Z) : ST mem unit :=
  st_guard (Zlen nonce =? 12) ;;;
  st_guard (in_tag_len =? tag_len) ;;;
  st_guard (negb (in_len >=? Z.shiftl 1 32 * 64 - 64)) ;;;
  ciphertext <-- st_load in_ in_len ;;
  let tag := calc_tag key nonce ad ciphertext [] in
  ciphertext <-- st_load in_ in_len ;;
  st_store out (CRYPTO_chacha_20 ciphertext key nonce 1) ;;;
  expected <-- st_load in_tag tag_len ;;
  st_guard (CRYPTO_memcmp tag expected (Z.to_nat tag_len) =? 0).

Definition aead_chacha20_poly1305_open_gather (d : aead_data) (out : Z) (nonce : bytes) (in_ in_len in_tag in_tag_len : Z)
    (ad : bytes) : ST mem unit :=
  chacha20_poly1305_open_gather (c20_key d) out nonce in_ in_len in_tag in_tag_len ad (tag_len d).

Definition aead_xchacha20_poly1305_open_gather (d : aead_data) (out : Z) (nonce : bytes) (in_ in_len in_tag in_tag_len : Z)
    (ad : bytes) : ST mem unit :=
  st_guard (Zlen nonce =? 24) ;;;
  let derived_key := CRYPTO_hchacha20 (c20_key d) (take 16 nonce) in
  chacha20_poly1305_open_gather derived_key out (derived_nonce nonce) in_ in_len in_tag in_tag_len ad (tag_len d).

Definition EVP_aead_chacha20_poly1305 : evp_aead_st :=
  EvpAead 32 12 POLY1305_TAG_LEN POLY1305_TAG_LEN true
    (Some aead_chacha20_poly1305_init) (fun _ _ _ => st_fail) None
    aead_chacha20_poly1305_seal_scatter (Some aead_chacha20_poly1305_open_gather) None None.

Definition EVP_aead_xchacha20_poly1305 : evp_aead_st :=
  EvpAead 32 24 POLY1305_TAG_LEN POLY1305_TAG_LEN true
    (Some aead_chacha20_poly1305_init) (fun _ _ _ => st_fail) None
    aead_xchacha20_poly1305_seal_scatter (Some aead_xchacha20_poly1305_open_gather) None None.

End chacha20_poly1305.

(** * RFC 8439, 2.8 *)

Definition pad16 (x : bytes) : bytes := replicate (Z.to_nat (- Zlen x mod 16)) 0.

Definition rfc_mac_data (ad ciphertext : bytes) : bytes :=
  ad ++ pad16 ad ++ ciphertext ++ pad16 ciphertext ++ le_bytes 8 (Zlen ad) ++ le_bytes 8 (Zlen ciphertext).

(** The key of the authenticator, for a key and a nonce. *)
Definition rfc_poly1305_key_gen (key nonce : bytes) : bytes := take 32 (rfc_chacha20_block key nonce 0).

(** The tag over any authenticator [mac]. *)
Definition rfc_aead_tag (mac : bytes -> bytes -> bytes) (key nonce ad ciphertext : bytes) : bytes :=
  mac (rfc_poly1305_key_gen key nonce) (rfc_mac_data ad ciphertext).
