(* ===== verification/AeadSpec.v ===== *)
(** What the calls of [aead.c] promise over any lawful algorithm
    ([AeadLaws]), and the two algorithms that are. *)
From S2P Require Import Prelude Mem Digest Poly1305 Poly1305Spec Chacha ChachaSpec Aead.

(** * Memory *)

Definition mem_ok (m : mem) : Prop := forall a, is_byte (m a).
Definition disjoint_bufs (p n q k : Z) : Prop := p + n <= q \/ q + k <= p.
Definition unchanged_outside (p n : Z) (m m' : mem) : Prop := forall a, ~ (p <= a < p + n) -> m' a = m a.

Lemma length_mload m p n : length (mload m p n) = Z.to_nat n.
Proof. unfold mload. by rewrite length_fmap, length_seq. Qed.

Lemma Zlen_mload m p n : 0 <= n -> Zlen (mload m p n) = n.
Proof. intros. unfold Zlen. rewrite length_mload. lia. Qed.

Lemma mload_bytes_ok m p n : mem_ok m -> bytes_ok (mload m p n).
Proof. intros Hm. apply Forall_fmap, Forall_true. intros i. apply Hm. Qed.

Lemma mload_ext m m' p n : (forall a, p <= a < p + n -> m' a = m a) -> mload m' p n = mload m p n.
Proof. intros H. apply list_fmap_ext. intros i j [-> Hj]%lookup_seq. apply H. lia. Qed.

Lemma mload_unchanged m m' p n q k :
  unchanged_outside p n m m' -> disjoint_bufs q k p n -> mload m' q k = mload m q k.
Proof. intros Hu Hd. apply mload_ext. intros a Ha. apply Hu. unfold disjoint_bufs in Hd. lia. Qed.

Lemma mload_mstore m p bs : mload (mstore p bs m) p (Zlen bs) = bs.
Proof.
  unfold mload, Zlen. rewrite Nat2Z.id. apply list_eq. intros i. rewrite list_lookup_fmap. destruct (decide (i < length bs)%nat) as [Hi|Hi].
  - rewrite lookup_seq_lt by done. cbn. unfold mstore, Zlen. destruct (Z.leb_spec p (p + Z.of_nat i)); [|lia].
    destruct (Z.ltb_spec (p + Z.of_nat i) (p + Z.of_nat (length bs))); [|lia]. cbn.
    replace (p + Z.of_nat i - p) with (Z.of_nat i) by lia. rewrite Nat2Z.id, nth_lookup.
    by destruct (lookup_lt_is_Some_2 bs i Hi) as [v ->].
  - rewrite lookup_seq_ge, lookup_ge_None_2 by lia. done.
Qed.

Lemma mload_mstore_eq m p bs n : Zlen bs = n -> mload (mstore p bs m) p n = bs.
Proof. intros <-. apply mload_mstore. Qed.

Lemma mstore_unchanged m p bs n : Zlen bs <= n -> unchanged_outside p n m (mstore p bs m).
Proof.
  intros Hn a Ha. unfold mstore. destruct (Z.leb_spec p a); [|done]. destruct (Z.ltb_spec a (p + Zlen bs)); [|done]. lia.
Qed.

Lemma mload_split m p a b : 0 <= a -> 0 <= b -> mload m p (a + b) = mload m p a ++ mload m (p + a) b.
Proof.
  intros Ha Hb. unfold mload. rewrite Z2Nat.inj_add, seq_app, fmap_app by done. f_equal.
  rewrite <- (Nat.add_0_r (0 + Z.to_nat a)), <- fmap_add_seq, <- list_fmap_compose. apply list_fmap_ext. intros i j _.
  unfold compose. f_equal. lia.
Qed.

Lemma unchanged_trans p n m m1 m2 : unchanged_outside p n m m1 -> unchanged_outside p n m1 m2 -> unchanged_outside p n m m2.
Proof. intros H1 H2 a Ha. by rewrite H2, H1. Qed.

Lemma unchanged_widen p n q k m m' : q <= p -> p + n <= q + k -> unchanged_outside p n m m' -> unchanged_outside q k m m'.
Proof. intros Hp Hn H a Ha. apply H. lia. Qed.

Lemma unchanged_refl p n m : unchanged_outside p n m m.
Proof. done. Qed.

Lemma mclear_spec p n m : 0 <= n -> mload (mclear p n m) p n = replicate (Z.to_nat n) 0 /\ unchanged_outside p n m (mclear p n m).
Proof.
  intros Hn. pose proof (Zlen_replicate 0 n Hn) as Hl. split; [by apply mload_mstore_eq|]. apply mstore_unchanged. lia.
Qed.

Lemma check_alias_iff p n q k :
  0 <= p -> 0 <= n -> 0 <= q -> 0 <= k -> p + n < 2 ^ 64 -> q + k < 2 ^ 64 ->
  check_alias p n q k = true <-> p = q \/ disjoint_bufs p n q k.
Proof.
  intros. unfold check_alias, buffers_alias, disjoint_bufs, u64. rewrite !Z.mod_small by lia.
  destruct (_ >? q) eqn:E1, (_ >? p) eqn:E2; cbn; rewrite ?Z.eqb_eq; rewrite Z.gtb_ltb in *; rewrite ?Z.ltb_lt, ?Z.ltb_ge in *; lia.
Qed.

(** * The interface *)

(** An algorithm with the contexts it makes, whose cipher keeps lengths and is
    its own inverse. [limit] bounds the input. *)
Class AeadLaws (a : evp_aead_st) (ok : aead_data -> Prop) (limit : Z)
    (enc : aead_data -> bytes -> bytes -> bytes) (tag : aead_data -> bytes -> bytes -> bytes -> bytes) := {
  law_sizes d : ok d -> 0 < tag_len d < 256 /\ 0 <= overhead a < 256 /\ limit <= 2 ^ 40 /\ open_ a = None /\ get_iv a = None /\ tag_len_func a = None;
  law_enc d nonce p : ok d -> Zlen nonce = nonce_len a -> bytes_ok nonce -> length (enc d nonce p) = length p /\ enc d nonce (enc d nonce p) = p;
  law_tag d nonce ad c : ok d -> Zlen (tag d nonce ad c) = tag_len d;
  law_seal d out out_tag max_out_tag_len nonce in_ in_len extra_in ad m :
    ok d -> mem_ok m -> bytes_ok nonce -> bytes_ok ad -> bytes_ok extra_in -> 0 <= in_len -> 0 <= max_out_tag_len < 2 ^ 64 ->
    Zlen ad < 2 ^ 64 -> Zlen extra_in < 2 ^ 62 ->
    in_ = out \/ disjoint_bufs in_ in_len out in_len ->
    disjoint_bufs out in_len out_tag max_out_tag_len -> disjoint_bufs in_ in_len out_tag max_out_tag_len ->
    let ct := enc d nonce (mload m in_ in_len ++ extra_in) in
    let fits := Zlen nonce = nonce_len a /\ in_len < limit /\ Zlen extra_in + tag_len d <= max_out_tag_len in
    match seal_scatter a d out out_tag max_out_tag_len nonce in_ in_len extra_in ad m with
    | (Some n, m') => fits /\ n = Zlen extra_in + tag_len d /\ mload m' out in_len = take (Z.to_nat in_len) ct /\
        mload m' out_tag n = drop (Z.to_nat in_len) ct ++ tag d nonce ad ct /\
        forall x, ~ (out <= x < out + in_len) -> ~ (out_tag <= x < out_tag + n) -> m' x = m x
    | (None, m') => ~ fits /\ m' = m
    end;
  law_open d out nonce in_ in_len in_tag in_tag_len ad m :
    ok d -> mem_ok m -> bytes_ok nonce -> bytes_ok ad -> 0 <= in_len -> Zlen ad < 2 ^ 64 ->
    in_ = out \/ disjoint_bufs in_ in_len out in_len -> disjoint_bufs out in_len in_tag in_tag_len ->
    let ct := mload m in_ in_len in
    let authentic := Zlen nonce = nonce_len a /\ in_len < limit /\ in_tag_len = tag_len d /\
                     mload m in_tag in_tag_len = tag d nonce ad ct in
    match open_gather a with
    | None => False
    | Some f =>
        let '(ok', m') := f d out nonce in_ in_len in_tag in_tag_len ad m in
        unchanged_outside out in_len m m' /\
        match ok' with
        | Some _ => authentic /\ mload m' out in_len = enc d nonce ct
        | None => ~ authentic
        end
    end;
}.

(** * The calls over a lawful algorithm *)

Section calls.
Context (a : evp_aead_st) (ok : aead_data -> Prop) (limit : Z).
Context (enc : aead_data -> bytes -> bytes -> bytes) (tag : aead_data -> bytes -> bytes -> bytes -> bytes).
Context `{!AeadLaws a ok limit enc tag}.
Context (d : aead_data) (Hd : ok d).

(** What a caller has to provide. *)
Definition call_ok (out max_out_len : Z) (nonce : bytes) (in_ in_len : Z) (ad : bytes) (m : mem) : Prop :=
  mem_ok m /\ bytes_ok nonce /\ bytes_ok ad /\ Zlen ad < 2 ^ 64 /\
  0 <= in_ /\ 0 <= in_len /\ in_ + in_len < 2 ^ 64 /\ 0 <= out /\ 0 <= max_out_len /\ out + max_out_len < 2 ^ 64.

Lemma ctx_seal_spec out max_out_len nonce in_ in_len ad m :
  call_ok out max_out_len nonce in_ in_len ad m ->
  let p := mload m in_ in_len in
  let fits := Zlen nonce = nonce_len a /\ in_len < limit /\ in_len + tag_len d <= max_out_len /\
              (in_ = out \/ disjoint_bufs in_ in_len out max_out_len) in
  let '(r, m') := EVP_AEAD_CTX_seal a d out max_out_len nonce in_ in_len ad m in
  unchanged_outside out max_out_len m m' /\
  match r with
  | Some n => fits /\ n = in_len + tag_len d /\ mload m' out n = enc d nonce p ++ tag d nonce ad (enc d nonce p)
  | None => ~ fits /\ mload m' out max_out_len = replicate (Z.to_nat max_out_len) 0
  end.
Proof.
  intros (Hm & Hn & Ha & Hal & Hi0 & Hil & Hi & Ho0 & Hol & Ho). cbv zeta. destruct (law_sizes d Hd) as (Ht & Hov & Hlim & _).
  destruct (mclear_spec out max_out_len m Hol) as [Hc1 Hc2].
  unfold EVP_AEAD_CTX_seal, on_error, st_bind, st_guard, st_ret, st_fail.
  destruct (Z.ltb_spec (u64 (in_len + overhead a)) in_len) as [Hovf|_]; cbn [negb].
  { split; [done|]. split; [|done]. intros (_ & Hl & _). unfold u64 in Hovf. rewrite Z.mod_small in Hovf; lia. }
  destruct (Z.ltb_spec max_out_len in_len) as [Hsm|Hsm]; cbn [negb].
  { split; [done|]. split; [|done]. intros (_ & _ & Hl & _). lia. }
  pose proof (check_alias_iff in_ in_len out max_out_len Hi0 Hil Ho0 Hol Hi Ho) as Hca.
  destruct (check_alias in_ in_len out max_out_len).
  2: { split; [done|]. split; [|done]. intros (_ & _ & _ & Hal'). by apply Hca in Hal'. }
  destruct Hca as [Hca _]. specialize (Hca eq_refl).
  pose proof (law_seal d out (out + in_len) (max_out_len - in_len) nonce in_ in_len [] ad m Hd Hm Hn Ha bytes_ok_nil Hil
    ltac:(lia) Hal ltac:(done) ltac:(unfold disjoint_bufs in *; lia) ltac:(unfold disjoint_bufs in *; lia)
    ltac:(unfold disjoint_bufs in *; lia)) as Hs.
  cbv zeta in Hs. change (Zlen (@nil Z)) with 0 in Hs. rewrite app_nil_r in Hs.
  destruct (seal_scatter _ _ _ _ _ _ _ _ _ _ _) as [[n|] m'].
  - destruct Hs as ((F1 & F2 & F3) & -> & E1 & E2 & Hu). rewrite Z.add_0_l in *.
    destruct (law_enc d nonce (mload m in_ in_len) Hd F1 Hn) as [Hle _]. rewrite length_mload in Hle.
    rewrite take_ge in E1 by lia. rewrite drop_ge, app_nil_l in E2 by lia.
    split; [intros x Hx; apply Hu; lia|]. split; [by repeat split; try lia|]. split; [done|].
    rewrite mload_split by lia. by rewrite E1, E2.
  - destruct Hs as [Hf ->]. split; [done|]. split; [|done]. intros (F1 & F2 & F3 & _). apply Hf. split; [done|lia].
Qed.

Lemma ctx_open_gather_spec out nonce in_ in_len in_tag in_tag_len ad m :
  call_ok out in_len nonce in_ in_len ad m -> disjoint_bufs out in_len in_tag in_tag_len ->
  let ct := mload m in_ in_len in
  let authentic := Zlen nonce = nonce_len a /\ in_len < limit /\ in_tag_len = tag_len d /\
    mload m in_tag in_tag_len = tag d nonce ad ct /\ (in_ = out \/ disjoint_bufs in_ in_len out in_len) in
  let '(r, m') := EVP_AEAD_CTX_open_gather a d out nonce in_ in_len in_tag in_tag_len ad m in
  unchanged_outside out in_len m m' /\
  match r with
  | Some _ => authentic /\ mload m' out in_len = enc d nonce ct
  | None => ~ authentic /\ mload m' out in_len = replicate (Z.to_nat in_len) 0
  end.
Proof.
  intros (Hm & Hn & Ha & Hal & Hi0 & Hil & Hi & Ho0 & Hol & Ho) Hdt. cbv zeta.
  unfold EVP_AEAD_CTX_open_gather, on_error, st_bind, st_guard, st_ret, st_fail.
  pose proof (check_alias_iff in_ in_len out in_len Hi0 Hil Ho0 Hol Hi Ho) as Hca.
  destruct (check_alias in_ in_len out in_len).
  2: { destruct (mclear_spec out in_len m Hil) as [Hc1 Hc2]. split; [done|]. split; [|done].
       intros (_ & _ & _ & _ & Hal'). by apply Hca in Hal'. }
  destruct Hca as [Hca _]. specialize (Hca eq_refl).
  pose proof (law_open d out nonce in_ in_len in_tag in_tag_len ad m Hd Hm Hn Ha Hil Hal Hca Hdt) as Hs. cbv zeta in Hs.
  destruct (open_gather a) as [f|]; [|done]. destruct (f _ _ _ _ _ _ _ _ m) as [[[]|] m'].
  - destruct Hs as (Hu & (F1 & F2 & F3 & F4) & E). by repeat split.
  - destruct Hs as [Hu Hna]. destruct (mclear_spec out in_len m' Hil) as [Hc1 Hc2]. split; [by apply unchanged_trans with m'|].
    split; [|done]. intros (F1 & F2 & F3 & F4 & _). by apply Hna.
Qed.

Lemma ctx_open_spec out max_out_len nonce in_ in_len ad m :
  call_ok out max_out_len nonce in_ in_len ad m ->
  let len := in_len - tag_len d in
  let ct := mload m in_ len in
  let authentic := 0 <= len /\ Zlen nonce = nonce_len a /\ len < limit /\ mload m (in_ + len) (tag_len d) = tag d nonce ad ct /\
    len <= max_out_len /\ (in_ = out \/ disjoint_bufs in_ in_len out max_out_len) in
  let '(r, m') := EVP_AEAD_CTX_open a d out max_out_len nonce in_ in_len ad m in
  unchanged_outside out max_out_len m m' /\
  match r with
  | Some n => authentic /\ n = len /\ mload m' out len = enc d nonce ct
  | None => ~ authentic /\ mload m' out max_out_len = replicate (Z.to_nat max_out_len) 0
  end.
Proof.
  intros (Hm & Hn & Ha & Hal & Hi0 & Hil & Hi & Ho0 & Hol & Ho). cbv zeta. destruct (law_sizes d Hd) as (Ht & Hov & Hlim & Hop & _).
  destruct (mclear_spec out max_out_len m Hol) as [Hc1 Hc2].
  unfold EVP_AEAD_CTX_open, on_error. rewrite Hop. unfold st_bind, st_guard, st_ret, st_fail.
  pose proof (check_alias_iff in_ in_len out max_out_len Hi0 Hil Ho0 Hol Hi Ho) as Hca.
  destruct (check_alias in_ in_len out max_out_len).
  2: { split; [done|]. split; [|done]. intros (_ & _ & _ & _ & _ & Hal'). by apply Hca in Hal'. }
  destruct Hca as [Hca _]. specialize (Hca eq_refl).
  destruct (Z.ltb_spec in_len (tag_len d)) as [Hs|Hs]; cbn [negb].
  { split; [done|]. split; [|done]. intros (Hl & _). lia. }
  destruct (Z.ltb_spec max_out_len (in_len - tag_len d)) as [Hs2|Hs2]; cbn [negb].
  { split; [done|]. split; [|done]. intros (_ & _ & _ & _ & Hl & _). lia. }
  set (len := in_len - tag_len d) in *. assert (len = in_len - tag_len d) as Hlen by done. clearbody len.
  assert (call_ok out len nonce in_ len ad m) as Hcall by (refine (conj Hm (conj Hn (conj Ha (conj Hal _)))); lia).
  pose proof (ctx_open_gather_spec out nonce in_ len (in_ + len) (tag_len d) ad m Hcall ltac:(unfold disjoint_bufs in *; lia)) as Hg.
  cbv zeta in Hg. destruct (EVP_AEAD_CTX_open_gather _ _ _ _ _ _ _ _ _ m) as [[[]|] m'].
  - destruct Hg as (Hu & (F1 & F2 & _ & F4 & _) & E). split; [apply (unchanged_widen out len); (done || lia)|].
    split; [|done]. by repeat split; try lia.
  - destruct Hg as (Hu & Hna & _). destruct (mclear_spec out max_out_len m' Hol) as [Hc3 Hc4].
    split; [apply unchanged_trans with m'; [apply (unchanged_widen out len); (done || lia)|done]|]. split; [|done].
    intros (F0 & F1 & F2 & F3 & F4 & F5). apply Hna. repeat split; try done. unfold disjoint_bufs in *. lia.
Qed.

End calls.

(** What has been sealed is opened: wherever the sealed bytes have got to, and in
    place or not. *)
Lemma seal_open a ok limit enc tag `{!AeadLaws a ok limit enc tag} d out max nonce in_ in_len ad m n m1 out2 max2 in2 m2 :
  ok d -> call_ok out max nonce in_ in_len ad m -> call_ok out2 max2 nonce in2 n ad m2 ->
  EVP_AEAD_CTX_seal a d out max nonce in_ in_len ad m = (Some n, m1) ->
  mload m2 in2 n = mload m1 out n -> in_len <= max2 -> in2 = out2 \/ disjoint_bufs in2 n out2 max2 ->
  exists m3, EVP_AEAD_CTX_open a d out2 max2 nonce in2 n ad m2 = (Some in_len, m3) /\
             mload m3 out2 in_len = mload m in_ in_len /\ unchanged_outside out2 max2 m2 m3.
Proof.
  intros Hd Hc Hc2 Hs Hcopy Hmax Hal. pose proof (ctx_seal_spec a ok limit enc tag d Hd out max nonce in_ in_len ad m Hc) as H1.
  cbv zeta in H1. rewrite Hs in H1. destruct H1 as (_ & (F1 & F2 & F3 & F4) & -> & E).
  pose proof Hc as (_ & Hn & _ & _ & _ & Hil & _). destruct (law_sizes d Hd) as (Ht & _).
  destruct (law_enc d nonce (mload m in_ in_len) Hd F1 Hn) as [Hle Hinv]. set (p := mload m in_ in_len) in *. set (c := enc d nonce p) in *.
  assert (Zlen c = in_len) as Hcl by (unfold Zlen; rewrite Hle; unfold p; rewrite length_mload; lia).
  assert (mload m2 in2 in_len = c /\ mload m2 (in2 + in_len) (tag_len d) = tag d nonce ad c) as [E1 E2].
  { rewrite E, mload_split in Hcopy by lia. apply app_inj_1 in Hcopy; [done|]. rewrite length_mload. unfold Zlen in Hcl. lia. }
  pose proof (ctx_open_spec a ok limit enc tag d Hd out2 max2 nonce in2 (in_len + tag_len d) ad m2 Hc2) as H2. cbv zeta in H2.
  replace (in_len + tag_len d - tag_len d) with in_len in H2 by lia. rewrite E1 in H2.
  destruct (EVP_AEAD_CTX_open _ _ _ _ _ _ _ _ m2) as [[k|] m3].
  - destruct H2 as (Hu & _ & -> & E3). exists m3. split; [done|]. split; [by rewrite E3|done].
  - destruct H2 as (_ & Hna & _). exfalso. by apply Hna.
Qed.

(** * ChaCha20-Poly1305 *)

Lemma zip_lxor_zeros n (k : bytes) : (n <= length k)%nat -> zip_with Z.lxor (replicate n 0) k = take n k.
Proof. revert k. induction n as [|n IH]; intros [|x k] Hl; cbn in *; [done..|lia|]. rewrite IH by lia. by rewrite Z.lxor_0_l. Qed.

Lemma zip_with_drop {A B C} (f : A -> B -> C) n l k : drop n (zip_with f l k) = zip_with f (drop n l) (drop n k).
Proof. revert l k. induction n as [|n IH]; intros [|x l] [|y k]; cbn; try done. { by destruct (drop n l). } Qed.

#[local] Opaque rfc_chacha20_block rfc_keystream CRYPTO_chacha_20 CRYPTO_poly1305_update CRYPTO_poly1305_init CRYPTO_poly1305_finish poly1305_mac.

(** The tag, cut to the length of the context. *)
Definition chacha_tag (key nonce : bytes) (tag_len : Z) (ad c : bytes) : bytes :=
  take (Z.to_nat tag_len) (rfc_aead_tag poly1305_mac key nonce ad c).

Lemma Zlen_chacha_tag key nonce tag_len ad c : 0 <= tag_len <= 16 -> Zlen (chacha_tag key nonce tag_len ad c) = tag_len.
Proof. intros Ht. unfold chacha_tag, rfc_aead_tag, Zlen. rewrite length_take, length_poly1305_mac. lia. Qed.

Lemma update_pad st x :
  (if negb (Zlen x mod 16 =? 0) then CRYPTO_poly1305_update st (replicate (Z.to_nat (16 - Zlen x mod 16)) 0) else st) =
  CRYPTO_poly1305_update st (pad16 x).
Proof.
  unfold pad16. destruct (Z.eqb_spec (Zlen x mod 16) 0) as [E|E]; cbn [negb].
  - by rewrite Z.mod_opp_l_z by (lia || done).
  - by rewrite Z.mod_opp_l_nz by (lia || done).
Qed.

Lemma pad16_ok x : bytes_ok (pad16 x).
Proof. apply Forall_replicate. unfold is_byte. lia. Qed.

Section core.
Context (uninit : poly1305_state_st) (Hun : length (buf uninit) = 16%nat).
Context (key nonce : bytes) (Hk : bytes_ok key) (Hn : bytes_ok nonce) (Lk : length key = 32%nat) (Ln : length nonce = 12%nat).

Lemma word_u32 x : word (u32 x).
Proof. apply Z.mod_pos_bound. lia. Qed.

Lemma chacha_zeros n counter : word counter -> (n <= 64)%nat ->
  CRYPTO_chacha_20 (replicate n 0) key nonce counter = take n (rfc_chacha20_block key nonce counter).
Proof.
  intros Hc Hl. rewrite CRYPTO_chacha_20_eq by done. unfold rfc_chacha20_encrypt. rewrite length_replicate.
  rewrite Nat.add_1_r, keystream_S by done. rewrite zip_lxor_zeros by (rewrite length_app, length_rfc_block by done; lia).
  rewrite take_app_le by (rewrite length_rfc_block by done; lia). done.
Qed.

Lemma seal_extra_eq fuel counter offset e k :
  (length e <= fuel)%nat -> word counter -> (offset < 64)%nat -> (offset + length e <= 64 * k)%nat ->
  seal_extra fuel key nonce counter offset e = zip_with Z.lxor e (drop offset (rfc_keystream key nonce counter k)).
Proof.
  revert counter offset e k. induction fuel as [|fuel IH]; intros counter offset e k Hf Hc Ho Hl; cbn [seal_extra].
  { by destruct e; [|cbn in Hf; lia]. }
  destruct (Nat.ltb_spec 0 (length e)) as [He|He]; [|by destruct e; [|cbn in He; lia]].
  destruct k as [|k]; [lia|]. rewrite keystream_S by done. rewrite chacha_zeros by (done || lia).
  pose proof (length_rfc_block key nonce counter Hk Hn Lk Ln) as Hb.
  rewrite (take_ge (rfc_chacha20_block _ _ _)) by lia. rewrite drop_app_le by lia. rewrite zip_with_cut, length_drop, Hb.
  rewrite (IH _ _ _ k) by (rewrite ?length_drop; lia || apply word_u32). rewrite drop_0.
  destruct (decide (64 - offset <= length e)%nat); [by rewrite Nat.min_l by lia|].
  rewrite Nat.min_r by lia. rewrite !(take_ge e), !(drop_ge e) by lia. done.
Qed.

(** The extra input is enciphered as if it came after the input. *)
Lemma seal_extra_drop p e in_len :
  Zlen p = in_len -> in_len < 2 ^ 38 - 64 ->
  seal_extra (length e) key nonce (u32 (1 + in_len / 64)) (Z.to_nat (in_len mod 64)) e =
  drop (length p) (rfc_chacha20_encrypt key nonce 1 (p ++ e)).
Proof.
  intros Hp Hl. set (q := Z.to_nat (in_len / 64)). set (o := Z.to_nat (in_len mod 64)).
  unfold Zlen in Hp. pose proof (Z.div_mod in_len 64 ltac:(lia)). pose proof (Z.mod_pos_bound in_len 64 ltac:(lia)).
  assert (length p = 64 * q + o)%nat as Ep by (unfold q, o; lia). assert (o < 64)%nat as Ho by (unfold o; lia).
  assert (u32 (1 + in_len / 64) = u32 (1 + Z.of_nat q)) as -> by (unfold q; f_equal; lia).
  rewrite (seal_extra_eq _ _ o e (length (p ++ e) / 64 + 1 - q)); [|lia|apply word_u32|done|].
  2: { rewrite length_app, Ep. nat_div (64 * q + o + length e)%nat 64%nat. lia. }
  unfold rfc_chacha20_encrypt. rewrite zip_with_drop, drop_app_length.
  rewrite length_app. nat_div (length p + length e)%nat 64%nat.
  replace ((length p + length e) / 64 + 1)%nat with (q + ((length p + length e) / 64 + 1 - q))%nat at 2 by lia.
  rewrite keystream_plus, Ep, drop_app_ge by (rewrite length_keystream by done; lia).
  rewrite length_keystream by done. do 2 f_equal. lia.
Qed.

(** The key of the authenticator is in order. *)
Lemma key_gen_ok : bytes_ok (rfc_poly1305_key_gen key nonce).
Proof. apply bytes_ok_take, rfc_block_bytes_ok. Qed.

Lemma calc_tag_eq ad c e :
  bytes_ok ad -> bytes_ok c -> bytes_ok e -> Zlen (c ++ e) < 2 ^ 64 ->
  calc_tag uninit key nonce ad c e = rfc_aead_tag poly1305_mac key nonce ad (c ++ e).
Proof.
  intros Ha Hc He Hl. unfold calc_tag. cbv zeta. rewrite chacha_zeros by (done || lia || (unfold word; lia)).
  fold (rfc_poly1305_key_gen key nonce). rewrite <- Zlen_app. unfold u64.
  rewrite (Z.mod_small (Zlen (c ++ e))) by (pose proof (Zlen_nonneg (c ++ e)); lia).
  rewrite update_pad, update_pad. unfold poly1305_update_length, rfc_aead_tag, rfc_mac_data.
  pose proof (poly1305_mac_chunks uninit (rfc_poly1305_key_gen key nonce)
    [ad; pad16 ad; c; e; pad16 (c ++ e); le_bytes 8 (Zlen ad); le_bytes 8 (Zlen (c ++ e))] Hun key_gen_ok) as Hm.
  cbn [fold_left concat] in Hm. rewrite Hm.
  - f_equal. by rewrite app_nil_r, <- !app_assoc.
  - repeat (apply Forall_cons; split; [first [done|apply pad16_ok|apply le_bytes_ok]|]). by apply Forall_nil.
Qed.

(** * Sealing and opening *)

Lemma core_seal tag_len out out_tag max in_ in_len extra_in ad m :
  0 < tag_len <= 16 -> mem_ok m -> bytes_ok ad -> bytes_ok extra_in -> 0 <= in_len -> 0 <= max < 2 ^ 64 ->
  Zlen extra_in < 2 ^ 62 -> in_ = out \/ disjoint_bufs in_ in_len out in_len ->
  disjoint_bufs out in_len out_tag max -> disjoint_bufs in_ in_len out_tag max ->
  let ct := rfc_chacha20_encrypt key nonce 1 (mload m in_ in_len ++ extra_in) in
  let fits := in_len < 2 ^ 38 - 64 /\ Zlen extra_in + tag_len <= max in
  match (chacha20_poly1305_seal_scatter uninit key out out_tag max nonce in_ in_len extra_in ad tag_len m) with
  | (Some n, m') => fits /\ n = Zlen extra_in + tag_len /\ mload m' out in_len = take (Z.to_nat in_len) ct /\
      mload m' out_tag n = drop (Z.to_nat in_len) ct ++ chacha_tag key nonce tag_len ad ct /\
      forall x, ~ (out <= x < out + in_len) -> ~ (out_tag <= x < out_tag + n) -> m' x = m x
  | (None, m') => ~ fits /\ m' = m
  end.
Proof.
  intros Ht Hm Ha He Hil Hmax Hel Hio Hot Hit. cbv zeta. pose proof (Zlen_nonneg extra_in) as He0.
  unfold chacha20_poly1305_seal_scatter, st_bind, st_guard, st_ret, st_fail, st_load, st_store.
  unfold u64. rewrite (Z.mod_small (Zlen extra_in + tag_len)), (Z.mod_small (tag_len + Zlen extra_in)) by lia.
  destruct (Z.ltb_spec (Zlen extra_in + tag_len) tag_len); [lia|]. cbn [negb].
  destruct (Z.ltb_spec max (tag_len + Zlen extra_in)) as [Hs|Hs]; cbn [negb]; [split; [lia|done]|].
  assert ((Zlen nonce =? 12) = true) as -> by (unfold Zlen; by rewrite Ln).
  change (Z.shiftl 1 32 * 64 - 64) with (2 ^ 38 - 64).
  destruct (in_len >=? 2 ^ 38 - 64) eqn:Eg; rewrite Z.geb_leb in Eg; [apply Z.leb_le in Eg|apply Z.leb_gt in Eg]; cbn [negb].
  { split; [lia|done]. }
  destruct (Z.ltb_spec max tag_len); [lia|]. cbn [negb].
  set (p := mload m in_ in_len). assert (Zlen p = in_len) as Hp by (by apply Zlen_mload).
  assert (Z.to_nat in_len = length p) as Hpl by (rewrite <- Hp; unfold Zlen; lia).
  assert (bytes_ok p) as Hpo by (by apply mload_bytes_ok).
  set (ct := rfc_chacha20_encrypt key nonce 1 (p ++ extra_in)).
  assert (word 1) as H1 by (unfold word; lia).
  assert (length ct = length (p ++ extra_in)) as Hctl by (by apply length_rfc_encrypt).
  assert (take (length p) ct = rfc_chacha20_encrypt key nonce 1 p) as Hct1.
  { unfold ct. by apply rfc_encrypt_prefix. }
  set (m1 := if negb (Zlen extra_in =? 0) then mstore out_tag (drop (length p) ct) m else m).
  match goal with |- context [?f m] => match f with (if _ then _ else _) => assert (f m = (Some tt, m1)) as -> end end.
  { unfold m1. destruct (Zlen extra_in =? 0); cbn [negb]; [done|]. do 2 f_equal. by apply seal_extra_drop. }
  assert (unchanged_outside out_tag max m m1) as Hu1.
  { unfold m1. destruct (Zlen extra_in =? 0); cbn [negb]; [done|]. apply mstore_unchanged.
    unfold Zlen in *. rewrite length_drop, Hctl, length_app. lia. }
  assert (mload m1 in_ in_len = p) as -> by (by apply (mload_unchanged m m1 out_tag max)).
  rewrite CRYPTO_chacha_20_eq by done. rewrite <- Hct1. set (m2 := mstore out (take (length p) ct) m1).
  assert (Zlen (take (length p) ct) = in_len) as Ht1 by (unfold Zlen in *; rewrite length_take, Hctl, length_app; lia).
  assert (unchanged_outside out in_len m1 m2) as Hu2 by (apply mstore_unchanged; lia).
  assert (mload m2 out in_len = take (length p) ct) as E2 by (by apply mload_mstore_eq). rewrite E2.
  assert (Zlen (drop (length p) ct) = Zlen extra_in) as Ht2 by (unfold Zlen in *; rewrite length_drop, Hctl, length_app; lia).
  assert (mload m2 out_tag (Zlen extra_in) = drop (length p) ct) as E3.
  { rewrite (mload_unchanged m1 m2 out in_len) by (done || (unfold disjoint_bufs in *; lia)).
    unfold m1. destruct (Z.eqb_spec (Zlen extra_in) 0) as [E0|E0]; cbn [negb]; [|by apply mload_mstore_eq].
    rewrite E0 in *. by rewrite (Zlen_0_inv _ Ht2). }
  rewrite E3. assert (bytes_ok ct) as Hcto.
  { unfold ct. apply rfc_encrypt_bytes_ok, bytes_ok_app. by split. }
  rewrite calc_tag_eq; [|done|auto with bytes|auto with bytes|].
  2: { rewrite take_drop. unfold Zlen in *. rewrite Hctl, length_app. lia. }
  rewrite take_drop. fold (chacha_tag key nonce tag_len ad ct). pose proof (Zlen_chacha_tag key nonce tag_len ad ct ltac:(lia)) as Htl.
  set (m3 := mstore (out_tag + Zlen extra_in) (chacha_tag key nonce tag_len ad ct) m2).
  assert (unchanged_outside (out_tag + Zlen extra_in) tag_len m2 m3) as Hu3 by (apply mstore_unchanged; lia).
  split; [lia|]. split; [done|]. rewrite Hpl. split; [|split].
  - rewrite <- E2. apply (mload_unchanged _ _ _ _ _ _ Hu3). unfold disjoint_bufs in *. lia.
  - rewrite mload_split by lia. f_equal; [|by apply mload_mstore_eq].
    rewrite <- E3. apply (mload_unchanged _ _ _ _ _ _ Hu3). unfold disjoint_bufs. lia.
  - intros x Hx1 Hx2. rewrite Hu3, Hu2 by lia. unfold m1. destruct (Zlen extra_in =? 0); cbn [negb]; [done|].
    apply (mstore_unchanged _ out_tag _ (Zlen extra_in)); lia.
Qed.

Lemma core_open tag_len out in_ in_len in_tag in_tag_len ad m :
  0 < tag_len <= 16 -> mem_ok m -> bytes_ok ad -> 0 <= in_len ->
  in_ = out \/ disjoint_bufs in_ in_len out in_len -> disjoint_bufs out in_len in_tag in_tag_len ->
  let ct := mload m in_ in_len in
  let authentic := in_len < 2 ^ 38 - 64 /\ in_tag_len = tag_len /\ mload m in_tag in_tag_len = chacha_tag key nonce tag_len ad ct in
  let '(ok', m') := chacha20_poly1305_open_gather uninit key out nonce in_ in_len in_tag in_tag_len ad tag_len m in
  unchanged_outside out in_len m m' /\
  match ok' with
  | Some _ => authentic /\ mload m' out in_len = rfc_chacha20_encrypt key nonce 1 ct
  | None => ~ authentic
  end.
Proof.
  intros Ht Hm Ha Hil Hio Hot. cbv zeta.
  unfold chacha20_poly1305_open_gather, st_bind, st_guard, st_ret, st_fail, st_load, st_store.
  assert ((Zlen nonce =? 12) = true) as -> by (unfold Zlen; by rewrite Ln).
  destruct (Z.eqb_spec in_tag_len tag_len) as [->|Hne]; [|split; [done|intros (_ & E & _); done]].
  change (Z.shiftl 1 32 * 64 - 64) with (2 ^ 38 - 64).
  destruct (in_len >=? (2 ^ 38 - 64)) eqn:Eg; rewrite Z.geb_leb in Eg; [apply Z.leb_le in Eg|apply Z.leb_gt in Eg]; cbn [negb].
  { split; [done|lia]. }
  set (ct := mload m in_ in_len). assert (Zlen ct = in_len) as Hct by (by apply Zlen_mload).
  assert (bytes_ok ct) as Hco by (by apply mload_bytes_ok). assert (word 1) as H1 by (unfold word; lia).
  rewrite CRYPTO_chacha_20_eq by done. set (pt := rfc_chacha20_encrypt key nonce 1 ct).
  assert (Zlen pt = in_len) as Hpt by (unfold Zlen, pt in *; by rewrite length_rfc_encrypt).
  assert (unchanged_outside out in_len m (mstore out pt m)) as Hu by (apply mstore_unchanged; lia).
  rewrite (mload_unchanged m _ out in_len in_tag tag_len Hu) by (unfold disjoint_bufs in *; lia).
  rewrite calc_tag_eq; [|done..|apply bytes_ok_nil|rewrite app_nil_r; lia]. rewrite app_nil_r.
  pose proof (CRYPTO_memcmp_zero (rfc_aead_tag poly1305_mac key nonce ad ct) (mload m in_tag tag_len) (Z.to_nat tag_len)
    ltac:(unfold rfc_aead_tag; rewrite length_poly1305_mac; lia) ltac:(rewrite length_mload; lia)) as Hcmp.
  rewrite (take_ge (mload _ _ _)) in Hcmp by (rewrite length_mload; lia). fold (chacha_tag key nonce tag_len ad ct) in Hcmp.
  destruct (Z.eqb_spec (CRYPTO_memcmp (rfc_aead_tag poly1305_mac key nonce ad ct) (mload m in_tag tag_len) (Z.to_nat tag_len)) 0) as [E|E].
  - split; [done|]. apply Hcmp in E. split; [by repeat split|]. by apply mload_mstore_eq.
  - split; [done|]. intros (_ & _ & E'). apply E, Hcmp. by rewrite E'.
Qed.

End core.

(** The contexts that [aead_chacha20_poly1305_init] makes. *)
Definition c20_ok (d : aead_data) : Prop := bytes_ok (c20_key d) /\ length (c20_key d) = 32%nat /\ 0 < tag_len d <= 16.

Definition chacha_enc (d : aead_data) (nonce p : bytes) : bytes := rfc_chacha20_encrypt (c20_key d) nonce 1 p.
Definition chacha_aead_tag (d : aead_data) (nonce ad c : bytes) : bytes := chacha_tag (c20_key d) nonce (tag_len d) ad c.

(** XChaCha20: the same with a key and a nonce that are derived. *)
Definition rfc_xkey (key nonce : bytes) : bytes := rfc_hchacha20 key (take 16 nonce).
Definition xchacha_enc (d : aead_data) (nonce p : bytes) : bytes :=
  rfc_chacha20_encrypt (rfc_xkey (c20_key d) nonce) (derived_nonce nonce) 1 p.
Definition xchacha_aead_tag (d : aead_data) (nonce ad c : bytes) : bytes :=
  chacha_tag (rfc_xkey (c20_key d) nonce) (derived_nonce nonce) (tag_len d) ad c.

Lemma Zlen_length {A} (l : list A) n : Zlen l = Z.of_nat n -> length l = n.
Proof. unfold Zlen. lia. Qed.

Lemma xchacha_parts key nonce :
  bytes_ok key -> length key = 32%nat -> bytes_ok nonce -> Zlen nonce = 24 ->
  CRYPTO_hchacha20 key (take 16 nonce) = rfc_xkey key nonce /\ bytes_ok (rfc_xkey key nonce) /\ length (rfc_xkey key nonce) = 32%nat /\
  bytes_ok (derived_nonce nonce) /\ length (derived_nonce nonce) = 12%nat.
Proof.
  intros Hk Lk Hn Ln. apply (Zlen_length nonce 24) in Ln.
  destruct (CRYPTO_hchacha20_eq key (take 16 nonce)) as (E & El & Eo); [done|auto with bytes|done|rewrite length_take; lia|].
  split; [done|]. split; [done|]. split; [done|]. unfold derived_nonce. split.
  - apply bytes_ok_app. split; [apply Forall_replicate; unfold is_byte; lia|auto with bytes].
  - rewrite length_app, length_replicate, length_take, length_drop. lia.
Qed.

Lemma seal_bad_nonce uninit key out out_tag max nonce in_ in_len extra_in ad tag_len m :
  Zlen nonce <> 12 -> chacha20_poly1305_seal_scatter uninit key out out_tag max nonce in_ in_len extra_in ad tag_len m = (None, m).
Proof.
  intros Hne. unfold chacha20_poly1305_seal_scatter. destruct (Z.eqb_spec (Zlen nonce) 12) as [|_]; [done|].
  unfold st_bind, st_guard, st_ret, st_fail. by repeat case_match; simplify_eq.
Qed.

Lemma open_bad_nonce uninit key out nonce in_ in_len in_tag in_tag_len ad tag_len m :
  Zlen nonce <> 12 -> chacha20_poly1305_open_gather uninit key out nonce in_ in_len in_tag in_tag_len ad tag_len m = (None, m).
Proof. intros Hne. unfold chacha20_poly1305_open_gather. by destruct (Z.eqb_spec (Zlen nonce) 12) as [|_]. Qed.

Section laws.
Context (uninit : poly1305_state_st) (Hun : length (buf uninit) = 16%nat).

#[export] Instance chacha_laws : AeadLaws (EVP_aead_chacha20_poly1305 uninit) c20_ok (2 ^ 38 - 64) chacha_enc chacha_aead_tag.
Proof.
  split; cbn [nonce_len overhead open_ get_iv tag_len_func seal_scatter open_gather EVP_aead_chacha20_poly1305].
  - intros d (_ & _ & Ht). unfold POLY1305_TAG_LEN. repeat split; lia.
  - intros d nonce p (Hk & Lk & Ht) Ln Hn. apply (Zlen_length nonce 12) in Ln. unfold chacha_enc.
    split; [by apply length_rfc_encrypt|by apply rfc_encrypt_twice].
  - intros d nonce ad c (_ & _ & Ht). apply Zlen_chacha_tag. lia.
  - intros d out out_tag max nonce in_ in_len extra_in ad m (Hk & Lk & Ht) Hm Hn Ha He Hil Hmax Hal Hel Hio Hot Hit.
    unfold aead_chacha20_poly1305_seal_scatter, chacha_enc, chacha_aead_tag. cbv zeta.
    destruct (Z.eqb_spec (Zlen nonce) 12) as [Ln|Ln].
    + pose proof (core_seal uninit Hun (c20_key d) nonce Hk Hn Lk (Zlen_length nonce 12 Ln) (tag_len d) out out_tag max in_ in_len
        extra_in ad m Ht Hm Ha He Hil Hmax Hel Hio Hot Hit) as Hs. cbv zeta in Hs.
      destruct (chacha20_poly1305_seal_scatter _ _ _ _ _ _ _ _ _ _ _ m) as [[n|] m']; tauto.
    + rewrite seal_bad_nonce by done. split; [tauto|done].
  - intros d out nonce in_ in_len in_tag in_tag_len ad m (Hk & Lk & Ht) Hm Hn Ha Hil Hal Hio Hot.
    unfold aead_chacha20_poly1305_open_gather, chacha_enc, chacha_aead_tag. cbv zeta.
    destruct (Z.eqb_spec (Zlen nonce) 12) as [Ln|Ln].
    + pose proof (core_open uninit Hun (c20_key d) nonce Hk Hn Lk (Zlen_length nonce 12 Ln) (tag_len d) out in_ in_len in_tag in_tag_len
        ad m Ht Hm Ha Hil Hio Hot) as Hs. cbv zeta in Hs.
      destruct (chacha20_poly1305_open_gather _ _ _ _ _ _ _ _ _ _ m) as [[[]|] m']; tauto.
    + rewrite open_bad_nonce by done. split; [done|tauto].
Qed.

#[export] Instance xchacha_laws : AeadLaws (EVP_aead_xchacha20_poly1305 uninit) c20_ok (2 ^ 38 - 64) xchacha_enc xchacha_aead_tag.
Proof.
  split; cbn [nonce_len overhead open_ get_iv tag_len_func seal_scatter open_gather EVP_aead_xchacha20_poly1305].
  - intros d (_ & _ & Ht). unfold POLY1305_TAG_LEN. repeat split; lia.
  - intros d nonce p (Hk & Lk & Ht) Ln Hn. destruct (xchacha_parts _ _ Hk Lk Hn Ln) as (_ & Xk & Xl & Yk & Yl). unfold xchacha_enc.
    split; [by apply length_rfc_encrypt|by apply rfc_encrypt_twice].
  - intros d nonce ad c (_ & _ & Ht). apply Zlen_chacha_tag. lia.
  - intros d out out_tag max nonce in_ in_len extra_in ad m (Hk & Lk & Ht) Hm Hn Ha He Hil Hmax Hal Hel Hio Hot Hit.
    unfold aead_xchacha20_poly1305_seal_scatter, xchacha_enc, xchacha_aead_tag, st_bind, st_guard, st_ret, st_fail. cbv zeta.
    destruct (Z.eqb_spec (Zlen nonce) 24) as [Ln|Ln]; [|split; [tauto|done]].
    destruct (xchacha_parts _ _ Hk Lk Hn Ln) as (-> & Xk & Xl & Yk & Yl).
    pose proof (core_seal uninit Hun _ _ Xk Yk Xl Yl (tag_len d) out out_tag max in_ in_len
      extra_in ad m Ht Hm Ha He Hil Hmax Hel Hio Hot Hit) as Hs. cbv zeta in Hs.
    destruct (chacha20_poly1305_seal_scatter _ _ _ _ _ _ _ _ _ _ _ m) as [[n|] m']; tauto.
  - intros d out nonce in_ in_len in_tag in_tag_len ad m (Hk & Lk & Ht) Hm Hn Ha Hil Hal Hio Hot.
    unfold aead_xchacha20_poly1305_open_gather, xchacha_enc, xchacha_aead_tag, st_bind, st_guard, st_ret, st_fail. cbv zeta.
    destruct (Z.eqb_spec (Zlen nonce) 24) as [Ln|Ln]; [|split; [done|tauto]].
    destruct (xchacha_parts _ _ Hk Lk Hn Ln) as (-> & Xk & Xl & Yk & Yl).
    pose proof (core_open uninit Hun _ _ Xk Yk Xl Yl (tag_len d) out in_ in_len in_tag in_tag_len ad m Ht Hm Ha Hil Hio Hot) as Hs.
    cbv zeta in Hs. destruct (chacha20_poly1305_open_gather _ _ _ _ _ _ _ _ _ _ m) as [[[]|] m']; tauto.
Qed.
End laws.

Lemma init_spec uninit key tag_len ctx0 :
  bytes_ok key -> (32 <= length (state (data ctx0)))%nat -> 0 <= tag_len ->
  let a := EVP_aead_chacha20_poly1305 uninit in
  let '(r, ctx) := EVP_AEAD_CTX_init a key tag_len ctx0 in
  match r with
  | Some _ => length key = 32%nat /\ tag_len <= 16 /\ aead ctx = Some a /\ c20_ok (data ctx) /\ c20_key (data ctx) = key /\
              Aead.tag_len (data ctx) = (if tag_len =? 0 then 16 else tag_len)
  | None => (length key <> 32%nat \/ 16 < tag_len) /\ aead ctx = None
  end.
Proof.
  intros Hk Hs Ht. cbv zeta. unfold EVP_AEAD_CTX_init, EVP_AEAD_CTX_init_with_direction.
  cbn [init key_len EVP_aead_chacha20_poly1305]. destruct (Z.eqb_spec (Zlen key) 32) as [Ek|Ek]; cbn [negb].
  2: { split; [left; unfold Zlen in Ek; lia|done]. }
  unfold aead_chacha20_poly1305_init, POLY1305_TAG_LEN. rewrite (proj2 (Z.eqb_eq _ _) Ek). cbn [negb].
  set (t := if tag_len =? 0 then 16 else tag_len). assert (0 < t) by (unfold t; destruct (Z.eqb_spec tag_len 0); lia).
  destruct (t >? 16) eqn:E; rewrite Z.gtb_ltb in E; [apply Z.ltb_lt in E|apply Z.ltb_ge in E].
  { split; [right; unfold t in E; destruct (Z.eqb_spec tag_len 0); lia|done]. }
  apply (Zlen_length key 32) in Ek. cbn [aead data].
  assert (c20_key (AeadData (OPENSSL_memcpy 0 key (state (data ctx0))) t) = key) as Hc.
  { unfold c20_key. cbn [state]. pose proof (take_memcpy 0 key (state (data ctx0)) ltac:(lia)) as Hm.
    rewrite Nat.add_0_l, Ek in Hm. done. }
  split; [done|]. split; [unfold t in E; destruct (Z.eqb_spec tag_len 0); lia|]. split; [done|].
  split; [|done]. unfold c20_ok. rewrite Hc. cbn [Aead.tag_len]. done.
Qed.

(** * Properties *)

(** C17. What is sealed is opened, over every lawful algorithm: if
    [EVP_AEAD_CTX_seal] succeeds and its output is at [in2] in some later memory,
    [EVP_AEAD_CTX_open] with the same nonce and additional data succeeds there,
    in place or into another buffer that is large enough, and gives the plaintext
    back; nothing outside the output buffer changes. *)
Theorem EVP_AEAD_CTX_seal_open a ok limit enc tag `{!AeadLaws a ok limit enc tag} d out max nonce in_ in_len ad m n out2 max2 in2 m2 :
  ok d -> call_ok out max nonce in_ in_len ad m -> call_ok out2 max2 nonce in2 n ad m2 ->
  let sealed := EVP_AEAD_CTX_seal a d out max nonce in_ in_len ad m in
  fst sealed = Some n -> mload m2 in2 n = mload (snd sealed) out n ->
  in_len <= max2 -> in2 = out2 \/ disjoint_bufs in2 n out2 max2 ->
  let opened := EVP_AEAD_CTX_open a d out2 max2 nonce in2 n ad m2 in
  fst opened = Some in_len /\ mload (snd opened) out2 in_len = mload m in_ in_len /\
  unchanged_outside out2 max2 m2 (snd opened).
Proof.
  intros Hd Hc Hc2 sealed Hs Hcopy Hmax Hal opened. unfold sealed in *.
  destruct (EVP_AEAD_CTX_seal a d out max nonce in_ in_len ad m) as [r m1] eqn:E. cbn [fst snd] in Hs, Hcopy. subst r.
  destruct (seal_open a ok limit enc tag d out max nonce in_ in_len ad m n m1 out2 max2 in2 m2) as (m3 & E3 & Hp & Hu); try done.
  unfold opened. rewrite E3. done.
Qed.

(** C13. [EVP_AEAD_CTX_open] gives a plaintext exactly when the tag at the end of
    the input is the one of the ciphertext, the nonce and the additional data
    under the key, the lengths are in range and the buffers are the same or
    apart. Whenever it fails the whole output buffer is zero, so that nothing
    unauthenticated is left in it, and nothing outside it ever changes. *)
Theorem EVP_AEAD_CTX_open_authentic a ok limit enc tag `{!AeadLaws a ok limit enc tag} d out max nonce in_ in_len ad m :
  ok d -> call_ok out max nonce in_ in_len ad m ->
  let len := in_len - tag_len d in
  let ct := mload m in_ len in
  let authentic := 0 <= len /\ Zlen nonce = nonce_len a /\ len < limit /\ mload m (in_ + len) (tag_len d) = tag d nonce ad ct /\
    len <= max /\ (in_ = out \/ disjoint_bufs in_ in_len out max) in
  let opened := EVP_AEAD_CTX_open a d out max nonce in_ in_len ad m in
  unchanged_outside out max m (snd opened) /\
  match fst opened with
  | Some n => authentic /\ n = len /\ mload (snd opened) out len = enc d nonce ct
  | None => ~ authentic /\ mload (snd opened) out max = replicate (Z.to_nat max) 0
  end.
Proof.
  intros Hd Hc. cbv zeta. pose proof (ctx_open_spec a ok limit enc tag d Hd out max nonce in_ in_len ad m Hc) as H. cbv zeta in H.
  by destruct (EVP_AEAD_CTX_open _ _ _ _ _ _ _ _ m) as [[n|] m'].
Qed.

(** C18. ChaCha20-Poly1305 against RFC 8439, 2.8: initialisation succeeds exactly
    for a key of 32 bytes and a tag of at most 16, and sealing, in place or not,
    writes the standard's ciphertext and the front of a tag, unless a length, the
    nonce or an overlap forbids it, when it fails.  The tag authenticates the
    standard's data under the standard's one-time key with the MAC of
    [CRYPTO_poly1305_finish]; it is the standard's tag unless that function
    loses its last carry ([carry_lost]), when it can be another one. *)
Theorem EVP_aead_chacha20_poly1305_rfc8439 uninit key tag_len ctx0 out max nonce in_ in_len ad m :
  length (buf uninit) = 16%nat -> bytes_ok key -> (32 <= length (state (data ctx0)))%nat -> 0 <= tag_len ->
  call_ok out max nonce in_ in_len ad m ->
  let a := EVP_aead_chacha20_poly1305 uninit in
  let ctx := snd (EVP_AEAD_CTX_init a key tag_len ctx0) in
  let t := if tag_len =? 0 then 16 else tag_len in
  let c := rfc_chacha20_encrypt key nonce 1 (mload m in_ in_len) in
  let sealed := EVP_AEAD_CTX_seal a (data ctx) out max nonce in_ in_len ad m in
  match fst (EVP_AEAD_CTX_init a key tag_len ctx0) with
  | None => (length key <> 32%nat \/ 16 < tag_len) /\ aead ctx = None
  | Some _ =>
      length key = 32%nat /\ tag_len <= 16 /\ aead ctx = Some a /\
      match fst sealed with
      | Some n =>
          n = in_len + t /\
          mload (snd sealed) out n = c ++ take (Z.to_nat t) (rfc_aead_tag poly1305_mac key nonce ad c) /\
          (~ carry_lost (rfc_accumulator (rfc_poly1305_key_gen key nonce) (rfc_mac_data ad c)) ->
           mload (snd sealed) out n = c ++ take (Z.to_nat t) (rfc_aead_tag rfc_poly1305_mac key nonce ad c))
      | None =>
          Zlen nonce <> 12 \/ 2 ^ 38 - 64 <= in_len \/ max < in_len + t \/
          ~ (in_ = out \/ disjoint_bufs in_ in_len out max)
      end
  end.
Proof.
  intros Hun Hk Hs Ht Hc. cbv zeta. pose proof (init_spec uninit key tag_len ctx0 Hk Hs Ht) as Hi. cbv zeta in Hi.
  destruct (EVP_AEAD_CTX_init _ key tag_len ctx0) as [[[]|] ctx]; cbn [fst snd]; [|done].
  destruct Hi as (Lk & Htl & Ha & Hok & Hkey & Htag). split; [done|]. split; [done|]. split; [done|].
  pose proof (ctx_seal_spec _ _ _ _ _ (AeadLaws0 := chacha_laws uninit Hun) (data ctx) Hok out max nonce in_ in_len ad m Hc) as Hsp. cbv zeta in Hsp.
  unfold chacha_enc, chacha_aead_tag, chacha_tag in Hsp. rewrite Hkey, Htag in Hsp.
  destruct Hc as (Hm & Hn & Had & _).
  destruct (EVP_AEAD_CTX_seal _ _ _ _ _ _ _ _ m) as [[n|] m']; cbn [fst snd].
  - destruct Hsp as (_ & (Ln & _) & -> & E). split; [done|]. split; [done|]. intros Hcl. rewrite E. do 2 f_equal.
    unfold rfc_aead_tag. apply (Zlen_length nonce 12) in Ln.
    set (c := rfc_chacha20_encrypt key nonce 1 (mload m in_ in_len)) in *.
    assert (bytes_ok c) as Hco by (by apply rfc_encrypt_bytes_ok, mload_bytes_ok).
    assert (bytes_ok (rfc_mac_data ad c)) as Hmd.
    { unfold rfc_mac_data. repeat (apply bytes_ok_app; split); first [done|apply pad16_ok|apply le_bytes_ok]. }
    destruct (poly1305_mac_rfc (rfc_poly1305_key_gen key nonce) (rfc_mac_data ad c)) as [|[? _]]; [by apply key_gen_ok|done|done|done].
  - destruct Hsp as (_ & Hf & _). change (nonce_len (EVP_aead_chacha20_poly1305 uninit)) with 12 in Hf.
    destruct (decide (Zlen nonce = 12)) as [L1|]; [|by left]. right.
    destruct (decide (in_len < 2 ^ 38 - 64)) as [L2|]; [|left; lia]. right.
    destruct (decide (in_len + (if tag_len =? 0 then 16 else tag_len) <= max)) as [L3|]; [|left; lia]. right.
    intros L4. by apply Hf.
Qed.

(** A memory, a key and a plaintext, of RFC 8439, 2.8.2. *)
Definition example_mem (p : Z) (bs : bytes) : mem := mstore p bs (fun _ => 0).
Definition rfc_2_8_2_key : bytes := be_bytes 32 0x808182838485868788898a8b8c8d8e8f909192939495969798999a9b9c9d9e9f.
Definition rfc_2_8_2_nonce : bytes := be_bytes 12 0x070000004041424344454647.
Definition rfc_2_8_2_ad : bytes := be_bytes 12 0x50515253c0c1c2c3c4c5c6c7.
Definition rfc_2_8_2_start : bytes := be_bytes 20 0x4c616469657320616e642047656e746c656d656e.
Definition example_data : aead_data := AeadData (OPENSSL_memcpy 0 rfc_2_8_2_key (replicate 564 0)) 16.
Definition example_aead : evp_aead_st := EVP_aead_chacha20_poly1305 poly_zero_state.

Lemma example_mem_ok p bs : bytes_ok bs -> mem_ok (example_mem p bs).
Proof.
  intros Hb a. unfold example_mem, mstore. destruct ((p <=? a) && (a <? p + Zlen bs)); [|unfold is_byte; lia].
  destruct (nth_in_or_default (Z.to_nat (a - p)) bs 0) as [Hin| ->]; [|unfold is_byte; lia].
  unfold bytes_ok in Hb. rewrite Forall_forall in Hb. apply Hb. by apply list_elem_of_In.
Qed.

Lemma example_data_ok : c20_ok example_data.
Proof. unfold c20_ok. split; [apply (be_bytes_ok 32)|]. split; [reflexivity|]. cbn. lia. Qed.

Lemma example_call_ok out max in_ bs in_len :
  bytes_ok bs -> 0 <= out -> 0 <= max -> out + max < 2 ^ 64 -> 0 <= in_ -> 0 <= in_len -> in_ + in_len < 2 ^ 64 ->
  call_ok out max rfc_2_8_2_nonce in_ in_len rfc_2_8_2_ad (example_mem 1000 bs).
Proof.
  intros Hb. intros. split; [by apply example_mem_ok|]. split; [apply be_bytes_ok|]. split; [apply be_bytes_ok|].
  split; [reflexivity|]. lia.
Qed.

Lemma EVP_aead_chacha20_poly1305_rfc8439_witness :
  let sealed := EVP_AEAD_CTX_seal example_aead example_data 1000 40 rfc_2_8_2_nonce 1000 20 rfc_2_8_2_ad (example_mem 1000 rfc_2_8_2_start) in
  fst sealed = Some 36 /\
  mload (snd sealed) 1000 20 = be_bytes 20 0xd31a8d34648e60db7b86afbc53ef7ec2a4aded51 /\
  mload (snd sealed) 1000 36 = rfc_chacha20_encrypt rfc_2_8_2_key rfc_2_8_2_nonce 1 rfc_2_8_2_start ++
    rfc_aead_tag poly1305_mac rfc_2_8_2_key rfc_2_8_2_nonce rfc_2_8_2_ad
      (rfc_chacha20_encrypt rfc_2_8_2_key rfc_2_8_2_nonce 1 rfc_2_8_2_start).
Proof.
  pose proof (EVP_aead_chacha20_poly1305_rfc8439 poly_zero_state rfc_2_8_2_key 0 EVP_AEAD_CTX_zero 1000 40 rfc_2_8_2_nonce 1000 20
    rfc_2_8_2_ad (example_mem 1000 rfc_2_8_2_start) eq_refl (be_bytes_ok _ _) ltac:(cbn; lia) ltac:(lia)
    ltac:(apply example_call_ok; (lia || apply be_bytes_ok))) as H.
  fold example_aead in H. cbv zeta in H.
  assert (EVP_AEAD_CTX_init example_aead rfc_2_8_2_key 0 EVP_AEAD_CTX_zero = (Some tt, AeadCtx (Some example_aead) example_data)) as Ei
    by reflexivity.
  rewrite Ei in H. cbn [fst snd data] in H. destruct H as (_ & _ & _ & H). cbv zeta.
  set (sealed := EVP_AEAD_CTX_seal example_aead example_data 1000 40 rfc_2_8_2_nonce 1000 20 rfc_2_8_2_ad (example_mem 1000 rfc_2_8_2_start)) in *.
  assert (fst sealed = Some 36) as E1 by (vm_compute; reflexivity).
  assert (mload (snd sealed) 1000 20 = be_bytes 20 0xd31a8d34648e60db7b86afbc53ef7ec2a4aded51) as E2 by (vm_compute; reflexivity).
  assert (mload (example_mem 1000 rfc_2_8_2_start) 1000 20 = rfc_2_8_2_start) as E3 by (vm_compute; reflexivity).
  rewrite E1, E3 in H. destruct H as (_ & H & _). split; [exact E1|]. split; [exact E2|].
  refine (eq_trans H (f_equal (app _) (take_ge _ _ _))). unfold rfc_aead_tag. rewrite length_poly1305_mac. apply le_n.
Defined.

(** Sealed in place, then opened elsewhere. *)
Definition example_sealed : option Z * mem :=
  EVP_AEAD_CTX_seal example_aead example_data 1000 40 rfc_2_8_2_nonce 1000 20 rfc_2_8_2_ad (example_mem 1000 rfc_2_8_2_start).
Definition rfc_2_8_2_sealed : bytes := be_bytes 36 0xd31a8d34648e60db7b86afbc53ef7ec2a4aded51e139d222c27617a282d78e210b635057.

Lemma EVP_AEAD_CTX_seal_open_witness :
  let opened := EVP_AEAD_CTX_open example_aead example_data 5000 20 rfc_2_8_2_nonce 1000 36 rfc_2_8_2_ad (example_mem 1000 rfc_2_8_2_sealed) in
  fst opened = Some 20 /\ mload (snd opened) 5000 20 = rfc_2_8_2_start.
Proof.
  assert (fst example_sealed = Some 36) as E1 by (vm_compute; reflexivity).
  assert (mload (example_mem 1000 rfc_2_8_2_sealed) 1000 36 = mload (snd example_sealed) 1000 36) as E2 by (vm_compute; reflexivity).
  assert (mload (example_mem 1000 rfc_2_8_2_start) 1000 20 = rfc_2_8_2_start) as E3 by (vm_compute; reflexivity).
  destruct (EVP_AEAD_CTX_seal_open example_aead c20_ok (2 ^ 38 - 64) chacha_enc chacha_aead_tag (AeadLaws0 := chacha_laws poly_zero_state eq_refl)
    example_data 1000 40 rfc_2_8_2_nonce 1000 20 rfc_2_8_2_ad (example_mem 1000 rfc_2_8_2_start) 36 5000 20 1000
    (example_mem 1000 rfc_2_8_2_sealed) example_data_ok ltac:(apply example_call_ok; (lia || apply be_bytes_ok))
    ltac:(apply example_call_ok; (lia || apply be_bytes_ok)) E1 E2 ltac:(lia) ltac:(right; unfold disjoint_bufs; lia)) as (H1 & H2 & _).
  split; [exact H1|]. exact (eq_trans H2 E3).
Defined.

(** One bit of the ciphertext is changed. *)
Lemma EVP_AEAD_CTX_open_authentic_witness :
  let opened := EVP_AEAD_CTX_open example_aead example_data 1000 36 rfc_2_8_2_nonce 1000 36 rfc_2_8_2_ad
    (example_mem 1000 (0xd2 :: drop 1 rfc_2_8_2_sealed)) in
  fst opened = None /\ mload (snd opened) 1000 36 = replicate 36 0.
Proof.
  pose proof (EVP_AEAD_CTX_open_authentic example_aead c20_ok (2 ^ 38 - 64) chacha_enc chacha_aead_tag (AeadLaws0 := chacha_laws poly_zero_state eq_refl)
    example_data 1000 36 rfc_2_8_2_nonce 1000 36 rfc_2_8_2_ad (example_mem 1000 (0xd2 :: drop 1 rfc_2_8_2_sealed)) example_data_ok
    ltac:(apply example_call_ok; first [lia|apply bytes_ok_cons; split; [unfold is_byte; lia|apply bytes_ok_drop, be_bytes_ok]])) as H.
  cbv zeta in *. set (opened := EVP_AEAD_CTX_open _ _ _ _ _ _ _ _ _) in *.
  assert (fst opened = None) as E by (vm_compute; reflexivity). rewrite E in *. split; [reflexivity|]. destruct H as (_ & _ & H). exact H.
Defined.

(** [EVP_AEAD_CTX_new] does not look at what [OPENSSL_malloc] has returned. *)
Lemma EVP_AEAD_CTX_new_no_memory {H} `{Malloc H} a key tag_len (hp hp' : H) :
  OPENSSL_malloc 584 hp = (None, hp') -> EVP_AEAD_CTX_new a key tag_len hp = (NullDereference, hp').
Proof. intros E. unfold EVP_AEAD_CTX_new. by rewrite E. Qed.
