(* ===== verification/BnWords.v ===== *)
(** The arithmetic on arrays of 64-bit words under the big numbers:
    [crypto/fipsmodule/bn/generic.c], the additions with carry of
    [crypto/internal.h], and the word-array functions of [bn.c], [cmp.c],
    [shift.c] and [div.c] of the same directory.

    An argument [(pointer, num)] is the list of the [num] words there, and an
    array that a function writes is its result.  Inputs and outputs may be the
    same array, as [bn/internal.h] allows: each loop reads the words of an index
    before it writes there and never reads them again. *)
From S2P Require Import Prelude ConstTime.

(** * One word *)

Definition BN_BITS2 : Z := 64.
Definition BN_MASK2 : Z := 0xffffffffffffffff.

Definition u128 (x : Z) : Z := x mod 2 ^ 128.
(** [Lw(t)] and [Hw(t)]: the halves of a [BN_ULLONG], which is [uint128_t]. *)
Definition Lw (t : Z) : Z := u64 t.
Definition Hw (t : Z) : Z := u64 (Z.shiftr t BN_BITS2).

(** [CRYPTO_addc_w] and [CRYPTO_subc_w] return the word and the carry. *)
Definition CRYPTO_addc_w (x y carry : Z) : Z * Z :=
  let ret := u128 (carry + u128 (x + y)) in (Lw ret, Hw ret).

Definition CRYPTO_subc_w (x y borrow : Z) : Z * Z :=
  let ret := u64 (x - y - borrow) in
  (ret, Z.lor (Z.b2z (x <? y)) (Z.land (Z.b2z (x =? y)) borrow)).

(** The macros; the assigned arguments are the results. *)
Definition mul_add (r a w c : Z) : Z * Z := let t := u128 (u128 (u128 (w * a) + r) + c) in (Lw t, Hw t).
Definition mul (a w c : Z) : Z * Z := let t := u128 (u128 (w * a) + c) in (Lw t, Hw t).
Definition sqr (a : Z) : Z * Z := let t := u128 (a * a) in (Lw t, Hw t).

(** The three-word accumulator [(c2, c1, c0)] of the column products. *)
Definition acc : Type := Z * Z * Z.

Definition mul_add_c (a b : Z) (c : acc) : acc :=
  let '(c0, c1, c2) := c in
  let t := u128 (u128 (a * b) + c0) in
  let c0 := Lw t in
  let hi := Hw t in
  let c1 := u64 (c1 + hi) in
  let c2 := u64 (c2 + Z.b2z (c1 <? hi)) in
  (c0, c1, c2).

Definition mul_add_c2 (a b : Z) (c : acc) : acc :=
  let '(c0, c1, c2) := c in
  let t := u128 (a * b) in
  let tt := u128 (t + c0) in
  let c0 := Lw tt in
  let hi := Hw tt in
  let c1 := u64 (c1 + hi) in
  let c2 := u64 (c2 + Z.b2z (c1 <? hi)) in
  let t := u128 (t + c0) in
  let c0 := Lw t in
  let hi := Hw t in
  let c1 := u64 (c1 + hi) in
  let c2 := u64 (c2 + Z.b2z (c1 <? hi)) in
  (c0, c1, c2).

Definition sqr_add_c (a : list Z) (i : nat) (c : acc) : acc :=
  let '(c0, c1, c2) := c in
  let t := u128 (a !!! i * a !!! i) in
  let t := u128 (t + c0) in
  let c0 := Lw t in
  let hi := Hw t in
  let c1 := u64 (c1 + hi) in
  let c2 := u64 (c2 + Z.b2z (c1 <? hi)) in
  (c0, c1, c2).

Definition sqr_add_c2 (a : list Z) (i j : nat) (c : acc) : acc := mul_add_c2 (a !!! i) (a !!! j) c.

(** * Loops

    [bn_mul_add_words], [bn_mul_words], [bn_add_words] and [bn_sub_words] have
    the same two loops: [while (num & ~3)] does four steps, [while (num)] one. *)

Fixpoint while1 (step : Z -> Z -> Z -> Z * Z) (xs ys : list Z) (c : Z) : list Z * Z :=
  match xs, ys with
  | x :: xs, y :: ys =>
      let '(r, c) := step x y c in
      let '(rs, c) := while1 step xs ys c in (r :: rs, c)
  | _, _ => ([], c)
  end.

Fixpoint while4 (step : Z -> Z -> Z -> Z * Z) (xs ys : list Z) (c : Z) : list Z * Z :=
  match xs, ys with
  | x0 :: x1 :: x2 :: x3 :: xs', y0 :: y1 :: y2 :: y3 :: ys' =>
      let '(r0, c) := step x0 y0 c in
      let '(r1, c) := step x1 y1 c in
      let '(r2, c) := step x2 y2 c in
      let '(r3, c) := step x3 y3 c in
      let '(rs, c) := while4 step xs' ys' c in (r0 :: r1 :: r2 :: r3 :: rs, c)
  | _, _ => while1 step xs ys c
  end.

(** Each returns the array [rp] and the carry. *)
Definition bn_mul_add_words (rp ap : list Z) (w : Z) : list Z * Z :=
  while4 (fun r a c => mul_add r a w c) rp ap 0.

Definition bn_mul_words (ap : list Z) (w : Z) : list Z * Z :=
  while4 (fun a _ c => mul a w c) ap ap 0.

Definition bn_add_words (a b : list Z) : list Z * Z := while4 CRYPTO_addc_w a b 0.

Definition bn_sub_words (a b : list Z) : list Z * Z := while4 CRYPTO_subc_w a b 0.

Fixpoint sqr1 (a : list Z) : list Z :=
  match a with
  | x :: a => let '(r0, r1) := sqr x in r0 :: r1 :: sqr1 a
  | [] => []
  end.

Fixpoint bn_sqr_words (a : list Z) : list Z :=
  match a with
  | a0 :: a1 :: a2 :: a3 :: a' =>
      let '(r0, r1) := sqr a0 in
      let '(r2, r3) := sqr a1 in
      let '(r4, r5) := sqr a2 in
      let '(r6, r7) := sqr a3 in
      r0 :: r1 :: r2 :: r3 :: r4 :: r5 :: r6 :: r7 :: bn_sqr_words a'
  | _ => sqr1 a
  end.

(** * Column products

    A column is accumulated, its low word is stored and cleared, and the three
    variables change places; after the last column the middle word is stored. *)

Fixpoint comba {A} (step : A -> acc -> acc) (columns : list (list A)) (c : acc) : list Z :=
  match columns with
  | col :: columns =>
      let '(c0, c1, c2) := fold_left (fun c ab => step ab c) col c in
      c0 :: comba step columns (c1, c2, 0)
  | [] => [c.1.1]
  end.

Definition mul_columns (a b : list Z) (columns : list (list (nat * nat))) : list Z :=
  comba (fun ij => mul_add_c (a !!! ij.1) (b !!! ij.2)) columns (0, 0, 0).

Definition bn_mul_comba8 (a b : list Z) : list Z := mul_columns a b
  [[(0, 0)];
   [(0, 1); (1, 0)];
   [(2, 0); (1, 1); (0, 2)];
   [(0, 3); (1, 2); (2, 1); (3, 0)];
   [(4, 0); (3, 1); (2, 2); (1, 3); (0, 4)];
   [(0, 5); (1, 4); (2, 3); (3, 2); (4, 1); (5, 0)];
   [(6, 0); (5, 1); (4, 2); (3, 3); (2, 4); (1, 5); (0, 6)];
   [(0, 7); (1, 6); (2, 5); (3, 4); (4, 3); (5, 2); (6, 1); (7, 0)];
   [(7, 1); (6, 2); (5, 3); (4, 4); (3, 5); (2, 6); (1, 7)];
   [(2, 7); (3, 6); (4, 5); (5, 4); (6, 3); (7, 2)];
   [(7, 3); (6, 4); (5, 5); (4, 6); (3, 7)];
   [(4, 7); (5, 6); (6, 5); (7, 4)];
   [(7, 5); (6, 6); (5, 7)];
   [(6, 7); (7, 6)];
   [(7, 7)]]%nat.

Definition bn_mul_comba4 (a b : list Z) : list Z := mul_columns a b
  [[(0, 0)];
   [(0, 1); (1, 0)];
   [(2, 0); (1, 1); (0, 2)];
   [(0, 3); (1, 2); (2, 1); (3, 0)];
   [(3, 1); (2, 2); (1, 3)];
   [(2, 3); (3, 2)];
   [(3, 3)]]%nat.

(** [sqr_add_c(a, i, ...)] and [sqr_add_c2(a, i, j, ...)]. *)
Inductive sqr_step := Sqr (i : nat) | Dbl (i j : nat).

Definition do_sqr_step (a : list Z) (s : sqr_step) (c : acc) : acc :=
  match s with
  | Sqr i => sqr_add_c a i c
  | Dbl i j => sqr_add_c2 a i j c
  end.

Definition bn_sqr_comba8 (a : list Z) : list Z := comba (do_sqr_step a)
  [[Sqr 0];
   [Dbl 1 0];
   [Sqr 1; Dbl 2 0];
   [Dbl 3 0; Dbl 2 1];
   [Sqr 2; Dbl 3 1; Dbl 4 0];
   [Dbl 5 0; Dbl 4 1; Dbl 3 2];
   [Sqr 3; Dbl 4 2; Dbl 5 1; Dbl 6 0];
   [Dbl 7 0; Dbl 6 1; Dbl 5 2; Dbl 4 3];
   [Sqr 4; Dbl 5 3; Dbl 6 2; Dbl 7 1];
   [Dbl 7 2; Dbl 6 3; Dbl 5 4];
   [Sqr 5; Dbl 6 4; Dbl 7 3];
   [Dbl 7 4; Dbl 6 5];
   [Sqr 6; Dbl 7 5];
   [Dbl 7 6];
   [Sqr 7]] (0, 0, 0).

Definition bn_sqr_comba4 (a : list Z) : list Z := comba (do_sqr_step a)
  [[Sqr 0];
   [Dbl 1 0];
   [Sqr 1; Dbl 2 0];
   [Dbl 3 0; Dbl 2 1];
   [Sqr 2; Dbl 3 1];
   [Dbl 3 2];
   [Sqr 3]] (0, 0, 0).

(** * Selection, comparison and reduction *)

Definition bn_select_words (mask : Z) (a b : list Z) : list Z := zip_with (constant_time_select_w mask) a b.

Definition or_words (l : list Z) : Z := fold_left Z.lor l 0.

Definition bn_cmp_words_consttime (a b : list Z) : Z :=
  let min := (if length a <? length b then length a else length b)%nat in
  let ret := fold_left (fun ret xy =>
    constant_time_select_int (constant_time_eq_w xy.1 xy.2) ret
      (constant_time_select_int (constant_time_lt_w xy.1 xy.2) (-1) 1)) (zip (take min a) (take min b)) 0 in
  if (length a <? length b)%nat then
    constant_time_select_int (constant_time_is_zero_w (or_words (drop (length a) b))) ret (-1)
  else if (length b <? length a)%nat then
    constant_time_select_int (constant_time_is_zero_w (or_words (drop (length b) a))) ret 1
  else ret.

Definition bn_less_than_words (a b : list Z) : bool := bn_cmp_words_consttime a b <? 0.

(** [bn_reduce_once] and [bn_reduce_once_in_place] return the array and the
    mask [carry]. *)
Definition bn_reduce_once (a : list Z) (carry : Z) (m : list Z) : list Z * Z :=
  let '(r, borrow) := bn_sub_words a m in
  let carry := u64 (carry - borrow) in
  (bn_select_words carry a r, carry).

Definition bn_reduce_once_in_place (r : list Z) (carry : Z) (m : list Z) : list Z * Z :=
  let '(tmp, borrow) := bn_sub_words r m in
  let carry := u64 (carry - borrow) in
  (bn_select_words carry r tmp, carry).

Definition bn_mod_sub_words (a b m : list Z) : list Z :=
  let '(r, borrow) := bn_sub_words a b in
  let '(tmp, _) := bn_add_words r m in
  bn_select_words (u64 (0 - borrow)) tmp r.

Definition bn_mod_add_words (a b m : list Z) : list Z :=
  let '(r, carry) := bn_add_words a b in
  fst (bn_reduce_once_in_place r carry m).

(** * Shifts and bits *)

Fixpoint rshift_words_loop (shift_bits : Z) (a : list Z) : list Z :=
  match a with
  | x :: (y :: _) as a' => Z.lor (Z.shiftr x shift_bits) (u64 (Z.shiftl y (BN_BITS2 - shift_bits))) :: rshift_words_loop shift_bits a'
  | [x] => [Z.shiftr x shift_bits]
  | [] => []
  end.

Definition bn_rshift_words (a : list Z) (shift : Z) : list Z :=
  let num := length a in
  let shift_bits := shift mod BN_BITS2 in
  let shift_words := Z.to_nat (shift / BN_BITS2) in
  if (num <=? shift_words)%nat then replicate num 0
  else
    (if shift_bits =? 0 then drop shift_words a else rshift_words_loop shift_bits (drop shift_words a)) ++
    replicate shift_words 0.

Definition bn_rshift1_words (a : list Z) : list Z := rshift_words_loop 1 a.

Definition bn_is_bit_set_words (a : list Z) (bit : Z) : Z :=
  let i := bit / BN_BITS2 in
  let j := bit mod BN_BITS2 in
  if i >=? Zlen a then 0 else Z.land (Z.shiftr (a !!! Z.to_nat i) j) 1.

(** * Values

    The value of an array, least significant word first, and [2^(64 n)]. *)

Fixpoint wval (l : list Z) : Z :=
  match l with
  | x :: l => x + 2 ^ 64 * wval l
  | [] => 0
  end.

Definition wbase (n : nat) : Z := 2 ^ (64 * Z.of_nat n).

Definition words_ok (l : list Z) : Prop := Forall word l.

Lemma wbase_0 : wbase 0 = 1.
Proof. done. Qed.

Lemma wbase_S n : wbase (S n) = 2 ^ 64 * wbase n.
Proof. unfold wbase. rewrite <- Z.pow_add_r by lia. f_equal. lia. Qed.

Lemma wbase_1 : wbase 1 = 2 ^ 64.
Proof. done. Qed.

Lemma wbase_add n m : wbase (n + m) = wbase n * wbase m.
Proof. unfold wbase. rewrite <- Z.pow_add_r by lia. f_equal. lia. Qed.

Lemma wbase_pos n : 0 < wbase n.
Proof. unfold wbase. apply Z.pow_pos_nonneg; lia. Qed.

Lemma wbase_le n m : (n <= m)%nat -> wbase n <= wbase m.
Proof. intros. unfold wbase. apply Z.pow_le_mono_r; lia. Qed.

Lemma word_0 : word 0.
Proof. unfold word. lia. Qed.

Lemma u64_of_word x : word x -> u64 x = x.
Proof. intros. by apply Z.mod_small. Qed.

Lemma words_ok_nil : words_ok [].
Proof. constructor. Qed.
Lemma words_ok_cons x l : words_ok (x :: l) <-> word x /\ words_ok l.
Proof. apply Forall_cons. Qed.
Lemma words_ok_app l k : words_ok (l ++ k) <-> words_ok l /\ words_ok k.
Proof. apply Forall_app. Qed.
Lemma words_ok_take n l : words_ok l -> words_ok (take n l).
Proof. apply Forall_take. Qed.
Lemma words_ok_drop n l : words_ok l -> words_ok (drop n l).
Proof. apply Forall_drop. Qed.
Lemma words_ok_replicate_0 n : words_ok (replicate n 0).
Proof. apply Forall_replicate, word_0. Qed.
Lemma words_ok_lookup l i : words_ok l -> word (l !!! i).
Proof.
  intros Hl. rewrite list_lookup_total_alt. destruct (l !! i) eqn:E; simpl; [|unfold word; lia].
  exact (Forall_lookup_1 _ _ _ _ Hl E).
Qed.
Create HintDb words.
#[export] Hint Resolve word_0 u64_word words_ok_nil words_ok_take words_ok_drop words_ok_replicate_0 words_ok_lookup : words.

(** Splits [words_ok] hypotheses and goals along the list's structure. *)
Ltac simp_words :=
  repeat match goal with
  | H : words_ok (_ :: _) |- _ => apply words_ok_cons in H as [? ?]
  | H : words_ok (_ ++ _) |- _ => apply words_ok_app in H as [? ?]
  end.
Ltac solve_words :=
  simp_words; repeat first [apply words_ok_cons; split | apply words_ok_app; split]; auto with words.

Lemma wval_nil : wval [] = 0.
Proof. done. Qed.
Lemma wval_cons x l : wval (x :: l) = x + 2 ^ 64 * wval l.
Proof. done. Qed.

Lemma wval_app l k : wval (l ++ k) = wval l + wbase (length l) * wval k.
Proof.
  induction l as [|x l IH]; [change (wbase (length (@nil Z))) with 1; simpl; lia|].
  cbn [app length]. rewrite !wval_cons, wbase_S, IH. ring.
Qed.

Lemma wval_bound l : words_ok l -> 0 <= wval l < wbase (length l).
Proof.
  induction l as [|x l IH]; intros Hl; [change (wbase (length (@nil Z))) with 1; simpl; lia|]. simp_words.
  cbn [length]. rewrite wval_cons, wbase_S. unfold word in *. specialize (IH ltac:(done)). nia.
Qed.

Lemma wval_nonneg l : words_ok l -> 0 <= wval l.
Proof. intros Hl. apply wval_bound in Hl. lia. Qed.

Lemma wval_replicate_0 n : wval (replicate n 0) = 0.
Proof. induction n as [|n IH]; [done|]. cbn [replicate]. rewrite wval_cons, IH. lia. Qed.

Lemma wval_take_drop n l : wval l = wval (take n l) + wbase (Nat.min n (length l)) * wval (drop n l).
Proof. rewrite <- (take_drop n l) at 1. by rewrite wval_app, length_take. Qed.

(** The words of a value. *)
Lemma wval_zero_iff l : words_ok l -> wval l = 0 <-> Forall (fun x => x = 0) l.
Proof.
  induction l as [|x l IH]; intros Hl; [done|]. simp_words. rewrite wval_cons, Forall_cons.
  rewrite <- IH by done. pose proof (wval_nonneg l ltac:(done)). unfold word in *. lia.
Qed.

Lemma wval_inj l k : words_ok l -> words_ok k -> length l = length k -> wval l = wval k -> l = k.
Proof.
  revert k. induction l as [|x l IH]; intros [|y k] Hl Hk Hlen Hv; try done. simp_words.
  rewrite !wval_cons in Hv. unfold word in *. assert (x = y /\ wval l = wval k) as [-> ?] by lia.
  f_equal. apply IH; auto.
Qed.

(** * The loops *)

Lemma while4_while1 step xs ys c : while4 step xs ys c = while1 step xs ys c.
Proof.
  revert ys c. induction xs as [xs IH] using (induction_ltof1 _ (@length Z)). intros ys c.
  destruct xs as [|x0 [|x1 [|x2 [|x3 xs]]]], ys as [|y0 [|y1 [|y2 [|y3 ys]]]]; try done.
  cbn [while4 while1]. destruct (step x0 y0 c) as [r0 c0]. destruct (step x1 y1 c0) as [r1 c1].
  destruct (step x2 y2 c1) as [r2 c2]. destruct (step x3 y3 c2) as [r3 c3].
  rewrite IH by (unfold ltof; simpl; lia). by destruct (while1 step xs ys c3).
Qed.

(** A step that computes [p x + q y + s c] in a word and a carry: the loop
    computes the same of the arrays. *)
Lemma while1_value step (C : Z -> Prop) p q s xs ys c :
  (forall x y c, word x -> word y -> C c ->
     word (step x y c).1 /\ C (step x y c).2 /\
     (step x y c).1 + s * (2 ^ 64 * (step x y c).2) = p * x + q * y + s * c) ->
  length xs = length ys -> words_ok xs -> words_ok ys -> C c ->
  let '(rs, c') := while1 step xs ys c in
  length rs = length xs /\ words_ok rs /\ C c' /\
  wval rs + s * (wbase (length xs) * c') = p * wval xs + q * wval ys + s * c.
Proof.
  intros Hstep. revert ys c. induction xs as [|x xs IH]; intros [|y ys] c Hlen Hx Hy Hc; try done.
  { cbn [while1]. change (wbase (length (@nil Z))) with 1. split_and!; auto with words. simpl. lia. }
  simp_words. cbn [while1]. destruct (Hstep x y c) as (Hw & Hc' & Hv); [done..|].
  destruct (step x y c) as [r c1]. cbn [fst snd] in *.
  specialize (IH ys c1 ltac:(simpl in Hlen; lia) ltac:(done) ltac:(done) Hc').
  destruct (while1 step xs ys c1) as [rs c2]. destruct IH as (Hl & Hrs & Hc2 & Hv2).
  cbn [length]. rewrite !wval_cons, wbase_S. split_and!; [lia|solve_words|done|nia].
Qed.

Definition bit (c : Z) : Prop := 0 <= c <= 1.
Lemma bit_0 : bit 0.
Proof. unfold bit. lia. Qed.
#[export] Hint Resolve bit_0 : words.

Lemma Lw_Hw t : 0 <= t < 2 ^ 128 -> word (Lw t) /\ word (Hw t) /\ Lw t + 2 ^ 64 * Hw t = t.
Proof.
  intros Ht. unfold Lw, Hw, BN_BITS2. rewrite Z.shiftr_div_pow2 by lia.
  rewrite (u64_of_word (t / 2 ^ 64)) by (unfold word; dlia).
  split_and!; [apply u64_word|unfold word; dlia|unfold u64; dlia].
Qed.

Lemma u128_small x : 0 <= x < 2 ^ 128 -> u128 x = x.
Proof. intros. by apply Z.mod_small. Qed.

Lemma addc_value x y c : word x -> word y -> bit c ->
  let r := CRYPTO_addc_w x y c in word r.1 /\ bit r.2 /\ r.1 + 1 * (2 ^ 64 * r.2) = 1 * x + 1 * y + 1 * c.
Proof.
  unfold word, bit. intros Hx Hy Hc. unfold CRYPTO_addc_w. cbn [fst snd].
  rewrite (u128_small (x + y)), u128_small by lia.
  pose proof (Lw_Hw (c + (x + y)) ltac:(lia)) as (? & ? & ?). unfold word in *. lia.
Qed.

Lemma subc_value x y c : word x -> word y -> bit c ->
  let r := CRYPTO_subc_w x y c in word r.1 /\ bit r.2 /\ r.1 + -1 * (2 ^ 64 * r.2) = 1 * x + -1 * y + -1 * c.
Proof.
  unfold word, bit. intros Hx Hy Hc. unfold CRYPTO_subc_w. cbn [fst snd].
  assert (word (u64 (x - y - c))) as Hw by apply u64_word. unfold word in Hw.
  assert (Z.lor (Z.b2z (x <? y)) (Z.land (Z.b2z (x =? y)) c) = if x - y - c <? 0 then 1 else 0) as ->.
  { assert (c = 0 \/ c = 1) as [-> | ->] by lia;
      destruct (Z.ltb_spec x y), (Z.eqb_spec x y), (Z.ltb_spec (x - y - 0) 0), (Z.ltb_spec (x - y - 1) 0);
      try lia; done. }
  unfold u64 in *. destruct (Z.ltb_spec (x - y - c) 0).
  - replace ((x - y - c) mod 2 ^ 64) with (x - y - c + 2 ^ 64) in *; [lia|].
    apply (Z.mod_unique _ _ (-1)); lia.
  - rewrite Z.mod_small by lia. lia.
Qed.

Lemma word_mul a b : word a -> word b -> 0 <= a * b <= (2 ^ 64 - 1) * (2 ^ 64 - 1).
Proof. unfold word. nia. Qed.

Lemma mul_add_value w r a c : word w -> word r -> word a -> word c ->
  let x := mul_add r a w c in word x.1 /\ word x.2 /\ x.1 + 1 * (2 ^ 64 * x.2) = 1 * r + w * a + 1 * c.
Proof.
  intros Hw Hr Ha Hc. pose proof (word_mul _ _ Hw Ha). unfold word in Hr, Hc.
  unfold mul_add. cbn [fst snd]. rewrite (u128_small (w * a)), (u128_small (w * a + r)), u128_small by lia.
  pose proof (Lw_Hw (w * a + r + c) ltac:(lia)) as (? & ? & ?). split_and!; [done..|]. lia.
Qed.

Lemma mul_value w a c : word w -> word a -> word c ->
  let x := mul a w c in word x.1 /\ word x.2 /\ x.1 + 1 * (2 ^ 64 * x.2) = w * a + 1 * c.
Proof.
  intros Hw Ha Hc. pose proof (word_mul _ _ Hw Ha). unfold word in Hc.
  unfold mul. cbn [fst snd]. rewrite (u128_small (w * a)), u128_small by lia.
  pose proof (Lw_Hw (w * a + c) ltac:(lia)) as (? & ? & ?). split_and!; [done..|]. lia.
Qed.

Lemma sqr_value a : word a -> let x := sqr a in word x.1 /\ word x.2 /\ x.1 + 2 ^ 64 * x.2 = a * a.
Proof.
  intros Ha. pose proof (word_mul _ _ Ha Ha). unfold sqr. cbn [fst snd]. rewrite u128_small by lia.
  pose proof (Lw_Hw (a * a) ltac:(lia)) as (? & ? & ?). split_and!; [done..|]. lia.
Qed.

Lemma bn_add_words_spec a b : length a = length b -> words_ok a -> words_ok b ->
  let '(r, c) := bn_add_words a b in
  length r = length a /\ words_ok r /\ bit c /\ wval r + wbase (length a) * c = wval a + wval b.
Proof.
  intros Hl Ha Hb. unfold bn_add_words. rewrite while4_while1.
  pose proof (while1_value CRYPTO_addc_w bit 1 1 1 a b 0 addc_value Hl Ha Hb bit_0) as Hv.
  destruct (while1 _ _ _ _). destruct Hv as (? & ? & ? & ?). split_and!; [done..|lia].
Qed.

Lemma bn_sub_words_spec a b : length a = length b -> words_ok a -> words_ok b ->
  let '(r, c) := bn_sub_words a b in
  length r = length a /\ words_ok r /\ bit c /\ wval r - wbase (length a) * c = wval a - wval b.
Proof.
  intros Hl Ha Hb. unfold bn_sub_words. rewrite while4_while1.
  pose proof (while1_value CRYPTO_subc_w bit 1 (-1) (-1) a b 0 subc_value Hl Ha Hb bit_0) as Hv.
  destruct (while1 _ _ _ _). destruct Hv as (? & ? & ? & ?). split_and!; [done..|lia].
Qed.

Lemma bn_mul_add_words_spec r a w : length r = length a -> words_ok r -> words_ok a -> word w ->
  let '(r', c) := bn_mul_add_words r a w in
  length r' = length a /\ words_ok r' /\ word c /\ wval r' + wbase (length a) * c = wval r + w * wval a.
Proof.
  intros Hl Hr Ha Hw. unfold bn_mul_add_words. rewrite while4_while1.
  pose proof (while1_value (fun r a c => mul_add r a w c) word 1 w 1 r a 0
    ltac:(intros; by apply mul_add_value) Hl Hr Ha word_0) as Hv.
  destruct (while1 _ _ _ _). destruct Hv as (? & ? & ? & ?). rewrite <- Hl. split_and!; [done..|lia].
Qed.

Lemma bn_mul_words_spec a w : words_ok a -> word w ->
  let '(r, c) := bn_mul_words a w in
  length r = length a /\ words_ok r /\ word c /\ wval r + wbase (length a) * c = w * wval a.
Proof.
  intros Ha Hw. unfold bn_mul_words. rewrite while4_while1.
  pose proof (while1_value (fun a _ c => mul a w c) word w 0 1 a a 0
    ltac:(intros; rewrite Z.mul_0_l, Z.add_0_r; by apply mul_value) eq_refl Ha Ha word_0) as Hv.
  destruct (while1 _ _ _ _). destruct Hv as (? & ? & ? & ?). split_and!; [done..|lia].
Qed.

Lemma bn_sqr_words_sqr1 a : bn_sqr_words a = sqr1 a.
Proof.
  induction a as [a IH] using (induction_ltof1 _ (@length Z)).
  destruct a as [|x0 [|x1 [|x2 [|x3 a]]]]; try done.
  cbn [bn_sqr_words sqr1]. rewrite IH by (unfold ltof; simpl; lia). done.
Qed.

(** The sum of [a[i]^2 2^(128 i)]. *)
Fixpoint sqr_sum (a : list Z) : Z :=
  match a with
  | x :: a => x * x + 2 ^ 128 * sqr_sum a
  | [] => 0
  end.

Lemma bn_sqr_words_spec a : words_ok a ->
  length (bn_sqr_words a) = (2 * length a)%nat /\ words_ok (bn_sqr_words a) /\ wval (bn_sqr_words a) = sqr_sum a.
Proof.
  rewrite bn_sqr_words_sqr1. induction a as [|x a IH]; intros Ha; [done|]. simp_words.
  cbn [sqr1 sqr_sum]. destruct (sqr_value x) as (? & ? & ?); [done|]. destruct (sqr x) as [r0 r1].
  destruct IH as (? & ? & ?); [done|]. cbn [length fst snd] in *. rewrite !wval_cons.
  split_and!; [lia|solve_words|lia].
Qed.

(** * Column products *)

Definition acc_val (c : acc) : Z := let '(c0, c1, c2) := c in c0 + 2 ^ 64 * c1 + 2 ^ 128 * c2.
Definition acc_ok (c : acc) : Prop := let '(c0, c1, c2) := c in word c0 /\ word c1 /\ word c2.

Lemma acc_bound c : acc_ok c -> 0 <= acc_val c < 2 ^ 192.
Proof. destruct c as [[c0 c1] c2]. unfold acc_ok, acc_val, word. lia. Qed.

(** The carry into the second word. *)
Lemma add_carry x y : word x -> word y ->
  word (u64 (x + y)) /\ u64 (x + y) + 2 ^ 64 * Z.b2z (u64 (x + y) <? y) = x + y.
Proof.
  intros Hx Hy. split; [apply u64_word|]. unfold word, u64 in *.
  destruct (Z.ltb_spec ((x + y) mod 2 ^ 64) y); simpl Z.b2z; dlia.
Qed.

(** One product is added to the three words when it fits. *)
Lemma add_product_value t c0 c1 c2 : 0 <= t <= (2 ^ 64 - 1) * (2 ^ 64 - 1) -> acc_ok (c0, c1, c2) ->
  acc_val (c0, c1, c2) + t < 2 ^ 192 ->
  let hi := Hw (u128 (t + c0)) in
  let c1' := u64 (c1 + hi) in
  let c := (Lw (u128 (t + c0)), c1', u64 (c2 + Z.b2z (c1' <? hi))) in
  acc_ok c /\ acc_val c = acc_val (c0, c1, c2) + t.
Proof.
  intros Ht (H0 & H1 & H2) Hb. cbv zeta. unfold acc_val, acc_ok in *. unfold word in H0.
  rewrite u128_small by lia. destruct (Lw_Hw (t + c0)) as (Hl & Hh & Hv); [lia|].
  destruct (add_carry c1 (Hw (t + c0))) as (Hw1 & Hv1); [done..|].
  set (hi := Hw (t + c0)) in *. set (lo := Lw (t + c0)) in *. set (m := u64 (c1 + hi)) in *.
  clearbody hi lo m. unfold word in *.
  assert (0 <= Z.b2z (m <? hi) <= 1) by (destruct (m <? hi); simpl; lia).
  rewrite (u64_of_word (c2 + _)) by (unfold word; lia). lia.
Qed.

Lemma mul_add_c_value a b c : word a -> word b -> acc_ok c -> acc_val c + a * b < 2 ^ 192 ->
  acc_ok (mul_add_c a b c) /\ acc_val (mul_add_c a b c) = acc_val c + a * b.
Proof.
  intros Ha Hb Hc Hlt. pose proof (word_mul _ _ Ha Hb) as Hm. destruct c as [[c0 c1] c2].
  unfold mul_add_c. rewrite (u128_small (a * b)) by lia. by apply add_product_value.
Qed.

Lemma mul_add_c2_value a b c : word a -> word b -> acc_ok c -> acc_val c + 2 * (a * b) < 2 ^ 192 ->
  acc_ok (mul_add_c2 a b c) /\ acc_val (mul_add_c2 a b c) = acc_val c + 2 * (a * b).
Proof.
  intros Ha Hb Hc Hlt. pose proof (word_mul _ _ Ha Hb) as Hm. destruct c as [[c0 c1] c2].
  unfold mul_add_c2. rewrite (u128_small (a * b)) by lia.
  destruct (add_product_value (a * b) c0 c1 c2) as (Ho & Hv); [done..|lia|]. cbv zeta in *.
  set (d := (Lw (u128 (a * b + c0)), u64 (c1 + Hw (u128 (a * b + c0))), _)) in *.
  destruct (add_product_value (a * b) d.1.1 d.1.2 d.2) as (Ho2 & Hv2);
    [done..|change (d.1.1, d.1.2, d.2) with d; lia|].
  cbv zeta in *. change (d.1.1, d.1.2, d.2) with d in Hv2. split; [exact Ho2|].
  etrans; [exact Hv2|]. lia.
Qed.

(** What one entry of a column adds. *)
Definition sqr_step_val (a : list Z) (s : sqr_step) : Z :=
  match s with
  | Sqr i => a !!! i * a !!! i
  | Dbl i j => 2 * (a !!! i * a !!! j)
  end.

Lemma do_sqr_step_value a s c : words_ok a -> acc_ok c -> acc_val c + sqr_step_val a s < 2 ^ 192 ->
  acc_ok (do_sqr_step a s c) /\ acc_val (do_sqr_step a s c) = acc_val c + sqr_step_val a s.
Proof.
  intros Ha Hc. destruct s as [i|i j]; cbn [do_sqr_step sqr_step_val]; intros Hlt.
  - exact (mul_add_c_value (a !!! i) (a !!! i) c (words_ok_lookup _ _ Ha) (words_ok_lookup _ _ Ha) Hc Hlt).
  - apply mul_add_c2_value; auto with words.
Qed.

Section comba.
Context {A : Type} (step : A -> acc -> acc) (val : A -> Z).
Hypothesis val_bound : forall x, 0 <= val x < 2 ^ 129.
Hypothesis step_value : forall x c, acc_ok c -> acc_val c + val x < 2 ^ 192 ->
  acc_ok (step x c) /\ acc_val (step x c) = acc_val c + val x.

Definition col_val (col : list A) : Z := foldr (fun x s => val x + s) 0 col.

Lemma col_val_bound col : 0 <= col_val col <= 2 ^ 129 * Zlen col.
Proof.
  induction col as [|x col IH]; [change (0 <= 0 <= 2 ^ 129 * 0); lia|].
  cbn [col_val foldr]. fold (col_val col). rewrite Zlen_cons. pose proof (val_bound x). lia.
Qed.

Lemma column_value col c : acc_ok c -> acc_val c + col_val col < 2 ^ 192 ->
  let c' := fold_left (fun c x => step x c) col c in
  acc_ok c' /\ acc_val c' = acc_val c + col_val col.
Proof.
  revert c. induction col as [|x col IH]; intros c Hc Hlt; cbn [fold_left col_val foldr] in *.
  { split; [done|lia]. }
  fold (col_val col) in *. pose proof (col_val_bound col). pose proof (val_bound x).
  destruct (step_value x c) as (Ho & Hv); [done|lia|].
  destruct (IH (step x c)) as (Ho2 & Hv2); [done|lia|]. split; [done|]. etrans; [exact Hv2|]. lia.
Qed.

Fixpoint columns_val (columns : list (list A)) : Z :=
  match columns with
  | col :: columns => col_val col + 2 ^ 64 * columns_val columns
  | [] => 0
  end.

(** The words give the sum of the columns, when no column has more than eight
    entries and the sum fits. *)
Lemma comba_value columns c : acc_ok c -> acc_val c < 2 ^ 140 -> Forall (fun col => Zlen col <= 8) columns ->
  acc_val c + columns_val columns < wbase (S (length columns)) ->
  let r := comba step columns c in
  length r = S (length columns) /\ words_ok r /\ wval r = acc_val c + columns_val columns.
Proof.
  revert c. induction columns as [|col columns IH]; intros [[c0 c1] c2] Hc Hb Hcols Hlt.
  { cbn [comba fst length columns_val] in *. rewrite wbase_1 in Hlt. unfold acc_ok, acc_val in *.
    destruct Hc as (? & ? & ?). split_and!; [done|solve_words|]. rewrite wval_cons, wval_nil. unfold word in *. lia. }
  apply Forall_cons in Hcols as [Hcol Hcols]. cbn [comba length columns_val] in *.
  pose proof (col_val_bound col).
  destruct (column_value col (c0, c1, c2)) as (Ho & Hv); [done|lia|].
  destruct (fold_left _ _ _) as [[d0 d1] d2]. rewrite wbase_S in Hlt.
  destruct Ho as (? & ? & ?). unfold acc_val in Hv at 1.
  assert (acc_val (d1, d2, 0) < 2 ^ 140) by (unfold acc_val, word in *; lia).
  destruct (IH (d1, d2, 0)) as (Hl & Hw & Hr); [split_and!; auto with words|done|done|unfold acc_val, word in *; lia|].
  cbn [length]. split_and!; [lia|solve_words|]. rewrite wval_cons. unfold acc_val in *. lia.
Qed.

End comba.

Lemma wval_lt_square a b : words_ok a -> words_ok b -> wval a * wval b < wbase (length a + length b).
Proof.
  intros Ha Hb. apply wval_bound in Ha, Hb. rewrite wbase_add. nia.
Qed.

Lemma word_mul_lt a b : word a -> word b -> 0 <= a * b < 2 ^ 128.
Proof. intros Ha Hb. pose proof (word_mul _ _ Ha Hb). lia. Qed.

(** A table of columns whose sum is the product of the values. *)
Lemma mul_columns_spec a b columns : words_ok a -> words_ok b ->
  S (length columns) = (length a + length b)%nat -> Forall (fun col : list (nat * nat) => Zlen col <= 8) columns ->
  columns_val (fun ij => a !!! ij.1 * b !!! ij.2) columns = wval a * wval b ->
  let r := mul_columns a b columns in
  length r = (length a + length b)%nat /\ words_ok r /\ wval r = wval a * wval b.
Proof.
  intros Ha Hb Hl Hc Hv. unfold mul_columns. cbv zeta. rewrite <- Hl, <- Hv.
  pose proof (comba_value (fun ij => mul_add_c (a !!! ij.1) (b !!! ij.2)) (fun ij => a !!! ij.1 * b !!! ij.2)) as H.
  specialize (H ltac:(intros x; pose proof (word_mul_lt (a !!! x.1) (b !!! x.2) ltac:(auto with words) ltac:(auto with words)); lia)
                ltac:(intros; apply mul_add_c_value; auto with words) columns (0, 0, 0)).
  apply H; [split_and!; auto with words|done|done|].
  rewrite Hl, Hv. change (acc_val (0, 0, 0)) with 0. pose proof (wval_lt_square _ _ Ha Hb). lia.
Qed.

Lemma sqr_columns_spec a columns : words_ok a ->
  S (length columns) = (2 * length a)%nat -> Forall (fun col : list sqr_step => Zlen col <= 8) columns ->
  columns_val (sqr_step_val a) columns = wval a * wval a ->
  let r := comba (do_sqr_step a) columns (0, 0, 0) in
  length r = (2 * length a)%nat /\ words_ok r /\ wval r = wval a * wval a.
Proof.
  intros Ha Hl Hc Hv. cbv zeta. rewrite <- Hl, <- Hv.
  assert (forall i, word (a !!! i)) as Hi by auto with words.
  pose proof (comba_value (do_sqr_step a) (sqr_step_val a)) as H.
  specialize (H ltac:(intros [i|i j]; cbn [sqr_step_val];
    [pose proof (word_mul_lt _ _ (Hi i) (Hi i))|pose proof (word_mul_lt _ _ (Hi i) (Hi j))]; lia)
    ltac:(intros; by apply do_sqr_step_value) columns (0, 0, 0)).
  apply H; [split_and!; auto with words|done|done|].
  rewrite Hl, Hv. change (acc_val (0, 0, 0)) with 0. pose proof (wval_lt_square _ _ Ha Ha).
  replace (2 * length a)%nat with (length a + length a)%nat by lia. lia.
Qed.

(** Takes the words of an array of a known length apart. *)
Ltac destruct_words a :=
  match goal with H : length a = _ |- _ =>
    repeat (destruct a as [|? a]; [discriminate H|injection H; clear H; intros H]);
    destruct a; [|discriminate H]
  end.

Lemma bn_mul_comba8_spec a b : length a = 8%nat -> length b = 8%nat -> words_ok a -> words_ok b ->
  let r := bn_mul_comba8 a b in length r = 16%nat /\ words_ok r /\ wval r = wval a * wval b.
Proof.
  intros Hla Hlb Ha Hb. pose proof (mul_columns_spec a b) as H. rewrite Hla, Hlb in H. apply H; [done..| |].
  - repeat constructor; done.
  - destruct_words a. destruct_words b. cbn -[Z.mul Z.add Z.pow]. ring.
Qed.

Lemma bn_mul_comba4_spec a b : length a = 4%nat -> length b = 4%nat -> words_ok a -> words_ok b ->
  let r := bn_mul_comba4 a b in length r = 8%nat /\ words_ok r /\ wval r = wval a * wval b.
Proof.
  intros Hla Hlb Ha Hb. pose proof (mul_columns_spec a b) as H. rewrite Hla, Hlb in H. apply H; [done..| |].
  - repeat constructor; done.
  - destruct_words a. destruct_words b. cbn -[Z.mul Z.add Z.pow]. ring.
Qed.

Lemma bn_sqr_comba8_spec a : length a = 8%nat -> words_ok a ->
  let r := bn_sqr_comba8 a in length r = 16%nat /\ words_ok r /\ wval r = wval a * wval a.
Proof.
  intros Hla Ha. pose proof (sqr_columns_spec a) as H. rewrite Hla in H. apply H; [done..| |].
  - repeat constructor; done.
  - destruct_words a. cbn -[Z.mul Z.add Z.pow]. ring.
Qed.

Lemma bn_sqr_comba4_spec a : length a = 4%nat -> words_ok a ->
  let r := bn_sqr_comba4 a in length r = 8%nat /\ words_ok r /\ wval r = wval a * wval a.
Proof.
  intros Hla Ha. pose proof (sqr_columns_spec a) as H. rewrite Hla in H. apply H; [done..| |].
  - repeat constructor; done.
  - destruct_words a. cbn -[Z.mul Z.add Z.pow]. ring.
Qed.

(** * Selection and comparison *)

Lemma mask_of_bit c : bit c -> u64 (0 - c) = mask_of (c =? 1).
Proof. unfold bit. intros Hc. assert (c = 0 \/ c = 1) as [-> | ->] by lia; done. Qed.

Lemma bn_select_words_spec c a b : words_ok a -> words_ok b -> length a = length b ->
  bn_select_words (mask_of c) a b = if c then a else b.
Proof.
  unfold bn_select_words. revert b. induction a as [|x a IH]; intros [|y b] Ha Hb Hl; try done; [by destruct c|].
  simp_words. cbn [zip_with]. rewrite select_w, IH by (done || (simpl in Hl; lia)). by destruct c.
Qed.

Lemma or_words_zero l x : fold_left Z.lor l x = 0 <-> x = 0 /\ Forall (fun y => y = 0) l.
Proof.
  revert x. induction l as [|y l IH]; intros x; cbn [fold_left].
  - split; [by intros ->|by intros []].
  - rewrite IH, Z.lor_eq_0_iff, Forall_cons. tauto.
Qed.

Lemma fold_lor_word l x : word x -> words_ok l -> word (fold_left Z.lor l x).
Proof.
  revert x. induction l as [|y l IH]; intros x Hx Hl; [done|]. simp_words.
  apply IH; [by apply lor_word|done].
Qed.

Lemma or_words_word l : words_ok l -> word (or_words l).
Proof. apply fold_lor_word, word_0. Qed.
#[export] Hint Resolve or_words_word : words.

Lemma or_words_eqb l : words_ok l -> (or_words l =? 0) = (wval l =? 0).
Proof.
  intros Hl. apply eq_iff_eq_true. rewrite !Z.eqb_eq, (wval_zero_iff l Hl). unfold or_words.
  rewrite or_words_zero. tauto.
Qed.

Lemma select_int_of c a b : -1 <= a <= 1 -> -1 <= b <= 1 ->
  constant_time_select_int (mask_of c) a b = if c then a else b.
Proof.
  intros Ha Hb. unfold constant_time_select_int. rewrite select_w by apply u64_word.
  assert (forall x, -1 <= x <= 1 -> to_int (u64 x) = x) as Hi.
  { intros x Hx. assert (x = -1 \/ x = 0 \/ x = 1) as [-> | [-> | ->]] by lia; done. }
  destruct c; by apply Hi.
Qed.

(** The sign of a difference. *)
Definition cmp_val (x y : Z) : Z := if x <? y then -1 else if x =? y then 0 else 1.

Lemma cmp_val_cases x y : x < y /\ cmp_val x y = -1 \/ x = y /\ cmp_val x y = 0 \/ y < x /\ cmp_val x y = 1.
Proof. unfold cmp_val. destruct (Z.ltb_spec x y), (Z.eqb_spec x y); lia. Qed.

Lemma cmp_loop l k ret : length l = length k -> words_ok l -> words_ok k -> -1 <= ret <= 1 ->
  fold_left (fun ret xy => constant_time_select_int (constant_time_eq_w xy.1 xy.2) ret
      (constant_time_select_int (constant_time_lt_w xy.1 xy.2) (-1) 1)) (zip l k) ret =
  if wval l =? wval k then ret else cmp_val (wval l) (wval k).
Proof.
  revert k ret. induction l as [|x l IH]; intros [|y k] ret Hl Hx Hy Hr; try done. simp_words.
  cbn [zip zip_with fold_left fst snd]. rewrite eq_w, lt_w by done.
  rewrite (select_int_of (x <? y)) by lia. rewrite select_int_of by (destruct (x <? y); lia).
  rewrite IH; [|simpl in Hl; lia|done|done|destruct (x =? y), (x <? y); lia].
  rewrite !wval_cons. pose proof (wval_nonneg l ltac:(done)). pose proof (wval_nonneg k ltac:(done)). unfold word in *.
  destruct (cmp_val_cases (wval l) (wval k)) as [[Hc ->]|[[-> ->]|[Hc ->]]].
  - rewrite !(proj2 (Z.eqb_neq _ _)) by lia.
    destruct (cmp_val_cases (x + 2 ^ 64 * wval l) (y + 2 ^ 64 * wval k)) as [[? ->]|[[? ->]|[? ->]]]; lia.
  - rewrite Z.eqb_refl. unfold cmp_val.
    destruct (Z.eqb_spec x y), (Z.ltb_spec x y), (Z.eqb_spec (x + 2 ^ 64 * wval k) (y + 2 ^ 64 * wval k)),
      (Z.ltb_spec (x + 2 ^ 64 * wval k) (y + 2 ^ 64 * wval k)); lia.
  - rewrite !(proj2 (Z.eqb_neq _ _)) by lia.
    destruct (cmp_val_cases (x + 2 ^ 64 * wval l) (y + 2 ^ 64 * wval k)) as [[? ->]|[[? ->]|[? ->]]]; lia.
Qed.

Lemma cmp_val_range x y : -1 <= cmp_val x y <= 1.
Proof. destruct (cmp_val_cases x y) as [[? ->]|[[? ->]|[? ->]]]; lia. Qed.

Lemma cmp_val_refl x y : (if x =? y then 0 else cmp_val x y) = cmp_val x y.
Proof. destruct (cmp_val_cases x y) as [[? ->]|[[? ->]|[? ->]]]; by destruct (Z.eqb_spec x y); lia. Qed.

Lemma bn_cmp_words_consttime_spec a b : words_ok a -> words_ok b ->
  bn_cmp_words_consttime a b = cmp_val (wval a) (wval b).
Proof.
  intros Ha Hb. unfold bn_cmp_words_consttime. cbv zeta.
  set (min := if (length a <? length b)%nat then length a else length b).
  rewrite cmp_loop; [|rewrite !length_take; unfold min; destruct (Nat.ltb_spec (length a) (length b)); lia|auto with words..|lia].
  rewrite cmp_val_refl. set (r := cmp_val _ _).
  assert (r = cmp_val (wval (take min a)) (wval (take min b))) as Hr by done.
  assert (-1 <= r <= 1) by apply cmp_val_range. clearbody r. subst min.
  destruct (Nat.ltb_spec (length a) (length b)).
  - rewrite is_zero_w, select_int_of, or_words_eqb by (auto with words || lia).
    rewrite (wval_take_drop (length a) b), Nat.min_l by lia. rewrite take_ge in Hr by lia.
    pose proof (wval_bound a Ha). pose proof (wval_bound (take (length a) b) ltac:(auto with words)) as Hb2.
    rewrite length_take, Nat.min_l in Hb2 by lia. pose proof (wval_nonneg (drop (length a) b) ltac:(auto with words)).
    destruct (Z.eqb_spec (wval (drop (length a) b)) 0) as [->|].
    + rewrite Hr. f_equal. lia.
    + destruct (cmp_val_cases (wval a) (wval (take (length a) b) + wbase (length a) * wval (drop (length a) b)))
        as [[? ->]|[[? ->]|[? ->]]]; [done|nia..].
  - destruct (Nat.ltb_spec (length b) (length a)).
    + rewrite is_zero_w, select_int_of, or_words_eqb by (auto with words || lia).
      rewrite (wval_take_drop (length b) a), Nat.min_l by lia. rewrite (take_ge b) in Hr by lia.
      pose proof (wval_bound b Hb). pose proof (wval_bound (take (length b) a) ltac:(auto with words)) as Hb2.
      rewrite length_take, Nat.min_l in Hb2 by lia. pose proof (wval_nonneg (drop (length b) a) ltac:(auto with words)).
      destruct (Z.eqb_spec (wval (drop (length b) a)) 0) as [->|].
      * rewrite Hr. f_equal. lia.
      * destruct (cmp_val_cases (wval (take (length b) a) + wbase (length b) * wval (drop (length b) a)) (wval b))
          as [[? ->]|[[? ->]|[? ->]]]; [nia..|done].
    + rewrite !take_ge in Hr by lia. done.
Qed.

Lemma bn_less_than_words_spec a b : words_ok a -> words_ok b -> bn_less_than_words a b = (wval a <? wval b).
Proof.
  intros Ha Hb. unfold bn_less_than_words. rewrite bn_cmp_words_consttime_spec by done. unfold cmp_val.
  destruct (wval a <? wval b), (wval a =? wval b); done.
Qed.

(** * Reduction *)

(** With [carry wbase + a < 2 m] the result is [carry wbase + a] modulo [m], and
    the mask says whether nothing was subtracted. *)
Lemma reduce_once_value a carry m : length a = length m -> words_ok a -> words_ok m -> bit carry ->
  let v := wval a + wbase (length m) * carry in
  0 < wval m -> v < 2 * wval m ->
  let '(r, borrow) := bn_sub_words a m in
  let mask := u64 (carry - borrow) in
  mask = mask_of (v <? wval m) /\
  length r = length m /\ words_ok r /\ wval (if v <? wval m then a else r) = v mod wval m.
Proof.
  intros Hl Ha Hm Hc. cbv zeta. intros Hpos Hv. pose proof (bn_sub_words_spec a m Hl Ha Hm) as Hs.
  destruct (bn_sub_words a m) as [r borrow]. destruct Hs as (Hlr & Hr & Hb & Hval). rewrite Hl in *.
  pose proof (wval_bound r Hr). pose proof (wval_bound m Hm). pose proof (wval_bound a Ha). rewrite Hlr, Hl in *.
  set (B := wbase (length m)) in *. clearbody B. unfold bit in *.
  destruct (Z.ltb_spec (wval a + B * carry) (wval m)) as [Hlt|Hge].
  - assert (carry = 0 /\ borrow = 1) as [-> ->] by nia. split_and!; [done..|]. rewrite Z.mod_small; lia.
  - assert (carry = borrow) as -> by nia. split_and!; [by rewrite Z.sub_diag|done..|].
    apply (Z.mod_unique _ _ 1); nia.
Qed.

Lemma bn_reduce_once_spec a carry m : length a = length m -> words_ok a -> words_ok m -> bit carry ->
  let v := wval a + wbase (length m) * carry in
  0 < wval m -> v < 2 * wval m ->
  let '(r, mask) := bn_reduce_once a carry m in
  length r = length m /\ words_ok r /\ wval r = v mod wval m /\ mask = mask_of (v <? wval m).
Proof.
  intros Hl Ha Hm Hc. cbv zeta. intros Hpos Hv. pose proof (reduce_once_value a carry m Hl Ha Hm Hc Hpos Hv) as Hs.
  unfold bn_reduce_once. destruct (bn_sub_words a m) as [r borrow]. destruct Hs as (-> & Hlr & Hr & Hval).
  rewrite bn_select_words_spec by (done || lia). destruct (_ <? _); done.
Qed.

Lemma bn_reduce_once_in_place_eq r carry m : bn_reduce_once_in_place r carry m = bn_reduce_once r carry m.
Proof. done. Qed.

Lemma bn_mod_add_words_spec a b m : length a = length m -> length b = length m ->
  words_ok a -> words_ok b -> words_ok m -> wval a < wval m -> wval b < wval m ->
  let r := bn_mod_add_words a b m in
  length r = length m /\ words_ok r /\ wval r = (wval a + wval b) mod wval m.
Proof.
  intros Hla Hlb Ha Hb Hm Hva Hvb. unfold bn_mod_add_words.
  pose proof (bn_add_words_spec a b ltac:(lia) Ha Hb) as Hs. destruct (bn_add_words a b) as [r carry].
  destruct Hs as (Hlr & Hr & Hc & Hv). rewrite Hla in *. pose proof (wval_nonneg a Ha).
  rewrite bn_reduce_once_in_place_eq.
  pose proof (bn_reduce_once_spec r carry m Hlr Hr Hm Hc ltac:(lia) ltac:(lia)) as Hs.
  destruct (bn_reduce_once r carry m) as [r2 mask]. destruct Hs as (? & ? & Hv2 & _).
  cbn [fst]. rewrite <- Hv. done.
Qed.

Lemma bn_mod_sub_words_spec a b m : length a = length m -> length b = length m ->
  words_ok a -> words_ok b -> words_ok m -> wval a < wval m -> wval b < wval m ->
  let r := bn_mod_sub_words a b m in
  length r = length m /\ words_ok r /\ wval r = (wval a - wval b) mod wval m.
Proof.
  intros Hla Hlb Ha Hb Hm Hva Hvb. unfold bn_mod_sub_words.
  pose proof (bn_sub_words_spec a b ltac:(lia) Ha Hb) as Hs. destruct (bn_sub_words a b) as [r borrow].
  destruct Hs as (Hlr & Hr & Hc & Hv). rewrite Hla in *.
  pose proof (bn_add_words_spec r m ltac:(lia) Hr Hm) as Hs. destruct (bn_add_words r m) as [tmp carry].
  destruct Hs as (Hlt & Ht & Hc2 & Hv2). rewrite Hlr in *. rewrite mask_of_bit, bn_select_words_spec by (done || lia).
  pose proof (wval_bound r Hr). pose proof (wval_bound tmp Ht). pose proof (wval_nonneg a Ha). pose proof (wval_nonneg b Hb).
  pose proof (wval_bound m Hm). rewrite Hlt, Hlr in *. set (B := wbase (length m)) in *. clearbody B. unfold bit in *.
  destruct (Z.eqb_spec borrow 1) as [->|].
  - assert (carry = 1) as -> by nia. split_and!; [done..|]. apply (Z.mod_unique _ _ (-1)); lia.
  - assert (borrow = 0) as -> by lia. split_and!; [done..|]. rewrite Z.mod_small; lia.
Qed.

(** * Shifts and bits *)

Lemma wval_drop k l : words_ok l -> (k <= length l)%nat -> wval (drop k l) = wval l / wbase k.
Proof.
  intros Hl Hk. pose proof (wval_take_drop k l) as Hv. rewrite Nat.min_l in Hv by done.
  pose proof (wval_bound (take k l) ltac:(auto with words)) as Hb. rewrite length_take, Nat.min_l in Hb by done.
  apply (Z.div_unique _ _ _ (wval (take k l))); lia.
Qed.

Lemma wval_take k l : words_ok l -> (k <= length l)%nat -> wval (take k l) = wval l mod wbase k.
Proof.
  intros Hl Hk. pose proof (wval_take_drop k l) as Hv. rewrite Nat.min_l in Hv by done.
  pose proof (wval_bound (take k l) ltac:(auto with words)) as Hb. rewrite length_take, Nat.min_l in Hb by done.
  apply (Z.mod_unique _ _ (wval (drop k l))); lia.
Qed.

Lemma pow2_split s : 0 <= s <= 64 -> 2 ^ 64 = 2 ^ s * 2 ^ (64 - s).
Proof. intros. rewrite <- Z.pow_add_r by lia. f_equal. lia. Qed.

(** One word of a right shift: its upper bits, and the lower bits of the next. *)
Lemma shift_word_value x y s : word x -> word y -> 0 < s < 64 ->
  let r := Z.lor (Z.shiftr x s) (u64 (Z.shiftl y (BN_BITS2 - s))) in
  word r /\ r = x / 2 ^ s + 2 ^ (64 - s) * (y mod 2 ^ s).
Proof.
  intros Hx Hy Hs r. unfold word in Hx, Hy. pose proof (pow2_split s ltac:(lia)) as Hp.
  assert (u64 (Z.shiftl y (BN_BITS2 - s)) = Z.shiftl (y mod 2 ^ s) (64 - s)) as Hl.
  { unfold u64, BN_BITS2. rewrite !Z.shiftl_mul_pow2 by lia. rewrite Hp.
    pose proof (Z.pow_pos_nonneg 2 s). pose proof (Z.pow_pos_nonneg 2 (64 - s)).
    rewrite Z.mul_mod_distr_r by lia. done. }
  assert (0 <= x / 2 ^ s < 2 ^ (64 - s)) as Hd.
  { split; [apply Z.div_pos; lia|]. apply Z.div_lt_upper_bound; lia. }
  assert (0 <= y mod 2 ^ s < 2 ^ s) as Hm by (apply Z.mod_pos_bound; lia).
  assert (r = x / 2 ^ s + 2 ^ (64 - s) * (y mod 2 ^ s)) as Hr.
  { unfold r. rewrite Hl, Z.shiftr_div_pow2 by lia. rewrite Z.lor_comm, Z.shiftl_mul_pow2 by lia.
    rewrite (lor_add_disjoint _ _ (64 - s)) by lia. lia. }
  split; [|done]. unfold word. rewrite Hr. nia.
Qed.

Lemma rshift_words_loop_spec s a : words_ok a -> 0 < s < 64 ->
  length (rshift_words_loop s a) = length a /\ words_ok (rshift_words_loop s a) /\
  wval (rshift_words_loop s a) = wval a / 2 ^ s.
Proof.
  intros Ha Hs. induction a as [|x a IH]; [done|]. simp_words. specialize (IH ltac:(done)).
  pose proof (pow2_split s ltac:(lia)) as Hp. pose proof (Z.pow_pos_nonneg 2 s ltac:(lia) ltac:(lia)).
  destruct a as [|y a].
  - cbn [rshift_words_loop length]. rewrite Z.shiftr_div_pow2 by lia. split_and!; [done| |].
    + apply words_ok_cons. split; [|auto with words]. unfold word in *. split; [apply Z.div_pos; lia|].
      apply Z.div_lt_upper_bound; nia.
    + rewrite !wval_cons, wval_nil, !Z.mul_0_r, !Z.add_0_r. done.
  - change (rshift_words_loop s (x :: y :: a)) with
      (Z.lor (Z.shiftr x s) (u64 (Z.shiftl y (BN_BITS2 - s))) :: rshift_words_loop s (y :: a)).
    simp_words. destruct IH as (Hl & Hw & Hv). destruct (shift_word_value x y s) as (Hwr & Hr); [done..|].
    split_and!; [cbn [length] in *; lia|solve_words|]. rewrite !wval_cons, Hr.
    rewrite wval_cons in Hv. rewrite Hv. set (V := y + 2 ^ 64 * wval a).
    assert (y mod 2 ^ s = V mod 2 ^ s) as ->.
    { unfold V. rewrite Hp. replace (y + 2 ^ s * 2 ^ (64 - s) * wval a) with (y + (2 ^ (64 - s) * wval a) * 2 ^ s) by ring.
      by rewrite Z_mod_plus_full. }
    replace (x + 2 ^ 64 * V) with (x + (2 ^ (64 - s) * V) * 2 ^ s) by (rewrite Hp; ring).
    rewrite Z_div_plus_full by lia. rewrite Hp. pose proof (Z.div_mod V (2 ^ s)). nia.
Qed.

Lemma bn_rshift_words_spec a shift : words_ok a -> 0 <= shift ->
  length (bn_rshift_words a shift) = length a /\ words_ok (bn_rshift_words a shift) /\
  wval (bn_rshift_words a shift) = wval a / 2 ^ shift.
Proof.
  intros Ha Hs. unfold bn_rshift_words. set (b := shift mod BN_BITS2). set (k := Z.to_nat (shift / BN_BITS2)).
  assert (2 ^ shift = wbase k * 2 ^ b) as Hp.
  { unfold wbase, b, k, BN_BITS2. rewrite <- Z.pow_add_r by dlia. f_equal. dlia. }
  assert (0 <= b < 64) as Hb by (unfold b, BN_BITS2; dlia). clearbody b k.
  pose proof (wbase_pos k). pose proof (Z.pow_pos_nonneg 2 b ltac:(lia) ltac:(lia)). pose proof (wval_bound a Ha).
  destruct (Nat.leb_spec (length a) k) as [Hk|Hk].
  { rewrite length_replicate, wval_replicate_0. split_and!; [done|auto with words|].
    symmetry. apply Z.div_small. pose proof (wbase_le _ _ Hk). rewrite Hp. nia. }
  assert (let r := if b =? 0 then drop k a else rshift_words_loop b (drop k a) in
    length r = (length a - k)%nat /\ words_ok r /\ wval r = wval a / 2 ^ shift) as (Hl & Hw & Hv).
  { cbv zeta. rewrite Hp. rewrite <- Z.div_div by lia. rewrite <- wval_drop by (done || lia).
    destruct (Z.eqb_spec b 0) as [->|].
    - rewrite length_drop, Z.div_1_r. auto with words.
    - replace (length a - k)%nat with (length (drop k a)) by apply length_drop. apply rshift_words_loop_spec; auto with words. lia. }
  rewrite length_app, length_replicate, wval_app, wval_replicate_0, Hl, Hv.
  split_and!; [lia|solve_words|lia].
Qed.

Lemma bn_rshift1_words_spec a : words_ok a ->
  length (bn_rshift1_words a) = length a /\ words_ok (bn_rshift1_words a) /\ wval (bn_rshift1_words a) = wval a / 2.
Proof. intros Ha. apply (rshift_words_loop_spec 1 a Ha). lia. Qed.

Lemma testbit_b2z x j : 0 <= j -> Z.land (Z.shiftr x j) 1 = Z.b2z (Z.testbit x j).
Proof.
  intros Hj. change 1 with (Z.ones 1). rewrite Z.land_ones by lia. change (2 ^ 1) with 2.
  rewrite Z.shiftr_div_pow2, Z.testbit_spec' by done. done.
Qed.

(** A bit of the value is a bit of its word. *)
Lemma wval_testbit l j : words_ok l -> 0 <= j ->
  Z.testbit (wval l) j = (j / 64 <? Zlen l) && Z.testbit (l !!! Z.to_nat (j / 64)) (j mod 64).
Proof.
  intros Hl Hj. destruct (Z.ltb_spec (j / 64) (Zlen l)) as [Hlt|Hge]; cbn [andb].
  - set (i := Z.to_nat (j / 64)). assert (i < length l)%nat as Hi by (unfold i, Zlen in *; dlia).
    replace j with (j mod 64 + 64 * Z.of_nat i) at 1 by (unfold i; dlia).
    rewrite <- Z.div_pow2_bits by dlia. change (2 ^ (64 * Z.of_nat i)) with (wbase i).
    rewrite <- wval_drop by (done || lia).
    destruct (lookup_lt_is_Some_2 l i Hi) as [x Hx]. rewrite (drop_S l x i Hx), (list_lookup_total_correct l i x Hx).
    rewrite wval_cons. rewrite <- (Z.mod_pow2_bits_low _ 64) by dlia.
    rewrite Z.mul_comm, Z_mod_plus_full, Z.mod_pow2_bits_low by dlia. done.
  - destruct (Z.eq_dec (wval l) 0) as [->|]; [apply Z.bits_0|]. pose proof (wval_nonneg l Hl).
    rewrite Z.bits_above_log2; [done..|].
    pose proof (wval_bound l Hl) as Hb. apply Z.log2_lt_pow2; [lia|].
    apply Z.lt_le_trans with (wbase (length l)); [lia|]. unfold wbase. apply Z.pow_le_mono_r; unfold Zlen in *; dlia.
Qed.

Lemma bn_is_bit_set_words_spec a bit : words_ok a -> 0 <= bit ->
  bn_is_bit_set_words a bit = Z.b2z (Z.testbit (wval a) bit).
Proof.
  intros Ha Hb. unfold bn_is_bit_set_words, BN_BITS2. rewrite wval_testbit by done.
  rewrite Z.geb_leb. destruct (Z.leb_spec (Zlen a) (bit / 64)).
  - by rewrite (proj2 (Z.ltb_ge _ _)).
  - rewrite (proj2 (Z.ltb_lt _ _)) by lia. apply testbit_b2z. dlia.
Qed.
