(* ===== verification/BnMul.v ===== *)
(** Products and squares of arrays of words: [crypto/fipsmodule/bn/mul.c].

    The functions write into an array [r] and use an array [t] as scratch space;
    both are lists, written at an offset with [put], and passed on.  A pointer
    into an array is the rest of its list; the read-only operands are disjoint
    from [r] and [t]. *)
From S2P Require Import Prelude ConstTime BnWords.

(** * Regions of an array *)

(** [n] words at [off], and [OPENSSL_memcpy(l + off, ws, ...)]. *)
Definition sub (off n : nat) (l : list Z) : list Z := take n (drop off l).
Definition put (off : nat) (ws l : list Z) : list Z := take off l ++ ws ++ drop (off + length ws) l.

Definition BN_MUL_RECURSIVE_SIZE_NORMAL : Z := 16.
Definition BN_SQR_RECURSIVE_SIZE_NORMAL : Z := BN_MUL_RECURSIVE_SIZE_NORMAL.

(** * Differences *)

(** The arrays [r] and [tmp]. *)
Definition bn_abs_sub_words (a b : list Z) : list Z * list Z :=
  let '(tmp, borrow) := bn_sub_words a b in
  let '(r, _) := bn_sub_words b a in
  (bn_select_words (u64 (0 - borrow)) r tmp, tmp).

Definition bn_sub_part_words (a b : list Z) (cl : nat) (dl : Z) : list Z * Z :=
  let '(r, borrow) := bn_sub_words (take cl a) (take cl b) in
  if dl =? 0 then (r, borrow)
  else
    let a := drop cl a in
    let b := drop cl b in
    if dl <? 0 then
      let dl := Z.to_nat (- dl) in
      let '(r', borrow) := while1 CRYPTO_subc_w (replicate dl 0) (take dl b) borrow in (r ++ r', borrow)
    else
      let dl := Z.to_nat dl in
      let '(r', borrow) := while1 CRYPTO_subc_w (take dl a) (replicate dl 0) borrow in (r ++ r', borrow).

(** The arrays [r] and [tmp] and the mask. *)
Definition bn_abs_sub_part_words (a b : list Z) (cl : nat) (dl : Z) : list Z * list Z * Z :=
  let '(tmp, borrow) := bn_sub_part_words a b cl dl in
  let '(r, _) := bn_sub_part_words b a cl (- dl) in
  let borrow := u64 (0 - borrow) in
  (bn_select_words borrow r tmp, tmp, borrow).

(** * Schoolbook products *)

(** [rr[k] = bn_mul_add_words(&r[k], a, na, b)] where [rr] is [&r[na]]. *)
Definition mul_row (a r : list Z) (k : nat) (b : Z) : list Z :=
  let na := length a in
  let '(s, c) := bn_mul_add_words (sub k na r) a b in
  put (k + na) [c] (put k s r).

(** The loop after the first row; [off] is how far [r], [rr] and [b] have been
    moved, and [b] is the words from [b[1]] on. *)
Fixpoint mul_normal_loop (a r : list Z) (off : nat) (b : list Z) : list Z :=
  match b with
  | [] => r
  | b1 :: b =>
      let r := mul_row a r (off + 1) b1 in
      match b with
      | [] => r
      | b2 :: b =>
          let r := mul_row a r (off + 2) b2 in
          match b with
          | [] => r
          | b3 :: b =>
              let r := mul_row a r (off + 3) b3 in
              match b with
              | [] => r
              | b4 :: b =>
                  let r := mul_row a r (off + 4) b4 in
                  mul_normal_loop a r (off + 4) b
              end
          end
      end
  end.

Definition bn_mul_normal (r a b : list Z) : list Z :=
  let '(a, b) := if (length a <? length b)%nat then (b, a) else (a, b) in
  let na := length a in
  match b with
  | [] => put 0 (replicate na 0) r
  | b0 :: b' =>
      let '(s, c) := bn_mul_words a b0 in
      mul_normal_loop a (put na [c] (put 0 s r)) 0 b'
  end.

(** [bn_sqr_normal]: the rows of [a[i] * a[j]], [i < j], from [rp] and [ap] on;
    every row but the first is added to what is there. *)
Fixpoint sqr_rows (rp ap : list Z) : list Z :=
  match ap with
  | x :: (_ :: _) as ap' =>
      let i := length ap' in
      let '(s, c) := bn_mul_add_words (take i rp) ap' x in
      let rp := put i [c] (put 0 s rp) in
      take 2 rp ++ sqr_rows (drop 2 rp) ap'
  | _ => rp
  end.

(** [tmp] is written with the squares; [r] has [2 n] words. *)
Definition bn_sqr_normal (r a : list Z) : list Z :=
  let n := length a in
  if (n =? 0)%nat then r
  else
    let max := (n * 2)%nat in
    let r := put 0 [0] (put (max - 1) [0] r) in
    let rp := drop 1 r in
    let rp :=
      match a with
      | x :: (_ :: _) as ap =>
          let '(s, c) := bn_mul_words ap x in
          let rp := put (n - 1) [c] (put 0 s rp) in
          take 2 rp ++ sqr_rows (drop 2 rp) ap
      | _ => rp
      end in
    let r := take 1 r ++ rp in
    let '(s, _) := bn_add_words (take max r) (take max r) in
    let r := put 0 s r in
    let tmp := bn_sqr_words a in
    let '(s, _) := bn_add_words (take max r) tmp in
    put 0 s r.

(** * Karatsuba *)

(** [for (i = ...) { old = r[i]; r[i] = old + c; c = r[i] < old; }] *)
Fixpoint propagate_carry (r : list Z) (c : Z) : list Z * Z :=
  match r with
  | old :: r =>
      let x := u64 (old + c) in
      let '(r, c) := propagate_carry r (Z.b2z (x <? old)) in (x :: r, c)
  | [] => ([], c)
  end.

(** [r1,r2,c = r1,r2 + t2,t3,c], and the carry to the end. *)
Definition add_middle (r t : list Z) (n n2 : nat) (c : Z) : list Z :=
  let '(s, carry) := bn_add_words (sub n n2 r) (sub n2 n2 t) in
  let r := put n s r in
  let c := u64 (c + carry) in
  let '(s, _) := propagate_carry (sub (n + n2) (n2 - n) r) c in
  put (n + n2) s r.

(** The part that [bn_mul_recursive] and [bn_mul_part_recursive] share: the
    three products are in [r0,r1], [r2,r3] and [t2,t3]. *)
Definition karatsuba_combine (r t : list Z) (n n2 : nat) (neg : Z) : list Z * list Z :=
  let '(s, c) := bn_add_words (sub 0 n2 r) (sub n2 n2 r) in
  let t := put 0 s t in
  let '(s, borrow) := bn_sub_words (sub 0 n2 t) (sub n2 n2 t) in
  let t := put (n2 * 2) s t in
  let c_neg := u64 (c - borrow) in
  let '(s, carry) := bn_add_words (sub 0 n2 t) (sub n2 n2 t) in
  let t := put n2 s t in
  let c_pos := u64 (c + carry) in
  let t := put n2 (bn_select_words neg (sub (n2 * 2) n2 t) (sub n2 n2 t)) t in
  let c := constant_time_select_w neg c_neg c_pos in
  (add_middle r t n n2 c, t).

(** [t0 = |a0 - a1|], [t1 = |b1 - b0|] and the exclusive or of the signs. *)
Definition karatsuba_diffs (a b t : list Z) (n n2 : nat) (tna tnb : nat) : list Z * Z :=
  let '(d, tmp, neg) := bn_abs_sub_part_words a (drop n a) tna (Z.of_nat n - Z.of_nat tna) in
  let t := put 0 d (put n2 tmp t) in
  let '(d, tmp, neg') := bn_abs_sub_part_words (drop n b) b tnb (Z.of_nat tnb - Z.of_nat n) in
  let t := put n d (put n2 tmp t) in
  (t, Z.lxor neg neg').

(** The arrays [r] and [t], [None] when the fuel runs out; every call halves
    [n2]. *)
Fixpoint bn_mul_recursive (fuel : nat) (r a b : list Z) (n2 : nat) (dna dnb : Z) (t : list Z)
    : option (list Z * list Z) :=
  match fuel with
  | O => None
  | S fuel =>
      if (n2 =? 8)%nat && (dna =? 0) && (dnb =? 0) then
        Some (put 0 (bn_mul_comba8 (sub 0 8 a) (sub 0 8 b)) r, t)
      else if Z.of_nat n2 <? BN_MUL_RECURSIVE_SIZE_NORMAL then
        let r := bn_mul_normal r (take (Z.to_nat (Z.of_nat n2 + dna)) a) (take (Z.to_nat (Z.of_nat n2 + dnb)) b) in
        if dna + dnb <? 0 then
          Some (put (Z.to_nat (2 * Z.of_nat n2 + dna + dnb)) (replicate (Z.to_nat (- (dna + dnb))) 0) r, t)
        else Some (r, t)
      else
        let n := (n2 / 2)%nat in
        let tna := Z.to_nat (Z.of_nat n + dna) in
        let tnb := Z.to_nat (Z.of_nat n + dnb) in
        let '(t, neg) := karatsuba_diffs a b t n n2 tna tnb in
        rt ←
          (if (n =? 4)%nat && (dna =? 0) && (dnb =? 0) then
             let t := put n2 (bn_mul_comba4 (sub 0 4 t) (sub n 4 t)) t in
             let r := put 0 (bn_mul_comba4 (sub 0 4 a) (sub 0 4 b)) r in
             let r := put n2 (bn_mul_comba4 (sub n 4 a) (sub n 4 b)) r in
             Some (r, t)
           else if (n =? 8)%nat && (dna =? 0) && (dnb =? 0) then
             let t := put n2 (bn_mul_comba8 (sub 0 8 t) (sub n 8 t)) t in
             let r := put 0 (bn_mul_comba8 (sub 0 8 a) (sub 0 8 b)) r in
             let r := put n2 (bn_mul_comba8 (sub n 8 a) (sub n 8 b)) r in
             Some (r, t)
           else
             x ← bn_mul_recursive fuel (drop n2 t) (sub 0 n t) (sub n n t) n 0 0 (drop (n2 * 2) t) ;
             let t := put (n2 * 2) x.2 (put n2 (take n2 x.1) t) in
             x ← bn_mul_recursive fuel r a b n 0 0 (drop (n2 * 2) t) ;
             let r := x.1 in
             let t := put (n2 * 2) x.2 t in
             x ← bn_mul_recursive fuel (drop n2 r) (drop n a) (drop n b) n dna dnb (drop (n2 * 2) t) ;
             let r := put n2 x.1 r in
             let t := put (n2 * 2) x.2 t in
             Some (r, t)) ;
        Some (karatsuba_combine rt.1 rt.2 n n2 neg)
  end.

(** [for (;;) { i /= 2; ... }] in [bn_mul_part_recursive]: the first [i] below
    [n] that is smaller than one of the lengths, or equal to one. *)
Fixpoint part_split (fuel : nat) (i tna tnb : nat) : option (nat * bool) :=
  match fuel with
  | O => None
  | S fuel =>
      let i := (i / 2)%nat in
      if (i <? tna)%nat || (i <? tnb)%nat then Some (i, true)
      else if (i =? tna)%nat || (i =? tnb)%nat then Some (i, false)
      else part_split fuel i tna tnb
  end.

(** The [memset] of the first branch takes a number of bytes, not of words:
    it clears the words it covers whole and the lower bytes of the next. *)
Definition memset_bytes (l : list Z) (count : Z) : list Z :=
  let k := Z.to_nat (count / 8) in
  match drop k l with
  | x :: rest => replicate k 0 ++ Z.shiftl (Z.shiftr x (8 * (count mod 8))) (8 * (count mod 8)) :: rest
  | [] => replicate (length l) 0
  end.

Fixpoint bn_mul_part_recursive (fuel : nat) (r a b : list Z) (n tna tnb : nat) (t : list Z)
    : option (list Z * list Z) :=
  match fuel with
  | O => None
  | S fuel =>
      let n2 := (n * 2)%nat in
      if (n <? 8)%nat then
        let r := bn_mul_normal r (take (n + tna) a) (take (n + tnb) b) in
        Some (take (n2 + tna + tnb) r ++ memset_bytes (drop (n2 + tna + tnb) r) (Z.of_nat n2 - Z.of_nat tna - Z.of_nat tnb), t)
      else
        let '(t, neg) := karatsuba_diffs a b t n n2 tna tnb in
        rt ←
          (if (n =? 8)%nat then
             let t := put n2 (bn_mul_comba8 (sub 0 8 t) (sub n 8 t)) t in
             let r := put 0 (bn_mul_comba8 (sub 0 8 a) (sub 0 8 b)) r in
             let r := put n2 (bn_mul_normal (drop n2 r) (sub n tna a) (sub n tnb b)) r in
             let r := put (n2 + tna + tnb) (replicate (n2 - tna - tnb) 0) r in
             Some (r, t)
           else
             x ← bn_mul_recursive fuel (drop n2 t) (sub 0 n t) (sub n n t) n 0 0 (drop (n2 * 2) t) ;
             let t := put (n2 * 2) x.2 (put n2 (take n2 x.1) t) in
             x ← bn_mul_recursive fuel r a b n 0 0 (drop (n2 * 2) t) ;
             let r := x.1 in
             let t := put (n2 * 2) x.2 t in
             let r := put n2 (replicate n2 0) r in
             if (Z.of_nat tna <? BN_MUL_RECURSIVE_SIZE_NORMAL) && (Z.of_nat tnb <? BN_MUL_RECURSIVE_SIZE_NORMAL) then
               Some (put n2 (bn_mul_normal (drop n2 r) (sub n tna a) (sub n tnb b)) r, t)
             else
               '(i, part) ← part_split n n tna tnb ;
               x ←
                 (if (part : bool) then
                    bn_mul_part_recursive fuel (drop n2 r) (drop n a) (drop n b) i (tna - i) (tnb - i) (drop (n2 * 2) t)
                  else
                    bn_mul_recursive fuel (drop n2 r) (drop n a) (drop n b) i
                      (Z.of_nat tna - Z.of_nat i) (Z.of_nat tnb - Z.of_nat i) (drop (n2 * 2) t)) ;
               Some (put n2 x.1 r, put (n2 * 2) x.2 t)) ;
        Some (karatsuba_combine rt.1 rt.2 n n2 neg)
  end.

(** * Squares *)

Fixpoint bn_sqr_recursive (fuel : nat) (r a : list Z) (n2 : nat) (t : list Z) : option (list Z * list Z) :=
  match fuel with
  | O => None
  | S fuel =>
      if (n2 =? 4)%nat then Some (put 0 (bn_sqr_comba4 (sub 0 4 a)) r, t)
      else if (n2 =? 8)%nat then Some (put 0 (bn_sqr_comba8 (sub 0 8 a)) r, t)
      else if Z.of_nat n2 <? BN_SQR_RECURSIVE_SIZE_NORMAL then
        Some (bn_sqr_normal r (take n2 a), put 0 (bn_sqr_words (take n2 a)) t)
      else
        let n := (n2 / 2)%nat in
        let '(d, tmp) := bn_abs_sub_words (sub 0 n a) (sub n n a) in
        let t := put 0 d (put n tmp t) in
        x ← bn_sqr_recursive fuel (drop n2 t) (sub 0 n t) n (drop (n2 * 2) t) ;
        let t := put (n2 * 2) x.2 (put n2 (take n2 x.1) t) in
        x ← bn_sqr_recursive fuel r a n (drop (n2 * 2) t) ;
        let r := x.1 in
        let t := put (n2 * 2) x.2 t in
        x ← bn_sqr_recursive fuel (drop n2 r) (drop n a) n (drop (n2 * 2) t) ;
        let r := put n2 x.1 r in
        let t := put (n2 * 2) x.2 t in
        let '(s, c) := bn_add_words (sub 0 n2 r) (sub n2 n2 r) in
        let t := put 0 s t in
        let '(s, borrow) := bn_sub_words (sub 0 n2 t) (sub n2 n2 t) in
        let t := put n2 s t in
        let c := u64 (c - borrow) in
        Some (add_middle r t n n2 c, t)
  end.

(** * Products and squares of at most nine words

    [None] is [abort()]. *)
Definition BN_SMALL_MAX_WORDS : Z := 9.

Definition bn_mul_small (r a b : list Z) : option (list Z) :=
  if negb (length r =? length a + length b)%nat then None
  else if (length a =? 8)%nat && (length b =? 8)%nat then Some (put 0 (bn_mul_comba8 a b) r)
  else Some (bn_mul_normal r a b).

Definition bn_sqr_small (r a : list Z) : option (list Z) :=
  if negb (length r =? 2 * length a)%nat || (Zlen a >? BN_SMALL_MAX_WORDS) then None
  else if (length a =? 4)%nat then Some (put 0 (bn_sqr_comba4 a) r)
  else if (length a =? 8)%nat then Some (put 0 (bn_sqr_comba8 a) r)
  else Some (bn_sqr_normal r a).
