(* ===== verification/BnMulSpec.v ===== *)
(** The products and squares of [BnMul.v] are those of the values, by the
    schoolbook method, by columns and by Karatsuba's. *)
From S2P Require Import Prelude ConstTime BnWords BnMul.

(** * Regions of an array *)

Lemma length_put off ws l : (off + length ws <= length l)%nat -> length (put off ws l) = length l.
Proof. intros. unfold put. rewrite !length_app, length_take, length_drop. lia. Qed.

Lemma length_sub off n l : (off + n <= length l)%nat -> length (sub off n l) = n.
Proof. intros. unfold sub. rewrite length_take, length_drop. lia. Qed.

Lemma sub_put_same off n ws l : n = length ws -> (off + n <= length l)%nat -> sub off n (put off ws l) = ws.
Proof.
  intros -> Hl. unfold sub, put. rewrite drop_app_ge by (rewrite length_take; lia).
  rewrite length_take, Nat.min_l, Nat.sub_diag by lia. apply take_app_length.
Qed.

Lemma sub_put_left off off' n ws l : (off' + n <= off)%nat -> (off + length ws <= length l)%nat ->
  sub off' n (put off ws l) = sub off' n l.
Proof.
  intros H Hl. unfold sub, put. rewrite drop_app_le by (rewrite length_take; lia).
  rewrite take_app_le by (rewrite length_drop, length_take; lia). by apply take_drop_take.
Qed.

Lemma drop_put_ge off k ws l : (off + length ws <= k)%nat -> (off + length ws <= length l)%nat ->
  drop k (put off ws l) = drop k l.
Proof.
  intros H Hl. unfold put. rewrite app_assoc, drop_app_ge by (rewrite length_app, length_take; lia).
  rewrite length_app, length_take, drop_drop. f_equal. lia.
Qed.

Lemma sub_put_right off off' n ws l : (off + length ws <= off')%nat -> (off + length ws <= length l)%nat ->
  sub off' n (put off ws l) = sub off' n l.
Proof. intros. unfold sub. by rewrite drop_put_ge. Qed.

(** An array by its parts. *)
Lemma put_at off ws l1 l2 l3 : length l1 = off -> length ws = length l2 -> put off ws (l1 ++ l2 ++ l3) = l1 ++ ws ++ l3.
Proof.
  intros <- Hl. unfold put. rewrite take_app_length. do 2 f_equal.
  rewrite app_assoc. rewrite Hl, <- length_app. apply drop_app_length.
Qed.

Lemma put_at0 ws l2 l3 : length ws = length l2 -> put 0 ws (l2 ++ l3) = ws ++ l3.
Proof. exact (put_at 0 ws [] l2 l3 eq_refl). Qed.

Lemma sub_at off n l1 l2 l3 : length l1 = off -> length l2 = n -> sub off n (l1 ++ l2 ++ l3) = l2.
Proof. intros <- <-. unfold sub. by rewrite drop_app_length, take_app_length. Qed.

Lemma words_ok_sub off n l : words_ok l -> words_ok (sub off n l).
Proof. intros. unfold sub. auto with words. Qed.
#[export] Hint Resolve words_ok_sub : words.

(** The array up to a length, and the rest. *)
Lemma split_at n (l : list Z) : (n <= length l)%nat -> exists l1 l2, l = l1 ++ l2 /\ length l1 = n.
Proof. intros. exists (take n l), (drop n l). by rewrite take_drop, length_take, Nat.min_l. Qed.

(** * Schoolbook products *)

Lemma mul_row_spec a q x r k b : length q = (length a + k)%nat -> words_ok a -> words_ok q -> word b ->
  exists q', mul_row a (q ++ x :: r) k b = q' ++ r /\ length q' = S (length q) /\ words_ok q' /\
    wval q' = wval q + wbase k * (wval a * b).
Proof.
  intros Hq Ha Hok Hb. destruct (split_at k q ltac:(lia)) as (q0 & q1 & -> & Hk).
  rewrite length_app in Hq. simp_words. unfold mul_row. rewrite <- app_assoc, (sub_at k (length a) q0 q1) by lia.
  pose proof (bn_mul_add_words_spec q1 a b ltac:(lia) ltac:(done) Ha Hb) as Hs.
  destruct (bn_mul_add_words q1 a b) as [s c]. destruct Hs as (Hl & Hs & Hc & Hv).
  exists (q0 ++ s ++ [c]). rewrite put_at by lia. rewrite app_assoc. change (x :: r) with ([x] ++ r).
  rewrite put_at by (rewrite ?length_app; done || lia). rewrite <- !app_assoc. split_and!; [done| |solve_words|].
  - rewrite !length_app. simpl. lia.
  - rewrite !wval_app, wval_cons, wval_nil, Hk, Hl. lia.
Qed.

(** The rows one after the other. *)
Fixpoint mul_rows (a r : list Z) (k : nat) (b : list Z) : list Z :=
  match b with
  | [] => r
  | x :: b => mul_rows a (mul_row a r k x) (S k) b
  end.

Lemma mul_normal_loop_rows a r off b : mul_normal_loop a r off b = mul_rows a r (S off) b.
Proof.
  revert r off. induction b as [b IH] using (induction_ltof1 _ (@length Z)). intros r off.
  assert (off + 1 = S off /\ off + 2 = S (S off) /\ off + 3 = S (S (S off)) /\ off + 4 = S (S (S (S off))))%nat
    as (E1 & E2 & E3 & E4) by lia.
  destruct b as [|b1 [|b2 [|b3 [|b4 b]]]]; cbn [mul_normal_loop mul_rows]; rewrite ?E1, ?E2, ?E3, ?E4; [done..|].
  apply IH. unfold ltof. simpl. lia.
Qed.

Lemma mul_rows_spec a q r k b : length q = (length a + k)%nat -> words_ok a -> words_ok q -> words_ok b ->
  (length b <= length r)%nat ->
  exists q', mul_rows a (q ++ r) k b = q' ++ drop (length b) r /\ length q' = (length q + length b)%nat /\
    words_ok q' /\ wval q' = wval q + wbase k * (wval a * wval b).
Proof.
  revert q r k. induction b as [|x b IH]; intros q r k Hq Ha Hok Hb Hl.
  { exists q. cbn [mul_rows length]. split_and!; [done|lia|done|simpl; lia]. }
  destruct r as [|y r]; [simpl in Hl; lia|]. simp_words. cbn [mul_rows length drop] in *.
  destruct (mul_row_spec a q y r k x) as (q1 & -> & Hl1 & Hok1 & Hv1); [done..|].
  destruct (IH q1 r (S k)) as (q2 & -> & Hl2 & Hok2 & Hv2); [lia|done..|lia|].
  exists q2. split_and!; [done|lia|done|]. rewrite Hv2, Hv1, wval_cons, wbase_S. ring.
Qed.

(** [bn_mul_normal] writes the product in the first words of the array. *)
Lemma bn_mul_normal_spec r a b : words_ok a -> words_ok b -> (length a + length b <= length r)%nat ->
  exists p, bn_mul_normal r a b = p ++ drop (length a + length b) r /\
    length p = (length a + length b)%nat /\ words_ok p /\ wval p = wval a * wval b.
Proof.
  intros Ha Hb Hr. unfold bn_mul_normal.
  assert (forall a b, words_ok a -> words_ok b -> (length a + length b <= length r)%nat -> (length b <= length a)%nat ->
    exists p, match b with
      | [] => put 0 (replicate (length a) 0) r
      | b0 :: b' => let '(s, c) := bn_mul_words a b0 in mul_normal_loop a (put (length a) [c] (put 0 s r)) 0 b'
      end = p ++ drop (length a + length b) r /\
      length p = (length a + length b)%nat /\ words_ok p /\ wval p = wval a * wval b) as Hgen.
  { clear a b Ha Hb Hr. intros a b Ha Hb Hr Hlt. destruct b as [|b0 b].
    - exists (replicate (length a) 0). unfold put. rewrite length_replicate, wval_replicate_0. cbn [length take app].
      rewrite Nat.add_0_r, Nat.add_0_l. split_and!; [done..|auto with words|simpl; lia].
    - simp_words. cbn [length] in *. pose proof (bn_mul_words_spec a b0 Ha ltac:(done)) as Hs.
      destruct (bn_mul_words a b0) as [s c]. destruct Hs as (Hl & Hs & Hc & Hv).
      destruct (split_at (length a) r ltac:(lia)) as (r0 & r1 & -> & Hr0). rewrite length_app in Hr.
      destruct r1 as [|x r1]; [simpl in Hr; lia|]. cbn [length] in Hr.
      rewrite put_at0 by lia.
      change (x :: r1) with ([x] ++ r1). rewrite put_at by (done || lia). rewrite app_assoc.
      rewrite mul_normal_loop_rows.
      destruct (mul_rows_spec a (s ++ [c]) r1 1 b) as (p & -> & Hlp & Hp & Hvp);
        [rewrite length_app; simpl; lia|done|solve_words|done|lia|].
      exists p. rewrite length_app in Hlp. simpl in Hlp. split_and!; [|lia|done|].
      + f_equal. rewrite app_assoc. replace (length a + S (length b))%nat with (length (r0 ++ [x]) + length b)%nat
          by (rewrite length_app; simpl; lia). by rewrite drop_app_add.
      + rewrite Hvp, wval_app, wval_cons, wval_nil, wval_cons, Hl, wbase_1. lia. }
  destruct (Nat.ltb_spec (length a) (length b)).
  - rewrite (Nat.add_comm (length a)), (Z.mul_comm (wval a)). apply Hgen; auto; lia.
  - apply Hgen; auto.
Qed.

(** * Schoolbook squares *)

(** The sum of [a[i] a[j] 2^(64 (i + j - 1))] over [i < j]. *)
Fixpoint cross (a : list Z) : Z :=
  match a with
  | x :: a => x * wval a + 2 ^ 128 * cross a
  | [] => 0
  end.

Lemma sqr_cross a : wval a * wval a = sqr_sum a + 2 * (2 ^ 64 * cross a).
Proof. induction a as [|x a IH]; [done|]. cbn [wval sqr_sum cross]. nia. Qed.

(** What a row leaves is two words and the start of the next. *)
Lemma row_split (s : list Z) c y (l : list Z) : length s = length (y :: l) ->
  exists s0 s1 q, s ++ [c] = s0 :: s1 :: q /\ length q = length l.
Proof.
  destruct s as [|s0 [|s1 s]]; intros Hs; [done| |].
  - exists s0, c, []. simpl in *. split; [done|lia].
  - exists s0, s1, (s ++ [c]). rewrite length_app. simpl in *. split; [done|lia].
Qed.

(** From [q ++ r] on, where [q] has a word less than [ap]. *)
Lemma sqr_rows_spec ap q r : S (length q) = length ap -> words_ok ap -> words_ok q -> (length q <= length r)%nat ->
  exists q', sqr_rows (q ++ r) ap = q' ++ drop (length q) r /\ length q' = (2 * length q)%nat /\ words_ok q' /\
    wval q' = wval q + cross ap.
Proof.
  revert q r. induction ap as [|x ap IH]; intros q r Hl Ha Hq Hr; [done|]. simp_words. cbn [length] in Hl.
  destruct ap as [|y ap].
  { destruct q; [|done]. exists []. cbn. split_and!; [by destruct r|done..|]. lia. }
  set (l := y :: ap) in *. assert (length q = length l) as Hlq by lia.
  destruct r as [|z r]; [unfold l in Hlq; simpl in Hlq, Hr; lia|].
  change (sqr_rows (q ++ z :: r) (x :: l)) with
    (let '(s, c) := bn_mul_add_words (take (length l) (q ++ z :: r)) l x in
     let rp := put (length l) [c] (put 0 s (q ++ z :: r)) in take 2 rp ++ sqr_rows (drop 2 rp) l).
  assert (take (length l) (q ++ z :: r) = q) as -> by (rewrite <- Hlq; apply take_app_length).
  pose proof (bn_mul_add_words_spec q l x Hlq Hq ltac:(done) ltac:(done)) as Hs.
  destruct (bn_mul_add_words q l x) as [s c]. destruct Hs as (Hs & Hsw & Hc & Hv). cbv zeta.
  rewrite put_at0 by lia. change (z :: r) with ([z] ++ r). rewrite put_at by (done || lia).
  destruct (row_split s c y ap Hs) as (s0 & s1 & q2 & Eq & Hq2).
  assert (words_ok (s ++ [c])) as Hw by solve_words. rewrite app_assoc, Eq in *. cbn [app take drop]. rewrite take_0, drop_0. simp_words. cbn [app].
  destruct (IH q2 r) as (q' & -> & Hl' & Hq' & Hv'); [unfold l; simpl; lia|done..|unfold l in *; simpl in *; lia|].
  exists (s0 :: s1 :: q'). split_and!.
  - rewrite Hlq, Hq2. done.
  - unfold l in *. simpl in *. lia.
  - solve_words.
  - assert (wval (s ++ [c]) = wval q + x * wval l) as Hsc by (rewrite wval_app, wval_cons, wval_nil, Hs; lia).
    rewrite Eq, !wval_cons in Hsc. cbn [cross]. fold (cross l). rewrite !wval_cons, Hv'. lia.
Qed.

(** All the rows, from the second word of the array on: [m] has room for them. *)
Definition sqr_all_rows (rp a : list Z) : list Z :=
  match a with
  | x :: (_ :: _) as ap =>
      let '(s, c) := bn_mul_words ap x in
      let rp := put (length a - 1) [c] (put 0 s rp) in
      take 2 rp ++ sqr_rows (drop 2 rp) ap
  | _ => rp
  end.

Lemma sqr_all_rows_spec a m r : length m = (2 * (length a - 1))%nat -> (0 < length a)%nat -> words_ok a ->
  exists q, sqr_all_rows (m ++ r) a = q ++ r /\ length q = length m /\ words_ok q /\ wval q = cross a.
Proof.
  intros Hm Hpos Ha. destruct a as [|x [|y l]]; [simpl in Hpos; lia|destruct m; [exists []; cbn; rewrite Z.mul_0_r; auto with words|done]|].
  unfold sqr_all_rows. simp_words. cbn [length] in *. replace (S (S (length l)) - 1)%nat with (length (y :: l)) in * by (simpl; lia).
  pose proof (bn_mul_words_spec (y :: l) x ltac:(solve_words) ltac:(done)) as Hs. destruct (bn_mul_words (y :: l) x) as [s c].
  destruct Hs as (Hs & Hsw & Hc & Hv).
  destruct (split_at (length (y :: l)) m ltac:(lia)) as (m0 & m1 & -> & Hm0). rewrite length_app in Hm.
  destruct m1 as [|w1 m1]; [simpl in Hm, Hm0; lia|].
  rewrite <- app_assoc, put_at0 by lia. change ((w1 :: m1) ++ r) with ([w1] ++ (m1 ++ r)).
  rewrite put_at by (done || lia). destruct (row_split s c y l Hs) as (s0 & s1 & q2 & Eq & Hq2).
  assert (words_ok (s ++ [c])) as Hw by solve_words. rewrite app_assoc, Eq in *. cbn [app take drop]. rewrite take_0, drop_0. simp_words. cbn [app].
  cbn [length] in *.
  destruct (sqr_rows_spec (y :: l) q2 (m1 ++ r)) as (q' & -> & Hl' & Hq' & Hv');
    [simpl; lia|solve_words|done|rewrite length_app; lia|].
  exists (s0 :: s1 :: q'). split_and!.
  - rewrite drop_app_le, drop_ge by lia. done.
  - rewrite length_app. cbn [length]. lia.
  - solve_words.
  - assert (wval (s ++ [c]) = x * wval (y :: l)) as Hsc by (rewrite wval_app, wval_cons, wval_nil, Hs; simpl length; lia).
    rewrite Eq in Hsc. rewrite !wval_cons in *. cbn [cross]. rewrite wval_cons, Hv'. cbn [cross]. lia.
Qed.

(** Twice the products of different words, and the squares, do not overflow. *)
Lemma sqr_sum_spec a h : words_ok a -> words_ok h -> length h = (2 * length a)%nat -> wval h = 2 ^ 64 * cross a ->
  let s := fst (bn_add_words h h) in
  let s2 := fst (bn_add_words s (bn_sqr_words a)) in
  length s = length h /\ length s2 = length h /\ words_ok s2 /\ wval s2 = wval a * wval a.
Proof.
  intros Ha Hwh Hh Hvh. cbv zeta.
  pose proof (sqr_cross a) as Hsq. pose proof (bn_sqr_words_spec a Ha) as (Hl2 & Hw2 & Hv2).
  pose proof (wval_nonneg _ Hw2). pose proof (wval_bound h Hwh). pose proof (wval_lt_square a a Ha Ha) as Hlt.
  replace (length a + length a)%nat with (length h) in Hlt by lia.
  pose proof (bn_add_words_spec h h eq_refl Hwh Hwh) as Hs. destruct (bn_add_words h h) as [s c].
  destruct Hs as (Hls & Hws & Hc & Hvs). pose proof (wval_bound s Hws) as Hbs. cbn [fst].
  pose proof (bn_add_words_spec s (bn_sqr_words a) ltac:(lia) Hws Hw2) as Hs. destruct (bn_add_words s _) as [s2 c2].
  destruct Hs as (Hls2 & Hws2 & Hc2 & Hvs2). pose proof (wval_bound s2 Hws2) as Hbs2. cbn [fst]. rewrite Hls2, Hls in *.
  set (B := wbase (length h)) in *. clearbody B. unfold bit in *.
  assert (c = 0) as -> by nia. assert (c2 = 0) as -> by nia. split_and!; [done..|lia].
Qed.

(** [bn_sqr_normal] writes the square in the first words of the array. *)
Lemma bn_sqr_normal_spec r a : words_ok a -> (2 * length a <= length r)%nat ->
  exists p, bn_sqr_normal r a = p ++ drop (2 * length a) r /\
    length p = (2 * length a)%nat /\ words_ok p /\ wval p = wval a * wval a.
Proof.
  intros Ha Hr. unfold bn_sqr_normal. destruct (Nat.eqb_spec (length a) 0) as [Hz|Hz].
  { destruct a; [|done]. by exists []. }
  destruct (split_at (2 * length a) r Hr) as (r1 & rest & -> & Hr1).
  destruct r1 as [|z r1]; [simpl in Hr1; lia|].
  destruct (split_at (length r1 - 1) r1 ltac:(lia)) as (m & w & -> & Hm).
  destruct w as [|w [|]]; cbn [length] in Hr1; rewrite length_app in *; simpl in Hr1, Hm; [lia| |lia].
  replace ((z :: m ++ [w]) ++ rest) with ((z :: m) ++ [w] ++ rest) by (simpl; by rewrite <- app_assoc).
  rewrite put_at by (simpl; done || lia). change ((z :: m) ++ [0] ++ rest) with ([z] ++ (m ++ [0] ++ rest)).
  rewrite put_at0 by done. cbn [app drop take]. rewrite ?take_0, drop_0. cbn [app].
  destruct (sqr_all_rows_spec a m (0 :: rest)) as (q & Hrows & Hlq & Hq & Hvq); [lia..|done|].
  unfold sqr_all_rows in Hrows. rewrite Hrows. clear Hrows.
  set (h := 0 :: q ++ [0]). assert (length h = (length a * 2)%nat) as Hh by (unfold h; simpl; rewrite length_app; simpl; lia).
  replace (0 :: q ++ 0 :: rest) with (h ++ rest) by (unfold h; simpl; by rewrite <- app_assoc).
  destruct (sqr_sum_spec a h) as (Hls & Hls2 & Hws2 & Hv2); [done|unfold h; solve_words|lia| |].
  { unfold h. rewrite wval_cons, wval_app, wval_cons, wval_nil, Hvq. lia. }
  rewrite <- Hh, take_app_length. destruct (bn_add_words h h) as [s c]. cbn [fst] in *.
  rewrite put_at0 by done. rewrite <- Hls, take_app_length. destruct (bn_add_words s _) as [s2 c2]. cbn [fst] in *.
  rewrite put_at0 by lia. exists s2. split_and!; [|lia|done..].
  f_equal. replace (2 * length a)%nat with (length ((z :: m) ++ [w])) by (rewrite length_app; simpl; lia).
  change (z :: m ++ w :: rest) with ((z :: m) ++ [w] ++ rest). rewrite app_assoc. symmetry. apply drop_app_length.
Qed.

(** * Differences *)

Lemma while1_app step xs xs' ys ys' c : length xs = length ys ->
  while1 step (xs ++ xs') (ys ++ ys') c =
  (let '(r, c) := while1 step xs ys c in let '(r', c) := while1 step xs' ys' c in (r ++ r', c)).
Proof.
  revert ys c. induction xs as [|x xs IH]; intros [|y ys] c Hl; try done.
  - cbn [app while1]. by destruct (while1 step xs' ys' c).
  - cbn [app while1]. destruct (step x y c) as [r c1]. rewrite IH by (simpl in Hl; lia).
    destruct (while1 step xs ys c1) as [rs c2]. by destruct (while1 step xs' ys' c2).
Qed.

(** The subtraction of arrays of different lengths is that of the arrays padded
    with zeros. *)
Definition pad (n : nat) (l : list Z) : list Z := l ++ replicate (n - length l) 0.

Lemma length_pad n l : (length l <= n)%nat -> length (pad n l) = n.
Proof. intros. unfold pad. rewrite length_app, length_replicate. lia. Qed.
Lemma wval_pad n l : wval (pad n l) = wval l.
Proof. unfold pad. rewrite wval_app, wval_replicate_0. lia. Qed.
Lemma words_ok_pad n l : words_ok l -> words_ok (pad n l).
Proof. intros. unfold pad. solve_words. Qed.
#[export] Hint Resolve words_ok_pad : words.

Lemma bn_sub_part_words_pad a b (cl : nat) dl : 
  let na := (cl + Z.to_nat dl)%nat in let nb := (cl + Z.to_nat (- dl))%nat in
  let n := (cl + Z.to_nat (Z.abs dl))%nat in
  (na <= length a)%nat -> (nb <= length b)%nat ->
  bn_sub_part_words a b cl dl = bn_sub_words (pad n (take na a)) (pad n (take nb b)).
Proof.
  intros na nb n Ha Hb. unfold bn_sub_part_words, bn_sub_words. rewrite !while4_while1.
  assert (length (take cl a) = length (take cl b)) as Hl by (rewrite !length_take; unfold na, nb in *; lia).
  unfold pad. rewrite !length_take, !Nat.min_l by done.
  destruct (Z.eqb_spec dl 0) as [->|Hnz].
  { unfold na, nb, n. simpl Z.to_nat. rewrite !Nat.add_0_r, Nat.sub_diag. cbn [replicate]. rewrite !app_nil_r.
    by destruct (while1 _ _ _ _). }
  assert (take na a = take cl a ++ take (na - cl) (drop cl a)) as ->.
  { rewrite take_take_drop. f_equal. unfold na. lia. }
  assert (take nb b = take cl b ++ take (nb - cl) (drop cl b)) as ->.
  { rewrite take_take_drop. f_equal. unfold nb. lia. }
  rewrite <- !app_assoc, while1_app by done. destruct (while1 _ (take cl a) _ _) as [r c].
  destruct (Z.ltb_spec dl 0).
  - replace (na - cl)%nat with 0%nat by (unfold na; lia). replace (n - nb)%nat with 0%nat by (unfold n, nb; lia).
    replace (n - na)%nat with (Z.to_nat (- dl)) by (unfold n, na; lia).
    replace (nb - cl)%nat with (Z.to_nat (- dl)) by (unfold nb; lia). by rewrite take_0, app_nil_r.
  - replace (nb - cl)%nat with 0%nat by (unfold nb; lia). replace (n - na)%nat with 0%nat by (unfold n, na; lia).
    replace (n - nb)%nat with (Z.to_nat dl) by (unfold n, nb; lia).
    replace (na - cl)%nat with (Z.to_nat dl) by (unfold na; lia). by rewrite take_0, app_nil_r.
Qed.

(** The absolute difference and its sign. *)
Lemma abs_sub_value a b : length a = length b -> words_ok a -> words_ok b ->
  let '(tmp, borrow) := bn_sub_words a b in
  let r := fst (bn_sub_words b a) in
  let d := bn_select_words (u64 (0 - borrow)) r tmp in
  u64 (0 - borrow) = mask_of (wval a <? wval b) /\ length d = length a /\ words_ok d /\ length tmp = length a /\
  wval d = Z.abs (wval a - wval b).
Proof.
  intros Hl Ha Hb. pose proof (bn_sub_words_spec a b Hl Ha Hb) as Hs. destruct (bn_sub_words a b) as [tmp borrow].
  destruct Hs as (Hlt & Ht & Hc & Hv). pose proof (bn_sub_words_spec b a ltac:(done) Hb Ha) as Hs.
  destruct (bn_sub_words b a) as [r c]. destruct Hs as (Hlr & Hr & Hc2 & Hv2). cbn [fst].
  rewrite mask_of_bit, bn_select_words_spec by (done || lia).
  pose proof (wval_bound tmp Ht). pose proof (wval_bound r Hr). pose proof (wval_bound a Ha). pose proof (wval_bound b Hb).
  rewrite Hlt, Hlr, <- Hl in *. set (B := wbase (length a)) in *. clearbody B. unfold bit in *.
  destruct (Z.ltb_spec (wval a) (wval b)).
  - assert (borrow = 1) as -> by nia. assert (c = 0) as -> by nia. cbn [Z.eqb Pos.eqb]. split_and!; [done..|lia].
  - assert (borrow = 0) as -> by nia. cbn [Z.eqb]. split_and!; [done..|lia].
Qed.

Lemma bn_abs_sub_part_words_spec a b (cl : nat) dl :
  let na := (cl + Z.to_nat dl)%nat in let nb := (cl + Z.to_nat (- dl))%nat in
  let n := (cl + Z.to_nat (Z.abs dl))%nat in
  (na <= length a)%nat -> (nb <= length b)%nat -> words_ok a -> words_ok b ->
  let '(d, tmp, mask) := bn_abs_sub_part_words a b cl dl in
  let va := wval (take na a) in let vb := wval (take nb b) in
  mask = mask_of (va <? vb) /\ length d = n /\ words_ok d /\ length tmp = n /\ wval d = Z.abs (va - vb).
Proof.
  cbv zeta. intros Ha Hb Hwa Hwb. unfold bn_abs_sub_part_words. rewrite bn_sub_part_words_pad by done.
  rewrite (bn_sub_part_words_pad b a cl (- dl)) by (rewrite ?Z.opp_involutive; done). rewrite Z.opp_involutive, Z.abs_opp.
  set (na := (cl + Z.to_nat dl)%nat) in *. set (nb := (cl + Z.to_nat (- dl))%nat) in *.
  set (n := (cl + Z.to_nat (Z.abs dl))%nat) in *.
  assert (length (pad n (take na a)) = n) as Hla by (apply length_pad; rewrite length_take; unfold n, na; lia).
  assert (length (pad n (take nb b)) = n) as Hlb by (apply length_pad; rewrite length_take; unfold n, nb; lia).
  pose proof (abs_sub_value (pad n (take na a)) (pad n (take nb b)) ltac:(lia) ltac:(auto with words) ltac:(auto with words)) as Hs.
  destruct (bn_sub_words (pad n (take na a)) _) as [tmp borrow]. destruct (bn_sub_words (pad n (take nb b)) _) as [r c].
  cbn [fst] in Hs. rewrite !wval_pad, Hla in Hs. done.
Qed.

(** * Karatsuba *)

Lemma propagate_carry_spec r c : words_ok r -> word c ->
  let '(r', c') := propagate_carry r c in
  length r' = length r /\ words_ok r' /\ word c' /\ wval r' + wbase (length r) * c' = wval r + c.
Proof.
  revert c. induction r as [|x r IH]; intros c Hr Hc.
  { cbn. split_and!; auto with words. change (wbase 0) with 1. lia. }
  simp_words. cbn [propagate_carry]. destruct (add_carry c x) as [Hw Hv]; [done..|]. rewrite (Z.add_comm x c).
  assert (word (Z.b2z (u64 (c + x) <? x))) as Hb by (destruct (_ <? _); unfold word; simpl; lia).
  specialize (IH (Z.b2z (u64 (c + x) <? x)) ltac:(done) Hb). destruct (propagate_carry r _) as [r' c'].
  destruct IH as (Hl & Hr' & Hc' & Hv'). cbn [length]. rewrite wbase_S, !wval_cons.
  split_and!; [lia|solve_words|done|lia].
Qed.

(** Lengths of arrays that have been written. *)
Ltac arr := repeat rewrite length_put; rewrite ?length_app; lia.

(** The middle product [m = wval mid + wbase n2 cm] is added at [n]. *)
Lemma add_middle_spec (r0 r1 r2 r3 rest t : list Z) n n2 cm :
  n2 = (2 * n)%nat -> length r0 = n -> length r1 = n -> length r2 = n -> length r3 = n -> (2 * n2 <= length t)%nat ->
  words_ok r0 -> words_ok r1 -> words_ok r2 -> words_ok r3 -> words_ok (sub n2 n2 t) -> bit cm ->
  let v := wval (r0 ++ r1) + wbase n * (wval (sub n2 n2 t) + wbase n2 * cm) + wbase n2 * wval (r2 ++ r3) in
  v < wbase (2 * n2) ->
  exists p, add_middle (r0 ++ r1 ++ r2 ++ r3 ++ rest) t n n2 cm = p ++ rest /\
    length p = (2 * n2)%nat /\ words_ok p /\ wval p = v.
Proof.
  intros Hn2 H0 H1 H2 H3 Ht Hw0 Hw1 Hw2 Hw3 Hwt Hcm v Hlt. unfold add_middle.
  assert (length (sub n2 n2 t) = n2) as Hlm by (apply length_sub; lia).
  set (mid := sub n2 n2 t) in *. clearbody mid.
  assert (sub n n2 (r0 ++ r1 ++ r2 ++ r3 ++ rest) = r1 ++ r2) as ->.
  { rewrite (app_assoc r1). apply sub_at; rewrite ?length_app; lia. }
  pose proof (bn_add_words_spec (r1 ++ r2) mid ltac:(rewrite length_app; lia) ltac:(solve_words) Hwt) as Hx.
  destruct (bn_add_words (r1 ++ r2) mid) as [s4 c4]. destruct Hx as (Hls4 & Hs4 & Hc4 & Hvs4). rewrite length_app in Hls4.
  replace (r0 ++ r1 ++ r2 ++ r3 ++ rest) with (r0 ++ (r1 ++ r2) ++ r3 ++ rest) by (by rewrite <- !app_assoc).
  rewrite put_at by (rewrite ?length_app; lia). rewrite (app_assoc r0 s4).
  rewrite (sub_at (n + n2) (n2 - n) (r0 ++ s4) r3 rest) by (rewrite ?length_app; lia).
  unfold bit in *. rewrite (u64_of_word (cm + c4)) by (unfold word; lia).
  pose proof (propagate_carry_spec r3 (cm + c4) ltac:(done) ltac:(unfold word; lia)) as Hx.
  destruct (propagate_carry r3 _) as [s5 c5]. destruct Hx as (Hls5 & Hs5 & Hc5 & Hvs5).
  rewrite put_at by (rewrite ?length_app; lia). exists ((r0 ++ s4) ++ s5). split_and!.
  - by rewrite <- !app_assoc.
  - rewrite !length_app. lia.
  - solve_words.
  - assert (words_ok ((r0 ++ s4) ++ s5)) as Hwp by solve_words. pose proof (wval_nonneg _ Hwp) as Hnn.
    unfold v in *. rewrite !wval_app, !length_app, ?wval_app in *. rewrite Hls4, H0, H1, H2, H3 in *.
    replace (n + n)%nat with n2 in * by lia. replace (2 * n2)%nat with (n + n2 + n)%nat in Hlt by lia.
    rewrite !wbase_add in *. assert (wbase n2 = wbase n * wbase n) as E by (rewrite Hn2, <- wbase_add; f_equal; lia).
    rewrite E in *. pose proof (wbase_pos n). set (X := wbase n) in *. clearbody X. unfold word in Hc5.
    assert (c5 = 0) as -> by nia. nia.
Qed.

(** The products are put together: [m] is the middle one. *)
Lemma karatsuba_combine_spec (r0 r1 r2 r3 rest t : list Z) n n2 (neg : bool) :
  n2 = (2 * n)%nat -> length r0 = n -> length r1 = n -> length r2 = n -> length r3 = n -> (3 * n2 <= length t)%nat ->
  words_ok r0 -> words_ok r1 -> words_ok r2 -> words_ok r3 -> words_ok (sub n2 n2 t) ->
  let lo := wval (r0 ++ r1) in let hi := wval (r2 ++ r3) in
  let v := wval (sub n2 n2 t) in
  let m := lo + hi + (if neg then - v else v) in
  0 <= m < 2 * wbase n2 -> lo + wbase n * m + wbase n2 * hi < wbase (2 * n2) ->
  exists p t', karatsuba_combine (r0 ++ r1 ++ r2 ++ r3 ++ rest) t n n2 (mask_of neg) = (p ++ rest, t') /\
    length p = (2 * n2)%nat /\ words_ok p /\ wval p = lo + wbase n * m + wbase n2 * hi /\ length t' = length t.
Proof.
  intros Hn2 H0 H1 H2 H3 Ht Hw0 Hw1 Hw2 Hw3 Hwt lo hi v m Hm Hlt. unfold karatsuba_combine.
  assert (sub 0 n2 (r0 ++ r1 ++ r2 ++ r3 ++ rest) = r0 ++ r1) as ->.
  { rewrite (app_assoc r0). apply (sub_at 0 n2 []); rewrite ?length_app; done || lia. }
  assert (sub n2 n2 (r0 ++ r1 ++ r2 ++ r3 ++ rest) = r2 ++ r3) as ->.
  { rewrite (app_assoc r0), (app_assoc r2). apply sub_at; rewrite length_app; lia. }
  assert (length (sub n2 n2 t) = n2) as Hl1 by (apply length_sub; lia).
  pose proof (bn_add_words_spec (r0 ++ r1) (r2 ++ r3) ltac:(rewrite !length_app; lia) ltac:(solve_words) ltac:(solve_words)) as Hs.
  destruct (bn_add_words (r0 ++ r1) (r2 ++ r3)) as [s c]. destruct Hs as (Hls & Hs & Hc & Hvs). fold lo hi in Hvs.
  rewrite length_app in Hls, Hvs. replace (length r0 + length r1)%nat with n2 in * by lia.
  rewrite sub_put_same, sub_put_right by lia.
  pose proof (bn_sub_words_spec s (sub n2 n2 t) ltac:(lia) Hs Hwt) as Hx. destruct (bn_sub_words s _) as [s2 borrow].
  destruct Hx as (Hls2 & Hs2 & Hb2 & Hvs2). fold v in Hvs2.
  rewrite (sub_put_left (n2 * 2) 0), sub_put_same by arr.
  rewrite (sub_put_left (n2 * 2) n2), sub_put_right by arr.
  pose proof (bn_add_words_spec s (sub n2 n2 t) ltac:(lia) Hs Hwt) as Hx. destruct (bn_add_words s _) as [s3 carry].
  destruct Hx as (Hls3 & Hs3 & Hb3 & Hvs3). fold v in Hvs3. rewrite Hls in *.
  rewrite (sub_put_right n2 (n2 * 2)), (sub_put_same (n2 * 2) n2 s2) by arr.
  rewrite (sub_put_same n2 n2 s3) by arr. rewrite bn_select_words_spec by (done || lia).
  assert (length (if neg then s2 else s3) = n2 /\ words_ok (if neg then s2 else s3)) as [Hlm Hwm] by (by destruct neg).
  assert (exists cm, bit cm /\ wval (if neg then s2 else s3) + wbase n2 * cm = m /\
    constant_time_select_w (mask_of neg) (u64 (c - borrow)) (u64 (c + carry)) = cm) as (cm & Hcm & Hvm & ->).
  { rewrite select_w by apply u64_word. pose proof (wval_bound _ Hwm) as Hb. rewrite Hlm in Hb.
    unfold bit in *. set (B := wbase n2) in *. clearbody B. unfold m in *. destruct neg.
    - exists (c - borrow). assert (0 <= c - borrow) by nia. split_and!; [lia..|nia|]. apply u64_of_word. unfold word. lia.
    - exists (c + carry). assert (c + carry <= 1) by nia. split_and!; [lia..|nia|]. apply u64_of_word. unfold word. lia. }
  set (mid := if neg then s2 else s3) in *. clearbody mid. set (t2 := put n2 mid _).
  assert (length t2 = length t) as Hlt2 by (unfold t2; arr).
  assert (sub n2 n2 t2 = mid) as Hmid by (unfold t2; apply sub_put_same; arr). clearbody t2.
  destruct (add_middle_spec r0 r1 r2 r3 rest t2 n n2 cm) as (p & -> & Hp & Hwp & Hvp); [done..|lia|done|done|done|done|by rewrite Hmid|done| |].
  { rewrite Hmid, Hvm. done. }
  rewrite Hmid, Hvm in Hvp. exists p, t2. done.
Qed.

Lemma lxor_mask x y : Z.lxor (mask_of x) (mask_of y) = mask_of (xorb x y).
Proof. by destruct x, y. Qed.

Lemma karatsuba_diffs_spec a b t n n2 tna tnb : n2 = (2 * n)%nat -> (tna <= n)%nat -> (tnb <= n)%nat ->
  (n + tna <= length a)%nat -> (n + tnb <= length b)%nat -> (2 * n2 <= length t)%nat -> words_ok a -> words_ok b ->
  let a0 := wval (take n a) in let a1 := wval (sub n tna a) in
  let b0 := wval (take n b) in let b1 := wval (sub n tnb b) in
  let '(t', neg) := karatsuba_diffs a b t n n2 tna tnb in
  neg = mask_of (xorb (a0 <? a1) (b1 <? b0)) /\ length t' = length t /\
  words_ok (sub 0 n t') /\ words_ok (sub n n t') /\
  wval (sub 0 n t') = Z.abs (a0 - a1) /\ wval (sub n n t') = Z.abs (b1 - b0).
Proof.
  cbv zeta. intros Hn2 Hna Hnb Ha Hb Ht Hwa Hwb. unfold karatsuba_diffs.
  pose proof (bn_abs_sub_part_words_spec a (drop n a) tna (Z.of_nat n - Z.of_nat tna)) as Hs. cbv zeta in Hs.
  replace (tna + Z.to_nat (Z.of_nat n - Z.of_nat tna))%nat with n in Hs by lia.
  replace (tna + Z.to_nat (- (Z.of_nat n - Z.of_nat tna)))%nat with tna in Hs by lia.
  replace (tna + Z.to_nat (Z.abs (Z.of_nat n - Z.of_nat tna)))%nat with n in Hs by lia.
  specialize (Hs ltac:(lia) ltac:(rewrite length_drop; lia) Hwa ltac:(auto with words)).
  destruct (bn_abs_sub_part_words a _ _ _) as [[d tmp] m]. destruct Hs as (-> & Hd & Hwd & Htmp & Hvd).
  pose proof (bn_abs_sub_part_words_spec (drop n b) b tnb (Z.of_nat tnb - Z.of_nat n)) as Hs. cbv zeta in Hs.
  replace (tnb + Z.to_nat (Z.of_nat tnb - Z.of_nat n))%nat with tnb in Hs by lia.
  replace (tnb + Z.to_nat (- (Z.of_nat tnb - Z.of_nat n)))%nat with n in Hs by lia.
  replace (tnb + Z.to_nat (Z.abs (Z.of_nat tnb - Z.of_nat n)))%nat with n in Hs by lia.
  specialize (Hs ltac:(rewrite length_drop; lia) ltac:(lia) ltac:(auto with words) Hwb).
  destruct (bn_abs_sub_part_words (drop n b) _ _ _) as [[d2 tmp2] m2]. destruct Hs as (-> & Hd2 & Hwd2 & Htmp2 & Hvd2).
  rewrite lxor_mask, (sub_put_same n n d2), (sub_put_left n 0), (sub_put_left n2 0), (sub_put_same 0 n d) by arr.
  split_and!; [done|arr|done..].
Qed.

Lemma wval_two_parts n k a : (n + k <= length a)%nat -> wval (take (n + k) a) = wval (take n a) + wbase n * wval (sub n k a).
Proof.
  intros Hl. unfold sub. rewrite <- take_take_drop, wval_app, length_take, Nat.min_l by lia. done.
Qed.

Lemma wval_take_bound n a : words_ok a -> (n <= length a)%nat -> 0 <= wval (take n a) < wbase n.
Proof. intros Ha Hn. pose proof (wval_bound (take n a) ltac:(auto with words)) as Hb. by rewrite length_take, Nat.min_l in Hb. Qed.

Lemma wval_sub_bound off n a : words_ok a -> (off + n <= length a)%nat -> 0 <= wval (sub off n a) < wbase n.
Proof. intros Ha Hn. pose proof (wval_bound (sub off n a) ltac:(auto with words)) as Hb. by rewrite length_sub in Hb. Qed.

(** From the three products to the whole one. *)
Lemma karatsuba_spec a b lo hi rest t n n2 tna tnb : n2 = (2 * n)%nat -> (tna <= n)%nat -> (tnb <= n)%nat ->
  (n + tna <= length a)%nat -> (n + tnb <= length b)%nat -> words_ok a -> words_ok b ->
  let a0 := wval (take n a) in let a1 := wval (sub n tna a) in
  let b0 := wval (take n b) in let b1 := wval (sub n tnb b) in
  length lo = n2 -> length hi = n2 -> words_ok lo -> words_ok hi -> (3 * n2 <= length t)%nat ->
  words_ok (sub n2 n2 t) ->
  wval lo = a0 * b0 -> wval hi = a1 * b1 -> wval (sub n2 n2 t) = Z.abs (a0 - a1) * Z.abs (b1 - b0) ->
  exists p t', karatsuba_combine (lo ++ hi ++ rest) t n n2 (mask_of (xorb (a0 <? a1) (b1 <? b0))) = (p ++ rest, t') /\
    length p = (2 * n2)%nat /\ words_ok p /\ wval p = wval (take (n + tna) a) * wval (take (n + tnb) b) /\ length t' = length t.
Proof.
  intros Hn2 Hna Hnb Ha Hb Hwa Hwb a0 a1 b0 b1 Hlo Hhi Hwlo Hwhi Ht Hwt Hvlo Hvhi Hvt.
  assert (0 <= a0 < wbase n) as Ha0 by (apply wval_take_bound; [done|lia]).
  assert (0 <= b0 < wbase n) as Hb0 by (apply wval_take_bound; [done|lia]).
  assert (0 <= a1 < wbase n) as Ha1.
  { pose proof (wval_sub_bound n tna a Hwa ltac:(lia)) as Hx. pose proof (wbase_le _ _ Hna). fold a1 in Hx. lia. }
  assert (0 <= b1 < wbase n) as Hb1.
  { pose proof (wval_sub_bound n tnb b Hwb ltac:(lia)) as Hx. pose proof (wbase_le _ _ Hnb). fold b1 in Hx. lia. }
  destruct (split_at n lo ltac:(lia)) as (r0 & r1 & -> & Hr0). destruct (split_at n hi ltac:(lia)) as (r2 & r3 & -> & Hr2).
  rewrite length_app in Hlo, Hhi. simp_words. rewrite <- !app_assoc.
  assert (wval (take (n + tna) a) = a0 + wbase n * a1) as -> by by apply wval_two_parts.
  assert (wval (take (n + tnb) b) = b0 + wbase n * b1) as -> by by apply wval_two_parts.
  clearbody a0 a1 b0 b1. set (neg := xorb (a0 <? a1) (b1 <? b0)).
  assert (wval (r0 ++ r1) + wval (r2 ++ r3) + (if neg then - wval (sub n2 n2 t) else wval (sub n2 n2 t)) = a0 * b1 + a1 * b0) as Hm.
  { rewrite Hvlo, Hvhi, Hvt. unfold neg. destruct (Z.ltb_spec a0 a1), (Z.ltb_spec b1 b0); cbn [xorb];
      first [rewrite (Z.abs_eq (a0 - a1)) by lia | rewrite (Z.abs_neq (a0 - a1)) by lia];
      first [rewrite (Z.abs_eq (b1 - b0)) by lia | rewrite (Z.abs_neq (b1 - b0)) by lia]; ring. }
  assert (wbase n2 = wbase n * wbase n) as E by (rewrite Hn2, <- wbase_add; f_equal; lia).
  destruct (karatsuba_combine_spec r0 r1 r2 r3 rest t n n2 neg) as (p & t' & Hc & Hl & Hw & Hv & Hlt);
    [done|lia|lia|lia|lia|lia|done..| | |].
  - rewrite Hm, E. set (X := wbase n) in *. clearbody X. nia.
  - rewrite Hm, Hvlo, Hvhi. replace (2 * n2)%nat with (n2 + n2)%nat by lia. rewrite wbase_add, E.
    replace (_ + _ + _) with ((a0 + wbase n * a1) * (b0 + wbase n * b1)) by ring.
    set (X := wbase n) in *. clearbody X. assert (a0 + X * a1 < X * X) by nia. assert (b0 + X * b1 < X * X) by nia.
    apply Z.mul_lt_mono_nonneg; nia.
  - exists p, t'. split_and!; [done..| |done]. rewrite Hv, Hm, Hvlo, Hvhi, E. ring.
Qed.

(** [n2] is a power of two that is at least 8. *)
Definition pow2_8 (k n : nat) : Prop := n = (8 * 2 ^ k)%nat.

Lemma pow2_8_S k n : pow2_8 (S k) n -> pow2_8 k (n / 2) /\ n = (2 * (n / 2))%nat /\ (16 <= n)%nat /\ (8 <= n / 2)%nat.
Proof.
  unfold pow2_8. rewrite Nat.pow_succ_r'. intros ->. assert (0 < 2 ^ k)%nat by (apply Nat.neq_0_lt_0, Nat.pow_nonzero; lia).
  replace (8 * (2 * 2 ^ k))%nat with (8 * 2 ^ k * 2)%nat by lia. rewrite Nat.div_mul by lia. lia.
Qed.

Lemma take_small_drop k n (l : list Z) : (n <= k)%nat -> take n (take k l) = take n l.
Proof. intros. rewrite take_take. f_equal. lia. Qed.

(** What a product writes: [p] in the first words of the array. *)
Definition product_in (n : nat) (v : Z) (r r' : list Z) : Prop :=
  exists p, r' = p ++ drop n r /\ length p = n /\ words_ok p /\ wval p = v.

Lemma product_put n v p r : (n <= length r)%nat -> length p = n -> words_ok p -> wval p = v -> product_in n v r (put 0 p r).
Proof. intros Hn Hl Hw Hv. exists p. unfold put. cbn [take app]. by rewrite Nat.add_0_l, Hl. Qed.

(** The smallest case: the product padded with zeros. *)
Lemma mul_recursive_base r a b n2 (dna dnb : Z) : (2 * n2 <= length r)%nat ->
  0 <= Z.of_nat n2 + dna -> dna <= 0 -> 0 <= Z.of_nat n2 + dnb -> dnb <= 0 ->
  Z.of_nat n2 + dna <= Zlen a -> Z.of_nat n2 + dnb <= Zlen b -> words_ok a -> words_ok b ->
  let a' := take (Z.to_nat (Z.of_nat n2 + dna)) a in let b' := take (Z.to_nat (Z.of_nat n2 + dnb)) b in
  product_in (2 * n2) (wval a' * wval b') r
    (if dna + dnb <? 0 then
       put (Z.to_nat (2 * Z.of_nat n2 + dna + dnb)) (replicate (Z.to_nat (- (dna + dnb))) 0) (bn_mul_normal r a' b')
     else bn_mul_normal r a' b').
Proof.
  intros Hr Ha1 Ha2 Hb1 Hb2 Hla Hlb Hwa Hwb a' b'. unfold Zlen in *.
  assert (length a' = Z.to_nat (Z.of_nat n2 + dna)) as Ha' by (unfold a'; rewrite length_take; lia).
  assert (length b' = Z.to_nat (Z.of_nat n2 + dnb)) as Hb' by (unfold b'; rewrite length_take; lia).
  destruct (bn_mul_normal_spec r a' b') as (p & -> & Hlp & Hwp & Hvp); [unfold a'; auto with words|unfold b'; auto with words|lia|].
  destruct (Z.ltb_spec (dna + dnb) 0).
  - set (k := Z.to_nat (- (dna + dnb))). replace (Z.to_nat (2 * Z.of_nat n2 + dna + dnb)) with (length p) by lia.
    destruct (split_at k (drop (length a' + length b') r)) as (z & rest & E & Hz); [rewrite length_drop; lia|].
    rewrite E, put_at by (rewrite ?length_replicate; done). exists (p ++ replicate k 0). split_and!.
    + rewrite <- app_assoc. do 2 f_equal. replace (2 * n2)%nat with ((length a' + length b') + k)%nat by lia.
      rewrite <- drop_drop, E. rewrite <- Hz. symmetry. apply drop_app_length.
    + rewrite length_app, length_replicate. lia.
    + solve_words.
    + rewrite wval_app, wval_replicate_0. lia.
  - exists p. replace (2 * n2)%nat with (length a' + length b')%nat by lia. done.
Qed.

(** What is proved of [bn_mul_recursive] by induction on the fuel. *)
Definition mul_recursive_ok (fuel n2 : nat) : Prop := forall r a b (dna dnb : Z) t,
  -8 <= dna <= 0 -> -8 <= dnb <= 0 -> Z.of_nat n2 + dna <= Zlen a -> Z.of_nat n2 + dnb <= Zlen b ->
  (2 * n2 <= length r)%nat -> (4 * n2 <= length t)%nat -> words_ok a -> words_ok b ->
  exists r' t', bn_mul_recursive fuel r a b n2 dna dnb t = Some (r', t') /\ length t' = length t /\
    product_in (2 * n2)
      (wval (take (Z.to_nat (Z.of_nat n2 + dna)) a) * wval (take (Z.to_nat (Z.of_nat n2 + dnb)) b)) r r'.

Lemma mul_recursive_full fuel n : mul_recursive_ok fuel n -> forall r a b t,
  (n <= length a)%nat -> (n <= length b)%nat -> (2 * n <= length r)%nat -> (4 * n <= length t)%nat ->
  words_ok a -> words_ok b ->
  exists r' t', bn_mul_recursive fuel r a b n 0 0 t = Some (r', t') /\ length t' = length t /\
    product_in (2 * n) (wval (take n a) * wval (take n b)) r r'.
Proof.
  intros IH r a b t Ha Hb Hr Ht Hwa Hwb. unfold mul_recursive_ok, Zlen in IH.
  destruct (IH r a b 0 0 t) as (r' & t' & Hx & Hl & Hp); [lia..|done|done|].
  rewrite !Z.add_0_r, !Nat2Z.id in Hp. eauto.
Qed.

(** [t2,t3 = t0 * t1] and [r0,r1 = a0 * b0]. *)
Lemma first_two_products fuel n n2 r a b t : mul_recursive_ok fuel n -> n2 = (2 * n)%nat ->
  (n <= length a)%nat -> (n <= length b)%nat -> (2 * n2 <= length r)%nat -> (4 * n2 <= length t)%nat ->
  words_ok a -> words_ok b -> words_ok (sub 0 n t) -> words_ok (sub n n t) ->
  exists x1 x2, bn_mul_recursive fuel (drop n2 t) (sub 0 n t) (sub n n t) n 0 0 (drop (n2 * 2) t) = Some x1 /\
    let t2 := put (n2 * 2) x1.2 (put n2 (take n2 x1.1) t) in
    bn_mul_recursive fuel r a b n 0 0 (drop (n2 * 2) t2) = Some x2 /\
    let t3 := put (n2 * 2) x2.2 t2 in
    product_in n2 (wval (take n a) * wval (take n b)) r x2.1 /\
    length t3 = length t /\ words_ok (sub n2 n2 t3) /\ wval (sub n2 n2 t3) = wval (sub 0 n t) * wval (sub n n t).
Proof.
  intros IH Hn2 Ha Hb Hr Ht Hwa Hwb Hw0 Hw1. cbv zeta.
  destruct (mul_recursive_full fuel n IH (drop n2 t) (sub 0 n t) (sub n n t) (drop (n2 * 2) t))
    as (r1 & t1 & E1 & Hl1 & p1 & -> & Hlp1 & Hwp1 & Hvp1); [rewrite ?length_sub, ?length_drop; lia..|done|done|].
  assert (take n2 (p1 ++ drop (2 * n) (drop n2 t)) = p1) as Htk by (rewrite Hn2, <- Hlp1; apply take_app_length).
  rewrite !take_ge in Hvp1 by (rewrite length_sub; lia). rewrite length_drop in Hl1.
  assert (length (put n2 p1 t) = length t) as Hlt by arr.
  destruct (mul_recursive_full fuel n IH r a b (drop (n2 * 2) (put (n2 * 2) t1 (put n2 p1 t))))
    as (r2 & t2 & E2 & Hl2 & Hp2); [done|done|lia|rewrite length_drop; arr|done|done|].
  rewrite length_drop, length_put in Hl2 by arr.
  exists (p1 ++ drop (2 * n) (drop n2 t), t1), (r2, t2). cbn [fst snd]. rewrite Htk.
  split_and!; [done..|by rewrite Hn2|arr| |].
  all: rewrite (sub_put_left (n2 * 2) n2), (sub_put_left (n2 * 2) n2), (sub_put_same n2 n2 p1) by arr; done.
Qed.

(** What is written from [n2] on. *)
Lemma product_put_second n2 v r lo r' : product_in n2 v (drop n2 r) r' -> length lo = n2 -> (2 * n2 <= length r)%nat ->
  exists p, put n2 r' (lo ++ drop n2 r) = lo ++ p ++ drop (2 * n2) r /\ length p = n2 /\ words_ok p /\ wval p = v.
Proof.
  intros (p & -> & Hl & Hw & Hv) Hlo Hr. exists p. split_and!; [|done..].
  rewrite <- (app_nil_r (drop n2 r)) at 2. rewrite put_at by (done || (rewrite length_app, !length_drop; lia)).
  rewrite app_nil_r, drop_drop. do 3 f_equal. lia.
Qed.

Lemma drop_app_eq n (l1 l2 : list Z) : length l1 = n -> drop n (l1 ++ l2) = l2.
Proof. intros <-. apply drop_app_length. Qed.

Lemma wval_sub_drop n k (a : list Z) : wval (take k (drop n a)) = wval (sub n k a).
Proof. done. Qed.

Lemma put_first n2 p r : length p = n2 -> put 0 p r = p ++ drop n2 r.
Proof. by intros <-. Qed.

Lemma put_second n2 lo p r : length lo = n2 -> length p = n2 -> (2 * n2 <= length r)%nat ->
  put n2 p (lo ++ drop n2 r) = lo ++ p ++ drop (2 * n2) r.
Proof.
  intros Hlo Hp Hr. destruct (split_at n2 (drop n2 r)) as (x & y & E & Hx); [rewrite length_drop; lia|].
  rewrite E, put_at by lia. do 2 f_equal. replace (2 * n2)%nat with (n2 + n2)%nat by lia.
  rewrite <- drop_drop, E, <- Hx. symmetry. apply drop_app_length.
Qed.

(** Eight words by columns. *)
Lemma comba8_sub a b i j : (i + 8 <= length a)%nat -> (j + 8 <= length b)%nat -> words_ok (sub i 8 a) -> words_ok (sub j 8 b) ->
  exists p, bn_mul_comba8 (sub i 8 a) (sub j 8 b) = p /\
    length p = 16%nat /\ words_ok p /\ wval p = wval (sub i 8 a) * wval (sub j 8 b).
Proof. intros Ha Hb Hwa Hwb. eexists. split; [reflexivity|]. apply bn_mul_comba8_spec; rewrite ?length_sub; done. Qed.

Lemma bn_mul_recursive_spec fuel : forall k n2, pow2_8 k n2 -> (k < fuel)%nat -> mul_recursive_ok fuel n2.
Proof.
  induction fuel as [|fuel IHf]; intros k n2 Hk Hf; [lia|].
  intros r a b dna dnb t Hdna Hdnb Ha Hb Hr Ht Hwa Hwb. cbn [bn_mul_recursive].
  destruct k as [|k].
  { assert (n2 = 8%nat) as -> by (unfold pow2_8 in Hk; simpl in Hk; lia).
    destruct ((8 =? 8)%nat && (dna =? 0) && (dnb =? 0)) eqn:E.
    - apply andb_true_iff in E as [E ->%Z.eqb_eq]. apply andb_true_iff in E as [_ ->%Z.eqb_eq].
      eexists _, _. split; [done|]. split; [done|]. unfold Zlen in *.
      destruct (bn_mul_comba8_spec (sub 0 8 a) (sub 0 8 b)) as (? & ? & ?); [rewrite ?length_sub; lia..|auto with words|auto with words|].
      by apply product_put.
    - rewrite (proj2 (Z.ltb_lt _ _)) by done.
      pose proof (mul_recursive_base r a b 8 dna dnb Hr ltac:(lia) ltac:(lia) ltac:(lia) ltac:(lia) Ha Hb Hwa Hwb) as Hp.
      cbv zeta in Hp. destruct (dna + dnb <? 0); eexists _, _; done. }
  apply pow2_8_S in Hk as (Hk & Hn2 & H16 & Hn8). set (n := (n2 / 2)%nat) in *. clearbody n.
  rewrite (proj2 (Nat.eqb_neq n2 8)) by lia. cbn [andb]. unfold BN_MUL_RECURSIVE_SIZE_NORMAL, Zlen in *.
  rewrite (proj2 (Z.ltb_ge _ _)) by lia.
  set (tna := Z.to_nat (Z.of_nat n + dna)). set (tnb := Z.to_nat (Z.of_nat n + dnb)).
  pose proof (karatsuba_diffs_spec a b t n n2 tna tnb Hn2 ltac:(lia) ltac:(lia) ltac:(lia) ltac:(lia) ltac:(lia) Hwa Hwb) as Hd.
  cbv zeta in Hd. destruct (karatsuba_diffs a b t n n2 tna tnb) as [t1 neg].
  destruct Hd as (-> & Hlt1 & Hw0 & Hw1 & Hv0 & Hv1).
  match goal with |- exists _ _, (mbind _ ?m) = _ /\ _ => assert (exists lo hi t3, m = Some (lo ++ hi ++ drop (2 * n2) r, t3) /\
    length lo = n2 /\ length hi = n2 /\ words_ok lo /\ words_ok hi /\ length t3 = length t /\ words_ok (sub n2 n2 t3) /\
    wval lo = wval (take n a) * wval (take n b) /\ wval hi = wval (sub n tna a) * wval (sub n tnb b) /\
    wval (sub n2 n2 t3) = wval (sub 0 n t1) * wval (sub n n t1)) as (lo & hi & t3 & -> & Hlo & Hhi & Hwlo & Hwhi & Hlt3 & Hwt3 & Hvlo & Hvhi & Hvt3) end.
  - rewrite (proj2 (Nat.eqb_neq n 4)) by lia. cbn [andb].
    destruct ((n =? 8)%nat && (dna =? 0) && (dnb =? 0)) eqn:E.
    + apply andb_true_iff in E as [E ->%Z.eqb_eq]. apply andb_true_iff in E as [->%Nat.eqb_eq ->%Z.eqb_eq].
      assert (tna = 8%nat /\ tnb = 8%nat) as [-> ->] by (unfold tna, tnb; lia).
      assert (n2 = 16%nat) as -> by lia.
      destruct (comba8_sub t1 t1 0 8) as (p1 & -> & ? & ? & ?); [lia..|done|done|].
      destruct (comba8_sub a b 0 0) as (p2 & -> & ? & ? & ?); [lia..|auto with words|auto with words|].
      destruct (comba8_sub a b 8 8) as (p3 & -> & ? & ? & ?); [lia..|auto with words|auto with words|].
      exists p2, p3, (put 16 p1 t1). rewrite (put_first 16), (put_second 16) by lia. split; [done|].
      rewrite (sub_put_same 16 16) by lia. split_and!; try assumption. arr.
    + destruct (first_two_products fuel n n2 r a b t1) as (x1 & x2 & -> & Hx); [by apply (IHf k); [|lia]|lia..|done|done|done|done|].
      cbv zeta in Hx. destruct Hx as (E2 & Hp & Hl3 & Hw3 & Hv3). cbn [mbind option_bind]. rewrite E2. cbn [mbind option_bind].
      destruct Hp as (lo & -> & Hlo & Hwlo & Hvlo).
      set (t3 := put (n2 * 2) x2.2 _) in *.
      rewrite (drop_app_eq n2 lo) by done.
      destruct (IHf k n Hk ltac:(lia) (drop n2 r) (drop n a) (drop n b) dna dnb (drop (n2 * 2) t3)) as (r' & t' & -> & Hl' & Hp');
        [lia|lia|unfold Zlen; rewrite length_drop; lia|unfold Zlen; rewrite length_drop; lia|rewrite length_drop; lia|rewrite length_drop; lia|auto with words|auto with words|].
      fold tna tnb in Hp'. rewrite <- Hn2 in Hp'. cbn [mbind option_bind fst snd].
      destruct (product_put_second n2 _ r lo r' Hp' Hlo Hr) as (hi & -> & Hhi & Hwhi & Hvhi).
      rewrite length_drop in Hl'. exists lo, hi, (put (n2 * 2) t' t3).
      rewrite (sub_put_left (n2 * 2) n2) by arr. split_and!; try done. arr.
  - cbn [mbind option_bind fst snd].
    destruct (karatsuba_spec a b lo hi (drop (2 * n2) r) t3 n n2 tna tnb) as (p & t' & -> & Hp & Hwp & Hvp & Hlt');
      [lia..|done|done|done|done|done|done|lia|done|done|done|by rewrite Hvt3, Hv0, Hv1|].
    exists (p ++ drop (2 * n2) r), t'. split_and!; [done|lia|]. exists p. split_and!; [done..|].
    replace (Z.to_nat (Z.of_nat n2 + dna)) with (n + tna)%nat by lia.
    by replace (Z.to_nat (Z.of_nat n2 + dnb)) with (n + tnb)%nat by lia.
Qed.

(** The half that is split off next. *)
Lemma part_split_spec f k i tna tnb : pow2_8 k i -> (k < f)%nat -> (tna < i)%nat -> (tnb < i)%nat ->
  (tna <= tnb + 1)%nat -> (tnb <= tna + 1)%nat -> (16 <= tna \/ 16 <= tnb)%nat ->
  exists j i' part, part_split f i tna tnb = Some (i', part) /\ pow2_8 j i' /\ (j < k)%nat /\ (2 * i' <= i)%nat /\
    (if part : bool then (i' <= tna < 2 * i' /\ i' <= tnb < 2 * i')%nat
     else (tna <= i' <= tna + 1 /\ tnb <= i' <= tnb + 1)%nat).
Proof.
  revert k i. induction f as [|f IH]; intros k i Hk Hf Ha Hb Hab Hba H16; [lia|]. cbn [part_split].
  destruct k as [|k]; [unfold pow2_8 in Hk; simpl in Hk; lia|].
  apply pow2_8_S in Hk as (Hk & Hi & _ & H8). set (h := (i / 2)%nat) in *. clearbody h.
  destruct (Nat.ltb_spec h tna), (Nat.ltb_spec h tnb); cbn [orb]; [exists k, h, true; split_and!; (done || lia)..|].
  destruct (Nat.eqb_spec h tna), (Nat.eqb_spec h tnb); cbn [orb]; [exists k, h, false; split_and!; (done || lia)..|].
  destruct (IH k h) as (j & i' & part & -> & ? & ? & ? & ?); [done|lia..|]. exists j, i', part. split_and!; (done || lia).
Qed.

(** A short product on top of zeros. *)
Lemma product_in_zeros m n2 v rest r' : product_in m v (replicate n2 0 ++ rest) r' -> (m <= n2)%nat ->
  exists hi, r' = hi ++ rest /\ length hi = n2 /\ words_ok hi /\ wval hi = v.
Proof.
  intros (p & -> & Hl & Hw & Hv) Hm. exists (p ++ replicate (n2 - m) 0). split_and!.
  - rewrite <- app_assoc. f_equal. rewrite drop_app_le by (rewrite length_replicate; lia). by rewrite drop_replicate.
  - rewrite length_app, length_replicate. lia.
  - solve_words.
  - rewrite wval_app, wval_replicate_0. lia.
Qed.

Lemma bn_mul_normal_product r a b : words_ok a -> words_ok b -> (length a + length b <= length r)%nat ->
  product_in (length a + length b) (wval a * wval b) r (bn_mul_normal r a b).
Proof. intros Ha Hb Hr. destruct (bn_mul_normal_spec r a b Ha Hb Hr) as (p & -> & ? & ? & ?). by exists p. Qed.

(** The upper product when the halves have eight words: padded afterwards. *)
Lemma part_hi_8 lo x a b tna tnb : length lo = 16%nat -> length a = tna -> length b = tnb -> (tna < 8)%nat -> (tnb < 8)%nat ->
  words_ok a -> words_ok b -> (16 <= length x)%nat ->
  exists hi, put (16 + tna + tnb) (replicate (16 - tna - tnb) 0) (put 16 (bn_mul_normal x a b) (lo ++ x)) = lo ++ hi ++ drop 16 x /\
    length hi = 16%nat /\ words_ok hi /\ wval hi = wval a * wval b.
Proof.
  intros Hlo <- <- Ha Hb Hwa Hwb Hx. destruct (bn_mul_normal_spec x a b Hwa Hwb ltac:(lia)) as (q & -> & Hq & Hwq & Hvq).
  replace (lo ++ x) with (lo ++ x ++ []) by (by rewrite app_nil_r).
  rewrite put_at by (done || (rewrite length_app, length_drop; lia)). rewrite app_nil_r.
  set (k := (16 - length a - length b)%nat).
  destruct (split_at k (drop (length a + length b) x)) as (y & rest & E & Hy); [rewrite length_drop; lia|].
  rewrite E, (app_assoc lo q), put_at by (rewrite ?length_app, ?length_replicate; lia).
  exists (q ++ replicate k 0). split_and!.
  - rewrite <- !app_assoc. do 3 f_equal. replace 16%nat with ((length a + length b) + k)%nat at 1 by lia.
    rewrite <- drop_drop, E. rewrite <- Hy. symmetry. apply drop_app_length.
  - rewrite length_app, length_replicate. lia.
  - solve_words.
  - rewrite wval_app, wval_replicate_0. lia.
Qed.

(** The upper product above eight words, over zeros. *)
Lemma part_hi fuel k n n2 r a b tna tnb t : pow2_8 k n -> n2 = (2 * n)%nat -> (tna < n)%nat -> (tnb < n)%nat ->
  (tna <= tnb + 1)%nat -> (tnb <= tna + 1)%nat -> (n + tna <= length a)%nat -> (n + tnb <= length b)%nat ->
  words_ok a -> words_ok b -> (4 * n <= length t)%nat -> (k < fuel)%nat ->
  (forall j i, pow2_8 j i -> (j < k)%nat -> forall r a b tna tnb t,
     (tna < i)%nat -> (tnb < i)%nat -> (tna <= tnb + 1)%nat -> (tnb <= tna + 1)%nat ->
     (i + tna <= length a)%nat -> (i + tnb <= length b)%nat -> (4 * i <= length r)%nat -> (8 * i <= length t)%nat ->
     words_ok a -> words_ok b ->
     exists r' t', bn_mul_part_recursive fuel r a b i tna tnb t = Some (r', t') /\ length t' = length t /\
       product_in (4 * i) (wval (take (i + tna) a) * wval (take (i + tnb) b)) r r') ->
  (Z.of_nat tna <? BN_MUL_RECURSIVE_SIZE_NORMAL) && (Z.of_nat tnb <? BN_MUL_RECURSIVE_SIZE_NORMAL) = false ->
  exists i part, part_split n n tna tnb = Some (i, part) /\
  exists r' t',
    (if part : bool then bn_mul_part_recursive fuel (replicate n2 0 ++ r) (drop n a) (drop n b) i (tna - i) (tnb - i) t
     else bn_mul_recursive fuel (replicate n2 0 ++ r) (drop n a) (drop n b) i
            (Z.of_nat tna - Z.of_nat i) (Z.of_nat tnb - Z.of_nat i) t) = Some (r', t') /\ length t' = length t /\
    exists hi, r' = hi ++ r /\ length hi = n2 /\ words_ok hi /\ wval hi = wval (sub n tna a) * wval (sub n tnb b).
Proof.
  intros Hk Hn2 Hna Hnb Hab Hba Ha Hb Hwa Hwb Ht Hf IHpart H16.
  assert (16 <= tna \/ 16 <= tnb)%nat as Hmax.
  { apply andb_false_iff in H16 as [H16|H16]; apply Z.ltb_ge in H16; unfold BN_MUL_RECURSIVE_SIZE_NORMAL in H16; lia. }
  destruct (part_split_spec n k n tna tnb) as (j & i & part & -> & Hj & Hjk & Hi & Hpart); [done| |lia..|].
  { unfold pow2_8 in Hk. pose proof (Nat.pow_gt_lin_r 2 k ltac:(lia)). lia. }
  exists i, part. split; [done|]. destruct part.
  - destruct (IHpart j i Hj Hjk (replicate n2 0 ++ r) (drop n a) (drop n b) (tna - i)%nat (tnb - i)%nat t) as (r' & t' & -> & Hl & Hp);
      [lia..|rewrite length_drop; lia|rewrite length_drop; lia|rewrite length_app, length_replicate; lia|lia|auto with words|auto with words|].
    exists r', t'. split_and!; [done..|].
    replace (i + (tna - i))%nat with tna in Hp by lia. replace (i + (tnb - i))%nat with tnb in Hp by lia.
    apply (product_in_zeros _ _ _ _ _ Hp). lia.
  - destruct (bn_mul_recursive_spec fuel j i Hj ltac:(lia) (replicate n2 0 ++ r) (drop n a) (drop n b)
      (Z.of_nat tna - Z.of_nat i) (Z.of_nat tnb - Z.of_nat i) t) as (r' & t' & -> & Hl & Hp);
      [lia..|unfold Zlen; rewrite length_drop; lia|unfold Zlen; rewrite length_drop; lia|rewrite length_app, length_replicate; lia|lia|auto with words|auto with words|].
    exists r', t'. split_and!; [done..|].
    replace (Z.to_nat (Z.of_nat i + (Z.of_nat tna - Z.of_nat i))) with tna in Hp by lia.
    replace (Z.to_nat (Z.of_nat i + (Z.of_nat tnb - Z.of_nat i))) with tnb in Hp by lia.
    apply (product_in_zeros _ _ _ _ _ Hp). lia.
Qed.

Lemma bn_mul_part_recursive_ok fuel : forall k n, pow2_8 k n -> (S k < fuel)%nat -> forall r a b tna tnb t,
  (tna < n)%nat -> (tnb < n)%nat -> (tna <= tnb + 1)%nat -> (tnb <= tna + 1)%nat ->
  (n + tna <= length a)%nat -> (n + tnb <= length b)%nat -> (4 * n <= length r)%nat -> (8 * n <= length t)%nat ->
  words_ok a -> words_ok b ->
  exists r' t', bn_mul_part_recursive fuel r a b n tna tnb t = Some (r', t') /\ length t' = length t /\
    product_in (4 * n) (wval (take (n + tna) a) * wval (take (n + tnb) b)) r r'.
Proof.
  induction fuel as [|fuel IHf]; intros k n Hk Hf r a b tna tnb t Hna Hnb Hab Hba Ha Hb Hr Ht Hwa Hwb; [lia|].
  cbn [bn_mul_part_recursive].
  assert (8 <= n)%nat as Hn8 by (unfold pow2_8 in Hk; pose proof (Nat.pow_nonzero 2 k ltac:(lia)); lia).
  rewrite (proj2 (Nat.ltb_ge n 8)) by lia. set (n2 := (n * 2)%nat). assert (n2 = 2 * n)%nat as Hn2 by lia.
  pose proof (karatsuba_diffs_spec a b t n n2 tna tnb Hn2 ltac:(lia) ltac:(lia) ltac:(lia) ltac:(lia) ltac:(lia) Hwa Hwb) as Hd.
  clearbody n2. cbv zeta in Hd. destruct (karatsuba_diffs a b t n n2 tna tnb) as [t1 neg].
  destruct Hd as (-> & Hlt1 & Hw0 & Hw1 & Hv0 & Hv1).
  match goal with |- exists _ _, (mbind _ ?m) = _ /\ _ => assert (exists lo hi t3, m = Some (lo ++ hi ++ drop (2 * n2) r, t3) /\
    length lo = n2 /\ length hi = n2 /\ words_ok lo /\ words_ok hi /\ length t3 = length t /\ words_ok (sub n2 n2 t3) /\
    wval lo = wval (take n a) * wval (take n b) /\ wval hi = wval (sub n tna a) * wval (sub n tnb b) /\
    wval (sub n2 n2 t3) = wval (sub 0 n t1) * wval (sub n n t1)) as (lo & hi & t3 & -> & Hlo & Hhi & Hwlo & Hwhi & Hlt3 & Hwt3 & Hvlo & Hvhi & Hvt3) end.
  - destruct (Nat.eqb_spec n 8) as [->|Hne].
    + assert (n2 = 16%nat) as -> by lia.
      destruct (comba8_sub t1 t1 0 8) as (p1 & -> & ? & ? & ?); [lia..|done|done|].
      destruct (comba8_sub a b 0 0) as (p2 & -> & ? & ? & ?); [lia..|auto with words|auto with words|].
      rewrite (put_first 16), (drop_app_eq 16) by done.
      destruct (part_hi_8 p2 (drop 16 r) (sub 8 tna a) (sub 8 tnb b) tna tnb) as (p3 & -> & ? & ? & ?);
        [done|rewrite length_sub; lia|rewrite length_sub; lia|lia|lia|auto with words|auto with words|rewrite length_drop; lia|].
      rewrite drop_drop. exists p2, p3, (put 16 p1 t1). rewrite (sub_put_same 16 16) by lia.
      split_and!; try assumption; [done|arr].
    + destruct k as [|k]; [unfold pow2_8 in Hk; simpl in Hk; lia|].
      destruct (first_two_products fuel n n2 r a b t1) as (x1 & x2 & -> & Hx);
        [by apply (bn_mul_recursive_spec fuel (S k)); [|lia]|lia..|done|done|done|done|].
      cbv zeta in Hx. destruct Hx as (E2 & (lo & Ex2 & Hlo & Hwlo & Hvlo) & Hl3 & Hw3 & Hv3).
      cbn [mbind option_bind]. rewrite E2. cbn [mbind option_bind]. set (t3 := put (n2 * 2) x2.2 _) in *. rewrite Ex2.
      rewrite (put_second n2 lo) by (rewrite ?length_replicate; lia). rewrite (drop_app_eq n2 lo) by done.
      set (rest := drop (2 * n2) r). destruct (_ && _) eqn:Ets.
      * pose proof (bn_mul_normal_product (replicate n2 0 ++ rest) (sub n tna a) (sub n tnb b)
          ltac:(auto with words) ltac:(auto with words)) as Hp. rewrite !length_sub in Hp by lia.
        specialize (Hp ltac:(rewrite length_app, length_replicate; lia)).
        apply product_in_zeros in Hp as (hi & -> & Hhi & Hwhi & Hvhi); [|lia].
        exists lo, hi, t3. rewrite <- (app_nil_r (replicate n2 0 ++ rest)), put_at, app_nil_r
          by (rewrite ?length_app, ?length_replicate; lia). split_and!; try assumption; [done|lia].
      * destruct (part_hi fuel (S k) n n2 rest a b tna tnb (drop (n2 * 2) t3)) as (i & part & -> & r' & t' & E3 & Hl' & hi & -> & Hhi & Hwhi & Hvhi);
          [done|lia..|done|done|rewrite length_drop; lia|lia|intros j i Hj Hjk; apply (IHf j i Hj); lia|done|].
        cbn [mbind option_bind]. rewrite E3. cbn [mbind option_bind fst snd]. rewrite length_drop in Hl'.
        exists lo, hi, (put (n2 * 2) t' t3). rewrite (sub_put_left (n2 * 2) n2) by arr.
        rewrite <- (app_nil_r (replicate n2 0 ++ rest)), put_at, app_nil_r by (rewrite ?length_app, ?length_replicate; lia).
        split_and!; try assumption; [done|arr].
  - cbn [mbind option_bind fst snd].
    destruct (karatsuba_spec a b lo hi (drop (2 * n2) r) t3 n n2 tna tnb) as (p & t' & -> & Hp & Hwp & Hvp & Hlt');
      [lia..|done|done|done|done|done|done|lia|done|done|done|by rewrite Hvt3, Hv0, Hv1|].
    exists (p ++ drop (2 * n2) r), t'. split_and!; [done|lia|]. exists p. replace (4 * n)%nat with (2 * n2)%nat by lia. done.
Qed.

(** * Squares by Karatsuba's method *)

Definition sqr_recursive_ok (fuel n2 : nat) : Prop := forall r a t,
  (n2 <= length a)%nat -> (2 * n2 <= length r)%nat -> (4 * n2 <= length t)%nat -> words_ok a ->
  exists r' t', bn_sqr_recursive fuel r a n2 t = Some (r', t') /\ length t' = length t /\
    product_in (2 * n2) (wval (take n2 a) * wval (take n2 a)) r r'.

(** [a0^2 + a1^2 - (a0 - a1)^2] is added in the middle. *)
Lemma sqr_combine_spec lo hi rest t n n2 a0 a1 : n2 = (2 * n)%nat -> length lo = n2 -> length hi = n2 ->
  words_ok lo -> words_ok hi -> (4 * n2 <= length t)%nat -> words_ok (sub n2 n2 t) ->
  0 <= a0 < wbase n -> 0 <= a1 < wbase n ->
  wval lo = a0 * a0 -> wval hi = a1 * a1 -> wval (sub n2 n2 t) = (a0 - a1) * (a0 - a1) ->
  exists p t',
    (let r := lo ++ hi ++ rest in
     let '(s, c) := bn_add_words (sub 0 n2 r) (sub n2 n2 r) in
     let t := put 0 s t in
     let '(s, borrow) := bn_sub_words (sub 0 n2 t) (sub n2 n2 t) in
     let t := put n2 s t in
     let c := u64 (c - borrow) in
     Some (add_middle r t n n2 c, t)) = Some (p ++ rest, t') /\
    length p = (2 * n2)%nat /\ words_ok p /\ length t' = length t /\
    wval p = (a0 + wbase n * a1) * (a0 + wbase n * a1).
Proof.
  intros Hn2 Hlo Hhi Hwlo Hwhi Ht Hwt H0 H1 Hvlo Hvhi Hvt. cbv zeta.
  assert (sub 0 n2 (lo ++ hi ++ rest) = lo) as -> by (by apply (sub_at 0 n2 [])).
  rewrite (sub_at n2 n2 lo hi rest) by done.
  assert (length (sub n2 n2 t) = n2) as Hl1 by (apply length_sub; lia).
  pose proof (bn_add_words_spec lo hi ltac:(lia) Hwlo Hwhi) as Hs. destruct (bn_add_words lo hi) as [s c].
  destruct Hs as (Hls & Hs & Hc & Hvs). rewrite sub_put_same, sub_put_right by lia.
  pose proof (bn_sub_words_spec s (sub n2 n2 t) ltac:(lia) Hs Hwt) as Hx. destruct (bn_sub_words s _) as [s2 borrow].
  destruct Hx as (Hls2 & Hs2 & Hb2 & Hvs2). rewrite Hls, Hlo, Hvlo, Hvhi, Hvt in *.
  pose proof (wval_bound s2 Hs2) as Hbs. rewrite Hls2 in Hbs.
  assert (wbase n2 = wbase n * wbase n) as E by (rewrite Hn2, <- wbase_add; f_equal; lia).
  assert (0 <= 2 * (a0 * a1) < 2 * wbase n2) as Hm.
  { rewrite E. set (X := wbase n) in *. clearbody X. nia. }
  assert (bit (c - borrow) /\ wval s2 + wbase n2 * (c - borrow) = 2 * (a0 * a1)) as [Hcm Hv2].
  { unfold bit in *. set (B := wbase n2) in *. clearbody B. split; nia. }
  rewrite u64_of_word by (unfold bit, word in *; lia).
  destruct (split_at n lo ltac:(lia)) as (r0 & r1 & -> & Hr0). destruct (split_at n hi ltac:(lia)) as (r2 & r3 & -> & Hr2).
  rewrite length_app in Hlo, Hhi. simp_words. rewrite <- !app_assoc.
  set (t2 := put n2 s2 (put 0 s t)). assert (length t2 = length t) as Hlt2 by (unfold t2; arr).
  assert (sub n2 n2 t2 = s2) as Hmid by (unfold t2; apply sub_put_same; arr). clearbody t2.
  destruct (add_middle_spec r0 r1 r2 r3 rest t2 n n2 (c - borrow)) as (p & -> & Hp & Hwp & Hvp);
    [done|lia..|done|done|done|done|by rewrite Hmid|done| |].
  - rewrite Hmid, Hv2, Hvlo, Hvhi. replace (2 * n2)%nat with (n2 + n2)%nat by lia. rewrite wbase_add, E.
    replace (_ + _ + _) with ((a0 + wbase n * a1) * (a0 + wbase n * a1)) by ring.
    set (X := wbase n) in *. clearbody X. apply Z.mul_lt_mono_nonneg; nia.
  - exists p, t2. split_and!; [done|lia|done..|]. rewrite Hvp, Hmid, Hv2, Hvlo, Hvhi, E. ring.
Qed.

Lemma bn_abs_sub_words_spec a b : length a = length b -> words_ok a -> words_ok b ->
  let '(d, tmp) := bn_abs_sub_words a b in
  length d = length a /\ words_ok d /\ length tmp = length a /\ wval d = Z.abs (wval a - wval b).
Proof.
  intros Hl Ha Hb. unfold bn_abs_sub_words. pose proof (abs_sub_value a b Hl Ha Hb) as Hs.
  destruct (bn_sub_words a b) as [tmp borrow]. destruct (bn_sub_words b a) as [r c]. cbn [fst] in Hs. tauto.
Qed.

Lemma bn_sqr_recursive_spec fuel : forall k n2, pow2_8 k n2 -> (k < fuel)%nat -> sqr_recursive_ok fuel n2.
Proof.
  induction fuel as [|fuel IHf]; intros k n2 Hk Hf; [lia|].
  intros r a t Ha Hr Ht Hwa. cbn [bn_sqr_recursive]. destruct k as [|k].
  { assert (n2 = 8%nat) as -> by (unfold pow2_8 in Hk; simpl in Hk; lia). cbn [Nat.eqb].
    eexists _, _. split; [done|]. split; [done|].
    destruct (bn_sqr_comba8_spec (sub 0 8 a)) as (? & ? & ?); [rewrite ?length_sub; lia..|auto with words|].
    by apply product_put. }
  apply pow2_8_S in Hk as (Hk & Hn2 & H16 & Hn8). set (n := (n2 / 2)%nat) in *. clearbody n.
  rewrite (proj2 (Nat.eqb_neq n2 4)), (proj2 (Nat.eqb_neq n2 8)) by lia.
  unfold BN_SQR_RECURSIVE_SIZE_NORMAL, BN_MUL_RECURSIVE_SIZE_NORMAL. rewrite (proj2 (Z.ltb_ge _ _)) by lia.
  pose proof (IHf k n Hk ltac:(lia)) as IH. unfold sqr_recursive_ok in IH.
  pose proof (bn_abs_sub_words_spec (sub 0 n a) (sub n n a) ltac:(rewrite !length_sub; lia) ltac:(auto with words) ltac:(auto with words)) as Hs.
  destruct (bn_abs_sub_words (sub 0 n a) (sub n n a)) as [d tmp]. rewrite length_sub in Hs by lia.
  destruct Hs as (Hd & Hwd & Htmp & Hvd). set (t1 := put 0 d (put n tmp t)).
  assert (length t1 = length t) as Hlt1 by (unfold t1; arr).
  assert (sub 0 n t1 = d) as Hsd by (unfold t1; apply sub_put_same; arr). clearbody t1.
  destruct (IH (drop n2 t1) (sub 0 n t1) (drop (n2 * 2) t1)) as (r1 & t2 & -> & Hl2 & p1 & -> & Hlp1 & Hwp1 & Hvp1);
    [rewrite ?length_sub, ?length_drop; lia..|by rewrite Hsd|].
  cbn [mbind option_bind fst snd]. rewrite length_drop in Hl2.
  assert (take n2 (p1 ++ drop (2 * n) (drop n2 t1)) = p1) as -> by (rewrite Hn2, <- Hlp1; apply take_app_length).
  rewrite Hsd, !take_ge, Hvd in Hvp1 by lia. set (t3 := put (n2 * 2) t2 (put n2 p1 t1)).
  assert (length t3 = length t) as Hlt3 by (unfold t3; arr).
  assert (sub n2 n2 t3 = p1) as Hs3 by (unfold t3; rewrite sub_put_left, sub_put_same by arr; done). clearbody t3.
  destruct (IH r a (drop (n2 * 2) t3)) as (r2 & t4 & -> & Hl4 & lo & -> & Hlo & Hwlo & Hvlo); [lia..|rewrite length_drop; lia|done|].
  cbn [mbind option_bind fst snd]. rewrite length_drop in Hl4. rewrite <- Hn2 in *.
  rewrite (drop_app_eq n2 lo) by done. set (t5 := put (n2 * 2) t4 t3).
  assert (length t5 = length t) as Hlt5 by (unfold t5; arr).
  assert (sub n2 n2 t5 = p1) as Hs5 by (unfold t5; rewrite sub_put_left by arr; done). clearbody t5.
  destruct (IH (drop n2 r) (drop n a) (drop (n2 * 2) t5)) as (r3 & t6 & -> & Hl6 & Hp6);
    [rewrite ?length_drop; lia..|auto with words|].
  cbn [mbind option_bind fst snd]. rewrite length_drop in Hl6.
  destruct (product_put_second n2 _ r lo r3 Hp6 Hlo ltac:(lia)) as (hi & -> & Hhi & Hwhi & Hvhi).
  set (t7 := put (n2 * 2) t6 t5). assert (length t7 = length t) as Hlt7 by (unfold t7; arr).
  assert (sub n2 n2 t7 = p1) as Hs7 by (unfold t7; rewrite sub_put_left by arr; done). clearbody t7.
  destruct (sqr_combine_spec lo hi (drop (2 * n2) r) t7 n n2 (wval (take n a)) (wval (sub n n a)))
    as (p & t8 & E & Hp & Hwp & Hl8 & Hvp); [lia|done..|lia|by rewrite Hs7|apply wval_take_bound; [done|lia]
      |apply wval_sub_bound; [done|lia]|done|done|rewrite Hs7, Hvp1; apply Z.abs_square|].
  exists (p ++ drop (2 * n2) r), t8. split_and!; [exact E|lia|]. exists p. split_and!; [done..|].
  rewrite Hvp, <- wval_two_parts by lia. by replace (n + n)%nat with n2 by lia.
Qed.
