(* ===== verification/Bn.v ===== *)
(** The big numbers of [crypto/fipsmodule/bn]: the objects and their storage
    ([bn.c]), the pool of temporaries ([ctx.c]), sums and differences ([add.c]),
    comparisons ([cmp.c]), shifts and bits ([shift.c]) and bytes ([bytes.c]).

    A [BIGNUM *] is an address, and the operations run on a state that holds
    what is at every address, so that arguments may be the same object. *)
From S2P Require Import Prelude Mem ConstTime Stack BnWords BnMul.

(** * Objects *)

(** [dmax] is the length of [d]. *)
Record BIGNUM := Bignum {
  d : list Z;
  width : nat;
  neg : bool;
  flag_malloced : bool;
  flag_static_data : bool;
}.

Definition with_d (d : list Z) (b : BIGNUM) : BIGNUM := Bignum d (width b) (neg b) (flag_malloced b) (flag_static_data b).
Definition with_width (w : nat) (b : BIGNUM) : BIGNUM := Bignum (d b) w (neg b) (flag_malloced b) (flag_static_data b).
Definition with_neg (n : bool) (b : BIGNUM) : BIGNUM := Bignum (d b) (width b) n (flag_malloced b) (flag_static_data b).

(** The words in use. *)
Definition words (b : BIGNUM) : list Z := take (width b) (d b).

(** [INT_MAX / (4 * BN_BITS2)]. *)
Definition BN_MAX_WORDS : Z := INT_MAX / (4 * BN_BITS2).

Definition BN_init : BIGNUM := Bignum [] 0 false false false.

Definition BN_value_one : BIGNUM := Bignum [1] 1 false false true.

(** * Reading an object *)

Definition bn_fits_in_words (bn : BIGNUM) (num : nat) : bool := or_words (drop num (words bn)) =? 0.

(** Without the zeros at the end. *)
Fixpoint drop_zeros (l : list Z) : list Z :=
  match l with
  | x :: l => if x =? 0 then drop_zeros l else x :: l
  | [] => []
  end.
Definition bn_minimal_width (bn : BIGNUM) : nat := length (drop_zeros (rev (words bn))).

(** One block of [BN_num_bits_word]: the upper [k] of the last [2 k] bits. *)
Definition num_bits_step (k : Z) (bl : Z * Z) : Z * Z :=
  let '(bits, l) := bl in
  let x := Z.shiftr l k in
  let mask := u64 (0 - x) in
  let mask := u64 (0 - Z.shiftr mask (BN_BITS2 - 1)) in
  (bits + Z.land k mask, Z.lxor l (Z.land (Z.lxor x l) mask)).

(** The last block does not change [l]. *)
Definition BN_num_bits_word (l : Z) : Z :=
  fst (fold_left (fun bl k => num_bits_step k bl) [32; 16; 8; 4; 2; 1] (Z.b2z (negb (l =? 0)), l)).

Definition BN_num_bits (bn : BIGNUM) : Z :=
  let w := bn_minimal_width bn in
  if (w =? 0)%nat then 0 else (Z.of_nat w - 1) * BN_BITS2 + BN_num_bits_word (d bn !!! (w - 1)%nat).

Definition BN_num_bytes (bn : BIGNUM) : Z := (BN_num_bits bn + 7) / 8.

Definition BN_is_negative (bn : BIGNUM) : bool := neg bn.

(** [num] words, or [None] when the number is negative or too long. *)
Definition bn_copy_words (num : nat) (bn : BIGNUM) : option (list Z) :=
  if neg bn then None
  else
    let width := width bn in
    if (num <? width)%nat then
      if bn_fits_in_words bn num then Some (take num (d bn)) else None
    else Some (take width (d bn) ++ replicate (num - width) 0).

(** * [cmp.c] *)

Definition BN_ucmp (a b : BIGNUM) : Z := bn_cmp_words_consttime (words a) (words b).

(** [None] is NULL. *)
Definition BN_cmp (a b : option BIGNUM) : Z :=
  match a, b with
  | Some a, Some b =>
      if negb (eqb (neg a) (neg b)) then if neg a then -1 else 1
      else
        let ret := BN_ucmp a b in
        if neg a then - ret else ret
  | Some _, None => -1
  | None, Some _ => 1
  | None, None => 0
  end.

Definition BN_abs_is_word (bn : BIGNUM) (w : Z) : bool :=
  if (width bn =? 0)%nat then w =? 0
  else fold_left Z.lor (drop 1 (words bn)) (Z.lxor (d bn !!! 0%nat) w) =? 0.

Definition BN_cmp_word (a : BIGNUM) (b : Z) : Z :=
  BN_cmp (Some a) (Some (Bignum [b] (if b >? 0 then 1 else 0) false false true)).

Definition BN_is_zero (bn : BIGNUM) : bool := bn_fits_in_words bn 0.
Definition BN_is_one (bn : BIGNUM) : bool := negb (neg bn) && BN_abs_is_word bn 1.
Definition BN_is_word (bn : BIGNUM) (w : Z) : bool := BN_abs_is_word bn w && ((w =? 0) || negb (neg bn)).
Definition BN_is_odd (bn : BIGNUM) : bool := (0 <? width bn)%nat && (Z.land (d bn !!! 0%nat) 1 =? 1).

Definition BN_is_pow2 (bn : BIGNUM) : bool :=
  let w := bn_minimal_width bn in
  if (w =? 0)%nat || neg bn then false
  else if negb (forallb (fun x => x =? 0) (take (w - 1) (d bn))) then false
  else
    let top := d bn !!! (w - 1)%nat in
    Z.land top (u64 (top - 1)) =? 0.

Definition BN_equal_consttime (a b : BIGNUM) : bool :=
  let mask := fold_left Z.lor (drop (width a) (words b)) 0 in
  let mask := fold_left Z.lor (drop (width b) (words a)) mask in
  let min := (if width a <? width b then width a else width b)%nat in
  let mask := fold_left (fun mask xy => Z.lor mask (Z.lxor xy.1 xy.2)) (zip (take min (d a)) (take min (d b))) mask in
  let mask := Z.lor mask (Z.b2z (xorb (neg a) (neg b))) in
  mask =? 0.

(** * [bytes.c], reading *)

Definition BN_get_word (bn : BIGNUM) : Z :=
  match bn_minimal_width bn with
  | O => 0
  | 1%nat => d bn !!! 0%nat
  | _ => BN_MASK2
  end.

Definition BN_get_u64 (bn : BIGNUM) : option Z :=
  match bn_minimal_width bn with
  | O => Some 0
  | 1%nat => Some (d bn !!! 0%nat)
  | _ => None
  end.

(** The words as they lie in memory. *)
Definition word_bytes (l : list Z) : bytes := l ≫= le_bytes 8.

Definition fits_in_bytes (words : list Z) (num_bytes : nat) : bool :=
  fold_left Z.lor (drop num_bytes (word_bytes words)) 0 =? 0.

(** The array [out] of [out_len] bytes. *)
Definition bn_words_to_big_endian (out_len : nat) (inp : list Z) : bytes :=
  let bytes := word_bytes inp in
  let num_bytes := (if out_len <? length bytes then out_len else length bytes)%nat in
  replicate (out_len - num_bytes) 0 ++ rev (take num_bytes bytes).

Definition BN_bn2bin (inp : BIGNUM) : bytes :=
  bn_words_to_big_endian (Z.to_nat (BN_num_bytes inp)) (words inp).

Definition BN_bn2le_padded (len : nat) (inp : BIGNUM) : option bytes :=
  if negb (fits_in_bytes (words inp) len) then None
  else
    let bytes := word_bytes (words inp) in
    let num_bytes := (if len <? length bytes then len else length bytes)%nat in
    Some (take num_bytes bytes ++ replicate (len - num_bytes) 0).

Definition BN_bn2bin_padded (len : nat) (inp : BIGNUM) : option bytes :=
  if negb (fits_in_bytes (words inp) len) then None else Some (bn_words_to_big_endian len (words inp)).

(** [out_len] words from big-endian bytes; [None] is the failed [BSSL_CHECK]. *)
Fixpoint load_words_be (fuel : nat) (inp : bytes) : list Z :=
  match fuel with
  | O => []
  | S fuel =>
      if (8 <=? length inp)%nat then
        be_val (drop (length inp - 8) inp) :: load_words_be fuel (take (length inp - 8) inp)
      else if (length inp =? 0)%nat then []
      else [fold_left (fun word x => Z.lor (u64 (Z.shiftl word 8)) x) inp 0]
  end.

Definition bn_big_endian_to_words (out_len : nat) (inp : bytes) : option (list Z) :=
  if (length inp <=? out_len * 8)%nat then
    let l := load_words_be (S (length inp)) inp in
    Some (l ++ replicate (out_len - length l) 0)
  else None.

(** * [shift.c], reading *)

Definition BN_is_bit_set (a : BIGNUM) (n : Z) : Z :=
  if n <? 0 then 0 else bn_is_bit_set_words (words a) n.

(** One block of [bn_count_low_zero_bits_word]. *)
Definition count_low_step (k : Z) (bl : Z * Z) : Z * Z :=
  let '(bits, l) := bl in
  let mask := constant_time_is_zero_w (u64 (Z.shiftl l (BN_BITS2 - k))) in
  (bits + Z.land k mask, constant_time_select_w mask (Z.shiftr l k) l).

Definition bn_count_low_zero_bits_word (l : Z) : Z :=
  fst (fold_left (fun bl k => count_low_step k bl) [32; 16; 8; 4; 2; 1] (0, l)).

Fixpoint count_low_loop (l : list Z) (i : Z) (saw_nonzero ret : Z) : Z :=
  match l with
  | [] => ret
  | x :: l =>
      let nonzero := u64 (Z.lnot (constant_time_is_zero_w x)) in
      let first_nonzero := Z.land (u64 (Z.lnot saw_nonzero)) nonzero in
      let saw_nonzero := Z.lor saw_nonzero nonzero in
      let bits := bn_count_low_zero_bits_word x in
      count_low_loop l (i + 1) saw_nonzero (Z.lor ret (Z.land first_nonzero (i * BN_BITS2 + bits)))
  end.

Definition BN_count_low_zero_bits (bn : BIGNUM) : Z := count_low_loop (words bn) 0 0 0.

(** * The state *)

(** Addresses are those of [Stack.v]; [next_ptr] is the address of the next
    object, and [BN_value_one()] is at an address of its own. *)
Definition ptr : Type := Z.
Definition value_one_ptr : ptr := 1.

(** [stack] holds the values of [used] at the open [BN_CTX_start]s, the last
    first; [stack_size] is the capacity of its array. *)
Record BN_CTX := BnCtx {
  bignums : option (stack_st unit);
  stack : list nat;
  stack_size : Z;
  used : nat;
  error : bool;
  defer_error : bool;
}.

Record bn_state {H : Type} := BnState {
  objs : ptr -> BIGNUM;
  next_ptr : ptr;
  ctx : BN_CTX;
  mem : H;
}.
Arguments bn_state H : clear implicits.
Arguments BnState {H}.

Definition put_obj (objs : ptr -> BIGNUM) (p : ptr) (b : BIGNUM) : ptr -> BIGNUM := fun q => if q =? p then b else objs q.

Section bn.
Context {H : Type} `{Malloc H}.
#[local] Abbreviation M := (ST (bn_state H)).

Definition get (p : ptr) : M BIGNUM := fun s => (Some (objs s p), s).
Definition upd (p : ptr) (f : BIGNUM -> BIGNUM) : M unit :=
  fun s => (Some tt, BnState (put_obj (objs s) p (f (objs s p))) (next_ptr s) (ctx s) (mem s)).
(** Runs the allocator. *)
Definition lift {A} (m : ST H A) : M A :=
  fun s => let '(r, h) := m (mem s) in (r, BnState (objs s) (next_ptr s) (ctx s) h).
Definition get_ctx : M BN_CTX := fun s => (Some (ctx s), s).
Definition set_ctx (c : BN_CTX) : M unit := fun s => (Some tt, BnState (objs s) (next_ptr s) c (mem s)).

(** [memcpy] into the words of an object. *)
Definition put_words (r : ptr) (off : nat) (ws : list Z) : M unit := upd r (fun b => with_d (put off ws (d b)) b).

(** * [bn.c] *)

(** An object takes [sizeof(BIGNUM)] = 24 bytes.  No block has an address above
    [2^64]: an allocator that has used them all up has no more. *)
Definition BN_new : M ptr := fun s =>
  match OPENSSL_malloc 24 (mem s) with
  | (None, h) => (None, BnState (objs s) (next_ptr s) (ctx s) h)
  | (Some _, h) =>
      if next_ptr s >=? 2 ^ 64 then (None, BnState (objs s) (next_ptr s) (ctx s) h) else
      (Some (next_ptr s),
       BnState (put_obj (objs s) (next_ptr s) (Bignum [] 0 false true false)) (next_ptr s + 1) (ctx s) h)
  end.
Definition BN_secure_new : M ptr := BN_new.

(** The words of an object that is freed are not used again. *)
Definition BN_free (bn : option ptr) : M unit :=
  match bn with None => st_ret tt | Some p => upd p (fun _ => BN_init) end.
Definition BN_clear_free (bn : option ptr) : M unit := BN_free bn.

(** The array of [bn->d] with room for [words]; [None] without memory. *)
Definition bn_wexpand (bn : ptr) (words : Z) : M unit :=
  b <-- get bn ;;
  if words <=? Zlen (d b) then st_ret tt
  else if words >? BN_MAX_WORDS then st_fail
  else if flag_static_data b then st_fail
  else
    _ <-- lift (OPENSSL_calloc words 8) ;;
    upd bn (with_d (take (width b) (d b) ++ replicate (Z.to_nat words - width b) 0)).

Definition bn_expand (bn : ptr) (bits : Z) : M unit :=
  if u64 (bits + BN_BITS2 - 1) <? bits then st_fail else bn_wexpand bn (u64 (bits + BN_BITS2 - 1) / BN_BITS2).

Definition BN_copy (dest src : ptr) : M unit :=
  if src =? dest then st_ret tt
  else
    s <-- get src ;;
    bn_wexpand dest (Z.of_nat (width s)) ;;;
    s <-- get src ;;
    put_words dest 0 (take (width s) (d s)) ;;;
    upd dest (fun b => with_neg (neg s) (with_width (width s) b)).

(** [None] for [src] is NULL. *)
Definition BN_dup (src : option ptr) : M ptr :=
  match src with
  | None => st_fail
  | Some src =>
      copy <-- BN_new ;;
      fun s =>
        match BN_copy copy src s with
        | (Some _, s) => (Some copy, s)
        | (None, s) => (BN_free (Some copy) ;;; st_fail) s
        end
  end.

Definition BN_clear (bn : ptr) : M unit :=
  upd bn (fun b => with_neg false (with_width 0 (with_d (replicate (length (d b)) 0) b))).

Definition BN_zero (bn : ptr) : M unit := upd bn (fun b => with_neg false (with_width 0 b)).

Definition BN_set_word (bn : ptr) (value : Z) : M unit :=
  if value =? 0 then BN_zero bn
  else
    bn_wexpand bn 1 ;;;
    upd bn (fun b => with_width 1 (with_d (put 0 [value] (d b)) (with_neg false b))).
Definition BN_one (bn : ptr) : M unit := BN_set_word bn 1.
Definition BN_set_u64 (bn : ptr) (value : Z) : M unit := BN_set_word bn value.

Definition bn_set_words (bn : ptr) (words : list Z) : M unit :=
  bn_wexpand bn (Zlen words) ;;;
  put_words bn 0 words ;;;
  upd bn (fun b => with_neg false (with_width (length words) b)).

Definition bn_set_static_words (bn : ptr) (words : list Z) : M unit :=
  upd bn (fun b => Bignum words (length words) false (flag_malloced b) true).

Definition BN_set_negative (bn : ptr) (sign : bool) : M unit :=
  b <-- get bn ;;
  if sign && negb (BN_is_zero b) then upd bn (with_neg true) else upd bn (with_neg false).

Definition bn_set_minimal_width (bn : ptr) : M unit :=
  b <-- get bn ;;
  let w := bn_minimal_width b in
  upd bn (fun b => let b := with_width w b in if (w =? 0)%nat then with_neg false b else b).

Definition bn_resize_words (bn : ptr) (words : nat) : M unit :=
  b <-- get bn ;;
  if (width b <=? words)%nat then
    bn_wexpand bn (Z.of_nat words) ;;;
    put_words bn (width b) (replicate (words - width b) 0) ;;;
    upd bn (with_width words)
  else if bn_fits_in_words b words then upd bn (with_width words)
  else st_fail.

(** * [ctx.c] *)

Definition BN_CTX_START_FRAMES : Z := 32.

(** [BN_STACK_push]; the array of the stack is its list of values. *)
Definition BN_STACK_push (c : BN_CTX) (idx : nat) : M BN_CTX :=
  let pushed size := BnCtx (bignums c) (idx :: stack c) size (used c) (error c) (defer_error c) in
  if Zlen (stack c) =? stack_size c then
    let new_size := if negb (stack_size c =? 0) then u64 (stack_size c * 3) / 2 else BN_CTX_START_FRAMES in
    if (new_size <=? stack_size c) || (new_size >? SIZE_MAX / 8) then st_fail
    else
      _ <-- lift (OPENSSL_realloc (Some (replicate (Z.to_nat (stack_size c * 8)) 0)) (u64 (new_size * 8))) ;;
      st_ret (pushed new_size)
  else st_ret (pushed (stack_size c)).

Definition with_error (c : BN_CTX) (defer : bool) : BN_CTX :=
  BnCtx (bignums c) (stack c) (stack_size c) (used c) true defer.

(** [BN_CTX_start] cannot fail. *)
Definition BN_CTX_start : M unit := fun s =>
  let c := ctx s in
  if error c then (Some tt, s)
  else
    match BN_STACK_push c (used c) s with
    | (Some c, s) => set_ctx c s
    | (None, s) => set_ctx (with_error c true) s
    end.

Definition ctx_fail (c : BN_CTX) (defer : bool) {A} : M A := set_ctx (with_error c defer) ;;; st_fail.

(** The comparison function of the pool is NULL. *)
Definition BN_CTX_get : M ptr := fun s =>
  let c := ctx s in
  if error c then ctx_fail c false s
  else
    let new_stack :=
      match bignums c with
      | Some sk => (Some sk, s)
      | None => lift (OPENSSL_sk_new_null (Cmp := unit)) s
      end in
    match new_stack with
    | (None, s) => ctx_fail c (defer_error c) s
    | (Some sk, s) =>
        let c := BnCtx (Some sk) (stack c) (stack_size c) (used c) (error c) (defer_error c) in
        let pushed :=
          if (used c =? OPENSSL_sk_num (Some sk))%nat then
            match BN_new s with
            | (None, s) => (None, s)
            | (Some bn, s) =>
                let '((n, sk'), h) := OPENSSL_sk_push (Some sk) bn (mem s) in
                let s := BnState (objs s) (next_ptr s) (ctx s) h in
                if (n =? 0)%nat then (BN_free (Some bn) ;;; st_fail) s else (Some sk', s)
            end
          else (Some (Some sk), s) in
        match pushed with
        | (None, s) => ctx_fail c (defer_error c) s
        | (Some sk, s) =>
            let ret := OPENSSL_sk_value sk (used c) in
            (BN_zero ret ;;;
             set_ctx (BnCtx sk (stack c) (stack_size c) (S (used c)) (error c) (defer_error c)) ;;;
             st_ret ret) s
        end
    end.

Definition BN_CTX_end : M unit :=
  c <-- get_ctx ;;
  if error c then st_ret tt
  else
    match stack c with
    | u :: st => set_ctx (BnCtx (bignums c) st (stack_size c) u (error c) (defer_error c))
    | [] => st_ret tt
    end.

(** [BN_CTX_start(ctx); ... goto err; err: BN_CTX_end(ctx);] *)
Definition with_ctx {A} (m : M A) : M A :=
  BN_CTX_start ;;;
  fun s => let '(r, s) := m s in let '(_, s) := BN_CTX_end s in (r, s).

(** * [add.c] *)

(** [CRYPTO_addc_w(a->d[i], 0, carry, &carry)] and the same for [subc], from
    [min] to [max]. *)
Definition extend_words (step : Z -> Z -> Z -> Z * Z) (a : list Z) (min max : nat) (c : Z) : list Z * Z :=
  while1 step (sub min (max - min) a) (replicate (max - min) 0) c.

Definition bn_uadd_consttime (r a b : ptr) : M unit :=
  va <-- get a ;;
  vb <-- get b ;;
  let '(a, b, max, min) :=
    if (width va <? width vb)%nat then (b, a, width vb, width va) else (a, b, width va, width vb) in
  bn_wexpand r (Z.of_nat max + 1) ;;;
  upd r (with_width (max + 1)) ;;;
  va <-- get a ;;
  vb <-- get b ;;
  let '(s, carry) := bn_add_words (take min (d va)) (take min (d vb)) in
  put_words r 0 s ;;;
  va <-- get a ;;
  let '(s, carry) := extend_words CRYPTO_addc_w (d va) min max carry in
  put_words r min s ;;;
  put_words r max [carry].

Definition BN_uadd (r a b : ptr) : M unit :=
  bn_uadd_consttime r a b ;;;
  bn_set_minimal_width r.

Definition bn_usub_consttime (r a b : ptr) : M unit :=
  va <-- get a ;;
  vb <-- get b ;;
  let max := width va in
  let too_long := (max <? width vb)%nat in
  st_guard (negb (too_long && negb (bn_fits_in_words vb max))) ;;;
  let b_width := if too_long then max else width vb in
  bn_wexpand r (Z.of_nat max) ;;;
  va <-- get a ;;
  vb <-- get b ;;
  let '(s, borrow) := bn_sub_words (take b_width (d va)) (take b_width (d vb)) in
  put_words r 0 s ;;;
  va <-- get a ;;
  let '(s, borrow) := extend_words CRYPTO_subc_w (d va) b_width (width va) borrow in
  put_words r b_width s ;;;
  st_guard (borrow =? 0) ;;;
  va <-- get a ;;
  upd r (fun b => with_neg false (with_width (width va) b)).

Definition BN_usub (r a b : ptr) : M unit :=
  bn_usub_consttime r a b ;;;
  bn_set_minimal_width r.

(** [r = a - b] of the absolute values, with the sign of the difference. *)
Definition signed_usub (r a b : ptr) : M unit :=
  va <-- get a ;;
  vb <-- get b ;;
  if BN_ucmp va vb <? 0 then
    BN_usub r b a ;;;
    upd r (with_neg true)
  else
    BN_usub r a b ;;;
    upd r (with_neg false).

(** [r->neg] is set whether [BN_uadd] fails or not. *)
Definition BN_add (r a b : ptr) : M unit :=
  va <-- get a ;;
  vb <-- get b ;;
  let a_neg := neg va in
  if xorb a_neg (neg vb) then
    let '(a, b) := if a_neg then (b, a) else (a, b) in
    signed_usub r a b
  else
    fun s =>
      let '(ret, s) := BN_uadd r a b s in
      let '(_, s) := upd r (with_neg a_neg) s in (ret, s).

Definition BN_sub (r a b : ptr) : M unit :=
  va <-- get a ;;
  vb <-- get b ;;
  let '(a, b, add, neg) :=
    if neg va then if neg vb then (b, a, false, false) else (a, b, true, true)
    else if neg vb then (a, b, true, false) else (a, b, false, false) in
  if (add : bool) then
    BN_uadd r a b ;;;
    upd r (with_neg neg)
  else signed_usub r a b.

(** The words, and the carry that is left. *)
Fixpoint add_word_loop (l : list Z) (w : Z) : list Z * Z :=
  match l with
  | x :: l' =>
      if w =? 0 then (l, w)
      else
        let x' := u64 (x + w) in
        let '(l', w) := add_word_loop l' (if w >? x' then 1 else 0) in (x' :: l', w)
  | [] => ([], w)
  end.

Fixpoint sub_word_loop (l : list Z) (w : Z) (i : nat) : list Z * nat :=
  match l with
  | x :: l' =>
      if x >=? w then (u64 (x - w) :: l', i)
      else let '(l', i) := sub_word_loop l' 1 (S i) in (u64 (x - w) :: l', i)
  | [] => ([], i)
  end.

(** The two functions call each other with a number that is not negative:
    [fuel] is the depth of the calls. *)
Fixpoint BN_add_sub_word (fuel : nat) (sub_ : bool) (a : ptr) (w : Z) : M unit :=
  match fuel with
  | O => st_fail
  | S fuel =>
      if w =? 0 then st_ret tt
      else
        v <-- get a ;;
        if sub_ then
          if BN_is_zero v then
            BN_set_word a w ;;;
            BN_set_negative a true
          else if neg v then
            upd a (with_neg false) ;;;
            fun s =>
              let '(i, s) := BN_add_sub_word fuel false a w s in
              let '(_, s) := upd a (with_neg true) s in (i, s)
          else if (bn_minimal_width v =? 1)%nat && (d v !!! 0%nat <? w) then
            upd a (fun v => with_neg true (with_d (put 0 [u64 (w - d v !!! 0%nat)] (d v)) v))
          else
            let '(l, i) := sub_word_loop (d v) w 0 in
            upd a (with_d l) ;;;
            if (l !!! i =? 0) && (i =? width v - 1)%nat then upd a (fun v => with_width (width v - 1) v) else st_ret tt
        else
          if BN_is_zero v then BN_set_word a w
          else if neg v then
            upd a (with_neg false) ;;;
            fun s =>
              let '(i, s) := BN_add_sub_word fuel true a w s in
              if BN_is_zero (objs s a) then (i, s)
              else let '(_, s) := upd a (fun v => with_neg (negb (neg v)) v) s in (i, s)
          else
            let '(l, w) := add_word_loop (words v) w in
            put_words a 0 l ;;;
            if negb (w =? 0) then
              bn_wexpand a (Z.of_nat (width v) + 1) ;;;
              upd a (fun v => with_width (width v + 1) v) ;;;
              put_words a (width v) [w]
            else st_ret tt
  end.

Definition BN_add_word (a : ptr) (w : Z) : M unit := BN_add_sub_word 2 false a w.
Definition BN_sub_word (a : ptr) (w : Z) : M unit := BN_add_sub_word 2 true a w.

(** * [shift.c] *)

(** The loop of [BN_lshift] from [i - 1] down, with the words [f] of [a] and [t]
    of [r] in one array if they are the same object. *)
Fixpoint lshift_loop (r a : ptr) (nw : nat) (lb rb : Z) (i : nat) : M unit :=
  match i with
  | O => st_ret tt
  | S i =>
      f <-- get a ;;
      (if lb =? 0 then put_words r (nw + i) [d f !!! i]
       else
         let l := d f !!! i in
         t <-- get r ;;
         put_words r (nw + i + 1) [Z.lor (d t !!! (nw + i + 1)%nat) (Z.shiftr l rb)] ;;;
         put_words r (nw + i) [u64 (Z.shiftl l lb)]) ;;;
      lshift_loop r a nw lb rb i
  end.

Definition BN_lshift (r a : ptr) (n : Z) : M unit :=
  st_guard (negb (n <? 0)) ;;;
  va <-- get a ;;
  upd r (with_neg (neg va)) ;;;
  let nw := Z.to_nat (n / BN_BITS2) in
  bn_wexpand r (Z.of_nat (width va) + Z.of_nat nw + 1) ;;;
  let lb := n mod BN_BITS2 in
  let rb := BN_BITS2 - lb in
  put_words r (width va + nw) [0] ;;;
  lshift_loop r a nw lb rb (width va) ;;;
  put_words r 0 (replicate nw 0) ;;;
  upd r (with_width (width va + nw + 1)) ;;;
  bn_set_minimal_width r.

(** [*(rp++) = (t << 1) | c; c = t >> 63;] *)
Fixpoint lshift1_words (l : list Z) (c : Z) : list Z * Z :=
  match l with
  | t :: l =>
      let '(r, c') := lshift1_words l (Z.shiftr t (BN_BITS2 - 1)) in (Z.lor (u64 (Z.shiftl t 1)) c :: r, c')
  | [] => ([], c)
  end.

Definition BN_lshift1 (r a : ptr) : M unit :=
  va <-- get a ;;
  (if negb (r =? a) then
     upd r (with_neg (neg va)) ;;;
     bn_wexpand r (Z.of_nat (width va) + 1) ;;;
     upd r (with_width (width va))
   else bn_wexpand r (Z.of_nat (width va) + 1)) ;;;
  va <-- get a ;;
  let '(l, c) := lshift1_words (words va) 0 in
  put_words r 0 l ;;;
  if negb (c =? 0) then
    put_words r (width va) [1] ;;;
    upd r (fun v => with_width (width v + 1) v)
  else st_ret tt.

Definition BN_rshift (r a : ptr) (n : Z) : M unit :=
  st_guard (negb (n <? 0)) ;;;
  va <-- get a ;;
  bn_wexpand r (Z.of_nat (width va)) ;;;
  va <-- get a ;;
  put_words r 0 (bn_rshift_words (words va) n) ;;;
  upd r (fun v => with_width (width va) (with_neg (neg va) v)) ;;;
  bn_set_minimal_width r.

(** The loop over the bits of the shift; [tmp->d] is not read before it is
    written. *)
Fixpoint rshift_secret_loop (fuel : nat) (r tmp : ptr) (n max_bits : Z) (i : Z) : M unit :=
  match fuel with
  | O => st_fail
  | S fuel =>
      if Z.shiftr max_bits i =? 0 then st_ret tt
      else
        let mask := u64 (0 - Z.land (Z.shiftr n i) 1) in
        v <-- get r ;;
        put_words tmp 0 (bn_rshift_words (words v) (u32 (Z.shiftl 1 i))) ;;;
        t <-- get tmp ;;
        put_words r 0 (bn_select_words mask (take (width v) (d t)) (words v)) ;;;
        rshift_secret_loop fuel r tmp n max_bits (i + 1)
  end.

(** [unsigned] has 32 bits. *)
Definition bn_rshift_secret_shift (r a : ptr) (n : Z) : M unit :=
  with_ctx (
    tmp <-- BN_CTX_get ;;
    BN_copy r a ;;;
    v <-- get r ;;
    bn_wexpand tmp (Z.of_nat (width v)) ;;;
    v <-- get r ;;
    rshift_secret_loop 33 r tmp n (u32 (BN_BITS2 * Z.of_nat (width v))) 0).

Definition BN_rshift1 (r a : ptr) : M unit :=
  va <-- get a ;;
  bn_wexpand r (Z.of_nat (width va)) ;;;
  va <-- get a ;;
  put_words r 0 (bn_rshift1_words (words va)) ;;;
  upd r (fun v => with_neg (neg va) (with_width (width va) v)) ;;;
  bn_set_minimal_width r.

Definition BN_set_bit (a : ptr) (n : Z) : M unit :=
  st_guard (negb (n <? 0)) ;;;
  let i := Z.to_nat (n / BN_BITS2) in
  let j := n mod BN_BITS2 in
  v <-- get a ;;
  (if (width v <=? i)%nat then
     bn_wexpand a (Z.of_nat i + 1) ;;;
     put_words a (width v) (replicate (i + 1 - width v) 0) ;;;
     upd a (with_width (i + 1))
   else st_ret tt) ;;;
  upd a (fun v => with_d (put i [Z.lor (d v !!! i) (u64 (Z.shiftl 1 j))] (d v)) v).

Definition BN_clear_bit (a : ptr) (n : Z) : M unit :=
  st_guard (negb (n <? 0)) ;;;
  let i := Z.to_nat (n / BN_BITS2) in
  let j := n mod BN_BITS2 in
  v <-- get a ;;
  st_guard (negb (width v <=? i)%nat) ;;;
  upd a (fun v => with_d (put i [Z.land (d v !!! i) (u64 (Z.lnot (u64 (Z.shiftl 1 j))))] (d v)) v) ;;;
  bn_set_minimal_width a.

Definition BN_mask_bits (a : ptr) (n : Z) : M unit :=
  st_guard (negb (n <? 0)) ;;;
  let w := Z.to_nat (n / BN_BITS2) in
  let b := n mod BN_BITS2 in
  v <-- get a ;;
  if (width v <=? w)%nat then st_ret tt
  else
    (if b =? 0 then upd a (with_width w)
     else
       upd a (with_width (w + 1)) ;;;
       upd a (fun v => with_d (put w [Z.land (d v !!! w) (u64 (Z.lnot (u64 (Z.shiftl BN_MASK2 b))))] (d v)) v)) ;;;
    bn_set_minimal_width a.

(** * [bytes.c] *)

(** [None] for [ret] is NULL; the object that was made is freed on failure. *)
Definition or_new (ret : option ptr) (m : ptr -> M unit) : M ptr :=
  match ret with
  | Some ret => m ret ;;; st_ret ret
  | None =>
      bn <-- BN_new ;;
      fun s =>
        match m bn s with
        | (Some _, s) => (Some bn, s)
        | (None, s) => (BN_free (Some bn) ;;; st_fail) s
        end
  end.

Definition BN_bin2bn (inp : bytes) (ret : option ptr) : M ptr :=
  or_new ret (fun ret =>
    if (length inp =? 0)%nat then upd ret (with_width 0)
    else
      let num_words := ((length inp - 1) / 8 + 1)%nat in
      bn_wexpand ret (Z.of_nat num_words) ;;;
      upd ret (fun b => with_neg false (with_width num_words b)) ;;;
      match bn_big_endian_to_words num_words inp with
      | Some l => put_words ret 0 l
      | None => st_fail
      end).

(** [OPENSSL_memcpy(ret->d, in, len)] after the last word has been cleared. *)
Definition BN_lebin2bn (inp : bytes) (ret : option ptr) : M ptr :=
  or_new ret (fun ret =>
    if (length inp =? 0)%nat then upd ret (fun b => with_neg false (with_width 0 b))
    else
      let num_words := ((length inp - 1) / 8 + 1)%nat in
      bn_wexpand ret (Z.of_nat num_words) ;;;
      upd ret (with_width num_words) ;;;
      put_words ret (num_words - 1) [0] ;;;
      upd ret (fun b => with_d (words_of_bytes (put 0 inp (word_bytes (d b)))) b)).
Definition BN_le2bn (inp : bytes) (ret : option ptr) : M ptr := BN_lebin2bn inp ret.

End bn.
