(* ===== verification/BnSpec.v ===== *)
(** The operations of [Bn.v] compute with integers, whatever objects their
    arguments share and whatever widths the numbers are stored with. *)
From S2P Require Import Prelude Mem ConstTime Stack BnWords BnMul BnMulSpec Bn.

(** * Values *)

Definition bn_abs (b : BIGNUM) : Z := wval (words b).
Definition bn_val (b : BIGNUM) : Z := if neg b then - bn_abs b else bn_abs b.

(** What every object satisfies; the maximum is what [bn_wexpand] grants, and
    nothing is said of the words that are not in use. *)
Definition bn_ok (b : BIGNUM) : Prop :=
  words_ok (words b) /\ (width b <= length (d b))%nat /\ Zlen (d b) <= BN_MAX_WORDS.

(** No zero on top; then also no negative zero. *)
Definition bn_minimal (b : BIGNUM) : Prop := bn_minimal_width b = width b /\ (width b = 0%nat -> neg b = false).

Lemma BN_MAX_WORDS_eq : BN_MAX_WORDS = 2 ^ 23 - 1.
Proof. done. Qed.

Lemma words_ok_words b : bn_ok b -> words_ok (words b).
Proof. by intros (Hw & _ & _). Qed.
#[export] Hint Resolve words_ok_words : words.

Lemma words_ok_prefix b n : bn_ok b -> (n <= width b)%nat -> words_ok (take n (d b)).
Proof.
  intros (Hw & _ & _) Hn. unfold words in Hw. replace (take n (d b)) with (take n (take (width b) (d b)))
    by (rewrite take_take; f_equal; lia). auto with words.
Qed.

Lemma words_ok_part b off n : bn_ok b -> (off + n <= width b)%nat -> words_ok (sub off n (d b)).
Proof.
  intros Hb Hn. apply (words_ok_prefix b (off + n)) in Hb as Hw; [|done]. unfold sub.
  rewrite <- (take_drop_take _ off n (off + n)) by lia. auto with words.
Qed.

Lemma length_words b : bn_ok b -> length (words b) = width b.
Proof. intros (_ & Hw & _). unfold words. rewrite length_take. lia. Qed.

Lemma bn_abs_bound b : bn_ok b -> 0 <= bn_abs b < wbase (width b).
Proof. intros Hb. unfold bn_abs. rewrite <- (length_words b Hb). apply wval_bound. by apply words_ok_words. Qed.

Lemma bn_ok_init : bn_ok BN_init.
Proof. split_and!; [constructor|simpl; lia|done]. Qed.

Lemma bn_ok_width b : bn_ok b -> Z.of_nat (width b) <= BN_MAX_WORDS.
Proof. intros (_ & Hw & Hd). unfold Zlen in Hd. lia. Qed.

(** The last words are zero when the value fits without them. *)
Lemma wval_fits n l : words_ok l -> (wval (drop n l) =? 0) = (wval l <? wbase n).
Proof.
  intros Hl. pose proof (wval_nonneg (drop n l) ltac:(auto with words)) as Hd. pose proof (wbase_pos n).
  pose proof (wval_bound (take n l) ltac:(auto with words)) as Ht. rewrite length_take in Ht.
  pose proof (wval_take_drop n l) as Hv. apply eq_iff_eq_true. rewrite Z.eqb_eq, Z.ltb_lt.
  destruct (decide (n <= length l)%nat).
  - rewrite Nat.min_l in * by done. nia.
  - rewrite Nat.min_r in * by lia. pose proof (wbase_le (length l) n ltac:(lia)).
    rewrite drop_ge by lia. rewrite drop_ge in Hv by lia. simpl. rewrite wval_nil in Hv. lia.
Qed.

Lemma bn_fits_in_words_spec b n : bn_ok b -> bn_fits_in_words b n = (bn_abs b <? wbase n).
Proof.
  intros Hb. unfold bn_fits_in_words. rewrite or_words_eqb by auto with words. apply wval_fits. auto with words.
Qed.

Lemma BN_is_zero_spec b : bn_ok b -> BN_is_zero b = (bn_val b =? 0).
Proof.
  intros Hb. unfold BN_is_zero. rewrite bn_fits_in_words_spec by done. pose proof (bn_abs_bound b Hb).
  change (wbase 0) with 1. unfold bn_val. destruct (neg b); apply eq_iff_eq_true; rewrite Z.eqb_eq, Z.ltb_lt; lia.
Qed.

Lemma drop_zeros_split l : exists k, l = replicate k 0 ++ drop_zeros l.
Proof.
  induction l as [|x l [k Hk]]; [by exists 0%nat|]. cbn [drop_zeros].
  destruct (Z.eqb_spec x 0) as [->|]; [exists (S k); simpl; by rewrite <- Hk|by exists 0%nat].
Qed.

Lemma drop_zeros_head l x r : drop_zeros l = x :: r -> x <> 0.
Proof. induction l as [|y l IH]; [done|]. cbn [drop_zeros]. destruct (Z.eqb_spec y 0); [done|]. by intros [= <- _]. Qed.

Lemma rev_zeros k : rev (replicate k 0) = replicate k 0.
Proof. rewrite rev_alt. apply reverse_replicate. Qed.

(** [bn_minimal_width] is the number of words the value needs. *)
Lemma words_minimal b : exists k, words b = take (bn_minimal_width b) (words b) ++ replicate k 0 /\
  (bn_minimal_width b + k = length (words b))%nat.
Proof.
  unfold bn_minimal_width. destruct (drop_zeros_split (rev (words b))) as [k Hk]. exists k.
  assert (words b = rev (drop_zeros (rev (words b))) ++ replicate k 0) as E.
  { rewrite <- (rev_involutive (words b)) at 1. rewrite Hk at 1. rewrite rev_app_distr. f_equal. apply rev_zeros. }
  set (m := rev (drop_zeros (rev (words b)))) in *. assert (length (drop_zeros (rev (words b))) = length m) as -> by (unfold m; by rewrite length_rev).
  rewrite E at 2. rewrite take_app_length. split; [done|]. rewrite E, length_app, length_replicate. lia.
Qed.

Lemma minimal_width_le b : bn_ok b -> (bn_minimal_width b <= width b)%nat.
Proof. intros Hb. destruct (words_minimal b) as (k & _ & Hl). rewrite length_words in Hl by done. lia. Qed.

Lemma minimal_words b : bn_ok b -> take (bn_minimal_width b) (d b) = take (bn_minimal_width b) (words b).
Proof. intros Hb. pose proof (minimal_width_le b Hb). unfold words. rewrite take_take. f_equal. lia. Qed.

Lemma drop_zeros_idem l : drop_zeros (drop_zeros l) = drop_zeros l.
Proof.
  induction l as [|x l IH]; [done|]. cbn [drop_zeros]. destruct (x =? 0) eqn:E; [done|]. cbn [drop_zeros]. by rewrite E.
Qed.

Lemma minimal_width_again b n f g : bn_ok b ->
  bn_minimal_width (Bignum (d b) (bn_minimal_width b) n f g) = bn_minimal_width b.
Proof.
  intros Hb. unfold bn_minimal_width at 1. unfold words. cbn [width d]. rewrite minimal_words by done.
  unfold bn_minimal_width. set (l := words b). destruct (drop_zeros_split (rev l)) as [j Hj].
  assert (l = rev (drop_zeros (rev l)) ++ replicate j 0) as E.
  { rewrite <- (rev_involutive l) at 1. rewrite Hj at 1. by rewrite rev_app_distr, rev_zeros. }
  rewrite E at 2. rewrite take_app_length' by (by rewrite length_rev). by rewrite rev_involutive, drop_zeros_idem.
Qed.

Lemma minimal_abs b : bn_ok b -> wval (take (bn_minimal_width b) (d b)) = bn_abs b.
Proof.
  intros Hb. rewrite minimal_words by done. unfold bn_abs. destruct (words_minimal b) as (k & E & _).
  rewrite E at 2. rewrite wval_app, wval_replicate_0. lia.
Qed.

Lemma minimal_top b : bn_ok b -> (0 < bn_minimal_width b)%nat -> 0 < d b !!! (bn_minimal_width b - 1)%nat < 2 ^ 64.
Proof.
  intros Hb Hw. pose proof (minimal_width_le b Hb). destruct Hb as (Hd & Hwd & _).
  destruct (drop_zeros_split (rev (words b))) as [k Hk].
  unfold bn_minimal_width in *. destruct (drop_zeros (rev (words b))) as [|x r] eqn:E; [simpl in Hw; lia|].
  pose proof (drop_zeros_head _ _ _ E) as Hx. cbn [length] in *.
  assert (words b = rev r ++ x :: replicate k 0) as Ew.
  { rewrite <- (rev_involutive (words b)), Hk, rev_app_distr. cbn [rev]. rewrite rev_zeros, <- app_assoc. done. }
  assert (words b !! length r = Some x) as Hl.
  { rewrite Ew, lookup_app_r by (rewrite length_rev; lia). by rewrite length_rev, Nat.sub_diag. }
  assert (d b !! length r = Some x) as Hl2 by (unfold words in Hl; by rewrite lookup_take_lt in Hl by lia).
  replace (S (length r) - 1)%nat with (length r) by lia. rewrite (list_lookup_total_correct _ _ _ Hl2).
  pose proof (Forall_lookup_1 _ _ _ _ Hd Hl) as Hxw. unfold word in Hxw. lia.
Qed.

Lemma minimal_width_0 b : bn_ok b -> bn_minimal_width b = 0%nat <-> bn_abs b = 0.
Proof.
  intros Hb. pose proof (minimal_abs b Hb) as Ha. split.
  - intros E. rewrite E in Ha. by rewrite take_0 in Ha.
  - intros E. destruct (bn_minimal_width b) as [|w] eqn:Ew; [done|exfalso].
    pose proof (minimal_top b Hb ltac:(lia)) as Ht. pose proof (minimal_width_le b Hb).
    pose proof (words_ok_prefix b (S w) Hb ltac:(lia)) as Hd. assert (width b <= length (d b))%nat by apply Hb.
    rewrite Ew in Ht. replace (S w - 1)%nat with w in Ht by lia. rewrite E in Ha.
    apply wval_zero_iff in Ha; [|done].
    assert (take (S w) (d b) !! w = Some (d b !!! w)) as Hl.
    { rewrite lookup_take_lt by lia. apply list_lookup_lookup_total_lt. lia. }
    pose proof (Forall_lookup_1 _ _ _ _ Ha Hl). simpl in *. lia.
Qed.

(** ** Comparisons *)

Lemma BN_ucmp_spec a b : bn_ok a -> bn_ok b -> BN_ucmp a b = cmp_val (bn_abs a) (bn_abs b).
Proof. intros Ha Hb. apply bn_cmp_words_consttime_spec; auto with words. Qed.

(** No negative zero. *)
Definition bn_signed (b : BIGNUM) : Prop := neg b = true -> bn_abs b <> 0.

Lemma bn_minimal_signed b : bn_ok b -> bn_minimal b -> bn_signed b.
Proof.
  intros Hb [Hm Hn] Hneg Hz. apply (minimal_width_0 b Hb) in Hz. rewrite Hm in Hz. rewrite Hn in Hneg by done. done.
Qed.

Lemma BN_cmp_val a b : bn_ok a -> bn_ok b -> bn_signed a -> bn_signed b ->
  BN_cmp (Some a) (Some b) = cmp_val (bn_val a) (bn_val b).
Proof.
  intros Ha Hb Hsa Hsb. unfold BN_cmp, bn_val, bn_signed in *. rewrite BN_ucmp_spec by done.
  pose proof (bn_abs_bound a Ha). pose proof (bn_abs_bound b Hb).
  destruct (neg a), (neg b); cbn [eqb negb]; unfold cmp_val.
  - destruct (Z.ltb_spec (bn_abs a) (bn_abs b)), (Z.eqb_spec (bn_abs a) (bn_abs b)),
      (Z.ltb_spec (- bn_abs a) (- bn_abs b)), (Z.eqb_spec (- bn_abs a) (- bn_abs b)); lia.
  - specialize (Hsa eq_refl). by rewrite (proj2 (Z.ltb_lt _ _)) by lia.
  - specialize (Hsb eq_refl). by rewrite (proj2 (Z.ltb_ge _ _)), (proj2 (Z.eqb_neq _ _)) by lia.
  - done.
Qed.

(** * Hoare triples *)

(** The state after [upd]. *)
Definition updated {H} (s : bn_state H) (p : ptr) (f : BIGNUM -> BIGNUM) : bn_state H :=
  BnState (put_obj (objs s) p (f (objs s p))) (next_ptr s) (ctx s) (mem s).

Lemma objs_updated_same {H} (s : bn_state H) p f : objs (updated s p f) p = f (objs s p).
Proof. cbn. unfold put_obj. by rewrite Z.eqb_refl. Qed.

Lemma objs_updated_other {H} (s : bn_state H) p f q : q <> p -> objs (updated s p f) q = objs s q.
Proof. intros Hq. cbn. unfold put_obj. by rewrite (proj2 (Z.eqb_neq _ _)). Qed.

Section triples.
Context {H : Type} `{Malloc H}.
Implicit Types s : bn_state H.

Lemma ensures_get {A} e p (k : BIGNUM -> ST (bn_state H) A) s Q :
  ensures e (k (objs s p)) s Q -> ensures e (st_bind (get p) k) s Q.
Proof. done. Qed.

Lemma ensures_upd_bind {A} e p f (k : unit -> ST (bn_state H) A) s Q :
  ensures e (k tt) (updated s p f) Q -> ensures e (st_bind (upd p f) k) s Q.
Proof. done. Qed.

Lemma ensures_upd (e : Prop) p f s Q : Q tt (updated s p f) -> ensures e (upd p f) s Q.
Proof. done. Qed.

Lemma ensures_guard {A} (e : Prop) (c : bool) (k : unit -> ST (bn_state H) A) s Q :
  (c = false -> e) -> (c = true -> ensures e (k tt) s Q) -> ensures e (st_bind (st_guard c) k) s Q.
Proof. intros He Hk. destruct c; [exact (Hk eq_refl)|exact (He eq_refl)]. Qed.

Lemma ensures_weaken {A} (e e' : Prop) (m : ST (bn_state H) A) s Q :
  ensures e m s Q -> (e -> e') -> ensures e' m s Q.
Proof. unfold ensures. destruct (m s) as [[|] ?]; auto. Qed.

(** [ret = m; r->... = ...; return ret;] *)
Lemma ensures_then_upd {A} e (m : ST (bn_state H) A) r f s (Q Q' : A -> bn_state H -> Prop) :
  ensures e m s Q -> (forall a s', Q a s' -> Q' a (updated s' r f)) ->
  ensures e (fun s => let '(ret, s) := m s in let '(_, s) := upd r f s in (ret, s)) s Q'.
Proof. unfold ensures. intros Hm Hq. destruct (m s) as [[a|] s']; [apply (Hq a s' Hm)|done]. Qed.

(** Only the object [r] has changed; what is allocated may have. *)
Definition frame (r : ptr) s s' : Prop :=
  (forall q, q <> r -> objs s' q = objs s q) /\ next_ptr s' = next_ptr s /\ ctx s' = ctx s.

Lemma frame_refl r s : frame r s s.
Proof. done. Qed.
Lemma frame_trans r s1 s2 s3 : frame r s1 s2 -> frame r s2 s3 -> frame r s1 s3.
Proof.
  intros (H1 & H2 & H3) (K1 & K2 & K3). split_and!; [|congruence..]. intros q Hq. by rewrite K1, H1.
Qed.
Lemma frame_updated r s f : frame r s (updated s r f).
Proof. split_and!; [|done..]. intros q Hq. by apply objs_updated_other. Qed.
Lemma frame_step r s1 s2 f : frame r s1 s2 -> frame r s1 (updated s2 r f).
Proof. intros. eapply frame_trans; [done|apply frame_updated]. Qed.
End triples.
#[export] Hint Resolve frame_refl frame_updated frame_step : core.

(** [bn_wexpand] refuses: there is not enough room, and there cannot be, the
    words are not the object's own, or there is no memory. *)
Definition wexpand_refused {H} `{Malloc H} (b : BIGNUM) (n : Z) (h : H) : Prop :=
  Zlen (d b) < n /\ (BN_MAX_WORDS < n \/ flag_static_data b = true \/ fst (OPENSSL_calloc n 8 h) = None).

Section specs.
Context {H : Type} `{Malloc H}.
Implicit Types s : bn_state H.

(** An object with more room: the words in use and the sign are the same. *)
Definition grown (b b' : BIGNUM) (n : Z) : Prop :=
  bn_ok b' /\ n <= Zlen (d b') /\ (length (d b) <= length (d b'))%nat /\
  width b' = width b /\ neg b' = neg b /\ words b' = words b /\
  flag_static_data b' = flag_static_data b /\ flag_malloced b' = flag_malloced b.

Lemma bn_wexpand_spec r n s : bn_ok (objs s r) -> 0 <= n ->
  ensures (wexpand_refused (objs s r) n (mem s)) (bn_wexpand r n) s
    (fun _ s' => frame r s s' /\ grown (objs s r) (objs s' r) n).
Proof.
  intros Hb Hn. unfold bn_wexpand. apply ensures_get. set (b := objs s r) in *.
  destruct (Z.leb_spec n (Zlen (d b))) as [Hle|Hgt].
  { apply ensures_ret. split; [done|]. fold b. by split_and!. }
  destruct (Z.gtb_spec n BN_MAX_WORDS) as [Hmax|Hmax]; [unfold ensures, wexpand_refused; simpl; tauto|].
  destruct (flag_static_data b) eqn:Hst; [unfold ensures, wexpand_refused; simpl; tauto|].
  unfold ensures, st_bind, lift. destruct (OPENSSL_calloc n 8 (mem s)) as [[z|] h] eqn:Ec; cbn [upd].
  2: { unfold wexpand_refused. rewrite Ec. cbn [fst]. tauto. }
  destruct Hb as (Hd & Hw & Hm). unfold Zlen in *. cbn [objs]. fold b.
  set (s1 := BnState (objs s) (next_ptr s) (ctx s) h). 
  set (b' := take (width b) (d b) ++ _). change (ensures (A := unit) False (upd r (with_d b')) s1 (fun _ s' => frame r s s' /\ grown b (objs s' r) n)).
  apply ensures_upd. subst b'.
  split.
  { split_and!; [|done..]. intros q Hq. by rewrite objs_updated_other. }
  rewrite objs_updated_same. change (objs s1 r) with b.
  assert (length (take (width b) (d b) ++ replicate (Z.to_nat n - width b) 0) = Z.to_nat n) as Hl.
  { rewrite length_app, length_take, length_replicate. lia. }
  assert (words (with_d (take (width b) (d b) ++ replicate (Z.to_nat n - width b) 0) b) = words b) as Ew.
  { unfold words, with_d. cbn. rewrite take_app_le by (rewrite length_take; lia). by rewrite take_take, Nat.min_id. }
  split_and!; [|cbn; unfold Zlen; lia|cbn; lia|done|done| |done|done].
  - split; [by rewrite Ew|]. split; [cbn; lia|cbn; unfold Zlen; lia].
  - exact Ew.
Qed.

(** The start of every array is the same after [bn_wexpand], also with another
    width. *)
Lemma grown_prefix r n s s' q k : frame r s s' -> grown (objs s r) (objs s' r) n -> (k <= width (objs s q))%nat ->
  take k (d (objs s' q)) = take k (d (objs s q)).
Proof.
  intros (Hf & _) (_ & _ & _ & Hw & _ & Hg & _) Hk. destruct (decide (q = r)) as [->|Hq]; [|by rewrite Hf].
  unfold words in Hg. rewrite Hw in Hg. apply (f_equal (take k)) in Hg. rewrite !take_take, !Nat.min_l in Hg by done. done.
Qed.

Lemma d_updated_width r w s q : d (objs (updated s r (with_width w)) q) = d (objs s q).
Proof. destruct (decide (q = r)) as [->|Hq]; [by rewrite objs_updated_same|by rewrite objs_updated_other]. Qed.

Definition put_d (off : nat) (ws : list Z) (b : BIGNUM) : BIGNUM := with_d (put off ws (d b)) b.

(** What has not been written. *)
Lemma sub_after_put r off ws off' n s q : (off + length ws <= off')%nat -> (off + length ws <= length (d (objs s r)))%nat ->
  sub off' n (d (objs (updated s r (put_d off ws)) q)) = sub off' n (d (objs s q)).
Proof.
  intros H1 H2. destruct (decide (q = r)) as [->|Hq]; [|by rewrite objs_updated_other].
  rewrite objs_updated_same. apply sub_put_right; done.
Qed.

Lemma take_sub n k (l1 l2 : list Z) : take (n + k) l1 = take (n + k) l2 -> sub n k l1 = sub n k l2.
Proof. intros E. unfold sub. rewrite <- (take_drop_take l1 n k (n + k)), E by lia. by apply take_drop_take. Qed.

(** The rest of a sum or difference, with [sg] the sign of the carry. *)
Lemma extend_words_spec step (sg : Z) a min max c :
  (forall x y c, word x -> word y -> bit c -> let r := step x y c in
     word r.1 /\ bit r.2 /\ r.1 + sg * (2 ^ 64 * r.2) = 1 * x + sg * y + sg * c) ->
  (min <= max)%nat -> (max <= length a)%nat -> words_ok (sub min (max - min) a) -> bit c ->
  let '(l, c') := extend_words step a min max c in
  length l = (max - min)%nat /\ words_ok l /\ bit c' /\
  wval l + sg * (wbase (max - min) * c') = wval (sub min (max - min) a) + sg * c.
Proof.
  intros Hstep Hmin Hmax Ha Hc. unfold extend_words.
  assert (length (sub min (max - min) a) = (max - min)%nat) as Hl by (apply length_sub; lia).
  pose proof (while1_value step bit 1 sg sg (sub min (max - min) a) (replicate (max - min) 0) c Hstep
    ltac:(rewrite length_replicate; lia) Ha ltac:(auto with words) Hc) as Hv.
  destruct (while1 _ _ _ _) as [l c']. rewrite wval_replicate_0, Hl in Hv. destruct Hv as (? & ? & ? & ?).
  split_and!; [lia|done|done|lia].
Qed.

Lemma put_two l w1 w2 : (length w1 + length w2 <= length l)%nat ->
  put (length w1) w2 (put 0 w1 l) = w1 ++ w2 ++ drop (length w1 + length w2) l.
Proof.
  intros Hl. destruct (split_at (length w1) l ltac:(lia)) as (l1 & l2 & -> & H1). rewrite length_app in Hl.
  destruct (split_at (length w2) l2 ltac:(lia)) as (l3 & l4 & -> & H3).
  rewrite put_at0, put_at by done. do 2 f_equal. rewrite app_assoc.
  rewrite <- H1, <- H3, <- length_app. symmetry. apply drop_app_length.
Qed.

Lemma wval_split min max a : (min <= max)%nat -> (max <= length a)%nat ->
  wval (take max a) = wval (take min a) + wbase min * wval (sub min (max - min) a).
Proof. intros. rewrite <- (wval_two_parts min (max - min)) by lia. do 2 f_equal. lia. Qed.

Lemma wbase_split min max : (min <= max)%nat -> wbase max = wbase min * wbase (max - min).
Proof. intros. rewrite <- wbase_add. f_equal. lia. Qed.

(** ** Widths *)

Lemma bn_set_minimal_width_spec r s : bn_ok (objs s r) ->
  ensures False (bn_set_minimal_width r) s (fun _ s' => frame r s s' /\
    let b := objs s r in let b' := objs s' r in
    bn_ok b' /\ bn_minimal b' /\ bn_abs b' = bn_abs b /\ d b' = d b /\
    neg b' = (if bn_abs b =? 0 then false else neg b) /\
    flag_static_data b' = flag_static_data b /\ flag_malloced b' = flag_malloced b).
Proof.
  intros Hb. unfold bn_set_minimal_width. apply ensures_get, ensures_upd. split; [done|]. rewrite objs_updated_same.
  set (b := objs s r) in *. cbv zeta. pose proof (minimal_abs b Hb) as Ha. pose proof (minimal_width_le b Hb).
  pose proof (minimal_width_0 b Hb) as Hz0.
  assert (forall n, bn_minimal_width (Bignum (d b) (bn_minimal_width b) n (flag_malloced b) (flag_static_data b)) = bn_minimal_width b)
    as Hm by (intros; by apply minimal_width_again).
  assert (words_ok (take (bn_minimal_width b) (d b))) as Hwm by (by apply words_ok_prefix).
  destruct Hb as (Hd & Hw & Hx). unfold bn_minimal, bn_ok, with_neg, with_width. cbn [d width neg flag_malloced flag_static_data].
  destruct (Nat.eqb_spec (bn_minimal_width b) 0) as [E|E]; cbn [d width neg flag_malloced flag_static_data].
  - rewrite (proj2 (Z.eqb_eq _ _) (proj1 Hz0 E)). split_and!; first [done | lia | apply Hm | exact Ha | by intros | exact Hwm].
  - rewrite (proj2 (Z.eqb_neq _ _)) by tauto. split_and!; first [done | lia | apply Hm | exact Ha | by intros | exact Hwm].
Qed.

(** ** Sums and differences of absolute values *)

(** The result of an operation that writes into [r]. *)
Definition written (r : ptr) s s' : Prop :=
  frame r s s' /\ bn_ok (objs s' r) /\ flag_static_data (objs s' r) = flag_static_data (objs s r) /\
  flag_malloced (objs s' r) = flag_malloced (objs s r).

Lemma objs_written b l w : words (Bignum l w (neg b) (flag_malloced b) (flag_static_data b)) = take w l.
Proof. done. Qed.

(** Words that have been written one after the other into a large enough array. *)
Lemma written_words r s s1 n w1 w2 w3 : frame r s s1 -> Zlen (d (objs s1 r)) <= BN_MAX_WORDS ->
  flag_static_data (objs s1 r) = flag_static_data (objs s r) -> flag_malloced (objs s1 r) = flag_malloced (objs s r) ->
  words_ok w1 -> words_ok w2 -> words_ok w3 -> n = (length w1 + length w2 + length w3)%nat -> (n <= length (d (objs s1 r)))%nat ->
  width (objs s1 r) = n ->
  let s2 := updated (updated (updated s1 r (put_d 0 w1)) r (put_d (length w1) w2)) r (put_d (length w1 + length w2) w3) in
  written r s s2 /\ words (objs s2 r) = w1 ++ w2 ++ w3 /\ neg (objs s2 r) = neg (objs s1 r).
Proof.
  intros Hf Hm Hst Hma H1 H2 H3 Hn Hl Hwn. cbv zeta. unfold written. rewrite !objs_updated_same.
  set (b := objs s1 r) in *. unfold put_d, with_d. cbn [d width neg flag_malloced flag_static_data].
  destruct (split_at (length w1 + length w2) (d b) ltac:(lia)) as (l1 & l2 & E & Hl1). rewrite E in Hl.
  destruct (split_at (length w3) l2 ltac:(rewrite length_app in Hl; lia)) as (l3 & l4 & -> & Hl3).
  rewrite E, put_two by (rewrite length_app; lia). rewrite <- Hl1, drop_app_length.
  rewrite (app_assoc w1), put_at by (rewrite ?length_app; lia).
  assert (length ((w1 ++ w2) ++ w3 ++ l4) = length (d b)) as Hlen by (rewrite E, !length_app; lia).
  assert (take (width b) ((w1 ++ w2) ++ w3 ++ l4) = w1 ++ w2 ++ w3) as Ew.
  { rewrite Hwn, (app_assoc w1 w2 w3), (app_assoc (w1 ++ w2) w3 l4).
    replace n with (length ((w1 ++ w2) ++ w3)) by (rewrite !length_app; lia). apply take_app_length. }
  split; [split; [auto|split; [|done]]|split; [|done]]; [|exact Ew].
  unfold bn_ok, words, Zlen in *. cbn [d width]. rewrite Hlen, Ew. split; [solve_words|split; [rewrite E, Hwn; exact Hl|exact Hm]].
Qed.

(** The longer of two operands. *)
Definition longer (va vb : BIGNUM) : nat := Nat.max (width va) (width vb).

Lemma bn_uadd_consttime_spec r a b s : bn_ok (objs s r) -> bn_ok (objs s a) -> bn_ok (objs s b) ->
  let n := (longer (objs s a) (objs s b) + 1)%nat in
  ensures (wexpand_refused (objs s r) (Z.of_nat n) (mem s)) (bn_uadd_consttime r a b) s (fun _ s' =>
    written r s s' /\ bn_abs (objs s' r) = bn_abs (objs s a) + bn_abs (objs s b) /\
    width (objs s' r) = n /\ neg (objs s' r) = neg (objs s r)).
Proof.
  intros Hr. unfold bn_uadd_consttime.
  assert (forall a b, bn_ok (objs s a) -> bn_ok (objs s b) -> (width (objs s b) <= width (objs s a))%nat ->
    let max := width (objs s a) in let min := width (objs s b) in
    ensures (wexpand_refused (objs s r) (Z.of_nat (max + 1)) (mem s))
      (bn_wexpand r (Z.of_nat max + 1) ;;;
       upd r (with_width (max + 1)) ;;;
       va <-- get a ;;
       vb <-- get b ;;
       let '(ws, carry) := bn_add_words (take min (d va)) (take min (d vb)) in
       put_words r 0 ws ;;;
       va <-- get a ;;
       let '(ws, carry) := extend_words CRYPTO_addc_w (d va) min max carry in
       put_words r min ws ;;;
       put_words r max [carry]) s
      (fun _ s' => written r s s' /\ bn_abs (objs s' r) = bn_abs (objs s a) + bn_abs (objs s b) /\
        width (objs s' r) = (max + 1)%nat /\ neg (objs s' r) = neg (objs s r))) as Hgen.
  { clear a b. intros a b Ha Hb Hlt max min. replace (Z.of_nat max + 1) with (Z.of_nat (max + 1)) by lia.
    eapply ensures_bind; [apply bn_wexpand_spec; [done|lia]|]. intros _ s1 [Hf Hg]. cbv beta.
    pose proof (fun q k => grown_prefix r _ s s1 q k Hf Hg) as Hpre.
    destruct Hg as ((Hd1 & Hw1 & Hm1) & Hn1 & _ & _ & Hneg1 & _ & Hst1 & Hma1). unfold Zlen in Hn1.
    apply ensures_upd_bind, ensures_get, ensures_get. rewrite !d_updated_width, !Hpre by done.
    set (s2 := updated s1 r (with_width (max + 1))).
    assert (objs s2 r = with_width (max + 1) (objs s1 r)) as Es2 by apply objs_updated_same.
    pose proof Ha as (Hda & Hwa & _). pose proof Hb as (Hdb & Hwb & _).
    pose proof (bn_add_words_spec (take min (d (objs s a))) (take min (d (objs s b)))
      ltac:(rewrite !length_take; lia) ltac:(by apply words_ok_prefix) ltac:(by apply words_ok_prefix)) as Hs.
    destruct (bn_add_words _ _) as [ws1 c1]. rewrite length_take, Nat.min_l in Hs by lia. destruct Hs as (Hl1 & Hws1 & Hc1 & Hv1).
    apply ensures_upd_bind, ensures_get. change (fun b0 : BIGNUM => with_d (put 0 ws1 (d b0)) b0) with (put_d 0 ws1).
    assert (length (d (objs s2 r)) = length (d (objs s1 r))) as Els2 by (by rewrite Es2).
    assert (sub min (max - min) (d (objs (updated s2 r (put_d 0 ws1)) a)) = sub min (max - min) (d (objs s a))) as Esub.
    { rewrite sub_after_put by (rewrite ?Els2; lia). unfold s2. rewrite d_updated_width. apply take_sub.
      replace (min + (max - min))%nat with max by lia. by apply Hpre. }
    pose proof (extend_words_spec CRYPTO_addc_w 1 (d (objs (updated s2 r (put_d 0 ws1)) a)) min max c1 addc_value Hlt) as Hx.
    rewrite Esub in Hx. assert (max <= length (d (objs (updated s2 r (put_d 0 ws1)) a)))%nat as Hmaxl.
    { destruct (decide (a = r)) as [->|Har].
      - rewrite objs_updated_same. unfold put_d, with_d. cbn [d]. rewrite length_put by (rewrite Els2; lia). rewrite Els2. lia.
      - rewrite objs_updated_other by done. unfold s2. rewrite d_updated_width. destruct Hf as [Hf _]. rewrite Hf by done. done. }
    specialize (Hx Hmaxl ltac:(apply words_ok_part; [done|lia]) Hc1). destruct (extend_words _ _ _ _ _) as [ws2 c2].
    destruct Hx as (Hl2 & Hws2 & Hc2 & Hv2). apply ensures_upd_bind, ensures_upd.
    change (fun b0 : BIGNUM => with_d (put min ws2 (d b0)) b0) with (put_d min ws2).
    change (fun b0 : BIGNUM => with_d (put max [c2] (d b0)) b0) with (put_d max [c2]).
    pose proof (written_words r s s2 (max + 1) ws1 ws2 [c2]) as Hw.
    cbv zeta in Hw. rewrite Hl1, Hl2 in Hw. replace (min + (max - min))%nat with max in Hw by lia. destruct Hw as (Hwr & Ew & En).
    - unfold s2. auto.
    - by rewrite Es2.
    - by rewrite Es2.
    - by rewrite Es2.
    - done.
    - done.
    - apply words_ok_cons. split; [unfold bit in *; unfold word; lia|auto with words].
    - simpl. lia.
    - rewrite Els2. lia.
    - by rewrite Es2.
    - split; [exact Hwr|split; [|split; [by rewrite !objs_updated_same, Es2|by rewrite En, Es2]]].
      unfold bn_abs at 1. rewrite Ew, !wval_app, wval_cons, wval_nil, Hl1, Hl2. unfold bn_abs, words. fold max min.
      rewrite (wval_split min max (d (objs s a))) by (done || lia). lia. }
  intros Ha Hb. cbv zeta. unfold longer. apply ensures_get, ensures_get.
  destruct (Nat.ltb_spec (width (objs s a)) (width (objs s b))).
  - rewrite Nat.max_r by lia. eapply ensures_mono; [apply Hgen; [done..|lia]|]. cbv beta. intros _ s' (Hw & -> & Hn & Hneg).
    split; [exact Hw|split; [lia|by split]].
  - rewrite Nat.max_l by lia. apply Hgen; done.
Qed.

Lemma wexpand_refused_mono b n m h : wexpand_refused b n h -> n = m -> wexpand_refused b m h.
Proof. by intros ? <-. Qed.

(** After [bn_set_minimal_width]. *)
Lemma minimized r s s1 s' (v : Z) sign : written r s s1 -> bn_abs (objs s1 r) = v -> neg (objs s1 r) = sign ->
  (frame r s1 s' /\ let b := objs s1 r in let b' := objs s' r in
    bn_ok b' /\ bn_minimal b' /\ bn_abs b' = bn_abs b /\ d b' = d b /\
    neg b' = (if bn_abs b =? 0 then false else neg b) /\
    flag_static_data b' = flag_static_data b /\ flag_malloced b' = flag_malloced b) ->
  written r s s' /\ bn_minimal (objs s' r) /\ bn_abs (objs s' r) = v /\ neg (objs s' r) = (if v =? 0 then false else sign).
Proof.
  cbv zeta. intros (Hf & _ & Hst & Hma) <- <- (Hf2 & Hok & Hmin & Hv & _ & Hn & Hst2 & Hma2).
  split; [split; [eapply frame_trans; eassumption|split; [done|split; congruence]]|].
  split; [done|]. by split.
Qed.

Lemma BN_uadd_spec r a b s : bn_ok (objs s r) -> bn_ok (objs s a) -> bn_ok (objs s b) ->
  ensures (wexpand_refused (objs s r) (Z.of_nat (longer (objs s a) (objs s b) + 1)) (mem s)) (BN_uadd r a b) s
    (fun _ s' => let v := bn_abs (objs s a) + bn_abs (objs s b) in
      written r s s' /\ bn_minimal (objs s' r) /\ bn_abs (objs s' r) = v /\
      neg (objs s' r) = (if v =? 0 then false else neg (objs s r))).
Proof.
  intros Hr Ha Hb. unfold BN_uadd. eapply ensures_bind; [by apply bn_uadd_consttime_spec|]. cbv beta.
  intros _ s1 (Hw & Hv & Hn & Hneg). pose proof Hw as (_ & Hok & _).
  apply (ensures_weaken False); [|done]. eapply ensures_mono; [by apply bn_set_minimal_width_spec|]. cbv beta.
  intros _ s' Hm. exact (minimized r s s1 s' _ _ Hw Hv Hneg Hm).
Qed.

Lemma words_after_put2 r s s1 w1 w2 n : frame r s s1 -> bn_ok (objs s1 r) ->
  flag_static_data (objs s1 r) = flag_static_data (objs s r) -> flag_malloced (objs s1 r) = flag_malloced (objs s r) ->
  words_ok w1 -> words_ok w2 -> n = (length w1 + length w2)%nat -> (n <= length (d (objs s1 r)))%nat ->
  let s2 := updated (updated (updated s1 r (put_d 0 w1)) r (put_d (length w1) w2)) r (fun b => with_neg false (with_width n b)) in
  written r s s2 /\ words (objs s2 r) = w1 ++ w2 /\ width (objs s2 r) = n /\ neg (objs s2 r) = false.
Proof.
  intros Hf (Hd & Hw & Hm) Hst Hma H1 H2 Hn Hl. cbv zeta. unfold written. rewrite !objs_updated_same.
  set (b := objs s1 r) in *. unfold put_d, with_d, with_neg, with_width. cbn [d width neg flag_malloced flag_static_data].
  rewrite put_two by lia.
  assert (length (w1 ++ w2 ++ drop (length w1 + length w2) (d b)) = length (d b)) as Hlen by (rewrite !length_app, length_drop; lia).
  assert (take n (w1 ++ w2 ++ drop (length w1 + length w2) (d b)) = w1 ++ w2) as Ew.
  { rewrite Hn, app_assoc, <- length_app. apply take_app_length. }
  split; [split; [auto|split; [|done]]|split; [|done]]; [|exact Ew].
  unfold bn_ok, words, Zlen in *. cbn [d width]. rewrite Hlen, Ew. split; [solve_words|lia].
Qed.

(** The width that is left of [b]. *)
Lemma usub_width va vb : bn_ok va -> bn_ok vb -> bn_abs vb < wbase (width va) ->
  let w := if (width va <? width vb)%nat then width va else width vb in
  (w <= width va)%nat /\ (w <= width vb)%nat /\ wval (take w (d vb)) = bn_abs vb.
Proof.
  intros Ha Hb Hlt. cbv zeta. destruct (Nat.ltb_spec (width va) (width vb)) as [Hl|Hl]; [|done].
  split; [done|]. split; [lia|]. pose proof (words_ok_words vb Hb) as Hw. pose proof (length_words vb Hb) as Hlw.
  replace (take (width va) (d vb)) with (take (width va) (words vb)) by (unfold words; rewrite take_take; f_equal; lia).
  rewrite wval_take by (done || lia). apply Z.mod_small. split; [|done]. apply bn_abs_bound, Hb.
Qed.

Lemma bn_usub_consttime_spec r a b s : bn_ok (objs s r) -> bn_ok (objs s a) -> bn_ok (objs s b) ->
  let va := objs s a in let vb := objs s b in
  ensures (wexpand_refused (objs s r) (Z.of_nat (width va)) (mem s) \/ bn_abs va < bn_abs vb)
    (bn_usub_consttime r a b) s (fun _ s' =>
      written r s s' /\ bn_abs vb <= bn_abs va /\ bn_abs (objs s' r) = bn_abs va - bn_abs vb /\
      width (objs s' r) = width va /\ neg (objs s' r) = false).
Proof.
  intros Hr Ha Hb va vb. unfold bn_usub_consttime. apply ensures_get, ensures_get. fold va vb.
  pose proof (bn_abs_bound va Ha) as Hba. apply ensures_guard.
  { intros Hg. apply negb_false_iff, andb_true_iff in Hg as [_ Hg]. apply negb_true_iff in Hg.
    rewrite bn_fits_in_words_spec in Hg by done. apply Z.ltb_ge in Hg. right. lia. }
  intros Hg. assert (bn_abs vb < wbase (width va)) as Hfit.
  { apply negb_true_iff, andb_false_iff in Hg as [Hg|Hg].
    - apply Nat.ltb_ge in Hg. pose proof (bn_abs_bound vb Hb). pose proof (wbase_le _ _ Hg). lia.
    - apply negb_false_iff in Hg. rewrite bn_fits_in_words_spec in Hg by done. by apply Z.ltb_lt. }
  clear Hg. destruct (usub_width va vb Ha Hb Hfit) as (Hwa & Hwb & Hvb).
  set (w := if (width va <? width vb)%nat then width va else width vb) in *. clearbody w.
  eapply ensures_bind.
  { eapply ensures_weaken; [apply bn_wexpand_spec; [done|lia]|]. intros He. left. exact He. }
  intros _ s1 [Hf Hg]. cbv beta. pose proof (fun q k => grown_prefix r _ s s1 q k Hf Hg) as Hpre.
  destruct Hg as (Hok1 & Hn1 & _ & Hwid & Hneg1 & _ & Hst1 & Hma1). unfold Zlen in Hn1.
  apply ensures_get, ensures_get. rewrite (Hpre a w) by done. rewrite (Hpre b w) by done. fold va vb.
  assert (bn_ok va) as (Hda & Hla & _) by done. assert (bn_ok vb) as (Hdb & Hlb & _) by done.
  pose proof (bn_sub_words_spec (take w (d va)) (take w (d vb)) ltac:(rewrite !length_take; lia)
    ltac:(by apply words_ok_prefix) ltac:(by apply words_ok_prefix)) as Hs.
  destruct (bn_sub_words _ _) as [ws1 c1]. rewrite length_take, Nat.min_l in Hs by lia. destruct Hs as (Hl1 & Hws1 & Hc1 & Hv1).
  apply ensures_upd_bind, ensures_get. change (fun b0 : BIGNUM => with_d (put 0 ws1 (d b0)) b0) with (put_d 0 ws1).
  assert (width (objs (updated s1 r (put_d 0 ws1)) a) = width va) as ->.
  { destruct (decide (a = r)) as [->|Har]; [by rewrite objs_updated_same|]. rewrite objs_updated_other by done.
    destruct Hf as [Hf _]. by rewrite Hf. }
  assert (sub w (width va - w) (d (objs (updated s1 r (put_d 0 ws1)) a)) = sub w (width va - w) (d va)) as Esub.
  { rewrite sub_after_put by lia. apply take_sub. replace (w + (width va - w))%nat with (width va) by lia. by apply Hpre. }
  pose proof (extend_words_spec CRYPTO_subc_w (-1) (d (objs (updated s1 r (put_d 0 ws1)) a)) w (width va) c1 subc_value Hwa) as Hx.
  rewrite Esub in Hx. assert (width va <= length (d (objs (updated s1 r (put_d 0 ws1)) a)))%nat as Hmaxl.
  { destruct (decide (a = r)) as [->|Har].
    - rewrite objs_updated_same. unfold put_d, with_d. cbn [d]. rewrite length_put by lia. lia.
    - rewrite objs_updated_other by done. destruct Hf as [Hf _]. by rewrite Hf. }
  specialize (Hx Hmaxl ltac:(apply words_ok_part; [done|lia]) Hc1). destruct (extend_words _ _ _ _ _) as [ws2 c2].
  destruct Hx as (Hl2 & Hws2 & Hc2 & Hv2). apply ensures_upd_bind.
  change (fun b0 : BIGNUM => with_d (put w ws2 (d b0)) b0) with (put_d w ws2).
  assert (wval (ws1 ++ ws2) - wbase (width va) * c2 = bn_abs va - bn_abs vb) as Hv.
  { rewrite wval_app, Hl1. unfold bn_abs at 1, words. rewrite (wval_split w (width va)), (wbase_split w (width va)) by lia. lia. }
  pose proof (wval_bound (ws1 ++ ws2) ltac:(solve_words)) as Hbw. rewrite length_app, Hl1, Hl2 in Hbw.
  replace (w + (width va - w))%nat with (width va) in Hbw by lia. pose proof (bn_abs_bound vb Hb).
  apply ensures_guard.
  { intros Hc%Z.eqb_neq. right. unfold bit in *. assert (c2 = 1) as -> by lia. lia. }
  intros ->%Z.eqb_eq. apply ensures_get, ensures_upd.
  assert (width (objs (updated (updated s1 r (put_d 0 ws1)) r (put_d w ws2)) a) = width va) as ->.
  { destruct (decide (a = r)) as [->|Har]; [by rewrite !objs_updated_same|]. rewrite !objs_updated_other by done.
    destruct Hf as [Hf _]. by rewrite Hf. }
  pose proof (words_after_put2 r s s1 ws1 ws2 (width va) Hf Hok1 Hst1 Hma1 Hws1 Hws2 ltac:(lia) ltac:(lia)) as Hw.
  cbv zeta in Hw. rewrite Hl1 in Hw. destruct Hw as (Hwr & Ew & En & Eneg).
  split; [exact Hwr|]. unfold bn_abs at 3. rewrite Ew. split; [lia|]. split; [lia|done].
Qed.

Lemma BN_usub_spec r a b s : bn_ok (objs s r) -> bn_ok (objs s a) -> bn_ok (objs s b) ->
  let va := objs s a in let vb := objs s b in
  ensures (wexpand_refused (objs s r) (Z.of_nat (width va)) (mem s) \/ bn_abs va < bn_abs vb) (BN_usub r a b) s
    (fun _ s' => written r s s' /\ bn_minimal (objs s' r) /\ bn_abs vb <= bn_abs va /\
      bn_abs (objs s' r) = bn_abs va - bn_abs vb /\ neg (objs s' r) = false).
Proof.
  intros Hr Ha Hb va vb. unfold BN_usub. eapply ensures_bind; [by apply bn_usub_consttime_spec|]. cbv beta.
  intros _ s1 (Hw & Hle & Hv & Hn & Hneg). pose proof Hw as (_ & Hok & _).
  apply (ensures_weaken False); [|done]. eapply ensures_mono; [by apply bn_set_minimal_width_spec|]. cbv beta.
  intros _ s' Hm. destruct (minimized r s s1 s' _ _ Hw Hv Hneg Hm) as (? & ? & ? & Hneg').
  split; [done|]. split; [done|]. split; [done|]. split; [done|]. rewrite Hneg'. by destruct (_ =? 0).
Qed.

(** ** Signed sums and differences *)

(** The room for at most [n] words was refused. *)
Definition room_refused (r : ptr) (n : nat) s : Prop :=
  exists m, m <= Z.of_nat n /\ wexpand_refused (objs s r) m (mem s).

(** With memory, numbers that are not too long have room. *)
Lemma room_not_refused `{!MallocSpec H} `{!MallocTotal H} r n s : flag_static_data (objs s r) = false ->
  Z.of_nat n <= BN_MAX_WORDS -> ~ room_refused r n s.
Proof.
  rewrite BN_MAX_WORDS_eq. intros Hst Hn (m & Hm & Hlt & [Hx|[Hx|Hx]]); [rewrite BN_MAX_WORDS_eq in Hx; lia|congruence|].
  assert (0 <= m) as Hm0 by (unfold Zlen in Hlt; lia).
  unfold OPENSSL_calloc in Hx. assert ((m >? SIZE_MAX / 8) = false) as E by (rewrite Z.gtb_ltb; apply Z.ltb_ge; unfold SIZE_MAX; dlia).
  rewrite E, andb_false_r in Hx. unfold OPENSSL_zalloc in Hx.
  destruct (OPENSSL_malloc_total (u64 (m * 8)) (mem s)) as (b & h & Eb).
  { rewrite u64_of_word by (unfold word; lia). lia. }
  unfold st_bind in Hx. rewrite Eb in Hx. done.
Qed.

Lemma bn_val_sign v b : bn_abs b = Z.abs v -> neg b = (v <? 0) -> bn_val b = v.
Proof. intros Ha Hn. unfold bn_val. rewrite Ha, Hn. destruct (Z.ltb_spec v 0); lia. Qed.

(** Another sign for a number that is not zero. *)
Lemma minimal_with_neg b n : bn_ok b -> bn_minimal b -> (n = true -> bn_abs b <> 0) -> bn_minimal (with_neg n b).
Proof.
  intros Hb [Hm _] Hn. split; [done|]. cbn [width with_neg]. intros Hw. cbn [neg with_neg].
  destruct n; [|done]. destruct (Hn eq_refl). apply minimal_width_0; [done|]. by rewrite Hm.
Qed.

Lemma written_with_neg r s s1 n : written r s s1 -> written r s (updated s1 r (with_neg n)).
Proof. intros (Hf & Hok & Hst & Hma). unfold written. rewrite objs_updated_same. split; [auto|done]. Qed.

Definition longer_at s (a b : ptr) : nat := longer (objs s a) (objs s b).

Lemma signed_usub_spec r a b s : bn_ok (objs s r) -> bn_ok (objs s a) -> bn_ok (objs s b) ->
  ensures (room_refused r (longer_at s a b + 1) s) (signed_usub r a b) s (fun _ s' =>
    written r s s' /\ bn_minimal (objs s' r) /\ bn_val (objs s' r) = bn_abs (objs s a) - bn_abs (objs s b)).
Proof.
  intros Hr Ha Hb. unfold signed_usub. apply ensures_get, ensures_get. rewrite BN_ucmp_spec by done.
  pose proof (bn_abs_bound _ Ha). pose proof (bn_abs_bound _ Hb). unfold longer_at, longer.
  destruct (cmp_val_cases (bn_abs (objs s a)) (bn_abs (objs s b))) as [[Hc ->]|Hc].
  - cbn [Z.ltb Z.compare]. eapply ensures_bind.
    { eapply ensures_weaken; [by apply BN_usub_spec|]. cbv beta. intros [He|He]; [|lia]. eexists. split; [|exact He]. lia. }
    cbv beta. intros _ s1 (Hw & Hm & _ & Hv & Hn). apply ensures_upd. rewrite objs_updated_same.
    assert (bn_ok (objs s1 r)) as Hok by apply Hw. split; [by apply written_with_neg|]. split; [apply minimal_with_neg; [done..|lia]|].
    apply bn_val_sign; [unfold bn_abs at 1; cbn; fold (bn_abs (objs s1 r)); change (wval (words (objs s1 r)) = Z.abs (bn_abs (objs s a) - bn_abs (objs s b))); fold (bn_abs (objs s1 r)); lia|].
    symmetry. apply Z.ltb_lt. lia.
  - assert (bn_abs (objs s b) <= bn_abs (objs s a) /\ (cmp_val (bn_abs (objs s a)) (bn_abs (objs s b)) <? 0) = false) as [Hle ->].
    { destruct Hc as [[? ->]|[? ->]]; split; (lia || done). }
    eapply ensures_bind.
    { eapply ensures_weaken; [by apply BN_usub_spec|]. cbv beta. intros [He|He]; [|lia]. eexists. split; [|exact He]. lia. }
    cbv beta. intros _ s1 (Hw & Hm & _ & Hv & Hn). apply ensures_upd. rewrite objs_updated_same.
    assert (bn_ok (objs s1 r)) as Hok by apply Hw. split; [by apply written_with_neg|]. split; [apply minimal_with_neg; done|].
    exact Hv.
Qed.

(** The functions of [add.c] that take signed numbers. *)
Lemma BN_add_ok r a b s : bn_ok (objs s r) -> bn_ok (objs s a) -> bn_ok (objs s b) ->
  ensures (room_refused r (longer_at s a b + 1) s) (BN_add r a b) s (fun _ s' =>
    written r s s' /\ bn_val (objs s' r) = bn_val (objs s a) + bn_val (objs s b) /\
    (bn_signed (objs s a) -> bn_minimal (objs s' r))).
Proof.
  intros Hr Ha Hb. unfold BN_add. apply ensures_get, ensures_get. unfold bn_val at 2 3, bn_signed.
  destruct (neg (objs s a)) eqn:Ena, (neg (objs s b)) eqn:Enb; cbn [xorb].
  2: { eapply ensures_mono; [eapply ensures_weaken; [by apply (signed_usub_spec r b a)|]|].
       - unfold longer_at, longer. by rewrite Nat.max_comm.
       - cbv beta. intros _ s' (? & ? & ->). split; [done|]. split; [lia|done]. }
  2: { eapply ensures_mono; [by apply (signed_usub_spec r a b)|].
       cbv beta. intros _ s' (? & ? & ->). split; [done|]. split; [lia|done]. }
  - eapply ensures_then_upd.
    { eapply ensures_weaken; [by apply BN_uadd_spec|]. intros He. eexists. split; [|exact He]. unfold longer_at. lia. }
    cbv beta. intros _ s1 (Hw & Hm & Hv & Hn). assert (bn_ok (objs s1 r)) as Hok by apply Hw.
    split; [by apply written_with_neg|]. rewrite objs_updated_same. unfold bn_val. cbn [neg with_neg].
    change (bn_abs (with_neg true (objs s1 r))) with (bn_abs (objs s1 r)). split; [lia|].
    pose proof (bn_abs_bound _ Ha). pose proof (bn_abs_bound _ Hb).
    intros Hs. specialize (Hs eq_refl). apply minimal_with_neg; [done..|lia].
  - eapply ensures_then_upd.
    { eapply ensures_weaken; [by apply BN_uadd_spec|]. intros He. eexists. split; [|exact He]. unfold longer_at. lia. }
    cbv beta. intros _ s1 (Hw & Hm & Hv & Hn). assert (bn_ok (objs s1 r)) as Hok by apply Hw.
    split; [by apply written_with_neg|]. rewrite objs_updated_same. unfold bn_val. cbn [neg with_neg].
    change (bn_abs (with_neg false (objs s1 r))) with (bn_abs (objs s1 r)). split; [lia|].
    intros _. by apply minimal_with_neg.
Qed.

(** An absolute sum with a sign. *)
Lemma uadd_with_sign r a b n s : bn_ok (objs s r) -> bn_ok (objs s a) -> bn_ok (objs s b) ->
  ensures (room_refused r (longer_at s a b + 1) s) (BN_uadd r a b ;;; upd r (with_neg n)) s (fun _ s' =>
    let v := bn_abs (objs s a) + bn_abs (objs s b) in
    written r s s' /\ bn_val (objs s' r) = (if n then - v else v) /\ ((n = true -> v <> 0) -> bn_minimal (objs s' r))).
Proof.
  intros Hr Ha Hb. eapply ensures_bind.
  { eapply ensures_weaken; [by apply BN_uadd_spec|]. intros He. eexists. split; [|exact He]. unfold longer_at. lia. }
  cbv beta. intros _ s1 (Hw & Hm & Hv & Hn). apply ensures_upd. assert (bn_ok (objs s1 r)) as Hok by apply Hw.
  split; [by apply written_with_neg|]. rewrite objs_updated_same. unfold bn_val. cbn [neg with_neg].
  change (bn_abs (with_neg n (objs s1 r))) with (bn_abs (objs s1 r)). rewrite Hv. split; [done|].
  intros Hs. apply minimal_with_neg; [done..|]. by rewrite Hv.
Qed.

Lemma BN_sub_ok r a b s : bn_ok (objs s r) -> bn_ok (objs s a) -> bn_ok (objs s b) ->
  ensures (room_refused r (longer_at s a b + 1) s) (BN_sub r a b) s (fun _ s' =>
    written r s s' /\ bn_val (objs s' r) = bn_val (objs s a) - bn_val (objs s b) /\
    (bn_signed (objs s a) -> bn_minimal (objs s' r))).
Proof.
  intros Hr Ha Hb. unfold BN_sub. apply ensures_get, ensures_get. unfold bn_val at 2 3, bn_signed.
  pose proof (bn_abs_bound _ Ha). pose proof (bn_abs_bound _ Hb).
  destruct (neg (objs s a)) eqn:Ena, (neg (objs s b)) eqn:Enb.
  - eapply ensures_mono; [eapply ensures_weaken; [by apply (signed_usub_spec r b a)|]|].
    + unfold longer_at, longer. by rewrite Nat.max_comm.
    + cbv beta. intros _ s' (? & ? & ->). split; [done|]. split; [lia|done].
  - eapply ensures_mono; [by apply uadd_with_sign|]. cbv beta zeta. intros _ s' (? & -> & Hm).
    split; [done|]. split; [lia|]. intros Hs. apply Hm. intros _. specialize (Hs eq_refl). lia.
  - eapply ensures_mono; [by apply uadd_with_sign|]. cbv beta zeta. intros _ s' (? & -> & Hm).
    split; [done|]. split; [lia|]. intros _. by apply Hm.
  - eapply ensures_mono; [by apply (signed_usub_spec r a b)|].
    cbv beta. intros _ s' (? & ? & ->). split; [done|]. split; [lia|done].
Qed.

(** * What an operation can change

    Whether it fails or not. *)
Definition touches {A} (r : ptr) (m : ST (bn_state H) A) : Prop := forall s, frame r s (snd (m s)).

Lemma touches_ret {A} r (a : A) : touches r (st_ret a).
Proof. intros s. apply frame_refl. Qed.
Lemma touches_fail {A} r : touches r (st_fail (A := A)).
Proof. intros s. apply frame_refl. Qed.
Lemma touches_get r p : touches r (get p).
Proof. intros s. apply frame_refl. Qed.
Lemma touches_upd r f : touches r (upd r f).
Proof. intros s. apply frame_updated. Qed.
Lemma touches_guard r c : touches r (st_guard c).
Proof. intros s. unfold st_guard. destruct c; apply frame_refl. Qed.
Lemma touches_lift {A} r (m : ST H A) : touches r (lift m).
Proof. intros s. unfold lift. destruct (m (mem s)). by split_and!. Qed.
Lemma touches_bind {A B} r (m : ST (bn_state H) A) (k : A -> ST (bn_state H) B) :
  touches r m -> (forall a, touches r (k a)) -> touches r (st_bind m k).
Proof.
  intros Hm Hk s. unfold st_bind. pose proof (Hm s) as Hs. destruct (m s) as [[a|] s1]; [|exact Hs].
  eapply frame_trans; [exact Hs|apply Hk].
Qed.
Lemma touches_then_upd {A} r (m : ST (bn_state H) A) f : touches r m ->
  touches r (fun s => let '(ret, s) := m s in let '(_, s) := upd r f s in (ret, s)).
Proof.
  intros Hm s. pose proof (Hm s) as Hs. destruct (m s) as [ret s1]. cbn [snd] in Hs.
  change (frame r s (updated s1 r f)). auto.
Qed.

Create HintDb touches.
Ltac touches_step :=
  intros; cbv zeta;
  match goal with
  | |- touches _ (match ?x with _ => _ end) => destruct x
  | |- touches _ (st_bind _ _) => apply touches_bind
  | |- touches _ (fun st => let '(_, _) := _ st in _) => apply touches_then_upd
  | |- touches _ (put_words _ _ _) => unfold put_words
  | |- _ => first [apply touches_ret | apply touches_fail | apply touches_get | apply touches_upd | apply touches_guard | apply touches_lift]
  end.
Ltac solve_touches := repeat touches_step; eauto with touches.

Lemma touches_wexpand r n : touches r (bn_wexpand r n).
Proof. unfold bn_wexpand. solve_touches. Qed.
Hint Resolve touches_wexpand : touches.
Lemma touches_set_minimal_width r : touches r (bn_set_minimal_width r).
Proof. unfold bn_set_minimal_width. solve_touches. Qed.
Hint Resolve touches_set_minimal_width : touches.
Lemma touches_uadd r a b : touches r (BN_uadd r a b).
Proof. unfold BN_uadd, bn_uadd_consttime. solve_touches. Qed.
Lemma touches_usub r a b : touches r (BN_usub r a b).
Proof. unfold BN_usub, bn_usub_consttime. solve_touches. Qed.
Hint Resolve touches_uadd touches_usub : touches.
Lemma touches_signed_usub r a b : touches r (signed_usub r a b).
Proof. unfold signed_usub. solve_touches. Qed.
Hint Resolve touches_signed_usub : touches.
Lemma touches_add r a b : touches r (BN_add r a b).
Proof. unfold BN_add. solve_touches. Qed.
Lemma touches_sub r a b : touches r (BN_sub r a b).
Proof. unfold BN_sub. solve_touches. Qed.
Hint Resolve touches_add touches_sub : touches.

Lemma ensures_touches {A} e (m : ST (bn_state H) A) r s Q : ensures e m s Q -> touches r m ->
  match m s with
  | (Some a, s') => Q a s'
  | (None, s') => e /\ frame r s s'
  end.
Proof. unfold ensures. intros Hm Ht. specialize (Ht s). destruct (m s) as [[a|] s']; [exact Hm|by split]. Qed.

(** C14. [BN_add] and [BN_sub] compute the sum and the difference of signed
    numbers, whatever their widths and signs are and also when the result is an
    operand.  Only the result changes; it has no zero words on top, and a
    positive zero, unless [a] was a negative zero.  They fail only when the
    result gets no room. *)
Theorem BN_add_sub_spec r a b s (Hr : bn_ok (objs s r)) (Ha : bn_ok (objs s a)) (Hb : bn_ok (objs s b)) :
  let post (op : Z -> Z -> Z) (m : ST (bn_state H) unit) :=
    match m s with
    | (Some _, s') =>
        written r s s' /\ bn_val (objs s' r) = op (bn_val (objs s a)) (bn_val (objs s b)) /\
        (bn_signed (objs s a) -> bn_minimal (objs s' r))
    | (None, s') => room_refused r (longer_at s a b + 1) s /\ frame r s s'
    end in
  post Z.add (BN_add r a b) /\ post Z.sub (BN_sub r a b).
Proof.
  split.
  - exact (ensures_touches _ _ r s _ (BN_add_ok r a b s Hr Ha Hb) (touches_add r a b)).
  - exact (ensures_touches _ _ r s _ (BN_sub_ok r a b s Hr Ha Hb) (touches_sub r a b)).
Qed.
End specs.

(** A state with the numbers of a list at the addresses from 2 on. *)
Definition example_state (l : list BIGNUM) : bn_state Z :=
  BnState (fun p => if p =? value_one_ptr then BN_value_one else default BN_init (l !! Z.to_nat (p - 2))) (2 + Zlen l)
    (BnCtx None [] 0 0 false false) 100000.

(** [2^64 - 1] taken from itself, and added to itself with a carry. *)
Lemma BN_add_sub_spec_witness :
  let s := example_state [Bignum [2 ^ 64 - 1] 1 true true false] in
  bn_ok (objs s 2) /\ bn_val (objs (snd (BN_add 2 2 2 s)) 2) = -2 * (2 ^ 64 - 1).
Proof.
  intros s. assert (bn_ok (objs s 2)) as Hok.
  { split; [|split; [apply le_n|done]]. change (words_ok [2 ^ 64 - 1]). constructor; [done|constructor]. }
  split; [done|]. destruct (BN_add_sub_spec 2 2 2 s Hok Hok Hok) as [Ha _].
  assert (fst (BN_add 2 2 2 s) = Some tt) as E by (vm_compute; reflexivity).
  destruct (BN_add 2 2 2 s) as [[u|] s'] eqn:Es; [|done]. destruct Ha as (_ & Hv & _). cbn [snd]. rewrite Hv. vm_compute. reflexivity.
Defined.
