(* ===== verification/BnCtxSpec.v ===== *)
(** The pool of temporaries of [ctx.c], over the stack of [Stack.v]: an object it
    gives out is nobody else's, and what is taken between [BN_CTX_start] and
    [BN_CTX_end] is given back. *)
From S2P Require Import Prelude Mem ConstTime Stack StackSpec BnWords BnMul BnMulSpec Bn BnSpec.

Section ctx.
Context {H : Type} `{MallocSpec H}.
Implicit Types s : bn_state H.

(** The objects of the pool; those from [used] on are free. *)
Definition pool s : list Z := match bignums (ctx s) with Some sk => contents sk | None => [] end.

(** What callers may pass: an object that exists and is not free in the pool. *)
Definition live s (p : ptr) : Prop := p < next_ptr s /\ p ∉ drop (used (ctx s)) (pool s).

(** The addresses that are not in the pool; constant as long as all goes well. *)
Definition base s : Z := next_ptr s - Zlen (pool s).

Record ctx_wf s : Prop := {
  cw_sk : forall sk, bignums (ctx s) = Some sk -> sk_wf sk;
  cw_used : (used (ctx s) <= length (pool s))%nat;
  cw_nodup : NoDup (pool s);
  cw_pool : forall p, p ∈ pool s -> value_one_ptr < p < next_ptr s /\ bn_ok (objs s p) /\ flag_static_data (objs s p) = false;
  cw_next : value_one_ptr < next_ptr s <= 2 ^ 64;
  cw_stack : Zlen (stack (ctx s)) <= stack_size (ctx s);
  cw_size : stack_size (ctx s) = 0 \/ BN_CTX_START_FRAMES <= stack_size (ctx s);
  cw_one : objs s value_one_ptr = BN_value_one;
}.

(** There is room for [k] more temporaries and frames. *)
Definition ctx_room (k : nat) s : Prop :=
  error (ctx s) = false /\ base s + Z.of_nat (used (ctx s)) + Z.of_nat k <= 2 ^ 64 /\
  Z.of_nat (used (ctx s)) + Z.of_nat k <= INT_MAX /\ Zlen (stack (ctx s)) + Z.of_nat k <= 2 ^ 58.

(** The pool has only got longer. *)
Definition ctx_grow s s' : Prop :=
  next_ptr s <= next_ptr s' /\ base s' = base s /\ (used (ctx s) <= used (ctx s'))%nat /\
  exists l, pool s' = pool s ++ l /\ Forall (fun p => next_ptr s <= p) l.

Lemma ctx_grow_refl s : ctx_grow s s.
Proof. split; [lia|]. split; [done|]. split; [lia|]. exists []. by rewrite app_nil_r. Qed.

Lemma ctx_grow_trans s1 s2 s3 : ctx_grow s1 s2 -> ctx_grow s2 s3 -> ctx_grow s1 s3.
Proof.
  intros (Hn1 & Hb1 & Hu1 & l1 & E1 & F1) (Hn2 & Hb2 & Hu2 & l2 & E2 & F2).
  split; [lia|]. split; [congruence|]. split; [lia|]. exists (l1 ++ l2). split; [by rewrite E2, E1, app_assoc|].
  apply Forall_app. split; [done|]. eapply Forall_impl; [exact F2|]. simpl. lia.
Qed.

Lemma live_grow s s' q : ctx_wf s -> ctx_grow s s' -> live s q -> live s' q.
Proof.
  intros Hwf (Hn & _ & Hu & l & E & F) [Hq Hnot]. split; [lia|]. rewrite E. intros Hin.
  rewrite drop_app in Hin. apply elem_of_app in Hin as [Hin|Hin].
  - apply Hnot. replace (used (ctx s')) with (used (ctx s) + (used (ctx s') - used (ctx s)))%nat in Hin by lia.
    rewrite <- drop_drop in Hin. apply list_elem_of_lookup in Hin as [i Hi]. rewrite lookup_drop in Hi.
    by eapply list_elem_of_lookup_2.
  - apply list_elem_of_lookup in Hin as [i Hi]. rewrite lookup_drop in Hi. apply list_elem_of_lookup_2 in Hi.
    rewrite Forall_forall in F. specialize (F _ Hi). simpl in F. lia.
Qed.

(** * Writing to one object *)

Lemma frame_pool r s s' : frame r s s' -> pool s' = pool s.
Proof. intros (_ & _ & E). unfold pool. by rewrite E. Qed.

Lemma frame_base r s s' : frame r s s' -> base s' = base s.
Proof. intros Hf. unfold base. rewrite (frame_pool r s s' Hf). by destruct Hf as (_ & -> & _). Qed.

Lemma frame_grow r s s' : frame r s s' -> ctx_grow s s'.
Proof.
  intros Hf. split; [destruct Hf as (_ & -> & _); lia|]. split; [by apply (frame_base r)|].
  split; [destruct Hf as (_ & _ & ->); lia|]. exists []. by rewrite app_nil_r, (frame_pool r s s').
Qed.

Lemma frame_ctx_wf r s s' : ctx_wf s -> r <> value_one_ptr -> frame r s s' -> bn_ok (objs s' r) ->
  flag_static_data (objs s' r) = flag_static_data (objs s r) -> ctx_wf s'.
Proof.
  intros [? ? ? Hp ? ? ? ?] Hr Hf Hok Hst. pose proof (frame_pool _ _ _ Hf) as Ep. destruct Hf as (Hf & En & Ec).
  split; rewrite ?Ep, ?Ec, ?En; try done.
  - intros p Hin. specialize (Hp p Hin) as (? & ? & ?). split; [done|].
    destruct (decide (p = r)) as [->|Hpr]; [by rewrite Hst|]. by rewrite Hf.
  - by rewrite Hf.
Qed.

(** * Failures

    [e] is what explains a failure; the lack of memory does. *)
Context (e : Prop) (He_mem : forall n h, 0 <= n <= 2 ^ 62 -> fst (OPENSSL_malloc n h) = None -> e).

(** What is open is closed again, unless there was an error. *)
Definition balanced s s' : Prop :=
  (error (ctx s') = true -> e) /\
  (error (ctx s') = false -> error (ctx s) = false /\ stack (ctx s') = stack (ctx s) /\ used (ctx s') = used (ctx s)).

Lemma balanced_refl s : (error (ctx s) = true -> e) -> balanced s s.
Proof. by intros. Qed.

Lemma balanced_trans s1 s2 s3 : balanced s1 s2 -> balanced s2 s3 -> balanced s1 s3.
Proof.
  intros [_ Hb1] [He Hb2]. split; [done|]. intros E. destruct (Hb2 E) as (E2 & ? & ?). destruct (Hb1 E2) as (? & ? & ?).
  split; [done|]. split; congruence.
Qed.

Lemma room_balanced k s s' : ctx_grow s s' -> balanced s s' -> (~ ctx_room k s -> e) -> ~ ctx_room k s' -> e.
Proof.
  intros (_ & Hb & _) [He Hbal] Hr Hn. destruct (error (ctx s')) eqn:E; [by apply He|].
  destruct (Hbal eq_refl) as (E1 & E2 & E3). apply Hr. intros (_ & R1 & R2 & R3). apply Hn.
  unfold ctx_room. rewrite E, Hb, E2, E3. done.
Qed.

Lemma room_error k s : (~ ctx_room k s -> e) -> error (ctx s) = true -> e.
Proof. intros Hr E. apply Hr. intros (E' & _). congruence. Qed.

Lemma room_less k j s : (j <= k)%nat -> (~ ctx_room k s -> e) -> ~ ctx_room j s -> e.
Proof. intros Hj Hr Hn. apply Hr. intros (? & ? & ? & ?). apply Hn. unfold ctx_room. split_and!; (done || lia). Qed.

(** * Taking a temporary *)

(** [p] is new: nobody had it, and everything else is as it was. *)
Definition got (p : ptr) s s' : Prop :=
  ctx_wf s' /\ ctx_grow s s' /\ ~ live s p /\ live s' p /\ p <> value_one_ptr /\
  (forall q, live s q -> objs s' q = objs s q) /\
  (bn_ok (objs s' p) /\ width (objs s' p) = 0%nat /\ neg (objs s' p) = false /\ flag_static_data (objs s' p) = false) /\
  used (ctx s') = S (used (ctx s)) /\ stack (ctx s') = stack (ctx s) /\ error (ctx s') = error (ctx s).

(** From a pool that has an object to give. *)
Lemma take_from_pool s sk p (h : H) : ctx_wf s -> bignums (ctx s) = Some sk -> pool s !! used (ctx s) = Some p ->
  let s' := updated s p (fun b => with_neg false (with_width 0 b)) in
  let c := ctx s in
  got p s (BnState (objs s') (next_ptr s') (BnCtx (Some sk) (stack c) (stack_size c) (S (used c)) (error c) (defer_error c)) h).
Proof.
  intros Hwf Esk Hp. cbv zeta. pose proof Hwf as [Hsk Hu Hnd Hpool Hnx Hst Hsz Hone].
  destruct (Hpool p (list_elem_of_lookup_2 _ _ _ Hp)) as (Hpb & (Hd & Hw & Hm) & Hstat).
  set (s' := BnState _ _ _ _). assert (pool s' = pool s) as Ep by (unfold pool, s'; cbn; by rewrite Esk).
  assert (objs s' p = with_neg false (with_width 0 (objs s p))) as Eop
    by exact (objs_updated_same s p (fun b => with_neg false (with_width 0 b))).
  assert (forall q, q <> p -> objs s' q = objs s q) as Eoq
    by (intros q; exact (objs_updated_other s p (fun b => with_neg false (with_width 0 b)) q)).
  assert (used (ctx s) < length (pool s))%nat as Hlt by (by eapply lookup_lt_Some).
  assert (p ∈ drop (used (ctx s)) (pool s)) as Hin.
  { apply list_elem_of_lookup. exists 0%nat. by rewrite lookup_drop, Nat.add_0_r. }
  unfold got. split; [|split; [|split; [|split; [|split; [|split; [|split; [|done]]]]]]].
  - split; rewrite ?Ep; try done.
    + intros sk' [= <-]. by apply Hsk.
    + intros q Hq. specialize (Hpool q Hq) as (? & ? & ?). split; [done|].
      destruct (decide (q = p)) as [->|Hqp]; [|by rewrite Eoq]. rewrite Eop. split; [|done]. split; [constructor|]. cbn. split; [lia|done].
    + rewrite Eoq by lia. done.
  - split; [cbn; lia|]. split; [unfold base; by rewrite Ep|]. split; [cbn [ctx used s']; lia|]. exists []. by rewrite app_nil_r, Ep.
  - intros [_ Hn]. done.
  - split; [cbn; lia|]. rewrite Ep. cbn [used ctx s']. intros Hin2.
    apply list_elem_of_lookup in Hin2 as [i Hi]. rewrite lookup_drop in Hi.
    pose proof (NoDup_lookup _ _ _ _ Hnd Hp Hi). lia.
  - lia.
  - intros q Hq. apply Eoq. intros ->. by destruct Hq.
  - rewrite Eop. split; [|done]. split; [constructor|]. cbn. split; [lia|done].
Qed.

(** The block could not be had. *)
Lemma malloc_refused n h : 0 <= n <= 2 ^ 62 -> (OPENSSL_malloc n h).1 = None -> e.
Proof. apply He_mem. Qed.

Lemma calloc_refused n size h : 0 <= n -> 0 < size <= 8 -> n <= 2 ^ 58 -> (OPENSSL_calloc n size h).1 = None -> e.
Proof.
  intros Hn Hsz Hmax. unfold OPENSSL_calloc. rewrite (proj2 (Z.eqb_neq size 0)) by lia.
  assert (n <= SIZE_MAX / size) by (apply Z.div_le_lower_bound; [lia|unfold SIZE_MAX; nia]).
  assert (0 <= n * size <= 2 ^ 58 * 8) by (clear -Hn Hsz Hmax; nia).
  rewrite Z.gtb_ltb, (proj2 (Z.ltb_ge _ _)) by done. cbn [negb andb]. unfold OPENSSL_zalloc, st_bind.
  rewrite u64_of_word by (unfold word; lia). destruct (OPENSSL_malloc (n * size) h) as [[b|] h'] eqn:E; [done|]. intros _.
  apply (malloc_refused (n * size) h); [lia|by rewrite E].
Qed.

Lemma realloc_refused orig n h : 0 <= n <= 2 ^ 62 -> (OPENSSL_realloc (Some orig) n h).1 = None -> e.
Proof.
  intros Hn. unfold OPENSSL_realloc, st_bind. destruct (OPENSSL_malloc n h) as [[b|] h'] eqn:E; [done|]. intros _.
  apply (malloc_refused n h); [done|by rewrite E].
Qed.

Lemma wexpand_explained b n h : wexpand_refused b n h -> flag_static_data b = false -> n <= BN_MAX_WORDS -> e.
Proof.
  rewrite BN_MAX_WORDS_eq. intros (Hl & [Hx|[Hx|Hx]]) Hst Hn; [rewrite BN_MAX_WORDS_eq in Hx; lia|congruence|].
  unfold Zlen in Hl. apply (calloc_refused n 8 h); (done || lia).
Qed.

Lemma sk_grow_refused (sk : stack_st unit) h : sk_wf sk -> Z.of_nat (num sk) < INT_MAX -> (sk_grow sk h).1 = None -> e.
Proof.
  intros Hwf Hn. pose proof Hwf as [Hd Hu Ha Hm _]. unfold sk_grow. unfold INT_MAX in *.
  destruct (Z.leb_spec (num_alloc sk) (Z.of_nat (num sk) + 1)) as [Hle|Hle]; [|done].
  destruct (sk_new_alloc_spec (num_alloc sk)) as [-> Hsz]; [lia|]. rewrite Hsz. unfold st_bind.
  destruct (OPENSSL_realloc _ _ h) as [[b|] h'] eqn:E; [done|]. intros _.
  eapply realloc_refused; [|by rewrite E]. lia.
Qed.

Lemma contents_push (sk sk' : stack_st unit) p : sk_wf sk -> contents sk' = insert_at (num sk) p (contents sk) -> contents sk' = contents sk ++ [p].
Proof.
  intros Hwf ->. pose proof (length_contents sk Hwf) as Hl. unfold insert_at. by rewrite <- Hl, take_ge, drop_ge by lia.
Qed.

(** The state of a [ctx] with another stack. *)
Lemma got_pushed s (sk sk' : stack_st unit) p h : ctx_wf s -> sk_wf sk' -> pool s = contents sk -> length (pool s) = used (ctx s) ->
  contents sk' = contents sk ++ [next_ptr s] -> next_ptr s < 2 ^ 64 -> p = next_ptr s ->
  let c := ctx s in
  got p s (updated (BnState (put_obj (objs s) p (Bignum [] 0 false true false)) (p + 1)
             (BnCtx (Some sk') (stack c) (stack_size c) (S (used c)) (error c) (defer_error c)) h) p
           (fun b => with_neg false (with_width 0 b))).
Proof.
  intros Hwf Hsk' Epool Hlen Econt Hnx ->. cbv zeta. pose proof Hwf as [Hsk Hu Hnd Hpool Hnx' Hst Hsz Hone].
  set (p := next_ptr s) in *. set (b0 := Bignum [] 0 false true false). set (s' := updated _ p _).
  assert (pool s' = pool s ++ [p]) as Ep by (unfold pool, s'; cbn; by rewrite Econt, <- Epool).
  assert (objs s' p = b0) as Eop by (unfold s'; rewrite objs_updated_same; cbn; unfold put_obj; by rewrite Z.eqb_refl).
  assert (forall q, q <> p -> objs s' q = objs s q) as Eoq.
  { intros q Hq. unfold s'. rewrite objs_updated_other by done. cbn. unfold put_obj. by rewrite (proj2 (Z.eqb_neq _ _)). }
  assert (p ∉ pool s) as Hnin by (intros Hin; apply Hpool in Hin; unfold p in Hin; lia).
  unfold got. split; [|split; [|split; [|split; [|split; [|split; [|split; [|done]]]]]]].
  - split; rewrite ?Ep; try done.
    + by intros sk2 [= <-].
    + rewrite length_app. cbn. lia.
    + apply NoDup_app. split; [done|]. split; [|apply NoDup_singleton]. intros q Hq ->%list_elem_of_singleton. done.
    + intros q [Hq| ->%list_elem_of_singleton]%elem_of_app.
      * specialize (Hpool q Hq) as (? & ? & ?). split; [cbn; fold p; unfold p; lia|]. rewrite Eoq by (intros ->; done). done.
      * rewrite Eop. split; [cbn; unfold p; lia|]. split; [split; [constructor|split; [cbn; lia|done]]|done].
    + cbn. unfold p. lia.
    + rewrite Eoq by (unfold p; lia). done.
  - split; [cbn; fold p; lia|]. split; [unfold base; rewrite Ep; unfold Zlen; rewrite length_app; cbn; unfold p; lia|].
    split; [cbn; lia|]. exists [p]. split; [done|]. constructor; [unfold p; lia|constructor].
  - intros [Hlt _]. unfold p in Hlt. lia.
  - split; [cbn; lia|]. rewrite Ep. cbn [used ctx s' updated]. rewrite drop_ge by (rewrite length_app; cbn; lia). apply not_elem_of_nil.
  - unfold p. lia.
  - intros q [Hq _]. apply Eoq. unfold p. lia.
  - rewrite Eop. split; [split; [constructor|split; [cbn; lia|done]]|done].
Qed.

Lemma value_contents (sk : stack_st unit) i : sk_wf sk -> (i < length (contents sk))%nat -> OPENSSL_sk_value (Some sk) i = contents sk !!! i.
Proof.
  intros Hwf Hi. rewrite length_contents in Hi by done. cbn [OPENSSL_sk_value]. rewrite (proj2 (Nat.leb_gt _ _)) by done.
  unfold contents. by rewrite lookup_total_take_lt.
Qed.

Lemma state_eta s : s = BnState (objs s) (next_ptr s) (ctx s) (mem s).
Proof. by destruct s. Qed.

Lemma sk_new_null_refused h : (OPENSSL_sk_new_null (Cmp := unit) h).1 = None -> e.
Proof.
  unfold OPENSSL_sk_new_null, OPENSSL_sk_new, OPENSSL_zalloc, st_bind.
  destruct (OPENSSL_malloc 40 h) as [[b|] h1] eqn:E1; [|intros _; eapply malloc_refused; [|by rewrite E1]; lia].
  cbn [st_ret]. destruct (OPENSSL_calloc kMinSize sizeof_ptr h1) as [[b2|] h2] eqn:E2; [done|]. intros _.
  by eapply (calloc_refused kMinSize sizeof_ptr h1); [..|by rewrite E2].
Qed.

Lemma BN_CTX_get_got s : ctx_wf s -> (~ ctx_room 1 s -> e) -> ensures e BN_CTX_get s (fun p s' => got p s s').
Proof.
  intros Hwf Hroom. unfold BN_CTX_get, ensures. cbv zeta. destruct (error (ctx s)) eqn:Eerr; [cbn; by eapply room_error|].
  pose proof Hwf as [Hsk Hu Hnd Hpool Hnx Hst Hsz Hone].
  destruct (match bignums (ctx s) with Some sk => (Some sk, s) | None => lift OPENSSL_sk_new_null s end)
    as [[sk|] s1] eqn:E.
  2: { destruct (bignums (ctx s)); [done|]. unfold lift in E. cbn.
       destruct (OPENSSL_sk_new_null (mem s)) as [r h] eqn:En. injection E as -> <-.
       apply (sk_new_null_refused (mem s)). by rewrite En. }
  assert (s1 = BnState (objs s) (next_ptr s) (ctx s) (mem s1) /\ sk_wf sk /\ contents sk = pool s /\
    (bignums (ctx s) = Some sk \/ bignums (ctx s) = None)) as (Es1 & Hskwf & Econt & Ebn).
  { unfold pool. destruct (bignums (ctx s)) as [sk0|] eqn:Eb.
    - injection E as -> <-. split; [apply state_eta|]. split; [by apply Hsk|]. by split; [|left].
    - unfold lift in E. destruct (OPENSSL_sk_new_null (mem s)) as [r h] eqn:En. injection E as -> <-.
      apply sk_new_ok in En as (? & ? & _). split; [done|]. split; [done|]. split; [done|by right]. }
  clear E. rewrite Es1. set (h1 := mem s1). clearbody h1. clear Es1 s1. cbn [ctx objs next_ptr mem stack stack_size used error defer_error].
  pose proof (length_contents sk Hskwf) as Hlen. rewrite Econt in Hlen. cbn [OPENSSL_sk_num].
  destruct (Nat.eqb_spec (used (ctx s)) (num sk)) as [Enum|Enum].
  - unfold BN_new. cbn [mem objs next_ptr ctx]. destruct (OPENSSL_malloc 24 h1) as [[b|] h2] eqn:Em.
    2: { cbn. apply (malloc_refused 24 h1); [lia|by rewrite Em]. }
    assert (~ (next_ptr s + 1 <= 2 ^ 64 /\ Z.of_nat (used (ctx s)) + 1 <= INT_MAX) -> e) as Hr.
    { intros Hn. apply Hroom. intros (_ & R1 & R2 & _). apply Hn. unfold base, Zlen in R1. split; lia. }
    clear Hroom.
    destruct (Z.geb_spec (next_ptr s) (2 ^ 64)) as [Hge|Hlt].
    { cbn. apply Hr. lia. }
    cbn [mem objs next_ptr ctx]. unfold OPENSSL_sk_push. cbn [OPENSSL_sk_num].
    destruct (sk_insert_cases sk (next_ptr s) (num sk) h2 Hskwf) as [(h3 & -> & Hfull)|(sk' & h3 & -> & Hwf' & Hc & _)].
    { unfold is_word, value_one_ptr in *. lia. }
    + cbn. destruct (decide (Z.of_nat (num sk) = INT_MAX)) as [Hmax|Hmax]; [apply Hr; lia|].
      destruct Hfull as [Hfull|Hfull]; [done|]. pose proof (wf_max _ Hskwf).
      apply (sk_grow_refused sk h2); [done|lia|by rewrite Hfull].
    + apply contents_push in Hc; [|done]. cbn [Nat.eqb]. rewrite (value_contents sk') by (done || (rewrite Hc, length_app, Econt; cbn; lia)).
      rewrite Hc, Econt, list_lookup_total_middle by lia.
      pose proof (got_pushed s sk sk' (next_ptr s) h3 Hwf Hwf' (eq_sym Econt) ltac:(lia) Hc Hlt eq_refl) as Hg.
      cbv zeta in Hg. rewrite Eerr in Hg. exact Hg.
  - assert (bignums (ctx s) = Some sk) as Eb.
    { destruct Ebn as [?|Eb]; [done|]. unfold pool in *. rewrite Eb in *. cbn in *. lia. }
    assert (used (ctx s) < length (pool s))%nat as Hlt by lia.
    rewrite (value_contents sk) by (done || (rewrite Econt; lia)). rewrite Econt.
    pose proof (take_from_pool s sk _ h1 Hwf Eb (list_lookup_lookup_total_lt _ _ Hlt)) as Hg. cbv zeta in Hg. rewrite Eerr in Hg.
    exact Hg.
Qed.

Lemma BN_CTX_get_spec k s : ctx_wf s -> (~ ctx_room (S k) s -> e) ->
  ensures e BN_CTX_get s (fun p s' => got p s s' /\ (~ ctx_room k s' -> e)).
Proof.
  intros Hwf Hroom. eapply ensures_mono; [apply BN_CTX_get_got; [done|]|].
  { apply (room_less (S k)); [lia|done]. }
  intros p s' Hg. split; [done|]. destruct Hg as (_ & (_ & Hb & _) & _ & _ & _ & _ & _ & Hu & Hs & He). intros Hn.
  apply Hroom. intros (R0 & R1 & R2 & R3). apply Hn. unfold ctx_room. rewrite Hb, Hu, Hs, He.
  split; [done|]. split; [lia|]. split; lia.
Qed.

(** * Opening and closing *)

(** Between [BN_CTX_start] and [BN_CTX_end]. *)
Definition steps s s' : Prop :=
  ctx_wf s' /\ ctx_grow s s' /\ (error (ctx s') = true -> e) /\
  (error (ctx s') = false -> error (ctx s) = false /\ stack (ctx s') = stack (ctx s)).

Lemma steps_trans s1 s2 s3 : steps s1 s2 -> steps s2 s3 -> steps s1 s3.
Proof.
  intros (_ & G1 & _ & B1) (W & G2 & E & B2). split; [done|]. split; [by eapply ctx_grow_trans|]. split; [done|].
  intros E3. destruct (B2 E3) as [E2 ->]. by apply B1.
Qed.

Lemma steps_got p s s' : (error (ctx s) = true -> e) -> got p s s' -> steps s s'.
Proof. intros He (W & G & _ & _ & _ & _ & _ & _ & Hs & Ee). split; [done|]. split; [done|]. rewrite Ee, Hs. done. Qed.

Lemma steps_frame r s s' : (error (ctx s) = true -> e) -> ctx_wf s' -> frame r s s' -> steps s s'.
Proof.
  intros He W Hf. split; [done|]. split; [by apply (frame_grow r)|]. destruct Hf as (_ & _ & ->). done.
Qed.

Lemma steps_balanced s s' : ctx_wf s' -> ctx_grow s s' -> balanced s s' -> steps s s'.
Proof. intros W G [E B]. split; [done|]. split; [done|]. split; [done|]. intros E'. by destruct (B E') as (? & ? & ?). Qed.

Lemma BN_STACK_push_spec s : ctx_wf s -> (~ ctx_room 1 s -> e) ->
  ensures e (BN_STACK_push (ctx s) (used (ctx s))) s (fun c s1 =>
    exists size, c = BnCtx (bignums (ctx s)) (used (ctx s) :: stack (ctx s)) size (used (ctx s)) (error (ctx s)) (defer_error (ctx s)) /\
      Zlen (stack (ctx s)) + 1 <= size /\ BN_CTX_START_FRAMES <= size /\
      objs s1 = objs s /\ next_ptr s1 = next_ptr s /\ ctx s1 = ctx s).
Proof.
  intros Hwf Hroom. pose proof Hwf as [_ _ _ _ _ Hst Hsz _]. unfold BN_STACK_push. cbv zeta.
  unfold BN_CTX_START_FRAMES in *. assert (0 <= Zlen (stack (ctx s))) as Hst0 by (unfold Zlen; lia).
  destruct (Z.eqb_spec (Zlen (stack (ctx s))) (stack_size (ctx s))) as [E|E].
  2: { apply ensures_ret. eexists. split; [done|]. split; [lia|]. split; [lia|done]. }
  set (n := if negb (stack_size (ctx s) =? 0) then u64 (stack_size (ctx s) * 3) / 2 else 32).
  assert (Zlen (stack (ctx s)) + 1 <= 2 ^ 58 -> stack_size (ctx s) < n <= 2 ^ 59) as Hn.
  { intros Hmax. unfold n. destruct (Z.eqb_spec (stack_size (ctx s)) 0) as [->|Hz]; cbn [negb]; [lia|].
    rewrite u64_of_word by (unfold word; lia). destruct Hsz as [?|Hsz]; [done|]. dlia. }
  assert (~ Zlen (stack (ctx s)) + 1 <= 2 ^ 58 -> e) as Hr by (intros Hm; apply Hroom; by intros (_ & _ & _ & ?)).
  assert (stack_size (ctx s) < n -> 32 <= n) as H32.
  { unfold n. destruct (Z.eqb_spec (stack_size (ctx s)) 0); cbn [negb]; lia. }
  clearbody n. destruct ((n <=? stack_size (ctx s)) || (n >? SIZE_MAX / 8)) eqn:Ec.
  { unfold ensures. cbn. apply Hr. intros Hm. specialize (Hn Hm). unfold SIZE_MAX in Ec. dlia. }
  apply orb_false_iff in Ec as [Ec%Z.leb_gt _].
  unfold ensures, st_bind, lift. destruct (OPENSSL_realloc _ _ (mem s)) as [[b|] h] eqn:Er; cbn.
  - eexists. split; [done|]. split; [lia|]. split; [by apply H32|done].
  - destruct (decide (Zlen (stack (ctx s)) + 1 <= 2 ^ 58)) as [Hm|Hm]; [|by apply Hr]. specialize (Hn Hm).
    eapply realloc_refused; [|by rewrite Er]. rewrite u64_of_word by (unfold word; lia). lia.
Qed.

(** A context that is like that of [s] but for its frames. *)
Lemma ctx_wf_same s s1 : ctx_wf s -> objs s1 = objs s -> next_ptr s1 = next_ptr s -> bignums (ctx s1) = bignums (ctx s) ->
  (used (ctx s1) <= length (pool s))%nat -> Zlen (stack (ctx s1)) <= stack_size (ctx s1) ->
  (stack_size (ctx s1) = 0 \/ BN_CTX_START_FRAMES <= stack_size (ctx s1)) -> ctx_wf s1 /\ pool s1 = pool s.
Proof.
  intros [? ? ? ? ? ? ? ?] Eo En Eb Hu Hst Hsz. assert (pool s1 = pool s) as Ep by (unfold pool; by rewrite Eb).
  split; [|done]. split; rewrite ?Ep, ?Eo, ?En, ?Eb; done.
Qed.

Lemma BN_CTX_start_spec k s : ctx_wf s -> (~ ctx_room (S k) s -> e) ->
  ensures False BN_CTX_start s (fun _ s1 => ctx_wf s1 /\ objs s1 = objs s /\ next_ptr s1 = next_ptr s /\ pool s1 = pool s /\
    used (ctx s1) = used (ctx s) /\ (error (ctx s1) = true -> e) /\
    (error (ctx s1) = false -> error (ctx s) = false /\ stack (ctx s1) = used (ctx s) :: stack (ctx s)) /\
    (~ ctx_room k s1 -> e)).
Proof.
  intros Hwf Hroom. unfold BN_CTX_start, ensures. cbv zeta. destruct (error (ctx s)) eqn:Eerr.
  { assert e by (eapply room_error; eassumption). rewrite Eerr. done. }
  pose proof (BN_STACK_push_spec s Hwf (room_less (S k) 1 s ltac:(lia) Hroom)) as Hp. unfold ensures in Hp.
  pose proof Hwf as [_ Hu _ _ _ Hst Hsz _].
  destruct (BN_STACK_push (ctx s) (used (ctx s)) s) as [[c|] s1] eqn:Epush.
  - destruct Hp as (size & -> & Hs1 & Hs2 & Eo & En & Ec). unfold set_ctx. set (s2 := BnState _ _ _ _).
    destruct (ctx_wf_same s s2) as [W Ep]; try done.
    { unfold Zlen in *. cbn. lia. }
    { by right. }
    assert (error (ctx s2) = false) as Es2 by done.
    split; [done|]. split; [done|]. split; [done|]. split; [done|]. split; [done|]. split; [congruence|]. split; [done|].
    intros Hn. apply Hroom. intros (_ & R1 & R2 & R3). apply Hn. unfold ctx_room, base in *. rewrite Ep.
    unfold Zlen in *. cbn. rewrite En. split; [done|]. split; [lia|]. split; lia.
  - assert (objs s1 = objs s /\ next_ptr s1 = next_ptr s) as [Eo En].
    { revert Epush. unfold BN_STACK_push. cbv zeta. destruct (_ =? _); [|done]. destruct (_ || _); [by intros [= <-]|].
      unfold st_bind, lift. destruct (OPENSSL_realloc _ _ _) as [[?|] ?]; [done|]. by intros [= <-]. }
    unfold set_ctx. set (s2 := BnState _ _ _ _). assert (error (ctx s2) = true) as Es2 by done.
    destruct (ctx_wf_same s s2) as [W Ep]; done.
Qed.

(** The body has the room that is left after the frame. *)
Lemma with_ctx_spec {A} (m : ST (bn_state H) A) k s (Q : A -> (ptr -> BIGNUM) -> Prop) : ctx_wf s -> (~ ctx_room (S k) s -> e) ->
  (forall s1, ctx_wf s1 -> objs s1 = objs s -> (forall q, live s q -> live s1 q) -> (error (ctx s1) = true -> e) ->
     (~ ctx_room k s1 -> e) -> ensures e m s1 (fun a s2 => steps s1 s2 /\ Q a (objs s2))) ->
  ensures e (with_ctx m) s (fun a s' => ctx_wf s' /\ ctx_grow s s' /\ balanced s s' /\ Q a (objs s')).
Proof.
  intros Hwf Hroom Hm. unfold with_ctx.
  eapply ensures_bind; [apply (ensures_weaken False); [by apply BN_CTX_start_spec|done]|]. cbv beta.
  intros _ s1 (W1 & Eo & En & Ep & Eu & He1 & Hs1 & Hr1).
  assert (forall q, live s q -> live s1 q) as Hlive by (intros q; unfold live; by rewrite Eu, Ep, En).
  specialize (Hm s1 W1 Eo Hlive He1 Hr1). unfold ensures in *. destruct (m s1) as [[a|] s2].
  2: { by destruct (BN_CTX_end s2). }
  destruct Hm as ((W2 & (Hn2 & Hb2 & Hu2 & l & El & Fl) & He2 & Hst2) & HQ).
  unfold BN_CTX_end, st_bind, get_ctx. assert (base s1 = base s) as Eb by (unfold base; by rewrite En, Ep).
  assert (next_ptr s <= next_ptr s2) as Hnx by lia. rewrite Ep in El. rewrite En in Fl. rewrite Eu in Hu2.
  destruct (error (ctx s2)) eqn:E2.
  { cbn. assert e by auto. split; [done|]. split; [|split; [split; [done|congruence]|done]].
    split; [done|]. split; [congruence|]. split; [done|]. by exists l. }
  destruct (Hst2 eq_refl) as [E1 Es2]. destruct (Hs1 E1) as [E0 Es1]. rewrite Es2, Es1. cbn.
  set (s' := BnState _ _ _ _). destruct (ctx_wf_same s2 s') as [W' Ep']; try done.
  { cbn. rewrite El, length_app. pose proof (cw_used _ Hwf). lia. }
  { cbn. pose proof (cw_stack _ W2) as Hc. rewrite Es2, Es1 in Hc. unfold Zlen in *. cbn in Hc. lia. }
  { apply (cw_size _ W2). }
  split; [done|]. split; [|split; [|done]].
  - split; [done|]. split; [unfold base in *; rewrite Ep'; cbn; lia|]. split; [cbn; lia|]. exists l. by rewrite Ep'.
  - split; [done|]. intros _. done.
Qed.
End ctx.
