(* ===== verification/BnProduct.v ===== *)
(** Products and squares of big numbers: the functions of
    [crypto/fipsmodule/bn/mul.c] that take a [BIGNUM] and a [BN_CTX].

    The operands are handed to the functions of [BnMul.v] as the words in use;
    the result and the scratch space are whole arrays. *)
From S2P Require Import Prelude Mem ConstTime Stack BnWords BnMul Bn.

Section product.
Context {H : Type} `{Malloc H}.
#[local] Abbreviation M := (ST (bn_state H)).

(** The depth of the recursions of [BnMul.v]: every call halves a number of
    words below [2^23]. *)
Definition recursion_fuel : nat := 32.

(** The arrays of [rr] and [t] that a recursion leaves; [None] is never met. *)
Definition put_arrays (rr t : ptr) (res : option (list Z * list Z)) : M unit :=
  match res with
  | Some (r', t') => upd rr (with_d r') ;;; upd t (with_d t')
  | None => st_fail
  end.

Definition bn_abs_sub_consttime (r a b : ptr) : M unit :=
  va <-- get a ;;
  vb <-- get b ;;
  let cl := (if width va <? width vb then width va else width vb)%nat in
  let dl := Z.of_nat (width va) - Z.of_nat (width vb) in
  let r_len := (if width va <? width vb then width vb else width va)%nat in
  with_ctx (
    tmp <-- BN_CTX_get ;;
    bn_wexpand r (Z.of_nat r_len) ;;;
    bn_wexpand tmp (Z.of_nat r_len) ;;;
    va <-- get a ;;
    vb <-- get b ;;
    let '(x, y, _) := bn_abs_sub_part_words (words va) (words vb) cl dl in
    put_words tmp 0 y ;;;
    put_words r 0 x ;;;
    upd r (with_width r_len)).

Definition kMulNormalSize : Z := 16.

(** [j], the largest power of two less than or equal to the larger length. *)
Definition largest_pow2 (al bl : nat) : nat :=
  let i := Z.of_nat al - Z.of_nat bl in
  let j := if i >=? 0 then BN_num_bits_word (Z.of_nat al) else BN_num_bits_word (Z.of_nat bl) in
  Z.to_nat (Z.shiftl 1 (j - 1)).

(** The body of [bn_mul_impl] up to [end], with [rr] neither [a] nor [b]. *)
Definition mul_into (rr a b : ptr) : M unit :=
  va <-- get a ;;
  vb <-- get b ;;
  let al := width va in
  let bl := width vb in
  upd rr (with_neg (xorb (neg va) (neg vb))) ;;;
  let i := Z.of_nat al - Z.of_nat bl in
  if (i =? 0) && (al =? 8)%nat then
    bn_wexpand rr 16 ;;;
    upd rr (with_width 16) ;;;
    va <-- get a ;;
    vb <-- get b ;;
    put_words rr 0 (bn_mul_comba8 (words va) (words vb))
  else
    let top := (al + bl)%nat in
    if (Z.of_nat al >=? kMulNormalSize) && (Z.of_nat bl >=? kMulNormalSize) && ((-1 <=? i) && (i <=? 1)) then
      let j := largest_pow2 al bl in
      t <-- BN_CTX_get ;;
      (if (j <? al)%nat || (j <? bl)%nat then
         bn_wexpand t (Z.of_nat (j * 8)) ;;;
         bn_wexpand rr (Z.of_nat (j * 4)) ;;;
         va <-- get a ;;
         vb <-- get b ;;
         vr <-- get rr ;;
         vt <-- get t ;;
         put_arrays rr t (bn_mul_part_recursive recursion_fuel (d vr) (words va) (words vb) j (al - j) (bl - j) (d vt))
       else
         bn_wexpand t (Z.of_nat (j * 4)) ;;;
         bn_wexpand rr (Z.of_nat (j * 2)) ;;;
         va <-- get a ;;
         vb <-- get b ;;
         vr <-- get rr ;;
         vt <-- get t ;;
         put_arrays rr t (bn_mul_recursive recursion_fuel (d vr) (words va) (words vb) j
           (Z.of_nat al - Z.of_nat j) (Z.of_nat bl - Z.of_nat j) (d vt))) ;;;
      upd rr (with_width top)
    else
      bn_wexpand rr (Z.of_nat top) ;;;
      upd rr (with_width top) ;;;
      va <-- get a ;;
      vb <-- get b ;;
      upd rr (fun v => with_d (bn_mul_normal (d v) (words va) (words vb)) v).

Definition bn_mul_impl (r a b : ptr) : M unit :=
  va <-- get a ;;
  vb <-- get b ;;
  if (width va =? 0)%nat || (width vb =? 0)%nat then BN_zero r
  else
    with_ctx (
      rr <-- (if (r =? a) || (r =? b) then BN_CTX_get else st_ret r) ;;
      mul_into rr a b ;;;
      if negb (r =? rr) then BN_copy r rr else st_ret tt).

Definition BN_mul (r a b : ptr) : M unit :=
  bn_mul_impl r a b ;;;
  bn_set_minimal_width r.

Definition bn_mul_consttime (r a b : ptr) : M unit :=
  va <-- get a ;;
  vb <-- get b ;;
  st_guard (negb (neg va || neg vb)) ;;;
  bn_mul_impl r a b.

Definition BN_mul_word (bn : ptr) (w : Z) : M unit :=
  v <-- get bn ;;
  if (width v =? 0)%nat then st_ret tt
  else if w =? 0 then BN_zero bn
  else
    let '(l, ll) := bn_mul_words (words v) w in
    put_words bn 0 l ;;;
    if negb (ll =? 0) then
      bn_wexpand bn (Z.of_nat (width v) + 1) ;;;
      put_words bn (width v) [ll] ;;;
      upd bn (with_width (width v + 1))
    else st_ret tt.

(** The body of [bn_sqr_consttime] once [rr] and [tmp] are there. *)
Definition sqr_into (rr tmp a : ptr) : M unit :=
  va <-- get a ;;
  let al := width va in
  let max := (2 * al)%nat in
  bn_wexpand rr (Z.of_nat max) ;;;
  va <-- get a ;;
  (if (al =? 4)%nat then put_words rr 0 (bn_sqr_comba4 (words va))
   else if (al =? 8)%nat then put_words rr 0 (bn_sqr_comba8 (words va))
   else if Z.of_nat al <? BN_SQR_RECURSIVE_SIZE_NORMAL then
     upd rr (fun v => with_d (bn_sqr_normal (d v) (words va)) v)
   else if negb (al =? 0)%nat && (Z.land (Z.of_nat al) (Z.of_nat al - 1) =? 0) then
     bn_wexpand tmp (Z.of_nat (al * 4)) ;;;
     va <-- get a ;;
     vr <-- get rr ;;
     vt <-- get tmp ;;
     put_arrays rr tmp (bn_sqr_recursive recursion_fuel (d vr) (words va) al (d vt))
   else
     bn_wexpand tmp (Z.of_nat max) ;;;
     va <-- get a ;;
     put_words tmp 0 (bn_sqr_words (words va)) ;;;
     upd rr (fun v => with_d (bn_sqr_normal (d v) (words va)) v)) ;;;
  upd rr (fun v => with_width max (with_neg false v)).

(** [rr] and [tmp], the second of which is asked for even if the first is
    NULL. *)
Definition get_both (m : M ptr) : M (ptr * ptr) := fun s =>
  let '(rr, s) := m s in
  let '(tmp, s) := BN_CTX_get s in
  (match rr, tmp with Some rr, Some tmp => Some (rr, tmp) | _, _ => None end, s).

Definition bn_sqr_consttime (r a : ptr) : M unit :=
  va <-- get a ;;
  if (width va =? 0)%nat then upd r (fun v => with_neg false (with_width 0 v))
  else
    with_ctx (
      rt <-- get_both (if negb (a =? r) then st_ret r else BN_CTX_get) ;;
      let '(rr, tmp) := rt in
      sqr_into rr tmp a ;;;
      if negb (rr =? r) then BN_copy r rr else st_ret tt).

Definition BN_sqr (r a : ptr) : M unit :=
  bn_sqr_consttime r a ;;;
  bn_set_minimal_width r.

End product.
