(* ===== verification/BnProductSpec.v ===== *)
(** [BN_mul] and [BN_sqr] compute products, also when the result is one of the
    factors, and give the pool of temporaries back as it was. *)
From S2P Require Import Prelude Mem ConstTime Stack BnWords BnMul BnMulSpec Bn BnSpec BnCtxSpec BnProduct.

(** * Bit lengths *)

(** One step of the search, with [l] below [2^(2 k)]. *)
Lemma num_bits_step_spec k bits l : 1 <= k <= 32 -> 0 <= l < 2 ^ (2 * k) ->
  num_bits_step k (bits, l) = if l <? 2 ^ k then (bits, l) else (bits + k, l / 2 ^ k).
Proof.
  intros Hk Hl. unfold num_bits_step. rewrite (Z.shiftr_div_pow2 l) by lia.
  assert (0 < 2 ^ k <= 2 ^ 32) as Hp by (split; [apply Z.pow_pos_nonneg; lia|apply Z.pow_le_mono_r; lia]).
  replace (2 * k) with (k + k) in Hl by lia. rewrite Z.pow_add_r in Hl by lia.
  assert (0 <= l / 2 ^ k < 2 ^ k) as Hx by (split; [apply Z.div_pos; lia|apply Z.div_lt_upper_bound; lia]).
  destruct (Z.ltb_spec l (2 ^ k)) as [Hlt|Hge].
  - rewrite (Z.div_small l) by lia. change (u64 (0 - 0)) with 0. change (u64 (0 - Z.shiftr 0 (BN_BITS2 - 1))) with 0.
    rewrite !Z.land_0_r, Z.lxor_0_r. f_equal. lia.
  - assert (1 <= l / 2 ^ k) by (apply Z.div_le_lower_bound; lia). set (x := l / 2 ^ k) in *. clearbody x.
    assert (u64 (0 - x) = 2 ^ 64 - x) as ->.
    { unfold u64. replace (0 - x) with (2 ^ 64 - x + -1 * 2 ^ 64) by lia. rewrite Z.mod_add by lia. apply Z.mod_small. lia. }
    assert (Z.shiftr (2 ^ 64 - x) (BN_BITS2 - 1) = 1) as ->.
    { rewrite Z.shiftr_div_pow2 by done. change (BN_BITS2 - 1) with 63. symmetry.
      apply (Z.div_unique _ _ _ (2 ^ 63 - x)); lia. }
    change (u64 (0 - 1)) with (Z.ones 64). rewrite !Z.land_ones by lia. rewrite (Z.mod_small k) by lia.
    assert (x < 2 ^ 64) as Hx64 by lia. assert (l < 2 ^ 64) as Hl64 by nia.
    assert (Z.lxor x l mod 2 ^ 64 = Z.lxor x l) as ->.
    { rewrite <- Z.land_ones by lia. apply Z.bits_inj'. intros i Hi. rewrite Z.land_spec, !Z.lxor_spec.
      destruct (decide (i < 64)) as [Hi2|Hi2]; [by rewrite Z.ones_spec_low, andb_true_r by lia|].
      rewrite Z.ones_spec_high by lia. rewrite andb_false_r.
      rewrite <- (Z.mod_small x (2 ^ 64)), <- (Z.mod_small l (2 ^ 64)), !Z.mod_pow2_bits_high by lia. done. }
    f_equal. by rewrite (Z.lxor_comm x l), <- Z.lxor_assoc, Z.lxor_nilpotent, Z.lxor_0_l.
Qed.

(** Before and after a step, for [l] that is not zero: [x] is [l] without the
    bits that have been counted. *)
Definition counted (l w : Z) (bx : Z * Z) : Prop :=
  0 <= bx.1 - 1 <= 64 - w /\ bx.2 = l / 2 ^ (bx.1 - 1) /\ 0 < bx.2 < 2 ^ w.

Lemma counted_step l k bx : 1 <= k <= 32 -> counted l (2 * k) bx -> counted l k (num_bits_step k bx).
Proof.
  destruct bx as [bits x]. intros Hk (Hb & Hx & Hlt). cbn [fst snd] in *. rewrite num_bits_step_spec by lia.
  destruct (Z.ltb_spec x (2 ^ k)) as [Hs|Hs]; unfold counted; cbn [fst snd]; [split; [lia|split; [done|lia]]|].
  split; [lia|]. replace (bits + k - 1) with (bits - 1 + k) by lia. rewrite Z.pow_add_r by lia.
  rewrite <- Z.div_div by lia. split; [by rewrite <- Hx|]. replace (2 * k) with (k + k) in Hlt by lia.
  rewrite Z.pow_add_r in Hlt by lia. assert (0 < 2 ^ k) by lia.
  split; [enough (1 <= x / 2 ^ k) by lia; apply Z.div_le_lower_bound; lia|apply Z.div_lt_upper_bound; lia].
Qed.

(** [BN_num_bits_word] is the number of bits. *)
Lemma BN_num_bits_word_spec l : 0 < l < 2 ^ 64 ->
  1 <= BN_num_bits_word l <= 64 /\ 2 ^ (BN_num_bits_word l - 1) <= l < 2 ^ BN_num_bits_word l.
Proof.
  intros Hl. unfold BN_num_bits_word. rewrite (proj2 (Z.eqb_neq l 0)) by lia. cbn [negb Z.b2z fold_left].
  assert (counted l (2 * 32) (1, l)) as Hc.
  { split; [cbn; lia|]. cbn [fst snd]. change (1 - 1) with 0. rewrite Z.div_1_r. lia. }
  apply (counted_step _ 32), (counted_step _ 16), (counted_step _ 8), (counted_step _ 4), (counted_step _ 2), (counted_step _ 1) in Hc;
    [|lia..].
  destruct (num_bits_step 1 _) as [bits x]. destruct Hc as (Hb & Hx & Hlt). cbn [fst snd] in *. change (2 ^ 1) with 2 in Hlt.
  assert (x = 1) as -> by lia. split; [lia|]. assert (0 < 2 ^ (bits - 1)) by (apply Z.pow_pos_nonneg; lia).
  replace (2 ^ bits) with (2 * 2 ^ (bits - 1)) by (rewrite <- Z.pow_succ_r by lia; f_equal; lia). dlia.
Qed.

Lemma largest_pow2_spec al bl : (16 <= al)%nat -> (16 <= bl)%nat -> Z.of_nat al < 2 ^ 24 -> Z.of_nat bl < 2 ^ 24 ->
  exists k, pow2_8 k (largest_pow2 al bl) /\ (k < 24)%nat /\ (largest_pow2 al bl <= Nat.max al bl < 2 * largest_pow2 al bl)%nat.
Proof.
  intros Ha Hb Ha2 Hb2. unfold largest_pow2. cbv zeta.
  set (n := Nat.max al bl).
  assert ((if Z.of_nat al - Z.of_nat bl >=? 0 then BN_num_bits_word (Z.of_nat al) else BN_num_bits_word (Z.of_nat bl)) =
    BN_num_bits_word (Z.of_nat n)) as ->.
  { unfold n. destruct (Z.geb_spec (Z.of_nat al - Z.of_nat bl) 0); [by rewrite Nat.max_l by lia|by rewrite Nat.max_r by lia]. }
  destruct (BN_num_bits_word_spec (Z.of_nat n)) as (Hn & Hlo & Hhi); [lia|]. set (j := BN_num_bits_word (Z.of_nat n)) in *. clearbody j.
  assert (5 <= j <= 24) as Hj.
  { split.
    - enough (4 < j) by lia. apply (Z.pow_lt_mono_r_iff 2); [lia..|]. change (2 ^ 4) with 16. lia.
    - enough (j - 1 < 24) by lia. apply (Z.pow_lt_mono_r_iff 2); [lia..|]. lia. }
  rewrite Z.shiftl_1_l. exists (Z.to_nat (j - 4)). split; [|split; [lia|]].
  - unfold pow2_8. apply Nat2Z.inj. rewrite Z2Nat.id by (apply Z.pow_nonneg; lia).
    rewrite Nat2Z.inj_mul, Nat2Z.inj_pow, Z2Nat.id by lia. replace (j - 1) with (3 + (j - 4)) by lia. by rewrite Z.pow_add_r by lia.
  - replace (2 ^ j) with (2 * 2 ^ (j - 1)) in Hhi by (rewrite <- Z.pow_succ_r by lia; f_equal; lia). lia.
Qed.

(** The test of [bn_sqr_consttime] for a power of two. *)
Lemma land_pred_pow2 x : 0 < x -> Z.land x (x - 1) = 0 -> x = 2 ^ Z.log2 x.
Proof.
  intros Hx Hl. pose proof (Z.log2_spec x Hx) as [Hlo Hhi]. destruct (decide (x = 2 ^ Z.log2 x)) as [|Hne]; [done|exfalso].
  set (k := Z.log2 x) in *. assert (0 <= k) as Hk by apply Z.log2_nonneg. apply (f_equal (fun y => Z.testbit y k)) in Hl.
  rewrite Z.land_spec, Z.bits_0 in Hl. rewrite Z.pow_succ_r in Hhi by done.
  assert (forall y, 2 ^ k <= y < 2 * 2 ^ k -> Z.testbit y k = true) as Hb.
  { intros y Hy. apply Z.testbit_true; [done|]. assert (y / 2 ^ k = 1) as -> by (symmetry; apply (Z.div_unique _ _ _ (y - 2 ^ k)); lia). done. }
  rewrite !Hb in Hl by lia. done.
Qed.

Lemma pow2_width n : (16 <= n)%nat -> Z.of_nat n < 2 ^ 24 -> Z.land (Z.of_nat n) (Z.of_nat n - 1) = 0 ->
  exists k, pow2_8 k n /\ (k < 24)%nat.
Proof.
  intros Hn Hmax Hl. apply land_pred_pow2 in Hl; [|lia]. set (j := Z.log2 (Z.of_nat n)) in *.
  assert (4 <= j) as Hj by (apply Z.log2_le_pow2; lia). assert (j < 24) by (apply Z.log2_lt_pow2; lia).
  exists (Z.to_nat (j - 3)). split; [|lia]. unfold pow2_8. apply Nat2Z.inj. rewrite Hl, Nat2Z.inj_mul, Nat2Z.inj_pow, Z2Nat.id by lia.
  replace j with (3 + (j - 3)) at 1 by lia. by rewrite Z.pow_add_r by lia.
Qed.

(** * Results *)

(** A product in the array of [b'], which has the array of [b] underneath. *)
Lemma product_value m n v b b' : product_in m v (d b) (d b') -> (m <= length (d b))%nat -> Zlen (d b) <= BN_MAX_WORDS ->
  width b' = n -> (n <= m)%nat -> v < wbase n -> bn_ok b' /\ bn_abs b' = v.
Proof.
  intros (p & E & Hl & Hw & Hv) Hm Hmax <- Hn Hlt. unfold bn_ok, bn_abs, words, Zlen in *.
  pose proof (wval_nonneg p Hw). assert (take (width b') (d b') = take (width b') p) as ->.
  { rewrite E. apply take_app_le. lia. }
  rewrite E, length_app, length_drop. split; [split; [auto with words|lia]|].
  rewrite wval_take by (done || lia). rewrite Hv. apply Z.mod_small. lia.
Qed.

Lemma product_bound va vb : bn_ok va -> bn_ok vb -> 0 <= bn_abs va * bn_abs vb < wbase (width va + width vb).
Proof. intros Ha%bn_abs_bound Hb%bn_abs_bound. rewrite wbase_add. nia. Qed.

Lemma product_put_d m v ws b : length ws = m -> (m <= length (d b))%nat -> words_ok ws -> wval ws = v ->
  product_in m v (d b) (put 0 ws (d b)).
Proof. intros. by apply product_put. Qed.

Section product.
Context {H : Type} `{MallocSpec H}.
Implicit Types s : bn_state H.
Context (e : Prop) (He_mem : forall n h, 0 <= n <= 2 ^ 62 -> fst (OPENSSL_malloc n h) = None -> e).

(** * What an operation changes *)

(** Of the objects of the caller only [r] has changed. *)
Definition wrote (r : ptr) s s' : Prop := steps e s s' /\ (forall q, live s q -> q <> r -> objs s' q = objs s q).

Lemma wrote_trans r s1 s2 s3 : ctx_wf s1 -> wrote r s1 s2 -> wrote r s2 s3 -> wrote r s1 s3.
Proof.
  intros W [S1 F1] [S2 F2]. split; [by eapply steps_trans|]. intros q Hq Hr.
  rewrite F2; [by apply F1| |done]. eapply live_grow; [done| |done]. by destruct S1 as (_ & ? & _).
Qed.

(** Only objects that may be written have changed. *)
Lemma ctx_wf_objs s s' : ctx_wf s -> next_ptr s' = next_ptr s -> ctx s' = ctx s ->
  (forall q, objs s' q = objs s q \/ (q <> value_one_ptr /\ bn_ok (objs s' q) /\ flag_static_data (objs s' q) = flag_static_data (objs s q))) ->
  ctx_wf s'.
Proof.
  intros [? ? ? Hp ? ? ? ?] En Ec Ho. assert (pool s' = pool s) as Ep by (unfold pool; by rewrite Ec).
  split; rewrite ?Ep, ?Ec, ?En; try done.
  - intros p Hin. specialize (Hp p Hin) as (? & ? & ?). split; [done|].
    destruct (Ho p) as [->|(_ & ? & ->)]; done.
  - destruct (Ho value_one_ptr) as [->|[? _]]; done.
Qed.

Lemma steps_same_ctx s s' : (error (ctx s) = true -> e) -> ctx_wf s' -> next_ptr s' = next_ptr s -> ctx s' = ctx s -> steps e s s'.
Proof.
  intros He W En Ec. split; [done|]. split; [|by rewrite Ec].
  unfold ctx_grow, base, pool. rewrite En, Ec. split; [lia|]. split; [done|]. split; [lia|]. exists []. by rewrite app_nil_r.
Qed.

Lemma wrote_frame r s s' : (error (ctx s) = true -> e) -> ctx_wf s -> r <> value_one_ptr -> frame r s s' ->
  bn_ok (objs s' r) -> flag_static_data (objs s' r) = flag_static_data (objs s r) -> wrote r s s'.
Proof.
  intros He W Hr Hf Hok Hst. pose proof (frame_ctx_wf _ _ _ W Hr Hf Hok Hst). destruct Hf as (Hf & En & Ec).
  split; [by apply steps_same_ctx|auto].
Qed.

Lemma wrote_got r p s s' : (error (ctx s) = true -> e) -> got p s s' -> wrote r s s'.
Proof. intros He Hg. split; [by eapply steps_got|]. destruct Hg as (_ & _ & _ & _ & _ & F & _). auto. Qed.

Lemma bn_wexpand_e r n s : bn_ok (objs s r) -> (flag_static_data (objs s r) = true -> e) -> 0 <= n ->
  (BN_MAX_WORDS < n -> e) -> ensures e (bn_wexpand r n) s (fun _ s' => frame r s s' /\ grown (objs s r) (objs s' r) n).
Proof.
  intros Hok Hst Hn Hmax. eapply ensures_weaken; [by apply bn_wexpand_spec|]. intros Hw.
  destruct (flag_static_data (objs s r)) eqn:Es; [by apply Hst|].
  destruct (decide (n <= BN_MAX_WORDS)); [|apply Hmax; lia]. by eapply wexpand_explained.
Qed.

(** What [mul_into] leaves. *)
Definition product_post (rr : ptr) (n : nat) (v : Z) (sign : bool) s s' : Prop :=
  wrote rr s s' /\ bn_ok (objs s' rr) /\ bn_abs (objs s' rr) = v /\ width (objs s' rr) = n /\ neg (objs s' rr) = sign /\
  flag_static_data (objs s' rr) = flag_static_data (objs s rr) /\ flag_malloced (objs s' rr) = flag_malloced (objs s rr).

(** A product that is written after [bn_wexpand] made room. *)
Lemma product_post_frame rr m n v sign s s2 s3 : (error (ctx s) = true -> e) -> ctx_wf s -> rr <> value_one_ptr ->
  frame rr s s2 -> Z.of_nat m <= Zlen (d (objs s2 rr)) -> bn_ok (objs s2 rr) ->
  frame rr s s3 -> product_in m v (d (objs s2 rr)) (d (objs s3 rr)) -> width (objs s3 rr) = n -> (n <= m)%nat -> v < wbase n ->
  neg (objs s3 rr) = sign -> flag_static_data (objs s3 rr) = flag_static_data (objs s rr) ->
  flag_malloced (objs s3 rr) = flag_malloced (objs s rr) -> product_post rr n v sign s s3.
Proof.
  intros He W Hr _ Hm (_ & _ & Hmax) Hf Hp Hw Hn Hv Hs Hst Hma.
  destruct (product_value m n v (objs s2 rr) (objs s3 rr)) as [Hok Hval]; [done|unfold Zlen in *; lia|done..|].
  split; [by apply wrote_frame|]. done.
Qed.

(** What the products need: [rr] is another object than [a] and [b]. *)
Record product_pre (rr a b : ptr) s : Prop := {
  pp_wf : ctx_wf s;
  pp_room : ~ ctx_room 1 s -> e;
  pp_one : rr <> value_one_ptr;
  pp_live : live s rr /\ live s a /\ live s b;
  pp_other : a <> rr /\ b <> rr;
  pp_ok : bn_ok (objs s rr) /\ bn_ok (objs s a) /\ bn_ok (objs s b);
  pp_static : flag_static_data (objs s rr) = true -> e;
  pp_width : (0 < width (objs s a))%nat /\ (0 < width (objs s b))%nat;
  pp_max : BN_MAX_WORDS < 8 * Z.of_nat (longer_at s a b) -> e;
}.

(** The result that is written after the recursions: two arrays have changed. *)
Lemma product_post_arrays rr t m n v sign s s2 s3 s4 r' t' : (error (ctx s) = true -> e) -> ctx_wf s -> rr <> value_one_ptr ->
  got t s s2 -> live s rr -> frame t s2 s3 -> bn_ok (objs s3 t) -> width (objs s3 t) = 0%nat -> flag_static_data (objs s3 t) = false ->
  frame rr s3 s4 -> grown (objs s3 rr) (objs s4 rr) (Z.of_nat m) -> neg (objs s rr) = sign ->
  product_in m v (d (objs s4 rr)) r' -> length t' = length (d (objs s4 t)) -> (n <= m)%nat -> v < wbase n ->
  product_post rr n v sign s (updated (updated (updated s4 rr (with_d r')) t (with_d t')) rr (with_width n)).
Proof.
  intros He W Hone Hgot Hlive Hf3 Hok3 Hw3 Hst3 Hf4 Hg4 Hsign Hp Ht' Hn Hv. set (s5 := updated _ rr (with_width n)).
  pose proof Hgot as (W2 & G2 & Hnl & Hlt & Htone & Hkeep & (_ & _ & _ & Hts) & _ & _ & Ee2).
  assert (rr <> t) as Hrt by (intros ->; done). assert (error (ctx s2) = true -> e) as He2 by (by rewrite Ee2).
  pose proof (wrote_frame t s2 s3 He2 W2 Htone Hf3 Hok3 ltac:(congruence)) as [(W3 & _) _].
  destruct Hf3 as (Hf3 & En3 & Ec3). destruct Hf4 as (Hf4 & En4 & Ec4).
  assert (objs s3 rr = objs s rr) as Err by (by rewrite Hf3, Hkeep).
  rewrite Err in Hg4. destruct Hg4 as (Hok4 & Hl4 & _ & _ & Hneg4 & _ & Hst4 & Hma4).
  assert (objs s5 rr = with_width n (with_d r' (objs s4 rr))) as E5r.
  { unfold s5. rewrite objs_updated_same. f_equal. rewrite objs_updated_other by done. apply objs_updated_same. }
  assert (objs s5 t = with_d t' (objs s3 t)) as E5t.
  { unfold s5. rewrite objs_updated_other by done. rewrite objs_updated_same, objs_updated_other by done. by rewrite Hf4. }
  assert (forall q, q <> rr -> q <> t -> objs s5 q = objs s3 q) as E5.
  { intros q Hq1 Hq2. unfold s5. by rewrite !objs_updated_other, Hf4. }
  destruct (product_value m n v (objs s4 rr) (objs s5 rr)) as [Hok5 Hval5].
  { by rewrite E5r. }
  { unfold Zlen in *. lia. }
  { apply Hok4. }
  { by rewrite E5r. }
  { done. }
  { done. }
  split; [split|].
  - apply (steps_trans _ s s2); [by eapply steps_got|]. apply steps_same_ctx; [done| |cbn; congruence..].
    apply (ctx_wf_objs s3); [done|cbn; congruence..|]. intros q. destruct (decide (q = rr)) as [->|Hqr].
    { right. split; [done|]. split; [done|]. rewrite E5r. cbn. congruence. }
    destruct (decide (q = t)) as [->|Hqt]; [|left; by apply E5]. right. split; [done|]. rewrite E5t. split; [|done].
    destruct Hok3 as (_ & _ & Hm3). unfold bn_ok, words, Zlen in *. cbn [d width with_d]. rewrite Hw3, Ht', Hf4 by done.
    split; [constructor|]. split; [lia|done].
  - intros q Hq Hqr. assert (q <> t) by (intros ->; done). rewrite E5, Hf3, Hkeep by done. done.
  - split; [done|]. split; [done|]. rewrite E5r. cbn. split; [done|]. rewrite Hneg4, Hst4, Hma4. done.
Qed.

Lemma words_frame r q s s' : frame r s s' -> q <> r -> objs s' q = objs s q.
Proof. intros (Hf & _). apply Hf. Qed.

(** A product of the words of [a] and [b] in an array with room for [m] words. *)
Lemma put_product rr m n v s ws : bn_ok (objs s rr) -> Z.of_nat m <= Zlen (d (objs s rr)) -> length ws = m -> words_ok ws -> wval ws = v ->
  product_in m v (d (objs s rr)) (d (objs (updated (updated s rr (with_width n)) rr (put_d 0 ws)) rr)).
Proof.
  intros _ Hm Hl Hw Hv. rewrite !objs_updated_same. unfold put_d, with_d, with_width. cbn [d].
  apply product_put; (done || (unfold Zlen in *; lia)).
Qed.

(** The products of [bn_mul_recursive] and [bn_mul_part_recursive] for lengths
    that differ by one at most. *)
Lemma recursive_product va vb j dr dt : bn_ok va -> bn_ok vb -> j = largest_pow2 (width va) (width vb) ->
  (16 <= width va)%nat -> (16 <= width vb)%nat -> -1 <= Z.of_nat (width va) - Z.of_nat (width vb) <= 1 ->
  let part := (j <? width va)%nat || (j <? width vb)%nat in
  ((if part then 4 else 2) * j <= length dr)%nat -> ((if part then 8 else 4) * j <= length dt)%nat ->
  exists r' t', (if part then bn_mul_part_recursive recursion_fuel dr (words va) (words vb) j (width va - j) (width vb - j) dt
    else bn_mul_recursive recursion_fuel dr (words va) (words vb) j (Z.of_nat (width va) - Z.of_nat j) (Z.of_nat (width vb) - Z.of_nat j) dt)
      = Some (r', t') /\ length t' = length dt /\
    product_in ((if part then 4 else 2) * j) (bn_abs va * bn_abs vb) dr r' /\ (width va + width vb <= (if part then 4 else 2) * j)%nat.
Proof.
  intros Ha Hb -> H16a H16b Hdiff. pose proof (bn_ok_width _ Ha) as Hma. pose proof (bn_ok_width _ Hb) as Hmb.
  rewrite BN_MAX_WORDS_eq in *. destruct (largest_pow2_spec (width va) (width vb)) as (k & Hk & Hk24 & Hj); [lia..|].
  set (j := largest_pow2 (width va) (width vb)) in *. clearbody j. cbv zeta. unfold recursion_fuel.
  pose proof (length_words va Ha) as Hla. pose proof (length_words vb Hb) as Hlb. unfold bn_abs.
  assert (forall n, (width va <= n)%nat -> take n (words va) = words va) as Eva by (intros; apply take_ge; lia).
  assert (forall n, (width vb <= n)%nat -> take n (words vb) = words vb) as Evb by (intros; apply take_ge; lia).
  destruct ((j <? width va)%nat || (j <? width vb)%nat) eqn:Ec; intros Hr Ht.
  - rewrite orb_true_iff, !Nat.ltb_lt in Ec. assert (j <= width va /\ j <= width vb)%nat as [Hja Hjb] by lia.
    destruct (bn_mul_part_recursive_ok 32 k j Hk ltac:(lia) dr (words va) (words vb) (width va - j) (width vb - j) dt)
      as (r' & t' & -> & Hl & Hp); [lia..|auto with words|auto with words|].
    rewrite Eva, Evb in Hp by lia. eexists _, _. split; [done|]. split; [done|]. split; [done|lia].
  - rewrite orb_false_iff, !Nat.ltb_ge in Ec. destruct (bn_mul_recursive_spec 32 k j Hk ltac:(lia) dr (words va) (words vb) (Z.of_nat (width va) - Z.of_nat j) (Z.of_nat (width vb) - Z.of_nat j) dt)
      as (r' & t' & -> & Hl & Hp); [unfold Zlen; lia..|auto with words|auto with words|].
    rewrite Eva, Evb in Hp by lia. eexists _, _. split; [done|]. split; [done|]. split; [done|lia].
Qed.

Lemma frame_room r k s s' : frame r s s' -> ctx_room k s' <-> ctx_room k s.
Proof. intros Hf. unfold ctx_room. rewrite (frame_base r s s' Hf). destruct Hf as (_ & _ & ->). done. Qed.

(** What was done to [rr] before does not matter. *)
Lemma product_post_after rr n v sign s s1 s' : ctx_wf s -> wrote rr s s1 -> flag_static_data (objs s1 rr) = flag_static_data (objs s rr) ->
  flag_malloced (objs s1 rr) = flag_malloced (objs s rr) -> product_post rr n v sign s1 s' -> product_post rr n v sign s s'.
Proof.
  intros W Hw Hs Hm (Hw2 & ? & ? & ? & ? & ? & ?). split; [by eapply wrote_trans|]. split; [done|]. split; [done|].
  split; [done|]. split; [done|]. split; congruence.
Qed.

(** The recursive products: room for the scratch space and the result, and the
    recursion over the two arrays. *)
Lemma arrays_spec rr t a b (nt m n : nat) v sign s s2 (rec : list Z -> BIGNUM -> BIGNUM -> list Z -> option (list Z * list Z)) :
  (error (ctx s) = true -> e) -> ctx_wf s -> rr <> value_one_ptr -> got t s s2 -> live s rr -> live s a -> live s b ->
  a <> rr -> b <> rr -> bn_ok (objs s rr) -> (flag_static_data (objs s rr) = true -> e) ->
  (BN_MAX_WORDS < Z.of_nat nt -> e) -> (BN_MAX_WORDS < Z.of_nat m -> e) -> neg (objs s rr) = sign -> (n <= m)%nat -> v < wbase n ->
  (forall dr dt, (m <= length dr)%nat -> (nt <= length dt)%nat -> exists r' t', rec dr (objs s a) (objs s b) dt = Some (r', t') /\
     length t' = length dt /\ product_in m v dr r') ->
  ensures e ((bn_wexpand t (Z.of_nat nt) ;;;
    bn_wexpand rr (Z.of_nat m) ;;;
    va <-- get a ;;
    vb <-- get b ;;
    vr <-- get rr ;;
    vt <-- get t ;;
    put_arrays rr t (rec (d vr) va vb (d vt))) ;;;
    upd rr (with_width n)) s2 (fun _ s' => product_post rr n v sign s s').
Proof.
  intros He W Hone Hgot Hlr Hla Hlb Har Hbr Hr Hst Hnt Hm Hsign Hn Hv Hrec.
  pose proof Hgot as (W2 & _ & Hnl & Hlt & Htone & Hkeep & (Hokt & Hwt & _ & Htst) & _).
  assert (rr <> t /\ a <> t /\ b <> t) as (Hrt & Hat & Hbt) by (split; [|split]; intros ->; done).
  eapply (ensures_bind e _ _ s2 (fun _ s' => exists s3 s4 r' t', s' = updated (updated s4 rr (with_d r')) t (with_d t') /\
    frame t s2 s3 /\ bn_ok (objs s3 t) /\ width (objs s3 t) = 0%nat /\ flag_static_data (objs s3 t) = false /\
    frame rr s3 s4 /\ grown (objs s3 rr) (objs s4 rr) (Z.of_nat m) /\ product_in m v (d (objs s4 rr)) r' /\ length t' = length (d (objs s4 t)))).
  - eapply ensures_bind; [apply bn_wexpand_e; [done|congruence|lia|done]|].
    cbv beta. intros _ s3 (Hf3 & Hok3 & Hl3 & _ & Hw3 & _ & _ & Hst3 & _).
    assert (objs s3 rr = objs s rr) as E3r by (by rewrite (words_frame _ _ _ _ Hf3), Hkeep).
    eapply ensures_bind; [apply bn_wexpand_e; rewrite ?E3r; done || lia|].
    cbv beta. intros _ s4 [Hf4 Hg4].
    apply ensures_get, ensures_get, ensures_get, ensures_get.
    rewrite !(words_frame rr a s3 s4), !(words_frame rr b s3 s4), !(words_frame t a s2 s3), !(words_frame t b s2 s3), !Hkeep by done.
    destruct (Hrec (d (objs s4 rr)) (d (objs s4 t))) as (r' & t' & -> & Hl & Hp).
    { destruct Hg4 as (_ & Hl4 & _). unfold Zlen in Hl4. lia. }
    { rewrite (words_frame _ _ _ _ Hf4) by done. unfold Zlen in Hl3. lia. }
    cbn [put_arrays]. apply ensures_upd_bind, ensures_upd. exists s3, s4, r', t'. split; [done|]. split; [done|]. split; [done|].
    split; [by rewrite Hw3|]. split; [congruence|]. split; [done|]. split; [done|]. split; [done|done].
  - cbv beta. intros _ s' (s3 & s4 & r' & t' & -> & Hf3 & Hok3 & Hw3 & Hst3 & Hf4 & Hg4 & Hp & Hl).
    apply ensures_upd. by eapply product_post_arrays.
Qed.

Lemma mul_into_spec rr a b s : product_pre rr a b s ->
  let va := objs s a in let vb := objs s b in
  ensures e (mul_into rr a b) s (fun _ s' =>
    product_post rr (width va + width vb) (bn_abs va * bn_abs vb) (xorb (neg va) (neg vb)) s s').
Proof.
  intros [W Hroom Hone (Hlr & Hla & Hlb) [Har Hbr] (Hr & Ha & Hb) Hst [Hwa Hwb] Hmax] va vb.
  unfold mul_into. apply ensures_get, ensures_get. fold va vb. apply ensures_upd_bind.
  set (s1 := updated s rr _). set (sign := xorb (neg va) (neg vb)).
  assert (frame rr s s1) as Hf1 by (unfold s1; auto). assert (error (ctx s) = true -> e) as He by (by apply (room_error e 1)).
  assert (objs s1 rr = with_neg sign (objs s rr)) as E1 by apply objs_updated_same.
  pose proof (product_bound va vb Ha Hb) as Hbound. unfold longer_at, longer in Hmax. fold va vb in Hmax.
  destruct ((Z.of_nat (width va) - Z.of_nat (width vb) =? 0) && (width va =? 8)%nat) eqn:E8.
  { apply andb_true_iff in E8 as [E8 Ea%Nat.eqb_eq]. assert (width vb = 8%nat) as Eb by lia.
    eapply ensures_bind; [apply bn_wexpand_e; [by rewrite E1|by rewrite E1|lia|intros; apply Hmax; lia]|].
    cbv beta. intros _ s2 (Hf2 & Hok2 & Hl2 & _ & _ & Hneg2 & _ & Hst2 & Hma2). rewrite E1 in *.
    assert (frame rr s s2) as Hf by (by eapply frame_trans).
    apply ensures_upd_bind, ensures_get, ensures_get. rewrite !objs_updated_other by done.
    rewrite !(words_frame rr _ s s2) by done. fold va vb. apply ensures_upd.
    rewrite Ea, Eb. apply (product_post_frame rr 16 16 _ _ s s2); try done.
    - auto.
    - destruct (bn_mul_comba8_spec (words va) (words vb)) as (? & ? & ?); [by rewrite length_words..|auto with words|auto with words|].
      by apply put_product.
    - by rewrite !objs_updated_same.
    - rewrite Ea, Eb in Hbound. apply Hbound.
    - by rewrite !objs_updated_same.
    - by rewrite !objs_updated_same.
    - by rewrite !objs_updated_same. }
  destruct ((Z.of_nat (width va) >=? kMulNormalSize) && (Z.of_nat (width vb) >=? kMulNormalSize) &&
    ((-1 <=? Z.of_nat (width va) - Z.of_nat (width vb)) && (Z.of_nat (width va) - Z.of_nat (width vb) <=? 1))) eqn:E16.
  - assert ((16 <= width va)%nat /\ (16 <= width vb)%nat /\ -1 <= Z.of_nat (width va) - Z.of_nat (width vb) <= 1) as (H16a & H16b & Hdiff).
    { unfold kMulNormalSize in E16. rewrite !andb_true_iff, !Z.geb_le, !Z.leb_le in E16. lia. }
    set (j := largest_pow2 (width va) (width vb)).
    assert (wrote rr s s1) as Hw1 by (apply wrote_frame; rewrite ?E1; done).
    assert (ctx_wf s1) as W1 by apply Hw1.
    eapply ensures_bind; [apply (BN_CTX_get_got e He_mem); [done|]|].
    { by rewrite (frame_room rr). }
    cbv beta. intros t s2 Hgot. assert (forall q, live s q -> live s1 q) as Hlive by done.
    assert (objs s1 a = va /\ objs s1 b = vb) as [Ea Eb] by (by rewrite !(words_frame rr _ s s1)).
    pose proof (recursive_product va vb j) as Hrec. cbv zeta in Hrec.
    assert (8 * Z.of_nat j <= 8 * Z.of_nat (Nat.max (width va) (width vb)) /\ (Nat.max (width va) (width vb) < 2 * j)%nat) as [Hj Hj2].
    { pose proof (bn_ok_width va Ha). pose proof (bn_ok_width vb Hb). rewrite BN_MAX_WORDS_eq in *.
      destruct (largest_pow2_spec (width va) (width vb)) as (k & _ & _ & ?); [lia..|]. unfold j. lia. }
    eapply ensures_mono with (P := fun _ => product_post rr (width va + width vb) (bn_abs va * bn_abs vb) sign s1).
    2: { intros _ s'. apply product_post_after; [done|done|by rewrite E1|by rewrite E1]. }
    destruct ((j <? width va)%nat || (j <? width vb)%nat) eqn:Ec.
    + replace (j * 4)%nat with (4 * j)%nat by lia.
      eapply (arrays_spec rr t a b (j * 8) (4 * j) _ _ _ s1 s2 (fun dr va' vb' dt => bn_mul_part_recursive recursion_fuel dr
        (words va') (words vb') j (width va - j) (width vb - j) dt)); rewrite ?E1, ?Ea, ?Eb; try done; [intros; apply Hmax; lia|intros; apply Hmax; lia|lia|lia|].
      intros dr dt Hdr Hdt. destruct (Hrec dr dt) as (r' & t' & ? & ? & ? & _); try done; [lia|]. by exists r', t'.
    + replace (j * 2)%nat with (2 * j)%nat by lia. rewrite orb_false_iff, !Nat.ltb_ge in Ec.
      eapply (arrays_spec rr t a b (j * 4) (2 * j) _ _ _ s1 s2 (fun dr va' vb' dt => bn_mul_recursive recursion_fuel dr
        (words va') (words vb') j (Z.of_nat (width va) - Z.of_nat j) (Z.of_nat (width vb) - Z.of_nat j) dt));
        rewrite ?E1, ?Ea, ?Eb; try done; [intros; apply Hmax; lia|intros; apply Hmax; lia|lia|lia|].
      intros dr dt Hdr Hdt. destruct (Hrec dr dt) as (r' & t' & ? & ? & ? & _); try done; [lia|]. by exists r', t'.
  - eapply ensures_bind; [apply bn_wexpand_e; [by rewrite E1|by rewrite E1|lia|intros; apply Hmax; lia]|].
    cbv beta. intros _ s2 (Hf2 & Hok2 & Hl2 & _ & _ & Hneg2 & _ & Hst2 & Hma2). rewrite E1 in *.
    assert (frame rr s s2) as Hf by (by eapply frame_trans).
    apply ensures_upd_bind, ensures_get, ensures_get. rewrite !objs_updated_other by done.
    rewrite !(words_frame rr _ s s2) by done. fold va vb. apply ensures_upd.
    apply (product_post_frame rr (width va + width vb) (width va + width vb) _ _ s s2); rewrite ?objs_updated_same; try done; [auto| |lia].
    unfold with_d, with_width. cbn [d]. unfold bn_abs. rewrite <- (length_words va Ha), <- (length_words vb Hb).
    apply bn_mul_normal_product; [auto with words..|]. rewrite !length_words by done. unfold Zlen in *. lia.
Qed.

(** * Copies *)

Lemma BN_copy_spec r a s : r <> a -> bn_ok (objs s r) -> bn_ok (objs s a) -> (flag_static_data (objs s r) = true -> e) ->
  ensures e (BN_copy r a) s (fun _ s' => frame r s s' /\ bn_ok (objs s' r) /\ words (objs s' r) = words (objs s a) /\
    width (objs s' r) = width (objs s a) /\ neg (objs s' r) = neg (objs s a) /\
    flag_static_data (objs s' r) = flag_static_data (objs s r) /\ flag_malloced (objs s' r) = flag_malloced (objs s r)).
Proof.
  intros Hra Hr Ha Hst. unfold BN_copy. rewrite (proj2 (Z.eqb_neq a r)) by done. apply ensures_get.
  pose proof (bn_ok_width _ Ha) as Hmax.
  eapply ensures_bind; [apply bn_wexpand_e; [done..|lia|lia]|]. cbv beta. intros _ s1 (Hf & Hok & Hl & _ & _ & _ & _ & Hst1 & Hma1).
  apply ensures_get. rewrite (words_frame _ _ _ _ Hf) by done. apply ensures_upd_bind, ensures_upd.
  change (take (width (objs s a)) (d (objs s a))) with (words (objs s a)).
  pose proof (length_words _ Ha) as Hla. unfold Zlen in Hl.
  set (s' := updated _ r (fun b => with_neg (neg (objs s a)) (with_width (width (objs s a)) b))).
  assert (objs s' r = with_neg (neg (objs s a)) (with_width (width (objs s a)) (put_d 0 (words (objs s a)) (objs s1 r)))) as Er.
  { unfold s'. by rewrite !objs_updated_same. }
  assert (words (objs s' r) = words (objs s a)) as Ew.
  { rewrite Er. unfold words at 1. cbn [d width with_neg with_width with_d put_d]. unfold put. rewrite take_0. cbn [app].
    by apply take_app_length'. }
  split; [unfold s'; auto|]. split; [|rewrite Er in *; done].
  destruct Hok as (_ & _ & Hm). split; [rewrite Ew; auto with words|]. rewrite Er. unfold put_d, with_d. cbn [d width with_neg with_width].
  unfold Zlen in *. rewrite length_put by (cbn; lia). lia.
Qed.

(** * Operations with temporaries *)

(** [r] may be one of the operands. *)
Record operands (k : nat) (r a b : ptr) s : Prop := {
  op_wf : ctx_wf s;
  op_room : ~ ctx_room k s -> e;
  op_one : r <> value_one_ptr;
  op_live : live s r /\ live s a /\ live s b;
  op_ok : bn_ok (objs s r) /\ bn_ok (objs s a) /\ bn_ok (objs s b);
  op_static : flag_static_data (objs s r) = true -> e;
  op_max : BN_MAX_WORDS < 8 * Z.of_nat (longer_at s a b) -> e;
}.

(** What is left when the operation is done: the number, everything else as it
    was, and the temporaries given back. *)
Definition result (r : ptr) (Q : BIGNUM -> Prop) s (o : ptr -> BIGNUM) : Prop :=
  (forall q, live s q -> q <> r -> o q = objs s q) /\ bn_ok (o r) /\ Q (o r) /\
  flag_static_data (o r) = flag_static_data (objs s r) /\ flag_malloced (o r) = flag_malloced (objs s r).

Definition op_post (r : ptr) (Q : BIGNUM -> Prop) s s' : Prop :=
  ctx_wf s' /\ ctx_grow s s' /\ balanced e s s' /\ result r Q s (objs s').

Lemma op_post_frame r Q s s' : (error (ctx s) = true -> e) -> ctx_wf s -> r <> value_one_ptr -> frame r s s' ->
  bn_ok (objs s' r) -> flag_static_data (objs s' r) = flag_static_data (objs s r) ->
  flag_malloced (objs s' r) = flag_malloced (objs s r) -> Q (objs s' r) -> op_post r Q s s'.
Proof.
  intros He W Hr Hf Hok Hs Hm HQ. split; [by eapply frame_ctx_wf|]. split; [by eapply frame_grow|].
  split; [|split; [intros; by eapply words_frame|done]]. unfold balanced. destruct Hf as (_ & _ & ->). done.
Qed.

(** A frame written after an operation. *)
Lemma op_post_then_frame r Q (Q' : BIGNUM -> Prop) s s1 s' : op_post r Q s s1 -> r <> value_one_ptr -> frame r s1 s' -> bn_ok (objs s' r) ->
  flag_static_data (objs s' r) = flag_static_data (objs s1 r) -> flag_malloced (objs s' r) = flag_malloced (objs s1 r) ->
  (Q (objs s1 r) -> Q' (objs s' r)) -> op_post r Q' s s'.
Proof.
  intros (W & G & B & Hl & Hok1 & HQ & Hs & Hm) Hr Hf Hok Hs' Hm' HQ'.
  split; [by eapply frame_ctx_wf|]. split; [eapply ctx_grow_trans; [done|by eapply frame_grow]|].
  split; [|split; [|split; [done|split; [by apply HQ'|split; congruence]]]].
  - unfold balanced in *. destruct Hf as (_ & _ & ->). done.
  - intros q Hq Hqr. rewrite (words_frame _ _ _ _ Hf) by done. by apply Hl.
Qed.

(** The copy of [rr] that [r] gets. *)
Lemma copy_result r rr (n : nat) v sign s s1 s2 s3 : ctx_wf s1 -> objs s1 = objs s -> (forall q, live s q -> live s1 q) ->
  live s r -> r <> value_one_ptr -> bn_ok (objs s r) -> (flag_static_data (objs s r) = true -> e) -> (error (ctx s1) = true -> e) ->
  got rr s1 s2 -> product_post rr n v sign s2 s3 ->
  ensures e (BN_copy r rr) s3 (fun _ s' => steps e s1 s' /\
    result r (fun b => bn_abs b = v /\ width b = n /\ neg b = sign) s (objs s')).
Proof.
  intros W1 Eo Hlive Hlr Hone Hr Hst He Hgot (Hw & Hok & Hv & Hn & Hs & _ & _).
  pose proof Hgot as (W2 & G2 & Hnl & Hlrr & _ & Hkeep & _ & _ & _ & Ee).
  assert (r <> rr) as Hne by (intros ->; apply Hnl; by apply Hlive).
  destruct Hw as [S3 K3]. pose proof S3 as (W3 & G3 & He3 & _).
  assert (forall q, live s q -> objs s3 q = objs s q) as Keep.
  { intros q Hq. apply Hlive in Hq as Hq1. assert (q <> rr) by (intros ->; done). rewrite K3, Hkeep, Eo; [done|done| |done].
    exact (live_grow s1 s2 q W1 G2 Hq1). }
  eapply ensures_mono; [apply BN_copy_spec; [done|by rewrite Keep|done|by rewrite Keep]|].
  cbv beta. intros _ s4 (Hf & Hok4 & Ew & En & Es & Hs4 & Hm4). rewrite Keep in Hs4, Hm4 by done. split.
  - eapply steps_trans; [by eapply steps_got|]. eapply steps_trans; [exact S3|].
    apply (wrote_frame r s3 s4); [done..|by rewrite Keep].
  - split; [|split; [done|split; [|done]]].
    + intros q Hq Hqr. rewrite (words_frame _ _ _ _ Hf) by done. by apply Keep.
    + unfold bn_abs. rewrite Ew. split; [exact Hv|]. split; congruence.
Qed.

Definition or_zero (z : bool) (n : nat) : nat := if z then 0%nat else n.

Lemma bn_abs_empty b : width b = 0%nat -> bn_abs b = 0.
Proof. intros E. unfold bn_abs, words. by rewrite E, take_0. Qed.

Lemma bn_mul_impl_spec r a b s : operands 3 r a b s ->
  let va := objs s a in let vb := objs s b in
  let z := (width va =? 0)%nat || (width vb =? 0)%nat in
  ensures e (bn_mul_impl r a b) s (fun _ s' => op_post r (fun p => bn_abs p = bn_abs va * bn_abs vb /\
    width p = or_zero z (width va + width vb) /\ neg p = if z then false else xorb (neg va) (neg vb)) s s').
Proof.
  intros [W Hroom Hone (Hlr & Hla & Hlb) (Hr & Ha & Hb) Hst Hmax] va vb z. unfold bn_mul_impl.
  apply ensures_get, ensures_get. fold va vb z.
  assert (error (ctx s) = true -> e) as He by (by apply (room_error e 3)).
  destruct z eqn:Ez.
  { apply ensures_upd. assert (bn_abs va * bn_abs vb = 0) as Hz.
    { unfold z in Ez. apply orb_true_iff in Ez. rewrite !Nat.eqb_eq in Ez. destruct Ez as [E|E]; rewrite (bn_abs_empty _ E); lia. }
    apply op_post_frame; rewrite ?objs_updated_same; try done.
    destruct Hr as (_ & _ & ?). split; [constructor|]. split; [cbn; lia|done]. }
  unfold z in Ez. rewrite orb_false_iff, !Nat.eqb_neq in Ez. cbn [or_zero].
  apply (with_ctx_spec e He_mem _ 2 s (fun _ o => result r (fun p => bn_abs p = bn_abs va * bn_abs vb /\
    width p = (width va + width vb)%nat /\ neg p = xorb (neg va) (neg vb)) s o)); [done|done|].
  intros s1 W1 Eo Hlive He1 Hroom1.
  destruct ((r =? a) || (r =? b)) eqn:Eal.
  - eapply ensures_bind; [by apply (BN_CTX_get_spec e He_mem 1)|]. cbv beta. intros rr s2 [Hgot Hroom2].
    pose proof Hgot as (W2 & G2 & Hnl & Hlrr & Hrrone & Hkeep & (Hokrr & _ & _ & Hstrr) & _).
    assert (forall q, live s q -> objs s2 q = objs s q) as K2 by (intros q Hq; rewrite Hkeep, Eo by auto; done).
    assert (forall q, live s q -> live s2 q /\ q <> rr) as L2.
    { intros q Hq. split; [exact (live_grow s1 s2 q W1 G2 (Hlive q Hq))|]. intros ->. by apply Hnl, Hlive. }
    eapply ensures_bind.
    { apply (mul_into_spec rr a b s2). assert (objs s2 a = objs s a /\ objs s2 b = objs s b) as [Ka Kb] by (by rewrite !K2).
      split; unfold longer_at; rewrite ?Ka, ?Kb; try done.
      - split; [done|]. split; by apply L2.
      - split; by apply L2.
      - by rewrite Hstrr.
      - unfold va, vb in Ez. lia.
      }
    cbv beta zeta. rewrite !K2 by done. fold va vb. intros _ s3 Hp.
    assert (r <> rr) as Hne by (by apply L2). rewrite (proj2 (Z.eqb_neq r rr)) by done. cbn [negb].
    eapply ensures_mono; [by eapply (copy_result r rr _ _ _ s s1 s2 s3)|]. cbv beta. intros _ s4 Hs4. exact Hs4.
  - apply orb_false_iff in Eal as [Era%Z.eqb_neq Erb%Z.eqb_neq].
    apply (ensures_bind _ (st_ret r) _ s1 (fun rr s2 => rr = r /\ s2 = s1)); [by apply ensures_ret|].
    intros ? ? [-> ->]. eapply ensures_bind.
    { apply (mul_into_spec r a b s1). split; unfold longer_at; rewrite ?Eo; try done.
      - intros Hn. apply Hroom1. intros Hx. apply Hn. destruct Hx as (? & ? & ? & ?). split; [done|]. split; [lia|]. split; lia.
      - split; [by apply Hlive|]. split; by apply Hlive.
      - unfold va, vb in Ez. lia.
      }
    cbv beta zeta. rewrite !Eo. fold va vb. intros _ s3 ([S3 K3] & Hok & Hv & Hn & Hs & Hst3 & Hma3).
    rewrite Z.eqb_refl. cbn [negb]. apply ensures_ret. split; [done|]. rewrite Eo in Hst3, Hma3.
    split; [|done]. intros q Hq Hqr. rewrite K3, Eo by auto. done.
Qed.

(** The width is made minimal, and a negative zero is positive. *)
Lemma minimal_after r v sign s s1 : op_post r (fun p => bn_abs p = v /\ neg p = sign) s s1 -> r <> value_one_ptr ->
  ensures e (bn_set_minimal_width r) s1 (fun _ s' => op_post r (fun p => bn_minimal p /\ bn_val p = if sign then - v else v) s s').
Proof.
  intros Hop Hone. pose proof Hop as (W & G & B & Hl & Hok & HQ & Hs & Hm).
  eapply ensures_mono; [apply (ensures_weaken False); [by apply bn_set_minimal_width_spec|done]|].
  cbv beta zeta. intros _ s' (Hf & Hok' & Hmin & Hv & _ & Hn & Hs' & Hm').
  eapply op_post_then_frame; [exact Hop|done..|]. intros [<- <-]. split; [done|]. unfold bn_val. rewrite Hv, Hn.
  destruct (Z.eqb_spec (bn_abs (objs s1 r)) 0) as [->|]; [|done]. by destruct (neg (objs s1 r)).
Qed.

Lemma op_post_mono r (Q Q' : BIGNUM -> Prop) s s' : op_post r Q s s' -> (forall b, Q b -> Q' b) -> op_post r Q' s s'.
Proof. intros (? & ? & ? & ? & ? & ? & ?) HQ. split; [done|]. split; [done|]. split; [done|]. split; [done|]. split; [done|]. split; [auto|done]. Qed.

Lemma BN_mul_ok r a b s : operands 3 r a b s ->
  ensures e (BN_mul r a b) s (fun _ s' =>
    op_post r (fun p => bn_minimal p /\ bn_val p = bn_val (objs s a) * bn_val (objs s b)) s s').
Proof.
  intros Hop. pose proof (op_one _ _ _ _ _ Hop) as Hone. unfold BN_mul. eapply ensures_bind; [by apply bn_mul_impl_spec|]. cbv beta zeta.
  intros _ s1 Hp. eapply ensures_mono; [eapply minimal_after; [|done]; eapply op_post_mono; [exact Hp|]; intros p (Hv & _ & Hn); exact (conj Hv Hn)|].
  cbv beta. intros _ s' Hp'. eapply op_post_mono; [exact Hp'|]. intros p [Hmin ->]. split; [done|]. unfold bn_val.
  destruct (Nat.eqb_spec (width (objs s a)) 0) as [E|_]; [rewrite (bn_abs_empty _ E); cbn; destruct (neg _); lia|].
  destruct (Nat.eqb_spec (width (objs s b)) 0) as [E|_]; [rewrite (bn_abs_empty _ E); cbn; destruct (neg _), (neg _); lia|].
  cbn [orb]. destruct (neg (objs s a)), (neg (objs s b)); cbn; lia.
Qed.

(** * Squares *)

(** What [sqr_into] does to the two objects. *)
Definition squared (rr t a : ptr) s s' : Prop :=
  next_ptr s' = next_ptr s /\ ctx s' = ctx s /\ (forall q, q <> rr -> q <> t -> objs s' q = objs s q) /\
  (bn_ok (objs s' t) /\ flag_static_data (objs s' t) = false) /\
  bn_ok (objs s' rr) /\ bn_abs (objs s' rr) = bn_abs (objs s a) * bn_abs (objs s a) /\ width (objs s' rr) = (2 * width (objs s a))%nat /\
  neg (objs s' rr) = false /\ flag_static_data (objs s' rr) = flag_static_data (objs s rr) /\
  flag_malloced (objs s' rr) = flag_malloced (objs s rr).

Lemma squared_intro rr t a s s1 s2 r' : rr <> t -> a <> rr -> a <> t -> bn_ok (objs s a) ->
  frame rr s s1 -> bn_ok (objs s1 rr) -> (2 * width (objs s a) <= length (d (objs s1 rr)))%nat ->
  flag_static_data (objs s1 rr) = flag_static_data (objs s rr) -> flag_malloced (objs s1 rr) = flag_malloced (objs s rr) ->
  next_ptr s2 = next_ptr s1 -> ctx s2 = ctx s1 -> (forall q, q <> rr -> q <> t -> objs s2 q = objs s1 q) ->
  bn_ok (objs s2 t) -> flag_static_data (objs s2 t) = false -> objs s2 rr = with_d r' (objs s1 rr) ->
  product_in (2 * width (objs s a)) (bn_abs (objs s a) * bn_abs (objs s a)) (d (objs s1 rr)) r' ->
  squared rr t a s (updated s2 rr (fun v => with_width (2 * width (objs s a)) (with_neg false v))).
Proof.
  intros Hrt Har Hat Ha Hf Hok1 Hl1 Hs1 Hm1 En Ec Ho Hokt Hst Er Hp. set (s' := updated s2 rr _).
  assert (objs s' rr = with_width (2 * width (objs s a)) (with_neg false (with_d r' (objs s1 rr)))) as E'.
  { unfold s'. by rewrite objs_updated_same, Er. }
  assert (objs s' t = objs s2 t) as Et by (unfold s'; by rewrite objs_updated_other).
  destruct (product_value (2 * width (objs s a)) (2 * width (objs s a)) (bn_abs (objs s a) * bn_abs (objs s a)) (objs s1 rr) (objs s' rr)) as [Hok Hv].
  { by rewrite E'. } { done. } { apply Hok1. } { by rewrite E'. } { done. }
  { pose proof (product_bound _ _ Ha Ha) as Hb.
    replace (2 * width (objs s a))%nat with (width (objs s a) + width (objs s a))%nat by lia. apply Hb. }
  pose proof Hf as (Hf' & En' & Ec'). split; [cbn; congruence|]. split; [cbn; congruence|].
  split; [intros q Hq1 Hq2; unfold s'; rewrite objs_updated_other by done; by rewrite Ho, Hf'|].
  rewrite Et. split; [done|]. split; [done|]. split; [done|]. rewrite E'. split; [done|]. split; [done|]. by split.
Qed.

Lemma bn_ok_scratch b l : bn_ok b -> width b = 0%nat -> length l = length (d b) -> bn_ok (with_d l b).
Proof.
  intros (_ & _ & Hm) Hw Hl. unfold bn_ok, words, Zlen in *. cbn [d width with_d]. rewrite Hw, Hl.
  split; [constructor|]. split; [lia|done].
Qed.

Lemma ensures_assoc {A B C} (m : ST (bn_state H) A) (f : A -> ST (bn_state H) B) (g : B -> ST (bn_state H) C) s Q :
  ensures e (st_bind m (fun x => st_bind (f x) g)) s Q -> ensures e (st_bind (st_bind m f) g) s Q.
Proof. unfold ensures, st_bind. by destruct (m s) as [[a|] s']. Qed.

Lemma sqr_into_spec rr t a s : rr <> t -> a <> rr -> a <> t -> bn_ok (objs s rr) -> bn_ok (objs s a) -> bn_ok (objs s t) ->
  (flag_static_data (objs s rr) = true -> e) -> flag_static_data (objs s t) = false -> width (objs s t) = 0%nat ->
  (0 < width (objs s a))%nat -> (BN_MAX_WORDS < 8 * Z.of_nat (width (objs s a)) -> e) ->
  ensures e (sqr_into rr t a) s (fun _ s' => squared rr t a s s').
Proof.
  intros Hrt Har Hat Hr Ha Ht Hst Htst Htw Hwa Hmax. unfold sqr_into. apply ensures_get. set (n := width (objs s a)) in *.
  eapply ensures_bind; [apply bn_wexpand_e; [done..|lia|intros; apply Hmax; lia]|].
  cbv beta. intros _ s1 (Hf & Hok1 & Hl1 & _ & _ & _ & _ & Hs1 & Hm1). unfold Zlen in Hl1. apply ensures_get.
  assert (objs s1 a = objs s a /\ objs s1 t = objs s t) as [Ea Et] by (by rewrite !(words_frame _ _ _ _ Hf)). rewrite !Ea.
  pose proof (length_words _ Ha) as Hlw. pose proof (words_ok_words _ Ha) as Hww. fold n in Hlw.
  set (final := fun v => with_width (2 * n) (with_neg false v)).
  assert (forall r', product_in (2 * n) (bn_abs (objs s a) * bn_abs (objs s a)) (d (objs s1 rr)) r' ->
    ensures e (upd rr final) (updated s1 rr (with_d r')) (fun _ s' => squared rr t a s s')) as Hdirect.
  { intros r' Hp. apply ensures_upd. apply (squared_intro rr t a s s1 _ r'); rewrite ?objs_updated_same; try done; [unfold n in *; lia|..].
    - intros q Hq1 Hq2. by rewrite objs_updated_other.
    - rewrite objs_updated_other by done. by rewrite Et.
    - rewrite objs_updated_other by done. by rewrite Et. }
  assert (forall nt, 0 <= nt -> (BN_MAX_WORDS < nt -> e) -> forall k : unit -> ST (bn_state H) unit,
    (forall s3, frame t s1 s3 -> nt <= Zlen (d (objs s3 t)) -> (forall r' t' s2, next_ptr s2 = next_ptr s3 -> ctx s2 = ctx s3 ->
        (forall q, q <> rr -> q <> t -> objs s2 q = objs s3 q) -> objs s2 rr = with_d r' (objs s3 rr) -> objs s2 t = with_d t' (objs s3 t) ->
        length t' = length (d (objs s3 t)) ->
        product_in (2 * n) (bn_abs (objs s a) * bn_abs (objs s a)) (d (objs s3 rr)) r' ->
        squared rr t a s (updated s2 rr final)) ->
      ensures e (k tt) s3 (fun _ s' => squared rr t a s s')) ->
    ensures e (st_bind (bn_wexpand t nt) k) s1 (fun _ s' => squared rr t a s s')) as Hscratch.
  { intros nt Hnt Hm k Hk. eapply ensures_bind; [apply bn_wexpand_e; [by rewrite Et|by rewrite Et, Htst|done..]|].
    cbv beta. intros [] s3 (Hf3 & Hok3 & Hl3 & _ & Hw3 & _ & _ & Hst3 & _). apply Hk; [done|done|].
    intros r' t' s2 En Ec Ho Er Et2 Hl' Hp. pose proof Hf3 as (_ & En3 & Ec3). rewrite (words_frame _ rr _ _ Hf3) in Er, Hp by done.
    apply (squared_intro rr t a s s1 s2 r'); try done; [unfold n in *; lia|congruence..| | |].
    - intros q Hq1 Hq2. by rewrite Ho, (words_frame _ _ _ _ Hf3).
    - rewrite Et2. apply bn_ok_scratch; [done|congruence|done].
    - rewrite Et2. cbn. congruence. }
  destruct (Nat.eqb_spec n 4) as [E4|E4].
  { apply (Hdirect (put 0 (bn_sqr_comba4 (words (objs s a))) (d (objs s1 rr)))).
    destruct (bn_sqr_comba4_spec (words (objs s a))) as (Hp1 & Hp2 & Hp3); [lia|done|].
    set (p := bn_sqr_comba4 _) in *. clearbody p. rewrite E4. apply product_put; [lia|lia|done|done]. }
  destruct (Nat.eqb_spec n 8) as [E8|E8].
  { apply (Hdirect (put 0 (bn_sqr_comba8 (words (objs s a))) (d (objs s1 rr)))).
    destruct (bn_sqr_comba8_spec (words (objs s a))) as (Hp1 & Hp2 & Hp3); [lia|done|].
    set (p := bn_sqr_comba8 _) in *. clearbody p. rewrite E8. apply product_put; [lia|lia|done|done]. }
  assert (forall l, (2 * n <= length l)%nat -> product_in (2 * n) (bn_abs (objs s a) * bn_abs (objs s a)) l (bn_sqr_normal l (words (objs s a)))) as Hnormal.
  { intros l Hl. destruct (bn_sqr_normal_spec l (words (objs s a))) as (p & Ep & ? & ? & ?); [done|lia|]. rewrite Hlw in *. by exists p. }
  destruct (Z.ltb_spec (Z.of_nat n) BN_SQR_RECURSIVE_SIZE_NORMAL) as [H16|H16].
  { apply (Hdirect (bn_sqr_normal (d (objs s1 rr)) (words (objs s a)))). apply Hnormal. lia. }
  unfold BN_SQR_RECURSIVE_SIZE_NORMAL, BN_MUL_RECURSIVE_SIZE_NORMAL in H16.
  destruct (negb (n =? 0)%nat && (Z.land (Z.of_nat n) (Z.of_nat n - 1) =? 0)) eqn:Ep2.
  - apply andb_true_iff in Ep2 as [_ Ep2%Z.eqb_eq]. pose proof (bn_ok_width _ Ha) as Hnm. rewrite BN_MAX_WORDS_eq in Hnm. fold n in Hnm.
    destruct (pow2_width n) as (k & Hk & Hk24); [lia..|done|].
    apply ensures_assoc, Hscratch; [lia|intros; apply Hmax; lia|]. intros s3 Hf3 Hl3 Hfin.
    apply ensures_assoc, ensures_get, ensures_assoc, ensures_get, ensures_assoc, ensures_get.
    rewrite (words_frame _ a _ _ Hf3), (words_frame _ rr _ _ Hf3), Ea by done.
    destruct (bn_sqr_recursive_spec recursion_fuel k n Hk ltac:(unfold recursion_fuel; lia) (d (objs s1 rr)) (words (objs s a)) (d (objs s3 t)))
      as (r' & t' & -> & Hl' & Hp); [lia|lia|unfold Zlen in *; lia|done|].
    rewrite (take_ge (words (objs s a))) in Hp by lia.
    cbn [put_arrays]. apply ensures_assoc, ensures_upd_bind, ensures_upd_bind, ensures_upd.
    apply (Hfin r' t'); try done.
    + intros q Hq1 Hq2. by rewrite !objs_updated_other.
    + rewrite objs_updated_other by done. by rewrite objs_updated_same.
    + rewrite objs_updated_same. by rewrite objs_updated_other.
    + by rewrite (words_frame _ rr _ _ Hf3).
  - apply ensures_assoc, Hscratch; [lia|intros; apply Hmax; lia|]. intros s3 Hf3 Hl3 Hfin.
    apply ensures_assoc, ensures_get. rewrite (words_frame _ a _ _ Hf3), Ea by done.
    pose proof (bn_sqr_words_spec (words (objs s a)) Hww) as Hsq. apply ensures_assoc, ensures_upd_bind, ensures_upd_bind, ensures_upd.
    apply (Hfin (bn_sqr_normal (d (objs s3 rr)) (words (objs s a))) (put 0 (bn_sqr_words (words (objs s a))) (d (objs s3 t)))); try done.
    + intros q Hq1 Hq2. by rewrite !objs_updated_other.
    + rewrite objs_updated_same. by rewrite objs_updated_other.
    + rewrite objs_updated_other by done. by rewrite objs_updated_same.
    + apply length_put. destruct Hsq as (-> & _). unfold Zlen in Hl3. lia.
    + rewrite (words_frame _ rr _ _ Hf3) by done. apply Hnormal. lia.
Qed.

Lemma ensures_get_both m s (P : ptr -> bn_state H -> Prop) (Q : ptr * ptr -> bn_state H -> Prop) :
  ensures e m s P -> (forall rr s1, P rr s1 -> ensures e BN_CTX_get s1 (fun tmp s2 => Q (rr, tmp) s2)) ->
  ensures e (get_both m) s Q.
Proof.
  unfold ensures, get_both. intros Hm Hk. destruct (m s) as [[rr|] s1].
  - specialize (Hk rr s1 Hm). by destruct (BN_CTX_get s1) as [[tmp|] s2].
  - by destruct (BN_CTX_get s1) as [[tmp|] s2].
Qed.

(** The state after [sqr_into], with [tmp] taken from the pool before. *)
Lemma squared_post rr t a s s2 s3 : ctx_wf s -> (error (ctx s) = true -> e) -> rr <> value_one_ptr -> live s rr -> live s a ->
  got t s s2 -> squared rr t a s2 s3 ->
  product_post rr (2 * width (objs s a)) (bn_abs (objs s a) * bn_abs (objs s a)) false s s3.
Proof.
  intros W He Hone Hlr Hla Hgot (En & Ec & Ho & [Hokt Hstt] & Hok & Hv & Hw & Hn & Hs & Hm).
  pose proof Hgot as (W2 & G2 & Hnl & Hlt & Htone & Hkeep & (_ & _ & _ & Hts) & _ & _ & Ee2).
  rewrite (Hkeep a Hla) in Hv, Hw. rewrite (Hkeep rr Hlr) in Hs, Hm.
  split; [split|done].
  - eapply steps_trans; [by eapply steps_got|]. apply steps_same_ctx; [by rewrite Ee2| |done..].
    apply (ctx_wf_objs s2); [done..|]. intros q. destruct (decide (q = rr)) as [->|Hqr].
    { right. split; [done|]. split; [done|]. by rewrite Hs, Hkeep. }
    destruct (decide (q = t)) as [->|Hqt]; [|left; by apply Ho]. right. split; [done|]. split; [done|]. congruence.
  - intros q Hq Hqr. rewrite Ho, Hkeep; [done..|]. by intros ->.
Qed.

Lemma bn_sqr_consttime_spec r a s : operands 3 r a a s -> let va := objs s a in
  ensures e (bn_sqr_consttime r a) s (fun _ s' => op_post r (fun p => bn_abs p = bn_abs va * bn_abs va /\
    width p = (2 * width va)%nat /\ neg p = false) s s').
Proof.
  intros [W Hroom Hone (Hlr & Hla & _) (Hr & Ha & _) Hst Hmax] va. unfold bn_sqr_consttime. apply ensures_get. fold va.
  assert (error (ctx s) = true -> e) as He by (by apply (room_error e 3)). unfold longer_at, longer in Hmax. rewrite Nat.max_id in Hmax.
  destruct (Nat.eqb_spec (width va) 0) as [Ez|Ez].
  { apply ensures_upd. apply op_post_frame; rewrite ?objs_updated_same; try done.
    - destruct Hr as (_ & _ & ?). split; [constructor|]. split; [cbn; lia|done].
    - rewrite (bn_abs_empty _ Ez), Ez. done. }
  apply (with_ctx_spec e He_mem _ 2 s (fun _ o => result r (fun p => bn_abs p = bn_abs va * bn_abs va /\
    width p = (2 * width va)%nat /\ neg p = false) s o)); [done|done|].
  intros s1 W1 Eo Hlive He1 Hroom1.
  destruct (Z.eqb_spec a r) as [->|Har]; cbn [negb].
  - eapply (ensures_bind _ _ _ s1 (fun rt s3 => exists s2, got rt.1 s1 s2 /\ got rt.2 s2 s3)).
    { eapply ensures_get_both; [by apply (BN_CTX_get_spec e He_mem 1)|]. cbv beta. intros rr s2 [Hg Hr2].
      eapply ensures_mono; [apply (BN_CTX_get_got e He_mem); [apply Hg|done]|]. intros tmp s3 Hg3. by exists s2. }
    intros [rr t] s3 (s2 & Hg2 & Hg3). cbn [fst snd] in *.
    pose proof Hg2 as (W2 & G2 & Hnl & Hlrr & Hrrone & Hkeep & (Hokrr & _ & _ & Hstrr) & _ & _ & Ee2).
    pose proof Hg3 as (W3 & G3 & Hnl3 & Hlt & Htone & Hkeep3 & (Hokt & Hwt & _ & Hstt) & _).
    assert (r <> rr) as Hne by (intros ->; by apply Hnl, Hlive).
    pose proof (live_grow s1 s2 r W1 G2 (Hlive r Hlr)) as Hlr2.
    assert (objs s2 r = va) as Er2 by (by rewrite Hkeep, Eo by auto). assert (objs s3 r = va) as Er3 by (by rewrite Hkeep3).
    eapply ensures_bind.
    { apply (sqr_into_spec rr t r s3); rewrite ?Er3, ?(Hkeep3 rr) by done; try done; [by intros ->|by intros ->|by rewrite Hstrr|lia]. }
    cbv beta. intros _ s4 Hsq.
    pose proof (squared_post rr t r s2 s3 s4 W2 ltac:(by rewrite Ee2) Hrrone Hlrr Hlr2 Hg3 Hsq) as Hp. rewrite Er2 in Hp.
    rewrite (proj2 (Z.eqb_neq rr r)) by done. cbn [negb].
    by eapply (copy_result r rr _ _ _ s s1 s2 s4).
  - eapply (ensures_bind _ _ _ s1 (fun rt s2 => rt.1 = r /\ got rt.2 s1 s2)).
    { eapply ensures_get_both; [by apply (ensures_ret _ _ _ (fun rr s2 => rr = r /\ s2 = s1))|]. intros ? ? [-> ->].
      eapply ensures_mono; [apply (BN_CTX_get_got e He_mem); [done|apply (room_less e 2); [lia|done]]|]. done. }
    intros [rr t] s2 [Err Hg2]. cbn [fst snd] in *. subst rr.
    pose proof Hg2 as (W2 & G2 & Hnl & Hlt & Htone & Hkeep & (Hokt & Hwt & _ & Hstt) & _ & _ & Ee2).
    assert (objs s2 r = objs s r /\ objs s2 a = va) as [Er2 Ea2] by (by rewrite !Hkeep, Eo by auto).
    assert (r <> t /\ a <> t) as [Hrt Hat] by (split; intros ->; by apply Hnl, Hlive).
    eapply ensures_bind; [apply (sqr_into_spec r t a s2); rewrite ?Er2, ?Ea2; try done; lia|].
    cbv beta. intros _ s3 Hsq. pose proof (squared_post r t a s1 s2 s3 W1 He1 Hone (Hlive r Hlr) (Hlive a Hla) Hg2 Hsq) as Hp.
    rewrite !Eo in Hp. fold va in Hp. destruct Hp as ([S3 K3] & Hok & Hv & Hn & Hs & Hst3 & Hm3).
    rewrite Z.eqb_refl. cbn [negb]. apply ensures_ret. split; [done|]. rewrite Eo in Hst3, Hm3.
    split; [|done]. intros q Hq Hqr. rewrite K3, Eo by auto. done.
Qed.

Lemma BN_sqr_ok r a s : operands 3 r a a s ->
  ensures e (BN_sqr r a) s (fun _ s' => op_post r (fun p => bn_minimal p /\ bn_val p = bn_val (objs s a) * bn_val (objs s a)) s s').
Proof.
  intros Hop. pose proof (op_one _ _ _ _ _ Hop) as Hone. unfold BN_sqr. eapply ensures_bind; [by apply bn_sqr_consttime_spec|]. cbv beta zeta.
  intros _ s1 Hp. eapply ensures_mono; [eapply minimal_after; [|done]; eapply op_post_mono; [exact Hp|]; intros p (Hv & _ & Hn); exact (conj Hv Hn)|].
  cbv beta. intros _ s' Hp'. eapply op_post_mono; [exact Hp'|]. intros p [Hmin ->]. split; [done|]. unfold bn_val.
  destruct (neg (objs s a)); lia.
Qed.
End product.

(** * Theorems *)

Section theorems.
Context {H : Type} `{MallocSpec H}.
Implicit Types s : bn_state H.

(** The arguments of an operation that writes [r]: objects that exist, none of
    them free in the pool of temporaries. *)
Record arguments (r a b : ptr) s : Prop := {
  ar_wf : ctx_wf s;
  ar_one : r <> value_one_ptr;
  ar_live : live s r /\ live s a /\ live s b;
  ar_ok : bn_ok (objs s r) /\ bn_ok (objs s a) /\ bn_ok (objs s b);
}.

(** Why an operation may fail. *)
Definition refused (k : nat) (r a b : ptr) s : Prop :=
  ~ MallocTotal H \/ ~ ctx_room k s \/ flag_static_data (objs s r) = true \/ BN_MAX_WORDS < 8 * Z.of_nat (longer_at s a b).

Lemma malloc_none_total n h : 0 <= n <= 2 ^ 62 -> (OPENSSL_malloc n h).1 = None -> ~ MallocTotal H.
Proof. intros Hn Hm Ht. destruct (OPENSSL_malloc_total n h Hn) as (b & h' & E). by rewrite E in Hm. Qed.

Lemma refused_mem k r a b s n h : 0 <= n <= 2 ^ 62 -> (OPENSSL_malloc n h).1 = None -> refused k r a b s.
Proof. intros Hn Hm. left. by eapply malloc_none_total. Qed.

Lemma arguments_operands k r a b s : arguments r a b s -> operands (refused k r a b s) k r a b s.
Proof. intros [? ? ? ?]. unfold refused. split; try done; auto. Qed.

Lemma arguments_square r a b s : arguments r a b s -> arguments r a a s.
Proof. intros [? ? (? & ? & ?) (? & ? & ?)]. by split. Qed.

(** C4. [BN_mul] and [BN_sqr] compute the product and the square of signed
    numbers, also when the result is an operand, by columns, rows or Karatsuba's
    method as the widths have it.  Of the objects of the caller only the result
    changes, every temporary is given back, and the calls of [BN_CTX_start] and
    [BN_CTX_end] match.  They fail only when the allocator may, when there is no
    room for three more temporaries and frames, or when the result has static
    words or would be too long. *)
Theorem BN_mul_sqr_spec r a b s (Hargs : arguments r a b s) :
  let post (b : ptr) (m : ST (bn_state H) unit) :=
    match m s with
    | (Some _, s') => op_post (refused 3 r a b s) r
        (fun p => bn_minimal p /\ bn_val p = bn_val (objs s a) * bn_val (objs s b)) s s'
    | (None, _) => refused 3 r a b s
    end in
  post b (BN_mul r a b) /\ post a (BN_sqr r a).
Proof.
  split.
  - exact (BN_mul_ok (refused 3 r a b s) (refused_mem 3 r a b s) r a b s (arguments_operands 3 r a b s Hargs)).
  - exact (BN_sqr_ok (refused 3 r a a s) (refused_mem 3 r a a s) r a s (arguments_operands 3 r a a s (arguments_square r a b s Hargs))).
Qed.
End theorems.

Lemma example_wf l : Zlen l <= 2 ^ 60 -> ctx_wf (example_state l).
Proof.
  intros Hl. assert (0 <= Zlen l) by (unfold Zlen; lia). split.
  - done.
  - apply le_n.
  - constructor.
  - intros p Hp. by apply elem_of_nil in Hp.
  - change (1 < 2 + Zlen l <= 2 ^ 64). lia.
  - done.
  - by left.
  - done.
Qed.

Lemma example_live l p : p < 2 + Zlen l -> live (example_state l) p.
Proof. intros Hp. split; [done|apply not_elem_of_nil]. Qed.

(** The square of [- (2^128 - 1)] in place. *)
Lemma BN_mul_sqr_spec_witness :
  let s := example_state [Bignum [2 ^ 64 - 1; 2 ^ 64 - 1] 2 true true false] in
  arguments 2 2 2 s /\ bn_val (objs (snd (BN_mul 2 2 2 s)) 2) = (2 ^ 128 - 1) ^ 2.
Proof.
  intros s. assert (arguments 2 2 2 s) as Hargs.
  { assert (bn_ok (objs s 2)) as Hok.
    { split; [|split; [apply le_n|done]]. change (words_ok [2 ^ 64 - 1; 2 ^ 64 - 1]). constructor; [done|constructor; [done|constructor]]. }
    assert (live s 2) as Hl by (by apply example_live). split; [by apply example_wf|done|done|done]. }
  split; [done|]. destruct (BN_mul_sqr_spec 2 2 2 s Hargs) as [Hm _].
  assert (fst (BN_mul 2 2 2 s) = Some tt) as E by (vm_compute; reflexivity).
  destruct (BN_mul 2 2 2 s) as [[u|] s'] eqn:Es; [|done]. destruct Hm as (_ & _ & _ & _ & _ & [_ Hv] & _).
  cbn [snd]. rewrite Hv. vm_compute. reflexivity.
Defined.
