(* ===== verification/BnMont.v ===== *)
(** Montgomery reduction and multiplication: [crypto/fipsmodule/bn/montgomery.c]
    and [montgomery_inv.c], without the assembler of [OPENSSL_BN_ASM_MONT]. *)
From S2P Require Import Prelude Mem ConstTime Stack BnWords BnMul Bn BnProduct.

Definition BN_MONT_CTX_N0_LIMBS : Z := 1.
Definition BN_MONTGOMERY_MAX_WORDS : Z := 8 * 1024 / 8.
Definition LG_LITTLE_R : Z := BN_MONT_CTX_N0_LIMBS * BN_BITS2.

(** * [montgomery_inv.c] *)

(** One round of the loop over [u] and [v]. *)
Definition neg_inv_step (alpha beta : Z) (uv : Z * Z) : Z * Z :=
  let '(u, v) := uv in
  let u_is_odd := u64 (0 - Z.land u 1) in
  let beta_if_u_is_odd := Z.land beta u_is_odd in
  let u := u64 (Z.shiftr (Z.lxor u beta_if_u_is_odd) 1 + Z.land u beta_if_u_is_odd) in
  let alpha_if_u_is_odd := Z.land alpha u_is_odd in
  (u, u64 (Z.shiftr v 1 + alpha_if_u_is_odd)).

Definition bn_neg_inv_mod_r_u64 (n : Z) : Z :=
  let alpha := u64 (Z.shiftl 1 (LG_LITTLE_R - 1)) in
  snd (Nat.iter (Z.to_nat LG_LITTLE_R) (neg_inv_step alpha n) (1, 0)).

Definition bn_mont_n0 (n : BIGNUM) : Z := bn_neg_inv_mod_r_u64 (d n !!! 0%nat).

(** * Reduction of words *)

(** The loop of [bn_from_montgomery_in_place] from [i] on, [k] more times. *)
Fixpoint mont_loop (k i : nat) (n : list Z) (n0 : Z) (a : list Z) (carry : Z) : list Z * Z :=
  match k with
  | O => (a, carry)
  | S k =>
      let num_n := length n in
      let '(s, v) := bn_mul_add_words (sub i num_n a) n (u64 (a !!! i * n0)) in
      let a := put i s a in
      let old := a !!! (i + num_n)%nat in
      let v := u64 (v + u64 (carry + old)) in
      let carry := Z.lor carry (Z.b2z (negb (v =? old))) in
      let carry := Z.land carry (Z.b2z (v <=? old)) in
      mont_loop k (i + 1) n n0 (put (i + num_n) [v] a) carry
  end.

(** The words of [r] and what is left of [a]; [None] is an error.  [n] is the
    words of the modulus. *)
Definition bn_from_montgomery_in_place (num_r : nat) (a n : list Z) (n0 : Z) : option (list Z * list Z) :=
  let num_n := length n in
  if negb (num_r =? num_n)%nat || negb (length a =? 2 * num_n)%nat then None
  else
    let '(a, carry) := mont_loop num_n 0 n n0 a 0 in
    Some (fst (bn_reduce_once (drop num_n a) carry n), a).

(** [None] is [abort()]. *)
Definition bn_from_montgomery_small (num_r : nat) (a n : list Z) (n0 : Z) : option (list Z) :=
  if negb (num_r =? length n)%nat || (Z.of_nat num_r >? BN_SMALL_MAX_WORDS) || (2 * num_r <? length a)%nat then None
  else
    let tmp := put 0 a (replicate (Z.to_nat BN_SMALL_MAX_WORDS * 2) 0) in
    fst <$> bn_from_montgomery_in_place num_r (take (2 * num_r) tmp) n n0.

(** [tmp] is the contents of the array on the stack; [same] says that [a] and
    [b] are the same pointer. *)
Definition bn_mod_mul_montgomery_small (tmp : list Z) (same : bool) (a b n : list Z) (num : nat) (n0 : Z) : option (list Z) :=
  if negb (num =? length n)%nat || (Z.of_nat num >? BN_SMALL_MAX_WORDS) then None
  else
    tmp ← (if same then bn_sqr_small (take (2 * num) tmp) (take num a)
           else bn_mul_small (take (2 * num) tmp) (take num a) (take num b)) ;
    fst <$> bn_from_montgomery_in_place num tmp n n0.

Definition bn_to_montgomery_small (tmp : list Z) (same : bool) (a RR n : list Z) (num : nat) (n0 : Z) : option (list Z) :=
  bn_mod_mul_montgomery_small tmp same a RR n num n0.

(** * Contexts

    [RR] and [N] are the addresses of the two numbers inside the structure. *)
Record BN_MONT_CTX := Mont {
  RR : ptr;
  N : ptr;
  n0 : Z * Z;
}.

Section mont.
Context {H : Type} `{Malloc H}.
#[local] Abbreviation M := (ST (bn_state H)).

Definition bn_mont_ctx_init (mont : BN_MONT_CTX) : M BN_MONT_CTX :=
  upd (RR mont) (fun _ => BN_init) ;;;
  upd (N mont) (fun _ => BN_init) ;;;
  st_ret (Mont (RR mont) (N mont) (0, 0)).

Definition bn_mont_ctx_cleanup (mont : BN_MONT_CTX) : M unit :=
  BN_free (Some (RR mont)) ;;;
  BN_free (Some (N mont)).

(** A structure takes [sizeof(BN_MONT_CTX)] = 64 bytes. *)
Definition BN_MONT_CTX_new : M BN_MONT_CTX := fun s =>
  match lift (OPENSSL_malloc 64) s with
  | (None, s) => (None, s)
  | (Some _, s) =>
      if next_ptr s + 1 >=? 2 ^ 64 then (None, s)
      else bn_mont_ctx_init (Mont (next_ptr s) (next_ptr s + 1) (0, 0)) (BnState (objs s) (next_ptr s + 2) (ctx s) (mem s))
  end.

Definition BN_MONT_CTX_free (mont : option BN_MONT_CTX) : M unit :=
  match mont with None => st_ret tt | Some mont => bn_mont_ctx_cleanup mont end.

(** [to == from] compares the addresses of the structures. *)
Definition BN_MONT_CTX_copy (to from : BN_MONT_CTX) : M BN_MONT_CTX :=
  if RR to =? RR from then st_ret to
  else
    BN_copy (RR to) (RR from) ;;;
    BN_copy (N to) (N from) ;;;
    st_ret (Mont (RR to) (N to) (n0 from)).

Definition bn_mont_ctx_set_N_and_n0 (mont : BN_MONT_CTX) (mod_ : ptr) : M BN_MONT_CTX :=
  m <-- get mod_ ;;
  st_guard (negb (BN_is_zero m)) ;;;
  st_guard (BN_is_odd m) ;;;
  st_guard (negb (BN_is_negative m)) ;;;
  st_guard (bn_fits_in_words m (Z.to_nat BN_MONTGOMERY_MAX_WORDS)) ;;;
  BN_copy (N mont) mod_ ;;;
  bn_set_minimal_width (N mont) ;;;
  vn <-- get (N mont) ;;
  st_ret (Mont (RR mont) (N mont) (bn_mont_n0 vn, 0)).

Definition BN_from_montgomery_word (ret r : ptr) (mont : BN_MONT_CTX) : M unit :=
  v <-- get r ;;
  st_guard (negb (neg v)) ;;;
  n <-- get (N mont) ;;
  if (width n =? 0)%nat then upd ret (with_width 0)
  else
    let max := (2 * width n)%nat in
    bn_resize_words r max ;;;
    bn_wexpand ret (Z.of_nat (width n)) ;;;
    upd ret (fun b => with_neg false (with_width (width n) b)) ;;;
    vret <-- get ret ;;
    vr <-- get r ;;
    n <-- get (N mont) ;;
    match bn_from_montgomery_in_place (width vret) (words vr) (words n) (fst (n0 mont)) with
    | None => st_fail
    | Some (x, a) =>
        put_words r 0 a ;;;
        put_words ret 0 x
    end.

Definition BN_from_montgomery (r a : ptr) (mont : BN_MONT_CTX) : M unit :=
  with_ctx (
    t <-- BN_CTX_get ;;
    BN_copy t a ;;;
    BN_from_montgomery_word r t mont).

(** The loop that inverts the words after the first. *)
Definition bn_one_to_montgomery (r : ptr) (mont : BN_MONT_CTX) : M unit :=
  n <-- get (N mont) ;;
  if (0 <? width n)%nat && negb (Z.shiftr (d n !!! (width n - 1)%nat) (BN_BITS2 - 1) =? 0) then
    bn_wexpand r (Z.of_nat (width n)) ;;;
    n <-- get (N mont) ;;
    put_words r 0 [u64 (0 - d n !!! 0%nat)] ;;;
    put_words r 1 (map (fun x => u64 (Z.lnot x)) (sub 1 (width n - 1) (d n))) ;;;
    upd r (fun b => with_neg false (with_width (width n) b))
  else BN_from_montgomery r (RR mont) mont.

Definition bn_mod_mul_montgomery_fallback (r a b : ptr) (mont : BN_MONT_CTX) : M unit :=
  with_ctx (
    tmp <-- BN_CTX_get ;;
    (if a =? b then bn_sqr_consttime tmp a else bn_mul_consttime tmp a b) ;;;
    BN_from_montgomery_word r tmp mont).

Definition BN_mod_mul_montgomery (r a b : ptr) (mont : BN_MONT_CTX) : M unit :=
  va <-- get a ;;
  vb <-- get b ;;
  st_guard (negb (neg va || neg vb)) ;;;
  bn_mod_mul_montgomery_fallback r a b mont.

Definition BN_to_montgomery (ret a : ptr) (mont : BN_MONT_CTX) : M unit := BN_mod_mul_montgomery ret a (RR mont) mont.

Definition bn_less_than_montgomery_R (bn n : BIGNUM) : bool := negb (BN_is_negative bn) && bn_fits_in_words bn (width n).

End mont.
