(* ===== verification/BnMontSpec.v ===== *)
(** Montgomery reduction divides by a power of the word base modulo the modulus,
    with the inverse that the binary algorithm of [montgomery_inv.c] finds. *)
From S2P Require Import Prelude Mem ConstTime Stack BnWords BnMul BnMulSpec Bn BnSpec BnCtxSpec BnProduct BnProductSpec BnMont.

(** * The inverse *)

(** Dietz's sum: exclusive or, and twice the carries. *)
Lemma add_lxor_land x y : x + y = Z.lxor x y + 2 * Z.land x y.
Proof.
  assert (x = Z.ldiff x y + Z.land x y) as Hx.
  { rewrite Z.add_nocarry_lxor; [|apply Z.bits_inj'; intros i _]; [apply Z.bits_inj'; intros i _|];
      rewrite ?Z.lxor_spec, ?Z.land_spec, ?Z.ldiff_spec, ?Z.land_spec, ?Z.bits_0; by destruct (Z.testbit x i), (Z.testbit y i). }
  assert (y = Z.ldiff y x + Z.land x y) as Hy.
  { rewrite Z.add_nocarry_lxor; [|apply Z.bits_inj'; intros i _]; [apply Z.bits_inj'; intros i _|];
      rewrite ?Z.lxor_spec, ?Z.land_spec, ?Z.ldiff_spec, ?Z.land_spec, ?Z.bits_0; by destruct (Z.testbit x i), (Z.testbit y i). }
  assert (Z.lxor x y = Z.ldiff x y + Z.ldiff y x) as ->.
  { rewrite Z.add_nocarry_lxor; [|apply Z.bits_inj'; intros i _]; [apply Z.bits_inj'; intros i _|];
      rewrite ?Z.lxor_spec, ?Z.land_spec, ?Z.ldiff_spec, ?Z.bits_0; by destruct (Z.testbit x i), (Z.testbit y i). }
  lia.
Qed.

Lemma dietz x y : Z.shiftr (Z.lxor x y) 1 + Z.land x y = (x + y) / 2.
Proof. rewrite Z.shiftr_div_pow2, (add_lxor_land x y), (Z.mul_comm 2), Z.div_add by lia. done. Qed.

(** The invariant of the loop: [2^k = u 2^64 - v n]. *)
Definition inv_state (n k : Z) (uv : Z * Z) : Prop :=
  0 <= uv.1 <= n /\ 0 <= uv.2 < 2 ^ 64 /\ 2 ^ k = uv.1 * 2 ^ 64 - uv.2 * n.

Lemma odd_mask u : 0 <= u -> u64 (0 - Z.land u 1) = if Z.odd u then Z.ones 64 else 0.
Proof.
  intros Hu. change 1 with (Z.ones 1) at 1. rewrite Z.land_ones, Zmod_odd by lia. by destruct (Z.odd u).
Qed.

Lemma neg_inv_step_spec n k uv : 0 < n < 2 ^ 64 -> Z.odd n = true -> 0 < k <= 64 ->
  inv_state n k uv -> inv_state n (k - 1) (neg_inv_step (2 ^ 63) n uv).
Proof.
  destruct uv as [u v]. intros Hn Hodd Hk (Hu & Hv & E). cbn [fst snd] in *. unfold neg_inv_step.
  rewrite odd_mask by lia. rewrite (dietz u). unfold inv_state. cbn [fst snd].
  assert (2 ^ k = 2 * 2 ^ (k - 1)) as Ek by (rewrite <- Z.pow_succ_r by lia; f_equal; lia).
  rewrite Z.shiftr_div_pow2 by lia. change (2 ^ 1) with 2.
  assert (Z.odd v = false) as Hvo.
  { assert (v * n = 2 * (u * 2 ^ 63 - 2 ^ (k - 1))) as Ev by lia.
    apply (f_equal Z.odd) in Ev. rewrite Z.odd_mul, Hodd, andb_true_r in Ev. rewrite Ev. apply Z.odd_even. }
  assert (v = 2 * (v / 2)) as Hv2 by (rewrite (Z.div_mod v 2) at 1 by lia; rewrite Zmod_odd, Hvo; lia).
  destruct (Z.odd u) eqn:Hou.
  - rewrite !Z.land_ones, !Z.mod_small by lia.
    assert (u + n = 2 * ((u + n) / 2)) as Hun.
    { rewrite (Z.div_mod (u + n) 2) at 1 by lia. rewrite Zmod_odd, Z.odd_add, Hou, Hodd. cbn. lia. }
    unfold u64. rewrite !Z.mod_small by lia. lia.
  - rewrite !Z.land_0_r, !Z.add_0_r.
    assert (u = 2 * (u / 2)) as Hu2 by (rewrite (Z.div_mod u 2) at 1 by lia; rewrite Zmod_odd, Hou; lia).
    unfold u64. rewrite !Z.mod_small by lia. lia.
Qed.

(** [bn_neg_inv_mod_r_u64] is the negative of the inverse modulo [2^64]. *)
Lemma bn_neg_inv_mod_r_u64_spec n : 0 < n < 2 ^ 64 -> Z.odd n = true ->
  word (bn_neg_inv_mod_r_u64 n) /\ (bn_neg_inv_mod_r_u64 n * n + 1) mod 2 ^ 64 = 0.
Proof.
  intros Hn Hodd. unfold bn_neg_inv_mod_r_u64. change (u64 (Z.shiftl 1 (LG_LITTLE_R - 1))) with (2 ^ 63).
  change (Z.to_nat LG_LITTLE_R) with 64%nat.
  assert (forall j, (j <= 64)%nat -> inv_state n (64 - Z.of_nat j) (Nat.iter j (neg_inv_step (2 ^ 63) n) (1, 0))) as Hinv.
  { induction j as [|j IH]; intros Hj; [unfold inv_state; cbn; lia|]. rewrite Nat.iter_succ.
    replace (64 - Z.of_nat (S j)) with (64 - Z.of_nat j - 1) by lia. apply neg_inv_step_spec; [done..|lia|apply IH; lia]. }
  specialize (Hinv 64%nat ltac:(lia)). destruct (Nat.iter 64 _ _) as [u v]. destruct Hinv as (Hu & Hv & E).
  cbn [fst snd] in *. change (2 ^ (64 - Z.of_nat 64)) with 1 in E. split; [done|].
  replace (v * n + 1) with (u * 2 ^ 64) by lia. by apply Z.mod_mul.
Qed.

(** * Reduction *)

Lemma carry_bits c p q : bit c ->
  Z.land (Z.lor c (Z.b2z (negb p))) (Z.b2z q) = Z.b2z (((c =? 1) || negb p) && q).
Proof. unfold bit. intros Hc. assert (c = 0 \/ c = 1) as [-> | ->] by lia; by destruct p, q. Qed.

(** The new carry of an iteration. *)
Lemma mont_carry c carry x : word c -> bit carry -> word x ->
  let v := u64 (c + u64 (carry + x)) in
  let carry' := Z.land (Z.lor carry (Z.b2z (negb (v =? x)))) (Z.b2z (v <=? x)) in
  word v /\ bit carry' /\ v + 2 ^ 64 * carry' = c + carry + x.
Proof.
  intros Hc Hb Hx. cbv zeta. unfold word, bit in *.
  assert (u64 (c + u64 (carry + x)) = (c + carry + x) mod 2 ^ 64) as ->.
  { unfold u64. rewrite Zplus_mod_idemp_r. f_equal. lia. }
  pose proof (Z.mod_pos_bound (c + carry + x) (2 ^ 64) ltac:(lia)). set (v := (c + carry + x) mod 2 ^ 64) in *.
  assert (v = c + carry + x \/ v = c + carry + x - 2 ^ 64) as Hv.
  { unfold v. destruct (decide (c + carry + x < 2 ^ 64)); [left; apply Z.mod_small; lia|right].
    symmetry. apply (Z.mod_unique _ _ 1); lia. }
  clearbody v. rewrite carry_bits by done.
  destruct (Z.eqb_spec carry 1), (Z.eqb_spec v x), (Z.leb_spec v x); cbn [orb negb andb Z.b2z]; lia.
Qed.

Section redc.
Context (n : list Z) (n0 : Z).
Context (Hn : words_ok n) (Hlen : (0 < length n)%nat) (Hinv : (n0 * wval n + 1) mod 2 ^ 64 = 0).

Lemma mont_step i a carry : words_ok a -> (i + length n < length a)%nat -> bit carry ->
  (wval a + wbase (i + length n) * carry) mod wbase i = 0 ->
  let '(ws, c) := bn_mul_add_words (sub i (length n) a) n (u64 (a !!! i * n0)) in
  let a1 := put i ws a in
  let old := a1 !!! (i + length n)%nat in
  let v := u64 (c + u64 (carry + old)) in
  let carry' := Z.land (Z.lor carry (Z.b2z (negb (v =? old)))) (Z.b2z (v <=? old)) in
  let a2 := put (i + length n) [v] a1 in
  words_ok a2 /\ length a2 = length a /\ bit carry' /\
  exists q, 0 <= q < 2 ^ 64 /\
    wval a2 + wbase (S i + length n) * carry' = wval a + wbase (i + length n) * carry + wbase i * q * wval n /\
    (wval a2 + wbase (S i + length n) * carry') mod wbase (S i) = 0.
Proof.
  intros Ha Hi Hc Hmod. set (L := length n) in *.
  destruct (split_at i a ltac:(lia)) as (l1 & r1 & Ea & Hl1). rewrite Ea, length_app in Hi.
  destruct (split_at L r1 ltac:(lia)) as (l2 & r2 & Er1 & Hl2). rewrite Er1, length_app in Hi.
  destruct r2 as [|x l3]; [cbn in Hi; lia|]. rewrite Er1 in Ea. clear Er1 r1.
  assert (words_ok l1 /\ words_ok l2 /\ word x /\ words_ok l3) as (Hw1 & Hw2 & Hwx & Hw3).
  { rewrite Ea in Ha. simp_words. tauto. }
  assert (sub i L a = l2) as -> by (rewrite Ea; by apply sub_at).
  assert (a !!! i = l2 !!! 0%nat) as ->.
  { rewrite Ea, lookup_total_app_r by lia. rewrite Hl1, Nat.sub_diag. apply lookup_total_app_l. lia. }
  set (q := u64 (l2 !!! 0%nat * n0)). assert (0 <= q < 2 ^ 64) as Hq by (unfold q, u64; apply Z.mod_pos_bound; lia).
  pose proof (bn_mul_add_words_spec l2 n q Hl2 Hw2 Hn Hq) as Hs. destruct (bn_mul_add_words l2 n q) as [ws c].
  destruct Hs as (Hlws & Hwws & Hwc & Hvs). fold L in Hlws, Hvs. cbv zeta.
  assert (put i ws a = l1 ++ ws ++ x :: l3) as -> by (rewrite Ea; apply put_at; [done|lia]).
  assert ((l1 ++ ws ++ x :: l3) !!! (i + L)%nat = x) as ->.
  { rewrite app_assoc. apply list_lookup_total_middle. rewrite length_app. lia. }
  pose proof (mont_carry c carry x Hwc Hc Hwx) as Hcar. cbv zeta in Hcar.
  set (v := u64 (c + u64 (carry + x))) in *. set (carry' := Z.land _ _) in *. clearbody carry' v.
  destruct Hcar as (Hwv & Hbc & Hv).
  assert (put (i + L) [v] (l1 ++ ws ++ x :: l3) = l1 ++ ws ++ v :: l3) as ->.
  { rewrite (app_assoc l1), (app_assoc l1 ws (v :: l3)). change (x :: l3) with ([x] ++ l3). rewrite put_at; [done| |done].
    rewrite length_app. lia. }
  split; [solve_words|]. split; [rewrite Ea, !length_app; cbn; lia|]. split; [done|]. exists q. split; [done|].
  assert (wval (l1 ++ ws ++ v :: l3) + wbase (S i + L) * carry' = wval a + wbase (i + L) * carry + wbase i * q * wval n) as E.
  { rewrite Ea, !wval_app, !wval_cons, Hl1, Hl2, Hlws. replace (S i + L)%nat with (S (i + L)) by lia. rewrite wbase_S, wbase_add.
    replace (wval ws) with (wval l2 + q * wval n - wbase L * c) by lia. replace v with (c + carry + x - 2 ^ 64 * carry') by lia. ring. }
  split; [exact E|]. rewrite E. clear E.
  (* the low words are zero, and the next one becomes zero *)
  pose proof (wbase_pos i) as Hbi. pose proof (wval_bound l1 Hw1) as Hb1. rewrite Hl1 in Hb1.
  assert (wval a = wval l1 + wbase i * wval (l2 ++ x :: l3)) as Eva by (rewrite Ea, wval_app, Hl1; done).
  assert (wval l1 = 0) as E1.
  { rewrite Eva, wbase_add, <- Z.mul_assoc in Hmod.
    replace (wval l1 + wbase i * wval (l2 ++ x :: l3) + wbase i * (wbase L * carry)) with
      (wval l1 + (wval (l2 ++ x :: l3) + wbase L * carry) * wbase i) in Hmod by ring.
    rewrite Z.mod_add, Z.mod_small in Hmod by lia. done. }
  rewrite Eva, E1, wbase_add, wbase_S.
  replace (0 + wbase i * wval (l2 ++ x :: l3) + wbase i * wbase L * carry + wbase i * q * wval n) with
    (wbase i * (wval (l2 ++ x :: l3) + wbase L * carry + q * wval n)) by ring.
  rewrite (Z.mul_comm (2 ^ 64)), Z.mul_mod_distr_l by lia. enough ((wval (l2 ++ x :: l3) + wbase L * carry + q * wval n) mod 2 ^ 64 = 0) as -> by lia.
  destruct l2 as [|y l2]; [cbn in Hl2; lia|]. cbn [app]. rewrite wval_cons. change ((y :: l2) !!! 0%nat) with y in q.
  destruct (Nat.lt_exists_pred 0 L Hlen) as (L' & EL & _). rewrite EL, wbase_S.
  replace (y + 2 ^ 64 * wval (l2 ++ x :: l3) + 2 ^ 64 * wbase L' * carry + q * wval n) with
    (y + q * wval n + (wval (l2 ++ x :: l3) + wbase L' * carry) * 2 ^ 64) by ring.
  rewrite Z.mod_add by lia. unfold q, u64. rewrite <- Zplus_mod_idemp_r, Zmult_mod_idemp_l, Zplus_mod_idemp_r.
  replace (y + y * n0 * wval n) with (y * (n0 * wval n + 1)) by ring. by rewrite <- Zmult_mod_idemp_r, Hinv, Z.mul_0_r.
Qed.

Lemma mont_loop_spec k : forall i a carry, words_ok a -> length a = (2 * length n)%nat -> (i + k = length n)%nat -> bit carry ->
  (wval a + wbase (i + length n) * carry) mod wbase i = 0 ->
  let '(a', carry') := mont_loop k i n n0 a carry in
  words_ok a' /\ length a' = length a /\ bit carry' /\
  exists Q, 0 <= Q < wbase k /\
    wval a' + wbase (2 * length n) * carry' = wval a + wbase (i + length n) * carry + wbase i * Q * wval n /\
    (wval a' + wbase (2 * length n) * carry') mod wbase (length n) = 0.
Proof.
  induction k as [|k IH]; intros i a carry Ha Hl Hi Hc Hmod; cbn [mont_loop].
  - split; [done|]. split; [done|]. split; [done|]. exists 0. replace i with (length n) in * by lia.
    replace (2 * length n)%nat with (length n + length n)%nat by lia. split; [rewrite wbase_0; lia|]. split; [ring|done].
  - pose proof (mont_step i a carry Ha ltac:(lia) Hc Hmod) as Hs. destruct (bn_mul_add_words _ _ _) as [ws c]. cbv zeta in Hs.
    set (a2 := put (i + length n) _ _) in *. set (carry' := Z.land _ _) in *. clearbody carry' a2.
    destruct Hs as (Hw2 & Hl2 & Hc2 & q & Hq & E & Hmod2). rewrite Nat.add_1_r.
    specialize (IH (S i) a2 carry' Hw2 ltac:(lia) ltac:(lia) Hc2 Hmod2). destruct (mont_loop k (S i) n n0 a2 carry') as [a' cr].
    destruct IH as (Hw & Hl' & Hcr & Q & HQ & E' & Hm'). split; [done|]. split; [lia|]. split; [done|].
    exists (q + 2 ^ 64 * Q). split; [rewrite wbase_S; nia|]. split; [|done].
    rewrite E', E, wbase_S. ring.
Qed.

(** The reduction of a number below [N R]. *)
Lemma bn_from_montgomery_in_place_spec a : words_ok a -> length a = (2 * length n)%nat -> 0 < wval n ->
  wval a < wval n * wbase (length n) ->
  exists r a', bn_from_montgomery_in_place (length n) a n n0 = Some (r, a') /\ length r = length n /\ words_ok r /\
    (length a' = length a /\ words_ok a') /\ wval r < wval n /\ (wval r * wbase (length n)) mod wval n = wval a mod wval n.
Proof.
  intros Ha Hl Hpos Hlt. unfold bn_from_montgomery_in_place. rewrite Nat.eqb_refl, (proj2 (Nat.eqb_eq _ _) Hl). cbn [negb orb].
  pose proof (mont_loop_spec (length n) 0 a 0 Ha Hl ltac:(lia) ltac:(done)) as Hs.
  rewrite Z.mul_0_r, Z.add_0_r, wbase_0, Z.mod_1_r in Hs. specialize (Hs eq_refl).
  destruct (mont_loop (length n) 0 n n0 a 0) as [a' cr]. destruct Hs as (Hw & Hl' & Hc & Q & HQ & E & Hm).
  set (L := length n) in *. set (B := wbase L) in *. assert (0 < B) as HB by apply wbase_pos.
  assert (wbase (2 * L) = B * B) as EB by (replace (2 * L)%nat with (L + L)%nat by lia; apply wbase_add). rewrite EB in *.
  pose proof (wval_take_drop L a') as Hsplit. rewrite Nat.min_l in Hsplit by lia. fold B in Hsplit.
  pose proof (wval_bound (take L a') ltac:(auto with words)) as Hb. rewrite length_take, Nat.min_l in Hb by lia. fold B in Hb.
  assert (wval (take L a') = 0) as Elow.
  { rewrite Hsplit in Hm. replace (wval (take L a') + B * wval (drop L a') + B * B * cr) with (wval (take L a') + (wval (drop L a') + B * cr) * B) in Hm by ring.
    rewrite Z.mod_add, Z.mod_small in Hm by lia. done. }
  set (hi := wval (drop L a')) in *. assert (B * (hi + B * cr) = wval a + Q * wval n) as Ehi by lia.
  pose proof (bn_reduce_once_spec (drop L a') cr n) as Hr. cbv zeta in Hr. fold L B hi in Hr.
  assert (hi + B * cr < 2 * wval n) as Hhi by nia.
  specialize (Hr ltac:(rewrite length_drop; lia) ltac:(auto with words) Hn Hc Hpos Hhi).
  destruct (bn_reduce_once (drop L a') cr n) as [r mask]. destruct Hr as (Hlr & Hwr & Hvr & _). cbn [fst].
  eexists _, _. split; [done|]. split; [done|]. split; [done|]. split; [done|]. rewrite Hvr.
  split; [by apply Z.mod_pos_bound|]. rewrite Zmult_mod_idemp_l, (Z.mul_comm _ B), Ehi. apply Z.mod_add. lia.
Qed.
End redc.

(** * Numbers of at most nine words *)

Lemma put_0_all ws l : length ws = length l -> put 0 ws l = ws.
Proof. intros Hl. unfold put. rewrite take_0, drop_ge by lia. by rewrite app_nil_r. Qed.

Lemma bn_mul_small_spec r a b : length r = (length a + length b)%nat -> words_ok a -> words_ok b ->
  exists p, bn_mul_small r a b = Some p /\ length p = length r /\ words_ok p /\ wval p = wval a * wval b.
Proof.
  intros Hr Ha Hb. unfold bn_mul_small. rewrite (proj2 (Nat.eqb_eq _ _) Hr). cbn [negb].
  destruct ((length a =? 8)%nat && (length b =? 8)%nat) eqn:E.
  - apply andb_true_iff in E as [Ea%Nat.eqb_eq Eb%Nat.eqb_eq].
    destruct (bn_mul_comba8_spec a b Ea Eb Ha Hb) as (Hl & Hw & Hv). set (p := bn_mul_comba8 a b) in *. clearbody p.
    exists (put 0 p r). rewrite put_0_all by lia. split; [done|]. split; [lia|done].
  - destruct (bn_mul_normal_spec r a b Ha Hb ltac:(lia)) as (p & -> & Hl & Hw & Hv).
    exists p. rewrite drop_ge, app_nil_r by lia. split; [done|]. split; [lia|done].
Qed.

Lemma bn_sqr_small_spec r a : length r = (2 * length a)%nat -> Zlen a <= BN_SMALL_MAX_WORDS -> words_ok a ->
  exists p, bn_sqr_small r a = Some p /\ length p = length r /\ words_ok p /\ wval p = wval a * wval a.
Proof.
  intros Hr Hmax Ha. unfold bn_sqr_small. rewrite (proj2 (Nat.eqb_eq _ _) Hr), Z.gtb_ltb, (proj2 (Z.ltb_ge _ _)) by done. cbn [negb orb].
  destruct (Nat.eqb_spec (length a) 4) as [E4|_].
  { destruct (bn_sqr_comba4_spec a E4 Ha) as (Hl & Hw & Hv). set (p := bn_sqr_comba4 a) in *. clearbody p.
    exists (put 0 p r). rewrite put_0_all by lia. split; [done|]. split; [lia|done]. }
  destruct (Nat.eqb_spec (length a) 8) as [E8|_].
  { destruct (bn_sqr_comba8_spec a E8 Ha) as (Hl & Hw & Hv). set (p := bn_sqr_comba8 a) in *. clearbody p.
    exists (put 0 p r). rewrite put_0_all by lia. split; [done|]. split; [lia|done]. }
  destruct (bn_sqr_normal_spec r a Ha ltac:(lia)) as (p & -> & Hl & Hw & Hv).
  exists p. rewrite drop_ge, app_nil_r by lia. split; [done|]. split; [lia|done].
Qed.

(** A modulus with its inverse. *)
Record mont_modulus (n : list Z) (n0 : Z) : Prop := {
  mm_ok : words_ok n;
  mm_pos : (0 < length n)%nat;
  mm_word : word n0;
  mm_inv : (n0 * wval n + 1) mod 2 ^ 64 = 0;
}.

(** The lowest word decides. *)
Lemma mont_modulus_word x l v : word x -> words_ok l -> word v -> (v * x + 1) mod 2 ^ 64 = 0 -> mont_modulus (x :: l) v.
Proof.
  intros Hx Hl Hv Hi. split; [by apply words_ok_cons|cbn; lia|exact Hv|]. rewrite wval_cons.
  replace (v * (x + 2 ^ 64 * wval l) + 1) with (v * x + 1 + (v * wval l) * 2 ^ 64) by ring.
  by rewrite Z.mod_add.
Qed.

(** [bn_mont_n0] gives one, for an odd modulus. *)
Lemma mont_n0_modulus b : bn_ok b -> (0 < width b)%nat -> Z.odd (bn_abs b) = true -> mont_modulus (words b) (bn_mont_n0 b).
Proof.
  intros Hb Hw Hodd. pose proof (length_words b Hb) as Hl. unfold bn_mont_n0.
  assert (exists x l, words b = x :: l /\ d b !!! 0%nat = x) as (x & l & E & ->).
  { destruct (words b) as [|x l] eqn:E; [cbn in Hl; lia|]. exists x, l. split; [done|].
    assert (words b !!! 0%nat = d b !!! 0%nat) as <- by (unfold words; by rewrite lookup_total_take_lt). by rewrite E. }
  pose proof (words_ok_words b Hb) as Hok. unfold bn_abs in Hodd. rewrite E in *. apply words_ok_cons in Hok as [Hx Hok].
  rewrite wval_cons in Hodd. assert (Z.odd x = true) as Hox.
  { replace (2 ^ 64 * wval l) with (2 * (2 ^ 63 * wval l)) in Hodd by lia. by rewrite Z.odd_add_mul_2 in Hodd. }
  assert (0 < x < 2 ^ 64) as Hxb.
  { unfold word in Hx. destruct (decide (x = 0)) as [->|]; [done|lia]. }
  destruct (bn_neg_inv_mod_r_u64_spec x Hxb Hox) as [Hiw Hi]. exact (mont_modulus_word x l _ Hx Hok Hiw Hi).
Qed.

Lemma mont_modulus_pos n n0 : mont_modulus n n0 -> 0 < wval n.
Proof.
  intros [Hok _ _ Hi]. pose proof (wval_nonneg n Hok). destruct (decide (wval n = 0)) as [E|]; [|lia].
  rewrite E, Z.mul_0_r in Hi. done.
Qed.

Lemma bn_mod_mul_montgomery_small_ok tmp same a b n n0 : mont_modulus n n0 -> let num := length n in
  Z.of_nat num <= BN_SMALL_MAX_WORDS -> (2 * num <= length tmp)%nat -> length a = num -> length b = num ->
  words_ok a -> words_ok b -> (same = true -> a = b) -> wval a * wval b < wval n * wbase num ->
  exists r, bn_mod_mul_montgomery_small tmp same a b n num n0 = Some r /\ length r = num /\ words_ok r /\
    wval r < wval n /\ (wval r * wbase num) mod wval n = (wval a * wval b) mod wval n.
Proof.
  intros Hmm num Hmax Htmp Hla Hlb Ha Hb Hsame Hlt. pose proof (mont_modulus_pos n n0 Hmm) as Hpos. pose proof Hmm as [Hok Hl0 Hw0 Hi].
  unfold bn_mod_mul_montgomery_small. fold num. rewrite Nat.eqb_refl, Z.gtb_ltb, (proj2 (Z.ltb_ge _ _)) by done. cbn [negb orb].
  assert (take num a = a) as -> by (apply take_ge; lia). assert (take num b = b) as -> by (apply take_ge; lia).
  assert (exists p, (if same then bn_sqr_small (take (2 * num) tmp) a else bn_mul_small (take (2 * num) tmp) a b) = Some p /\
    length p = (2 * num)%nat /\ words_ok p /\ wval p = wval a * wval b) as (p & -> & Hlp & Hwp & Hvp).
  { assert (length (take (2 * num) tmp) = (2 * num)%nat) as Ht by (rewrite length_take; lia). destruct same.
    - rewrite <- Hsame by done. destruct (bn_sqr_small_spec (take (2 * num) tmp) a) as (p & -> & ? & ? & ?); [lia|unfold Zlen; lia|done|].
      exists p. split; [done|]. split; [lia|done].
    - destruct (bn_mul_small_spec (take (2 * num) tmp) a b) as (p & -> & ? & ? & ?); [lia|done|done|].
      exists p. split; [done|]. split; [lia|done]. }
  cbn [mbind option_bind].
  destruct (bn_from_montgomery_in_place_spec n n0 Hok Hl0 Hi p Hwp Hlp Hpos) as (r & a' & Er & Hlr & Hwr & _ & Hr & Hv); [by rewrite Hvp|].
  fold num in Er. rewrite Er. exists r. split; [done|]. split; [done|]. split; [done|]. split; [done|]. rewrite <- Hvp. exact Hv.
Qed.

Section mont.
Context {H : Type} `{MallocSpec H}.
Implicit Types s : bn_state H.
Context (e : Prop) (He_mem : forall n h, 0 <= n <= 2 ^ 62 -> fst (OPENSSL_malloc n h) = None -> e).

(** * Big numbers *)

Lemma words_put_zeros b n : (width b <= n)%nat -> (n <= length (d b))%nat ->
  take n (put (width b) (replicate (n - width b) 0) (d b)) = words b ++ replicate (n - width b) 0.
Proof.
  intros Hw Hn. unfold put, words. rewrite app_assoc. apply take_app_length'.
  rewrite length_app, length_take, length_replicate. lia.
Qed.

Lemma bn_resize_words_spec r n s : bn_ok (objs s r) -> (flag_static_data (objs s r) = true -> e) -> (BN_MAX_WORDS < Z.of_nat n -> e) ->
  bn_abs (objs s r) < wbase n ->
  ensures e (bn_resize_words r n) s (fun _ s' => frame r s s' /\ bn_ok (objs s' r) /\ bn_abs (objs s' r) = bn_abs (objs s r) /\
    width (objs s' r) = n /\ neg (objs s' r) = neg (objs s r) /\
    flag_static_data (objs s' r) = flag_static_data (objs s r) /\ flag_malloced (objs s' r) = flag_malloced (objs s r)).
Proof.
  intros Hr Hst Hmax Hv. unfold bn_resize_words. apply ensures_get. destruct (Nat.leb_spec (width (objs s r)) n) as [Hle|Hgt].
  - eapply ensures_bind; [apply bn_wexpand_e; [done..|lia|done]|]. cbv beta.
    intros _ s1 (Hf & (Hok & Hw & Hm) & Hl & _ & Hw1 & Hn1 & Ew & Hs1 & Hm1). apply ensures_upd_bind, ensures_upd.
    unfold Zlen in *. rewrite !objs_updated_same. rewrite <- Hw1 in *. set (b := objs s1 r) in *.
    pose proof (words_put_zeros b n Hle ltac:(lia)) as Ez.
    split; [auto|]. unfold bn_ok, bn_abs, words, Zlen. cbn [d width neg with_width with_d flag_static_data flag_malloced].
    rewrite Ez, length_put by (rewrite length_replicate; lia). split; [split; [solve_words|lia]|].
    rewrite wval_app, wval_replicate_0, Z.mul_0_r, Z.add_0_r. unfold words in Ew. rewrite Hw1 in *. unfold words. rewrite Hw1, Ew. done.
  - rewrite bn_fits_in_words_spec by done. rewrite (proj2 (Z.ltb_lt _ _)) by done. apply ensures_upd. split; [done|].
    rewrite objs_updated_same. pose proof Hr as (_ & Hw & Hm). unfold bn_ok, bn_abs, words. cbn [d width neg with_width flag_static_data flag_malloced].
    pose proof (words_ok_prefix _ n Hr ltac:(lia)) as Hok. split; [split; [done|split; [lia|done]]|].
    split; [|done]. pose proof (wval_take n (words (objs s r)) ltac:(auto with words) ltac:(rewrite length_words by done; lia)) as Ht.
    unfold words in Ht at 1. rewrite take_take, Nat.min_l in Ht by lia. rewrite Ht. apply Z.mod_small.
    pose proof (bn_abs_bound _ Hr). unfold bn_abs, words in *. lia.
Qed.

(** What [BN_from_montgomery_word] does: [ret] has the reduction, [r] is scratch
    space. *)
Definition reduced (ret r np : ptr) s s' : Prop :=
  let n := objs s np in
  next_ptr s' = next_ptr s /\ ctx s' = ctx s /\ (forall q, q <> ret -> q <> r -> objs s' q = objs s q) /\
  (bn_ok (objs s' r) /\ flag_static_data (objs s' r) = flag_static_data (objs s r)) /\
  bn_ok (objs s' ret) /\ flag_static_data (objs s' ret) = flag_static_data (objs s ret) /\
  flag_malloced (objs s' ret) = flag_malloced (objs s ret) /\ width (objs s' ret) = width n /\ neg (objs s' ret) = false /\
  bn_abs (objs s' ret) < bn_abs n /\ (bn_abs (objs s' ret) * wbase (width n)) mod bn_abs n = bn_abs (objs s r) mod bn_abs n.

Lemma BN_from_montgomery_word_spec ret r mont s : ret <> r -> N mont <> r -> N mont <> ret ->
  bn_ok (objs s ret) -> bn_ok (objs s r) -> bn_ok (objs s (N mont)) ->
  mont_modulus (words (objs s (N mont))) (fst (n0 mont)) -> neg (objs s r) = false ->
  bn_abs (objs s r) < bn_abs (objs s (N mont)) * wbase (width (objs s (N mont))) ->
  (flag_static_data (objs s ret) = true -> e) -> (flag_static_data (objs s r) = true -> e) ->
  (BN_MAX_WORDS < 2 * Z.of_nat (width (objs s (N mont))) -> e) ->
  ensures e (BN_from_montgomery_word ret r mont) s (fun _ s' => reduced ret r (N mont) s s').
Proof.
  intros Hrr Hnr Hnret Hret Hr Hn Hmm Hneg Hlt Hsret Hsr Hmax. set (n := objs s (N mont)) in *.
  pose proof (length_words n Hn) as Hln. pose proof (mont_modulus_pos _ _ Hmm) as Hpos. pose proof Hmm as [_ Hl0 _ Hinv]. rewrite Hln in Hl0.
  pose proof (bn_abs_bound n Hn) as Hbn.
  unfold BN_from_montgomery_word. apply ensures_get. rewrite Hneg. apply ensures_guard; [done|]. intros _. apply ensures_get. fold n.
  rewrite (proj2 (Nat.eqb_neq (width n) 0)) by lia.
  eapply ensures_bind; [apply bn_resize_words_spec; [done..|intros; apply Hmax; lia|]|].
  { replace (2 * width n)%nat with (width n + width n)%nat by lia. rewrite wbase_add. pose proof (wbase_pos (width n)). nia. }
  cbv beta. intros _ s1 (Hf1 & Hok1 & Hv1 & Hw1 & _ & Hs1 & _).
  eapply ensures_bind; [apply bn_wexpand_e; rewrite ?(words_frame _ ret _ _ Hf1) by done; try done; [lia|intros; apply Hmax; lia]|].
  cbv beta. rewrite (words_frame _ ret _ _ Hf1) by done. intros _ s2 (Hf2 & Hok2 & Hl2 & _ & _ & _ & _ & Hs2 & Hm2).
  apply ensures_upd_bind, ensures_get, ensures_get, ensures_get. rewrite objs_updated_same, !objs_updated_other by done.
  rewrite (words_frame _ r _ _ Hf2), (words_frame _ (N mont) _ _ Hf2), (words_frame _ (N mont) _ _ Hf1) by done. fold n.
  cbn [width with_neg with_width]. pose proof (length_words _ Hok1) as Hl1. rewrite Hw1 in Hl1.
  destruct (bn_from_montgomery_in_place_spec (words n) (fst (n0 mont)) ltac:(by apply words_ok_words) ltac:(lia) Hinv (words (objs s1 r)))
    as (x & a' & Er & Hlx & Hwx & [Hla' Hwa'] & Hvx & Hcong); [by apply words_ok_words|lia|done|rewrite Hln; fold (bn_abs (objs s1 r)) (bn_abs n); by rewrite Hv1|].
  rewrite Hln in *. rewrite Er. clear Er. apply ensures_upd_bind, ensures_upd.
  set (s' := updated _ ret _). unfold Zlen in Hl2.
  assert (objs s' ret = put_d 0 x (with_neg false (with_width (width n) (objs s2 ret)))) as Eret.
  { unfold s'. rewrite objs_updated_same, objs_updated_other by done. by rewrite objs_updated_same. }
  assert (objs s' r = put_d 0 a' (objs s1 r)) as Er.
  { unfold s'. rewrite objs_updated_other by done. rewrite objs_updated_same, objs_updated_other by done. by rewrite (words_frame _ _ _ _ Hf2). }
  assert (words (objs s' ret) = x) as Ewret.
  { rewrite Eret. unfold words, put_d, put. cbn [d width with_d with_neg with_width]. rewrite take_0. cbn [app]. by apply take_app_length'. }
  assert (words (objs s' r) = a') as Ewr.
  { rewrite Er. unfold words, put_d, put. cbn [d width with_d]. rewrite take_0. cbn [app]. apply take_app_length'. lia. }
  pose proof Hok1 as (_ & Hd1 & Hm1'). pose proof Hok2 as (_ & _ & Hm2'). unfold Zlen in *.
  pose proof Hf1 as (Hf1' & En1 & Ec1). pose proof Hf2 as (Hf2' & En2 & Ec2).
  split; [cbn; congruence|]. split; [cbn; congruence|].
  split; [intros q Hq1 Hq2; unfold s'; rewrite !objs_updated_other by done; by rewrite Hf2', Hf1'|].
  split; [split|split; [|]].
  - split; [by rewrite Ewr|]. rewrite Er. unfold put_d, with_d, Zlen. cbn [d width]. rewrite length_put by (cbn; lia). lia.
  - rewrite Er. exact Hs1.
  - split; [by rewrite Ewret|]. rewrite Eret. unfold put_d, with_d, Zlen. cbn [d width with_neg with_width]. rewrite length_put by (cbn; lia). lia.
  - unfold bn_abs at 1 3. rewrite Ewret, Eret. cbn [flag_static_data flag_malloced width neg put_d with_d with_neg with_width].
    split; [done|]. split; [done|]. split; [done|]. split; [done|]. split; [done|]. rewrite <- Hv1. exact Hcong.
Qed.

(** A context whose modulus is set. *)
Record mont_ok (mont : BN_MONT_CTX) s : Prop := {
  mo_live : live s (N mont);
  mo_ok : bn_ok (objs s (N mont));
  mo_modulus : mont_modulus (words (objs s (N mont))) (fst (n0 mont));
  mo_max : Z.of_nat (width (objs s (N mont))) <= BN_MONTGOMERY_MAX_WORDS;
}.

(** The product that is reduced. *)
Lemma mont_product tmp a b s : operands e 3 tmp a b s -> neg (objs s a) = false -> neg (objs s b) = false ->
  ensures e (if a =? b then bn_sqr_consttime tmp a else bn_mul_consttime tmp a b) s (fun _ s' =>
    op_post e tmp (fun p => bn_abs p = bn_abs (objs s a) * bn_abs (objs s b) /\ neg p = false) s s').
Proof.
  intros Hop Hna Hnb. destruct (Z.eqb_spec a b) as [->|Hab].
  - eapply ensures_mono; [by apply (bn_sqr_consttime_spec e He_mem)|]. cbv beta zeta. intros _ s' Hp.
    eapply op_post_mono; [exact Hp|]. by intros p (? & _ & ?).
  - unfold bn_mul_consttime. apply ensures_get, ensures_get. rewrite Hna, Hnb. apply ensures_guard; [done|]. intros _.
    eapply ensures_mono; [by apply (bn_mul_impl_spec e He_mem)|]. cbv beta zeta. intros _ s' Hp.
    eapply op_post_mono; [exact Hp|]. intros p (? & _ & Hn). rewrite Hna, Hnb in Hn. split; [done|]. rewrite Hn. by destruct (_ || _).
Qed.

(** What a Montgomery product is. *)
Definition mont_result (mont : BN_MONT_CTX) (v : Z) s (p : BIGNUM) : Prop :=
  let n := objs s (N mont) in
  neg p = false /\ width p = width n /\ bn_abs p < bn_abs n /\ (bn_abs p * wbase (width n)) mod bn_abs n = v mod bn_abs n.

Lemma BN_mod_mul_montgomery_ok r a b mont s : operands e 5 r a b s -> mont_ok mont s -> N mont <> r ->
  bn_abs (objs s a) * bn_abs (objs s b) < bn_abs (objs s (N mont)) * wbase (width (objs s (N mont))) ->
  ensures (e \/ neg (objs s a) = true \/ neg (objs s b) = true) (BN_mod_mul_montgomery r a b mont) s (fun _ s' =>
    neg (objs s a) = false /\ neg (objs s b) = false /\
    op_post e r (mont_result mont (bn_abs (objs s a) * bn_abs (objs s b)) s) s s').
Proof.
  intros [W Hroom Hone (Hlr & Hla & Hlb) (Hr & Ha & Hb) Hst Hmax] [Hln Hn Hmm Hnmax] Hnr Hlt. unfold BN_mod_mul_montgomery.
  apply ensures_get, ensures_get. apply ensures_guard.
  { intros Hg%negb_false_iff. apply orb_true_iff in Hg as [?|?]; auto. }
  intros Hg%negb_true_iff. apply orb_false_iff in Hg as [Hna Hnb]. apply (ensures_weaken e); [|auto].
  eapply (ensures_mono _ _ _ (fun _ s' => op_post e r (mont_result mont (bn_abs (objs s a) * bn_abs (objs s b)) s) s s')); [|done].
  unfold bn_mod_mul_montgomery_fallback.
  apply (with_ctx_spec e He_mem _ 4 s (fun _ o => result r (mont_result mont (bn_abs (objs s a) * bn_abs (objs s b)) s) s o)); [done|done|].
  intros s1 W1 Eo Hlive He1 Hroom1.
  eapply ensures_bind; [by apply (BN_CTX_get_spec e He_mem 3)|]. cbv beta. intros t s2 [Hgot Hroom2].
  pose proof Hgot as (W2 & G2 & Hnl & Hlt2 & Htone & Hkeep & (Hokt & _ & _ & Hstt) & _ & _ & Ee2).
  assert (forall q, live s q -> objs s2 q = objs s q /\ live s2 q /\ q <> t) as K2.
  { intros q Hq. split; [by rewrite Hkeep, Eo by auto|]. split; [exact (live_grow s1 s2 q W1 G2 (Hlive q Hq))|]. intros ->. by apply Hnl, Hlive. }
  destruct (K2 a Hla) as (Ea & Hla2 & Hat). destruct (K2 b Hlb) as (Eb & Hlb2 & Hbt). destruct (K2 r Hlr) as (Er & Hlr2 & Hrt).
  destruct (K2 (N mont) Hln) as (En & Hln2 & Hnt).
  eapply ensures_bind.
  { apply (mont_product t a b s2); [|by rewrite Ea|by rewrite Eb].
    split; unfold longer_at; rewrite ?Ea, ?Eb; try done. by rewrite Hstt. }
  cbv beta. rewrite Ea, Eb. intros _ s3 (W3 & G3 & B3 & K3 & Hokt3 & [Hv3 Hn3] & Hst3 & _).
  assert (objs s3 r = objs s r /\ objs s3 (N mont) = objs s (N mont)) as [Er3 En3] by (by rewrite !K3, Er, En).
  eapply ensures_mono.
  { apply BN_from_montgomery_word_spec; rewrite ?Er3, ?En3, ?Hv3; try done; [by rewrite Hst3, Hstt|].
    rewrite BN_MAX_WORDS_eq. intros. change BN_MONTGOMERY_MAX_WORDS with 1024 in Hnmax. lia. }
  unfold reduced. cbv beta zeta. rewrite Er3, En3, Hv3. intros _ s4 (Enx & Ec & Ho & [Hokt4 Hstt4] & Hok & Hs & Hm & Hw & Hneg & Hval & Hcong).
  split.
  - eapply steps_trans; [by eapply steps_got|]. eapply steps_trans; [by eapply steps_balanced|].
    apply steps_same_ctx; [apply B3| |done..].
    apply (ctx_wf_objs s3); [done..|]. intros q. destruct (decide (q = r)) as [->|Hqr].
    { right. split; [done|]. split; [done|]. by rewrite Er3. }
    destruct (decide (q = t)) as [->|Hqt]; [|left; by apply Ho]. right. split; [done|]. split; [done|]. done.
  - split; [|split; [done|split; [done|done]]]. intros q Hq Hqr. destruct (K2 q Hq) as (Eq & Hq2 & Hqt). by rewrite Ho, K3, Eq.
Qed.

(** The highest word of a number of minimal width is not zero. *)
Lemma minimal_abs_lower b : bn_ok b -> bn_minimal b -> (0 < width b)%nat -> wbase (width b - 1) <= bn_abs b.
Proof.
  intros Hb [Hm _] Hw. pose proof (minimal_top b Hb ltac:(lia)) as Ht. rewrite Hm in Ht.
  pose proof (length_words b Hb) as Hl. unfold bn_abs.
  pose proof (wval_take_drop (width b - 1) (words b)) as Hv. rewrite Nat.min_l in Hv by lia.
  pose proof (wval_nonneg (take (width b - 1) (words b)) ltac:(auto with words)) as Hlow.
  assert (1 <= wval (drop (width b - 1) (words b))) as Hhigh.
  { assert (words b !!! (width b - 1)%nat = d b !!! (width b - 1)%nat) as Ed by (unfold words; rewrite lookup_total_take_lt by lia; done).
    rewrite (drop_S _ (words b !!! (width b - 1)%nat)) by (apply list_lookup_lookup_total_lt; lia). rewrite wval_cons, Ed.
    pose proof (wval_nonneg (drop (S (width b - 1)) (words b)) ltac:(auto with words)). lia. }
  pose proof (wbase_pos (width b - 1)). nia.
Qed.

Lemma BN_is_odd_spec v : bn_ok v -> BN_is_odd v = Z.odd (bn_abs v).
Proof.
  intros Hv. unfold BN_is_odd. destruct (Nat.ltb_spec 0 (width v)) as [Hw|Hw]; cbn [andb].
  - assert (d v !!! 0%nat = words v !!! 0%nat) as -> by (unfold words; by rewrite lookup_total_take_lt).
    pose proof (length_words v Hv) as Hl. unfold bn_abs. destruct (words v) as [|x l]; [cbn in Hl; lia|].
    change ((x :: l) !!! 0%nat) with x. rewrite wval_cons. replace (2 ^ 64 * wval l) with (2 * (2 ^ 63 * wval l)) by lia.
    rewrite Z.odd_add_mul_2. change 1 with (Z.ones 1) at 1. rewrite Z.land_ones, Zmod_odd by lia. by destruct (Z.odd x).
  - by rewrite bn_abs_empty by lia.
Qed.

(** Setting the modulus. *)
Lemma bn_mont_ctx_set_N_and_n0_ok mont m s : N mont <> m -> bn_ok (objs s (N mont)) -> bn_ok (objs s m) ->
  (flag_static_data (objs s (N mont)) = true -> e) ->
  let v := objs s m in
  ensures (e \/ Z.odd (bn_abs v) = false \/ neg v = true \/ wbase (Z.to_nat BN_MONTGOMERY_MAX_WORDS) <= bn_abs v)
    (bn_mont_ctx_set_N_and_n0 mont m) s (fun mont' s' => frame (N mont) s s' /\ N mont' = N mont /\ RR mont' = RR mont /\
      let n := objs s' (N mont) in bn_ok n /\ bn_minimal n /\ bn_abs n = bn_abs v /\ neg n = false /\
      mont_modulus (words n) (fst (n0 mont')) /\ Z.of_nat (width n) <= BN_MONTGOMERY_MAX_WORDS /\
      flag_static_data n = flag_static_data (objs s (N mont))).
Proof.
  intros Hnm Hn Hm Hst v. unfold bn_mont_ctx_set_N_and_n0. apply ensures_get. fold v.
  pose proof (bn_abs_bound v Hm) as Hbv.
  apply ensures_guard.
  { intros Hz%negb_false_iff. rewrite BN_is_zero_spec in Hz by done. apply Z.eqb_eq in Hz. right; left.
    unfold bn_val in Hz. assert (bn_abs v = 0) as -> by (destruct (neg v); lia). done. }
  intros _. rewrite BN_is_odd_spec by done. apply ensures_guard; [by auto|]. intros Hodd. unfold BN_is_negative.
  apply ensures_guard; [intros Hg%negb_false_iff; auto|]. intros Hneg%negb_true_iff.
  rewrite bn_fits_in_words_spec by done.
  apply ensures_guard; [intros Hg%Z.ltb_ge; auto|]. intros Hfit%Z.ltb_lt. apply (ensures_weaken e); [|auto].
  eapply ensures_bind; [by apply (BN_copy_spec e He_mem)|]. cbv beta. fold v. intros _ s1 (Hf1 & Hok1 & Ew1 & Hw1 & Hn1 & Hst1 & _).
  eapply ensures_bind; [apply (ensures_weaken False); [by apply bn_set_minimal_width_spec|done]|].
  cbv beta zeta. intros _ s2 (Hf2 & Hok2 & Hmin & Hv2 & _ & Hneg2 & Hst2 & _). apply ensures_get, ensures_ret. cbn [N RR n0 fst].
  assert (bn_abs (objs s2 (N mont)) = bn_abs v) as Ev by (rewrite Hv2; unfold bn_abs; by rewrite Ew1).
  split; [by eapply frame_trans|]. split; [done|]. split; [done|]. split; [done|]. split; [done|]. split; [done|].
  split; [rewrite Hneg2, Hn1, Hneg; by destruct (_ =? 0)|].
  assert (0 < width (objs s2 (N mont)))%nat as Hpos.
  { destruct (Nat.eq_dec (width (objs s2 (N mont))) 0) as [E|]; [|lia]. apply bn_abs_empty in E. rewrite Ev in E. by rewrite E in Hodd. }
  split; [apply mont_n0_modulus; [done|done|by rewrite Ev]|].
  split; [|congruence]. apply (minimal_abs_lower _ Hok2 Hmin) in Hpos. rewrite Ev in Hpos.
  destruct (decide (width (objs s2 (N mont)) - 1 < Z.to_nat BN_MONTGOMERY_MAX_WORDS)%nat); [lia|].
  pose proof (wbase_le (Z.to_nat BN_MONTGOMERY_MAX_WORDS) (width (objs s2 (N mont)) - 1) ltac:(lia)). lia.
Qed.
End mont.

(** Only the guards decide what is accepted. *)
Lemma set_N_accepts {H} `{Malloc H} mont m (s : bn_state H) : bn_ok (objs s m) ->
  match bn_mont_ctx_set_N_and_n0 mont m s with
  | (Some _, _) => Z.odd (bn_abs (objs s m)) = true /\ neg (objs s m) = false /\ bn_abs (objs s m) < wbase (Z.to_nat BN_MONTGOMERY_MAX_WORDS)
  | (None, _) => True
  end.
Proof.
  intros Hm. unfold bn_mont_ctx_set_N_and_n0, st_bind at 1, get at 1. rewrite bn_fits_in_words_spec, BN_is_odd_spec by done.
  destruct (BN_is_zero (objs s m)); [done|]. cbn [negb st_guard]. unfold st_bind at 1, st_ret at 1.
  destruct (Z.odd (bn_abs (objs s m))) eqn:Eo; [|done]. cbn [st_guard]. unfold st_bind at 1, st_ret at 1.
  unfold BN_is_negative. destruct (neg (objs s m)) eqn:En; [done|]. cbn [negb st_guard]. unfold st_bind at 1, st_ret at 1.
  destruct (Z.ltb_spec (bn_abs (objs s m)) (wbase (Z.to_nat BN_MONTGOMERY_MAX_WORDS))); [|done]. cbn [st_guard].
  destruct (st_bind _ _ s) as [[?|] ?]; done.
Qed.

(** * Theorems *)

Section theorems.
Context {H : Type} `{MallocSpec H}.
Implicit Types s : bn_state H.

(** C16. [bn_mont_ctx_set_N_and_n0] accepts exactly the odd moduli that are not
    negative and have at most 1024 words.  It stores the modulus in its minimal
    width, and the word that the binary algorithm of [montgomery_inv.c] finds is
    the negative inverse of the modulus. *)
Theorem bn_mont_ctx_set_N_and_n0_spec mont m s (Hm : N mont <> m) (Hn : bn_ok (objs s (N mont))) (Hok : bn_ok (objs s m))
    (Hst : flag_static_data (objs s (N mont)) = false) :
  let v := objs s m in
  let max := wbase (Z.to_nat BN_MONTGOMERY_MAX_WORDS) in
  match bn_mont_ctx_set_N_and_n0 mont m s with
  | (Some mont', s') =>
      let n := objs s' (N mont) in
      Z.odd (bn_abs v) = true /\ neg v = false /\ bn_abs v < max /\
      frame (N mont) s s' /\ N mont' = N mont /\ RR mont' = RR mont /\ bn_ok n /\ bn_minimal n /\ bn_val n = bn_val v /\
      word (fst (n0 mont')) /\ (fst (n0 mont') * bn_abs n + 1) mod 2 ^ 64 = 0
  | (None, _) => ~ MallocTotal H \/ Z.odd (bn_abs v) = false \/ neg v = true \/ max <= bn_abs v
  end.
Proof.
  cbv zeta. pose proof (bn_mont_ctx_set_N_and_n0_ok (~ MallocTotal H) malloc_none_total mont m s Hm Hn Hok ltac:(congruence)) as Hs.
  pose proof (set_N_accepts mont m s Hok) as Hacc. unfold ensures in Hs. destruct (bn_mont_ctx_set_N_and_n0 mont m s) as [[mont'|] s']; [|exact Hs].
  destruct Hacc as (Hodd & Hneg & Hfit). destruct Hs as (Hf & EN & ER & Hokn & Hmin & Hv & Hnn & [_ _ Hw Hi] & _).
  split; [done|]. split; [done|]. split; [done|]. split; [done|]. split; [done|]. split; [done|]. split; [done|]. split; [done|].
  split; [|done]. unfold bn_val. by rewrite Hnn, Hneg, Hv.
Qed.

(** C7. [BN_mod_mul_montgomery] multiplies two numbers and divides by the power
    [R] of the word base modulo the modulus: the result is fully reduced, and
    [R] times it is congruent to the product.  The result may be an operand, it
    is the only object of the caller that changes, and the temporaries are given
    back.  Negative operands are refused. *)
Theorem BN_mod_mul_montgomery_spec r a b mont s (Hargs : arguments r a b s) (Hmont : mont_ok mont s) (Hr : N mont <> r)
    (Hlt : bn_abs (objs s a) * bn_abs (objs s b) < bn_abs (objs s (N mont)) * wbase (width (objs s (N mont)))) :
  match BN_mod_mul_montgomery r a b mont s with
  | (Some _, s') =>
      let n := objs s (N mont) in
      neg (objs s a) = false /\ neg (objs s b) = false /\
      op_post (refused 5 r a b s) r (fun p => neg p = false /\ width p = width n /\ bn_abs p < bn_abs n /\
        (bn_abs p * wbase (width n)) mod bn_abs n = (bn_abs (objs s a) * bn_abs (objs s b)) mod bn_abs n) s s'
  | (None, _) => refused 5 r a b s \/ neg (objs s a) = true \/ neg (objs s b) = true
  end.
Proof.
  exact (BN_mod_mul_montgomery_ok (refused 5 r a b s) (refused_mem 5 r a b s) r a b mont s (arguments_operands 5 r a b s Hargs) Hmont Hr Hlt).
Qed.
End theorems.


(** The modulus [2^128 + 51]. *)
Lemma bn_mont_ctx_set_N_and_n0_spec_witness :
  let s := example_state [Bignum [51; 0; 1; 0] 4 false true false; BN_init] in
  let mont := Mont 1 3 (0, 0) in
  exists n0' s', bn_mont_ctx_set_N_and_n0 mont 2 s = (Some (Mont 1 3 (n0', 0)), s') /\ width (objs s' 3) = 3%nat /\
    (n0' * (2 ^ 128 + 51) + 1) mod 2 ^ 64 = 0.
Proof.
  intros s mont. assert (bn_ok (objs s 2)) as Hok.
  { split; [|split; [apply le_n|done]]. change (words_ok [51; 0; 1; 0]). repeat (constructor; [done|]). constructor. }
  pose proof (bn_mont_ctx_set_N_and_n0_spec mont 2 s ltac:(done) bn_ok_init Hok eq_refl) as Hs. cbv zeta in Hs.
  assert (exists n0', fst (bn_mont_ctx_set_N_and_n0 mont 2 s) = Some (Mont 1 3 (n0', 0)) /\
    width (objs (snd (bn_mont_ctx_set_N_and_n0 mont 2 s)) 3) = 3%nat) as (n0' & E & Ew).
  { eexists. split; vm_compute; reflexivity. }
  destruct (bn_mont_ctx_set_N_and_n0 mont 2 s) as [res s']. cbn [fst snd] in E, Ew. subst res.
  destruct Hs as (_ & _ & _ & _ & _ & _ & Hokn & Hmin & Hv & _ & Hi). change (N mont) with 3 in *. cbn [n0 fst] in Hi.
  exists n0', s'. split; [done|]. split; [done|]. destruct Hmin as [Hmin Hmin0].
  assert (bn_abs (objs s' 3) = 2 ^ 128 + 51) as Ea; [|by rewrite Ea in Hi].
  apply (f_equal Z.abs) in Hv. assert (Z.abs (bn_val (objs s 2)) = 2 ^ 128 + 51) as Ev by (vm_compute; reflexivity).
  rewrite Ev in Hv. pose proof (bn_abs_bound _ Hokn). unfold bn_val in Hv. destruct (neg (objs s' 3)); lia.
Defined.

(** A square modulo [2^64 + 13], in place. *)
Lemma BN_mod_mul_montgomery_spec_witness :
  let s := example_state [Bignum [5; 1] 2 false true false; Bignum [13; 1] 2 false true false] in
  let mont := Mont 1 3 (bn_neg_inv_mod_r_u64 13, 0) in
  arguments 2 2 2 s /\ mont_ok mont s /\
  exists s', BN_mod_mul_montgomery 2 2 2 mont s = (Some tt, s') /\
    (bn_abs (objs s' 2) * 2 ^ 128) mod (2 ^ 64 + 13) = ((2 ^ 64 + 5) * (2 ^ 64 + 5)) mod (2 ^ 64 + 13).
Proof.
  intros s mont. assert (bn_ok (objs s 2) /\ bn_ok (objs s 3)) as [Hok2 Hok3].
  { split; (split; [|split; [apply le_n|done]]); [change (words_ok [5; 1])|change (words_ok [13; 1])];
      (constructor; [done|constructor; [done|constructor]]). }
  assert (arguments 2 2 2 s) as Hargs.
  { assert (live s 2) as Hl by (by apply example_live). split; [by apply example_wf|done|done|done]. }
  assert (mont_ok mont s) as Hmont.
  { split; [by apply example_live|done| |done]. apply (mont_n0_modulus (objs s 3) Hok3); [apply Nat.lt_0_succ|reflexivity]. }
  split; [done|]. split; [done|].
  pose proof (BN_mod_mul_montgomery_spec 2 2 2 mont s Hargs Hmont ltac:(done) ltac:(vm_compute; reflexivity)) as Hs.
  assert (fst (BN_mod_mul_montgomery 2 2 2 mont s) = Some tt) as E by (vm_compute; reflexivity).
  destruct (BN_mod_mul_montgomery 2 2 2 mont s) as [res s']. cbn [fst] in E. subst res. exists s'. split; [done|].
  destruct Hs as (_ & _ & _ & _ & _ & _ & _ & (_ & _ & _ & Hc) & _). exact Hc.
Defined.
