(* ===== verification/BnBytesSpec.v ===== *)
(** Big numbers as bytes ([crypto/fipsmodule/bn/bytes.c]): what is read can be
    written again, with or without padding, in both byte orders. *)
From S2P Require Import Prelude Mem ConstTime Stack BnWords BnMul BnMulSpec Bn BnSpec BnCtxSpec BnProduct BnProductSpec.

(** * Words and bytes *)

Lemma le_bytes_take n m v : (n <= m)%nat -> take n (le_bytes m v) = le_bytes n v.
Proof.
  intros Hn. replace m with (n + (m - n))%nat by lia. rewrite le_bytes_plus. apply take_app_length'. by rewrite length_le_bytes.
Qed.

Lemma le_bytes_small n m v : 0 <= v < 256 ^ Z.of_nat n -> le_bytes (n + m) v = le_bytes n v ++ replicate m 0.
Proof.
  intros Hv. rewrite le_bytes_plus, Z.div_small by done. f_equal. induction m as [|m IH]; [done|].
  cbn [le_bytes replicate]. change (0 mod 256) with 0. change (0 / 256) with 0. by rewrite IH.
Qed.

Lemma le_bytes_split n a b : 0 <= a < 256 ^ Z.of_nat n -> forall m, le_bytes (n + m) (a + 256 ^ Z.of_nat n * b) = le_bytes n a ++ le_bytes m b.
Proof.
  intros Ha m. rewrite le_bytes_plus. assert (0 < 256 ^ Z.of_nat n) by (apply Z.pow_pos_nonneg; lia). f_equal.
  - rewrite <- (rev_involutive (le_bytes n (a + _))). change (rev (le_bytes n ?v)) with (be_bytes n v).
    rewrite <- be_bytes_mod, (Z.mul_comm (256 ^ _)), Z.mod_add, Z.mod_small by lia. unfold be_bytes. by rewrite rev_involutive.
  - f_equal. rewrite (Z.mul_comm (256 ^ _)), Z.div_add, Z.div_small by lia. lia.
Qed.

Lemma word_bytes_eq l : words_ok l -> word_bytes l = le_bytes (8 * length l) (wval l).
Proof.
  induction l as [|x l IH]; intros Hl; [done|]. apply words_ok_cons in Hl as [Hx Hl].
  change (word_bytes (x :: l)) with (le_bytes 8 x ++ word_bytes l). rewrite IH by done. rewrite wval_cons.
  replace (8 * length (x :: l))%nat with (8 + 8 * length l)%nat by (cbn [length]; lia). symmetry. by apply (le_bytes_split 8).
Qed.

Lemma wbase_bytes n : wbase n = 256 ^ Z.of_nat (8 * n).
Proof. unfold wbase. change 256 with (2 ^ 8). rewrite <- Z.pow_mul_r by lia. f_equal. lia. Qed.

(** The value of the bytes after the first [n]. *)
Lemma le_bytes_zero n v : 0 <= v < 256 ^ Z.of_nat n -> (fold_left Z.lor (le_bytes n v) 0 =? 0) = (v =? 0).
Proof.
  intros Hv. assert (forall l acc, Forall (fun x => 0 <= x) l -> 0 <= acc -> (fold_left Z.lor l acc = 0 <-> acc = 0 /\ Forall (eq 0) l)) as Hf.
  { induction l as [|x l IH]; intros acc Hl Hacc; cbn [fold_left].
    { split; [by intros ->|by intros [-> _]]. }
    apply Forall_cons in Hl as [Hx Hl]. rewrite IH by (done || by apply Z.lor_nonneg). rewrite Z.lor_eq_0_iff, Forall_cons. split; [intros [[? ?] ?]|intros [? [? ?]]]; auto. }
  assert (Forall (fun x => 0 <= x) (le_bytes n v)) as Hn.
  { eapply Forall_impl; [apply (le_bytes_ok n v)|]. unfold is_byte. simpl. lia. }
  apply eq_iff_eq_true. rewrite !Z.eqb_eq, (Hf _ 0 Hn) by done.
  split; [intros [_ Hz]|intros ->; split; [done|]].
  - rewrite <- (be_val_be_bytes_small n v Hv). unfold be_bytes.
    assert (le_bytes n v = replicate n 0) as ->.
    { rewrite <- (length_le_bytes n v) at 2. clear -Hz. induction Hz as [|x l <- _ IH]; [done|]. cbn. by rewrite <- IH. }
    rewrite rev_zeros. apply be_val_replicate_0.
  - clear. induction n as [|n IH]; [constructor|]. by constructor.
Qed.

Lemma fits_in_bytes_spec l n : words_ok l -> fits_in_bytes l n = (wval l <? 256 ^ Z.of_nat n).
Proof.
  intros Hl. unfold fits_in_bytes. rewrite word_bytes_eq by done. pose proof (wval_bound l Hl) as Hb. rewrite wbase_bytes in Hb.
  assert (0 < 256 ^ Z.of_nat n) as Hp by (apply Z.pow_pos_nonneg; lia).
  destruct (Nat.le_gt_cases (8 * length l) n) as [Hn|Hn].
  - rewrite drop_ge by (by rewrite length_le_bytes). symmetry. apply Z.ltb_lt.
    pose proof (Z.pow_le_mono_r 256 (Z.of_nat (8 * length l)) (Z.of_nat n)). lia.
  - replace (8 * length l)%nat with (n + (8 * length l - n))%nat by lia. rewrite le_bytes_plus.
    rewrite drop_app_length' by (by rewrite length_le_bytes). rewrite le_bytes_zero.
    + apply eq_iff_eq_true. rewrite Z.eqb_eq, Z.ltb_lt. split; [intros Hz; apply Z.div_small_iff in Hz; lia|intros; apply Z.div_small; lia].
    + split; [apply Z.div_pos; lia|]. apply Z.div_lt_upper_bound; [done|]. rewrite <- Z.pow_add_r by lia.
      replace (Z.of_nat n + Z.of_nat (8 * length l - n)) with (Z.of_nat (8 * length l)) by lia. lia.
Qed.

Lemma bn_words_to_big_endian_spec n l : words_ok l -> wval l < 256 ^ Z.of_nat n ->
  bn_words_to_big_endian n l = be_bytes n (wval l).
Proof.
  intros Hl Hv. unfold bn_words_to_big_endian. rewrite word_bytes_eq, length_le_bytes by done.
  pose proof (wval_bound l Hl) as Hb. rewrite wbase_bytes in Hb. unfold be_bytes.
  destruct (Nat.ltb_spec n (8 * length l)) as [Hn|Hn].
  - by rewrite Nat.sub_diag, le_bytes_take by lia.
  - rewrite take_ge by (by rewrite length_le_bytes). replace n with (8 * length l + (n - 8 * length l))%nat at 2 by lia.
    by rewrite le_bytes_small, rev_app_distr, rev_zeros.
Qed.

(** * Reading *)

Lemma load_words_be_spec fuel : forall inp, bytes_ok inp -> (length inp < fuel)%nat ->
  words_ok (load_words_be fuel inp) /\ wval (load_words_be fuel inp) = be_val inp /\
  (8 * length (load_words_be fuel inp) < length inp + 8)%nat /\ (length inp <= 8 * length (load_words_be fuel inp))%nat.
Proof.
  induction fuel as [|fuel IH]; intros inp Hok Hf; [lia|]. cbn [load_words_be].
  destruct (Nat.leb_spec 8 (length inp)) as [H8|H8].
  - destruct (IH (take (length inp - 8) inp)) as (Hw & Hv & Hl1 & Hl2); [by apply Forall_take|rewrite length_take; lia|].
    rewrite length_take, Nat.min_l in Hl1, Hl2 by lia. rewrite words_ok_cons, wval_cons, Hv. cbn [length].
    assert (bytes_ok (drop (length inp - 8) inp)) as Hd by (by apply Forall_drop).
    pose proof (be_val_bound _ Hd) as Hb. unfold Zlen in Hb. rewrite length_drop in Hb.
    replace (length inp - (length inp - 8))%nat with 8%nat in Hb by lia. change (256 ^ Z.of_nat 8) with (2 ^ 64) in Hb.
    assert (be_val inp = be_val (take (length inp - 8) inp) * 2 ^ 64 + be_val (drop (length inp - 8) inp)) as ->.
    { rewrite <- (take_drop (length inp - 8) inp) at 1. rewrite be_val_app. unfold Zlen. rewrite length_drop.
      by replace (length inp - (length inp - 8))%nat with 8%nat by lia. }
    split; [done|]. split; [lia|lia].
  - destruct (Nat.eqb_spec (length inp) 0) as [E|E].
    + apply nil_length_inv in E as ->. split; [constructor|]. by cbn; lia.
    + rewrite be_loop_eq by (done || lia). pose proof (be_val_bound inp Hok) as Hb. unfold Zlen in Hb.
      assert (256 ^ Z.of_nat (length inp) <= 256 ^ 8) by (apply Z.pow_le_mono_r; lia). change (256 ^ 8) with (2 ^ 64) in *.
      rewrite words_ok_cons, wval_cons, wval_nil. cbn [length]. split; [split; [unfold word; lia|constructor]|]. lia.
Qed.

Lemma bn_big_endian_to_words_spec n inp : bytes_ok inp -> (length inp <= n * 8)%nat ->
  exists l, bn_big_endian_to_words n inp = Some l /\ length l = n /\ words_ok l /\ wval l = be_val inp.
Proof.
  intros Hok Hn. unfold bn_big_endian_to_words. rewrite (proj2 (Nat.leb_le _ _)) by done.
  destruct (load_words_be_spec (S (length inp)) inp Hok ltac:(lia)) as (Hw & Hv & Hl1 & Hl2).
  eexists. split; [done|]. rewrite length_app, length_replicate. split; [lia|]. split; [solve_words|].
  rewrite wval_app, wval_replicate_0. lia.
Qed.

(** * Lengths *)

Lemma BN_num_bits_spec b : bn_ok b -> 0 < bn_abs b ->
  0 < BN_num_bits b /\ 2 ^ (BN_num_bits b - 1) <= bn_abs b < 2 ^ BN_num_bits b.
Proof.
  intros Hb Hpos. pose proof (minimal_abs b Hb) as Ha. pose proof (minimal_width_le b Hb) as Hle. unfold BN_num_bits.
  destruct (Nat.eqb_spec (bn_minimal_width b) 0) as [E|E]; [rewrite E, take_0 in Ha; change (wval []) with 0 in Ha; lia|].
  set (w := bn_minimal_width b) in *. pose proof (minimal_top b Hb ltac:(lia)) as Ht. fold w in Ht.
  pose proof (BN_num_bits_word_spec _ Ht) as (Hn & Hlo & Hhi). set (x := d b !!! (w - 1)%nat) in *. set (n := BN_num_bits_word x) in *.
  assert (bn_abs b = wval (take (w - 1) (d b)) + wbase (w - 1) * x) as Ev.
  { rewrite <- Ha. replace w with (S (w - 1)) at 1 by lia. destruct Hb as (_ & Hl & _).
    rewrite (take_S_r _ _ x) by (apply list_lookup_lookup_total_lt; lia).
    rewrite wval_app, length_take, Nat.min_l by lia. rewrite wval_cons, wval_nil. lia. }
  pose proof (wval_take_bound (w - 1) (d b)) as Hlow. 
  assert (0 <= wval (take (w - 1) (d b)) < wbase (w - 1)) as [Hl0 Hl1].
  { pose proof (words_ok_prefix b (w - 1) Hb ltac:(lia)) as Hw. apply wval_bound in Hw. rewrite length_take in Hw.
    destruct Hb as (_ & Hl & _). by rewrite Nat.min_l in Hw by lia. }
  assert (wbase (w - 1) = 2 ^ ((Z.of_nat w - 1) * BN_BITS2)) as Ew.
  { unfold wbase, BN_BITS2. f_equal. lia. }
  unfold BN_BITS2 in *. rewrite Ew in *. replace ((Z.of_nat w - 1) * 64 + n - 1) with ((Z.of_nat w - 1) * 64 + (n - 1)) by lia.
  rewrite !Z.pow_add_r by lia. assert (0 < 2 ^ ((Z.of_nat w - 1) * 64)) by (apply Z.pow_pos_nonneg; lia). split; [lia|]. rewrite Ev. nia.
Qed.

(** [BN_num_bytes] is the least length of the number in bytes. *)
Lemma BN_num_bytes_spec b : bn_ok b -> let n := Z.to_nat (BN_num_bytes b) in
  bn_abs b < 256 ^ Z.of_nat n /\ (n <> 0%nat -> 256 ^ (Z.of_nat n - 1) <= bn_abs b).
Proof.
  intros Hb. cbv zeta. pose proof (bn_abs_bound b Hb) as [H0b _]. unfold BN_num_bytes.
  destruct (decide (bn_abs b = 0)) as [E|E].
  - rewrite E. apply minimal_width_0 in E; [|done]. unfold BN_num_bits. rewrite E. cbn. split; [lia|done].
  - destruct (BN_num_bits_spec b Hb ltac:(lia)) as (Hn & Hlo & Hhi). set (n := BN_num_bits b) in *.
    rewrite Z2Nat.id by dlia. change 256 with (2 ^ 8). rewrite <- !Z.pow_mul_r by dlia. split; [|intros _].
    + eapply Z.lt_le_trans; [exact Hhi|]. apply Z.pow_le_mono_r; dlia.
    + eapply Z.le_trans; [|exact Hlo]. apply Z.pow_le_mono_r; dlia.
Qed.

Lemma drop_zeros_zeros k l : drop_zeros (replicate k 0 ++ l) = drop_zeros l.
Proof. by induction k. Qed.

(** Leading zeros are what a longer encoding has more. *)
Lemma drop_zeros_be n m v : (n <= m)%nat -> 0 <= v < 256 ^ Z.of_nat n -> (n <> 0%nat -> 256 ^ (Z.of_nat n - 1) <= v) ->
  drop_zeros (be_bytes m v) = be_bytes n v.
Proof.
  intros Hn Hv Hlow. replace m with (n + (m - n))%nat by lia. unfold be_bytes at 1. rewrite le_bytes_small by done.
  rewrite rev_app_distr, rev_zeros, drop_zeros_zeros. change (rev (le_bytes n v)) with (be_bytes n v).
  destruct n as [|n]; [done|]. specialize (Hlow ltac:(lia)). replace (Z.of_nat (S n) - 1) with (Z.of_nat n) in Hlow by lia.
  assert (be_bytes (S n) v = v / 256 ^ Z.of_nat n :: be_bytes n v) as ->.
  { unfold be_bytes. replace (S n) with (n + 1)%nat by lia. rewrite le_bytes_plus, rev_app_distr. cbn [le_bytes rev app].
    f_equal. apply Z.mod_small. assert (0 < 256 ^ Z.of_nat n) by (apply Z.pow_pos_nonneg; lia).
    rewrite Nat2Z.inj_succ, Z.pow_succ_r in Hv by lia. split; [apply Z.div_pos; lia|apply Z.div_lt_upper_bound; lia]. }
  assert (1 <= v / 256 ^ Z.of_nat n) by (apply Z.div_le_lower_bound; [apply Z.pow_pos_nonneg; lia|lia]).
  cbn [drop_zeros]. by rewrite (proj2 (Z.eqb_neq _ _)) by lia.
Qed.

(** * Writing *)

Lemma BN_bn2bin_spec b : bn_ok b -> BN_bn2bin b = be_bytes (Z.to_nat (BN_num_bytes b)) (bn_abs b).
Proof. intros Hb. apply bn_words_to_big_endian_spec; [auto with words|]. by apply BN_num_bytes_spec. Qed.

Lemma BN_bn2bin_padded_spec len b : bn_ok b ->
  BN_bn2bin_padded len b = if bn_abs b <? 256 ^ Z.of_nat len then Some (be_bytes len (bn_abs b)) else None.
Proof.
  intros Hb. unfold BN_bn2bin_padded. rewrite fits_in_bytes_spec by auto with words. fold (bn_abs b).
  destruct (Z.ltb_spec (bn_abs b) (256 ^ Z.of_nat len)); cbn [negb]; [|done]. f_equal. apply bn_words_to_big_endian_spec; auto with words.
Qed.

Lemma BN_bn2le_padded_spec len b : bn_ok b ->
  BN_bn2le_padded len b = if bn_abs b <? 256 ^ Z.of_nat len then Some (le_bytes len (bn_abs b)) else None.
Proof.
  intros Hb. unfold BN_bn2le_padded. rewrite fits_in_bytes_spec by auto with words. fold (bn_abs b).
  destruct (Z.ltb_spec (bn_abs b) (256 ^ Z.of_nat len)); cbn [negb]; [|done]. f_equal.
  rewrite word_bytes_eq, length_le_bytes by auto with words. fold (bn_abs b). pose proof (wval_bound (words b) ltac:(auto with words)) as Hv.
  rewrite wbase_bytes in Hv. fold (bn_abs b) in Hv. destruct (Nat.ltb_spec len (8 * length (words b))) as [Hn|Hn].
  - rewrite le_bytes_take, Nat.sub_diag by lia. apply app_nil_r.
  - rewrite take_ge by (by rewrite length_le_bytes). rewrite <- le_bytes_small by done. f_equal. lia.
Qed.

(** What is written from a number that was read. *)
Lemma written_bytes b inp : bn_ok b -> bytes_ok inp -> bn_abs b = be_val inp ->
  BN_bn2bin b = drop_zeros inp /\
  (forall k, BN_bn2bin_padded (length inp + k) b = Some (replicate k 0 ++ inp)) /\
  (forall k, BN_bn2le_padded (length inp + k) b = Some (rev inp ++ replicate k 0)).
Proof.
  intros Hb Hi Ev. pose proof (be_val_bound inp Hi) as Hv. unfold Zlen in Hv.
  pose proof (BN_num_bytes_spec b Hb) as [Hhi Hlow]. rewrite Ev in Hhi, Hlow.
  assert (forall k, be_val inp < 256 ^ Z.of_nat (length inp + k)) as Hk.
  { intros k. pose proof (Z.pow_le_mono_r 256 (Z.of_nat (length inp)) (Z.of_nat (length inp + k))). lia. }
  assert (le_bytes (length inp) (be_val inp) = rev inp) as Ele.
  { rewrite <- (rev_involutive (le_bytes _ _)). f_equal. by apply be_bytes_be_val. }
  split; [|split].
  - rewrite BN_bn2bin_spec, Ev by done. rewrite <- (be_bytes_be_val inp Hi) at 2. symmetry. apply drop_zeros_be; [|lia|done].
    destruct (Nat.le_gt_cases (Z.to_nat (BN_num_bytes b)) (length inp)) as [|Hgt]; [done|exfalso].
    pose proof (Z.pow_le_mono_r 256 (Z.of_nat (length inp)) (Z.of_nat (Z.to_nat (BN_num_bytes b)) - 1)). lia.
  - intros k. rewrite BN_bn2bin_padded_spec, Ev by done. rewrite (proj2 (Z.ltb_lt _ _)) by done. unfold be_bytes.
    by rewrite le_bytes_small, rev_app_distr, rev_zeros, Ele, rev_involutive.
  - intros k. rewrite BN_bn2le_padded_spec, Ev by done. rewrite (proj2 (Z.ltb_lt _ _)) by done. by rewrite le_bytes_small, Ele.
Qed.

(** * Reading into an object *)

Section bytes.
Context {H : Type} `{Malloc H}.
Implicit Types s : bn_state H.

Lemma BN_bin2bn_ok inp ret s : bytes_ok inp -> bn_ok (objs s ret) ->
  ensures (room_refused ret ((length inp + 7) / 8) s) (BN_bin2bn inp (Some ret)) s (fun p s' =>
    p = ret /\ written ret s s' /\ bn_abs (objs s' ret) = be_val inp /\ width (objs s' ret) = ((length inp + 7) / 8)%nat /\
    neg (objs s' ret) = match inp with [] => neg (objs s ret) | _ => false end).
Proof.
  intros Hi Hr. unfold BN_bin2bn, or_new.
  eapply (ensures_bind _ _ _ s (fun _ s' => written ret s s' /\ bn_abs (objs s' ret) = be_val inp /\ width (objs s' ret) = ((length inp + 7) / 8)%nat /\
    neg (objs s' ret) = match inp with [] => neg (objs s ret) | _ => false end)).
  2: { cbv beta. intros _ s' Hs. apply ensures_ret. by split. }
  destruct (Nat.eqb_spec (length inp) 0) as [E|E].
  { apply nil_length_inv in E as ->. apply ensures_upd. unfold written. rewrite objs_updated_same. destruct Hr as (_ & _ & Hm).
    split; [|done]. split; [auto|]. split; [|done]. split; [constructor|]. split; [cbn; lia|done]. }
  set (n := ((length inp - 1) / 8 + 1)%nat).
  assert (n = ((length inp + 7) / 8)%nat /\ (length inp <= n * 8)%nat) as [En Hn].
  { unfold n. nat_div (length inp - 1)%nat 8%nat. nat_div (length inp + 7)%nat 8%nat. lia. }
  rewrite <- En. assert (0 < n)%nat by lia. clearbody n.
  eapply ensures_bind.
  { eapply ensures_weaken; [apply bn_wexpand_spec; [done|lia]|]. intros Hw. eexists. split; [|exact Hw]. lia. }
  cbv beta. intros _ s1 (Hf & Hok & Hl & _ & _ & _ & _ & Hs1 & Hm1). apply ensures_upd_bind.
  destruct (bn_big_endian_to_words_spec n inp Hi Hn) as (l & -> & Hll & Hlw & Hlv). apply ensures_upd.
  set (s' := updated _ ret _). unfold Zlen in Hl.
  assert (objs s' ret = put_d 0 l (with_neg false (with_width n (objs s1 ret)))) as Er by (unfold s'; by rewrite !objs_updated_same).
  assert (words (objs s' ret) = l) as Ew.
  { rewrite Er. unfold words, put_d, put. cbn [d width with_d with_neg with_width]. rewrite take_0. cbn [app]. by apply take_app_length'. }
  split; [|split; [by unfold bn_abs; rewrite Ew|split; [by rewrite Er|by rewrite Er; destruct inp]]].
  split; [unfold s'; auto|]. destruct Hok as (_ & _ & Hm). split; [|rewrite Er; done].
  split; [by rewrite Ew|]. rewrite Er. unfold put_d, with_d, Zlen in *. cbn [d width with_neg with_width]. rewrite length_put by (cbn; lia). lia.
Qed.
End bytes.

(** * Theorems *)

Section theorems.
Context {H : Type} `{Malloc H}.
Implicit Types s : bn_state H.

(** C15. [BN_bin2bn] reads the big-endian number of any bytes into an object and
    changes nothing else; only the sign is kept when there are no bytes.
    [BN_bn2bin] writes the bytes again without the leading zeros, and the padded
    functions write them with any number of zeros more, in either order; both
    fail exactly when the number needs more bytes than they are given.  Reading
    fails only when there is no room for the number. *)
Theorem BN_bin2bn_roundtrip inp ret s (Hinp : bytes_ok inp) (Hret : bn_ok (objs s ret)) :
  match BN_bin2bn inp (Some ret) s with
  | (Some p, s') =>
      let b := objs s' ret in
      p = ret /\ written ret s s' /\ bn_abs b = be_val inp /\ width b = ((length inp + 7) / 8)%nat /\
      neg b = match inp with [] => neg (objs s ret) | _ => false end /\
      BN_bn2bin b = drop_zeros inp /\
      (forall k, BN_bn2bin_padded (length inp + k) b = Some (replicate k 0 ++ inp)) /\
      (forall k, BN_bn2le_padded (length inp + k) b = Some (rev inp ++ replicate k 0)) /\
      (forall n, BN_bn2bin_padded n b = None <-> 256 ^ Z.of_nat n <= be_val inp) /\
      (forall n, BN_bn2le_padded n b = None <-> 256 ^ Z.of_nat n <= be_val inp)
  | (None, _) => room_refused ret ((length inp + 7) / 8) s
  end.
Proof.
  pose proof (BN_bin2bn_ok inp ret s Hinp Hret) as Hb. unfold ensures in Hb. destruct (BN_bin2bn inp (Some ret) s) as [[p|] s']; [|exact Hb].
  destruct Hb as (-> & Hw & Hv & Hwd & Hn). assert (bn_ok (objs s' ret)) as Hok by apply Hw.
  destruct (written_bytes _ inp Hok Hinp Hv) as (H1 & H2 & H3).
  split; [done|]. split; [exact Hw|]. split; [done|]. split; [done|]. split; [done|]. split; [done|]. split; [done|]. split; [done|].
  split; intros n; rewrite ?BN_bn2bin_padded_spec, ?BN_bn2le_padded_spec, Hv by done;
    destruct (Z.ltb_spec (be_val inp) (256 ^ Z.of_nat n)); split; intros; (done || lia).
Qed.
End theorems.

(** Ten bytes with a leading zero. *)
Lemma BN_bin2bn_roundtrip_witness :
  let inp := [0; 1; 2; 3; 4; 5; 6; 7; 8; 9] in
  let s := example_state [BN_init] in
  let ret : option ptr := Some 2 in
  exists s', BN_bin2bn inp ret s = (ret, s') /\ BN_bn2bin (objs s' 2) = [1; 2; 3; 4; 5; 6; 7; 8; 9] /\
    BN_bn2bin_padded 8 (objs s' 2) = None /\ BN_bn2le_padded 8 (objs s' 2) = None.
Proof.
  intros inp s ret. assert (bytes_ok inp) as Hi by (repeat (constructor; [done|]); constructor).
  pose proof (BN_bin2bn_roundtrip inp 2 s Hi bn_ok_init) as Hs. change (BN_bin2bn inp (Some 2) s) with (BN_bin2bn inp ret s) in Hs.
  assert (fst (BN_bin2bn inp ret s) = ret) as E by (vm_compute; reflexivity).
  destruct (BN_bin2bn inp ret s) as [res s']. cbn [fst] in E. subst res. exists s'. split; [done|].
  destruct Hs as (_ & _ & _ & _ & _ & Hb & _ & _ & Hn & Hnle). split; [exact Hb|].
  split; [apply Hn|apply Hnle]; vm_compute; discriminate.
Defined.
