(* ===== verification/BnShiftSpec.v ===== *)
(** Shifts of big numbers multiply and divide by powers of two, in place or
    not. *)
From S2P Require Import Prelude Mem ConstTime Stack BnWords BnMul BnMulSpec Bn BnSpec BnCtxSpec BnProduct BnProductSpec.

(** * Words *)

(** The upper part of a word that is shifted to the left, put into the word
    above, whose low bits are zero. *)
Lemma lshift_word x lb : word x -> 0 < lb < 64 ->
  let hi := Z.shiftr x (BN_BITS2 - lb) in let lo := u64 (Z.shiftl x lb) in
  word lo /\ 0 <= hi < 2 ^ lb /\ lo + 2 ^ 64 * hi = 2 ^ lb * x.
Proof.
  unfold word, BN_BITS2. intros Hx Hlb. cbv zeta. rewrite Z.shiftr_div_pow2, Z.shiftl_mul_pow2 by lia.
  pose proof (pow2_split lb ltac:(lia)) as Hp. set (p := 2 ^ lb) in *. set (q := 2 ^ (64 - lb)) in *.
  assert (0 < p) by (apply Z.pow_pos_nonneg; lia). assert (0 < q) by (apply Z.pow_pos_nonneg; lia).
  pose proof (Z.div_mod x q ltac:(lia)) as Hd. pose proof (Z.mod_pos_bound x q ltac:(lia)) as Hm.
  assert (0 <= x / q < p) as Hq by (split; [apply Z.div_pos; lia|apply Z.div_lt_upper_bound; [lia|]; rewrite Z.mul_comm, <- Hp; lia]).
  assert (u64 (x * p) = p * (x mod q)) as ->.
  { unfold u64. rewrite Hp. symmetry. apply (Z.mod_unique _ _ (x / q)); [left; nia|]. rewrite Hd at 1. ring. }
  split; [nia|]. split; [done|]. rewrite Hp. rewrite Hd at 3. ring.
Qed.

(** Low bits that are zero are set by [lor]. *)
Lemma lor_low y v lb : 0 <= lb -> 0 <= v < 2 ^ lb -> Z.lor (2 ^ lb * y) v = 2 ^ lb * y + v.
Proof.
  intros Hlb Hv. rewrite Z.mul_comm, <- Z.shiftl_mul_pow2 by done.
  pose proof (Z.add_lor_land (Z.shiftl y lb) v) as Hadd. enough (Z.land (Z.shiftl y lb) v = 0) by lia. clear Hadd. apply Z.bits_inj'. intros i Hi.
  rewrite Z.land_spec, Z.bits_0. destruct (decide (i < lb)) as [Hlt|Hge]; [by rewrite Z.shiftl_spec_low|].
  rewrite andb_comm. rewrite <- (Z.mod_small v (2 ^ lb)), Z.mod_pow2_bits_high by lia. done.
Qed.

(** What the loop has written above [i]: the words of [l] from [i] on, shifted,
    in [n + 1 - i] words of the array [t]. *)
Definition lshifted (nw : nat) (lb : Z) (l : list Z) (i : nat) (t : list Z) : Prop :=
  exists t1 h t3, t = t1 ++ h ++ t3 /\ length t1 = (nw + i)%nat /\ length h = S (length l - i) /\ words_ok h /\
    wval h = 2 ^ lb * wval (drop i l).

Lemma lshifted_step nw lb l i t : 0 <= lb < 64 -> words_ok l -> (i < length l)%nat -> lshifted nw lb l (S i) t ->
  let x := l !!! i in
  let t' := if lb =? 0 then put (nw + i) [x] t
    else put (nw + i) [u64 (Z.shiftl x lb)] (put (nw + i + 1) [Z.lor (t !!! (nw + i + 1)%nat) (Z.shiftr x (BN_BITS2 - lb))] t) in
  lshifted nw lb l i t' /\ length t' = length t.
Proof.
  intros Hlb Hl Hi (t1 & h & t3 & -> & Ht1 & Hh & Hwh & Hv). cbv zeta. set (x := l !!! i).
  assert (word x) as Hx by (unfold x; auto with words).
  assert (wval (drop i l) = x + 2 ^ 64 * wval (drop (S i) l)) as Ed.
  { rewrite (drop_S l x) by (by apply list_lookup_lookup_total_lt). done. }
  destruct (split_at (nw + i) t1 ltac:(lia)) as (t0 & y & -> & Ht0). rewrite length_app in Ht1.
  destruct y as [|y [|]]; cbn [length] in Ht1; try lia. destruct h as [|g h]; [done|]. apply words_ok_cons in Hwh as [Hg Hwh].
  destruct (Z.eqb_spec lb 0) as [->|Hlb0].
  - split; [|rewrite length_put; [done|rewrite !length_app; cbn; lia]].
    rewrite <- app_assoc, (put_at (nw + i) [x] t0 [y]) by done.
    exists t0, (x :: g :: h), t3. split; [done|]. split; [done|]. split; [cbn in *; lia|].
    split; [by rewrite !words_ok_cons|]. rewrite wval_cons, Hv, Ed. change (2 ^ 0) with 1. lia.
  - destruct (lshift_word x lb Hx ltac:(lia)) as (Hlo & Hhi & Hval). set (hi := Z.shiftr x (BN_BITS2 - lb)) in *.
    set (lo := u64 (Z.shiftl x lb)) in *. clearbody hi lo.
    assert ((((t0 ++ [y]) ++ (g :: h) ++ t3) !!! (nw + i + 1)%nat) = g) as ->.
    { cbn [app]. apply list_lookup_total_middle. rewrite length_app. cbn. lia. }
    split; [|rewrite !length_put; rewrite ?length_put; rewrite ?length_app; cbn; try lia; rewrite !length_app; cbn; lia].
    assert (g mod 2 ^ lb = 0) as Hgm.
    { rewrite wval_cons in Hv. assert (g = 2 ^ lb * wval (drop (S i) l) - 2 ^ 64 * wval h) as -> by lia.
      rewrite (pow2_split lb) by lia. rewrite <- Z.mul_assoc, <- Z.mul_sub_distr_l, Z.mul_comm. apply Z.mod_mul. pose proof (Z.pow_pos_nonneg 2 lb); lia. }
    assert (0 < 2 ^ lb) as Hp by (apply Z.pow_pos_nonneg; lia).
    assert (g = 2 ^ lb * (g / 2 ^ lb)) as Eg by (pose proof (Z.div_mod g (2 ^ lb)); lia).
    assert (Z.lor g hi = g + hi) as -> by (rewrite Eg; by apply lor_low; lia).
    assert (word (g + hi)) as Hgh.
    { unfold word in *. pose proof (pow2_split lb ltac:(lia)) as Hp2. assert (g / 2 ^ lb < 2 ^ (64 - lb)) by (apply Z.div_lt_upper_bound; lia). nia. }
    change ((g :: h) ++ t3) with ([g] ++ h ++ t3). rewrite (put_at (nw + i + 1) [g + hi] (t0 ++ [y]) [g]) by (rewrite ?length_app; cbn; lia).
    rewrite <- app_assoc, (put_at (nw + i) [lo] t0 [y]) by done.
    exists t0, (lo :: (g + hi) :: h), t3. split; [done|]. split; [done|]. split; [cbn in *; lia|].
    split; [by rewrite !words_ok_cons|]. rewrite !wval_cons in *. rewrite Ed. lia.
Qed.

Section shifts.
Context {H : Type} `{MallocSpec H}.
Implicit Types s : bn_state H.
Context (e : Prop) (He_mem : forall n h, 0 <= n <= 2 ^ 62 -> fst (OPENSSL_malloc n h) = None -> e).

(** * [BN_lshift] *)

Lemma lshift_loop_spec r a nw lb l : 0 <= lb < 64 -> words_ok l -> forall i s t, (i <= length l)%nat ->
  d (objs s r) = t -> take i (d (objs s a)) = take i l -> (i <= length (d (objs s a)))%nat -> lshifted nw lb l i t ->
  ensures False (lshift_loop r a nw lb (BN_BITS2 - lb) i) s (fun _ s' => exists t', frame r s s' /\
    objs s' r = with_d t' (objs s r) /\ length t' = length t /\ lshifted nw lb l 0 t').
Proof.
  intros Hlb Hl. induction i as [|i IH]; intros s t Hi Et Ea Hla Hsh; cbn [lshift_loop].
  { apply ensures_ret. exists t. split; [done|]. split; [subst t; by destruct (objs s r)|done]. }
  apply ensures_get. assert (d (objs s a) !!! i = l !!! i) as Ex.
  { apply (f_equal (fun x : list Z => x !!! i)) in Ea. by rewrite !lookup_total_take_lt in Ea by lia. }
  assert (take i (d (objs s a)) = take i l) as Ea'.
  { apply (f_equal (take i)) in Ea. by rewrite !take_take, !Nat.min_l in Ea by lia. }
  destruct (lshifted_step nw lb l i t Hlb Hl ltac:(lia) Hsh) as [Hsh' Hl'].
  set (t' := if lb =? 0 then _ else _) in *.
  eapply (ensures_bind _ _ _ s (fun _ s1 => frame r s s1 /\ objs s1 r = with_d t' (objs s r))).
  { unfold t'. rewrite Ex. destruct (lb =? 0).
    - apply ensures_upd. split; [done|]. rewrite objs_updated_same. by rewrite Et.
    - apply ensures_get. apply ensures_upd_bind, ensures_upd. split; [auto|]. rewrite !objs_updated_same. by rewrite Et. }
  cbv beta. intros _ s1 [Hf1 E1].
  eapply ensures_mono; [apply (IH s1 t')|].
  - lia.
  - by rewrite E1.
  - destruct (decide (a = r)) as [->|Har]; [|by rewrite (words_frame r a s s1)].
    assert (take i (d (objs s1 r)) = take i t) as ->.
    { rewrite E1. cbn [d with_d]. destruct Hsh as (t1 & h & t3 & Et3 & Ht1 & Hh & _). unfold t'.
      assert (forall k ws l', (i <= k)%nat -> (k <= length l')%nat -> take i (put k ws l') = take i l') as Hput.
      { intros k ws l' Hk Hkl. unfold put. rewrite take_app_le by (rewrite length_take; lia). rewrite take_take. f_equal. lia. }
      assert (nw + S i < length t)%nat by (rewrite Et3, !length_app; lia).
      destruct (lb =? 0); rewrite !Hput; rewrite ?Hput; try done; try lia. rewrite length_put; cbn; lia. }
    by rewrite <- Et.
  - destruct (decide (a = r)) as [->|Har]; [rewrite E1; cbn; rewrite Hl', <- Et; lia|rewrite (words_frame r a s s1) by done; lia].
  - done.
  - cbv beta. intros _ s' (t2 & Hf & E2 & Hl2 & Hs2). exists t2. split; [by eapply frame_trans|]. split; [by rewrite E2, E1|]. split; [lia|done].
Qed.
(** The shifted words below zeros. *)
Lemma lshifted_all nw lb l t : lshifted nw lb l 0 t ->
  let ws := take (length l + nw + 1) (put 0 (replicate nw 0) t) in
  words_ok ws /\ wval ws = wbase nw * 2 ^ lb * wval l /\ length ws = (length l + nw + 1)%nat /\
  length (put 0 (replicate nw 0) t) = length t.
Proof.
  intros (t1 & h & t3 & -> & Ht1 & Hh & Hw & Hv). cbv zeta. rewrite Nat.add_0_r in Ht1. rewrite Nat.sub_0_r in Hh.
  rewrite put_at0 by (rewrite length_replicate; lia). rewrite app_assoc, take_app_length' by (rewrite length_app, length_replicate; lia).
  split; [solve_words|]. split; [rewrite wval_app, wval_replicate_0, length_replicate, Hv, drop_0; ring|].
  split; [rewrite length_app, length_replicate; lia|rewrite !length_app, length_replicate; lia].
Qed.

Lemma pow2_words n : 0 <= n -> 2 ^ n = wbase (Z.to_nat (n / BN_BITS2)) * 2 ^ (n mod BN_BITS2).
Proof.
  intros Hn. unfold wbase, BN_BITS2. rewrite Z2Nat.id by (apply Z.div_pos; lia). rewrite <- Z.pow_add_r by dlia. f_equal. dlia.
Qed.

(** What a shift leaves. *)
Definition shifted (r a : ptr) (v : Z) s s' : Prop :=
  written r s s' /\ bn_minimal (objs s' r) /\ bn_abs (objs s' r) = v /\
  neg (objs s' r) = (if v =? 0 then false else neg (objs s a)).

Lemma BN_lshift_spec r a n s : bn_ok (objs s r) -> bn_ok (objs s a) -> (flag_static_data (objs s r) = true -> e) ->
  0 <= n -> (BN_MAX_WORDS < Z.of_nat (width (objs s a)) + n / BN_BITS2 + 1 -> e) ->
  ensures e (BN_lshift r a n) s (fun _ s' => shifted r a (2 ^ n * bn_abs (objs s a)) s s').
Proof.
  intros Hr Ha Hst Hn Hmax. unfold BN_lshift. rewrite (proj2 (Z.ltb_ge n 0)) by done. apply ensures_guard; [done|]. intros _.
  apply ensures_get, ensures_upd_bind. set (va := objs s a) in *. set (s1 := updated s r _).
  assert (objs s1 r = with_neg (neg va) (objs s r)) as E1 by apply objs_updated_same.
  assert (forall q, d (objs s1 q) = d (objs s q) /\ width (objs s1 q) = width (objs s q)) as Ed1.
  { intros q. destruct (decide (q = r)) as [->|Hq]; [by rewrite E1|by unfold s1; rewrite objs_updated_other]. }
  assert (0 <= n / BN_BITS2) as Hnw0 by (apply Z.div_pos; done). assert (0 <= n mod BN_BITS2 < 64) as Hlb by (apply Z.mod_pos_bound; done).
  set (nw := Z.to_nat (n / BN_BITS2)). set (lb := n mod BN_BITS2) in *.
  assert (2 ^ n = wbase nw * 2 ^ lb) as Hpow by (by apply pow2_words). clearbody lb.
  eapply ensures_bind; [apply (bn_wexpand_e e He_mem); rewrite ?E1; try done; [lia|intros; apply Hmax; lia]|].
  cbv beta. intros _ s2 [Hf2 Hg2]. pose proof (fun q k => grown_prefix r _ s1 s2 q k Hf2 Hg2) as Hpre. rewrite E1 in Hg2.
  destruct Hg2 as (Hok2 & Hl2 & _ & Hw2 & Hneg2 & _ & Hst2 & Hma2). unfold Zlen in Hl2.
  apply ensures_upd_bind. set (s3 := updated s2 r _). pose proof (length_words va Ha) as Hlw.
  assert (objs s3 r = with_d (put (width va + nw) [0] (d (objs s2 r))) (objs s2 r)) as E3 by (unfold s3; by rewrite objs_updated_same).
  pose proof Ha as (_ & Hlva & _).
  assert (length (d (objs s3 r)) = length (d (objs s2 r))) as Hl3 by (rewrite E3; cbn [d with_d]; apply length_put; cbn; lia).
  assert (take (width va) (d (objs s3 a)) = words va) as Ha3.
  { assert (take (width va) (d (objs s2 a)) = words va) as E2.
    { rewrite Hpre by (by rewrite (proj2 (Ed1 a))). by rewrite (proj1 (Ed1 a)). }
    destruct (decide (a = r)) as [->|Har]; [|by unfold s3; rewrite objs_updated_other].
    rewrite E3. cbn [d with_d]. unfold put. rewrite take_app_le by (rewrite length_take; lia). rewrite take_take, Nat.min_l by lia. done. }
  assert (width va <= length (d (objs s3 a)))%nat as Hla3 by (apply (f_equal length) in Ha3; rewrite length_take in Ha3; lia).
  rewrite <- Hlw in Ha3, Hla3 |- *.
  eapply ensures_bind.
  { eapply (ensures_weaken False); [|done].
    apply (lshift_loop_spec r a nw lb (words va) Hlb ltac:(auto with words) (length (words va)) s3 (d (objs s3 r))); try done.
    - by rewrite Ha3, take_ge by lia.
    - rewrite E3. cbn [d with_d]. destruct (split_at (length (words va) + nw) (d (objs s2 r)) ltac:(lia)) as (t1 & t2 & Et & Ht1).
      destruct t2 as [|y t2]; [apply (f_equal length) in Et; rewrite length_app in Et; cbn in Et; lia|].
      rewrite Et, <- Hlw. change (y :: t2) with ([y] ++ t2). rewrite (put_at _ [0] t1 [y]) by done. exists t1, [0], t2. split; [done|]. split; [lia|].
      split; [cbn; lia|]. split; [constructor; [apply word_0|constructor]|]. rewrite drop_ge by lia. change (wval []) with 0. change (wval [0]) with 0. lia. }
  cbv beta. intros _ s4 (t' & Hf4 & E4 & Hl4 & Hsh). destruct (lshifted_all _ _ _ _ Hsh) as (Hwf & Hvf & Hlf & Hlp).
  apply ensures_upd_bind, ensures_upd_bind. set (s5 := updated (updated s4 r _) r _).
  set (ws := put 0 (replicate nw 0) t') in *.
  assert (objs s5 r = Bignum ws (length (words va) + nw + 1) (neg va) (flag_malloced (objs s r)) (flag_static_data (objs s r))) as E5.
  { unfold s5. rewrite !objs_updated_same, E4, E3. unfold with_width, with_d. cbn [d width neg flag_malloced flag_static_data].
    by rewrite Hneg2, Hst2, Hma2. }
  assert (written r s s5) as Hw5.
  { split; [|rewrite E5; split; [|done]].
    - apply (frame_trans r s s4); [|unfold s5; auto]. apply (frame_trans r s s3); [|exact Hf4].
      apply (frame_trans r s s2); [|unfold s3; auto]. apply (frame_trans r s s1); [unfold s1; auto|exact Hf2].
    - destruct Hok2 as (_ & _ & Hm2). unfold bn_ok, words, Zlen in *. cbn [d width]. split; [done|]. split; [lia|]. rewrite Hlp, Hl4, Hl3. done. }
  assert (bn_abs (objs s5 r) = 2 ^ n * bn_abs va) as Hv5.
  { rewrite E5. change (wval (take (length (words va) + nw + 1) ws) = 2 ^ n * bn_abs va). by rewrite Hvf, Hpow. }
  apply (ensures_weaken False); [|done]. eapply ensures_mono; [apply bn_set_minimal_width_spec; apply Hw5|]. cbv beta zeta.
  intros _ s' Hm. apply (minimized r s s5 s' _ (neg va) Hw5 Hv5 ltac:(by rewrite E5) Hm).
Qed.

(** * [BN_rshift] *)

Lemma BN_rshift_spec r a n s : bn_ok (objs s r) -> bn_ok (objs s a) -> (flag_static_data (objs s r) = true -> e) -> 0 <= n ->
  ensures e (BN_rshift r a n) s (fun _ s' => shifted r a (bn_abs (objs s a) / 2 ^ n) s s').
Proof.
  intros Hr Ha Hst Hn. unfold BN_rshift. rewrite (proj2 (Z.ltb_ge n 0)) by done. apply ensures_guard; [done|]. intros _.
  apply ensures_get. set (va := objs s a) in *. pose proof (bn_ok_width _ Ha) as Hmax. pose proof Ha as (_ & Hlva & _).
  eapply ensures_bind; [apply (bn_wexpand_e e He_mem); try done; lia|].
  cbv beta. intros _ s2 [Hf2 Hg2]. pose proof (fun q k => grown_prefix r _ s s2 q k Hf2 Hg2) as Hpre.
  assert (words (objs s2 a) = words va /\ width (objs s2 a) = width va /\ neg (objs s2 a) = neg va) as (Ew & Ewd & En).
  { unfold words. destruct (decide (a = r)) as [->|Har]; [|by rewrite (words_frame _ _ _ _ Hf2)].
    destruct Hg2 as (_ & _ & _ & E1 & E2 & E3 & _). done. }
  destruct Hg2 as (Hok2 & Hl2 & _ & _ & _ & _ & Hst2 & Hma2). unfold Zlen in Hl2.
  apply ensures_get. rewrite Ew, Ewd, En. apply ensures_upd_bind, ensures_upd_bind. set (s5 := updated (updated s2 r _) r _).
  pose proof (bn_rshift_words_spec (words va) n ltac:(auto with words) Hn) as (Hl & Hw & Hv).
  set (ws := bn_rshift_words (words va) n) in *. clearbody ws. rewrite (length_words va Ha) in Hl.
  assert (objs s5 r = Bignum (put 0 ws (d (objs s2 r))) (width va) (neg va) (flag_malloced (objs s r)) (flag_static_data (objs s r))) as E5.
  { unfold s5. rewrite !objs_updated_same. unfold with_width, with_neg, with_d. cbn [d width neg flag_malloced flag_static_data].
    by rewrite Hst2, Hma2. }
  assert (take (width va) (put 0 ws (d (objs s2 r))) = ws) as Et by (unfold put; rewrite take_0; cbn [app]; by apply take_app_length').
  assert (written r s s5) as Hw5.
  { split; [|rewrite E5; split; [|done]].
    - eapply frame_trans; [exact Hf2|unfold s5; auto].
    - destruct Hok2 as (_ & _ & Hm2). unfold bn_ok, words, Zlen in *. cbn [d width]. rewrite Et, length_put by lia. split; [done|]. split; [lia|done]. }
  assert (bn_abs (objs s5 r) = bn_abs va / 2 ^ n) as Hv5.
  { rewrite E5. change (wval (take (width va) (put 0 ws (d (objs s2 r)))) = bn_abs va / 2 ^ n). by rewrite Et. }
  apply (ensures_weaken False); [|done]. eapply ensures_mono; [apply bn_set_minimal_width_spec; apply Hw5|]. cbv beta zeta.
  intros _ s' Hm. apply (minimized r s s5 s' _ (neg va) Hw5 Hv5 ltac:(by rewrite E5) Hm).
Qed.
End shifts.
