(* ===== verification/BnDiv.v ===== *)
(** Division of big numbers: [crypto/fipsmodule/bn/div.c], for a compiler with
    [BN_ULLONG] and without the assembler of [bn_div_rem_words]; and the contexts
    of [ctx.c] that a function makes for itself. *)
From S2P Require Import Prelude Mem ConstTime Stack BnWords BnMul Bn BnProduct.

(** * Words *)

(** The quotient and the remainder. *)
Definition bn_div_rem_words (n0 n1 d0 : Z) : Z * Z :=
  let n := Z.lor (u128 (Z.shiftl n0 BN_BITS2)) n1 in
  let quotient := u64 (n / d0) in
  (quotient, u64 (n1 - u64 (quotient * d0))).

(** The loop that corrects the digit [q] with the third word [n2]. *)
Fixpoint div_correct (fuel : nat) (q rm t2 d0 d1 n2 : Z) : Z :=
  match fuel with
  | O => q
  | S fuel =>
      if t2 <=? Z.lor (u128 (Z.shiftl rm BN_BITS2)) n2 then q
      else
        let q := u64 (q - 1) in
        let rm := u64 (rm + d0) in
        if rm <? d0 then q else div_correct fuel q rm (u128 (t2 - d1)) d0 d1 n2
  end.

Definition div_digit (n0 n1 n2 d0 d1 : Z) : Z :=
  if n0 =? d0 then BN_MASK2
  else
    let '(q, rm) := bn_div_rem_words n0 n1 d0 in
    div_correct 3 q rm (u128 (d1 * q)) d0 d1 n2.

(** One pass of the loop of [BN_div], with [wnum] at [snum->d + k]: the digit and
    what is left in [snum->d] and [tmp->d]. *)
Definition div_step (sdiv : list Z) (d0 d1 : Z) (k : nat) (snum tmp : list Z) : Z * list Z * list Z :=
  let div_n := length sdiv in
  let top := (k + div_n)%nat in
  let q := div_digit (snum !!! top) (snum !!! (top - 1)%nat) (snum !!! (top - 2)%nat) d0 d1 in
  let '(t, l0) := bn_mul_words sdiv q in
  let tmp := put div_n [l0] (put 0 t tmp) in
  let '(w, borrow) := bn_sub_words (sub k (div_n + 1) snum) (take (div_n + 1) tmp) in
  let snum := put k w snum in
  if borrow =? 0 then (q, snum, tmp)
  else
    let q := u64 (q - 1) in
    let '(w, carry) := bn_add_words (sub k div_n snum) sdiv in
    let snum := put k w snum in
    (q, if carry =? 0 then snum else put top [u64 (snum !!! top + 1)] snum, tmp).

(** The loop, with [k] passes to go: the arrays of [snum], [tmp] and [res]. *)
Fixpoint div_loop (k : nat) (sdiv : list Z) (d0 d1 : Z) (snum tmp res : list Z) : list Z * list Z * list Z :=
  match k with
  | O => (snum, tmp, res)
  | S k' =>
      let '(q, snum, tmp) := div_step sdiv d0 d1 k snum tmp in
      div_loop k' sdiv d0 d1 snum tmp (put k' [q] res)
  end.

(** The loops over the bits and the words of [bn_div_consttime]: the arrays of
    [q] and [r]. *)
Fixpoint div_bits_loop (bits : nat) (x : Z) (i : nat) (divisor : list Z) (q r : list Z) : list Z * list Z :=
  match bits with
  | O => (q, r)
  | S bit =>
      let '(r, carry) := bn_add_words r r in
      let r := put 0 [Z.lor (r !!! 0%nat) (Z.land (Z.shiftr x (Z.of_nat bit)) 1)] r in
      let '(r, subtracted) := bn_reduce_once_in_place r carry divisor in
      let q := put i [Z.lor (q !!! i) (u64 (Z.shiftl (Z.land (u64 (Z.lnot subtracted)) 1) (Z.of_nat bit)))] q in
      div_bits_loop bit x i divisor q r
  end.

Fixpoint div_words_loop (n : nat) (numerator divisor : list Z) (q r : list Z) : list Z * list Z :=
  match n with
  | O => (q, r)
  | S i =>
      let '(q, r) := div_bits_loop (Z.to_nat BN_BITS2) (numerator !!! i) i divisor q r in
      div_words_loop i numerator divisor q r
  end.

(** The loop of [BN_div_word] from the last word down: the words and [ret]. *)
Fixpoint div_word_loop (l : list Z) (w : Z) : list Z * Z :=
  match l with
  | [] => ([], 0)
  | x :: l =>
      let '(l, ret) := div_word_loop l w in
      let d := fst (bn_div_rem_words ret x w) in
      (d :: l, u64 (x - u64 (d * w)))
  end.

Definition BN_mod_word (a : BIGNUM) (w : Z) : Z :=
  if w =? 0 then u64 (-1)
  else u64 (foldr (fun x ret => Z.lor (u128 (Z.shiftl ret BN_BITS2)) x mod w) 0 (words a)).

Section div.
Context {H : Type} `{Malloc H}.
#[local] Abbreviation M := (ST (bn_state H)).

(** A call whose failure is looked at later. *)
Definition or_null {A} (m : M A) : M (option A) := fun s => let '(r, s) := m s in (Some r, s).

(** * [BN_div]

    Both numbers are shifted until the highest bit of the divisor is one, and
    the numerator by a word more. *)
Definition div_normalise (snum sdiv numerator divisor : ptr) : M Z :=
  dv <-- get divisor ;;
  let norm_shift := BN_BITS2 - BN_num_bits dv mod BN_BITS2 in
  BN_lshift sdiv divisor norm_shift ;;;
  bn_set_minimal_width sdiv ;;;
  upd sdiv (with_neg false) ;;;
  let norm_shift := norm_shift + BN_BITS2 in
  BN_lshift snum numerator norm_shift ;;;
  bn_set_minimal_width snum ;;;
  upd snum (with_neg false) ;;;
  st_ret norm_shift.

(** Zeros on top of [snum]. *)
Definition div_pad (snum sdiv : ptr) : M unit :=
  vn <-- get snum ;;
  vd <-- get sdiv ;;
  if (width vn <=? width vd + 1)%nat then
    bn_wexpand snum (Z.of_nat (width vd) + 2) ;;;
    put_words snum (width vn) (replicate (width vd + 2 - width vn) 0) ;;;
    upd snum (with_width (width vd + 2))
  else
    bn_wexpand snum (Z.of_nat (width vn) + 1) ;;;
    put_words snum (width vn) [0] ;;;
    upd snum (with_width (width vn + 1)).

(** The quotient in [res], and the sign of the numerator, which may be [res]. *)
Definition div_digits (res tmp snum sdiv numerator divisor : ptr) : M bool :=
  vd <-- get sdiv ;;
  vn <-- get snum ;;
  let div_n := width vd in
  let num_n := width vn in
  let loop := (num_n - div_n)%nat in
  let d0 := d vd !!! (div_n - 1)%nat in
  let d1 := if (div_n =? 1)%nat then 0 else d vd !!! (div_n - 2)%nat in
  n <-- get numerator ;;
  dv <-- get divisor ;;
  let numerator_neg := neg n in
  upd res (with_neg (xorb numerator_neg (neg dv))) ;;;
  bn_wexpand res (Z.of_nat loop + 1) ;;;
  upd res (with_width (loop - 1)) ;;;
  bn_wexpand tmp (Z.of_nat div_n + 1) ;;;
  (if (loop - 1 =? 0)%nat then upd res (with_neg false) else st_ret tt) ;;;
  vt <-- get tmp ;;
  vr <-- get res ;;
  let '(ln, lt, lr) := div_loop (loop - 1) (words vd) d0 d1 (d vn) (d vt) (d vr) in
  upd snum (with_d ln) ;;;
  upd tmp (with_d lt) ;;;
  upd res (with_d lr) ;;;
  st_ret numerator_neg.

Definition div_remainder (rem : option ptr) (snum : ptr) (norm_shift : Z) (numerator_neg : bool) : M unit :=
  match rem with
  | None => st_ret tt
  | Some rem =>
      BN_rshift rem snum norm_shift ;;;
      v <-- get rem ;;
      if negb (BN_is_zero v) then upd rem (with_neg numerator_neg) else st_ret tt
  end.

(** From the normalisation on. *)
Definition div_body (rem : option ptr) (res tmp snum sdiv numerator divisor : ptr) : M unit :=
  norm_shift <-- div_normalise snum sdiv numerator divisor ;;
  div_pad snum sdiv ;;;
  numerator_neg <-- div_digits res tmp snum sdiv numerator divisor ;;
  bn_set_minimal_width snum ;;;
  div_remainder rem snum norm_shift numerator_neg ;;;
  bn_set_minimal_width res.

(** [None] for [quotient] or [rem] is NULL.  Once [BN_CTX_get] has given NULL it
    always does, so that only the last results are looked at. *)
Definition BN_div (quotient rem : option ptr) (numerator divisor : ptr) : M unit :=
  n <-- get numerator ;;
  dv <-- get divisor ;;
  let numerator_width := bn_minimal_width n in
  let divisor_width := bn_minimal_width dv in
  st_guard (negb (((0 <? numerator_width)%nat && (d n !!! (numerator_width - 1)%nat =? 0)) ||
                  ((0 <? divisor_width)%nat && (d dv !!! (divisor_width - 1)%nat =? 0)))) ;;;
  st_guard (negb (BN_is_zero dv)) ;;;
  with_ctx (
    tmp <-- or_null BN_CTX_get ;;
    snum <-- or_null BN_CTX_get ;;
    sdiv <-- or_null BN_CTX_get ;;
    res <-- (match quotient with None => or_null BN_CTX_get | Some quotient => st_ret (Some quotient) end) ;;
    match tmp, snum, sdiv, res with
    | Some tmp, Some snum, Some sdiv, Some res => div_body rem res tmp snum sdiv numerator divisor
    | _, _, _, _ => st_fail
    end).

Definition BN_mod (rem numerator divisor : ptr) : M unit := BN_div None (Some rem) numerator divisor.

Definition BN_nnmod (r m dv : ptr) : M unit :=
  BN_mod r m dv ;;;
  v <-- get r ;;
  if negb (neg v) then st_ret tt
  else
    vd <-- get dv ;;
    if neg vd then BN_sub r r dv else BN_add r r dv.

(** * [bn_div_consttime]

    The quotient and the remainder are different objects.  The words of [tmp] are
    not read again. *)

Definition clear_words (p : ptr) (w : nat) : M unit :=
  put_words p 0 (replicate w 0) ;;;
  upd p (fun v => with_neg false (with_width w v)).

(** The result itself, or a temporary if it is an operand. *)
Definition own_result (numerator divisor : ptr) (p : option ptr) : M (option ptr) :=
  match p with
  | Some p => if (p =? numerator) || (p =? divisor) then or_null BN_CTX_get else st_ret (Some p)
  | None => or_null BN_CTX_get
  end.

Definition div_consttime_loops (q r tmp numerator divisor : ptr) (divisor_min_bits : Z) : M unit :=
  n <-- get numerator ;;
  dv <-- get divisor ;;
  bn_wexpand q (Z.of_nat (width n)) ;;;
  bn_wexpand r (Z.of_nat (width dv)) ;;;
  bn_wexpand tmp (Z.of_nat (width dv)) ;;;
  clear_words q (width n) ;;;
  clear_words r (width dv) ;;;
  let initial_words := if divisor_min_bits >? 0 then Nat.min (Z.to_nat ((divisor_min_bits - 1) / BN_BITS2)) (width n) else 0%nat in
  put_words r 0 (sub (width n - initial_words) initial_words (d n)) ;;;
  vq <-- get q ;;
  vr <-- get r ;;
  let '(lq, lr) := div_words_loop (width n - initial_words) (words n) (words dv) (words vq) (words vr) in
  put_words q 0 lq ;;;
  put_words r 0 lr.

Definition copy_out (p : option ptr) (x : ptr) : M unit :=
  match p with Some p => BN_copy p x | None => st_ret tt end.

Definition bn_div_consttime (quotient remainder : option ptr) (numerator divisor : ptr) (divisor_min_bits : Z) : M unit :=
  n <-- get numerator ;;
  dv <-- get divisor ;;
  st_guard (negb (BN_is_negative n || BN_is_negative dv)) ;;;
  st_guard (negb (BN_is_zero dv)) ;;;
  with_ctx (
    q <-- own_result numerator divisor quotient ;;
    r <-- own_result numerator divisor remainder ;;
    tmp <-- or_null BN_CTX_get ;;
    match q, r, tmp with
    | Some q, Some r, Some tmp =>
        div_consttime_loops q r tmp numerator divisor divisor_min_bits ;;;
        copy_out quotient q ;;;
        copy_out remainder r
    | _, _, _ => st_fail
    end).

(** * Sums, differences, products and shifts modulo a number *)

Definition bn_scratch_space_from_ctx (w : nat) : M ptr :=
  ret <-- BN_CTX_get ;;
  bn_wexpand ret (Z.of_nat w) ;;;
  upd ret (fun v => with_width w (with_neg false v)) ;;;
  st_ret ret.

Definition bn_resized_from_ctx (bn : ptr) (w : nat) : M ptr :=
  v <-- get bn ;;
  if (w <=? width v)%nat then st_ret bn
  else
    ret <-- bn_scratch_space_from_ctx w ;;
    BN_copy ret bn ;;;
    bn_resize_words ret w ;;;
    st_ret ret.

(** [bn_mod_add_consttime] and [bn_mod_sub_consttime], with the function on words
    that they use.  The words of [tmp] are not read again.  The modulus, here and
    in [bn_mod_lshift_consttime], is not the result. *)
Definition mod_words_consttime (f : list Z -> list Z -> list Z -> list Z) (r a b m : ptr) : M unit :=
  with_ctx (
    vm <-- get m ;;
    a <-- or_null (bn_resized_from_ctx a (width vm)) ;;
    b <-- or_null (bn_resized_from_ctx b (width vm)) ;;
    tmp <-- or_null (bn_scratch_space_from_ctx (width vm)) ;;
    match a, b, tmp with
    | Some a, Some b, Some _ =>
        bn_wexpand r (Z.of_nat (width vm)) ;;;
        va <-- get a ;;
        vb <-- get b ;;
        vm <-- get m ;;
        put_words r 0 (f (take (width vm) (d va)) (take (width vm) (d vb)) (words vm)) ;;;
        upd r (fun v => with_neg false (with_width (width vm) v))
    | _, _, _ => st_fail
    end).

Definition bn_mod_add_consttime (r a b m : ptr) : M unit := mod_words_consttime bn_mod_add_words r a b m.
Definition bn_mod_sub_consttime (r a b m : ptr) : M unit := mod_words_consttime bn_mod_sub_words r a b m.

Definition BN_mod_add (r a b m : ptr) : M unit :=
  BN_add r a b ;;;
  BN_nnmod r r m.

Definition BN_mod_sub (r a b m : ptr) : M unit :=
  BN_sub r a b ;;;
  BN_nnmod r r m.

Definition BN_mod_mul (r a b m : ptr) : M unit :=
  with_ctx (
    t <-- BN_CTX_get ;;
    (if a =? b then BN_sqr t a else BN_mul t a b) ;;;
    BN_nnmod r t m).

Definition BN_mod_sqr (r a m : ptr) : M unit :=
  BN_sqr r a ;;;
  BN_mod r r m.

(** The loop runs [n] times; a negative [n] is none. *)
Definition bn_mod_lshift_consttime (r a : ptr) (n : Z) (m : ptr) : M unit :=
  BN_copy r a ;;;
  vm <-- get m ;;
  bn_resize_words r (width vm) ;;;
  with_ctx (
    _ <-- bn_scratch_space_from_ctx (width vm) ;;
    vm <-- get m ;;
    vr <-- get r ;;
    put_words r 0 (Nat.iter (Z.to_nat n) (fun l => bn_mod_add_words l l (words vm)) (take (width vm) (d vr))) ;;;
    upd r (with_neg false)).

Definition BN_mod_lshift (r a : ptr) (n : Z) (m : ptr) : M unit :=
  BN_nnmod r a m ;;;
  vm <-- get m ;;
  if neg vm then
    abs_m <-- BN_dup (Some m) ;;
    upd abs_m (with_neg false) ;;;
    fun s =>
      let '(ret, s) := bn_mod_lshift_consttime r r n abs_m s in
      let '(_, s) := BN_free (Some abs_m) s in (ret, s)
  else bn_mod_lshift_consttime r r n m.

Definition BN_mod_lshift1 (r a m : ptr) : M unit :=
  BN_lshift1 r a ;;;
  BN_nnmod r r m.

Definition bn_mod_lshift1_consttime (r a m : ptr) : M unit := bn_mod_add_consttime r a a m.

(** A function with a context of its own: [BN_CTX_new] takes [sizeof(BN_CTX)] =
    48 bytes, and [BN_CTX_free] frees the temporaries. *)
Definition BN_CTX_new : M BN_CTX :=
  _ <-- lift (OPENSSL_malloc 48) ;;
  st_ret (BnCtx None [] 0 0 false false).

Definition BN_CTX_free (c : BN_CTX) : M unit := fun s =>
  let objs := foldr (fun p o => put_obj o p BN_init) (objs s) (match bignums c with Some sk => take (num sk) (data sk) | None => [] end) in
  (Some tt, BnState objs (next_ptr s) (ctx s) (mem s)).

Definition with_new_ctx {A} (m : M A) : M A :=
  c <-- BN_CTX_new ;;
  outer <-- get_ctx ;;
  set_ctx c ;;;
  fun s =>
    let '(ok, s) := m s in
    let '(_, s) := BN_CTX_free (ctx s) s in
    let '(_, s) := set_ctx outer s in (ok, s).

Definition BN_mod_add_quick (r a b m : ptr) : M unit := with_new_ctx (bn_mod_add_consttime r a b m).
Definition BN_mod_sub_quick (r a b m : ptr) : M unit := with_new_ctx (bn_mod_sub_consttime r a b m).
Definition BN_mod_lshift_quick (r a : ptr) (n : Z) (m : ptr) : M unit := with_new_ctx (bn_mod_lshift_consttime r a n m).
Definition BN_mod_lshift1_quick (r a m : ptr) : M unit := with_new_ctx (bn_mod_lshift1_consttime r a m).

(** * Words and powers of two

    The result [(BN_ULONG) -1] of a failure is not told from a remainder. *)
Definition BN_div_word (a : ptr) (w : Z) : M Z :=
  if w =? 0 then st_ret (u64 (-1))
  else
    v <-- get a ;;
    if (width v =? 0)%nat then st_ret 0
    else
      let j := BN_BITS2 - BN_num_bits_word w in
      let w := u64 (Z.shiftl w j) in
      fun s =>
        match BN_lshift a a j s with
        | (None, s) => (Some (u64 (-1)), s)
        | (Some _, s) =>
            (v <-- get a ;;
             let '(l, ret) := div_word_loop (words v) w in
             put_words a 0 l ;;;
             bn_set_minimal_width a ;;;
             st_ret (Z.shiftr ret j)) s
        end.

(** [((BN_ULONG)1 << e) - 1] in the word [i]. *)
Definition mask_top (p : ptr) (i : nat) (top_word_exponent : Z) : M unit :=
  if negb (top_word_exponent =? 0) then
    upd p (fun v => with_d (put i [Z.land (d v !!! i) (u64 (Z.shiftl 1 top_word_exponent) - 1)] (d v)) v)
  else st_ret tt.

Definition BN_mod_pow2 (r a : ptr) (e : Z) : M unit :=
  va <-- get a ;;
  if (e =? 0) || (width va =? 0)%nat then BN_zero r
  else
    let num_words := 1 + (e - 1) / BN_BITS2 in
    if Z.of_nat (width va) <? num_words then BN_copy r a
    else
      bn_wexpand r num_words ;;;
      va <-- get a ;;
      put_words r 0 (take (Z.to_nat num_words) (d va)) ;;;
      mask_top r (Z.to_nat num_words - 1) (e mod BN_BITS2) ;;;
      va <-- get a ;;
      upd r (fun v => with_width (Z.to_nat num_words) (with_neg (neg va) v)) ;;;
      bn_set_minimal_width r.

Definition BN_nnmod_pow2 (r a : ptr) (e : Z) : M unit :=
  BN_mod_pow2 r a e ;;;
  v <-- get r ;;
  if BN_is_zero v || negb (neg v) then st_ret tt
  else
    let num_words := 1 + (e - 1) / BN_BITS2 in
    bn_wexpand r num_words ;;;
    put_words r (width v) (replicate (Z.to_nat num_words - width v) 0) ;;;
    upd r (fun v => with_width (Z.to_nat num_words) (with_neg false v)) ;;;
    v <-- get r ;;
    put_words r 0 (map (fun x => u64 (Z.lnot x)) (words v)) ;;;
    mask_top r (Z.to_nat num_words - 1) (e mod BN_BITS2) ;;;
    bn_set_minimal_width r ;;;
    BN_add r r value_one_ptr.

End div.
