(* ===== verification/BnDivSpec.v ===== *)
(** [BN_div] divides: the digits that it estimates from the highest words are
    those of the quotient, or one too large. *)
From S2P Require Import Prelude Mem ConstTime Stack BnWords BnMul BnMulSpec Bn BnSpec BnCtxSpec BnProduct BnProductSpec BnMont BnMontSpec BnBytesSpec BnShiftSpec BnDiv.

(** * Digits *)

Lemma lor_words hi lo : word hi -> word lo -> Z.lor (u128 (Z.shiftl hi BN_BITS2)) lo = 2 ^ 64 * hi + lo.
Proof.
  unfold word, BN_BITS2. intros Hh Hl. rewrite Z.shiftl_mul_pow2, u128_small, Z.mul_comm by lia. by apply lor_low.
Qed.

Lemma bn_div_rem_words_spec n0 n1 d0 : word n0 -> word n1 -> n0 < d0 -> word d0 ->
  let n := 2 ^ 64 * n0 + n1 in
  bn_div_rem_words n0 n1 d0 = (n / d0, n mod d0) /\ word (n / d0).
Proof.
  intros H0 H1 Hlt Hd. unfold bn_div_rem_words. rewrite lor_words by done. cbv zeta. unfold word in *.
  set (n := 2 ^ 64 * n0 + n1). assert (0 <= n / d0 < 2 ^ 64) as Hq.
  { split; [apply Z.div_pos; lia|apply Z.div_lt_upper_bound; lia]. }
  split; [|done]. rewrite (u64_of_word (n / d0)) by done. f_equal. pose proof (Z.mod_pos_bound n d0 ltac:(lia)) as Hm.
  pose proof (Z.div_mod n d0 ltac:(lia)) as Hdm. unfold u64. rewrite Zminus_mod_idemp_r. symmetry.
  apply (Z.mod_unique _ _ (- n0)); [left; lia|]. unfold n in *. lia.
Qed.

(** The third word makes the digit that of the three highest words of the
    numerator by the two highest of the divisor. *)
Lemma div_correct_spec N d0 d1 n2 : 0 < d0 -> word d0 -> word d1 -> word n2 -> forall fuel q rm,
  word q -> word rm -> rm = N - q * d0 -> 2 ^ 64 <= rm + Z.of_nat fuel * d0 -> (0 < fuel)%nat ->
  div_correct fuel q rm (d1 * q) d0 d1 n2 = Z.min q ((2 ^ 64 * N + n2) / (2 ^ 64 * d0 + d1)).
Proof.
  intros Hd Hd0 Hd1 Hn2. set (Q := _ / _). induction fuel as [|fuel IH]; intros q rm Hq Hrm Erm Hf Hpos; [lia|]. clear Hpos.
  cbn [div_correct]. rewrite lor_words by done. pose proof (word_mul _ _ Hd1 Hq) as Hdq. unfold word in *.
  assert (0 < 2 ^ 64 * d0 + d1) as HD by lia.
  destruct (Z.leb_spec (d1 * q) (2 ^ 64 * rm + n2)) as [Hle|Hgt].
  { rewrite Z.min_l; [done|]. apply Z.div_le_lower_bound; [done|]. lia. }
  assert (Q < q) as HQ by (apply Z.div_lt_upper_bound; [done|]; lia).
  assert (1 <= q) by nia. rewrite (u64_of_word (q - 1)) by (unfold word; lia).
  assert (2 ^ 64 <= rm + d0 -> q - 1 <= Q) as Hover.
  { intros Ho. apply Z.div_le_lower_bound; [done|]. pose proof (word_mul d1 (q - 1)) as Hm. unfold word in Hm. specialize (Hm ltac:(lia) ltac:(lia)). lia. }
  destruct (Z.ltb_spec (u64 (rm + d0)) d0) as [Hlt|Hge].
  - assert (2 ^ 64 <= rm + d0) as Ho by (destruct (Z.le_gt_cases (2 ^ 64) (rm + d0)); [done|]; rewrite u64_of_word in Hlt by (unfold word; lia); lia).
    specialize (Hover Ho). lia.
  - destruct (Z.le_gt_cases (2 ^ 64) (rm + d0)) as [Ho|Ho].
    + unfold u64 in Hge. rewrite <- (Z.mod_unique (rm + d0) (2 ^ 64) 1 (rm + d0 - 2 ^ 64)) in Hge by lia. lia.
    + rewrite (u64_of_word (rm + d0)) by (unfold word; lia).
      assert (u128 (d1 * q - d1) = d1 * (q - 1)) as -> by (rewrite u128_small; nia).
      rewrite IH; [lia|lia|lia|lia|lia|]. destruct fuel; lia.
Qed.

(** Three passes are enough for a divisor whose highest bit is one: with more the
    loop ends in the same place. *)
Lemma div_correct_fuel fuel n0 n1 n2 d0 d1 : word n0 -> word n1 -> word n2 -> word d0 -> word d1 -> 2 ^ 63 <= d0 -> n0 < d0 -> (3 <= fuel)%nat ->
  let '(q, rm) := bn_div_rem_words n0 n1 d0 in
  div_correct fuel q rm (u128 (d1 * q)) d0 d1 n2 = div_correct 3 q rm (u128 (d1 * q)) d0 d1 n2.
Proof.
  intros H0 H1 H2 Hd0 Hd1 Htop Hlt Hf. destruct (bn_div_rem_words_spec n0 n1 d0) as [-> Hq]; [done..|].
  set (N := 2 ^ 64 * n0 + n1) in *. pose proof (Z.mod_pos_bound N d0 ltac:(lia)). pose proof (word_mul _ _ Hd1 Hq).
  assert (word (N mod d0)) as Hrm by (unfold word in *; lia). pose proof (Z.mod_eq N d0 ltac:(lia)) as Em.
  rewrite u128_small by lia. rewrite !(div_correct_spec N) by (done || (unfold word in *; nia)). done.
Qed.

(** The estimate is the digit, or one more; [m] is the base of the words that it
    does not look at. *)
Lemma div_digit_spec m n0 n1 n2 d0 d1 lx ld : 1 <= m -> word n0 -> word n1 -> word n2 -> word d0 -> word d1 -> 2 ^ 63 <= d0 ->
  0 <= lx < m -> 0 <= ld < m ->
  let X := lx + m * (n2 + 2 ^ 64 * (n1 + 2 ^ 64 * n0)) in let D := ld + m * (d1 + 2 ^ 64 * d0) in
  X < 2 ^ 64 * D -> let q := div_digit n0 n1 n2 d0 d1 in word q /\ X / D <= q <= X / D + 1.
Proof.
  intros Hm H0 H1 H2 Hd0 Hd1 Htop Hlx Hld X D HX. cbv zeta.
  assert (forall q, q <= 2 ^ 64 - 1 -> (q - 1) * D <= X -> q - 1 <= X / D) as Hup.
  { intros q _ Hq. apply Z.div_le_lower_bound; [unfold D, word in *; nia|lia]. }
  assert (0 <= X) as HX0 by (unfold X, word in *; nia). assert (0 < D) as HD by (unfold D, word in *; nia).
  pose proof (Z.div_pos X D HX0 HD) as Hq0. pose proof (Z.mul_div_le X D HD) as Hqx. set (q := X / D) in *.
  assert (q < 2 ^ 64) as HqB by (apply Z.div_lt_upper_bound; lia).
  assert (n0 <= d0) as H0le.
  { apply Z.nlt_ge. intros Hlt. unfold X, D, word in *. assert (m * (2 ^ 64 * (d0 + 1)) <= m * (2 ^ 64 * n0)) by nia. nia. }
  unfold div_digit, BN_MASK2. destruct (Z.eqb_spec n0 d0) as [->|Hne].
  { split; [unfold word; lia|]. split; [lia|]. enough (0xffffffffffffffff - 1 <= q) by lia. apply Hup; [lia|].
    unfold X, D, word in *. assert (ld + m * d1 <= m * 2 ^ 64) by nia. nia. }
  destruct (bn_div_rem_words_spec n0 n1 d0) as [-> Hqw]; [done|done|lia|done|]. set (N := 2 ^ 64 * n0 + n1) in *.
  assert (word (N mod d0)) as Hrm by (unfold word in *; pose proof (Z.mod_pos_bound N d0 ltac:(lia)); lia).
  pose proof (word_mul _ _ Hd1 Hqw) as Hdq. rewrite u128_small by lia.
  rewrite (div_correct_spec N) by (done || (unfold word in *; lia) || (rewrite Z.mod_eq by lia; lia)).
  set (D2 := 2 ^ 64 * d0 + d1). set (X3 := 2 ^ 64 * N + n2). assert (0 < D2) as HD2 by (unfold D2, word in *; lia).
  set (Q := X3 / D2). set (a := N / d0) in *. pose proof (Z.mul_div_le X3 D2 HD2) as HQ. fold Q in HQ.
  assert (X = lx + m * X3) as EX by (unfold X, X3, N; ring). assert (D = ld + m * D2) as ED by (unfold D, D2; ring).
  split; [|split].
  - unfold word in *. assert (0 <= Q) by (unfold Q, X3, N; apply Z.div_pos; lia). lia.
  - apply Z.min_glb.
    + apply Z.div_le_lower_bound; [unfold word in *; lia|]. enough (m * 2 ^ 64 * (d0 * q) < m * 2 ^ 64 * (N + 1)) by nia.
      assert (m * (2 ^ 64 * d0) * q <= D * q) by (apply Z.mul_le_mono_nonneg_r; unfold D, word in *; nia).
      assert (X < m * (2 ^ 64 * (N + 1))) by (unfold X, N, word in *; nia). nia.
    + apply Z.div_le_lower_bound; [done|]. enough (m * (D2 * q) < m * (X3 + 1)) by nia. nia.
  - set (b := Z.min a Q). assert (b <= a /\ b <= Q) as [Hba HbQ] by lia. enough (b - 1 <= q) by lia.
    apply Hup; [unfold word in *; lia|]. destruct (Z.le_gt_cases b 0); [nia|]. unfold word in *.
    assert (b <= D2) by (unfold D2; nia). assert (b * D2 <= X3) by nia. assert ((b - 1) * (D2 + 1) <= X3) by nia. nia.
Qed.

(** The two highest words of the divisor. *)
Definition top_word (l : list Z) : Z := l !!! (length l - 1)%nat.
Definition next_word (l : list Z) : Z := if (length l =? 1)%nat then 0 else l !!! (length l - 2)%nat.

(** An array ends in its highest words. *)
Lemma split_last (l : list Z) : (0 < length l)%nat -> exists l', l = l' ++ [top_word l] /\ length l = S (length l').
Proof.
  intros Hl. destruct (split_at (length l - 1) l ltac:(lia)) as (l1 & l2 & E & Hl1).
  destruct l2 as [|x [|]]; try (apply (f_equal length) in E; rewrite length_app in E; cbn in E; lia).
  subst l. exists l1. unfold top_word. rewrite length_app. cbn [length]. split; [|lia].
  rewrite Nat.add_sub. by rewrite list_lookup_total_middle.
Qed.

Lemma top_word_app l x : top_word (l ++ [x]) = x.
Proof. unfold top_word. rewrite length_app. apply list_lookup_total_middle. cbn. lia. Qed.

Lemma wval_snoc l x : wval (l ++ [x]) = wval l + wbase (length l) * x.
Proof. rewrite wval_app. change (wval [x]) with (x + 2 ^ 64 * 0). f_equal. f_equal. lia. Qed.

(** The digit for the words [W] over the words [p] that are left; only for a
    divisor of one word is one of them looked at. *)
Lemma step_digit sdiv W p : words_ok sdiv -> words_ok W -> word p -> (0 < length sdiv)%nat -> length W = S (length sdiv) ->
  2 ^ 63 <= top_word sdiv -> wval W < 2 ^ 64 * wval sdiv ->
  let n := length sdiv in
  let q := div_digit (W !!! n) (W !!! (n - 1)%nat) (if (n =? 1)%nat then p else W !!! (n - 2)%nat) (top_word sdiv) (next_word sdiv) in
  word q /\ wval W / wval sdiv <= q <= wval W / wval sdiv + 1.
Proof.
  intros Hs HW Hp Hn HlW Htop Hlt. cbv zeta. unfold next_word.
  destruct (split_last sdiv Hn) as (s1 & Es & Hl1). set (d0 := top_word sdiv) in *. clearbody d0. subst sdiv.
  destruct (split_last W ltac:(lia)) as (W1 & EW & HlW1). set (n0 := top_word W) in *. clearbody n0. subst W.
  rewrite !length_app in *. cbn [length] in *. destruct (split_last W1 ltac:(lia)) as (W2 & EW & HlW2).
  set (n1 := top_word W1) in *. clearbody n1. subst W1. rewrite !length_app in *. cbn [length] in *.
  assert (((W2 ++ [n1]) ++ [n0]) !!! (length s1 + 1)%nat = n0) as -> by (apply list_lookup_total_middle; rewrite length_app; cbn; lia).
  assert (((W2 ++ [n1]) ++ [n0]) !!! (length s1 + 1 - 1)%nat = n1) as -> by (rewrite <- app_assoc; apply list_lookup_total_middle; lia).
  destruct (Nat.eqb_spec (length s1 + 1) 1) as [E1|E1].
  - destruct s1; [|cbn in E1; lia]. destruct W2; [|cbn in *; lia]. cbn [app] in *. rewrite !words_ok_cons in *.
    rewrite !wval_cons, wval_nil in *. destruct Hs as [Hd0 _]. destruct HW as (Hn1 & Hn0 & _).
    pose proof (div_digit_spec 1 n0 n1 p d0 0 0 0 ltac:(lia) Hn0 Hn1 Hp Hd0 word_0 Htop ltac:(lia) ltac:(lia)) as Hd.
    assert (0 + 1 * (p + 2 ^ 64 * (n1 + 2 ^ 64 * n0)) < 2 ^ 64 * (0 + 1 * (0 + 2 ^ 64 * d0))) as Hb by (unfold word in *; lia).
    specialize (Hd Hb). cbv zeta in Hd. replace ((n1 + 2 ^ 64 * (n0 + 2 ^ 64 * 0)) / (d0 + 2 ^ 64 * 0))
      with ((0 + 1 * (p + 2 ^ 64 * (n1 + 2 ^ 64 * n0))) / (0 + 1 * (0 + 2 ^ 64 * d0))); [exact Hd|].
    replace (0 + 1 * (p + 2 ^ 64 * (n1 + 2 ^ 64 * n0))) with (p + (n1 + 2 ^ 64 * n0) * 2 ^ 64) by ring.
    replace (0 + 1 * (0 + 2 ^ 64 * d0)) with (2 ^ 64 * d0) by ring. rewrite <- Z.div_div, Z.div_add, (Z.div_small p) by (unfold word in *; lia).
    f_equal; ring.
  - destruct (split_last s1 ltac:(lia)) as (s2 & Es & Hl2). set (d1 := top_word s1) in *. clearbody d1. subst s1.
    destruct (split_last W2 ltac:(rewrite length_app in *; lia)) as (W3 & EW & HlW3). set (n2 := top_word W2) in *. clearbody n2. subst W2.
    rewrite !length_app in *. cbn [length] in *.
    assert (((s2 ++ [d1]) ++ [d0]) !!! (length s2 + 1 + 1 - 2)%nat = d1) as -> by (rewrite <- app_assoc; apply list_lookup_total_middle; lia).
    assert ((((W3 ++ [n2]) ++ [n1]) ++ [n0]) !!! (length s2 + 1 + 1 - 2)%nat = n2) as ->.
    { rewrite <- !app_assoc. apply list_lookup_total_middle. lia. }
    rewrite !words_ok_app, !words_ok_cons in *. destruct Hs as [[Hs2 [Hd1 _]] [Hd0 _]]. destruct HW as [[[HW3 [Hn2 _]] [Hn1 _]] [Hn0 _]].
    pose proof (wval_bound _ Hs2) as Hbs. pose proof (wval_bound _ HW3) as HbW. assert (length W3 = length s2) as El by lia. rewrite El in HbW.
    pose proof (div_digit_spec (wbase (length s2)) n0 n1 n2 d0 d1 (wval W3) (wval s2) ltac:(pose proof (wbase_pos (length s2)); lia)
      Hn0 Hn1 Hn2 Hd0 Hd1 Htop HbW Hbs) as Hd. cbv zeta in Hd.
    rewrite !wval_snoc, !length_app, !El in *. cbn [length] in *. rewrite !wbase_add, wbase_1 in *.
    replace (wval W3 + wbase (length s2) * n2 + wbase (length s2) * 2 ^ 64 * n1 + wbase (length s2) * 2 ^ 64 * 2 ^ 64 * n0)
      with (wval W3 + wbase (length s2) * (n2 + 2 ^ 64 * (n1 + 2 ^ 64 * n0))) in * by ring.
    replace (wval s2 + wbase (length s2) * d1 + wbase (length s2) * 2 ^ 64 * d0)
      with (wval s2 + wbase (length s2) * (d1 + 2 ^ 64 * d0)) in * by ring.
    by apply Hd.
Qed.

(** Below the base, the highest word is zero. *)
Lemma top_zero W n : words_ok W -> length W = S n -> wval W < wbase n -> exists W', W = W' ++ [0] /\ length W' = n /\ wval W' = wval W.
Proof.
  intros HW Hl Hlt. destruct (split_last W ltac:(lia)) as (W' & E & Hl'). rewrite E in *. set (x := top_word W) in *. clearbody x.
  rewrite words_ok_app, words_ok_cons in HW. destruct HW as (HW' & Hx & _). rewrite wval_snoc in *.
  assert (length W' = n) as El by lia. rewrite El in *. pose proof (wval_nonneg _ HW'). pose proof (wbase_pos n). unfold word in Hx.
  assert (x < 1) by (apply (Z.mul_lt_mono_pos_l (wbase n)); lia). assert (x = 0) as -> by lia. exists W'. split; [done|]. split; [done|lia].
Qed.

Section step.
Context (sdiv : list Z).
Context (Hs : words_ok sdiv) (Hn : (0 < length sdiv)%nat) (Htop : 2 ^ 63 <= top_word sdiv).

Lemma divisor_bound : 0 < wval sdiv < wbase (length sdiv).
Proof using Hs Hn Htop.
  pose proof (wval_bound _ Hs) as Hb. split; [|lia]. destruct (split_last sdiv Hn) as (s1 & E & _).
  rewrite E, wval_snoc. rewrite E, words_ok_app in Hs. destruct Hs as [Hs1 _]. pose proof (wval_nonneg _ Hs1). pose proof (wbase_pos (length s1)). nia.
Qed.

(** The words that a borrow leaves, when the digit was one too large. *)
Lemma step_borrow w y : words_ok w -> length w = S (length sdiv) -> 0 < y <= wval sdiv -> wval w = wbase (S (length sdiv)) - y ->
  exists lo, w = lo ++ [2 ^ 64 - 1] /\ length lo = length sdiv /\ words_ok lo /\
    let '(w', carry) := bn_add_words lo sdiv in
    length w' = length sdiv /\ words_ok w' /\ carry = 1 /\ wval w' = wval sdiv - y.
Proof using Hs Hn Htop.
  intros Hw Hl Hy Hv. pose proof divisor_bound as Hb. destruct (split_last w ltac:(lia)) as (lo & E & Hlo). rewrite E in *.
  set (x := top_word w) in *. clearbody x. rewrite words_ok_app, words_ok_cons in Hw. destruct Hw as (Hwlo & Hx & _).
  assert (length lo = length sdiv) as El by lia. rewrite wval_snoc, wbase_S, El in Hv. pose proof (wval_bound _ Hwlo) as Hbl.
  rewrite El in Hbl. unfold word in Hx. set (B := wbase (length sdiv)) in *.
  assert (0 < B) as HB by apply wbase_pos.
  assert (2 ^ 64 - 2 < x) as Hx2 by (apply (Z.mul_lt_mono_pos_l B); [done|lia]). assert (x = 2 ^ 64 - 1) as -> by lia. exists lo. split; [done|]. split; [done|]. split; [done|].
  pose proof (bn_add_words_spec lo sdiv ltac:(lia) Hwlo Hs) as Ha. destruct (bn_add_words lo sdiv) as [w' c].
  destruct Ha as (Hl' & Hw' & Hc & Hv'). rewrite El in *. fold B in Hv'.
  pose proof (wval_bound _ Hw') as Hb'. rewrite Hl' in Hb'. fold B in Hb'. unfold bit in Hc.
  assert (c = 1) as -> by nia. split; [done|]. split; [done|]. split; [done|]. lia.
Qed.

(** One pass: the digit of the quotient, and the remainder in place of the words
    of the window. *)
Lemma div_step_spec pre W post tmp : words_ok W -> length W = S (length sdiv) -> (0 < length pre)%nat ->
  word (top_word pre) -> wval W < 2 ^ 64 * wval sdiv -> (S (length sdiv) <= length tmp)%nat ->
  exists q W' tmp', div_step sdiv (top_word sdiv) (next_word sdiv) (length pre) (pre ++ W ++ post) tmp = (q, pre ++ (W' ++ [0]) ++ post, tmp') /\
    length W' = length sdiv /\ words_ok W' /\ word q /\ wval W = q * wval sdiv + wval W' /\ wval W' < wval sdiv /\ length tmp' = length tmp.
Proof using Hs Hn Htop.
  intros HW HlW Hpre Hp Hlt Htmp. set (n := length sdiv) in *. set (k := length pre). pose proof divisor_bound as [HD0 HDb]. fold n in HDb.
  set (D := wval sdiv) in *. unfold div_step. fold n.
  assert (forall i, (i < S n)%nat -> (pre ++ W ++ post) !!! (k + i)%nat = W !!! i) as HlookW.
  { intros i Hi. rewrite lookup_total_app_r by lia. replace (k + i - length pre)%nat with i by lia. apply lookup_total_app_l. lia. }
  rewrite (HlookW n) by lia. replace (k + n - 1)%nat with (k + (n - 1))%nat by lia. rewrite (HlookW (n - 1)%nat) by lia.
  assert ((pre ++ W ++ post) !!! (k + n - 2)%nat = if (n =? 1)%nat then top_word pre else W !!! (n - 2)%nat) as ->.
  { destruct (Nat.eqb_spec n 1) as [->|]; [|by replace (k + n - 2)%nat with (k + (n - 2))%nat by lia; apply HlookW; lia].
    unfold top_word. replace (k + 1 - 2)%nat with (k - 1)%nat by lia. by rewrite lookup_total_app_l by (fold k; lia). }
  pose proof (step_digit sdiv W (top_word pre) Hs HW Hp Hn HlW Htop Hlt) as Hq. cbv zeta in Hq. fold n D in Hq.
  set (q := div_digit _ _ _ _ _) in *. clearbody q. destruct Hq as [Hq Hqx].
  pose proof (bn_mul_words_spec sdiv q Hs Hq) as Hm. destruct (bn_mul_words sdiv q) as [t l0]. destruct Hm as (Hlt0 & Hwt & Hwl & Hvt).
  fold n D in Hlt0, Hvt. 
  assert (put n [l0] (put 0 t tmp) = t ++ [l0] ++ drop (S n) tmp) as ->.
  { rewrite <- Hlt0 at 1. rewrite put_two by (cbn; lia). do 2 f_equal. cbn. f_equal. lia. }
  assert (take (n + 1) (t ++ [l0] ++ drop (S n) tmp) = t ++ [l0]) as -> by (rewrite app_assoc; apply take_app_length'; rewrite length_app; cbn; lia).
  assert (sub k (n + 1) (pre ++ W ++ post) = W) as -> by (apply sub_at; [done|lia]).
  pose proof (bn_sub_words_spec W (t ++ [l0]) ltac:(rewrite length_app; cbn; lia) HW ltac:(solve_words)) as Hsub.
  destruct (bn_sub_words W (t ++ [l0])) as [w borrow]. destruct Hsub as (Hlw & Hww & Hb & Hvw). rewrite HlW, wval_snoc, Hlt0 in *.
  assert (wval w - wbase (S n) * borrow = wval W - q * D) as Hv by lia. clear Hvw Hvt.
  assert (length (t ++ [l0] ++ drop (S n) tmp) = length tmp) as Hltmp by (rewrite !length_app, length_drop; cbn; lia).
  rewrite (put_at k w pre W post) by (done || congruence). pose proof (wval_bound _ Hww) as Hbw. rewrite Hlw in Hbw.
  pose proof (Z.div_mod (wval W) D ltac:(lia)) as Hdm. pose proof (Z.mod_pos_bound (wval W) D ltac:(lia)) as Hmb.
  assert (0 <= wval W / D) as HQ0 by (apply Z.div_pos; [by apply wval_nonneg|done]).
  set (Q := wval W / D) in *. set (R := wval W mod D) in *. clearbody Q R. unfold bit in Hb.
  assert (wbase n < wbase (S n)) as HBB by (rewrite wbase_S; lia).
  destruct (Z.eqb_spec borrow 0) as [->|Hb1].
  - assert (q = Q) as -> by nia. destruct (top_zero w n Hww Hlw ltac:(nia)) as (W' & -> & HlW' & HvW').
    rewrite words_ok_app in Hww. eexists _, W', _. split; [done|]. split; [done|]. split; [apply Hww|]. split; [done|].
    split; [nia|]. split; [nia|done].
  - assert (borrow = 1) as -> by lia. assert (q = Q + 1) as -> by nia.
    destruct (step_borrow w (D - R) Hww Hlw ltac:(fold D; lia) ltac:(fold n; nia)) as (lo & -> & Hlo & Hwlo & Hadd). fold n in Hlo, Hadd.
    assert (sub k n (pre ++ (lo ++ [2 ^ 64 - 1]) ++ post) = lo) as -> by (rewrite <- app_assoc; by apply sub_at).
    destruct (bn_add_words lo sdiv) as [w' carry]. destruct Hadd as (Hlw' & Hww' & -> & Hvw'). fold D in Hvw'.
    rewrite <- (app_assoc lo), (put_at k w' pre lo) by (done || lia). change (1 =? 0) with false. cbv iota.
    assert ((pre ++ w' ++ [2 ^ 64 - 1] ++ post) !!! (k + n)%nat = 2 ^ 64 - 1) as ->.
    { rewrite app_assoc. apply list_lookup_total_middle. rewrite length_app. fold k. lia. }
    change (u64 (2 ^ 64 - 1 + 1)) with 0. rewrite (app_assoc pre), (put_at (k + n) [0] (pre ++ w') [2 ^ 64 - 1]) by (done || (rewrite length_app; fold k; lia)).
    unfold word in Hq. rewrite (u64_of_word (Q + 1 - 1)) by (unfold word; lia).
    exists Q, w', (t ++ [l0] ++ drop (S n) tmp). rewrite <- !app_assoc. replace (Q + 1 - 1) with Q by lia.
    split; [done|]. split; [done|]. split; [done|]. split; [unfold word; lia|]. split; [lia|]. split; [lia|done].
Qed.

(** All the passes. *)
Lemma div_loop_spec k : forall x body junk tmp r r2, word x -> words_ok body -> length body = (k + length sdiv)%nat -> length r = k ->
  wval (drop k body) < wval sdiv -> (S (length sdiv) <= length tmp)%nat ->
  exists body' tmp' r', div_loop k sdiv (top_word sdiv) (next_word sdiv) (x :: body ++ junk) tmp (r ++ r2) =
      (x :: body' ++ replicate k 0 ++ junk, tmp', r' ++ r2) /\
    length body' = length sdiv /\ words_ok body' /\ length r' = k /\ words_ok r' /\ length tmp' = length tmp /\
    wval body = wval r' * wval sdiv + wval body' /\ wval body' < wval sdiv.
Proof using Hs Hn Htop.
  induction k as [|k IH]; intros x body junk tmp r r2 Hx Hbody Hlb Hlr Hlt Htmp; cbn [div_loop].
  { destruct r; [|done]. rewrite drop_0 in Hlt. exists body, tmp, []. rewrite wval_nil. split; [done|]. split; [done|]. split; [done|].
    split; [done|]. split; [constructor|]. split; [done|]. split; [lia|done]. }
  pose proof divisor_bound as [HD0 HDb]. destruct (split_at k body ltac:(lia)) as (A & W & -> & HA). rewrite length_app in Hlb.
  assert (length W = S (length sdiv)) as HlW by lia. rewrite words_ok_app in Hbody. destruct Hbody as [HwA HwW].
  destruct W as [|w0 W]; [done|]. assert (drop (S k) (A ++ w0 :: W) = W) as Edrop.
  { change (w0 :: W) with ([w0] ++ W). rewrite (app_assoc A). apply drop_app_length'. rewrite length_app. cbn. lia. }
  rewrite Edrop in Hlt.
  assert (wval (w0 :: W) < 2 ^ 64 * wval sdiv) as HltW.
  { rewrite words_ok_cons in HwW. rewrite wval_cons. unfold word in HwW. lia. }
  destruct (div_step_spec (x :: A) (w0 :: W) junk tmp HwW HlW ltac:(cbn; lia)) as (q & W' & tmp' & E & HlW' & HwW' & Hq & Hv & Hlt' & Hlt2); [|done|done|].
  { unfold top_word. apply words_ok_lookup. by rewrite words_ok_cons. }
  cbn [length] in E. rewrite HA in E. change (x :: (A ++ w0 :: W) ++ junk) with ((x :: A ++ w0 :: W) ++ junk).
  assert ((x :: A ++ w0 :: W) ++ junk = (x :: A) ++ (w0 :: W) ++ junk) as -> by (cbn [app]; by rewrite <- app_assoc).
  rewrite E. destruct (split_last r ltac:(lia)) as (r1 & Er & Hlr1). set (y := top_word r) in Er. clearbody y. subst r.
  rewrite length_app in Hlr. cbn in Hlr. rewrite <- (app_assoc r1 [y] r2), (put_at k [q] r1 [y] r2) by (done || lia).
  assert ((x :: A) ++ (W' ++ [0]) ++ junk = x :: (A ++ W') ++ ([0] ++ junk)) as -> by (cbn [app]; by rewrite <- !app_assoc).
  destruct (IH x (A ++ W') ([0] ++ junk) tmp' r1 ([q] ++ r2)) as (body' & tmp2 & r' & -> & Hl1 & Hw1 & Hl2 & Hw2 & Hl3 & Hv1 & Hlt1); try done.
  - solve_words.
  - rewrite length_app. lia.
  - lia.
  - by rewrite <- HA, drop_app_length.
  - lia.
  - exists body', tmp2, (r' ++ [q]). split.
    { rewrite (app_assoc r'). do 3 f_equal. f_equal. cbn [replicate]. rewrite (app_assoc (replicate k 0) [0]). by rewrite <- replicate_cons_app. }
    split; [done|]. split; [done|]. split; [rewrite length_app; cbn; lia|]. split; [solve_words|]. split; [lia|]. split; [|done].
    rewrite wval_snoc, wval_app, Hv, Hl2. rewrite wval_app in Hv1. rewrite HA in *. nia.
Qed.
End step.

(** * Objects *)

Ltac in_list := rewrite ?elem_of_cons, ?elem_of_nil in *; tauto.

Section div.
Context {H : Type} `{MallocSpec H}.
Implicit Types s : bn_state H.
Context (e : Prop) (He_mem : forall n h, 0 <= n <= 2 ^ 62 -> fst (OPENSSL_malloc n h) = None -> e).

(** Only the objects [ps] have changed. *)
Definition keeps (ps : list ptr) s s' : Prop :=
  next_ptr s' = next_ptr s /\ ctx s' = ctx s /\ forall q, q ∉ ps -> objs s' q = objs s q.

Lemma frame_keeps r ps s s' : r ∈ ps -> frame r s s' -> keeps ps s s'.
Proof. intros Hr (Hf & En & Ec). split; [done|]. split; [done|]. intros q Hq. apply Hf. by intros ->. Qed.

Lemma keeps_refl ps s : keeps ps s s.
Proof. done. Qed.

Lemma keeps_trans ps s1 s2 s3 : keeps ps s1 s2 -> keeps ps s2 s3 -> keeps ps s1 s3.
Proof. intros (? & ? & K1) (? & ? & K2). split; [congruence|]. split; [congruence|]. intros q Hq. by rewrite K2, K1. Qed.

Lemma keeps_sub ps qs s s' : (forall q, q ∈ ps -> q ∈ qs) -> keeps ps s s' -> keeps qs s s'.
Proof. intros Hsub (? & ? & K). split; [done|]. split; [done|]. intros q Hq. apply K. intros Hin. by apply Hq, Hsub. Qed.

(** A temporary. *)
Definition temp (b : BIGNUM) : Prop := bn_ok b /\ flag_static_data b = false.

Lemma temp_written r s s' : written r s s' -> temp (objs s r) -> temp (objs s' r).
Proof. intros (_ & ? & Hs & _) [_ ?]. split; [done|congruence]. Qed.

(** The sign is made positive. *)
Lemma with_neg_temp b : temp b -> temp (with_neg false b).
Proof. done. Qed.

(** A number that is shifted until it fills its words. *)
Lemma norm_shift_spec b b' : bn_ok b -> 0 < bn_abs b -> let shift := BN_BITS2 - BN_num_bits b mod BN_BITS2 in
  1 <= shift <= 64 /\ (bn_ok b' -> bn_minimal b' -> bn_abs b' = 2 ^ shift * bn_abs b ->
    (0 < width b')%nat /\ 2 ^ 63 <= top_word (words b')).
Proof.
  intros Hb Hpos. destruct (BN_num_bits_spec b Hb Hpos) as (Hn & Hlo & Hhi). set (n := BN_num_bits b) in *. clearbody n.
  cbv zeta. unfold BN_BITS2. set (sh := 64 - n mod 64). assert (1 <= sh <= 64) as Hsh by (unfold sh; dlia).
  split; [done|]. intros Hb' Hmin Hv. set (m := (n + sh) / 64). assert (n + sh = 64 * m) as Em by (unfold m, sh; dlia).
  assert (2 ^ sh * 2 ^ (n - 1) <= bn_abs b' < 2 ^ sh * 2 ^ n) as Hb2.
  { rewrite Hv. assert (0 < 2 ^ sh) by (apply Z.pow_pos_nonneg; lia). nia. }
  rewrite <- !Z.pow_add_r in Hb2 by lia. replace (sh + (n - 1)) with (64 * m - 1) in Hb2 by lia. replace (sh + n) with (64 * m) in Hb2 by lia.
  pose proof (bn_abs_bound b' Hb') as Hbd. assert (0 < width b')%nat as Hw.
  { destruct (width b') eqn:E; [|lia]. change (wbase 0) with 1 in Hbd. assert (0 < 2 ^ (64 * m - 1)) by (apply Z.pow_pos_nonneg; lia). lia. }
  split; [done|]. pose proof (minimal_abs_lower b' Hb' Hmin Hw) as Hlow. unfold wbase in Hbd, Hlow.
  assert (64 * Z.of_nat (width b' - 1) < 64 * m) as Hm1 by (apply (Z.pow_lt_mono_r_iff 2); lia).
  assert (64 * m - 1 < 64 * Z.of_nat (width b')) as Hm2 by (apply (Z.pow_lt_mono_r_iff 2); lia).
  assert (m = Z.of_nat (width b')) as -> by lia. pose proof (length_words b' Hb') as Hl.
  destruct (split_last (words b') ltac:(lia)) as (l & El & Hl'). pose proof (words_ok_words b' Hb') as Hwo.
  set (x := top_word (words b')) in *. clearbody x. unfold bn_abs in Hb2. rewrite El in *. rewrite wval_snoc in Hb2.
  rewrite words_ok_app in Hwo. destruct Hwo as [Hwl _]. apply wval_bound in Hwl. replace (length l) with (width b' - 1)%nat in * by lia.
  assert (2 ^ (64 * Z.of_nat (width b') - 1) = 2 ^ 63 * wbase (width b' - 1)) as E63.
  { unfold wbase. rewrite <- Z.pow_add_r by lia. f_equal. lia. }
  rewrite E63 in Hb2. pose proof (wbase_pos (width b' - 1)) as HB. set (B := wbase (width b' - 1)) in *.
  enough (2 ^ 63 - 1 < x) by lia. apply (Z.mul_lt_mono_pos_l B); lia.
Qed.

(** A shifted number in its minimal width and without a sign. *)
Lemma lshift_temp {A} r a n s : r <> a -> temp (objs s r) -> bn_ok (objs s a) -> 0 <= n ->
  (BN_MAX_WORDS < Z.of_nat (width (objs s a)) + n / BN_BITS2 + 1 -> e) -> forall (k : ST (bn_state H) A) Q,
  (forall s', frame r s s' -> temp (objs s' r) -> bn_minimal (objs s' r) -> bn_abs (objs s' r) = 2 ^ n * bn_abs (objs s a) ->
     neg (objs s' r) = false -> ensures e k s' Q) ->
  ensures e (BN_lshift r a n ;;; bn_set_minimal_width r ;;; upd r (with_neg false) ;;; k) s Q.
Proof.
  intros Hra [Hr Hst] Ha Hn Hmax k Q Hk.
  eapply ensures_bind; [apply (BN_lshift_spec e He_mem r a); try done; congruence|].
  unfold shifted. cbv beta. intros _ s1 (Hw1 & Hmin1 & Hv1 & _). pose proof Hw1 as (Hf1 & Hok1 & Hst1 & _).
  eapply ensures_bind; [apply (ensures_weaken False); [by apply bn_set_minimal_width_spec|done]|].
  cbv beta zeta. intros _ s2 (Hf2 & Hok2 & Hmin2 & Hv2 & _ & _ & Hst2 & _). apply ensures_upd_bind. apply Hk; rewrite ?objs_updated_same; try done.
  - apply (frame_trans r s s2); [by eapply frame_trans|auto].
  - split; [done|]. cbn. congruence.
  - by apply minimal_with_neg.
  - change (bn_abs (objs s2 r) = 2 ^ n * bn_abs (objs s a)). congruence.
Qed.

Lemma minimal_width_bound b n : bn_ok b -> bn_minimal b -> bn_abs b < wbase n -> (width b <= n)%nat.
Proof.
  intros Hb Hm Hlt. destruct (Nat.le_gt_cases (width b) n) as [|Hgt]; [done|exfalso].
  pose proof (minimal_abs_lower b Hb Hm ltac:(lia)). pose proof (wbase_le n (width b - 1) ltac:(lia)). lia.
Qed.

Lemma shifted_width b a k n : bn_ok b -> bn_minimal b -> bn_ok a -> bn_abs b = 2 ^ n * bn_abs a -> 0 <= n <= 64 * Z.of_nat k ->
  (width b <= width a + k)%nat.
Proof.
  intros Hb Hm Ha Hv Hn. apply minimal_width_bound; [done..|]. rewrite Hv, wbase_add. pose proof (bn_abs_bound a Ha).
  assert (0 < 2 ^ n <= wbase k) by (split; [apply Z.pow_pos_nonneg; lia|unfold wbase; apply Z.pow_le_mono_r; lia]).
  pose proof (wbase_pos (width a)). nia.
Qed.

Lemma div_normalise_spec snum sdiv numerator divisor s : snum <> sdiv -> snum <> numerator -> sdiv <> numerator -> sdiv <> divisor ->
  temp (objs s snum) -> temp (objs s sdiv) -> bn_ok (objs s numerator) -> bn_ok (objs s divisor) -> 0 < bn_abs (objs s divisor) ->
  (BN_MAX_WORDS < Z.of_nat (longer_at s numerator divisor) + 3 -> e) ->
  ensures e (div_normalise snum sdiv numerator divisor) s (fun norm s' => exists shift, norm = shift + 64 /\ 1 <= shift <= 64 /\
    keeps [snum; sdiv] s s' /\ temp (objs s' snum) /\ temp (objs s' sdiv) /\
    bn_abs (objs s' snum) = 2 ^ (shift + 64) * bn_abs (objs s numerator) /\ neg (objs s' snum) = false /\
    bn_abs (objs s' sdiv) = 2 ^ shift * bn_abs (objs s divisor) /\ (0 < width (objs s' sdiv))%nat /\ 2 ^ 63 <= top_word (words (objs s' sdiv)) /\
    (width (objs s' snum) <= longer_at s numerator divisor + 2)%nat /\
    (width (objs s' sdiv) <= longer_at s numerator divisor + 1)%nat).
Proof.
  intros Hne Hnn Hdn Hdd Htn Htd Hokn Hokd Hpos Hmax. unfold div_normalise, longer_at, longer in *. apply ensures_get.
  pose proof (norm_shift_spec (objs s divisor)) as Hnorm.
  set (shift := BN_BITS2 - BN_num_bits (objs s divisor) mod BN_BITS2) in *. cbv zeta in Hnorm.
  assert (1 <= shift <= 64) as Hsh by (by apply (Hnorm BN_init)). pose proof (fun b' => proj2 (Hnorm b' Hokd Hpos)) as Htop. clear Hnorm.
  clearbody shift. cbv zeta. change (shift + BN_BITS2) with (shift + 64).
  apply lshift_temp; [done..|lia|unfold BN_BITS2; intros; apply Hmax; dlia|]. intros s1 Hf1 [Hok1 Hst1] Hmin1 Hv1 Hn1.
  assert (objs s1 numerator = objs s numerator /\ objs s1 snum = objs s snum) as [En Esn] by (by rewrite !(words_frame _ _ _ _ Hf1)).
  apply lshift_temp; rewrite ?En, ?Esn; [done..|lia|unfold BN_BITS2; intros; apply Hmax; dlia|]. intros s2 Hf2 Htmp2 Hmin2 Hv2 Hn2.
  apply ensures_ret. exists shift. rewrite (words_frame _ sdiv _ _ Hf2) by done.
  split; [done|]. split; [done|]. split.
  { apply (keeps_trans _ s s1); [apply (frame_keeps sdiv); [in_list|done]|apply (frame_keeps snum); [in_list|done]]. }
  split; [done|]. split; [done|]. split; [done|]. split; [done|]. split; [done|].
  destruct (Htop _ Hok1 Hmin1 Hv1) as [? ?]. split; [done|]. split; [done|]. destruct Htmp2 as [Hok2 _].
  pose proof (shifted_width _ _ 2 _ Hok2 Hmin2 Hokn Hv2 ltac:(lia)). pose proof (shifted_width _ _ 1 _ Hok1 Hmin1 Hokd Hv1 ltac:(lia)).
  split; lia.
Qed.

(** Zeros on top of a number. *)
Lemma wexpand_zeros r n s : temp (objs s r) -> (width (objs s r) <= n)%nat -> (BN_MAX_WORDS < Z.of_nat n -> e) ->
  ensures e (bn_wexpand r (Z.of_nat n) ;;; put_words r (width (objs s r)) (replicate (n - width (objs s r)) 0) ;;; upd r (with_width n)) s
    (fun _ s' => frame r s s' /\ temp (objs s' r) /\ width (objs s' r) = n /\ words (objs s' r) = words (objs s r) ++ replicate (n - width (objs s r)) 0 /\
      neg (objs s' r) = neg (objs s r) /\ flag_malloced (objs s' r) = flag_malloced (objs s r)).
Proof.
  intros [Hok Hst] Hn Hmax. set (b := objs s r) in *.
  eapply ensures_bind; [apply (bn_wexpand_e e He_mem); [done|fold b; congruence|lia|done]|]. cbv beta. fold b.
  intros _ s1 (Hf1 & Hok1 & Hl1 & _ & Hw1 & Hn1 & Ew1 & Hst1 & Hma1). unfold Zlen in Hl1.
  apply ensures_upd_bind, ensures_upd. split; [auto|]. rewrite !objs_updated_same. unfold with_width, with_d. cbn [d width neg flag_malloced flag_static_data].
  pose proof Hok1 as (_ & Hwl1 & Hm1). rewrite Hw1 in Hwl1.
  assert (words (Bignum (put (width b) (replicate (n - width b) 0) (d (objs s1 r))) n (neg (objs s1 r)) (flag_malloced (objs s1 r)) (flag_static_data (objs s1 r)))
    = words b ++ replicate (n - width b) 0) as Ew.
  { rewrite <- Ew1. unfold words. cbn [d width]. rewrite Hw1. unfold put. rewrite app_assoc, take_app_length'; [done|].
    rewrite length_app, length_take, length_replicate. lia. }
  split; [|split; [done|split; [exact Ew|split; [by rewrite Hn1|by rewrite Hma1]]]]. split; [|cbn; congruence].
  unfold bn_ok. rewrite Ew. cbn [d width]. unfold Zlen in *. rewrite length_put by (rewrite length_replicate; lia).
  split; [|split; [lia|done]]. pose proof (words_ok_words b Hok). solve_words.
Qed.

Lemma div_pad_spec snum sdiv s : snum <> sdiv -> temp (objs s snum) ->
  (BN_MAX_WORDS < Z.of_nat (width (objs s sdiv)) + 2 -> e) -> (BN_MAX_WORDS < Z.of_nat (width (objs s snum)) + 1 -> e) ->
  ensures e (div_pad snum sdiv) s (fun _ s' => frame snum s s' /\ temp (objs s' snum) /\
    width (objs s' snum) = S (Nat.max (width (objs s snum)) (S (width (objs s sdiv)))) /\
    bn_abs (objs s' snum) = bn_abs (objs s snum) /\ neg (objs s' snum) = neg (objs s snum)).
Proof.
  intros Hne Ht Hm1 Hm2. unfold div_pad. apply ensures_get, ensures_get.
  assert (forall n, (width (objs s snum) <= n)%nat -> (BN_MAX_WORDS < Z.of_nat n -> e) -> n = S (Nat.max (width (objs s snum)) (S (width (objs s sdiv)))) ->
    ensures e (bn_wexpand snum (Z.of_nat n) ;;; put_words snum (width (objs s snum)) (replicate (n - width (objs s snum)) 0) ;;; upd snum (with_width n)) s
     (fun _ s' => frame snum s s' /\ temp (objs s' snum) /\
      width (objs s' snum) = S (Nat.max (width (objs s snum)) (S (width (objs s sdiv)))) /\
      bn_abs (objs s' snum) = bn_abs (objs s snum) /\ neg (objs s' snum) = neg (objs s snum))) as Hgen.
  { intros n Hn Hm En. eapply ensures_mono; [by apply wexpand_zeros|]. cbv beta. intros _ s' (Hf & Ht' & Hw & Ew & Hneg & _).
    split; [done|]. split; [done|]. split; [lia|]. split; [|done]. unfold bn_abs. rewrite Ew, wval_app, wval_replicate_0. lia. }
  destruct (Nat.leb_spec (width (objs s snum)) (width (objs s sdiv) + 1)) as [Hle|Hgt].
  - replace (Z.of_nat (width (objs s sdiv)) + 2) with (Z.of_nat (width (objs s sdiv) + 2)) in * by lia. apply Hgen; [lia|done|lia].
  - replace (Z.of_nat (width (objs s snum)) + 1) with (Z.of_nat (width (objs s snum) + 1)) in * by lia.
    specialize (Hgen (width (objs s snum) + 1)%nat). replace (width (objs s snum) + 1 - width (objs s snum))%nat with 1%nat in Hgen by lia.
    apply Hgen; [lia|done|lia].
Qed.

Lemma ensures_ret_bind {A B} (a : A) (k : A -> ST (bn_state H) B) s Q : ensures e (k a) s Q -> ensures e (st_bind (st_ret a) k) s Q.
Proof. done. Qed.

Lemma top_word_take w l : (0 < w <= length l)%nat -> top_word (take w l) = l !!! (w - 1)%nat.
Proof. intros Hw. unfold top_word. rewrite length_take, Nat.min_l by lia. apply lookup_total_take_lt. lia. Qed.

Lemma next_word_take w l : (0 < w <= length l)%nat -> next_word (take w l) = if (w =? 1)%nat then 0 else l !!! (w - 2)%nat.
Proof.
  intros Hw. unfold next_word. rewrite length_take, Nat.min_l by lia. destruct (Nat.eqb_spec w 1); [done|]. apply lookup_total_take_lt. lia.
Qed.

(** What the loop leaves, as numbers: [k] words of quotient. *)
Lemma div_loop_value vn vd (tmp r : list Z) k : bn_ok vn -> bn_ok vd -> (0 < width vd)%nat -> 2 ^ 63 <= top_word (words vd) ->
  width vn = S (k + width vd) -> bn_abs vn < wbase (k + width vd) -> (S (width vd) <= length tmp)%nat -> (k <= length r)%nat ->
  exists ln lt lr, div_loop k (words vd) (top_word (words vd)) (next_word (words vd)) (d vn) tmp r = (ln, lt, lr) /\
    length ln = length (d vn) /\ length lt = length tmp /\ length lr = length r /\
    words_ok (take (width vn) ln) /\ words_ok (take k lr) /\
    wval (take (width vn) ln) = bn_abs vn mod (2 ^ 64 * bn_abs vd) /\ wval (take k lr) = bn_abs vn / (2 ^ 64 * bn_abs vd).
Proof.
  intros Hn Hd Hw Htop Hwn Hlt Htmp Hr. pose proof (length_words vd Hd) as Hld. pose proof (length_words vn Hn) as Hln.
  pose proof (words_ok_words vn Hn) as Hon. pose proof (words_ok_words vd Hd) as Hod.
  pose proof (divisor_bound (words vd) Hod ltac:(lia) Htop) as Hdb. rewrite Hld in Hdb. fold (bn_abs vd) in Hdb.
  assert (d vn = words vn ++ drop (width vn) (d vn)) as Ed by (unfold words; by rewrite take_drop).
  set (junk := drop (width vn) (d vn)) in *. clearbody junk. destruct (words vn) as [|x body] eqn:Ew; [cbn in Hln; lia|].
  rewrite words_ok_cons in Hon. destruct Hon as [Hx Hob]. cbn [length] in Hln.
  assert (bn_abs vn = x + 2 ^ 64 * wval body) as Ev by (unfold bn_abs; by rewrite Ew).
  destruct (split_at k r Hr) as (r1 & r2 & -> & Hr1).
  assert (wval (drop k body) < wval (words vd)) as Hdrop.
  { rewrite wval_drop by (done || lia). fold (bn_abs vd). apply Z.div_lt_upper_bound; [apply wbase_pos|].
    assert (2 ^ 64 * wval body < 2 ^ 64 * (wbase k * bn_abs vd)) as Hb; [|lia].
    destruct (split_last (words vd) ltac:(lia)) as (l1 & El & Hl1). unfold bn_abs at 1. rewrite El, wval_snoc.
    rewrite El, words_ok_app in Hod. destruct Hod as [Hol _]. pose proof (wval_nonneg _ Hol). unfold word in Hx.
    replace (k + width vd)%nat with (S (k + length l1)) in Hlt by lia. rewrite wbase_S, wbase_add in Hlt.
    pose proof (wbase_pos k). pose proof (wbase_pos (length l1)). set (t := top_word (words vd)) in *.
    assert (wbase k * wbase (length l1) <= wbase k * (wval l1 + wbase (length l1) * t)) by (apply Z.mul_le_mono_nonneg_l; nia). lia. }
  destruct (div_loop_spec (words vd) Hod ltac:(lia) Htop k x body junk tmp r1 r2) as (body' & tmp' & r' & E & Hl1 & Hw1 & Hl2 & Hw2 & Hl3 & Hv & Hlt');
    [done|done|lia|done|done|lia|].
  rewrite Ed. change ((x :: body) ++ junk) with (x :: body ++ junk). rewrite E. eexists _, _, _. split; [done|].
  assert (length (x :: body' ++ replicate k 0) = width vn) as Elen by (cbn [length]; rewrite length_app, length_replicate; lia).
  assert (take (width vn) (x :: body' ++ replicate k 0 ++ junk) = x :: body' ++ replicate k 0) as ->.
  { rewrite (app_assoc body'). change (x :: (body' ++ replicate k 0) ++ junk) with ((x :: body' ++ replicate k 0) ++ junk). by apply take_app_length'. }
  rewrite (take_app_length' r') by done.
  split; [cbn [length]; rewrite !length_app, length_replicate; lia|]. split; [done|]. split; [rewrite !length_app; lia|].
  split; [rewrite words_ok_cons; split; [done|solve_words]|]. split; [done|].
  rewrite wval_cons, wval_app, wval_replicate_0, Ev, Hv. fold (bn_abs vd) in *. pose proof (wval_nonneg body' Hw1).
  set (R := wval body') in *. set (Q := wval r') in *. unfold word in Hx. split.
  - apply (Z.mod_unique _ _ Q); [left; lia|]. ring.
  - apply (Z.div_unique _ _ _ (x + 2 ^ 64 * R)); [left; lia|]. ring.
Qed.

Lemma div_digits_spec res tmp snum sdiv numerator divisor s k : res <> tmp -> res <> snum -> res <> sdiv -> tmp <> snum -> tmp <> sdiv -> snum <> sdiv ->
  temp (objs s tmp) -> width (objs s tmp) = 0%nat -> temp (objs s snum) -> bn_ok (objs s sdiv) -> bn_ok (objs s res) -> (flag_static_data (objs s res) = true -> e) ->
  (0 < width (objs s sdiv))%nat -> 2 ^ 63 <= top_word (words (objs s sdiv)) ->
  width (objs s snum) = S (S k + width (objs s sdiv)) -> bn_abs (objs s snum) < wbase (S k + width (objs s sdiv)) ->
  (BN_MAX_WORDS < Z.of_nat (width (objs s snum)) + 2 -> e) ->
  ensures e (div_digits res tmp snum sdiv numerator divisor) s (fun sign s' => sign = neg (objs s numerator) /\
    keeps [res; tmp; snum] s s' /\ temp (objs s' tmp) /\ temp (objs s' snum) /\
    let D := 2 ^ 64 * bn_abs (objs s sdiv) in
    bn_abs (objs s' snum) = bn_abs (objs s snum) mod D /\ neg (objs s' snum) = neg (objs s snum) /\
    bn_ok (objs s' res) /\ bn_abs (objs s' res) = bn_abs (objs s snum) / D /\
    neg (objs s' res) = xorb (neg (objs s numerator)) (neg (objs s divisor)) /\
    flag_static_data (objs s' res) = flag_static_data (objs s res) /\ flag_malloced (objs s' res) = flag_malloced (objs s res)).
Proof.
  intros Hrt Hrn Hrd Htn Htd Hnd [Hot Hstt] Hwt [Hon Hstn] Hod Hor Hst Hwd Htop Hwn Hlt Hmax. unfold div_digits.
  apply ensures_get, ensures_get, ensures_get, ensures_get. cbv zeta.
  set (vn := objs s snum) in *. set (vd := objs s sdiv) in *. pose proof Hod as (_ & Hld & _).
  rewrite <- (top_word_take (width vd) (d vd)), <- (next_word_take (width vd) (d vd)) by lia. change (take (width vd) (d vd)) with (words vd).
  replace (width vn - width vd)%nat with (S (S k)) by lia. change (S (S k) - 1)%nat with (S k). change (S k =? 0)%nat with false. cbv iota.
  set (sign := neg (objs s numerator)). set (sg := xorb sign (neg (objs s divisor))).
  apply ensures_upd_bind. set (s1 := updated s res _). assert (objs s1 res = with_neg sg (objs s res)) as E1 by apply objs_updated_same.
  eapply ensures_bind; [apply (bn_wexpand_e e He_mem); rewrite ?E1; [done|done|lia|intros; apply Hmax; lia]|]. cbv beta.
  intros _ s2 (Hf2 & Hok2 & Hl2 & _ & _ & Hn2 & _ & Hst2 & Hma2). rewrite E1 in *. apply ensures_upd_bind. set (s3 := updated s2 res _).
  assert (frame res s s3) as Hf3 by (apply (frame_trans res s s1); [unfold s1; auto|apply (frame_trans res s1 s2); [done|unfold s3; auto]]).
  assert (objs s3 res = with_width (S k) (objs s2 res)) as E3 by (unfold s3; by rewrite objs_updated_same).
  assert (objs s3 tmp = objs s tmp) as E3t by (by rewrite (words_frame _ _ _ _ Hf3)).
  eapply ensures_bind; [apply (bn_wexpand_e e He_mem); rewrite ?E3t; [done|congruence|lia|intros; apply Hmax; lia]|]. cbv beta. rewrite E3t.
  intros _ s4 (Hf4 & Hok4 & Hl4 & _ & Hw4 & _ & _ & Hst4 & Hma4). apply ensures_ret_bind, ensures_get, ensures_get.
  rewrite (words_frame _ res _ _ Hf4) by done.
  destruct (div_loop_value vn vd (d (objs s4 tmp)) (d (objs s3 res)) (S k)) as (ln & lt & lr & -> & Hln & Hllt & Hlr & Hwn' & Hwr & Hvn & Hvr); try done.
  { unfold Zlen in Hl4. lia. }
  { rewrite E3. cbn [d with_width]. unfold Zlen in Hl2. lia. }
  apply ensures_upd_bind, ensures_upd_bind, ensures_upd_bind, ensures_ret. split; [done|]. set (s5 := updated _ res _).
  assert (objs s4 snum = vn) as E4n by (by rewrite (words_frame _ _ _ _ Hf4), (words_frame _ _ _ _ Hf3)).
  assert (objs s5 snum = with_d ln vn) as E5n.
  { unfold s5. rewrite !(objs_updated_other _ _ _ snum) by done. by rewrite objs_updated_same, E4n. }
  assert (objs s5 tmp = with_d lt (objs s4 tmp)) as E5t.
  { unfold s5. rewrite (objs_updated_other _ res) by done. rewrite objs_updated_same, objs_updated_other by done. done. }
  assert (objs s5 res = with_d lr (objs s3 res)) as E5r.
  { unfold s5. rewrite objs_updated_same, !objs_updated_other by done. by rewrite (words_frame _ _ _ _ Hf4). }
  split; [|split; [|split]].
  - apply (keeps_trans _ s s4); [apply (keeps_trans _ s s3); [apply (frame_keeps res); [in_list|done]|apply (frame_keeps tmp); [in_list|done]]|].
    split; [done|]. split; [done|]. intros q Hq. rewrite !elem_of_cons in Hq. unfold s5. rewrite !objs_updated_other by tauto. done.
  - rewrite E5t. split; [|cbn; congruence]. apply bn_ok_scratch; [done|by rewrite Hw4|done].
  - rewrite E5n. split; [|done]. destruct Hon as (_ & Hwl & Hm). unfold bn_ok, words, Zlen in *. cbn [d width with_d]. by rewrite Hln.
  - cbv zeta. rewrite E5n, E5r, E3. split; [done|]. split; [done|]. destruct Hok2 as (_ & _ & Hm2). rewrite E3 in Hlr. cbn [d with_width] in Hlr.
    unfold Zlen in Hl2. split; [|split; [exact Hvr|cbn; split; [by rewrite Hn2|split; [by rewrite Hst2|by rewrite Hma2]]]].
    unfold bn_ok, words, Zlen in *. cbn [d width with_d with_width]. rewrite Hlr. split; [done|]. split; [lia|done].
Qed.

(** ** The remainder *)

Lemma div_remainder_spec rem snum norm sign s : temp (objs s snum) -> bn_ok (objs s rem) -> (flag_static_data (objs s rem) = true -> e) ->
  0 <= norm -> let v := bn_abs (objs s snum) / 2 ^ norm in
  ensures e (div_remainder (Some rem) snum norm sign) s (fun _ s' => written rem s s' /\ bn_minimal (objs s' rem) /\
    bn_val (objs s' rem) = if sign then - v else v).
Proof.
  intros [Hn _] Hr Hst Hnorm v. unfold div_remainder.
  eapply ensures_bind; [by apply (BN_rshift_spec e He_mem)|]. unfold shifted. cbv beta. intros _ s1 (Hw & Hmin & Hv & Hneg). fold v in Hv, Hneg.
  assert (bn_ok (objs s1 rem)) as Hok by apply Hw. apply ensures_get. rewrite BN_is_zero_spec by done. unfold bn_val at 1. rewrite Hv.
  assert (((if neg (objs s1 rem) then - v else v) =? 0) = (v =? 0)) as ->.
  { destruct (neg (objs s1 rem)), (Z.eqb_spec (- v) 0), (Z.eqb_spec v 0); lia. }
  destruct (Z.eqb_spec v 0) as [Ez|Ez]; cbn [negb].
  - apply ensures_ret. split; [done|]. split; [done|]. unfold bn_val. rewrite Hv, Hneg, Ez. by destruct sign.
  - apply ensures_upd. split; [by apply written_with_neg|]. rewrite objs_updated_same. split; [apply minimal_with_neg; [done..|lia]|].
    unfold bn_val. cbn [neg with_neg]. change (bn_abs (with_neg sign (objs s1 rem))) with (bn_abs (objs s1 rem)). by rewrite Hv.
Qed.

(** Truncated division of signed numbers. *)
Lemma bn_val_quot_rem a b : bn_ok a -> bn_ok b -> bn_abs b <> 0 ->
  bn_val a ÷ bn_val b = (if xorb (neg a) (neg b) then - (bn_abs a / bn_abs b) else bn_abs a / bn_abs b) /\
  Z.rem (bn_val a) (bn_val b) = if neg a then - (bn_abs a mod bn_abs b) else bn_abs a mod bn_abs b.
Proof.
  intros Ha Hb Hz. pose proof (bn_abs_bound _ Ha). pose proof (bn_abs_bound _ Hb). unfold bn_val.
  rewrite <- (Z.quot_div_nonneg (bn_abs a)), <- (Z.rem_mod_nonneg (bn_abs a)) by lia.
  destruct (neg a), (neg b); cbn [xorb]; rewrite ?Z.quot_opp_l, ?Z.quot_opp_r, ?Z.rem_opp_l, ?Z.rem_opp_r by lia; split; lia.
Qed.

(** ** All of [BN_div] below its temporaries *)

(** The number [v] in an optional result; [s] is the state before. *)
Definition out (p : option ptr) (v : Z) s (o : ptr -> BIGNUM) : Prop :=
  match p with
  | None => True
  | Some r => bn_minimal (o r) /\ bn_val (o r) = v /\ bn_ok (o r) /\
      flag_static_data (o r) = flag_static_data (objs s r) /\ flag_malloced (o r) = flag_malloced (objs s r)
  end.

Definition writable (p : option ptr) s : Prop :=
  match p with None => True | Some r => bn_ok (objs s r) /\ (flag_static_data (objs s r) = true -> e) end.

Lemma out_same p v s1 s2 o1 o2 : (forall r, p = Some r -> objs s2 r = objs s1 r /\ o2 r = o1 r) -> out p v s1 o1 -> out p v s2 o2.
Proof. destruct p as [r|]; [|done]. intros E. destruct (E r eq_refl) as [E1 E2]. cbn. by rewrite E1, E2. Qed.

Lemma div_remainder_out rem snum norm sign s : temp (objs s snum) -> writable rem s -> 0 <= norm ->
  let v := bn_abs (objs s snum) / 2 ^ norm in
  ensures e (div_remainder rem snum norm sign) s (fun _ s' => keeps (option_list rem) s s' /\ out rem (if sign then - v else v) s (objs s')).
Proof.
  intros Ht Hw Hn. destruct rem as [r|]; [|by apply ensures_ret]. destruct Hw as [Hr Hst].
  eapply ensures_mono; [by apply div_remainder_spec|]. cbv beta zeta. intros _ s' ((Hf & Hok & ? & ?) & ? & ?).
  split; [apply (frame_keeps r); [cbn; in_list|done]|done].
Qed.

(** The quotient and the remainder are those of the numbers that were not shifted. *)
Lemma shifted_division a b sh : 0 < b -> 0 <= sh ->
  (2 ^ (sh + 64) * a) / (2 ^ 64 * (2 ^ sh * b)) = a / b /\
  (2 ^ (sh + 64) * a) mod (2 ^ 64 * (2 ^ sh * b)) / 2 ^ (sh + 64) = a mod b.
Proof.
  intros Hb Hsh. rewrite Z.mul_assoc, <- Z.pow_add_r, (Z.add_comm 64) by lia.
  assert (0 < 2 ^ (sh + 64)) by (apply Z.pow_pos_nonneg; lia). set (p := 2 ^ (sh + 64)) in *. clearbody p.
  rewrite Z.mul_mod_distr_l, Z.div_mul_cancel_l by lia. split; [done|]. rewrite Z.mul_comm. by apply Z.div_mul; lia.
Qed.

Lemma temp_keeps ps p s s' : keeps ps s s' -> p ∉ ps -> temp (objs s p) -> temp (objs s' p).
Proof. intros (_ & _ & K) Hp. by rewrite K. Qed.

Lemma div_body_spec rem res tmp snum sdiv numerator divisor s : tmp <> snum -> tmp <> sdiv -> snum <> sdiv ->
  (forall p, p ∈ res :: numerator :: divisor :: option_list rem -> p ∉ [tmp; snum; sdiv]) -> rem <> Some res ->
  temp (objs s tmp) -> width (objs s tmp) = 0%nat -> temp (objs s snum) -> temp (objs s sdiv) -> writable (Some res) s -> writable rem s ->
  bn_ok (objs s numerator) -> bn_ok (objs s divisor) -> bn_abs (objs s divisor) <> 0 ->
  (BN_MAX_WORDS < Z.of_nat (longer_at s numerator divisor) + 5 -> e) ->
  ensures e (div_body rem res tmp snum sdiv numerator divisor) s (fun _ s' =>
    keeps (res :: tmp :: snum :: sdiv :: option_list rem) s s' /\ temp (objs s' tmp) /\ temp (objs s' snum) /\ temp (objs s' sdiv) /\
    out (Some res) (bn_val (objs s numerator) ÷ bn_val (objs s divisor)) s (objs s') /\
    out rem (Z.rem (bn_val (objs s numerator)) (bn_val (objs s divisor))) s (objs s')).
Proof.
  intros Htn Htd Hnd Hfar Hrr Ht Hwt Hn Hd [Hres Hsres] Hrem Hokn Hokd Hz Hmax. unfold div_body.
  assert (forall p, p ∈ res :: numerator :: divisor :: option_list rem -> p <> tmp /\ p <> snum /\ p <> sdiv) as Hne.
  { intros p Hp. specialize (Hfar p Hp). in_list. }
  clear Hfar. destruct (Hne res ltac:(in_list)) as (Hrt & Hrn & Hrd). destruct (Hne numerator ltac:(in_list)) as (_ & Hnn & Hnd').
  destruct (Hne divisor ltac:(in_list)) as (_ & Hdn & Hdd).
  pose proof (bn_abs_bound _ Hokd) as Hdpos.
  eapply ensures_bind; [apply div_normalise_spec; try done; [lia|intros; apply Hmax; lia]|]. cbv beta.
  intros norm s1 (sh & -> & Hsh & K1 & Hn1 & Hd1 & Hv1 & Hneg1 & Hdv1 & Hdw1 & Htop1 & Hwn1 & Hwd1).
  eapply ensures_bind; [apply div_pad_spec; [done..|intros; apply Hmax; lia|intros; apply Hmax; lia]|]. cbv beta.
  intros _ s2 (Hf2 & Hn2 & Hw2 & Hv2 & Hneg2). pose proof K1 as (_ & _ & Ko1).
  assert (forall p, p <> snum -> p <> sdiv -> objs s2 p = objs s p) as E2.
  { intros p Hp1 Hp2. rewrite (words_frame _ _ _ _ Hf2) by done. apply Ko1. in_list. }
  assert (objs s2 sdiv = objs s1 sdiv) as E2d by (by apply (words_frame _ _ _ _ Hf2)).
  set (k := (Nat.max (width (objs s1 snum)) (S (width (objs s1 sdiv))) - S (width (objs s1 sdiv)))%nat).
  assert (width (objs s2 snum) = S (S k + width (objs s1 sdiv))) as Ek by (rewrite Hw2; unfold k; lia).
  eapply ensures_bind.
  { apply (div_digits_spec res tmp snum sdiv numerator divisor s2 k); rewrite ?E2d, ?E2 by done; try done.
    - apply Hd1.
    - rewrite Hv2. destruct Hn1 as [Hok1 _]. pose proof (bn_abs_bound _ Hok1).
      pose proof (wbase_le (width (objs s1 snum)) (S k + width (objs s1 sdiv)) ltac:(unfold k; lia)). lia.
    - intros. apply Hmax. rewrite Hw2 in *. lia. }
  cbv beta zeta. rewrite E2d, !E2 by done. rewrite Hv2, Hv1, Hdv1.
  destruct (shifted_division (bn_abs (objs s numerator)) (bn_abs (objs s divisor)) sh ltac:(lia) ltac:(lia)) as [Eq Er].
  intros sign s3 (-> & K3 & Ht3 & Hn3 & Hv3 & _ & Hok3 & Hq3 & Hneg3 & Hst3 & Hma3). rewrite Eq in Hq3.
  eapply ensures_bind; [apply (ensures_weaken False); [by apply bn_set_minimal_width_spec, Hn3|done]|]. cbv beta zeta.
  intros _ s4 (Hf4 & Hok4 & _ & Hv4 & _ & _ & Hst4 & _).
  assert (keeps (res :: tmp :: snum :: sdiv :: option_list rem) s s4) as K04.
  { apply (keeps_trans _ s s1); [by apply (keeps_sub [snum; sdiv]); [intros; in_list|]|].
    apply (keeps_trans _ s1 s2); [apply (frame_keeps snum); [in_list|done]|].
    apply (keeps_trans _ s2 s3); [by apply (keeps_sub [res; tmp; snum]); [intros; in_list|]|]. apply (frame_keeps snum); [in_list|done]. }
  assert (forall r, rem = Some r -> objs s4 r = objs s r) as E4.
  { intros r ->. destruct (Hne r ltac:(cbn; in_list)) as (? & ? & ?). rewrite (words_frame _ _ _ _ Hf4) by done.
    destruct K3 as (_ & _ & K3). rewrite K3; [by apply E2|]. assert (r <> res) by congruence. in_list. }
  assert (temp (objs s4 snum)) as Hn4 by (split; [done|rewrite Hst4; apply Hn3]).
  assert (writable rem s4) as Hrem4.
  { destruct rem as [r|]; [|done]. unfold writable. by rewrite E4. }
  eapply ensures_bind; [apply div_remainder_out; [done|done|lia]|]. cbv beta zeta. rewrite Hv4, Hv3, Er.
  intros _ s5 [K5 Hout5].
  assert (forall p, p = res \/ p = tmp \/ p = snum \/ p = sdiv -> objs s5 p = objs s4 p) as E5.
  { intros p Hp. destruct K5 as (_ & _ & K5). apply K5. destruct rem as [r|]; [|apply not_elem_of_nil].
    destruct (Hne r ltac:(cbn; in_list)) as (? & ? & ?). assert (r <> res) by congruence. intros Hin%list_elem_of_singleton. intuition congruence. }
  assert (objs s5 res = objs s3 res) as E5r by (rewrite E5 by auto; by apply (words_frame _ _ _ _ Hf4)).
  eapply ensures_mono; [apply (ensures_weaken False); [apply bn_set_minimal_width_spec; by rewrite E5r|done]|]. cbv beta zeta.
  rewrite E5r. intros _ s6 (Hf6 & Hok6 & Hmin6 & Hv6 & _ & Hneg6 & Hst6 & Hma6).
  assert (forall p, p <> res -> objs s6 p = objs s5 p) as E6 by (intros; by apply (words_frame _ _ _ _ Hf6)).
  destruct (bn_val_quot_rem _ _ Hokn Hokd Hz) as [Evq Evr].
  split; [|split; [|split; [|split; [|split]]]].
  - apply (keeps_trans _ s s4); [done|]. apply (keeps_trans _ s4 s5).
    + apply (keeps_sub (option_list rem)); [intros; in_list|done].
    + apply (frame_keeps res); [in_list|done].
  - rewrite E6, E5 by auto. by rewrite (words_frame _ _ _ _ Hf4).
  - rewrite E6, E5 by auto. done.
  - rewrite E6, E5 by auto. rewrite (words_frame _ _ _ _ Hf4) by done. apply (temp_keeps _ _ _ _ K3); [rewrite !not_elem_of_cons; split_and!; [done..|apply not_elem_of_nil]|by rewrite E2d].
  - rewrite Evq. split; [done|]. split; [|split; [done|split; [by rewrite Hst6, Hst3, E2|by rewrite Hma6, Hma3, E2]]]. unfold bn_val. rewrite Hv6, Hneg6, Hq3, Hneg3, ?(E2 divisor), ?(E2 numerator) by done.
    destruct (Z.eqb_spec (bn_abs (objs s numerator) / bn_abs (objs s divisor)) 0) as [E0|]; [rewrite E0; by destruct (neg (objs s numerator)), (neg (objs s divisor))|done].
  - rewrite Evr. apply (out_same _ _ s4 s (objs s5) (objs s6)); [|done]. intros r Er'. split; [by rewrite E4|]. apply E6. congruence.
Qed.

(** ** Its temporaries *)

(** A call that gives NULL leads to failure later on. *)
Lemma ensures_or_null {A B} (m : ST (bn_state H) A) (k : option A -> ST (bn_state H) B) s P Q :
  ensures e m s P -> (forall a s', P a s' -> ensures e (k (Some a)) s' Q) -> (forall s', fst (k None s') = None) ->
  ensures e (st_bind (or_null m) k) s Q.
Proof.
  unfold ensures, or_null, st_bind. intros Hm Hk Hf. destruct (m s) as [[a|] s']; [exact (Hk a s' Hm)|].
  specialize (Hf s'). by destruct (k None s') as [[b|] s2].
Qed.

Lemma or_null_fails {A B} (m : ST (bn_state H) A) (k : option A -> ST (bn_state H) B) s :
  (forall a s', fst (k a s') = None) -> fst (st_bind (or_null m) k s) = None.
Proof. unfold st_bind, or_null. intros Hk. by destruct (m s). Qed.

(** What is known of [k] temporaries that are taken one after the other. *)
Definition taken (ts : list ptr) s s' : Prop :=
  steps e s s' /\ NoDup ts /\ (forall q, live s q -> objs s' q = objs s q /\ live s' q /\ q ∉ ts) /\
  Forall (fun t => t <> value_one_ptr /\ live s' t /\ temp (objs s' t) /\ width (objs s' t) = 0%nat) ts.

Lemma taken_nil s : ctx_wf s -> (error (ctx s) = true -> e) -> taken [] s s.
Proof.
  intros W He. split; [by apply steps_same_ctx|]. split; [constructor|]. split; [|constructor].
  intros q Hq. split; [done|]. split; [done|]. apply not_elem_of_nil.
Qed.

Lemma taken_got ts t s s1 s2 : ctx_wf s1 -> (error (ctx s1) = true -> e) -> taken ts s s1 -> got t s1 s2 -> taken (t :: ts) s s2.
Proof.
  intros W1 He (St & Hnd & Hold & Hts) Hgot. pose proof Hgot as (W2 & G2 & Hnl & Hlt & Hone & Hkeep & (Hok & Hw & _ & Hst) & _).
  rewrite Forall_forall in Hts. split; [by eapply steps_trans, steps_got|]. split; [|split].
  - constructor; [|done]. intros Hin. destruct (Hts t Hin) as (_ & Hl & _). done.
  - intros q Hq. destruct (Hold q Hq) as (Eq & Hl & Hn). split; [by rewrite Hkeep|]. split; [by apply (live_grow s1)|].
    rewrite elem_of_cons. intros [->|?]; done.
  - constructor; [split; [done|split; [done|done]]|]. rewrite Forall_forall. intros q Hq. destruct (Hts q Hq) as (? & Hl & ?).
    rewrite Hkeep by done. split; [done|]. split; [by apply (live_grow s1)|done].
Qed.

Lemma take_temporary {B} ts k s s1 (f : option ptr -> ST (bn_state H) B) Q : taken ts s s1 -> (~ ctx_room (S k) s1 -> e) ->
  (forall t s2, taken (t :: ts) s s2 -> (~ ctx_room k s2 -> e) -> ensures e (f (Some t)) s2 Q) ->
  (forall s', fst (f None s') = None) -> ensures e (st_bind (or_null BN_CTX_get) f) s1 Q.
Proof.
  intros Ht Hroom Hf Hnone. pose proof Ht as ((W1 & _ & He1 & _) & _).
  eapply ensures_or_null; [by apply (BN_CTX_get_spec e He_mem k)| |done]. cbv beta. intros t s2 [Hgot Hroom2].
  apply Hf; [by eapply taken_got|done].
Qed.

(** Closes the goal that what follows a NULL fails. *)
Ltac never quotient :=
  intros; cbv beta;
  repeat (lazymatch goal with |- (st_bind (or_null _) _ _).1 = None => apply or_null_fails; intros; cbv beta end);
  destruct quotient; [|apply or_null_fails; intros]; reflexivity.

(** What an argument that is written must be. *)
Definition dest (r : ptr) s : Prop :=
  r <> value_one_ptr /\ live s r /\ bn_ok (objs s r) /\ (flag_static_data (objs s r) = true -> e).

(** What [BN_div] leaves, [res] being its quotient or a temporary. *)
Definition divided (quotient rem : option ptr) (numerator divisor : ptr) s (o : ptr -> BIGNUM) : Prop :=
  let a := bn_val (objs s numerator) in
  let b := bn_val (objs s divisor) in
  (forall q, live s q -> quotient <> Some q -> rem <> Some q -> o q = objs s q) /\ out quotient (a ÷ b) s o /\ out rem (Z.rem a b) s o.

Lemma div_body_taken ts quotient rem res tmp snum sdiv numerator divisor s s1 : taken ts s s1 -> NoDup [tmp; snum; sdiv] ->
  (forall t, t ∈ [tmp; snum; sdiv] -> t ∈ ts) -> res ∉ [tmp; snum; sdiv] ->
  (quotient = Some res /\ dest res s \/ quotient = None /\ res ∈ ts) -> (forall r, rem = Some r -> dest r s) -> (quotient <> None -> rem <> quotient) ->
  live s numerator /\ bn_ok (objs s numerator) -> live s divisor /\ bn_ok (objs s divisor) -> bn_abs (objs s divisor) <> 0 ->
  (BN_MAX_WORDS < Z.of_nat (longer_at s numerator divisor) + 5 -> e) ->
  ensures e (div_body rem res tmp snum sdiv numerator divisor) s1 (fun _ s' => steps e s s' /\ divided quotient rem numerator divisor s (objs s')).
Proof.
  intros (St & _ & Hold & Hts) Hnd Hin Hres Hq Hrem Hqr [Hln Hokn] [Hld Hokd] Hz Hmax. rewrite Forall_forall in Hts.
  rewrite !NoDup_cons, !not_elem_of_cons in Hnd. destruct Hnd as ((Htn & Htd & _) & (Hnd & _) & _).
  destruct (Hts tmp (Hin tmp ltac:(in_list))) as (Hto & _ & Htt & Htw). destruct (Hts snum (Hin snum ltac:(in_list))) as (Hno & _ & Hnt & _).
  destruct (Hts sdiv (Hin sdiv ltac:(in_list))) as (Hdo & _ & Hdt & _).
  assert (forall p, live s p -> p ∉ [tmp; snum; sdiv]) as Hfar by (intros p Hp Hi; destruct (Hold p Hp) as (_ & _ & Hn); auto).
  assert (res <> value_one_ptr /\ writable (Some res) s1 /\ rem <> Some res) as (Hro & Hrw & Hrr).
  { destruct Hq as [[-> (? & Hl & ? & ?)]|[-> Hr]].
    - destruct (Hold res Hl) as (Er & _ & _). split; [done|]. split; [unfold writable; by rewrite Er|]. by apply Hqr.
    - destruct (Hts res Hr) as (? & _ & (? & Hstr) & _). split; [done|]. split; [unfold writable; by rewrite Hstr|]. intros Er.
      destruct (Hrem res Er) as (_ & Hl & _). by destruct (Hold res Hl) as (_ & _ & []). }
  destruct (Hold numerator Hln) as (En & _ & _). destruct (Hold divisor Hld) as (Ed & _ & _).
  assert (writable rem s1) as Hremw.
  { destruct rem as [r|]; [|done]. destruct (Hrem r eq_refl) as (_ & Hl & ? & ?). destruct (Hold r Hl) as (Er & _ & _). unfold writable. by rewrite Er. }
  eapply ensures_mono.
  { apply div_body_spec; unfold longer_at; rewrite ?En, ?Ed; try done. intros p Hp. rewrite !elem_of_cons in Hp. destruct Hp as [->|[->|[->|Hp]]]; auto.
    apply Hfar. destruct rem as [r|]; [|by apply elem_of_nil in Hp]. apply list_elem_of_singleton in Hp as ->. by apply (Hrem r). }
  cbv beta. rewrite En, Ed. intros _ s2 ((Enx & Ec & K) & Ht2 & Hn2 & Hd2 & Hout & Houtr). pose proof St as (W1 & _ & He1 & _). split.
  - eapply steps_trans; [done|]. apply steps_same_ctx; [done| |done..]. apply (ctx_wf_objs s1); [done..|]. intros q.
    destruct (decide (q ∈ res :: tmp :: snum :: sdiv :: option_list rem)) as [Hi|Hi]; [right|left; by apply K].
    rewrite !elem_of_cons in Hi. destruct Hi as [->|[->|[->|[->|Hi]]]].
    + split; [done|]. by destruct Hout as (_ & _ & ? & ? & _).
    + destruct Ht2 as [? ->], Htt as [? ->]. done.
    + destruct Hn2 as [? ->], Hnt as [? ->]. done.
    + destruct Hd2 as [? ->], Hdt as [? ->]. done.
    + destruct rem as [r|]; [|by apply elem_of_nil in Hi]. apply list_elem_of_singleton in Hi as ->. split; [by apply (Hrem r)|].
      by destruct Houtr as (_ & _ & ? & ? & _).
  - split; [|split].
    + intros q Hlq Hq1 Hq2. destruct (Hold q Hlq) as (<- & _ & Hqts). apply K. rewrite !elem_of_cons. intros [->|[->|[->|[->|Hi]]]].
      * destruct Hq as [[-> _]|[_ ?]]; done.
      * by apply Hqts, Hin; in_list.
      * by apply Hqts, Hin; in_list.
      * by apply Hqts, Hin; in_list.
      * destruct rem as [r|]; [|by apply elem_of_nil in Hi]. by apply list_elem_of_singleton in Hi as ->.
    + destruct Hq as [[-> (_ & Hl & _)]|[-> _]]; [|done]. apply (out_same _ _ s1 s (objs s2) (objs s2)); [|done].
      intros r [= <-]. by destruct (Hold res Hl) as (-> & _).
    + apply (out_same _ _ s1 s (objs s2) (objs s2)); [|done]. intros r Er. destruct (Hrem r Er) as (_ & Hl & _). by destruct (Hold r Hl) as (-> & _).
Qed.

Lemma BN_div_ok quotient rem numerator divisor s : ctx_wf s -> (~ ctx_room 5 s -> e) ->
  (forall r, quotient = Some r \/ rem = Some r -> dest r s) -> (quotient <> None -> rem <> quotient) ->
  live s numerator /\ bn_ok (objs s numerator) -> live s divisor /\ bn_ok (objs s divisor) ->
  (BN_MAX_WORDS < Z.of_nat (longer_at s numerator divisor) + 5 -> e) ->
  ensures (e \/ bn_val (objs s divisor) = 0) (BN_div quotient rem numerator divisor) s (fun _ s' =>
    bn_val (objs s divisor) <> 0 /\ ctx_wf s' /\ ctx_grow s s' /\ balanced e s s' /\ divided quotient rem numerator divisor s (objs s')).
Proof.
  intros W Hroom Hdest Hqr Hn Hd Hmax. pose proof Hn as [_ Hokn]. pose proof Hd as [_ Hokd]. unfold BN_div. apply ensures_get, ensures_get. cbv zeta.
  apply ensures_guard.
  { intros Hc%negb_false_iff. exfalso. pose proof (minimal_top _ Hokn). pose proof (minimal_top _ Hokd). apply orb_true_iff in Hc as [[Hw%Nat.ltb_lt Ez%Z.eqb_eq]%andb_true_iff|[Hw%Nat.ltb_lt Ez%Z.eqb_eq]%andb_true_iff]; lia. }
  intros _. rewrite BN_is_zero_spec by done. apply ensures_guard; [intros Hc%negb_false_iff; right; lia|]. intros Hc%negb_true_iff%Z.eqb_neq.
  apply (ensures_weaken e); [|auto]. assert (bn_abs (objs s divisor) <> 0) as Hz.
  { intros Ez. apply Hc. unfold bn_val. rewrite Ez. by destruct (neg _). }
  eapply (ensures_mono _ _ _ (fun _ s' => ctx_wf s' /\ ctx_grow s s' /\ balanced e s s' /\ divided quotient rem numerator divisor s (objs s'))); [|done].
  apply (with_ctx_spec e He_mem _ 4 s (fun _ o => divided quotient rem numerator divisor s o)); [done..|].
  intros s1 W1 Eo Hlive He1 Hroom1.
  assert (forall ts res tmp snum sdiv s2, taken ts s1 s2 -> NoDup [tmp; snum; sdiv] -> (forall t, t ∈ [tmp; snum; sdiv] -> t ∈ ts) -> res ∉ [tmp; snum; sdiv] ->
    (quotient = Some res /\ dest res s1 \/ quotient = None /\ res ∈ ts) ->
    ensures e (div_body rem res tmp snum sdiv numerator divisor) s2 (fun _ s' => steps e s1 s' /\ divided quotient rem numerator divisor s (objs s'))) as Hbody.
  { intros ts res tmp snum sdiv s2 Ht Hnd Hin Hres Hq. eapply ensures_mono.
    { apply (div_body_taken ts quotient rem res tmp snum sdiv numerator divisor s1 s2); unfold longer_at; rewrite ?Eo; try done.
      - intros r Er. destruct (Hdest r (or_intror Er)) as (? & ? & Hb). split; [done|]. split; [by apply Hlive|]. by rewrite Eo.
      - destruct Hn. split; [by apply Hlive|done].
      - destruct Hd. split; [by apply Hlive|done]. }
    cbv beta. unfold divided, out. rewrite Eo. intros _ s' (St & Hk & Ho). split; [done|]. split; [|done].
    intros q Hq1. by apply Hk, Hlive. }
  apply (take_temporary [] 3 s1 s1); [by apply taken_nil|done| |never quotient]. intros tmp s2 Ht2 Hroom2.
  apply (take_temporary [tmp] 2 s1 s2); [done..| |never quotient]. intros snum s3 Ht3 Hroom3.
  apply (take_temporary [snum; tmp] 1 s1 s3); [done..| |never quotient].
  intros sdiv s4 Ht4 Hroom4. pose proof Ht4 as (_ & Hnd4 & Hold4 & _). rewrite !NoDup_cons, !not_elem_of_cons in Hnd4.
  destruct quotient as [r|].
  - change (st_bind (st_ret (Some r)) ?k) with (k (Some r)). cbv iota. apply (Hbody [sdiv; snum; tmp]); [done| | | |].
    + revert Hnd4. clear. rewrite !NoDup_cons, !not_elem_of_cons. intuition (auto using NoDup_nil_2).
    + intros t. rewrite !elem_of_cons. clear. tauto.
    + destruct (Hdest r (or_introl eq_refl)) as (_ & Hl & _). destruct (Hold4 r (Hlive r Hl)) as (_ & _ & Hr). revert Hr. clear. rewrite !elem_of_cons. tauto.
    + left. split; [done|]. destruct (Hdest r (or_introl eq_refl)) as (? & Hl & Hb). split; [done|]. split; [by apply Hlive|]. by rewrite Eo.
  - apply (take_temporary [sdiv; snum; tmp] 0 s1 s4); [done..| |done]. intros res s5 Ht5 _.
    pose proof Ht5 as (_ & Hnd5 & _). rewrite !NoDup_cons, !not_elem_of_cons in Hnd5. apply (Hbody [res; sdiv; snum; tmp]); [done| | | |].
    + revert Hnd4. clear. rewrite !NoDup_cons, !not_elem_of_cons. intuition (auto using NoDup_nil_2).
    + intros t. rewrite !elem_of_cons. clear. tauto.
    + revert Hnd5. clear. rewrite !not_elem_of_cons. tauto.
    + right. split; [done|]. rewrite !elem_of_cons. by left.
Qed.

(** ** Modular arithmetic *)

Lemma room_explained r n s : (flag_static_data (objs s r) = true -> e) -> (BN_MAX_WORDS < Z.of_nat n -> e) -> room_refused r n s -> e.
Proof.
  intros Hst Hmax (m & Hm & Hw). destruct (flag_static_data (objs s r)) eqn:Es; [by apply Hst|].
  destruct (decide (Z.of_nat n <= BN_MAX_WORDS)); [|apply Hmax; lia]. eapply wexpand_explained; [done|exact Hw|done|lia].
Qed.

(** A result that is the number [v]. *)
Definition valued (v : Z) (p : BIGNUM) : Prop := bn_minimal p /\ bn_val p = v.

Lemma BN_mod_ok rem numerator divisor s : ctx_wf s -> (~ ctx_room 5 s -> e) -> dest rem s ->
  live s numerator /\ bn_ok (objs s numerator) -> live s divisor /\ bn_ok (objs s divisor) ->
  (BN_MAX_WORDS < Z.of_nat (longer_at s numerator divisor) + 5 -> e) ->
  ensures (e \/ bn_val (objs s divisor) = 0) (BN_mod rem numerator divisor) s (fun _ s' => bn_val (objs s divisor) <> 0 /\
    op_post e rem (valued (Z.rem (bn_val (objs s numerator)) (bn_val (objs s divisor)))) s s').
Proof.
  intros W Hroom Hr Hn Hd Hmax. unfold BN_mod. eapply ensures_mono; [apply BN_div_ok; try done; intros ? [|[= <-]]; done|].
  cbv beta. intros _ s' (Hz & W' & G & B & K & _ & Hmin & Hv & Hok & Hs & Hm). split; [done|].
  split; [done|]. split; [done|]. split; [done|]. split; [|done]. intros q Hq Hqr. apply K; [done..|congruence].
Qed.

Lemma BN_nnmod_ok r m dv s : ctx_wf s -> (~ ctx_room 5 s -> e) -> dest r s ->
  live s m /\ bn_ok (objs s m) -> live s dv /\ bn_ok (objs s dv) -> dv <> r -> (BN_MAX_WORDS < Z.of_nat (longer_at s m dv) + 5 -> e) ->
  ensures (e \/ bn_val (objs s dv) = 0) (BN_nnmod r m dv) s (fun _ s' => bn_val (objs s dv) <> 0 /\
    op_post e r (valued (bn_val (objs s m) mod Z.abs (bn_val (objs s dv)))) s s').
Proof.
  intros W Hroom Hr Hm Hd Hne Hmax. unfold BN_nnmod. eapply ensures_bind; [by apply BN_mod_ok|]. cbv beta.
  intros _ s1 (Hz & Hop). pose proof Hop as (W1 & G1 & B1 & K1 & Hok1 & [Hmin1 Hv1] & Hs1 & Hm1). set (a := bn_val (objs s m)) in *.
  destruct Hd as [Hld Hokd]. assert (objs s1 dv = objs s dv) as Ed by (by apply K1). pose proof (bn_abs_bound _ Hok1) as Hb1. pose proof (bn_abs_bound _ Hokd) as Hbd.
  assert (bn_abs (objs s dv) = Z.abs (bn_val (objs s dv))) as Eabs by (unfold bn_val; destruct (neg _); lia).
  set (b := bn_val (objs s dv)) in *. pose proof (Z.rem_bound_abs a b Hz) as Hrb.
  assert (neg (objs s1 r) = (bn_val (objs s1 r) <? 0)) as En.
  { unfold bn_val. destruct (neg (objs s1 r)) eqn:E; [|symmetry; apply Z.ltb_ge; lia]. symmetry. apply Z.ltb_lt. destruct (Z.eq_dec (bn_abs (objs s1 r)) 0); [|lia].
    exfalso. destruct (Nat.eq_0_gt_0_cases (width (objs s1 r))) as [Ew|Hw]; [by rewrite (proj2 Hmin1) in E|].
    pose proof (minimal_abs_lower _ Hok1 Hmin1 Hw). pose proof (wbase_pos (width (objs s1 r) - 1)). lia. }
  apply ensures_get. rewrite En, Hv1. destruct (Z.ltb_spec (Z.rem a b) 0) as [Hneg|Hpos]; cbn [negb].
  - apply ensures_get. rewrite Ed. assert (width (objs s1 r) <= width (objs s dv))%nat as Hwr.
    { apply minimal_width_bound; [done..|]. enough (bn_abs (objs s1 r) <= Z.abs (Z.rem a b)) by lia. rewrite <- Hv1. unfold bn_val. destruct (neg _); lia. }
    assert (Z.rem a b + Z.abs b = a mod Z.abs b) as Emod.
    { apply (Z.mod_unique_pos _ _ (Z.quot a b * Z.sgn b - 1)); [lia|]. pose proof (Z.quot_rem' a b). pose proof (Z.sgn_abs b). pose proof (Z.abs_sgn b). nia. }
    assert (forall s', written r s1 s' /\ bn_val (objs s' r) = Z.rem a b + Z.abs b /\ (bn_signed (objs s1 r) -> bn_minimal (objs s' r)) ->
      b <> 0 /\ op_post e r (valued (a mod Z.abs b)) s s') as Hend.
    { intros s' ((Hf & Hok & Hs & Hm') & Hv & Hmin). split; [done|]. eapply op_post_then_frame; [exact Hop|by apply Hr|done..|]. intros _.
      split; [|by rewrite Hv]. apply Hmin. unfold bn_signed. intros _. rewrite <- Hv1 in Hneg. unfold bn_val in Hneg. destruct (neg (objs s1 r)); lia. }
    assert (room_refused r (longer_at s1 r dv + 1) s1 -> e \/ b = 0) as Hroom1.
    { intros Hr1. left. eapply room_explained; [|  |exact Hr1]; [rewrite Hs1; by apply Hr|].
      intros. apply Hmax. unfold longer_at, longer in *. rewrite Ed in *. lia. }
    destruct (neg (objs s dv)) eqn:End; (eapply ensures_mono; [eapply ensures_weaken; [|exact Hroom1]|]).
    + apply BN_sub_ok; rewrite ?Ed; done.
    + cbv beta. rewrite Ed. fold b. intros _ s' (? & Hv & ?). apply Hend. split; [done|]. split; [|done]. rewrite Hv, Hv1. unfold b, bn_val in *. rewrite End in *. lia.
    + apply BN_add_ok; rewrite ?Ed; done.
    + cbv beta. rewrite Ed. fold b. intros _ s' (? & Hv & ?). apply Hend. split; [done|]. split; [|done]. rewrite Hv, Hv1. unfold b, bn_val in *. rewrite End in *. lia.
  - apply ensures_ret. split; [done|]. eapply op_post_mono; [exact Hop|]. intros p [? Hv]. split; [done|]. rewrite Hv.
    apply (Z.mod_unique_pos _ _ (Z.quot a b * Z.sgn b)); [lia|]. pose proof (Z.quot_rem' a b). pose proof (Z.sgn_abs b). pose proof (Z.abs_sgn b). nia.
Qed.
End div.
