(* ===== verification/BnModSpec.v ===== *)
(** Modular arithmetic of [div.c]: division of signed numbers, and the sum, the
    difference, the product and the square modulo a number. *)
From S2P Require Import Prelude Mem ConstTime Stack StackSpec BnWords BnMul BnMulSpec Bn BnSpec BnCtxSpec BnProduct BnProductSpec BnMont BnMontSpec BnBytesSpec BnShiftSpec BnDiv BnDivSpec.

Lemma abs_bn_val p : bn_ok p -> Z.abs (bn_val p) = bn_abs p.
Proof. intros Hp. pose proof (bn_abs_bound p Hp). unfold bn_val. destruct (neg p); lia. Qed.

Section mod_ops.
Context {H : Type} `{MallocSpec H}.
Implicit Types s : bn_state H.
Context (e : Prop) (He_mem : forall n h, 0 <= n <= 2 ^ 62 -> fst (OPENSSL_malloc n h) = None -> e).

Lemma op_post_trans r Q Q' s1 s2 s3 : op_post e r Q s1 s2 -> op_post e r Q' s2 s3 -> ctx_wf s1 -> op_post e r Q' s1 s3.
Proof.
  intros (_ & G1 & B1 & K1 & _ & _ & Hs1 & Hm1) (W & G2 & B2 & K2 & Hok & HQ & Hs2 & Hm2) W1.
  split; [done|]. split; [by eapply ctx_grow_trans|]. split; [by eapply balanced_trans|].
  split; [|split; [done|split; [done|split; congruence]]].
  intros q Hq Hqr. rewrite K2; [by apply K1|by apply (live_grow s1)|done].
Qed.

Lemma dest_after r Q s s1 : ctx_wf s -> dest e r s -> op_post e r Q s s1 -> dest e r s1.
Proof.
  intros W (Hone & Hl & _ & Hst) (_ & G & _ & _ & Hok & _ & Hs & _). split; [done|]. split; [by apply (live_grow s)|].
  split; [done|]. by rewrite Hs.
Qed.

Lemma valued_width v p n : bn_ok p -> valued v p -> Z.abs v < wbase n -> (width p <= n)%nat.
Proof. intros Hok [Hm Hv] Hn. apply minimal_width_bound; [done..|]. pose proof (bn_abs_bound _ Hok). unfold bn_val in Hv. destruct (neg p); lia. Qed.

(** An object that an operation reads. *)
Definition source (p : ptr) s : Prop := live s p /\ bn_ok (objs s p).

Lemma source_after p r Q s s1 : ctx_wf s -> source p s -> p <> r -> op_post e r Q s s1 -> source p s1 /\ objs s1 p = objs s p.
Proof. intros W [Hl Hok] Hp (_ & G & _ & K & _). unfold source. rewrite K by done. split; [|done]. split; [by apply (live_grow s)|done]. Qed.

(** The reduction of what was written. *)
Lemma nnmod_after r m v n s s1 : ctx_wf s -> op_post e r (valued v) s s1 -> (~ ctx_room 5 s -> e) -> dest e r s -> source m s -> m <> r ->
  Z.abs v < wbase n -> (BN_MAX_WORDS < Z.of_nat (Nat.max n (width (objs s m))) + 5 -> e) ->
  ensures (e \/ bn_val (objs s m) = 0) (BN_nnmod r r m) s1 (fun _ s' => bn_val (objs s m) <> 0 /\
    op_post e r (valued (v mod Z.abs (bn_val (objs s m)))) s s') /\
  ensures (e \/ bn_val (objs s m) = 0) (BN_mod r r m) s1 (fun _ s' => bn_val (objs s m) <> 0 /\
    op_post e r (valued (Z.rem v (bn_val (objs s m)))) s s').
Proof.
  intros W Hop Hroom Hr Hm Hne Hv Hmax. pose proof (dest_after _ _ _ _ W Hr Hop) as Hr1. pose proof (source_after _ _ _ _ _ W Hm Hne Hop) as [Hm1 Em].
  pose proof Hop as (W1 & G1 & B1 & _ & Hok1 & Hv1 & _). pose proof (room_balanced _ _ _ _ G1 B1 Hroom) as Hroom1.
  pose proof (valued_width _ _ _ Hok1 Hv1 Hv) as Hw1. destruct Hv1 as [_ Ev].
  assert (source r s1) as Hsr by (destruct Hr1 as (_ & ? & ? & _); done).
  assert (BN_MAX_WORDS < Z.of_nat (longer_at s1 r m) + 5 -> e) as Hmax1.
  { intros. apply Hmax. unfold longer_at, longer in *. rewrite Em in *. lia. }
  rewrite <- Em, <- Ev. split; (eapply ensures_mono; [first [by apply (BN_nnmod_ok e He_mem)|by apply (BN_mod_ok e He_mem)]|]); cbv beta;
    intros _ s' [Hz Hop']; (split; [done|]); by eapply op_post_trans.
Qed.

(** What the operations below need. *)
Record mod_operands (r a b m : ptr) s : Prop := {
  mp_wf : ctx_wf s;
  mp_room : ~ ctx_room 7 s -> e;
  mp_dest : dest e r s;
  mp_source : source a s /\ source b s /\ source m s;
  mp_modulus : m <> r;
  mp_signed : bn_signed (objs s a);
  mp_max : BN_MAX_WORDS < 8 * Z.of_nat (Nat.max (longer_at s a b) (width (objs s m))) + 6 -> e;
}.

Lemma mod_error r a b m s : mod_operands r a b m s -> error (ctx s) = true -> e.
Proof. intros [W Hroom _ _ _ _ _]. by apply (room_error e 7). Qed.

(** A sum is at most a word longer than its operands. *)
Lemma longer_bounds s a b : bn_ok (objs s a) -> bn_ok (objs s b) -> Z.abs (bn_val (objs s a)) < wbase (longer_at s a b) /\ Z.abs (bn_val (objs s b)) < wbase (longer_at s a b).
Proof.
  intros Ha Hb. pose proof (bn_abs_bound _ Ha). pose proof (bn_abs_bound _ Hb). unfold longer_at, longer.
  set (n := Nat.max (width (objs s a)) (width (objs s b))). pose proof (wbase_le (width (objs s a)) n ltac:(lia)). pose proof (wbase_le (width (objs s b)) n ltac:(lia)).
  unfold bn_val. destruct (neg (objs s a)), (neg (objs s b)); lia.
Qed.

Lemma add_sub_post r a b m s (op : Z -> Z -> Z) s' : mod_operands r a b m s -> written r s s' /\
  bn_val (objs s' r) = op (bn_val (objs s a)) (bn_val (objs s b)) /\ (bn_signed (objs s a) -> bn_minimal (objs s' r)) ->
  op_post e r (valued (op (bn_val (objs s a)) (bn_val (objs s b)))) s s'.
Proof.
  intros Hmo ((Hf & Hok & Hs & Hm) & Hv & Hmin). pose proof (mod_error _ _ _ _ _ Hmo). destruct Hmo as [W _ (Hone & _) _ _ Hsa _].
  apply op_post_frame; try done. split; [by apply Hmin|done].
Qed.

Lemma mod_sum_ok (op : Z -> Z -> Z) (f : ptr -> ptr -> ptr -> ST (bn_state H) unit) r a b m s : mod_operands r a b m s ->
  (forall x y, Z.abs (op x y) <= Z.abs x + Z.abs y) ->
  ensures (room_refused r (longer_at s a b + 1) s) (f r a b) s (fun _ s' => written r s s' /\
    bn_val (objs s' r) = op (bn_val (objs s a)) (bn_val (objs s b)) /\ (bn_signed (objs s a) -> bn_minimal (objs s' r))) ->
  ensures (e \/ bn_val (objs s m) = 0) (f r a b ;;; BN_nnmod r r m) s (fun _ s' => bn_val (objs s m) <> 0 /\
    op_post e r (valued (op (bn_val (objs s a)) (bn_val (objs s b)) mod Z.abs (bn_val (objs s m)))) s s').
Proof.
  intros Hmo Hop Hf. pose proof Hmo as [W Hroom Hr ((_ & Ha) & (_ & Hb) & Hm) Hne Hsa Hmax].
  eapply ensures_bind.
  { eapply ensures_weaken; [exact Hf|]. intros Hrr. left. eapply room_explained; [done|apply Hr| |exact Hrr]. intros. apply Hmax. lia. }
  cbv beta. intros _ s1 Hp. apply (add_sub_post r a b m s op s1 Hmo) in Hp.
  destruct (nnmod_after r m _ (longer_at s a b + 1) s s1 W Hp) as [Hn _]; try done.
  - eapply room_less; [|exact Hroom]. lia.
  - destruct (longer_bounds s a b Ha Hb). pose proof (Hop (bn_val (objs s a)) (bn_val (objs s b))). rewrite Nat.add_1_r, wbase_S.
    pose proof (wbase_pos (longer_at s a b)). lia.
  - intros. apply Hmax. lia.
Qed.

Lemma product_operands r a b m s : mod_operands r a b m s -> operands e 3 r a b s.
Proof.
  intros [W Hroom (Hone & Hlr & Hr & Hst) ((? & ?) & (? & ?) & _) _ _ Hmax]. split; try done.
  - eapply room_less; [|exact Hroom]. lia.
  - intros. apply Hmax. lia.
Qed.

Lemma product_val_bound s a b : bn_ok (objs s a) -> bn_ok (objs s b) ->
  Z.abs (bn_val (objs s a) * bn_val (objs s b)) < wbase (2 * longer_at s a b).
Proof.
  intros Ha Hb. destruct (longer_bounds s a b Ha Hb). rewrite Z.abs_mul. replace (2 * longer_at s a b)%nat with (longer_at s a b + longer_at s a b)%nat by lia.
  rewrite wbase_add. apply Z.mul_lt_mono_nonneg; lia.
Qed.

Lemma BN_mod_sqr_ok r a m s : mod_operands r a a m s ->
  ensures (e \/ bn_val (objs s m) = 0) (BN_mod_sqr r a m) s (fun _ s' => bn_val (objs s m) <> 0 /\
    op_post e r (valued (bn_val (objs s a) * bn_val (objs s a) mod Z.abs (bn_val (objs s m)))) s s').
Proof.
  intros Hmo. pose proof Hmo as [W Hroom Hr (Ha & _ & Hm) Hne _ Hmax]. unfold BN_mod_sqr.
  eapply ensures_bind; [eapply ensures_weaken; [apply (BN_sqr_ok e He_mem); by eapply product_operands|auto]|]. cbv beta.
  intros _ s1 Hp. destruct (nnmod_after r m _ (2 * longer_at s a a) s s1 W Hp) as [_ Hn]; try done.
  - eapply room_less; [|exact Hroom]. lia.
  - apply product_val_bound; apply Ha.
  - intros. apply Hmax. lia.
  - eapply ensures_mono; [exact Hn|]. cbv beta. intros _ s' [Hz Hop]. split; [done|].
    eapply op_post_mono; [exact Hop|]. intros p [? Hv]. split; [done|]. rewrite Hv.
    rewrite <- Z.rem_mod_nonneg; [|nia|lia]. by rewrite Z.rem_abs_r.
Qed.

(** The failure for a zero modulus is one of those that [e] explains. *)
Lemma BN_mod_mul_any r a b m s : mod_operands r a b m s -> (bn_val (objs s m) = 0 -> e) ->
  ensures e (BN_mod_mul r a b m) s (fun _ s' => ctx_wf s' /\ ctx_grow s s' /\ balanced e s s' /\ bn_val (objs s m) <> 0 /\
    result r (valued (bn_val (objs s a) * bn_val (objs s b) mod Z.abs (bn_val (objs s m)))) s (objs s')).
Proof.
  intros Hmo Hz. pose proof Hmo as [W Hroom (Hone & Hlr & Hr & Hst) ([Hla Ha] & [Hlb Hb] & [Hlm Hm]) Hne _ Hmax]. unfold BN_mod_mul.
  pose proof (product_val_bound s a b Ha Hb) as Hbound. set (n := bn_val (objs s m)) in *. set (v := bn_val (objs s a) * bn_val (objs s b)) in *.
  apply (with_ctx_spec e He_mem _ 6 s (fun _ o => n <> 0 /\ result r (valued (v mod Z.abs n)) s o)); [done|done|].
  intros s1 W1 Eo Hlive He1 Hroom1.
  eapply ensures_bind; [by apply (BN_CTX_get_spec e He_mem 5)|]. cbv beta. intros t s2 [Hgot Hroom2].
  pose proof Hgot as (W2 & G2 & Hnl & Hlt2 & Htone & Hkeep & (Hokt & _ & _ & Hstt) & _ & _ & Ee2).
  assert (forall q, live s q -> objs s2 q = objs s q /\ live s2 q /\ q <> t) as K2.
  { intros q Hq. split; [by rewrite Hkeep, Eo by auto|]. split; [exact (live_grow s1 s2 q W1 G2 (Hlive q Hq))|]. intros ->. by apply Hnl, Hlive. }
  destruct (K2 a Hla) as (Ea & Hla2 & Hat). destruct (K2 b Hlb) as (Eb & Hlb2 & Hbt). destruct (K2 r Hlr) as (Er & Hlr2 & Hrt).
  destruct (K2 m Hlm) as (Em & Hlm2 & Hmt).
  assert (operands e 3 t a b s2) as Hop2.
  { split; unfold longer_at; rewrite ?Ea, ?Eb; try done; [|by rewrite Hstt|intros; apply Hmax; unfold longer_at; lia].
    eapply room_less; [|exact Hroom2]. lia. }
  eapply (ensures_bind _ _ _ _ (fun _ s' => op_post e t (valued v) s2 s')).
  { destruct (Z.eqb_spec a b) as [->|Hab].
    - eapply ensures_mono; [apply (BN_sqr_ok e He_mem), Hop2|]. cbv beta. rewrite Eb. done.
    - eapply ensures_mono; [apply (BN_mul_ok e He_mem), Hop2|]. cbv beta. rewrite Ea, Eb. done. }
  intros _ s3 Hop3. pose proof Hop3 as (W3 & G3 & B3 & K3 & Hokt3 & Hv3 & _).
  assert (objs s3 r = objs s r /\ objs s3 m = objs s m) as [Er3 Em3] by (by rewrite !K3, Er, Em).
  assert (bn_val (objs s3 t) = v) as Ev3 by apply Hv3. pose proof (valued_width _ _ _ Hokt3 Hv3 Hbound) as Hw3.
  eapply ensures_mono.
  { eapply (ensures_weaken (e \/ n = 0)); [|intros [?|?]; auto]. unfold n. rewrite <- Em3. apply (BN_nnmod_ok e He_mem); try done.
    - eapply room_balanced; [exact G3|exact B3|done].
    - split; [done|]. split; [by apply (live_grow s2)|]. by rewrite Er3.
    - split; [by apply (live_grow s2)|done].
    - split; [by apply (live_grow s2)|by rewrite Em3].
    - intros. apply Hmax. unfold longer_at in *; unfold longer in *. rewrite Em3 in *. lia. }
  cbv beta. rewrite Em3, Ev3. fold n. intros _ s4 [Hz4 (W4 & G4 & B4 & K4 & Hok4 & Hv4 & Hs4 & Hm4)]. split.
  - eapply steps_trans; [by eapply steps_got|]. apply (steps_trans e s2 s3 s4); by apply steps_balanced.
  - split; [done|]. rewrite Er3 in *. split; [|done]. intros q Hq Hqr. destruct (K2 q Hq) as (Eq & Hq2 & Hqt).
    rewrite K4, K3; try done. by apply (live_grow s2).
Qed.
End mod_ops.

Section theorems.
Context {H : Type} `{MallocSpec H}.
Implicit Types s : bn_state H.

(** The objects that a division writes, if any, and those that it reads. *)
Record div_arguments (quotient rem : option ptr) (numerator divisor : ptr) s : Prop := {
  dv_wf : ctx_wf s;
  dv_dest : forall r, quotient = Some r \/ rem = Some r -> r <> value_one_ptr /\ source r s;
  dv_source : source numerator s /\ source divisor s;
  dv_differ : quotient <> None -> rem <> quotient;
}.

(** Why a division may fail when its divisor is not zero. *)
Definition div_refused (quotient rem : option ptr) (numerator divisor : ptr) s : Prop :=
  ~ MallocTotal H \/ ~ ctx_room 5 s \/ (exists r, (quotient = Some r \/ rem = Some r) /\ flag_static_data (objs s r) = true) \/
  BN_MAX_WORDS < Z.of_nat (longer_at s numerator divisor) + 5.

(** C5. [BN_div] divides signed numbers of any widths, rounding towards zero,
    the remainder having the sign of the numerator.  Either result may be left
    out and may be an operand, but they may not be the same object.  Nothing
    else of the caller changes, the four temporaries are given back, and the
    results have no zero words on top.  It fails for a zero divisor, and else
    only when the allocator may, when there is no room in the context, or when a
    result has static words or would be too long. *)
Theorem BN_div_spec quotient rem numerator divisor s (Hargs : div_arguments quotient rem numerator divisor s) :
  let a := bn_val (objs s numerator) in
  let b := bn_val (objs s divisor) in
  let e := div_refused quotient rem numerator divisor s in
  let holds (p : option ptr) (v : Z) (s' : bn_state H) := forall r, p = Some r ->
    bn_ok (objs s' r) /\ bn_minimal (objs s' r) /\ bn_val (objs s' r) = v in
  match BN_div quotient rem numerator divisor s with
  | (Some _, s') =>
      b <> 0 /\ holds quotient (a ÷ b) s' /\ holds rem (Z.rem a b) s' /\
      (forall q, live s q -> quotient <> Some q -> rem <> Some q -> objs s' q = objs s q) /\
      ctx_wf s' /\ ctx_grow s s' /\ balanced e s s'
  | (None, _) => e \/ b = 0
  end.
Proof.
  destruct Hargs as [W Hd [Hn Hdv] Hne]. cbv zeta. set (e := div_refused _ _ _ _ _).
  assert (forall n h, 0 <= n <= 2 ^ 62 -> fst (OPENSSL_malloc n h) = None -> e) as He_mem.
  { intros n h Hnb Hm. left. by eapply malloc_none_total. }
  assert (ensures (e \/ bn_val (objs s divisor) = 0) (BN_div quotient rem numerator divisor) s (fun _ s' => bn_val (objs s divisor) <> 0 /\ ctx_wf s' /\
    ctx_grow s s' /\ balanced e s s' /\ divided quotient rem numerator divisor s (objs s'))) as Hok.
  { apply (BN_div_ok e He_mem); try done; unfold e, div_refused; [auto| |auto].
    intros r Hr. destruct (Hd r Hr) as (? & ? & ?). split; [done|]. split; [done|]. split; [done|]. intros Hs. right. right. left. by exists r. }
  unfold ensures in Hok. destruct (BN_div quotient rem numerator divisor s) as [[u|] s']; [|exact Hok].
  destruct Hok as (? & ? & ? & ? & Hk & Hq & Hr). split; [done|]. split; [|split; [|by repeat (split; [done|])]].
  - intros r ->. destruct Hq as (? & ? & ? & _). done.
  - intros r ->. destruct Hr as (? & ? & ? & _). done.
Qed.

(** What an operation modulo [m] is given. *)
Record mod_arguments (r a b m : ptr) s : Prop := {
  ma_wf : ctx_wf s;
  ma_dest : r <> value_one_ptr /\ source r s;
  ma_source : source a s /\ source b s /\ source m s;
  ma_modulus : m <> r;
  ma_signed : bn_signed (objs s a);
}.

Definition mod_refused (r a b m : ptr) s : Prop :=
  ~ MallocTotal H \/ ~ ctx_room 7 s \/ flag_static_data (objs s r) = true \/
  BN_MAX_WORDS < 8 * Z.of_nat (Nat.max (longer_at s a b) (width (objs s m))) + 6.

Lemma mod_refused_mem r a b m s n h : 0 <= n <= 2 ^ 62 -> (OPENSSL_malloc n h).1 = None -> mod_refused r a b m s.
Proof. intros Hn Hm. left. by eapply malloc_none_total. Qed.

Lemma mod_arguments_operands (e : Prop) r a b m s : mod_arguments r a b m s -> (mod_refused r a b m s -> e) -> mod_operands e r a b m s.
Proof.
  unfold mod_refused. intros [W (Hone & Hl & Hr) Hs Hne Hsg] He. split; try done; [auto| |auto].
  split; [done|]. split; [done|]. split; [done|auto].
Qed.

Lemma BN_mod_mul_ok r a b m s : mod_arguments r a b m s -> let e := mod_refused r a b m s in
  ensures (e \/ bn_val (objs s m) = 0) (BN_mod_mul r a b m) s (fun _ s' => bn_val (objs s m) <> 0 /\
    op_post e r (valued (bn_val (objs s a) * bn_val (objs s b) mod Z.abs (bn_val (objs s m)))) s s').
Proof.
  intros Hargs e. destruct (Z.eq_dec (bn_val (objs s m)) 0) as [Hz|Hz].
  - eapply ensures_mono; [apply (BN_mod_mul_any (e \/ bn_val (objs s m) = 0)); [|by apply mod_arguments_operands; auto|auto]|].
    + intros n h Hn Hm. left. by eapply mod_refused_mem.
    + cbv beta. intros _ s' (_ & _ & _ & ? & _). done.
  - eapply ensures_mono; [eapply ensures_weaken; [apply (BN_mod_mul_any e (mod_refused_mem r a b m s)); [by apply mod_arguments_operands|done]|auto]|].
    cbv beta. intros _ s' (? & ? & ? & ? & ?). done.
Qed.

(** C6. The sum, the difference, the product and the square modulo [m] are the
    least non-negative residues, for signed operands, for a modulus of either
    sign, and also when the result is an operand, but only when the result is
    not the modulus itself ([mod_arguments]; [BN_nnmod_over_modulus] shows what
    happens over the modulus).  Of the
    objects of the caller only the result changes and every temporary is given
    back.  A zero modulus is an error; else they fail only when the allocator
    may, when there is no room in the context, or when the result has static
    words or would be too long. *)
Theorem BN_mod_arith_spec r a b m s (Hargs : mod_arguments r a b m s) :
  let x := bn_val (objs s a) in
  let y := bn_val (objs s b) in
  let n := bn_val (objs s m) in
  let post (b : ptr) (v : Z) (f : ST (bn_state H) unit) :=
    match f s with
    | (Some _, s') => n <> 0 /\ op_post (mod_refused r a b m s) r (fun p => bn_minimal p /\ bn_val p = v mod Z.abs n) s s'
    | (None, _) => mod_refused r a b m s \/ n = 0
    end in
  post b (x + y) (BN_mod_add r a b m) /\ post b (x - y) (BN_mod_sub r a b m) /\
  post b (x * y) (BN_mod_mul r a b m) /\ post a (x * x) (BN_mod_sqr r a m).
Proof.
  pose proof (mod_arguments_operands _ _ _ _ _ _ Hargs (fun x => x)) as Hmo. cbv zeta. split; [|split; [|split]].
  - apply (mod_sum_ok _ (mod_refused_mem r a b m s) Z.add BN_add r a b m s Hmo); [lia|]. destruct Hargs as [_ [_ [_ ?]] ([_ ?] & [_ ?] & _) _ _]. by apply BN_add_ok.
  - apply (mod_sum_ok _ (mod_refused_mem r a b m s) Z.sub BN_sub r a b m s Hmo); [lia|]. destruct Hargs as [_ [_ [_ ?]] ([_ ?] & [_ ?] & _) _ _]. by apply BN_sub_ok.
  - by apply BN_mod_mul_ok.
  - assert (mod_arguments r a a m s) as Hargs' by (destruct Hargs as [? ? (? & ? & ?) ? ?]; by split).
    apply (BN_mod_sqr_ok _ (mod_refused_mem r a a m s)). by apply mod_arguments_operands.
Qed.
End theorems.

(** [-(2^192 + 5)] by [2^64 + 3], the quotient over the numerator. *)
Lemma BN_div_spec_witness :
  let s := example_state [Bignum [5; 0; 0; 1] 4 true true false; Bignum [3; 1] 2 false true false; BN_init] in
  div_arguments (Some 2) (Some 4) 2 3 s /\
  exists s', BN_div (Some 2) (Some 4) 2 3 s = (Some tt, s') /\
    bn_val (objs s' 2) = - (2 ^ 192 + 5) ÷ (2 ^ 64 + 3) /\ bn_val (objs s' 4) = Z.rem (- (2 ^ 192 + 5)) (2 ^ 64 + 3).
Proof.
  intros s. assert (source 2 s /\ source 3 s /\ source 4 s) as (H2 & H3 & H4).
  { split_and!; (split; [by apply example_live|]); split; try (split; [first [apply le_n|apply le_0_n]|done]);
      [change (words_ok [5; 0; 0; 1])|change (words_ok [3; 1])|change (words_ok [])]; repeat (constructor; [done|]); constructor. }
  assert (div_arguments (Some 2) (Some 4) 2 3 s) as Hargs.
  { split; [by apply example_wf| |done|done]. intros r [[= <-]|[= <-]]; done. }
  split; [done|]. pose proof (BN_div_spec (Some 2) (Some 4) 2 3 s Hargs) as Hs. cbv zeta in Hs.
  assert (fst (BN_div (Some 2) (Some 4) 2 3 s) = Some tt) as E by (vm_compute; reflexivity).
  destruct (BN_div (Some 2) (Some 4) 2 3 s) as [res s']. cbn [fst] in E. subst res. exists s'. split; [done|].
  destruct Hs as (_ & Hq & Hr & _). destruct (Hq 2 eq_refl) as (_ & _ & ->). destruct (Hr 4 eq_refl) as (_ & _ & ->). split; vm_compute; reflexivity.
Defined.

(** Modulo [-(2^64 + 13)]; the result is an operand. *)
Lemma BN_mod_arith_spec_witness :
  let s := example_state [Bignum [5; 1] 2 true true false; Bignum [13; 1] 2 true true false] in
  mod_arguments 2 2 2 3 s /\
  exists s', BN_mod_mul 2 2 2 3 s = (Some tt, s') /\ bn_val (objs s' 2) = (2 ^ 64 + 5) * (2 ^ 64 + 5) mod (2 ^ 64 + 13).
Proof.
  intros s. assert (source 2 s /\ source 3 s) as (H2 & H3).
  { split_and!; (split; [by apply example_live|]); (split; [|split; [apply le_n|done]]); [change (words_ok [5; 1])|change (words_ok [13; 1])];
      repeat (constructor; [done|]); constructor. }
  assert (mod_arguments 2 2 2 3 s) as Hargs by (split; [by apply example_wf|done|done|done|by intros _; vm_compute]).
  split; [done|]. destruct (BN_mod_arith_spec 2 2 2 3 s Hargs) as (_ & _ & Hs & _).
  assert (fst (BN_mod_mul 2 2 2 3 s) = Some tt) as E by (vm_compute; reflexivity).
  destruct (BN_mod_mul 2 2 2 3 s) as [res s']. cbn [fst] in E. subst res. exists s'. split; [done|].
  destruct Hs as (_ & _ & _ & _ & _ & _ & (_ & Hv) & _). rewrite Hv. vm_compute. reflexivity.
Defined.

(** When the modulus is the result its value is lost before it is added: [-5]
    modulo 3 is 1, but comes out as 0. *)
Example BN_nnmod_over_modulus :
  let s := example_state [Bignum [5] 1 true true false; Bignum [3] 1 false true false] in
  let '(r, s') := BN_nnmod 3 2 3 s in r = Some tt /\ bn_val (objs s' 3) = 0.
Proof. vm_compute. done. Qed.
