(* ===== verification/BnDivConstSpec.v ===== *)
(** The constant-time division of [div.c], a bit at a time, and [BN_div] agree. *)
From S2P Require Import Prelude Mem ConstTime Stack StackSpec BnWords BnMul BnMulSpec Bn BnSpec BnCtxSpec BnProduct BnProductSpec BnMont BnMontSpec BnBytesSpec BnShiftSpec BnDiv BnDivSpec BnModSpec.

(** * Bits *)

Lemma land_1_bit x b : Z.land (Z.shiftr x (Z.of_nat b)) 1 = Z.b2z (Z.testbit x (Z.of_nat b)).
Proof. change 1 with (Z.ones 1) at 1. rewrite Z.land_ones, Z.testbit_spec' by lia. by rewrite Z.shiftr_div_pow2 by lia. Qed.

(** The next bit of a number. *)
Lemma mod_pow2_S x b : x mod 2 ^ Z.of_nat (S b) = 2 ^ Z.of_nat b * Z.b2z (Z.testbit x (Z.of_nat b)) + x mod 2 ^ Z.of_nat b.
Proof.
  rewrite Z.testbit_spec' by lia. rewrite Nat2Z.inj_succ, Z.pow_succ_r, (Z.mul_comm 2) by lia.
  assert (0 < 2 ^ Z.of_nat b) by (apply Z.pow_pos_nonneg; lia). rewrite Z.rem_mul_r by lia. lia.
Qed.

Lemma not_mask_bit b : Z.land (u64 (Z.lnot (mask_of b))) 1 = Z.b2z (negb b).
Proof. by destruct b. Qed.

Lemma shl_bit (c : bool) b : (b < 64)%nat -> u64 (Z.shiftl (Z.b2z c) (Z.of_nat b)) = Z.b2z c * 2 ^ Z.of_nat b.
Proof.
  intros Hb. rewrite Z.shiftl_mul_pow2 by lia. assert (2 ^ Z.of_nat b < 2 ^ 64) by (apply Z.pow_lt_mono_r; lia).
  assert (0 < 2 ^ Z.of_nat b) by (apply Z.pow_pos_nonneg; lia). apply u64_of_word. unfold word. destruct c; cbn [Z.b2z]; lia.
Qed.

Lemma lor_high h b v : 0 <= v < 2 ^ Z.of_nat b -> Z.lor (2 ^ Z.of_nat b * h) v = 2 ^ Z.of_nat b * h + v.
Proof. intros Hv. apply lor_low; lia. Qed.

(** * The loops *)

Section loops.
Context (m : list Z) (Hm : words_ok m) (Hpos : 0 < wval m).

(** A remainder doubled, with a bit of the numerator. *)
Lemma next_remainder r (c : bool) : words_ok r -> length r = length m -> wval r < wval m ->
  let '(r1, carry) := bn_add_words r r in
  let r1 := put 0 [Z.lor (r1 !!! 0%nat) (Z.b2z c)] r1 in
  let '(r2, mask) := bn_reduce_once_in_place r1 carry m in
  let v := 2 * wval r + Z.b2z c in
  length r2 = length m /\ words_ok r2 /\ wval r2 = v mod wval m /\ mask = mask_of (v <? wval m).
Proof.
  intros Hr Hl Hlt. pose proof (bn_add_words_spec r r eq_refl Hr Hr) as Hs. destruct (bn_add_words r r) as [r1 carry].
  cbv zeta. destruct Hs as (Hl1 & Hw1 & Hc & Hv). assert (0 < length m)%nat as Hlm by (destruct m; [done|cbn; lia]).
  destruct r1 as [|x t]; [cbn in *; lia|]. change ((x :: t) !!! 0%nat) with x. change (x :: t) with ([x] ++ t). rewrite (put_at0 [_] [x] t) by done.
  rewrite words_ok_cons in Hw1. destruct Hw1 as [Hx Ht]. rewrite wval_cons in Hv.
  assert (Z.even x = true) as Hev.
  { assert (x = 2 * (wval r - 2 ^ 63 * (wval t + wbase (length r - 1) * carry))) as ->; [|by rewrite Z.even_mul].
    destruct r as [|y r']; [cbn in Hl1; lia|]. cbn [length] in *. rewrite wbase_S in Hv. replace (S (length r') - 1)%nat with (length r') by lia. lia. }
  assert (Z.lor x (Z.b2z c) = x + Z.b2z c) as El.
  { destruct c; [|by rewrite Z.lor_0_r, Z.add_0_r]. apply Zeven_bool_iff in Hev. destruct (Zeven_ex _ Hev) as [y ->].
    change 2 with (2 ^ 1). rewrite lor_low; [done|lia|cbn; lia]. }
  assert (word (x + Z.b2z c)) as Hx'.
  { unfold word in *. apply Zeven_bool_iff in Hev. destruct (Zeven_ex _ Hev) as [y Hy]. destruct c; cbn [Z.b2z]; lia. }
  rewrite El, bn_reduce_once_in_place_eq. cbn [app length] in *.
  pose proof (bn_reduce_once_spec (x + Z.b2z c :: t) carry m) as Hred. rewrite wval_cons in Hred. cbn [length] in Hred.
  assert (x + Z.b2z c + 2 ^ 64 * wval t + wbase (length m) * carry = 2 * wval r + Z.b2z c) as Ev by (rewrite <- Hl; lia).
  cbv zeta in Hred. rewrite Ev in Hred. specialize (Hred ltac:(lia)). rewrite words_ok_cons in Hred.
  specialize (Hred (conj Hx' Ht) Hm Hc Hpos). destruct (bn_reduce_once _ _ _) as [r2 mask]. apply Hred. destruct c; cbn [Z.b2z]; lia.
Qed.

(** [b] bits of the word [x]. *)
Lemma div_bits_loop_spec x : forall b h ql qr r, (b <= 64)%nat -> 0 <= h -> word (2 ^ Z.of_nat b * h) -> words_ok r -> length r = length m -> wval r < wval m ->
  let v := 2 ^ Z.of_nat b * wval r + x mod 2 ^ Z.of_nat b in
  exists r', div_bits_loop b x (length ql) m (ql ++ [2 ^ Z.of_nat b * h] ++ qr) r = (ql ++ [2 ^ Z.of_nat b * h + v / wval m] ++ qr, r') /\
    length r' = length m /\ words_ok r' /\ wval r' = v mod wval m.
Proof.
  induction b as [|b IH]; intros h ql qr r Hb Hh Hw Hr Hl Hlt; cbv zeta.
  { exists r. cbn [div_bits_loop]. change (2 ^ Z.of_nat 0) with 1. rewrite Z.mod_1_r, !Z.mul_1_l, Z.add_0_r. pose proof (wval_nonneg r Hr).
    rewrite Z.div_small, Z.mod_small, Z.add_0_r by lia. done. }
  cbn [div_bits_loop]. rewrite land_1_bit. pose proof (next_remainder r (Z.testbit x (Z.of_nat b)) Hr Hl Hlt) as Hs.
  destruct (bn_add_words r r) as [r1 carry]. cbv zeta in Hs |- *.
  destruct (bn_reduce_once_in_place _ carry m) as [r2 mask]. destruct Hs as (Hl2 & Hw2 & Hv2 & ->).
  set (c := Z.b2z (Z.testbit x (Z.of_nat b))) in *. assert (0 <= c <= 1) as Hc by (unfold c; destruct (Z.testbit _ _); cbn; lia).
  rewrite not_mask_bit, shl_bit by lia. pose proof (wval_nonneg r Hr) as Hr0. set (v := 2 * wval r + c) in *.
  set (p := 2 ^ Z.of_nat b) in *. assert (0 < p) as Hp by (apply Z.pow_pos_nonneg; lia).
  assert (2 ^ Z.of_nat (S b) = 2 * p) as Ep by (unfold p; rewrite Nat2Z.inj_succ, Z.pow_succ_r by lia; done).
  assert (v / wval m = Z.b2z (negb (v <? wval m))) as Eq.
  { destruct (Z.ltb_spec v (wval m)); cbn [negb Z.b2z]; [apply Z.div_small; lia|]. symmetry. apply (Z.div_unique _ _ _ (v - wval m)); lia. }
  rewrite <- Eq. rewrite Ep in *. assert (0 <= v / wval m <= 1) as Hqb by (rewrite Eq; destruct (negb _); cbn; lia).
  assert ((ql ++ [2 * p * h] ++ qr) !!! length ql = 2 * p * h) as -> by (rewrite lookup_total_app_r, Nat.sub_diag by lia; done).
  assert (Z.lor (2 * p * h) (v / wval m * p) = p * (2 * h + v / wval m)) as ->.
  { rewrite <- Ep. rewrite lor_high; [rewrite Ep; ring|rewrite Ep; nia]. }
  rewrite (put_at (length ql) [_] ql [_] qr) by done.
  pose proof (Z.mod_pos_bound x p Hp) as Hxp.
  destruct (IH (2 * h + v / wval m) ql qr r2) as (r' & E & Hl' & Hw' & Hv'); try done; [lia|lia| |rewrite Hv2; apply Z.mod_pos_bound; lia|].
  { unfold word in *. assert (p * (2 * h + v / wval m) < 2 ^ 64); [|nia].
    assert (exists z, 2 ^ 64 = 2 * p * z) as [z Hz].
    { exists (2 ^ (64 - Z.of_nat (S b))). rewrite <- Ep, <- Z.pow_add_r by lia. f_equal. lia. }
    rewrite Hz in *. assert (h < z) by nia. assert (p * (2 * h + v / wval m) <= p * (2 * z - 1)) by (apply Z.mul_le_mono_nonneg_l; lia). lia. }
  exists r'. rewrite E. pose proof (mod_pow2_S x b) as Ex. fold p c in Ex. rewrite Ep in Ex. rewrite Hv2 in *.
  pose proof (Z.div_mod v (wval m) ltac:(lia)) as Hdm.
  assert (2 * p * wval r + x mod (2 * p) = p * (v mod wval m) + x mod p + p * (v / wval m) * wval m) as Etot by (rewrite Ex; unfold v in *; nia).
  rewrite Etot, Z.div_add, Z.mod_add by lia. split; [do 4 f_equal; ring|done].
Qed.

(** The words of [num] from the highest down. *)
Lemma div_words_loop_spec num : words_ok num -> forall n qr r, (n <= length num)%nat -> words_ok r -> length r = length m -> wval r < wval m ->
  let v := wbase n * wval r + wval (take n num) in
  exists q' r', div_words_loop n num m (replicate n 0 ++ qr) r = (q' ++ qr, r') /\ length q' = n /\ words_ok q' /\ wval q' = v / wval m /\
    length r' = length m /\ words_ok r' /\ wval r' = v mod wval m.
Proof.
  intros Hnum. induction n as [|n IH]; intros qr r Hn Hr Hl Hlt; cbv zeta.
  { exists [], r. cbn [div_words_loop replicate app]. rewrite take_0. change (wbase 0) with 1. rewrite wval_nil, Z.mul_1_l, Z.add_0_r.
    pose proof (wval_nonneg r Hr). rewrite Z.div_small, Z.mod_small by lia. split; [done|]. split; [done|]. split; [constructor|done]. }
  cbn [div_words_loop]. set (x := num !!! n). assert (word x) as Hx by (unfold x; auto with words).
  assert (replicate (S n) 0 ++ qr = replicate n 0 ++ [2 ^ Z.of_nat 64 * 0] ++ qr) as ->.
  { rewrite Z.mul_0_r, app_assoc. f_equal. by rewrite <- replicate_S_end. }
  destruct (div_bits_loop_spec x 64 0 (replicate n 0) qr r) as (r1 & E & Hl1 & Hw1 & Hv1); [done|done|done|done|done|done|].
  rewrite length_replicate in E. change (Z.to_nat BN_BITS2) with 64%nat. rewrite E. clear E. change (2 ^ Z.of_nat 64) with (2 ^ 64) in *.
  rewrite (Z.mod_small x) in * by done. set (v1 := 2 ^ 64 * wval r + x) in *. rewrite Z.mul_0_r, Z.add_0_l.
  destruct (IH ([v1 / wval m] ++ qr) r1) as (q' & r' & E & Hlq & Hwq & Hvq & Hl' & Hw' & Hv'); [lia|done|done|rewrite Hv1; apply Z.mod_pos_bound; lia|].
  pose proof (wval_nonneg r Hr) as Hr0. unfold word in Hx.
  assert (word (v1 / wval m)) as Hq1 by (unfold v1; split; [apply Z.div_pos; lia|apply Z.div_lt_upper_bound; nia]).
  exists (q' ++ [v1 / wval m]), r'. rewrite E, <- app_assoc. split; [done|]. split; [rewrite length_app; cbn; lia|]. split; [solve_words|].
  assert (wval (take (S n) num) = wval (take n num) + wbase n * x) as Et.
  { rewrite (take_S_r num n x) by (by apply list_lookup_lookup_total_lt). by rewrite wval_snoc, length_take, Nat.min_l by lia. }
  pose proof (Z.div_mod v1 (wval m) ltac:(lia)) as Hdm. rewrite Hv1 in *.
  assert (wbase (S n) * wval r + wval (take (S n) num) = wbase n * (v1 mod wval m) + wval (take n num) + wbase n * (v1 / wval m) * wval m) as Etot.
  { rewrite Et, wbase_S. unfold v1 in *. nia. }
  rewrite wval_snoc, Hlq, Etot, Z.div_add, Z.mod_add by lia. split; [lia|done].
Qed.
End loops.

(** * Objects *)

Section div.
Context {H : Type} `{MallocSpec H}.
Implicit Types s : bn_state H.
Context (e : Prop) (He_mem : forall n h, 0 <= n <= 2 ^ 62 -> fst (OPENSSL_malloc n h) = None -> e).

(** Room for a number that is cleared. *)
Definition roomy (b b' : BIGNUM) (n : nat) : Prop :=
  bn_ok b' /\ (n <= length (d b'))%nat /\ flag_static_data b' = flag_static_data b /\ flag_malloced b' = flag_malloced b.

Lemma wexpand_roomy r n s : bn_ok (objs s r) -> (flag_static_data (objs s r) = true -> e) -> Z.of_nat n <= BN_MAX_WORDS ->
  ensures e (bn_wexpand r (Z.of_nat n)) s (fun _ s' => frame r s s' /\ roomy (objs s r) (objs s' r) n).
Proof.
  intros Hr Hst Hn. eapply ensures_mono; [apply (bn_wexpand_e e He_mem); [done..|lia|lia]|]. cbv beta.
  intros _ s' (Hf & Hok & Hl & _ & _ & _ & _ & ? & ?). unfold Zlen in Hl. split; [done|]. split; [done|]. split; [lia|done].
Qed.

(** The array with [w] words in front, as a number. *)
Lemma number_in_front b w ws : bn_ok b -> (w <= length (d b))%nat -> length ws = w -> words_ok ws ->
  let b' := with_neg false (with_width w (with_d (put 0 ws (d b)) b)) in bn_ok b' /\ words b' = ws /\ length (d b') = length (d b).
Proof.
  intros (_ & _ & Hm) Hw Hl Hok b'. assert (words b' = ws) as Ew.
  { unfold b', words, put. cbn [d width with_d with_neg with_width]. rewrite take_0. cbn [app]. by apply take_app_length'. }
  assert (length (d b') = length (d b)) as El by (cbn [b' d with_d with_neg with_width]; apply length_put; cbn; lia).
  split; [|done]. unfold bn_ok. rewrite Ew. unfold Zlen in *. rewrite El. split; [done|]. split; [cbn; lia|done].
Qed.

(** What a division leaves in a result that is not reduced to its minimal width. *)
Definition holds (v : Z) (w : nat) (b b' : BIGNUM) : Prop :=
  bn_ok b' /\ bn_abs b' = v /\ width b' = w /\ neg b' = false /\
  flag_static_data b' = flag_static_data b /\ flag_malloced b' = flag_malloced b.

Lemma clear_words_bind {A} p w (k : unit -> ST (bn_state H) A) s Q :
  ensures e (k tt) (updated (updated s p (fun b => with_d (put 0 (replicate w 0) (d b)) b)) p (fun v => with_neg false (with_width w v))) Q ->
  ensures e (st_bind (clear_words p w) k) s Q.
Proof. done. Qed.

(** The words in front of an array of which [w] are in use. *)
Lemma words_front b ws : bn_ok b -> length ws = width b -> words_ok ws ->
  let b' := with_d (put 0 ws (d b)) b in bn_ok b' /\ words b' = ws.
Proof.
  intros (_ & Hw & Hm) Hl Hok b'. unfold Zlen in *. assert (words b' = ws) as Ew.
  { unfold b', words, put. cbn [d width with_d]. rewrite take_0. cbn [app]. by apply take_app_length'. }
  split; [|done]. unfold bn_ok. rewrite Ew. cbn [b' d width with_d]. unfold Zlen. rewrite length_put by (cbn; lia). done.
Qed.

(** The highest words of the numerator, where the divisor is known to be longer. *)
Lemma initial_words_spec vn vd bits : bn_ok vn -> bn_ok vd -> 0 < bn_abs vd -> bits <= BN_num_bits vd ->
  let iw := if bits >? 0 then Nat.min (Z.to_nat ((bits - 1) / BN_BITS2)) (width vn) else 0%nat in
  let top := sub (width vn - iw) iw (d vn) in
  (iw <= width vn)%nat /\ (iw <= width vd)%nat /\ length top = iw /\ words_ok top /\ wval top < bn_abs vd /\
  bn_abs vn = wbase (width vn - iw) * wval top + wval (take (width vn - iw) (words vn)).
Proof.
  intros Hn Hd Hpos Hbits iw top. pose proof (BN_num_bits_spec vd Hd Hpos) as (Hnb & Hlo & _). pose proof (bn_abs_bound vd Hd) as Hbd.
  pose proof Hn as (_ & Hln & _). assert (iw <= width vn)%nat as Hiw by (unfold iw; destruct (bits >? 0); lia).
  assert (length top = iw) as Hlt by (apply length_sub; lia).
  assert (top = drop (width vn - iw) (words vn)) as Et.
  { unfold top, sub, words. rewrite take_drop_commute. do 2 f_equal. lia. }
  assert (words_ok top) as Hwt by (rewrite Et; pose proof (words_ok_words vn Hn); auto with words).
  assert (64 * Z.of_nat iw <= BN_num_bits vd - 1) as Hb.
  { unfold iw, BN_BITS2. destruct (Z.gtb_spec bits 0); [dlia|lia]. }
  pose proof (wval_bound top Hwt) as Hbt. rewrite Hlt in Hbt.
  assert (wbase iw <= bn_abs vd) as Hle.
  { eapply Z.le_trans; [|exact Hlo]. unfold wbase. apply Z.pow_le_mono_r; lia. }
  split; [done|]. split.
  { destruct (Nat.le_gt_cases iw (width vd)); [done|]. pose proof (wbase_le (width vd) iw ltac:(lia)). lia. }
  split; [done|]. split; [done|]. split; [lia|]. unfold bn_abs at 1. rewrite (wval_take_drop (width vn - iw) (words vn)), <- Et.
  rewrite length_words, Nat.min_l by (done || lia). ring.
Qed.

Lemma div_consttime_loops_spec q r tmp numerator divisor bits s : q <> r -> q <> tmp -> r <> tmp ->
  (forall p, p ∈ [q; r; tmp] -> p <> numerator /\ p <> divisor) ->
  writable e (Some q) s -> writable e (Some r) s -> temp (objs s tmp) -> bn_ok (objs s numerator) -> bn_ok (objs s divisor) ->
  0 < bn_abs (objs s divisor) -> bits <= BN_num_bits (objs s divisor) ->
  let a := bn_abs (objs s numerator) in let b := bn_abs (objs s divisor) in
  ensures e (div_consttime_loops q r tmp numerator divisor bits) s (fun _ s' => keeps [q; r; tmp] s s' /\ temp (objs s' tmp) /\
    holds (a / b) (width (objs s numerator)) (objs s q) (objs s' q) /\ holds (a mod b) (width (objs s divisor)) (objs s r) (objs s' r)).
Proof.
  intros Hqr Hqt Hrt Hops [Hokq Hstq] [Hokr Hstr] [Hokt Hstt] Hokn Hokd Hpos Hbits. cbv zeta. unfold div_consttime_loops. apply ensures_get, ensures_get.
  destruct (Hops q ltac:(in_list)) as [Hqn Hqd]. destruct (Hops r ltac:(in_list)) as [Hrn Hrd]. destruct (Hops tmp ltac:(in_list)) as [Htn Htd]. clear Hops.
  set (vn := objs s numerator) in *. set (vd := objs s divisor) in *. pose proof (bn_ok_width _ Hokn) as Hmn. pose proof (bn_ok_width _ Hokd) as Hmd.
  eapply ensures_bind; [by apply wexpand_roomy|]. cbv beta. intros _ s1 [Hf1 (Hok1 & Hl1 & Hst1 & Hma1)].
  assert (objs s1 r = objs s r) as E1r by (by apply (words_frame _ _ _ _ Hf1)).
  eapply ensures_bind; [by apply wexpand_roomy; rewrite ?E1r|]. cbv beta. rewrite E1r. intros _ s2 [Hf2 (Hok2 & Hl2 & Hst2 & Hma2)].
  assert (objs s2 tmp = objs s tmp) as E2t by (by rewrite (words_frame _ _ _ _ Hf2), (words_frame _ _ _ _ Hf1)).
  eapply ensures_bind; [apply wexpand_roomy; rewrite ?E2t; [done|congruence|done]|]. cbv beta. rewrite E2t. intros _ s3 [Hf3 (Hok3 & Hl3 & Hst3 & Hma3)].
  assert (objs s3 q = objs s1 q) as E3q by (by rewrite (words_frame _ _ _ _ Hf3), (words_frame _ _ _ _ Hf2)).
  assert (objs s3 r = objs s2 r) as E3r by (by rewrite (words_frame _ _ _ _ Hf3)).
  assert (keeps [q; r; tmp] s s3) as K3.
  { apply (keeps_trans _ s s1); [apply (frame_keeps q); [in_list|done]|]. apply (keeps_trans _ s1 s2); [apply (frame_keeps r); [in_list|done]|apply (frame_keeps tmp); [in_list|done]]. }
  destruct (initial_words_spec vn vd bits Hokn Hokd Hpos Hbits) as (Hiw & Hiwd & Hltop & Hwtop & Hvtop & Evn).
  set (iw := if bits >? 0 then _ else _) in *. set (top := sub (width vn - iw) iw (d vn)) in *. clearbody top iw.
  apply clear_words_bind, clear_words_bind. cbv zeta. apply ensures_upd_bind, ensures_get, ensures_get. set (s6 := updated _ r (fun b => with_d (put 0 top (d b)) b)).
  destruct (number_in_front (objs s1 q) (width vn) (replicate (width vn) 0) Hok1 Hl1) as (Hok6q & Ew6q & _); [by rewrite length_replicate|apply words_ok_replicate_0|].
  destruct (number_in_front (objs s2 r) (width vd) (replicate (width vd) 0) Hok2 Hl2) as (Hok5r & Ew5r & El5r); [by rewrite length_replicate|apply words_ok_replicate_0|].
  cbv zeta in *. set (bq := with_neg false (with_width (width vn) _)) in *. set (br := with_neg false (with_width (width vd) _)) in *.
  assert (objs s6 q = bq) as E6q.
  { unfold s6. rewrite !(objs_updated_other _ r) by done. rewrite !objs_updated_same, E3q. done. }
  assert (objs s6 r = with_d (put 0 top (d br)) br) as E6r.
  { unfold s6. rewrite !objs_updated_same, !(objs_updated_other _ q) by done. rewrite E3r. done. }
  assert (words (objs s6 r) = top ++ replicate (width vd - iw) 0) as Ew6r.
  { rewrite E6r. unfold words in *. cbn [width with_d] in *. change (width br) with (width vd) in *. cbn [d with_d]. unfold put. rewrite take_0, Nat.add_0_l. cbn [app].
    rewrite take_app_ge by lia. rewrite Hltop. f_equal. rewrite take_drop_commute.
    replace (iw + (width vd - iw))%nat with (width vd) by lia. rewrite Ew5r. apply drop_replicate. }
  rewrite E6q, Ew6q, Ew6r.
  assert (replicate (width vn) 0 = replicate (width vn - iw) 0 ++ replicate iw 0) as -> by (rewrite <- replicate_add; f_equal; lia).
  pose proof (length_words vd Hokd) as Hld.
  destruct (div_words_loop_spec (words vd) (words_ok_words vd Hokd) Hpos (words vn) (words_ok_words vn Hokn) (width vn - iw) (replicate iw 0)
    (top ++ replicate (width vd - iw) 0)) as (q' & r' & -> & Hlq & Hwq & Hvq & Hlr & Hwr & Hvr).
  { rewrite length_words by done. lia. }
  { pose proof (words_ok_replicate_0 (width vd - iw)). solve_words. }
  { rewrite length_app, length_replicate. lia. }
  { rewrite wval_app, wval_replicate_0. fold (bn_abs vd). lia. }
  rewrite wval_app, wval_replicate_0, Z.mul_0_r, Z.add_0_r, <- Evn in Hvq, Hvr. fold (bn_abs vd) in Hvq, Hvr.
  apply ensures_upd_bind, ensures_upd. set (s8 := updated _ r _).
  destruct (words_front bq (q' ++ replicate iw 0)) as [Hok8q Ew8q]; [done|rewrite length_app, length_replicate; change (width bq) with (width vn); lia|
    pose proof (words_ok_replicate_0 iw); solve_words|].
  assert (bn_ok (objs s6 r) /\ width (objs s6 r) = width vd) as [Hok6r Hw6r].
  { rewrite E6r. split; [|done]. destruct Hok5r as (_ & Hw5 & Hm5). split; [rewrite <- E6r, Ew6r; pose proof (words_ok_replicate_0 (width vd - iw)); solve_words|].
    cbn [d width with_d]. unfold Zlen in *. rewrite length_put by lia. done. }
  destruct (words_front (objs s6 r) r') as [Hok8r Ew8r]; [done|lia|done|].
  cbv zeta in *. assert (objs s8 q = with_d (put 0 (q' ++ replicate iw 0) (d bq)) bq) as E8q.
  { unfold s8. rewrite (objs_updated_other _ r) by done. by rewrite objs_updated_same, E6q. }
  assert (objs s8 r = with_d (put 0 r' (d (objs s6 r))) (objs s6 r)) as E8r.
  { unfold s8. by rewrite objs_updated_same, (objs_updated_other _ q) by done. }
  assert (objs s8 tmp = objs s3 tmp) as E8t by (unfold s8, s6; by rewrite !objs_updated_other).
  split; [|split; [|split]].
  - apply (keeps_trans _ s s3); [done|]. split; [done|]. split; [done|]. intros p Hp. rewrite !not_elem_of_cons in Hp. destruct Hp as (? & ? & _).
    unfold s8, s6. by rewrite !objs_updated_other.
  - rewrite E8t. split; [done|]. by rewrite Hst3.
  - rewrite E8q. split; [done|]. split; [unfold bn_abs at 1; rewrite Ew8q, wval_app, wval_replicate_0; lia|]. split; [done|]. split; [done|]. split; [exact Hst1|exact Hma1].
  - rewrite E8r. split; [done|]. split; [unfold bn_abs at 1; by rewrite Ew8r|]. split; [done|]. rewrite E6r. split; [done|]. split; [exact Hst2|exact Hma2].
Qed.

Definition result_in (p : option ptr) (v : Z) (w : nat) s (o : ptr -> BIGNUM) : Prop :=
  match p with None => True | Some r => holds v w (objs s r) (o r) end.

Lemma copy_out_spec p x v w s : bn_ok (objs s x) -> bn_abs (objs s x) = v -> width (objs s x) = w -> neg (objs s x) = false -> writable e p s ->
  ensures e (copy_out p x) s (fun _ s' => keeps (option_list p) s s' /\ result_in p v w s (objs s')).
Proof.
  intros Hx Hv Hw Hn Hp. destruct p as [y|]; [|by apply ensures_ret]. cbn [copy_out result_in]. destruct Hp as [Hy Hst].
  destruct (decide (x = y)) as [->|Hne].
  { unfold BN_copy. rewrite Z.eqb_refl. apply ensures_ret. split; [apply keeps_refl|]. done. }
  eapply ensures_mono; [by apply (BN_copy_spec e He_mem)|]. cbv beta. intros _ s' (Hf & Hok & Ew & Hw' & Hn' & Hs & Hm).
  split; [apply (frame_keeps y); [cbn; in_list|done]|]. split; [done|]. split; [unfold bn_abs in *; by rewrite Ew|]. split; [congruence|].
  split; [congruence|done].
Qed.

(** Where the work on a result is done. *)
Definition place (p : option ptr) (x : ptr) (ts ts' : list ptr) s : Prop :=
  (ts' = ts /\ p = Some x /\ live s x) \/ (ts' = x :: ts).

Lemma take_own {B} numerator divisor p ts k s s1 (f : option ptr -> ST (bn_state H) B) Q : taken e ts s s1 -> (~ ctx_room (S k) s1 -> e) ->
  live s numerator -> live s divisor -> (forall r, p = Some r -> live s r) ->
  (forall x ts' s2, taken e ts' s s2 -> place p x ts ts' s -> x <> numerator -> x <> divisor -> (~ ctx_room k s2 -> e) -> ensures e (f (Some x)) s2 Q) ->
  (forall s', fst (f None s') = None) -> ensures e (st_bind (own_result numerator divisor p) f) s1 Q.
Proof.
  intros Ht Hroom Hln Hld Hlp Hf Hnone.
  assert (ensures e (st_bind (or_null BN_CTX_get) f) s1 Q) as Hget.
  { apply (take_temporary e He_mem ts k s s1); [done..| |done]. intros t s2 Ht2 Hroom2. pose proof Ht2 as (_ & _ & Hold & _).
    destruct (Hold numerator Hln) as (_ & _ & Hn). destruct (Hold divisor Hld) as (_ & _ & Hd). rewrite not_elem_of_cons in Hn, Hd.
    apply (Hf t (t :: ts)); [done|by right|..]; [intuition congruence|intuition congruence|done]. }
  unfold own_result. destruct p as [x|]; [|exact Hget]. destruct (Z.eqb_spec x numerator) as [|Hxn]; [exact Hget|].
  destruct (Z.eqb_spec x divisor) as [|Hxd]; [exact Hget|]. cbn [orb]. apply (Hf x ts s1); [done|left; auto|done|done|].
  eapply room_less; [|exact Hroom]. lia.
Qed.

Lemma place_in p x ts ts' s : place p x ts ts' s -> (forall t, t ∈ ts -> t ∈ ts').
Proof. intros [[-> _]| ->] t Ht; [done|by right]. Qed.

(** The work is done where nothing else is. *)
Lemma place_fresh p x ts ts' s s' : taken e ts' s s' -> place p x ts ts' s -> x ∉ ts.
Proof.
  intros (_ & Hnd & Hold & _) [(-> & _ & Hl)| ->]; [by destruct (Hold x Hl) as (_ & _ & ?)|]. by apply NoDup_cons in Hnd as [? _].
Qed.

(** A copy keeps the context as it is. *)
Lemma copy_out_steps p v w s s' : ctx_wf s -> (error (ctx s) = true -> e) -> (forall r, p = Some r -> r <> value_one_ptr) ->
  keeps (option_list p) s s' -> result_in p v w s (objs s') -> steps e s s'.
Proof.
  intros W He Hone (En & Ec & K) Hr. apply steps_same_ctx; [done| |done..]. apply (ctx_wf_objs s); [done..|]. intros q.
  destruct p as [r|]; [|left; apply K; apply not_elem_of_nil]. destruct (decide (q = r)) as [->|Hq].
  - right. destruct Hr as (? & _ & _ & _ & ? & _). split; [by apply Hone|done].
  - left. apply K. by intros Hin%list_elem_of_singleton.
Qed.

(** From the loops on. *)
Lemma div_consttime_rest ts2 ts3 quotient remainder q r tmp numerator divisor bits s s4 :
  taken e (tmp :: ts3) s s4 -> place quotient q [] ts2 s -> place remainder r ts2 ts3 s -> r ∉ ts2 ->
  (forall p, p ∈ [q; r; tmp] -> p <> numerator /\ p <> divisor) -> (forall p, quotient = Some p \/ remainder = Some p -> dest e p s) ->
  (quotient <> None -> remainder <> quotient) -> source numerator s -> source divisor s -> 0 < bn_abs (objs s divisor) -> bits <= BN_num_bits (objs s divisor) ->
  let a := bn_abs (objs s numerator) in let b := bn_abs (objs s divisor) in
  ensures e (div_consttime_loops q r tmp numerator divisor bits ;;; copy_out quotient q ;;; copy_out remainder r) s4 (fun _ s' => steps e s s' /\
    (forall p, live s p -> quotient <> Some p -> remainder <> Some p -> objs s' p = objs s p) /\
    result_in quotient (a / b) (width (objs s numerator)) s (objs s') /\ result_in remainder (a mod b) (width (objs s divisor)) s (objs s')).
Proof.
  intros Ht Hpq Hpr Hr2 Hops Hdest Hqr [Hln Hokn] [Hld Hokd] Hpos Hbits. cbv zeta.
  pose proof Ht as (St & Hnd & Hold & Hts). rewrite Forall_forall in Hts. apply NoDup_cons in Hnd as [Htmp _].
  pose proof (place_in _ _ _ _ _ Hpr) as Hin3.
  assert (forall p, live s p -> p ∉ tmp :: ts3) as Hfar by (intros p Hp; by destruct (Hold p Hp) as (_ & _ & ?)).
  assert (quotient = Some q /\ live s q \/ q ∈ ts3 /\ q ∈ ts2) as Hq.
  { destruct Hpq as [(_ & -> & ?)| ->]; [by left|right]. split; [apply Hin3|]; apply list_elem_of_singleton; done. }
  assert (remainder = Some r /\ live s r \/ r ∈ ts3) as Hr.
  { destruct Hpr as [(_ & -> & ?)| ->]; [by left|right]. by left. }
  assert (q <> r) as Hne.
  { intros ->. destruct Hq as [[Eq Hl]|[_ ?]]; [|done]. destruct Hr as [[Er _]|Hr]; [apply Hqr; congruence|]. apply (Hfar r Hl). by right. }
  assert (q <> tmp /\ r <> tmp) as [Hqt Hrt].
  { split; intros ->; [destruct Hq as [[_ Hl]|[? _]]; [|done]|destruct Hr as [[_ Hl]|?]; [|done]]; apply (Hfar tmp Hl); by left. }
  assert (forall x p, (p = Some x /\ live s x \/ x ∈ ts3) -> (forall y, p = Some y -> dest e y s) -> writable e (Some x) s4 /\ x <> value_one_ptr) as Hplace.
  { intros x p [[-> Hl]|Hin] Hd.
    - destruct (Hd x eq_refl) as (? & _ & ? & ?). destruct (Hold x Hl) as (Ex & _). unfold writable. by rewrite Ex.
    - destruct (Hts x ltac:(by right)) as (? & _ & (? & Hst) & _). unfold writable. rewrite Hst. done. }
  destruct (Hplace q quotient ltac:(tauto) ltac:(auto)) as [Hwq Hoq]. destruct (Hplace r remainder Hr ltac:(auto)) as [Hwr Hor]. clear Hplace.
  destruct (Hts tmp ltac:(by left)) as (Hot & _ & Htt & _). destruct (Hold numerator Hln) as (En & _). destruct (Hold divisor Hld) as (Ed & _).
  eapply ensures_bind; [apply (div_consttime_loops_spec q r tmp numerator divisor bits s4); rewrite ?En, ?Ed; done|].
  cbv beta zeta. rewrite En, Ed. set (a := bn_abs (objs s numerator)). set (b := bn_abs (objs s divisor)).
  intros _ s5 (K5 & Ht5 & (Hok5q & Hv5q & Hw5q & Hn5q & Hs5q & Hm5q) & (Hok5r & Hv5r & Hw5r & Hn5r & Hs5r & Hm5r)).
  pose proof St as (W4 & G4 & He4 & _). pose proof K5 as (Enx5 & Ec5 & K5').
  assert (forall x, (x = q \/ x = r \/ x = tmp) \/ objs s5 x = objs s4 x) as Hcase5.
  { intros x. destruct (decide (x ∈ [q; r; tmp])) as [Hx|Hx]; [left|right; by apply K5']. by rewrite !elem_of_cons, elem_of_nil in Hx; tauto. }
  assert (ctx_wf s5) as W5.
  { apply (ctx_wf_objs s4); [done..|]. intros x. destruct (Hcase5 x) as [[->|[->| ->]]|?]; [right|right|right|by left]; (split; [done|]); [by split|by split|].
    destruct Ht5 as [? ->], Htt as [_ ->]. done. }
  assert (error (ctx s5) = true -> e) as He5 by (rewrite Ec5; done).
  (* the objects of the caller after the loops *)
  assert (forall x, live s x -> x <> tmp) as Hltmp by (intros x Hl ->; apply (Hfar tmp Hl); by left).
  assert (forall x, live s x -> flag_static_data (objs s5 x) = flag_static_data (objs s x) /\ flag_malloced (objs s5 x) = flag_malloced (objs s x) /\
    (bn_ok (objs s x) -> bn_ok (objs s5 x)) /\ (x <> q -> x <> r -> objs s5 x = objs s x)) as Hl5.
  { intros x Hl. destruct (Hold x Hl) as (<- & _). pose proof (Hltmp x Hl).
    destruct (Hcase5 x) as [[->|[->| ->]]| ->]; [split; [done|split; [done|split; done]]|split; [done|split; [done|split; done]]|done|done]. }
  assert (forall y, quotient = Some y \/ remainder = Some y -> writable e (Some y) s5) as Hw5.
  { intros y Hy. destruct (Hdest y Hy) as (_ & Hl & Hok & Hst). destruct (Hl5 y Hl) as (Es & _ & Hok5 & _). split; [auto|]. by rewrite Es. }
  eapply ensures_bind; [apply (copy_out_spec quotient q (a / b) (width (objs s numerator))); try done; destruct quotient; [apply Hw5; by left|done]|].
  cbv beta. intros _ s6 [K6 R6].
  assert (steps e s5 s6) as St6 by (eapply copy_out_steps; [done|done| |exact K6|exact R6]; intros y Hy; apply (Hdest y); by left).
  pose proof K6 as (_ & _ & K6'). pose proof St6 as (W6 & _ & He6 & _).
  assert (forall x, quotient <> Some x -> objs s6 x = objs s5 x) as E6.
  { intros x Hx. apply K6'. destruct quotient as [y|]; [|apply not_elem_of_nil]. intros Hin%list_elem_of_singleton. congruence. }
  assert (quotient <> Some r) as Hqr'.
  { intros Eq. destruct Hr as [[Er _]|Hr]; [apply Hqr; congruence|]. destruct (Hdest r (or_introl Eq)) as (_ & Hl & _). apply (Hfar r Hl). by right. }
  assert (forall y, remainder = Some y -> quotient <> Some y) as Hry by (intros y Ey Eq; apply Hqr; congruence).
  eapply ensures_mono; [apply (copy_out_spec remainder r (a mod b) (width (objs s divisor))); rewrite ?E6; try done|].
  { destruct remainder as [y|]; [|done]. unfold writable. rewrite E6 by auto. apply Hw5. by right. }
  cbv beta. intros _ s7 [K7 R7].
  assert (steps e s6 s7) as St7 by (eapply copy_out_steps; [done|done| |exact K7|exact R7]; intros y Hy; apply (Hdest y); by right).
  pose proof K7 as (_ & _ & K7').
  assert (forall x, remainder <> Some x -> objs s7 x = objs s6 x) as E7.
  { intros x Hx. apply K7'. destruct remainder as [y|]; [|apply not_elem_of_nil]. intros Hin%list_elem_of_singleton. congruence. }
  split; [|split; [|split]].
  - apply (steps_trans e s s4); [done|]. apply (steps_trans e s4 s5); [by apply steps_same_ctx|]. by apply (steps_trans e s5 s6).
  - intros x Hl Hx1 Hx2. rewrite E7, E6 by done. destruct (Hl5 x Hl) as (_ & _ & _ & Hu). apply Hu; intros ->.
    + destruct Hq as [[? _]|[? _]]; [done|]. apply (Hfar q Hl). by right.
    + destruct Hr as [[? _]|?]; [done|]. apply (Hfar r Hl). by right.
  - destruct quotient as [y|]; [|done]. destruct R6 as (? & ? & ? & ? & Hs & Hm). destruct (Hdest y (or_introl eq_refl)) as (_ & Hl & _).
    destruct (Hl5 y Hl) as (Es & Em & _). cbn [result_in]. rewrite E7 by (apply Hqr; done). unfold holds. rewrite <- Es, <- Em. done.
  - destruct remainder as [y|]; [|done]. destruct R7 as (? & ? & ? & ? & Hs & Hm). destruct (Hdest y (or_intror eq_refl)) as (_ & Hl & _).
    destruct (Hl5 y Hl) as (Es & Em & _). rewrite E6 in Hs, Hm by auto. unfold result_in, holds. rewrite <- Es, <- Em. done.
Qed.

Lemma bn_div_consttime_ok quotient remainder numerator divisor bits s : ctx_wf s -> (~ ctx_room 4 s -> e) ->
  (forall p, quotient = Some p \/ remainder = Some p -> dest e p s) -> (quotient <> None -> remainder <> quotient) ->
  source numerator s -> source divisor s -> bits <= BN_num_bits (objs s divisor) ->
  let vn := objs s numerator in let vd := objs s divisor in
  ensures (e \/ neg vn = true \/ neg vd = true \/ bn_abs vd = 0) (bn_div_consttime quotient remainder numerator divisor bits) s (fun _ s' =>
    neg vn = false /\ neg vd = false /\ bn_abs vd <> 0 /\ ctx_wf s' /\ ctx_grow s s' /\ balanced e s s' /\
    (forall p, live s p -> quotient <> Some p -> remainder <> Some p -> objs s' p = objs s p) /\
    result_in quotient (bn_abs vn / bn_abs vd) (width vn) s (objs s') /\ result_in remainder (bn_abs vn mod bn_abs vd) (width vd) s (objs s')).
Proof.
  intros W Hroom Hdest Hqr [Hln Hokn] [Hld Hokd] Hbits vn vd. unfold bn_div_consttime. apply ensures_get, ensures_get. fold vn vd. unfold BN_is_negative.
  apply ensures_guard; [intros Hg%negb_false_iff%orb_true_iff; tauto|]. intros Hg%negb_true_iff. apply orb_false_iff in Hg as [Hnn Hnd].
  rewrite BN_is_zero_spec by done. assert (bn_val vd = bn_abs vd) as Evd by (unfold bn_val; by rewrite Hnd). rewrite Evd.
  apply ensures_guard; [intros Hg%negb_false_iff%Z.eqb_eq; auto|]. intros Hz%negb_true_iff%Z.eqb_neq. apply (ensures_weaken e); [|auto].
  pose proof (bn_abs_bound vd Hokd) as Hbd.
  eapply (ensures_mono _ _ _ (fun _ s' => ctx_wf s' /\ ctx_grow s s' /\ balanced e s s' /\
    (forall p, live s p -> quotient <> Some p -> remainder <> Some p -> objs s' p = objs s p) /\
    result_in quotient (bn_abs vn / bn_abs vd) (width vn) s (objs s') /\ result_in remainder (bn_abs vn mod bn_abs vd) (width vd) s (objs s'))); [|done].
  apply (with_ctx_spec e He_mem _ 3 s (fun _ o => (forall p, live s p -> quotient <> Some p -> remainder <> Some p -> o p = objs s p) /\
    result_in quotient (bn_abs vn / bn_abs vd) (width vn) s o /\ result_in remainder (bn_abs vn mod bn_abs vd) (width vd) s o)); [done..|].
  intros s1 W1 Eo Hlive He1 Hroom1.
  assert (forall p, quotient = Some p \/ remainder = Some p -> dest e p s1) as Hdest1.
  { intros p Hp. destruct (Hdest p Hp) as (? & ? & ? & ?). unfold dest. rewrite Eo. auto. }
  assert (forall s', fst (or_null BN_CTX_get s') <> None) as Hnn' by (intros s'; unfold or_null; by destruct (BN_CTX_get s')).
  eapply (take_own numerator divisor quotient [] 2 s1 s1); [by apply taken_nil|done|by apply Hlive|by apply Hlive|intros r Er; apply (Hdest1 r); auto| |].
  2: { intros s'. destruct remainder as [r|]; [unfold own_result; destruct (_ || _)|]; cbn [own_result].
       - apply or_null_fails. intros r2 s2. apply or_null_fails. by intros.
       - change (st_bind (st_ret (Some r)) ?k) with (k (Some r)). cbv beta. apply or_null_fails. by intros.
       - apply or_null_fails. intros r2 s2. apply or_null_fails. by intros. }
  intros q ts2 s2 Ht2 Hpq Hqn Hqd Hroom2.
  eapply (take_own numerator divisor remainder ts2 1 s1 s2); [done|done|by apply Hlive|by apply Hlive|intros r Er; apply (Hdest1 r); auto| |].
  2: { intros s'. apply or_null_fails. by intros. }
  intros r ts3 s3 Ht3 Hpr Hrn Hrd Hroom3. pose proof (place_fresh _ _ _ _ _ _ Ht3 Hpr) as Hr2.
  apply (take_temporary e He_mem ts3 0 s1 s3); [done..| |done]. intros tmp s4 Ht4 _. cbv iota.
  eapply ensures_mono.
  { apply (div_consttime_rest ts2 ts3 quotient remainder q r tmp numerator divisor bits s1 s4); try done; unfold source; rewrite ?Eo; auto.
    - pose proof Ht4 as (_ & _ & Hold & _). destruct (Hold numerator (Hlive _ Hln)) as (_ & _ & Hn). destruct (Hold divisor (Hlive _ Hld)) as (_ & _ & Hd).
      rewrite not_elem_of_cons in Hn, Hd. intros p. rewrite !elem_of_cons, elem_of_nil. intros [->|[->|[->|[]]]]; [done|done|]. split; intuition congruence.
    - fold vd. lia. }
  cbv beta zeta. rewrite Eo. intros _ s' (St & Hk & Hrest). split; [done|]. split; [intros p Hp; by apply Hk, Hlive|].
  unfold result_in in *. rewrite Eo in Hrest. exact Hrest.
Qed.
End div.

Section theorems.
Context {H : Type} `{MallocSpec H}.
Implicit Types s : bn_state H.

Definition consttime_refused (quotient remainder : option ptr) s : Prop :=
  ~ MallocTotal H \/ ~ ctx_room 4 s \/ (exists r, (quotient = Some r \/ remainder = Some r) /\ flag_static_data (objs s r) = true).

(** The constant-time division, which takes one bit of the numerator after
    the other but for the words that the known size of the divisor allows it to
    take at once, gives the quotient and the remainder of numbers that are not
    negative, as [BN_div] does, with the widths of the numerator and of the
    divisor.  Either result may be left out or be an operand.  Nothing else of
    the caller changes and the temporaries are given back.  Negative numbers and
    a zero divisor are refused; else it fails only when the allocator may, when
    there is no room in the context, or when a result has static words. *)
Theorem bn_div_consttime_spec quotient remainder numerator divisor bits s (Hargs : div_arguments quotient remainder numerator divisor s)
    (Hbits : bits <= BN_num_bits (objs s divisor)) :
  let vn := objs s numerator in
  let vd := objs s divisor in
  let e := consttime_refused quotient remainder s in
  let holds (p : option ptr) (v : Z) (w : nat) (s' : bn_state H) := forall r, p = Some r ->
    bn_ok (objs s' r) /\ width (objs s' r) = w /\ bn_val (objs s' r) = v in
  match bn_div_consttime quotient remainder numerator divisor bits s with
  | (Some _, s') =>
      neg vn = false /\ neg vd = false /\ bn_val vd <> 0 /\
      holds quotient (bn_val vn ÷ bn_val vd) (width vn) s' /\ holds remainder (Z.rem (bn_val vn) (bn_val vd)) (width vd) s' /\
      (forall p, live s p -> quotient <> Some p -> remainder <> Some p -> objs s' p = objs s p) /\
      ctx_wf s' /\ ctx_grow s s' /\ balanced e s s'
  | (None, _) => e \/ neg vn = true \/ neg vd = true \/ bn_val vd = 0
  end.
Proof.
  destruct Hargs as [W Hd [Hn Hdv] Hne]. cbv zeta. set (e := consttime_refused _ _ _).
  assert (forall n h, 0 <= n <= 2 ^ 62 -> fst (OPENSSL_malloc n h) = None -> e) as He_mem.
  { intros n h Hnb Hm. left. by eapply malloc_none_total. }
  pose proof (abs_bn_val _ (proj2 Hdv)) as Eabs. pose proof (bn_abs_bound _ (proj2 Hn)). pose proof (bn_abs_bound _ (proj2 Hdv)).
  assert (forall p v w s', result_in p v w s (objs s') -> forall r, p = Some r -> bn_ok (objs s' r) /\ width (objs s' r) = w /\ bn_val (objs s' r) = v) as Hres.
  { intros p v w s' Hp r ->. destruct Hp as (? & Hv & ? & Hneg & _). unfold bn_val. by rewrite Hneg. }
  assert (ensures (e \/ neg (objs s numerator) = true \/ neg (objs s divisor) = true \/ bn_abs (objs s divisor) = 0)
    (bn_div_consttime quotient remainder numerator divisor bits) s (fun _ s' => neg (objs s numerator) = false /\ neg (objs s divisor) = false /\
    bn_abs (objs s divisor) <> 0 /\ ctx_wf s' /\ ctx_grow s s' /\ balanced e s s' /\
    (forall p, live s p -> quotient <> Some p -> remainder <> Some p -> objs s' p = objs s p) /\
    result_in quotient (bn_abs (objs s numerator) / bn_abs (objs s divisor)) (width (objs s numerator)) s (objs s') /\
    result_in remainder (bn_abs (objs s numerator) mod bn_abs (objs s divisor)) (width (objs s divisor)) s (objs s'))) as Hok.
  { apply (bn_div_consttime_ok e He_mem); try done; [by right; left|].
    intros r Hr. destruct (Hd r Hr) as (? & ? & ?). split; [done|]. split; [done|]. split; [done|]. intros Hs. right. right. by exists r. }
  unfold ensures in Hok. destruct (bn_div_consttime _ _ _ _ _ s) as [[u|] s']; [|intuition lia].
  destruct Hok as (Hn0 & Hd0 & Hz & ? & ? & ? & ? & Hq & Hr). 
  assert (bn_val (objs s numerator) = bn_abs (objs s numerator) /\ bn_val (objs s divisor) = bn_abs (objs s divisor)) as [-> ->]
    by (unfold bn_val; by rewrite Hn0, Hd0).
  rewrite Z.quot_div_nonneg, Z.rem_mod_nonneg by lia.
  split; [done|]. split; [done|]. split; [done|]. split; [exact (Hres _ _ _ _ Hq)|]. split; [exact (Hres _ _ _ _ Hr)|]. by repeat (split; [done|]).
Qed.
End theorems.

(** [2^192 + 5] by [2^64 + 3], of which the 65 bits are known; the quotient over
    the numerator. *)
Lemma bn_div_consttime_spec_witness :
  let s := example_state [Bignum [5; 0; 0; 1] 4 false true false; Bignum [3; 1] 2 false true false; BN_init] in
  div_arguments (Some 2) (Some 4) 2 3 s /\
  exists s', bn_div_consttime (Some 2) (Some 4) 2 3 65 s = (Some tt, s') /\
    bn_val (objs s' 2) = (2 ^ 192 + 5) ÷ (2 ^ 64 + 3) /\ bn_val (objs s' 4) = Z.rem (2 ^ 192 + 5) (2 ^ 64 + 3).
Proof.
  intros s. assert (source 2 s /\ source 3 s /\ source 4 s) as (H2 & H3 & H4).
  { split_and!; (split; [by apply example_live|]); split; try (split; [first [apply le_n|apply le_0_n]|done]);
      [change (words_ok [5; 0; 0; 1])|change (words_ok [3; 1])|change (words_ok [])]; repeat (constructor; [done|]); constructor. }
  assert (div_arguments (Some 2) (Some 4) 2 3 s) as Hargs.
  { split; [by apply example_wf| |done|done]. intros r [[= <-]|[= <-]]; done. }
  split; [done|].
  assert (65 <= BN_num_bits (objs s 3)) as Hbits by (vm_compute; discriminate).
  pose proof (bn_div_consttime_spec (Some 2) (Some 4) 2 3 65 s Hargs Hbits) as Hs. cbv zeta in Hs.
  assert (fst (bn_div_consttime (Some 2) (Some 4) 2 3 65 s) = Some tt) as E by (vm_compute; reflexivity).
  destruct (bn_div_consttime (Some 2) (Some 4) 2 3 65 s) as [res s']. cbn [fst] in E. subst res. exists s'. split; [done|].
  destruct Hs as (_ & _ & _ & Hq & Hr & _). destruct (Hq 2 eq_refl) as (_ & _ & ->). destruct (Hr 4 eq_refl) as (_ & _ & ->).
  split; vm_compute; reflexivity.
Defined.
