(* ===== verification/BnMontCtx.v ===== *)
(** Setting up the contexts of [montgomery.c] with their constant [RR], by
    division or, in [montgomery_inv.c], in constant time. *)
From S2P Require Import Prelude Mem ConstTime Stack BnWords BnMul Bn BnProduct BnMont BnDiv.

Section mont_ctx.
Context {H : Type} `{Malloc H}.
#[local] Abbreviation M := (ST (bn_state H)).

Definition BN_BITS2_LG : nat := 6.

(** The square of [R]. *)
Definition set_RR (mont : BN_MONT_CTX) : M unit :=
  n <-- get (N mont) ;;
  let lgBigR := Z.of_nat (width n) * BN_BITS2 in
  BN_zero (RR mont) ;;;
  BN_set_bit (RR mont) (lgBigR * 2) ;;;
  BN_mod (RR mont) (RR mont) (N mont) ;;;
  n <-- get (N mont) ;;
  bn_resize_words (RR mont) (width n).

(** [new_ctx] says that the argument [ctx] is NULL. *)
Definition BN_MONT_CTX_set (mont : BN_MONT_CTX) (mod_ : ptr) (new_ctx : bool) : M BN_MONT_CTX :=
  mont <-- bn_mont_ctx_set_N_and_n0 mont mod_ ;;
  (if new_ctx then with_new_ctx (set_RR mont) else set_RR mont) ;;;
  st_ret mont.

Fixpoint repeat_st (n : nat) (m : M unit) : M unit :=
  match n with
  | O => st_ret tt
  | S n => m ;;; repeat_st n m
  end.

(** The assertions on the modulus are what [bn_mont_ctx_set_N_and_n0] ensures. *)
Definition bn_mont_ctx_set_RR_consttime (mont : BN_MONT_CTX) : M unit :=
  n <-- get (N mont) ;;
  let n_bits := BN_num_bits n in
  if n_bits =? 1 then
    BN_zero (RR mont) ;;;
    bn_resize_words (RR mont) (width n)
  else
    let lgBigR := Z.of_nat (width n) * BN_BITS2 in
    let threshold := Z.of_nat (width n) in
    BN_set_bit (RR mont) (n_bits - 1) ;;;
    bn_mod_lshift_consttime (RR mont) (RR mont) (threshold + (lgBigR - (n_bits - 1))) (N mont) ;;;
    repeat_st BN_BITS2_LG (BN_mod_mul_montgomery (RR mont) (RR mont) (RR mont) mont) ;;;
    n <-- get (N mont) ;;
    bn_resize_words (RR mont) (width n).

(** A new context that is freed when it cannot be set up. *)
Definition new_or_free (set : BN_MONT_CTX -> M BN_MONT_CTX) : M BN_MONT_CTX :=
  mont <-- BN_MONT_CTX_new ;;
  fun s =>
    match set mont s with
    | (Some mont, s) => (Some mont, s)
    | (None, s) => (BN_MONT_CTX_free (Some mont) ;;; st_fail) s
    end.

Definition BN_MONT_CTX_new_for_modulus (mod_ : ptr) (new_ctx : bool) : M BN_MONT_CTX :=
  new_or_free (fun mont => BN_MONT_CTX_set mont mod_ new_ctx).

Definition BN_MONT_CTX_new_consttime (mod_ : ptr) : M BN_MONT_CTX :=
  new_or_free (fun mont =>
    mont <-- bn_mont_ctx_set_N_and_n0 mont mod_ ;;
    bn_mont_ctx_set_RR_consttime mont ;;;
    st_ret mont).
End mont_ctx.
