(* ===== verification/BnMontCtxSpec.v ===== *)
(** A Montgomery context that is set up has the square of [R] modulo the modulus,
    and numbers go to the Montgomery domain and come back. *)
From S2P Require Import Prelude Mem ConstTime Stack StackSpec BnWords BnMul BnMulSpec Bn BnSpec BnCtxSpec BnProduct BnProductSpec BnMont BnMontSpec BnBytesSpec BnShiftSpec BnDiv BnDivSpec BnModSpec BnMontCtx.

(** * Residues *)

Lemma odd_coprime_wbase n k : Z.odd n = true -> Z.gcd n (wbase k) = 1.
Proof.
  intros Hn. unfold wbase. apply Z.coprime_pow_r; [lia|]. unfold Z.coprime. rewrite Z.gcd_comm, <- Z.gcd_mod by lia. by rewrite Zmod_odd, Hn.
Qed.

(** The power [R] can be cancelled modulo an odd number. *)
Lemma cancel_wbase n k x y : Z.odd n = true -> 0 < n -> (x * wbase k) mod n = (y * wbase k) mod n -> x mod n = y mod n.
Proof.
  intros Ho Hn He. pose proof (odd_coprime_wbase n k Ho) as Hg.
  assert ((n | wbase k * (x - y))) as Hd.
  { apply Z.mod_divide; [lia|]. rewrite Z.mul_comm, Z.mul_sub_distr_r, Zminus_mod, He, Z.sub_diag. by apply Z.mod_0_l; lia. }
  apply Z.gauss in Hd; [|done]. destruct Hd as [c Hc]. replace x with (y + c * n) by lia. apply Z.mod_add. lia.
Qed.

Lemma mont_modulus_odd n n0 : mont_modulus n n0 -> Z.odd (wval n) = true.
Proof.
  intros [_ _ _ Hi]. apply Z.mod_divide in Hi; [|done]. destruct Hi as [c Hc].
  assert (Z.odd (n0 * wval n) = true) as Ho.
  { replace (n0 * wval n) with (2 * (c * 2 ^ 63 - 1) + 1) by lia. by rewrite Z.odd_add, Z.odd_mul. }
  rewrite Z.odd_mul in Ho. by apply andb_true_iff in Ho as [_ ?].
Qed.

Lemma into_domain n k p a : Z.odd n = true -> 0 <= p < n -> let B := wbase k in
  (p * B) mod n = (a * ((B * B) mod n)) mod n -> p = (a * B) mod n.
Proof.
  intros Ho Hp B He. rewrite Zmult_mod_idemp_r, Z.mul_assoc in He. apply cancel_wbase in He; [|done|lia].
  by rewrite Z.mod_small in He by lia.
Qed.

Lemma out_of_domain n k w a : Z.odd n = true -> 0 <= w < n -> let B := wbase k in
  (w * B) mod n = ((a * B) mod n) mod n -> w = a mod n.
Proof.
  intros Ho Hw B He. rewrite Zmod_mod in He. apply cancel_wbase in He; [|done|lia]. by rewrite Z.mod_small in He by lia.
Qed.

Section mont_ctx.
Context {H : Type} `{MallocSpec H}.
Implicit Types s : bn_state H.
Context (e : Prop) (He_mem : forall n h, 0 <= n <= 2 ^ 62 -> fst (OPENSSL_malloc n h) = None -> e).

(** * A power of two *)

Lemma BN_set_bit_spec r n s : temp (objs s r) -> width (objs s r) = 0%nat -> 0 <= n -> (BN_MAX_WORDS < n / BN_BITS2 + 1 -> e) ->
  ensures e (BN_set_bit r n) s (fun _ s' => frame r s s' /\ temp (objs s' r) /\ bn_abs (objs s' r) = 2 ^ n /\ neg (objs s' r) = neg (objs s r) /\
    flag_malloced (objs s' r) = flag_malloced (objs s r) /\ width (objs s' r) = S (Z.to_nat (n / BN_BITS2))).
Proof.
  intros Ht Hw Hn Hmax. unfold BN_set_bit. rewrite (proj2 (Z.ltb_ge n 0)) by done. apply ensures_guard; [done|]. intros _.
  pose proof (pow2_words n Hn) as Hpow. set (i := Z.to_nat (n / BN_BITS2)) in *. assert (0 <= n / BN_BITS2) as Hdiv by (apply Z.div_pos; [done|unfold BN_BITS2; lia]).
  assert (0 <= n mod BN_BITS2 < 64) as Hj by (unfold BN_BITS2; dlia). set (j := n mod BN_BITS2) in *.
  apply ensures_get. change ((width (objs s r) <=? i)%nat) with (Nat.leb (width (objs s r)) i). rewrite (proj2 (Nat.leb_le _ _)) by lia.
  replace (Z.of_nat i + 1) with (Z.of_nat (i + 1)) by lia.
  eapply ensures_bind; [apply (wexpand_zeros e He_mem); [done|lia|intros; apply Hmax; unfold i in *; lia]|]. cbv beta.
  intros _ s1 (Hf & [Hok1 Hst1] & Hw1 & Ew & Hneg & Hma). apply ensures_upd. rewrite Hw, Nat.sub_0_r in Ew.
  assert (words (objs s r) = []) as E0 by (unfold words; by rewrite Hw). rewrite E0 in Ew. cbn [app] in Ew.
  set (b := objs s1 r) in *. pose proof Hok1 as (_ & Hl1 & Hm1). rewrite Hw1 in Hl1.
  assert (d b !!! i = 0) as Ei.
  { assert (words b !!! i = d b !!! i) as <- by (unfold words; rewrite Hw1; apply lookup_total_take_lt; lia). rewrite Ew. by apply lookup_total_replicate_2; lia. }
  rewrite objs_updated_same. fold b. rewrite Ei, Z.lor_0_l.
  assert (word (2 ^ j) /\ u64 (Z.shiftl 1 j) = 2 ^ j) as [Hwj ->].
  { assert (2 ^ j < 2 ^ 64) by (apply Z.pow_lt_mono_r; lia). assert (0 < 2 ^ j) by (apply Z.pow_pos_nonneg; lia).
    rewrite Z.shiftl_mul_pow2, Z.mul_1_l by lia. split; [unfold word; lia|]. by apply u64_of_word; unfold word; lia. }
  assert (words (with_d (put i [2 ^ j] (d b)) b) = replicate i 0 ++ [2 ^ j]) as Ew'.
  { unfold words in *. cbn [d width with_d]. rewrite Hw1 in *. unfold put. rewrite app_assoc, take_app_length' by (rewrite length_app, length_take; cbn; lia).
    f_equal. apply (f_equal (take i)) in Ew. rewrite take_take, take_replicate, !Nat.min_l in Ew by lia. done. }
  split; [auto|]. rewrite <- Hneg, <- Hma. split; [split; [|done]|split; [|split; [done|split; [done|cbn; lia]]]].
  - split; [rewrite Ew'; rewrite words_ok_app, words_ok_cons; split; [apply words_ok_replicate_0|split; [done|constructor]]|].
    cbn [d width with_d]. unfold Zlen in *. rewrite length_put by (cbn; lia). split; [lia|done].
  - unfold bn_abs. rewrite Ew', wval_app, wval_replicate_0, length_replicate, wval_cons, wval_nil, Hpow. lia.
Qed.

(** * The constant [RR] *)

(** Into the Montgomery domain: a number whose product is [R] times one. *)
Definition is_RR (mont : BN_MONT_CTX) s (p : BIGNUM) : Prop :=
  let n := objs s (N mont) in
  neg p = false /\ width p = width n /\ bn_abs p = (wbase (width n) * wbase (width n)) mod bn_abs n.

(** A context that is ready for use. *)
Record mont_ready (mont : BN_MONT_CTX) s : Prop := {
  mr_ok : mont_ok mont s;
  mr_live : live s (RR mont);
  mr_RR_ok : bn_ok (objs s (RR mont));
  mr_RR : is_RR mont s (objs s (RR mont));
}.

Lemma valued_nonneg v p : bn_ok p -> valued v p -> 0 <= v -> bn_abs p = v /\ neg p = false.
Proof.
  intros Hok [Hmin Hv] Hv0. pose proof (bn_abs_bound p Hok). unfold bn_val in Hv. destruct (neg p) eqn:En; [|done].
  pose proof (bn_minimal_signed p Hok Hmin En). lia.
Qed.

Lemma set_RR_spec mont s : ctx_wf s -> (~ ctx_room 5 s -> e) -> mont_ok mont s -> RR mont <> N mont -> RR mont <> value_one_ptr ->
  live s (RR mont) -> temp (objs s (RR mont)) ->
  ensures e (set_RR mont) s (fun _ s' => op_post e (RR mont) (is_RR mont s) s s').
Proof.
  intros W Hroom [Hln Hn Hmm Hmax] Hne Hone Hl Ht. unfold set_RR. apply ensures_get. pose proof (room_error e 5 s Hroom) as Herr.
  set (n := objs s (N mont)) in *. pose proof (mont_modulus_pos _ _ Hmm) as Hpos. fold (bn_abs n) in Hpos. pose proof (abs_bn_val n Hn) as Habs.
  change BN_MONTGOMERY_MAX_WORDS with 1024 in Hmax. set (lg := Z.of_nat (width n) * BN_BITS2).
  apply ensures_upd_bind. set (s1 := updated s (RR mont) _).
  assert (objs s1 (RR mont) = with_neg false (with_width 0 (objs s (RR mont)))) as E1 by (unfold s1; by rewrite objs_updated_same).
  assert (temp (objs s1 (RR mont))) as Ht1.
  { destruct Ht as [(_ & _ & Hm) Hst]. rewrite E1. split; [|done]. split; [constructor|]. split; [cbn; lia|done]. }
  eapply ensures_bind; [apply BN_set_bit_spec; [done|by rewrite E1|unfold lg, BN_BITS2; lia|]|].
  { rewrite BN_MAX_WORDS_eq. unfold lg, BN_BITS2. intros. dlia. }
  cbv beta. rewrite E1. intros _ s2 (Hf2 & [Hok2 Hst2] & Hv2 & Hn2 & Hm2 & Hw2).
  assert (op_post e (RR mont) (fun _ => True) s s2) as Hop2.
  { apply op_post_frame; try done; [apply (frame_trans _ s s1); [unfold s1; auto|done]|]. rewrite Hst2. symmetry. apply Ht. }
  pose proof Hop2 as (W2 & G2 & B2 & K2 & _). assert (objs s2 (N mont) = n) as En2 by (by apply K2; [|congruence]).
  assert (longer_at s2 (RR mont) (N mont) + 5 <= 3000)%nat as Hlong.
  { unfold longer_at, longer. rewrite En2. rewrite Hw2. unfold lg, BN_BITS2. dlia. }
  eapply ensures_bind.
  { eapply (ensures_weaken (e \/ bn_val n = 0)); [|intros [?|Hz]; [done|lia]]. rewrite <- En2.
    apply (BN_mod_ok e He_mem); rewrite ?En2; try done.
    - by eapply room_balanced.
    - split; [done|]. split; [by apply (live_grow s)|]. split; [done|]. congruence.
    - split; [by apply (live_grow s)|done].
    - split; [by apply (live_grow s)|done].
    - rewrite BN_MAX_WORDS_eq. lia. }
  cbv beta. rewrite En2. intros _ s3 (Hz & Hop3). pose proof (op_post_trans _ _ _ _ _ _ _ Hop2 Hop3 W) as Hop.
  pose proof Hop as (W3 & G3 & B3 & K3 & Hok3 & Hv3 & Hs3 & Hm3).
  assert (bn_val (objs s2 (RR mont)) = wbase (width n) * wbase (width n)) as EvR.
  { unfold bn_val. rewrite Hn2, Hv2. cbn [neg with_neg]. unfold wbase, lg, BN_BITS2. rewrite <- Z.pow_add_r by lia. f_equal. lia. }
  rewrite EvR in Hv3. pose proof (wbase_pos (width n)) as HB. set (B := wbase (width n)) in *.
  assert (Z.rem (B * B) (bn_val n) = (B * B) mod bn_abs n) as Erem.
  { rewrite <- Z.rem_abs_r, Habs by lia. apply Z.rem_mod_nonneg; [nia|lia]. }
  rewrite Erem in Hv3. pose proof (Z.mod_pos_bound (B * B) (bn_abs n) Hpos) as Hrb. destruct (valued_nonneg _ _ Hok3 Hv3) as [Hv3' Hn3']; [lia|].
  apply ensures_get. assert (objs s3 (N mont) = n) as En3 by (by apply K3; [|congruence]). rewrite En3.
  eapply ensures_mono.
  { apply (bn_resize_words_spec e He_mem); [done|rewrite Hs3; by destruct Ht as [_ ->]|rewrite BN_MAX_WORDS_eq; lia|].
    rewrite Hv3'. pose proof (bn_abs_bound n Hn). unfold B in *. lia. }
  cbv beta. intros _ s4 (Hf4 & Hok4 & Hv4 & Hw4 & Hn4 & Hs4 & Hm4). eapply op_post_then_frame; [exact Hop|done..|]. intros _.
  unfold is_RR. fold n. split; [congruence|]. split; [done|]. by rewrite Hv4, Hv3'.
Qed.

(** What [BN_MONT_CTX_set] is given: a context of its own numbers. *)
Record set_arguments (mont : BN_MONT_CTX) (m : ptr) s : Prop := {
  sa_wf : ctx_wf s;
  sa_N : N mont <> value_one_ptr /\ live s (N mont) /\ temp (objs s (N mont));
  sa_RR : RR mont <> value_one_ptr /\ live s (RR mont) /\ temp (objs s (RR mont));
  sa_differ : RR mont <> N mont /\ N mont <> m;
  sa_ok : bn_ok (objs s m);
}.

(** Only the objects [ps] of those of the caller may have changed, and the
    temporaries are given back. *)
Definition only (ps : list ptr) s s' : Prop :=
  ctx_wf s' /\ ctx_grow s s' /\ balanced e s s' /\ (forall q, live s q -> q ∉ ps -> objs s' q = objs s q).

Lemma mont_ok_after mont r Q s s' : ctx_wf s -> mont_ok mont s -> N mont <> r -> op_post e r Q s s' -> mont_ok mont s' /\ objs s' (N mont) = objs s (N mont).
Proof.
  intros W [Hl Hok Hmm Hmax] Hne (_ & G & _ & K & _). rewrite (K _ Hl Hne). split; [|done]. split; rewrite ?(K _ Hl Hne); try done.
  by apply (live_grow s).
Qed.

Lemma BN_MONT_CTX_set_ok mont m s : set_arguments mont m s -> (~ ctx_room 5 s -> e) -> let v := objs s m in
  ensures (e \/ Z.odd (bn_abs v) = false \/ neg v = true \/ wbase (Z.to_nat BN_MONTGOMERY_MAX_WORDS) <= bn_abs v)
    (BN_MONT_CTX_set mont m false) s (fun mont' s' => N mont' = N mont /\ RR mont' = RR mont /\ only [N mont; RR mont] s s' /\
      mont_ready mont' s' /\ bn_minimal (objs s' (N mont)) /\ bn_abs (objs s' (N mont)) = bn_abs v /\ neg (objs s' (N mont)) = false).
Proof.
  intros [W (HNo & HlN & HokN & HsN) (HRo & HlR & HtR) [Hne Hm] Hok] Hroom v. unfold BN_MONT_CTX_set.
  pose proof (room_error e 5 s Hroom) as Herr.
  eapply ensures_bind; [apply (bn_mont_ctx_set_N_and_n0_ok e He_mem); [done..|by rewrite HsN]|]. cbv beta zeta. fold v.
  intros mont' s1 (Hf1 & EN & ER & Hok1 & Hmin1 & Hv1 & Hneg1 & Hmm1 & Hmax1 & Hst1). apply (ensures_weaken e); [|auto].
  pose proof (frame_ctx_wf _ _ _ W HNo Hf1 Hok1 Hst1) as W1.
  assert (live s1 (N mont) /\ live s1 (RR mont)) as [HlN1 HlR1] by (split; by apply (live_grow s); [|eapply frame_grow|]).
  assert (mont_ok mont' s1) as Hmo1 by (split; by rewrite EN).
  assert (objs s1 (RR mont) = objs s (RR mont)) as ER1 by (by apply (words_frame _ _ _ _ Hf1)).
  eapply ensures_bind; [apply set_RR_spec; rewrite ?ER, ?EN, ?ER1; try done|].
  { intros Hr. apply Hroom. intros Hr'. apply Hr. destruct Hf1 as (_ & En & Ec). unfold ctx_room, base, pool in *. by rewrite En, Ec. }
  cbv beta. intros _ s2 Hop. apply ensures_ret. rewrite ER in Hop. assert (N mont' <> RR mont) as Hne' by (rewrite EN; congruence).
  destruct (mont_ok_after _ _ _ _ _ W1 Hmo1 Hne' Hop) as [Hmo2 EN2].
  pose proof Hop as (W2 & G2 & B2 & K2 & Hok2 & HR2 & _). rewrite EN in EN2.
  split; [done|]. split; [done|]. split; [|split; [split; rewrite ?ER; try done; [by apply (live_grow s1)|unfold is_RR in *; by rewrite EN, EN2 in *]|by rewrite EN2]].
  split; [done|]. split; [eapply ctx_grow_trans; [by eapply frame_grow|done]|]. split.
  - destruct Hf1 as (_ & En & Ec). unfold balanced in *. by rewrite Ec in B2.
  - intros q Hq Hqs. rewrite !not_elem_of_cons in Hqs. destruct Hqs as (? & ? & _). rewrite K2; [by apply (words_frame _ _ _ _ Hf1)| |done].
    apply (live_grow s); [done|by eapply frame_grow|done].
Qed.

(** * There and back *)

Lemma BN_from_montgomery_ok r a mont s : ctx_wf s -> (~ ctx_room 2 s -> e) -> dest e r s -> source a s -> mont_ok mont s -> N mont <> r ->
  neg (objs s a) = false -> bn_abs (objs s a) < bn_abs (objs s (N mont)) * wbase (width (objs s (N mont))) ->
  ensures e (BN_from_montgomery r a mont) s (fun _ s' => op_post e r (mont_result mont (bn_abs (objs s a)) s) s s').
Proof.
  intros W Hroom (Hone & Hlr & Hr & Hst) [Hla Ha] [Hln Hn Hmm Hnmax] Hnr Hna Hlt. unfold BN_from_montgomery.
  apply (with_ctx_spec e He_mem _ 1 s (fun _ o => result r (mont_result mont (bn_abs (objs s a)) s) s o)); [done|done|].
  intros s1 W1 Eo Hlive He1 Hroom1.
  eapply ensures_bind; [by apply (BN_CTX_get_spec e He_mem 0)|]. cbv beta. intros t s2 [Hgot _].
  pose proof Hgot as (W2 & G2 & Hnl & Hlt2 & Htone & Hkeep & (Hokt & _ & _ & Hstt) & _ & _ & Ee2).
  assert (forall q, live s q -> objs s2 q = objs s q /\ live s2 q /\ q <> t) as K2.
  { intros q Hq. split; [by rewrite Hkeep, Eo by auto|]. split; [exact (live_grow s1 s2 q W1 G2 (Hlive q Hq))|]. intros ->. by apply Hnl, Hlive. }
  destruct (K2 a Hla) as (Ea & Hla2 & Hat). destruct (K2 r Hlr) as (Er & Hlr2 & Hrt). destruct (K2 (N mont) Hln) as (En & Hln2 & Hnt).
  eapply ensures_bind; [apply (BN_copy_spec e He_mem); rewrite ?Ea, ?Hstt; done|]. cbv beta. rewrite Ea.
  intros _ s3 (Hf3 & Hok3 & Ew3 & Hw3 & Hn3 & Hst3 & _).
  assert (forall q, live s q -> objs s3 q = objs s q) as K3.
  { intros q Hq. destruct (K2 q Hq) as (Eq & _ & Hqt). by rewrite (words_frame _ _ _ _ Hf3). }
  assert (bn_abs (objs s3 t) = bn_abs (objs s a)) as Ev3 by (unfold bn_abs; by rewrite Ew3).
  assert (error (ctx s3) = true -> e) as He3 by (destruct Hf3 as (_ & _ & ->); rewrite Ee2; done).
  assert (ctx_wf s3) as W3 by (by apply (frame_ctx_wf t s2)).
  eapply ensures_mono.
  { apply (BN_from_montgomery_word_spec e He_mem); rewrite ?(K3 r Hlr), ?(K3 _ Hln), ?Ev3; try done; [congruence|by rewrite Hst3, Hstt|].
    rewrite BN_MAX_WORDS_eq. intros. change BN_MONTGOMERY_MAX_WORDS with 1024 in Hnmax. lia. }
  unfold reduced. cbv beta zeta. rewrite (K3 r Hlr), (K3 _ Hln), Ev3. intros _ s4 (Enx & Ec & Ho & [Hokt4 Hstt4] & Hok & Hs & Hm & Hw & Hneg & Hval & Hcong).
  split.
  - eapply steps_trans; [by eapply steps_got|]. apply (steps_trans e s2 s3); [by apply (steps_frame e t); [rewrite Ee2| |]|].
    apply steps_same_ctx; [done| |done..].
    apply (ctx_wf_objs s3); [done..|]. intros q. destruct (decide (q = r)) as [->|Hqr].
    { right. split; [done|]. split; [done|]. by rewrite (K3 r Hlr). }
    destruct (decide (q = t)) as [->|Hqt]; [|left; by apply Ho]. right. split; [done|]. split; [done|]. done.
  - split; [|split; [done|split; [done|done]]]. intros q Hq Hqr. destruct (K2 q Hq) as (Eq & Hq2 & Hqt). by rewrite Ho, K3.
Qed.

Lemma BN_to_montgomery_ok r a mont s : ctx_wf s -> (~ ctx_room 5 s -> e) -> dest e r s -> source a s -> mont_ready mont s -> N mont <> r ->
  bn_abs (objs s a) < wbase (width (objs s (N mont))) -> (BN_MAX_WORDS < 8 * Z.of_nat (longer_at s a (RR mont)) -> e) ->
  let n := objs s (N mont) in
  ensures (e \/ neg (objs s a) = true) (BN_to_montgomery r a mont) s (fun _ s' => neg (objs s a) = false /\
    op_post e r (fun p => neg p = false /\ width p = width n /\ bn_abs p = (bn_abs (objs s a) * wbase (width n)) mod bn_abs n) s s').
Proof.
  intros W Hroom (Hone & Hlr & Hr & Hst) [Hla Ha] [Hmo HlR HokR (HnR & HwR & HvR)] Hne Hlt Hmax n. fold n in HwR, HvR, Hlt.
  pose proof Hmo as [_ Hn Hmm _]. fold n in Hn, Hmm. pose proof (mont_modulus_pos _ _ Hmm) as Hpos. fold (bn_abs n) in Hpos.
  pose proof (wbase_pos (width n)) as HB. pose proof (Z.mod_pos_bound (wbase (width n) * wbase (width n)) (bn_abs n) Hpos) as HbR. rewrite <- HvR in HbR.
  pose proof (bn_abs_bound _ Ha) as Hba.
  eapply ensures_mono.
  { eapply (ensures_weaken (e \/ neg (objs s a) = true \/ neg (objs s (RR mont)) = true)); [|intros [?|[?|?]]; [auto..|congruence]].
    apply (BN_mod_mul_montgomery_ok e He_mem); [by split|done|done|]. fold n. nia. }
  cbv beta. intros _ s' (Hna & _ & Hop). split; [done|]. pose proof Hop as (_ & _ & _ & _ & Hok' & _).
  split; [apply Hop|]. split; [apply Hop|]. split; [apply Hop|]. destruct Hop as (_ & _ & _ & K & _ & (Hn' & Hw' & Hv' & Hc') & Hs' & Hm').
  split; [done|]. split; [done|]. split; [|done]. split; [done|]. split; [done|]. fold n in Hv', Hc'. rewrite HvR in Hc'.
  pose proof (bn_abs_bound _ Hok'). apply (into_domain _ (width n)); [by eapply mont_modulus_odd|lia|exact Hc'].
Qed.

(** Into the Montgomery domain and back. *)
Lemma montgomery_there_and_back r a mont s : ctx_wf s -> (~ ctx_room 5 s -> e) -> dest e r s -> source a s -> mont_ready mont s -> N mont <> r ->
  bn_abs (objs s a) < wbase (width (objs s (N mont))) -> (BN_MAX_WORDS < 8 * Z.of_nat (longer_at s a (RR mont)) -> e) ->
  let n := objs s (N mont) in
  ensures (e \/ neg (objs s a) = true) (BN_to_montgomery r a mont ;;; BN_from_montgomery r r mont) s (fun _ s' => neg (objs s a) = false /\
    op_post e r (fun p => neg p = false /\ width p = width n /\ bn_abs p = bn_abs (objs s a) mod bn_abs n) s s').
Proof.
  intros W Hroom Hr Ha Hready Hne Hlt Hmax n. pose proof Hready as [Hmo _ _ _].
  eapply ensures_bind; [by apply BN_to_montgomery_ok|]. cbv beta. fold n. intros _ s1 (Hna & Hop1). apply (ensures_weaken e); [|auto].
  destruct (mont_ok_after _ _ _ _ _ W Hmo Hne Hop1) as [Hmo1 En1]. fold n in En1. pose proof (dest_after _ _ _ _ _ W Hr Hop1) as Hr1.
  pose proof Hop1 as (W1 & G1 & B1 & _ & Hok1 & (Hn1 & Hw1 & Hv1) & _). pose proof Hmo as [_ Hokn Hmm _]. fold n in Hmm, Hokn.
  pose proof (mont_modulus_pos _ _ Hmm) as Hpos. fold (bn_abs n) in Hpos. pose proof (wbase_pos (width n)) as HB. pose proof (bn_abs_bound _ Hok1) as Hb1.
  pose proof (Z.mod_pos_bound (bn_abs (objs s a) * wbase (width n)) (bn_abs n) Hpos) as Hmb. rewrite <- Hv1 in Hmb.
  eapply ensures_mono.
  { apply BN_from_montgomery_ok; try done.
    - eapply room_balanced; [exact G1|exact B1|]. eapply room_less; [|exact Hroom]. lia.
    - destruct Hr1 as (_ & ? & ? & _). done.
    - rewrite En1. nia. }
  cbv beta. intros _ s2 Hop2. split; [done|]. pose proof Hop2 as (_ & _ & _ & _ & Hok2 & _). pose proof (bn_abs_bound _ Hok2).
  pose proof (op_post_trans _ _ _ _ _ _ _ Hop1 Hop2 W) as (? & ? & ? & ? & ? & (Hn2 & Hw2 & Hv2 & Hc2) & ?).
  split; [done|]. split; [done|]. split; [done|]. split; [done|]. split; [done|]. split; [|done].
  rewrite En1 in Hw2, Hv2, Hc2. split; [done|]. split; [done|]. rewrite Hv1 in Hc2.
  apply (out_of_domain _ (width n)); [by eapply mont_modulus_odd|lia|exact Hc2].
Qed.
End mont_ctx.

(** Both ways to set a context up give the same [RR]; an even modulus gives no
    context. *)
Example mont_ctx_new_example :
  let s := example_state [Bignum [13; 1] 2 false true false; Bignum [6] 1 false true false] in
  let RR_of (m : ST (bn_state Z) BN_MONT_CTX) :=
    match m s with (Some mont, s') => Some (bn_abs (objs s' (RR mont)), width (objs s' (RR mont))) | _ => None end in
  RR_of (BN_MONT_CTX_new_for_modulus 2 true) = Some (2 ^ 256 mod (2 ^ 64 + 13), 2%nat) /\
  RR_of (BN_MONT_CTX_new_for_modulus 2 false) = RR_of (BN_MONT_CTX_new_for_modulus 2 true) /\
  RR_of (BN_MONT_CTX_new_consttime 2) = RR_of (BN_MONT_CTX_new_for_modulus 2 true) /\
  RR_of (BN_MONT_CTX_new_for_modulus 3 true) = None.
Proof. vm_compute. done. Qed.
